(* ===== verification/_CoqProject ===== *)
-Q . S2P
Prelude.v
L7Base.v
ProtoText.v
ProtoSql.v
ProtoBin.v
Foundationdb.v
Types.v
Runtimes.v
Proc.v
File.v
Tcp.v
L7.v
L7Spec.v
L7Pairing.v
Tls.v
Object.v
ObjectSpec.v
Invariant.v
PyBase.v
PyPerf.v
PyPerfSpec.v
Profile.v
GoLib.v
GoFloat.v
GoText.v
GoRegexp.v
GoUtf8.v
GoNetip.v
GoLines.v
Common.v
Attach.v
Apps.v
Cgroup.v
Net.v
Decode.v
Typed.v
Parsers.v
ParsersSpec.v
Http2Parser.v
Tracing.v
ParsersLib.v
Container.v
ContainerSpec.v
Registry.v
RegistrySpec.v
Delivery.v
ProcNet.v
TailReader.v
CgroupStats.v
Symbols.v
SymbolFiles.v
ElfSymbols.v
ProcMaps.v
GCache.v
Session.v
Pprof.v
Statsd.v
StatsdSpec.v
StatsdPolicy.v
StatsdPolicySpec.v
StatsdAggregator.v
StatsdAggregatorSpec.v
StatsdFlush.v
StatsdReceiver.v
StatsdReceiverSpec.v
StatsdQueue.v
StatsdSpool.v
StatsdSpoolSpec.v
StatsdSpoolQueue.v
StatsdSpoolFifo.v
StatsdSpoolRetention.v
StatsdPipeline.v
StatsdPipelineSpec.v
StatsdDelivery.v
StatsdEndToEnd.v
