(* ===== verification/Prelude.v ===== *)
(** * Verification of codexray-node-agent: eBPF programs and event handling

    The agent watches a Linux host from inside the kernel and turns what it sees
    into metrics, traces and profiles of containers.  Five parts of it are modelled:

    - the tracer, ebpftracer/ebpf/ (C): it follows processes, opened files, TCP
      connections and the requests that travel over them, and hands events to
      the agent through perf buffers;
    - the profiler, internal/pyroscope-ebpf/bpf/ (C): on every CPU sample it counts
      the native stack of the running process or walks its Python frames;
    - the user-space half of the profiler, internal/pyroscope-ebpf/ and
      profiling/profiling.go (Go): it reads the counted stacks, resolves their
      addresses with the symbols of the kernel, of ELF files and of generated code, and
      builds one profile per target;
    - the event path of the agent (Go): decoding of the perf records
      (ebpftracer/tracer.go), the parsers of the payloads (ebpftracer/l7/), the
      identification of containers (cgroup/cgroup.go, containers/registry.go),
      their connections, traffic and request statistics
      (containers/container.go, containers/l7.go), the recognition of applications
      (containers/app.go, containers/process.go), the filters
      (common/net.go, common/container.go), the spans (tracing/tracing.go), the uprobes
      of libraries and executables (ebpftracer/elf.go, tls.go, nodejs.go, python.go), and
      what it reads of a container from files: sockets (proc/net.go), statistics of
      control groups (cgroup/) and logs (logs/tail_reader.go);
    - the DogStatsD service, dogstatsd/ (Go): it receives metrics of applications
      over UDP, aggregates them in windows, stores the windows in a spool on disk and
      sends them to a server.

    The tracer and the event path meet in Delivery, where the records the tracer writes are
    the input of the decoder, and the decoded events the input of the registry.  The records of
    a map are those of its rings, one for each CPU, in any interleaving of what the rings
    kept; what a full ring lost reaches the decoder as a count.

    ** How an eBPF program is modelled

    A program is a function [env -> arguments -> st -> st].  Its state [st] is a
    record of the BPF maps it shares with the other programs, plus the list of
    events written to each perf buffer.  Its environment [env] (Types) or [penv]
    (PyPerf) is what it reads from the kernel: pid and tgid, the clock, the CPU,
    memory, and the eviction choices of the LRU maps.  Nothing is assumed about
    an environment unless a theorem says so; [no_eviction] is such a hypothesis.

    - Integers are [Z] with the wrap-around of their C type written out
      ([u8] ... [u64], [s8] ... [s64]).
    - Memory is [mem := Z -> option Z], byte by byte; the probe-read helpers fail
      when any byte is missing.  Structs read from memory are decoded from their
      bytes at the offsets of the C layout (little-endian machines).
    - Early returns are [let? x := e else d in k].
    - [hash_update] and [lru_update] are [bpf_map_update_elem] with its flags,
      its error codes, the capacity of a hash map and the evictions of an LRU
      map; [percpu] is the slot of a per-CPU array, zero until it is written.
    - A program runs to its end before the next one starts.  Interleavings are
      those of whole runs, in any order and on any CPU; races of two programs
      running at once on the same entry are not modelled.

    ** How the Go code is modelled

    - Byte slices and strings are lists of byte values; [str] is a literal.  An
      operation that can panic returns [go A := Panic | Val a] (GoLib).
    - Maps are [gmap]s.  Where the order in which Go visits a map can matter it is
      an argument, and the theorems hold for each order that visits all entries.
    - Pointers to connections and containers are locations in a list of objects:
      the two maps of connections of a container, and the three maps of
      containers of the registry, alias the same objects as they do in the code.
    - Files of /proc, of control groups and of the symbol tables are their contents, or the
      absence of them; a log file is part of a disk that others change while it is read.
    - The kernel's uprobes are a list of open links; each attempt to make one takes the next
      entry of a list of outcomes.  Attach follows the links of all processes; in the
      registry a handler that attaches is given the kernel of its time.
    - The clock, other files of /proc, the inspection of container engines and the registration
      of metrics are fields of the environments [cenv], [genv] and [renv].
    - Packages that are not part of the repository (netaddr, hpack, dnsmessage, the
      BSON and ClickHouse libraries) are classes; what is used of their documented
      behaviour is a second class of laws ([NetaddrLaws], [ChProtoLaws]), with a
      concrete instance of each for the examples.  [Libs] bundles them.  So are the
      decoding of machine instructions ([Asm], [AsmLaws]), the LRU cache of the symbol
      tables ([LRU], [LRULaws]) and, since its order of equal elements is left open,
      sorting ([Sort]).
    - The handlers of the registry run one after the other; the collection of a
      container, done by a goroutine of its own under the lock of the container, and
      what the goroutine of a new process reads to instrument it are inputs of the
      same loop.
    - [float64] is the executable binary64 of the standard library with the rounding
      of Go (GoFloat).  UTF-8, netip addresses and number parsing are executable too.
    - The receiver is a transition system: the reader, the workers and the shutdown
      take their steps in any order.  Snapshot of the aggregator is two critical
      sections between which metrics can arrive.
    - The directory of the spool is a value; each system call consumes one entry of a
      list of faults and may succeed, fail or be the last before the machine stops.
      What a crash leaves is a relation: data that was not synced may be cut, names
      that were not synced may be missing.
    - The answers of the network are a list.  Protobuf and snappy are parameters.

    ** Files

    - Prelude: notations, integers, bytes, memory, maps, hint databases and the
      tactics of the development ([branch], [mod_lia], ...).
    - L7Base, Types: the constants of l7.c and ebpf.c, the structs the maps hold,
      and [env].
    - ProtoText, ProtoSql, ProtoBin, Foundationdb: one Module per protocol of
      ebpftracer/ebpf/l7/, one definition per detector ([is_http_request], ...).
    - Runtimes (nodejs.c, python.c), Proc (proc.c), File (file.c), Tcp
      (tcp/state.c, tcp/conntrack.c, tcp/retransmit.c): the handlers of these
      files under their C names.
    - L7 (l7/l7.c): [trace_enter_write], [trace_enter_read], [trace_exit_read]
      and the system-call handlers.  [classify_write], [track_request],
      [classify_read], [unsolicited], [match_response] and [respond] are
      consecutive parts of the C functions, split where the C has a cascade.
    - Tls (l7/openssl.c, l7/gotls.c): the uprobes, over the class [Arch] of
      register layouts with its instances for x86-64 and arm64 (vmlinux.h).
    - Object (ebpf.c): the programs over one state, with the update of the map of connections that the
      initial scan of init.go makes beside them, [run], and [reachable].
    - PyBase (hash.h, pid.h, pyoffsets.h, pystr.h, pthread_*.h, stacks.h), PyPerf
      (pyperf.bpf.c), Profile (profile.bpf.c, profile.bpf.h): the profiler.  The
      class [Pthread] is what the Python profiler needs from the thread library;
      both architectures are instances.
    - L7Spec, L7Pairing, ObjectSpec, Invariant, PyPerfSpec, Typed: specifications
      and the theorems about whole components of the two objects.
    - GoLib, GoText, GoLines, GoRegexp: what the Go code uses of the language and its standard library
      (slices, encoding/binary, strings, path, bufio.Scanner, a matcher for the regular
      expressions that only decide, and a backtracking one, proved sound and complete
      against the meaning of an expression, for those with groups).
    - Apps (containers/app.go, which processes containers/process.go instruments),
      Net (common/net.go), Cgroup (cgroup/cgroup.go), Decode (ebpftracer/tracer.go),
      Parsers, ParsersLib, Http2Parser (ebpftracer/l7/), Tracing
      (tracing/tracing.go), Container (containers/container.go, containers/l7.go),
      Registry (containers/registry.go, common/container.go): the agent.  A
      handler that is one function of the code is one definition; the branches of
      the switch of [handleEvents] and the loops of [gc] are named definitions.
    - ParsersSpec, ContainerSpec, RegistrySpec: what parsers, containers and the
      registry promise.
    - Common (common/version.go, kernel.go, otel.go, strings.go, volumes.go, file.go), Attach
      (ebpftracer/elf.go, tls.go, nodejs.go, python.go, the choice of the object in
      tracer.go, the probes of containers/process.go and how containers start, instrument and close
      processes, on which Container is built), ProcNet (proc/net.go), CgroupStats
      (cgroup/cpu.go, memory.go, io.go, psi.go, utils.go), TailReader
      (logs/tail_reader.go): probes and files.  Each holds its theorems.
    - Symbols (symtab/gosym/pcindex.go, symtab/table.go), SymbolFiles (symtab/kallsyms.go,
      perfmap.go), ElfSymbols (symtab/elf/), ProcMaps (symtab/procmap.go, proc.go, elf.go),
      GCache (symtab/gcache.go), Session (session.go, session_maps.go, TargetFinder of
      profiling.go), Pprof (pprof/pprof.go): the user-space half of the profiler, in the
      order in which one uses the other, each with its theorems.
    - Delivery: from a run of the tracer object to the statistics of a container.
    - GoFloat, GoUtf8, GoNetip: binary64, UTF-8 and net/netip of Go.
    - Statsd (dogstatsd/types.go, normalize.go, parser.go, mapping.go), StatsdPolicy
      (safeguards.go, buffer.go, pressure.go), StatsdAggregator (aggregator.go),
      StatsdReceiver (receiver.go), StatsdSpool (spool.go), StatsdPipeline
      (pipeline.go, sender.go): the service, one definition per function.
    - StatsdSpec, StatsdPolicySpec, StatsdAggregatorSpec, StatsdFlush,
      StatsdReceiverSpec, StatsdQueue, StatsdSpoolSpec, StatsdSpoolQueue,
      StatsdSpoolFifo, StatsdSpoolRetention, StatsdPipelineSpec, StatsdDelivery: the
      theorems about one of these parts each; StatsdEndToEnd: a window from the
      aggregator to the server.

    ** What is proved

    - Of the tracer object: every event and every entry of the connection maps is
      about a descriptor its process called connect on or that the initial scan of the
      agent found open, after any sequence of
      program runs (ObjectSpec.events_come_from_connect); a run reports at most
      one L7 event, two for sendmmsg, each about a tracked connection
      (run_l7_events); the invariant of buffers and maps holds in every
      reachable state (Invariant.reachable_ok); every field of what it writes has
      the width the C struct gives it (Typed.exec_typed).
    - Of L7 tracing: the byte counters refine an abstract accounting, by call, of
      plain and vectored transfers (L7Spec.accounting_refines, close_reports_transfers); gathering of vectored
      buffers stays in bounds and yields a prefix of the data
      (read_iovec_bounds, read_iovec_gathers); what happens to a pending request
      (L7Pairing.pending_request_outcome, first_request_wins) and a whole HTTP
      exchange from write to event (http_exchange).
    - Of the detectors: equivalence with a reference (HTTP), round trips of
      printed headers (HTTP status, Kafka, HTTP/2, PostgreSQL), independence of
      how a response is split over reads (MongoDB, ZooKeeper), exclusion of
      requests and responses (DNS), soundness (RabbitMQ).
    - Of TCP, files, processes and runtimes: life cycles from the first to the
      last handler (Tcp.connection_lifecycle, connection_failure,
      nat_destination_reported, File.trace_enter_open_decides,
      File.watched_open_reported, Proc.oom_kill_reported,
      Runtimes.blocked_time_accumulates, wait_time_accumulates).
    - Of the profiler: the chain of tail calls ends and equals one walk over 96
      frames (PyPerfSpec.pyperf_collect_is_walk), stays in its buffers
      (pyperf_collect_ok), symbol identifiers are unique across CPUs
      (get_symbol_id_unique), the stack hash is MurmurHash64A
      (Hash.MurmurHash64A_ref), processes are asked about once
      (Profile.process_lifecycle).
    - Of the symbol tables: the bisection of the index equals a scan
      (Symbols.FindIndex_scan); an address has the last function that begins at or below it, of the
      kernel (SymbolFiles.kernel_symbol_resolved) and of an ELF file from the bytes of its static
      and dynamic symbols (ElfSymbols.elf_symbol_resolved), and the function that contains it of
      generated code, where later entries replace earlier ones (generated_code_resolved); printed memory maps are read back and the
      base of a module is the one the kernel chose (ProcMaps.maps_parsed, findBase_bias,
      address_in_module); a table that is used is not dropped (GCache.active_entry_kept).
    - Of profiles: each counter of a round is reported with the names of its stack, for processes
      that are new to the session (Session.profile_stack_named), nothing is kept of a process that is dead
      (dead_process_forgotten), and a profile holds the samples it was made of
      (Pprof.profiles_hold_samples).
    - Of probes: each that is open is held by one process, whatever fails and in whatever order processes
      start, connect, are instrumented and end, and by a running one when processes end
      before others take their numbers and after their instrumentation
      (Attach.probes_owned); the object chosen is the newest for the kernel
      (newest_program_chosen).
    - Of files: printed versions are read back and compared as numbers
      (Common.version_printed, GreaterOrEqual_code), truncated strings end at a
      character (TruncateUtf8_spec); printed statistics of version 2 groups are reported
      (CgroupStats.cgroup2_stats_read); a log of whole lines is followed line by line
      (TailReader.lines_followed); what a collection keeps are the connections that the
      tables of the kernel list (ProcNet.collection_follows_kernel).
    - Of the parsers: prepared statements of PostgreSQL and MySQL are an abstract
      table of statements, also when texts are cut off (ParsersSpec.postgres_statements,
      mysql_statements);
      printed commands are read back (ParseRedis_command, ParseMemcached_keys,
      ParseHttp_request_line, ParseZookeeper_request); an HTTP/2 request is
      reported with the method, path, scheme, status and duration of its header fields once it
      is answered, and forgotten if it never is (Http2Parser.http2_exchange, http2_unanswered_forgotten).
    - Of the filters and of identification: the connection filter refines a
      set of allowed addresses (Net.connection_filter_refines); the id of a Docker,
      CRI-O or containerd container is 64 characters of the path of its control
      group (Cgroup.container_id_shape).
    - Of applications: which processes are instrumented as Python or Node.js, from the
      meaning of the regular expressions (Apps.instrument_outcome, with
      GoText.MatchString_spec for the matcher).
    - Of containers: the tables of connections are consistent (container_table_ok),
      a request counts for the destination of the connection it was seen on
      (request_attribution), the bytes credited to a destination are those of its
      connections (traffic_accounted), stale entries are collected (gc_collects).
    - Of the registry: its maps and its containers stay consistent under any inputs
      (RegistrySpec.registry_consistent); a container without processes is
      forgotten with all references to it (tick_forgets_dead).
    - Of the whole path: each record of the tracer that its ring did not lose is decoded to the
      event it describes, in the order of its CPU (Delivery.kernel_events_delivered); no
      sequence of program runs makes the agent panic, only a process with a blank command
      name does, while the files it reads are well-formed (agent_panics_only_on_blank); an
      HTTP exchange between two system calls ends up as one request, one latency and one
      span of the right destination and status (http_request_counted).
    - Of the DogStatsD parts: printed metrics of all types are read back
      (StatsdSpec.parseLine_printed); the limiter keeps its caps and its counts over
      any run (StatsdPolicySpec.limiter_run); a flush yields what was added to the
      window (StatsdAggregatorSpec.window_flushed) and the memory stays bounded when
      metrics arrive during a snapshot (StatsdFlush.interleaved_bounded); the fate of each line of
      a packet is counted, and every counter is explained by it (StatsdReceiverSpec.processPacket_accounts), sources are
      filtered by prefix (sources_spec), the queue is bounded and accounted for
      (StatsdQueue.receiver_queue) and a shutdown can always empty it (receiver_drains).
    - Of the spool: a batch is stored as a whole or not at all, under every fault and
      crash (StatsdSpoolSpec.PutBatch_atomic); the spool is a first-in first-out queue
      of payloads (StatsdSpoolFifo.spool_fifo) within its capacity
      (StatsdSpoolQueue.PutBatch_bounded); what is removed by age and size is as
      configured (StatsdSpoolRetention.Maintain_spec).
    - Of the delivery of metrics: the encoding ends, with batches within the limit
      that decode to the window (StatsdPipelineSpec.encode_batches); a window leaves the memory only when it is
      stored with all its series and labels (StatsdDelivery.flush_safe), a file leaves the queue only when it is the
      oldest and was accepted, rejected for good or unreadable, or when it is too old (replay_safe), under every fault;
      without faults, and with a server that accepts, a window arrives complete, labelled and in
      order (StatsdEndToEnd.window_delivered); retries back off within limits
      (retry_backoff).
    - Where the code departs from its intent the theorem states what it does:
      L7Pairing.mysql_query_reported_as_close, L7Spec.vectored_read_counts_capacity,
      Redis.is_redis_response_long, Rabbitmq.rabbitmq_length_wraps,
      GoTls.go_read_id_collides, Pid.current_pid_scans,
      Fdb.is_known_reply_file_id_wrapper, Http2Parser.http2_refused_block_reparsed,
      ContainerSpec.replaced_connection_kept, Delivery.truncated_query_unmarked,
      Apps.guess_panics, StatsdDelivery.oversized_window_stuck and
      read_error_quarantines, StatsdSpoolRetention.quarantine_overwrites,
      StatsdFlush.bytes_overrun, le_tag_collides and tiny_rate_nan,
      Session.perf_error_ends_profiling, Symbols.wide_address_panics,
      ElfSymbols.elf32_one_name and empty_section_panics,
      ProcMaps.second_copy_misresolved, Attach.go_tls_probe_leaked,
      oversized_symbol_panics and replaced_process_leaks, TailReader.line_in_pieces_cut and rotated_lines_lost,
      ProcNet.exited_process_hides_connections.

    ** Bounds and fuel

    Loops with a constant bound in C recurse on that bound: 32 buffers of a
    vectored call, 8 cells, 32 frames per program, 48 words of the hash, 4
    namespaces, 2 messages of sendmmsg.  The chain of tail calls of the Python
    profiler takes fuel; 3 is enough by [pyperf_collect_is_walk], because the third
    program never calls on.  Of the Go loops, the frames of HTTP/2, the nested
    operations of ZooKeeper and the settings of ClickHouse take the length of the
    payload plus one, since each turn consumes a byte; [ParseZookeeper_total],
    [ParseClickhouse_total] and [onL7Request_total] show that it is enough.  The two
    loops of [encodeCustomBatches] take the number of series, of which each turn
    excludes one; [encode_batches] shows that it is enough.  Bisection takes the length of the
    interval, which each turn makes smaller; [bisect_spec] shows that it is enough.  The
    search for return instructions takes the length of the code, of which [AsmLaws] lets
    each turn consume a byte; the star of a regular expression takes the length of the
    input, since a turn that consumes nothing is not taken; a hexadecimal number of 64 bits
    has 16 digits; strings of ELF files are read in 10 pieces, the bound of the code.

    ** Not modelled

    The verifier, attachment and loading of the programs; logging macros; the
    kernel structures read through CO-RE relocations, which are fields of [penv];
    the stack maps of [bpf_get_stackid], whose result is a field of [penv].

    Of the agent: how the scan at start finds processes and sockets; the exposition of metrics (Collect), log
    parsing, mounts, GPU, JVM and .NET monitors; the readers of node, of disks and of file
    descriptors, which are little more than system calls; the clients of container engines
    and of journald; data races between goroutines.

    Of the user-space half of the profiler: Python stacks and the generated tables of
    offsets; the line tables of Go binaries, mini debug info, debug files and the cache by
    build id, so that the symbol table of a file is an argument of [load]; demangling;
    the start and stop of the programs and the upload of profiles. *)

From Stdlib Require Import Strings.Byte.
From Stdlib Require Export ZArith Lia ZifyBool.
From stdpp Require Export base gmap list strings.
#[global] Open Scope Z_scope.

(** ** Notations *)

Declare Scope cchar_scope.
Delimit Scope cchar_scope with cc.

Definition char_parse (b : Byte.byte) : option Z := Some (Z.of_N (Byte.to_N b)).
Definition char_print (z : Z) : option Byte.byte := Byte.of_N (Z.to_N z).

(** C character literals denote their code: ["G"%cc] is ['G']. *)
String Notation Z char_parse char_print : cchar_scope.

Declare Scope bpf_scope.
Delimit Scope bpf_scope with bpf.
#[global] Open Scope bpf_scope.

(** [let? x := e else d in k]: the early return of the C code; [d] is what the
    function returns when [e] is absent (a NULL lookup, a failed read). *)
Notation "'let?' x ':=' e 'else' d 'in' k" :=
  (match e with Some x => k | None => d end)
  (at level 10, x pattern, e at level 100, d at level 100, k at level 200,
   format "'[v' 'let?'  x  ':='  e  'else'  d  'in' '/' k ']'") : bpf_scope.

(** [b.[i]]: element [i] of a local array. *)
Notation "b .[ i ]" := (nth i%nat b 0)
  (at level 1, left associativity, format "b .[ i ]") : bpf_scope.

(** ** Machine integers

    A w-bit integer is a [Z]; [uN]/[sN] are the conversions of C to the
    unsigned/signed type of that width. *)

Definition u8 (z : Z) : Z := z mod 2^8.
Definition u16 (z : Z) : Z := z mod 2^16.
Definition u32 (z : Z) : Z := z mod 2^32.
Definition u64 (z : Z) : Z := z mod 2^64.
Definition s8 (z : Z) : Z := (z + 2^7) mod 2^8 - 2^7.
Definition s16 (z : Z) : Z := (z + 2^15) mod 2^16 - 2^15.
Definition s32 (z : Z) : Z := (z + 2^31) mod 2^32 - 2^31.
Definition s64 (z : Z) : Z := (z + 2^63) mod 2^64 - 2^63.

(** A left shift of a 64-bit word, and the right shift that extracts the tgid. *)
Definition shl64 (z n : Z) : Z := u64 (Z.shiftl z n).

#[global] Arguments u8 : simpl never.
#[global] Arguments u16 : simpl never.
#[global] Arguments u32 : simpl never.
#[global] Arguments u64 : simpl never.
#[global] Arguments s8 : simpl never.
#[global] Arguments s16 : simpl never.
#[global] Arguments s32 : simpl never.
#[global] Arguments s64 : simpl never.

Ltac unfold_int := unfold u8, u16, u32, u64, s8, s16, s32, s64 in *.

(** Arithmetic modulo powers of two: expose the Euclidean equations to [lia]. *)
Ltac mod_lia := unfold_int; Z.to_euclidean_division_equations; lia.

Lemma u8_range z : 0 <= u8 z < 256.
Proof. mod_lia. Qed.
Lemma u16_range z : 0 <= u16 z < 65536.
Proof. mod_lia. Qed.
Lemma u32_range z : 0 <= u32 z < 4294967296.
Proof. mod_lia. Qed.
Lemma u64_range z : 0 <= u64 z < 18446744073709551616.
Proof. mod_lia. Qed.
Lemma s16_range z : -32768 <= s16 z < 32768.
Proof. mod_lia. Qed.
Lemma s32_range z : -2147483648 <= s32 z < 2147483648.
Proof. mod_lia. Qed.

Lemma u8_small z : 0 <= z < 256 -> u8 z = z.
Proof. intros; apply Z.mod_small; lia. Qed.
Lemma u16_small z : 0 <= z < 65536 -> u16 z = z.
Proof. intros; apply Z.mod_small; lia. Qed.
Lemma u32_small z : 0 <= z < 4294967296 -> u32 z = z.
Proof. intros; apply Z.mod_small; lia. Qed.
Lemma u64_small z : 0 <= z < 18446744073709551616 -> u64 z = z.
Proof. intros; apply Z.mod_small; lia. Qed.
Lemma s32_small z : -2147483648 <= z < 2147483648 -> s32 z = z.
Proof. intros; unfold s32; rewrite Z.mod_small; lia. Qed.
Lemma s16_small z : -32768 <= z < 32768 -> s16 z = z.
Proof. intros; unfold s16; rewrite Z.mod_small; lia. Qed.

Lemma u64_idemp z : u64 (u64 z) = u64 z.
Proof. apply Z.mod_mod; lia. Qed.
Lemma u64_add_l a b : u64 (u64 a + b) = u64 (a + b).
Proof. apply Zplus_mod_idemp_l. Qed.
Lemma u64_add_r a b : u64 (a + u64 b) = u64 (a + b).
Proof. apply Zplus_mod_idemp_r. Qed.

Create HintDb ints.
Create Rewrite HintDb ints.
#[export] Hint Rewrite u64_idemp u64_add_l u64_add_r : ints.
#[export] Hint Resolve u8_range u16_range u32_range u64_range s16_range s32_range : ints.

(** ** Byte strings and byte order *)

(** Little-endian value of a byte string: how a load of an integer object reads
    memory on the (little-endian) targets the programs are built for. *)
Fixpoint le (bs : list Z) : Z :=
  match bs with
  | [] => 0
  | b :: bs => b + 256 * le bs
  end.

(** The byte strings of memory. *)
Definition bytes_ok (bs : list Z) : Prop := Forall (fun b => 0 <= b < 256) bs.

(** [___bpf_mvb(x, b, n, m)]: byte [n] of the [b]-bit [x] moved to byte [m].
    The promoted 16-bit operand is an [int]; the 16-bit result is cast back. *)
Definition bpf_mvb (x b n m : Z) : Z :=
  Z.shiftl (Z.shiftr (Z.shiftl (x mod 2^b) (b - (n+1)*8) mod 2^b) (b - 8)) (m*8).

Definition bpf_swab16 (x : Z) : Z :=
  u16 (Z.lor (bpf_mvb x 16 0 1) (bpf_mvb x 16 1 0)).

Definition bpf_swab32 (x : Z) : Z :=
  u32 (Z.lor (Z.lor (Z.lor (bpf_mvb x 32 0 3) (bpf_mvb x 32 1 2))
                    (bpf_mvb x 32 2 1)) (bpf_mvb x 32 3 0)).

Definition bpf_htons (x : Z) : Z := bpf_swab16 x.
Definition bpf_ntohs (x : Z) : Z := bpf_swab16 x.
Definition bpf_htonl (x : Z) : Z := bpf_swab32 x.
Definition bpf_ntohl (x : Z) : Z := bpf_swab32 x.

(** [n]-byte little-endian field at offset [off] of a struct read from memory. *)
Definition field (bs : list Z) (off n : nat) : Z := le (take n (drop off bs)).

#[global] Arguments field : simpl never.
#[global] Arguments bpf_swab16 : simpl never.
#[global] Arguments bpf_swab32 : simpl never.

Lemma le_bound bs : bytes_ok bs -> 0 <= le bs < 256 ^ Z.of_nat (length bs).
Proof.
  induction 1 as [|b bs Hb _ IH]; cbn -[Z.pow Z.mul]; [lia|].
  rewrite Nat2Z.inj_succ, Z.pow_succ_r by lia. lia.
Qed.

(** Disjoint bit fields: [lor] is addition. *)
Lemma lor_shiftl_add hi lo k :
  0 <= k -> 0 <= lo < 2^k -> Z.lor (Z.shiftl hi k) lo = hi * 2^k + lo.
Proof.
  intros Hk Hlo. rewrite <-Z.shiftl_mul_pow2, <-Z.add_lor_land by lia.
  enough (Z.land (Z.shiftl hi k) lo = 0) as -> by lia.
  apply Z.bits_inj'; intros i Hi. rewrite Z.land_spec, Z.bits_0.
  destruct (Z.lt_ge_cases i k).
  - by rewrite Z.shiftl_spec_low.
  - rewrite <-(Z.mod_small lo (2^k)), Z.mod_pow2_bits_high by lia. apply andb_false_r.
Qed.

Lemma lor_shiftl_add_r hi lo k :
  0 <= k -> 0 <= lo < 2^k -> Z.lor lo (Z.shiftl hi k) = hi * 2^k + lo.
Proof. intros. by rewrite Z.lor_comm, lor_shiftl_add. Qed.

Lemma bpf_mvb_spec x b n m :
  0 <= n -> 0 <= m -> (n + 1) * 8 <= b ->
  bpf_mvb x b n m = Z.shiftl ((x / 2^(n*8)) mod 256) (m*8).
Proof.
  intros Hn Hm Hb. unfold bpf_mvb. f_equal.
  rewrite Z.shiftl_mul_pow2, Z.shiftr_div_pow2 by lia.
  apply Z.bits_inj'; intros i Hi.
  change 256 with (2^8). rewrite <-Z.shiftl_mul_pow2, <-!Z.shiftr_div_pow2 by lia.
  rewrite !Z.shiftr_spec by lia.
  destruct (Z.lt_ge_cases i 8).
  - rewrite !Z.mod_pow2_bits_low, Z.shiftl_spec, Z.shiftr_spec, Z.mod_pow2_bits_low by lia.
    f_equal; lia.
  - by rewrite !Z.mod_pow2_bits_high by lia.
Qed.

(** The byte swaps reverse the bytes of the integer. *)
Lemma bpf_swab16_le a b :
  0 <= a < 256 -> 0 <= b < 256 -> bpf_swab16 (le [a; b]) = 256 * a + b.
Proof.
  intros. cbn [le]. unfold bpf_swab16. rewrite !bpf_mvb_spec by lia.
  cbn [Z.mul Pos.mul]. rewrite Z.shiftl_0_r.
  rewrite lor_shiftl_add by mod_lia. mod_lia.
Qed.

Lemma bpf_swab32_le a b c d :
  0 <= a < 256 -> 0 <= b < 256 -> 0 <= c < 256 -> 0 <= d < 256 ->
  bpf_swab32 (le [a; b; c; d]) = 16777216 * a + 65536 * b + 256 * c + d.
Proof.
  intros. cbn [le]. unfold bpf_swab32. rewrite !bpf_mvb_spec by lia.
  replace (((a + 256 * (b + 256 * (c + 256 * (d + 256 * 0)))) / 2 ^ (0 * 8)) mod 256) with a by mod_lia.
  replace (((a + 256 * (b + 256 * (c + 256 * (d + 256 * 0)))) / 2 ^ (1 * 8)) mod 256) with b by mod_lia.
  replace (((a + 256 * (b + 256 * (c + 256 * (d + 256 * 0)))) / 2 ^ (2 * 8)) mod 256) with c by mod_lia.
  replace (((a + 256 * (b + 256 * (c + 256 * (d + 256 * 0)))) / 2 ^ (3 * 8)) mod 256) with d by mod_lia.
  change (0*8) with 0. rewrite Z.shiftl_0_r.
  rewrite <-!Z.lor_assoc.
  rewrite (lor_shiftl_add c d) by lia.
  rewrite (lor_shiftl_add b) by lia.
  rewrite (lor_shiftl_add a) by lia.
  rewrite u32_small; lia.
Qed.

Lemma bpf_swab32_range x : 0 <= bpf_swab32 x < 4294967296.
Proof. apply u32_range. Qed.

(** The big-endian encodings of the wire. *)
Definition be2 (z : Z) : list Z := [z / 256 mod 256; z mod 256].
Definition be4 (z : Z) : list Z :=
  [z / 16777216 mod 256; z / 65536 mod 256; z / 256 mod 256; z mod 256].

Lemma bpf_ntohl_be4 z : 0 <= z < 4294967296 -> bpf_ntohl (le (be4 z)) = z.
Proof. intros. unfold bpf_ntohl, be4. rewrite bpf_swab32_le by mod_lia. mod_lia. Qed.
Lemma bpf_ntohs_be2 z : 0 <= z < 65536 -> bpf_ntohs (le (be2 z)) = z.
Proof. intros. unfold bpf_ntohs, be2. rewrite bpf_swab16_le by mod_lia. mod_lia. Qed.

Lemma bpf_swab32_s32 x : bpf_swab32 (s32 x) = bpf_swab32 x.
Proof.
  unfold bpf_swab32, bpf_mvb. assert (s32 x mod 2^32 = x mod 2^32) as -> by mod_lia. done.
Qed.
Lemma bpf_swab16_s16 x : bpf_swab16 (s16 x) = bpf_swab16 x.
Proof.
  unfold bpf_swab16, bpf_mvb. assert (s16 x mod 2^16 = x mod 2^16) as -> by mod_lia. done.
Qed.

(** [l] begins with [p]. *)
Fixpoint starts_with (p l : list Z) : bool :=
  match p, l with
  | [], _ => true
  | c :: p, b :: l => (b =? c) && starts_with p l
  | _ :: _, [] => false
  end.

Definition nonzero (b : Z) : bool := negb (b =? 0).

(** ** Memory and the probe-read helpers

    Memory is a partial function from 64-bit addresses to bytes; an absent
    address faults.  [probe_read] is [bpf_probe_read] (and its _user and
    _kernel variants): all the bytes, or an error. *)

Definition mem : Type := Z -> option Z.

Definition load (m : mem) (a : Z) : option Z := u8 <$> m (u64 a).

Fixpoint probe_read (m : mem) (a : Z) (n : nat) : option (list Z) :=
  match n with
  | O => Some []
  | S n =>
      let? b := load m a else None in
      let? bs := probe_read m (a + 1) n else None in
      Some (b :: bs)
  end.

Definition read_u8 (m : mem) (a : Z) : option Z := load m a.
Definition read_u16 (m : mem) (a : Z) : option Z := le <$> probe_read m a 2.
Definition read_u32 (m : mem) (a : Z) : option Z := le <$> probe_read m a 4.
Definition read_u64 (m : mem) (a : Z) : option Z := le <$> probe_read m a 8.

(** A read into an array of (signed) [char]. *)
Definition read_chars (m : mem) (a : Z) (n : nat) : option (list Z) :=
  map s8 <$> probe_read m a n.

(** [bpf_probe_read_str(dst, n, a)]: the bytes stored, trailing NUL included;
    their number is the value returned.  A string that does not fit is cut and
    its last byte set to NUL; a fault before the end is an error. *)
Fixpoint probe_read_str (m : mem) (a : Z) (n : nat) : option (list Z) :=
  match n with
  | O => Some []
  | S n' =>
      let? b := load m a else None in
      if b =? 0 then Some [0]
      else match n' with
           | O => Some [0]
           | S _ =>
               let? bs := probe_read_str m (a + 1) n' else None in
               Some (b :: bs)
           end
  end.

(** [m] with the bytes [bs] stored from address [base] on. *)
Definition overlay (m : mem) (base : Z) (bs : list Z) : mem :=
  fun a => if (base <=? a) && (a <? base + Z.of_nat (length bs))
           then bs !! Z.to_nat (a - base) else m a.

Definition mem_empty : mem := fun _ => None.

(** [dst] with [src] written over its first bytes. *)
Definition write_at (off : nat) (src dst : list Z) : list Z :=
  take off dst ++ src ++ drop (off + length src) dst.

Lemma load_range m a b : load m a = Some b -> 0 <= b < 256.
Proof. unfold load; destruct (m _); cbn; intros; simplify_eq; apply u8_range. Qed.

Lemma probe_read_S m a n :
  probe_read m a (S n) =
    (let? b := load m a else None in
     let? bs := probe_read m (a + 1) n else None in Some (b :: bs)).
Proof. done. Qed.

Lemma probe_read_length m a n bs : probe_read m a n = Some bs -> length bs = n.
Proof.
  revert a bs; induction n as [|n IH]; intros a bs; cbn; [by intros [= <-]|].
  destruct (load m a); [|done]. destruct (probe_read m (a+1) n) eqn:E; [|done].
  intros [= <-]; cbn; f_equal; eauto.
Qed.

Lemma probe_read_bytes m a n bs : probe_read m a n = Some bs -> bytes_ok bs.
Proof.
  revert a bs; induction n as [|n IH]; intros a bs; cbn; [by intros [= <-]; constructor|].
  destruct (load m a) eqn:L; [|done]. destruct (probe_read m (a+1) n) eqn:E; [|done].
  intros [= <-]; constructor; [by eapply load_range|by eapply IH].
Qed.

Lemma probe_read_lookup m a n bs i :
  probe_read m a n = Some bs -> (i < n)%nat -> load m (a + Z.of_nat i) = bs !! i.
Proof.
  revert a bs i; induction n as [|n IH]; intros a bs i; cbn; [lia|].
  destruct (load m a) eqn:L; [|done]. destruct (probe_read m (a+1) n) eqn:E; [|done].
  intros [= <-] Hi; destruct i as [|i].
  - by rewrite Z.add_0_r.
  - change ((z :: l) !! S i) with (l !! i). rewrite <-(IH (a+1) _ i E) by lia. f_equal; lia.
Qed.

Lemma probe_read_intro m a n bs :
  length bs = n ->
  (forall i b, bs !! i = Some b -> load m (a + Z.of_nat i) = Some b) ->
  probe_read m a n = Some bs.
Proof.
  revert a bs; induction n as [|n IH]; intros a [|b bs]; cbn; try (intros; done || lia).
  intros [= Hl] H.
  assert (load m a = Some b) as -> by (rewrite <-(Z.add_0_r a); exact (H 0%nat b eq_refl)).
  rewrite (IH (a+1) bs Hl); [done|].
  intros i c Hc. rewrite <-(H (S i) c Hc). f_equal; lia.
Qed.

Lemma probe_read_app m a n k bs cs :
  probe_read m a n = Some bs -> probe_read m (a + Z.of_nat n) k = Some cs ->
  probe_read m a (n + k) = Some (bs ++ cs).
Proof.
  revert a bs; induction n as [|n IH]; intros a bs; cbn.
  - intros [= <-]. by rewrite Z.add_0_r.
  - destruct (load m a); [|done]. destruct (probe_read m (a+1) n) eqn:E; [|done].
    intros [= <-] Hk. cbn.
    erewrite (IH (a+1)); [done|done|]. rewrite <-Hk. f_equal; lia.
Qed.

Lemma probe_read_nth m a n bs i :
  probe_read m a n = Some bs -> (i < n)%nat ->
  load m (a + Z.of_nat i) = Some (nth i bs 0).
Proof.
  intros H Hi. rewrite (probe_read_lookup m a n bs i H Hi).
  rewrite nth_lookup. assert (i < length bs)%nat as Hl by (erewrite probe_read_length; eauto).
  apply lookup_lt_is_Some in Hl as [x Hx]. by rewrite Hx.
Qed.

Lemma probe_read_nth_range m a n bs i :
  probe_read m a n = Some bs -> 0 <= nth i bs 0 < 256.
Proof.
  intros H%probe_read_bytes. destruct (le_lt_dec (length bs) i).
  - rewrite nth_overflow by lia. lia.
  - eapply Forall_forall in H; [exact H|]. apply list_elem_of_In, nth_In; lia.
Qed.

Lemma field_range m a n bs off k :
  probe_read m a n = Some bs -> 0 <= field bs off k < 256 ^ Z.of_nat k.
Proof.
  intros H%probe_read_bytes. unfold field.
  assert (bytes_ok (take k (drop off bs))) as Hb by (by apply Forall_take, Forall_drop).
  apply le_bound in Hb. split; [lia|]. eapply Z.lt_le_trans; [apply Hb|].
  apply Z.pow_le_mono_r; [lia|]. rewrite length_take. lia.
Qed.

Lemma probe_read_slice m a n bs off k :
  probe_read m a n = Some bs -> (off + k <= n)%nat ->
  probe_read m (a + Z.of_nat off) k = Some (take k (drop off bs)).
Proof.
  intros R Hk. pose proof (probe_read_length _ _ _ _ R) as Hl.
  apply probe_read_intro.
  - rewrite length_take, length_drop. lia.
  - intros i b Hi. rewrite lookup_take_Some in Hi. destruct Hi as [Hi Hik].
    rewrite lookup_drop in Hi. rewrite <-Hi, <-(probe_read_lookup _ _ _ _ _ R) by lia.
    f_equal; lia.
Qed.

Lemma probe_read_take m a n bs k :
  probe_read m a n = Some bs -> (k <= n)%nat -> probe_read m a k = Some (take k bs).
Proof.
  intros R Hk. rewrite <-(Z.add_0_r a). by apply (probe_read_slice m a n bs 0 k R).
Qed.

Lemma read_u32_field m a n bs off :
  probe_read m a n = Some bs -> (off + 4 <= n)%nat ->
  read_u32 m (a + Z.of_nat off) = Some (field bs off 4).
Proof. intros R Hk. unfold read_u32. by rewrite (probe_read_slice _ _ _ _ _ _ R Hk). Qed.

Lemma read_u16_field m a n bs off :
  probe_read m a n = Some bs -> (off + 2 <= n)%nat ->
  read_u16 m (a + Z.of_nat off) = Some (field bs off 2).
Proof. intros R Hk. unfold read_u16. by rewrite (probe_read_slice _ _ _ _ _ _ R Hk). Qed.

Lemma load_nth m a n bs i :
  probe_read m a n = Some bs -> (i < n)%nat -> load m (a + Z.of_nat i) = Some (field bs i 1).
Proof.
  intros R Hi. rewrite (probe_read_nth _ _ _ _ _ R Hi). f_equal. unfold field.
  assert (i < length bs)%nat as Hl by (erewrite probe_read_length; eauto).
  rewrite nth_lookup. apply lookup_lt_is_Some in Hl as [x Hx]. rewrite Hx.
  rewrite (drop_S _ _ _ Hx). change (default 0 (Some x)) with x. cbn [take le]. rewrite take_0. cbn. lia.
Qed.

(** The same with the offset an integer, as it stands in the code. *)
Lemma probe_read_at m a n bs o k :
  probe_read m a n = Some bs -> 0 <= o -> o + Z.of_nat k <= Z.of_nat n ->
  probe_read m (a + o) k = Some (take k (drop (Z.to_nat o) bs)).
Proof.
  intros R Ho Hk. rewrite <-(Z2Nat.id o) at 1 by done.
  apply (probe_read_slice _ _ _ _ _ _ R). lia.
Qed.
Lemma read_u32_at m a n bs o :
  probe_read m a n = Some bs -> 0 <= o -> o + 4 <= Z.of_nat n ->
  read_u32 m (a + o) = Some (field bs (Z.to_nat o) 4).
Proof. intros R Ho Hk. unfold read_u32. by rewrite (probe_read_at _ _ _ _ o _ R) by lia. Qed.
Lemma read_u16_at m a n bs o :
  probe_read m a n = Some bs -> 0 <= o -> o + 2 <= Z.of_nat n ->
  read_u16 m (a + o) = Some (field bs (Z.to_nat o) 2).
Proof. intros R Ho Hk. unfold read_u16. by rewrite (probe_read_at _ _ _ _ o _ R) by lia. Qed.
Lemma load_at m a n bs o :
  probe_read m a n = Some bs -> 0 <= o < Z.of_nat n ->
  load m (a + o) = Some (field bs (Z.to_nat o) 1).
Proof.
  intros R Ho. rewrite <-(Z2Nat.id o) at 1 by lia. apply (load_nth _ _ _ _ _ R). lia.
Qed.
Lemma load_0 m a n b bs : probe_read m a n = Some (b :: bs) -> load m a = Some b.
Proof.
  destruct n as [|n]; [done|]. rewrite probe_read_S.
  destruct (load m a); [|done]. destruct (probe_read m (a + 1) n); [|done]. by intros [= <- <-].
Qed.

Lemma probe_read_1 m a : probe_read m a 1 = (fun b => [b]) <$> load m a.
Proof. cbn. by destruct (load m a). Qed.

(** A string that fills the buffer: its bytes before the last are not NUL. *)
Lemma probe_read_str_full m a n bs :
  probe_read m a (S n) = Some bs -> Forall (fun b => b <> 0) (take n bs) ->
  probe_read_str m a (S n) = Some (take n bs ++ [0]).
Proof.
  revert a bs; induction n as [|n IH]; intros a bs.
  - cbn. destruct (load m a); [|done]. intros [= <-] _. cbn. by case_match.
  - rewrite probe_read_S. destruct (load m a) as [b|] eqn:L; [|done].
    destruct (probe_read m (a + 1) (S n)) as [cs|] eqn:E; [|done].
    intros [= <-]. cbn [take]. intros [Hb Hcs]%Forall_cons.
    change (probe_read_str m a (S (S n))) with
      (let? b := load m a else None in
       if b =? 0 then Some [0]
       else let? bs := probe_read_str m (a + 1) (S n) else None in Some (b :: bs)).
    rewrite L, (proj2 (Z.eqb_neq b 0) Hb). by rewrite (IH (a + 1) cs E Hcs).
Qed.

Lemma probe_read_str_full_inv m a n cs :
  probe_read_str m a (S n) = Some cs -> length cs = S n ->
  exists bs, probe_read m a (S n) = Some bs /\ Forall (fun b => b <> 0) (take n bs)
             /\ cs = take n bs ++ [0].
Proof.
  revert a cs; induction n as [|n IH]; intros a cs.
  - cbn. destruct (load m a) as [b|]; [|done]. intros H _.
    exists [b]. split_and!; [done|by constructor|]. destruct (b =? 0); cbn; congruence.
  - change (probe_read_str m a (S (S n))) with
      (let? b := load m a else None in
       if b =? 0 then Some [0]
       else let? bs := probe_read_str m (a + 1) (S n) else None in Some (b :: bs)).
    rewrite probe_read_S. destruct (load m a) as [b|]; [|done].
    destruct (Z.eqb_spec b 0) as [|Hb]; [by intros [= <-]|].
    destruct (probe_read_str m (a + 1) (S n)) as [ds|] eqn:E; [|done].
    intros [= <-] [= Hl]. destruct (IH _ _ E Hl) as (bs & -> & Hnz & ->).
    exists (b :: bs). split_and!; [done|by constructor|done].
Qed.

Lemma probe_read_str_length m a n cs : probe_read_str m a n = Some cs -> (length cs <= n)%nat.
Proof.
  revert a cs; induction n as [|n IH]; intros a cs; cbn; [by intros [= <-]|].
  destruct (load m a) as [b|]; [|done]. destruct (b =? 0); [intros [= <-]; cbn; lia|].
  destruct n as [|n]; [intros [= <-]; cbn; lia|].
  destruct (probe_read_str m (a + 1) (S n)) as [ds|] eqn:E; [|done].
  intros [= <-]. apply IH in E. cbn [length]. lia.
Qed.

(** The signed view of a byte agrees with the byte on ASCII codes. *)
Lemma s8_eqb b c : 0 <= b < 256 -> 0 <= c < 128 -> (s8 b =? c) = (b =? c).
Proof. intros. apply eq_true_iff_eq. rewrite !Z.eqb_eq. mod_lia. Qed.
Lemma s8_ltb_l b c : 0 <= b < 256 -> 0 <= c < 128 -> (s8 b <? c) = ((b <? c) || (128 <=? b)).
Proof. intros. apply eq_true_iff_eq. rewrite orb_true_iff, !Z.ltb_lt, Z.leb_le. mod_lia. Qed.
Lemma s8_ltb_r b c : 0 <= b < 256 -> 0 <= c < 128 -> (c <? s8 b) = ((c <? b) && (b <? 128)).
Proof. intros. apply eq_true_iff_eq. rewrite andb_true_iff, !Z.ltb_lt. mod_lia. Qed.

Lemma nth_s8 i bs : nth i (map s8 bs) 0 = s8 (nth i bs 0).
Proof. apply (map_nth s8 bs 0 i). Qed.

Lemma read_chars_inv m a n cs :
  read_chars m a n = Some cs -> exists bs, probe_read m a n = Some bs /\ cs = map s8 bs.
Proof.
  unfold read_chars. destruct (probe_read m a n) as [bs|]; [|done].
  intros [= <-]. eauto.
Qed.

Lemma write_at_length off src dst :
  (off + length src <= length dst)%nat -> length (write_at off src dst) = length dst.
Proof. intros. unfold write_at. rewrite !length_app, length_take, length_drop. lia. Qed.

Lemma write_at_0 src dst :
  write_at 0 src dst = src ++ drop (length src) dst.
Proof. done. Qed.

Lemma take_write_at off src dst :
  (off <= length dst)%nat ->
  take (off + length src) (write_at off src dst) = take off dst ++ src.
Proof.
  intros H. unfold write_at. rewrite app_assoc.
  rewrite take_app_le by (rewrite length_app, length_take; lia).
  apply take_ge. rewrite length_app, length_take; lia.
Qed.

(** ** BPF maps

    [BPF_MAP_TYPE_HASH] and [BPF_MAP_TYPE_LRU_HASH].  A hash map refuses a new
    key when it holds [max_entries]; an LRU map makes room by evicting entries
    the kernel chooses, which is a parameter: the keys [victims] it drops. *)

Inductive update_flags := BPF_ANY | BPF_NOEXIST | BPF_EXIST.

Definition EEXIST : Z := 17.
Definition ENOENT : Z := 2.
Definition E2BIG : Z := 7.

Section maps.
Context {K V : Type} `{Countable K}.
Implicit Types (m : gmap K V) (k : K) (v : V).

Definition hash_update (max_entries : Z) (flags : update_flags) k v m : Z * gmap K V :=
  match flags, m !! k with
  | BPF_NOEXIST, Some _ => (- EEXIST, m)
  | BPF_EXIST, None => (- ENOENT, m)
  | _, Some _ => (0, <[k := v]> m)
  | _, None => if max_entries <=? Z.of_nat (size m) then (- E2BIG, m) else (0, <[k := v]> m)
  end.

Definition evict (victims : list K) m : gmap K V := foldr delete m victims.

Definition lru_update (policy : gmap K V -> list K) (flags : update_flags) k v m
  : Z * gmap K V :=
  let m := evict (policy m) m in
  match flags, m !! k with
  | BPF_NOEXIST, Some _ => (- EEXIST, m)
  | BPF_EXIST, None => (- ENOENT, m)
  | _, _ => (0, <[k := v]> m)
  end.

(** What every update keeps: an entry of the result is the new one or an old one. *)
Lemma evict_lookup victims m k v : evict victims m !! k = Some v -> m !! k = Some v.
Proof.
  induction victims as [|x xs IH]; cbn; [done|].
  destruct (decide (x = k)) as [->|]; [by rewrite lookup_delete_eq|].
  by rewrite lookup_delete_ne.
Qed.

Lemma hash_update_lookup max flags k v m k' v' :
  (hash_update max flags k v m).2 !! k' = Some v' ->
  (k' = k /\ v' = v) \/ m !! k' = Some v'.
Proof.
  unfold hash_update. destruct (decide (k' = k)) as [->|];
    destruct flags, (m !! k) eqn:E; try case_match; cbn;
    rewrite ?lookup_insert_eq, ?lookup_insert_ne by done; naive_solver.
Qed.

Lemma lru_update_lookup policy flags k v m k' v' :
  (lru_update policy flags k v m).2 !! k' = Some v' ->
  (k' = k /\ v' = v) \/ m !! k' = Some v'.
Proof.
  unfold lru_update. intros Hl.
  assert ((k' = k /\ v' = v) \/ evict (policy m) m !! k' = Some v') as [?|?%evict_lookup];
    [|by auto..].
  destruct (decide (k' = k)) as [->|];
    destruct flags, (evict (policy m) m !! k) eqn:E; cbn in Hl;
    rewrite ?lookup_insert_eq, ?lookup_insert_ne in Hl by done; naive_solver.
Qed.

Lemma hash_update_any_room max k v m :
  Z.of_nat (size m) < max -> hash_update max BPF_ANY k v m = (0, <[k := v]> m).
Proof.
  intros Hs. unfold hash_update. destruct (m !! k); [done|].
  by rewrite (proj2 (Z.leb_gt _ _) Hs).
Qed.

Lemma hash_update_size max flags k v m :
  Z.of_nat (size m) <= max -> Z.of_nat (size (hash_update max flags k v m).2) <= max.
Proof.
  intros Hs. unfold hash_update.
  destruct flags, (m !! k) eqn:E; cbn; try done;
    try (case_match eqn:L; cbn; [done|]; apply Z.leb_gt in L);
    rewrite map_size_insert, E; cbn; lia.
Qed.

(** With nothing to evict, a BPF_NOEXIST update keeps every entry. *)
Lemma lru_update_noexist policy k v m k' v' :
  policy m = [] -> m !! k' = Some v' ->
  (lru_update policy BPF_NOEXIST k v m).2 !! k' = Some v'.
Proof.
  intros Hp Hk. unfold lru_update. rewrite Hp. change (evict [] m) with m.
  destruct (m !! k) eqn:E; cbn; [done|]. rewrite lookup_insert_ne; congruence.
Qed.

Lemma lru_update_keep k v m :
  lru_update (fun _ => []) BPF_ANY k v m = (0, <[k := v]> m).
Proof. done. Qed.
End maps.

#[global] Arguments hash_update : simpl never.
#[global] Arguments lru_update : simpl never.
#[global] Arguments evict : simpl never.

(** Array and per-CPU array maps always hold their (zero-initialised) entries:
    the lookup of a per-CPU slot never fails. *)
Definition percpu {A} (zero : A) (cpu : Z) (h : gmap Z A) : A := default zero (h !! cpu).

Lemma percpu_insert {A} (zero a : A) cpu h : percpu zero cpu (<[cpu := a]> h) = a.
Proof. unfold percpu. by rewrite lookup_insert_eq. Qed.

Lemma percpu_insert_ne {A} (zero a : A) cpu cpu' h :
  cpu <> cpu' -> percpu zero cpu (<[cpu' := a]> h) = percpu zero cpu h.
Proof. intros. unfold percpu. by rewrite lookup_insert_ne. Qed.

(** ** Automation *)

(** Predicates on the result of a test, of a pair and of a lookup. *)
Lemma if_both {A} (P : A -> Prop) (b : bool) x y : P x -> P y -> P (if b then x else y).
Proof. by destruct b. Qed.
Lemma let_both {A B C} (P : C -> Prop) (p : A * B) f :
  (forall a b, P (f a b)) -> P (let '(a, b) := p in f a b).
Proof. by destruct p. Qed.
Lemma opt_both {A B} (P : B -> Prop) (o : option A) f y :
  (forall a, o = Some a -> P (f a)) -> (o = None -> P y) -> P (let? a := o else y in f a).
Proof. destruct o; auto. Qed.

(** One step into the branches of the result a goal [P result] is about. *)
Ltac branch P :=
  lazymatch goal with
  | |- P (if ?b then ?x else ?y) => refine (if_both P b x y _ _)
  | |- P (let '(_, _) := ?p in _) => refine (let_both P p _ _); intros ? ?
  | |- P (let? _ := ?o else ?y in _) => refine (opt_both P o _ y _ _); intros
  end.

(** Case analysis on the reads, lookups and tests a handler makes. *)
Ltac case_step :=
  match goal with
  | |- context [match ?x with Some _ => _ | None => _ end] =>
      lazymatch x with context [match _ with _ => _ end] => fail | _ => destruct x eqn:? end
  | |- context [if ?b then _ else _] =>
      lazymatch b with context [if _ then _ else _] => fail | _ => destruct b eqn:? end
  end.

Ltac case_step_in H :=
  match type of H with
  | context [match ?x with Some _ => _ | None => _ end] =>
      lazymatch x with context [match _ with _ => _ end] => fail | _ => destruct x eqn:? end
  | context [if ?b then _ else _] =>
      lazymatch b with context [if _ then _ else _] => fail | _ => destruct b eqn:? end
  end.

(** Split boolean conjunctions and disjunctions of hypotheses. *)
Ltac split_bools :=
  repeat match goal with
    | H : (_ && _) = true |- _ => apply andb_true_iff in H as [? ?]
    | H : (_ || _) = false |- _ => apply orb_false_iff in H as [? ?]
    | H : negb _ = true |- _ => apply negb_true_iff in H
    | H : negb _ = false |- _ => apply negb_false_iff in H
    end.

(** ** Sums over maps *)

Section msum.
Context {K A : Type} `{Countable K}.

(** The sum of [f k x] over the entries of a map. *)
Definition msum (f : K -> A -> Z) (m : gmap K A) : Z := map_fold (fun k x n => f k x + n) 0 m.

Lemma msum_empty f : msum f ∅ = 0.
Proof. apply map_fold_empty. Qed.

Lemma msum_insert f m k x : m !! k = None -> msum f (<[k := x]> m) = f k x + msum f m.
Proof. intros Hk. unfold msum. apply (map_fold_insert_L (fun k x n => f k x + n) 0); [intros; lia|done]. Qed.

Lemma msum_delete f m k x : m !! k = Some x -> msum f m = f k x + msum f (delete k m).
Proof.
  intros Hk. rewrite <-(insert_delete_id m k x) at 1 by done. by rewrite msum_insert by apply lookup_delete_eq.
Qed.

(** An entry that is replaced. *)
Lemma msum_replace f m k x y : m !! k = Some x -> msum f (<[k := y]> m) = msum f m - f k x + f k y.
Proof.
  intros Hk. rewrite (msum_delete f m k x), <-insert_delete_eq, msum_insert by (done || apply lookup_delete_eq). lia.
Qed.

Lemma msum_nonneg f m : (forall k x, m !! k = Some x -> 0 <= f k x) -> 0 <= msum f m.
Proof.
  induction m as [|k x m Hk IH] using map_ind; intros Hf; [by rewrite msum_empty|].
  rewrite msum_insert by done. assert (0 <= f k x) by (apply Hf, lookup_insert_eq).
  assert (0 <= msum f m); [|lia]. apply IH. intros k' x' Hx. apply Hf.
  rewrite lookup_insert_ne; [done|]. intros ->. congruence.
Qed.

Lemma msum_ext f g m : (forall k x, m !! k = Some x -> f k x = g k x) -> msum f m = msum g m.
Proof.
  induction m as [|k x m Hk IH] using map_ind; intros Hf; [by rewrite !msum_empty|].
  rewrite !msum_insert by done. rewrite (Hf k x) by apply lookup_insert_eq. f_equal. apply IH.
  intros k' x' Hx. apply Hf. rewrite lookup_insert_ne; [done|]. intros ->. congruence.
Qed.

(** The entries that satisfy [P] and those that do not. *)
Lemma msum_filter f (P : K * A -> bool) m :
  msum f m = msum f (filter (fun kx => P kx) m) + msum f (filter (fun kx => negb (P kx)) m).
Proof.
  induction m as [|k x m Hk IH] using map_ind; [by rewrite !map_filter_empty, !msum_empty|].
  rewrite msum_insert, !map_filter_insert by done. cbn. rewrite !(delete_id m k) by done.
  repeat case_decide; destruct (P (k, x)); cbn in *; try tauto;
    rewrite msum_insert by (apply map_lookup_filter_None_2; by left); lia.
Qed.

End msum.

