(* ===== verification/L7Base.v ===== *)
(** * Constants and macros shared by the L7 programs

    The [#define]s of ebpftracer/ebpf/l7/l7.c and the payload macros: protocol,
    status and method codes, [TRUNCATE_PAYLOAD_SIZE] and the size of the payload
    buffers. *)

From S2P Require Import Prelude.

(** ** Constants *)

Definition MAX_PAYLOAD_SIZE : Z := 1024.
Definition IOVEC_BUF_SIZE : Z := MAX_PAYLOAD_SIZE * 2.
Definition MAX_IOVEC_SIZE : Z := 32.

Definition PROTOCOL_UNKNOWN : Z := 0.
Definition PROTOCOL_HTTP : Z := 1.
Definition PROTOCOL_POSTGRES : Z := 2.
Definition PROTOCOL_REDIS : Z := 3.
Definition PROTOCOL_MEMCACHED : Z := 4.
Definition PROTOCOL_MYSQL : Z := 5.
Definition PROTOCOL_MONGO : Z := 6.
Definition PROTOCOL_KAFKA : Z := 7.
Definition PROTOCOL_CASSANDRA : Z := 8.
Definition PROTOCOL_RABBITMQ : Z := 9.
Definition PROTOCOL_NATS : Z := 10.
Definition PROTOCOL_HTTP2 : Z := 11.
Definition PROTOCOL_DUBBO2 : Z := 12.
Definition PROTOCOL_DNS : Z := 13.
Definition PROTOCOL_CLICKHOUSE : Z := 14.
Definition PROTOCOL_ZOOKEEPER : Z := 15.
Definition PROTOCOL_FOUNDATIONDB : Z := 16.

Definition STATUS_UNKNOWN : Z := 0.
Definition STATUS_OK : Z := 200.
Definition STATUS_FAILED : Z := 500.

Definition METHOD_UNKNOWN : Z := 0.
Definition METHOD_PRODUCE : Z := 1.
Definition METHOD_CONSUME : Z := 2.
Definition METHOD_STATEMENT_PREPARE : Z := 3.
Definition METHOD_STATEMENT_CLOSE : Z := 4.
Definition METHOD_HTTP2_CLIENT_FRAMES : Z := 5.
Definition METHOD_HTTP2_SERVER_FRAMES : Z := 6.

(** ** Macros *)

(** [TRUNCATE_PAYLOAD_SIZE(size)]: the value it leaves in [size]. *)
Definition TRUNCATE_PAYLOAD_SIZE (size : Z) : Z :=
  Z.land (Z.min size (MAX_PAYLOAD_SIZE - 1)) (MAX_PAYLOAD_SIZE - 1).

(** [bpf_probe_read_str] into an array of [n] (signed) chars. *)
Definition read_str_chars (m : mem) (a : Z) (n : nat) : option (list Z) :=
  map s8 <$> probe_read_str m a n.

(** ** Lemmas *)

Lemma TRUNCATE_PAYLOAD_SIZE_min size :
  0 <= size -> TRUNCATE_PAYLOAD_SIZE size = Z.min size 1023.
Proof.
  intros. unfold TRUNCATE_PAYLOAD_SIZE, MAX_PAYLOAD_SIZE.
  change (1024 - 1) with (Z.ones 10). rewrite Z.land_ones by lia.
  apply Z.mod_small. change (Z.ones 10) with 1023. lia.
Qed.

Lemma TRUNCATE_PAYLOAD_SIZE_range size : 0 <= TRUNCATE_PAYLOAD_SIZE size <= 1023.
Proof.
  unfold TRUNCATE_PAYLOAD_SIZE, MAX_PAYLOAD_SIZE.
  change (1024 - 1) with (Z.ones 10). rewrite Z.land_ones by lia. mod_lia.
Qed.

#[export] Hint Rewrite TRUNCATE_PAYLOAD_SIZE_min using lia : ints.
#[export] Hint Resolve TRUNCATE_PAYLOAD_SIZE_range : ints.

(** Reading a string and refusing one that does not fill the buffer: what the
    buffer then holds. *)
Lemma read_str_full_case {A} (m : mem) (buf : Z) (n : nat) (F : A) (K : list Z -> A) :
  (let? b := read_str_chars m buf (S n) else F in
   if Z.of_nat (length b) <? Z.of_nat (S n) then F else K b)
  = (let? bs := probe_read m buf (S n) else F in
     if forallb nonzero (take n bs) then K (map s8 (take n bs ++ [0])) else F).
Proof.
  unfold read_str_chars.
  assert (forall bs, forallb nonzero bs = true <-> Forall (fun b => b <> 0) bs) as Hnz.
  { intros bs. unfold nonzero. induction bs as [|b bs IH]; cbn; [split; intros; [constructor|reflexivity]|].
    by rewrite andb_true_iff, IH, Forall_cons, negb_true_iff, Z.eqb_neq. }
  destruct (probe_read_str m buf (S n)) as [cs|] eqn:E; cbn -[Z.of_nat probe_read].
  - rewrite length_map. destruct (Z.ltb_spec (Z.of_nat (length cs)) (Z.of_nat (S n))) as [Hl|Hl].
    + destruct (probe_read m buf (S n)) as [bs|] eqn:R; [|done].
      destruct (forallb nonzero (take n bs)) eqn:Z; [|done].
      apply Hnz in Z. rewrite (probe_read_str_full _ _ _ _ R Z) in E. simplify_eq.
      apply probe_read_length in R. rewrite length_app, length_take in Hl. cbn in Hl. lia.
    + pose proof (probe_read_str_length _ _ _ _ E).
      destruct (probe_read_str_full_inv m buf n cs E) as (bs & -> & ?%Hnz & ->); [lia|].
      by rewrite H0.
  - destruct (probe_read m buf (S n)) as [bs|] eqn:R; [|done].
    destruct (forallb nonzero (take n bs)) eqn:Z; [|done].
    apply Hnz in Z. by rewrite (probe_read_str_full _ _ _ _ R Z) in E.
Qed.
