(* ===== verification/ProtoText.v ===== *)
(** * Detectors of the text protocols

    ebpftracer/ebpf/l7/{http,redis,memcached,nats}.c.  A detector reads the
    payload at address [buf] with the probe-read helpers; where the C function
    has an out parameter the definition takes its value before the call and
    returns it beside the result. *)

From S2P Require Import Prelude L7Base.
Local Open Scope cchar_scope.

(** The two bytes before [buf + size] are CR LF. *)
Definition crlf_before (m : mem) (buf size : Z) : bool :=
  let? bs := probe_read m (buf + size - 2) 2 else false in
  (bs.[0] =? 13) && (bs.[1] =? 10).

(** The test the detectors make on the end of the payload. *)
Lemma crlf_case {A} (m : mem) (buf size : Z) (F K : A) :
  (let? end_ := read_chars m (buf + size - 2) 2 else F in
   if negb (end_.[0] =? 13) || negb (end_.[1] =? 10) then F else K)
  = if crlf_before m buf size then K else F.
Proof.
  unfold crlf_before, read_chars.
  destruct (probe_read m (buf + size - 2) 2) as [bs|] eqn:R; [|done]. cbn -[nth].
  rewrite !nth_s8, !s8_eqb by (try lia; by eapply probe_read_nth_range).
  rewrite <-negb_andb. by destruct ((bs.[0] =? 13) && (bs.[1] =? 10)).
Qed.

Lemma read_char_case {A} (m : mem) (buf : Z) (F : A) (K : Z -> A) :
  (let? c := read_chars m buf 1 else F in K c.[0]) = (let? b := load m buf else F in K (s8 b)).
Proof. unfold read_chars. rewrite probe_read_1. by destruct (load m buf). Qed.

(** ** HTTP/1 *)
Module Http.

Definition is_http_request (m : mem) (buf : Z) : bool :=
  let? b := read_str_chars m buf 16 else false in
  if Z.of_nat (length b) <? 16 then false
  else if (b.[0] =? "G") && (b.[1] =? "E") && (b.[2] =? "T") then true
  else if (b.[0] =? "P") && (b.[1] =? "O") && (b.[2] =? "S") && (b.[3] =? "T") then true
  else if (b.[0] =? "H") && (b.[1] =? "E") && (b.[2] =? "A") && (b.[3] =? "D") then true
  else if (b.[0] =? "P") && (b.[1] =? "U") && (b.[2] =? "T") then true
  else if (b.[0] =? "D") && (b.[1] =? "E") && (b.[2] =? "L") && (b.[3] =? "E")
          && (b.[4] =? "T") && (b.[5] =? "E") then true
  else if (b.[0] =? "C") && (b.[1] =? "O") && (b.[2] =? "N") && (b.[3] =? "N")
          && (b.[4] =? "E") && (b.[5] =? "C") && (b.[6] =? "T") then true
  else if (b.[0] =? "O") && (b.[1] =? "P") && (b.[2] =? "T") && (b.[3] =? "I")
          && (b.[4] =? "O") && (b.[5] =? "N") && (b.[6] =? "S") then true
  else if (b.[0] =? "P") && (b.[1] =? "A") && (b.[2] =? "T") && (b.[3] =? "C")
          && (b.[4] =? "H") then true
  else false.

Definition is_http_response (m : mem) (buf : Z) (status : Z) : bool * Z :=
  let? b := read_str_chars m buf 16 else (false, status) in
  if Z.of_nat (length b) <? 16 then (false, status)
  else if negb (b.[0] =? "H") || negb (b.[1] =? "T") || negb (b.[2] =? "T")
          || negb (b.[3] =? "P") || negb (b.[4] =? "/") then (false, status)
  else if (b.[5] <? "0") || ("9" <? b.[5]) then (false, status)
  else if negb (b.[6] =? ".") then (false, status)
  else if (b.[7] <? "0") || ("9" <? b.[7]) then (false, status)
  else if negb (b.[8] =? " ") then (false, status)
  else if (b.[9] <? "0") || ("9" <? b.[9]) || (b.[10] <? "0") || ("9" <? b.[10])
          || (b.[11] <? "0") || ("9" <? b.[11]) then (false, status)
  else (true, (b.[9] - "0") * 100 + (b.[10] - "0") * 10 + (b.[11] - "0")).

(** *** Reference *)

Definition http_methods : list (list Z) :=
  [["G"; "E"; "T"]; ["P"; "O"; "S"; "T"]; ["H"; "E"; "A"; "D"]; ["P"; "U"; "T"];
   ["D"; "E"; "L"; "E"; "T"; "E"]; ["C"; "O"; "N"; "N"; "E"; "C"; "T"];
   ["O"; "P"; "T"; "I"; "O"; "N"; "S"]; ["P"; "A"; "T"; "C"; "H"]].

(** A request: 16 readable bytes, no NUL before the last, a method in front. *)
Definition http_request_ref (m : mem) (buf : Z) : bool :=
  let? bs := probe_read m buf 16 else false in
  forallb nonzero (take 15 bs) && existsb (fun p => starts_with p bs) http_methods.

(** The beginning of a status line: "HTTP/x.y nnn". *)
Definition status_line (major minor status : Z) : list Z :=
  ["H"; "T"; "T"; "P"; "/"; "0" + major; "."; "0" + minor; " ";
   "0" + status / 100; "0" + status / 10 mod 10; "0" + status mod 10].

(** *** Theorems *)

(** [is_http_request] recognises exactly the payloads whose first 16 bytes
    can be read, hold no NUL before the last, and begin with one of the eight
    methods. *)
Theorem is_http_request_ref m buf : is_http_request m buf = http_request_ref m buf.
Proof.
  unfold is_http_request, http_request_ref.
  change 16 with (Z.of_nat 16). rewrite read_str_full_case.
  destruct (probe_read m buf 16) as [bs|] eqn:R; [|done].
  pose proof (probe_read_length _ _ _ _ R) as Hl.
  pose proof (fun i => probe_read_nth_range _ _ _ _ i R) as Hr.
  do 16 (destruct bs as [|? bs]; [done|]). destruct bs; [|done].
  cbn [take]. destruct (forallb nonzero _); [|done]. rewrite andb_true_l.
  cbn [map app nth].
  pose proof (Hr 0%nat). pose proof (Hr 1%nat). pose proof (Hr 2%nat). pose proof (Hr 3%nat).
  pose proof (Hr 4%nat). pose proof (Hr 5%nat). pose proof (Hr 6%nat). cbn [nth] in *. clear Hr R.
  rewrite !s8_eqb by lia.
  cbn [http_methods existsb starts_with]. rewrite !andb_true_r, !orb_false_r, <-!andb_assoc.
  repeat case_match; done.
Qed.

(** What [is_http_response] tests, on the 16 bytes it reads. *)
Lemma is_http_response_bytes m buf st bs :
  probe_read m buf 16 = Some bs ->
  is_http_response m buf st =
    if forallb nonzero (take 15 bs)
       && (starts_with ["H"; "T"; "T"; "P"; "/"] bs
           && (("0" <=? bs.[5]) && (bs.[5] <=? "9")) && (bs.[6] =? ".")
           && (("0" <=? bs.[7]) && (bs.[7] <=? "9")) && (bs.[8] =? " ")
           && (("0" <=? bs.[9]) && (bs.[9] <=? "9")) && (("0" <=? bs.[10]) && (bs.[10] <=? "9"))
           && (("0" <=? bs.[11]) && (bs.[11] <=? "9")))
    then (true, (bs.[9] - "0") * 100 + (bs.[10] - "0") * 10 + (bs.[11] - "0"))
    else (false, st).
Proof.
  intros R. unfold is_http_response.
  change 16 with (Z.of_nat 16). rewrite read_str_full_case, R.
  pose proof (probe_read_length _ _ _ _ R) as Hl.
  pose proof (fun i => probe_read_nth_range _ _ _ _ i R) as Hr.
  do 16 (destruct bs as [|? bs]; [done|]). destruct bs; [|done].
  cbn [take]. destruct (forallb nonzero _); [|done]. rewrite andb_true_l.
  cbn [map app nth starts_with].
  pose proof (Hr 0%nat). pose proof (Hr 1%nat). pose proof (Hr 2%nat). pose proof (Hr 3%nat).
  pose proof (Hr 4%nat). pose proof (Hr 5%nat). pose proof (Hr 6%nat). pose proof (Hr 7%nat).
  pose proof (Hr 8%nat). pose proof (Hr 9%nat). pose proof (Hr 10%nat). pose proof (Hr 11%nat).
  cbn [nth] in *. clear Hr R Hl.
  rewrite !s8_eqb, !s8_ltb_l, !s8_ltb_r by lia.
  repeat case_match; try (exfalso; lia); try done.
  repeat f_equal; mod_lia.
Qed.

(** The detector of responses inverts the printing of a status line: it
    answers [n] exactly when the payload starts with "HTTP/x.y nnn" for digits x
    and y and a three-digit [n]. *)
Theorem is_http_response_status m buf st n :
  is_http_response m buf st = (true, n) <->
  exists bs major minor,
    probe_read m buf 16 = Some bs /\ forallb nonzero (take 15 bs) = true /\
    0 <= major <= 9 /\ 0 <= minor <= 9 /\ 0 <= n <= 999 /\
    take 12 bs = status_line major minor n.
Proof.
  split.
  - intros H. destruct (probe_read m buf 16) as [bs|] eqn:R.
    + rewrite (is_http_response_bytes _ _ _ _ R) in H.
      pose proof (probe_read_length _ _ _ _ R) as Hl.
      do 16 (destruct bs as [|? bs]; [done|]). destruct bs; [|done].
      destruct (forallb nonzero _) eqn:Hnz; [|done]. rewrite andb_true_l in H.
      cbn [nth starts_with] in H. case_match eqn:Hc; [|done].
      split_bools. simplify_eq.
      eexists _, (z4 - 48), (z6 - 48). split_and!; [done|done|lia..|].
      cbn [take]. unfold status_line. repeat f_equal; try lia; mod_lia.
    + unfold is_http_response in H. change 16 with (Z.of_nat 16) in H.
      by rewrite read_str_full_case, R in H.
  - intros (bs & major & minor & R & Hnz & Hmaj & Hmin & Hn & Ht).
    rewrite (is_http_response_bytes _ _ _ _ R), Hnz.
    pose proof (probe_read_length _ _ _ _ R) as Hl.
    do 16 (destruct bs as [|? bs]; [done|]). destruct bs; [|done].
    cbn [take] in Ht. unfold status_line in Ht. simplify_eq. cbn [nth starts_with].
    case_match eqn:Hc; [|exfalso; revert Hc; rewrite andb_false_iff; mod_lia].
    f_equal. mod_lia.
Qed.

End Http.

(** ** Redis *)
Module Redis.

Definition is_redis_query (m : mem) (buf buf_size : Z) : bool :=
  if buf_size <? 5 then false
  else
  let? b := read_chars m buf 5 else false in
  if negb (b.[0] =? "*") || (b.[1] <? "0") || ("9" <? b.[1]) then false
  else if (b.[2] =? 13) && (b.[3] =? 10) then true
  else if ("0" <=? b.[2]) && (b.[2] <=? "9") && (b.[3] =? 13) && (b.[4] =? 10) then true
  else false.

Definition is_redis_response (m : mem) (buf buf_size status : Z) : bool * Z :=
  let? type := read_chars m buf 1 else (false, status) in
  let type := type.[0] in
  let buf_size := TRUNCATE_PAYLOAD_SIZE buf_size in
  let? end_ := read_chars m (buf + buf_size - 2) 2 else (false, status) in
  if negb (end_.[0] =? 13) || negb (end_.[1] =? 10) then (false, status)
  else if (type =? "*") || (type =? ":") || (type =? "$") || (type =? "+")
  then (true, STATUS_OK)
  else if type =? "-" then (true, STATUS_FAILED)
  else (false, status).

(** A response is recognised by its type byte and by CR LF at the end of the
    first 1023 bytes. *)
Lemma is_redis_response_cases m buf n st :
  0 <= n ->
  is_redis_response m buf n st =
    (let? type := load m buf else (false, st) in
     if crlf_before m buf (Z.min n 1023) then
       if existsb (Z.eqb type) ["*"; ":"; "$"; "+"] then (true, STATUS_OK)
       else if type =? "-" then (true, STATUS_FAILED)
       else (false, st)
     else (false, st)).
Proof.
  intros Hn. unfold is_redis_response. rewrite TRUNCATE_PAYLOAD_SIZE_min by done.
  rewrite (read_char_case m buf (false, st) (fun type =>
    let? end_ := read_chars m (buf + Z.min n 1023 - 2) 2 else (false, st) in
    if negb (end_.[0] =? 13) || negb (end_.[1] =? 10) then (false, st)
    else if (type =? "*") || (type =? ":") || (type =? "$") || (type =? "+")
    then (true, STATUS_OK)
    else if type =? "-" then (true, STATUS_FAILED) else (false, st))).
  destruct (load m buf) as [t|] eqn:L; [|done]. apply load_range in L.
  rewrite crlf_case, !s8_eqb by lia. cbn [existsb]. by rewrite orb_false_r, <-!orb_assoc.
Qed.

(** A response longer than 1023 bytes is missed unless CR LF happens to stand
    at offset 1021: the end of the payload is looked for after the size has been
    truncated, so the terminator of a long reply is never read. *)
Theorem is_redis_response_long m buf n st :
  1023 < n -> crlf_before m buf 1023 = false ->
  is_redis_response m buf n st = (false, st).
Proof.
  intros Hn Hc. rewrite is_redis_response_cases by lia.
  rewrite Z.min_r, Hc by lia. by destruct (load m buf).
Qed.

(** A bulk reply of 1990 bytes: "$1990" CR LF, the bytes, CR LF. *)
Definition long_reply : list Z :=
  ["$"; "1"; "9"; "9"; "0"; 13; 10] ++ replicate 1990 "x" ++ [13; 10].

Lemma is_redis_response_long_witness :
  crlf_before (overlay mem_empty 0 long_reply) 0 1999 = true /\
  is_redis_response (overlay mem_empty 0 long_reply) 0 1999 STATUS_UNKNOWN
    = (false, STATUS_UNKNOWN).
Proof.
  split; [vm_compute; reflexivity|].
  apply (is_redis_response_long (overlay mem_empty 0 long_reply) 0 1999 STATUS_UNKNOWN).
  - lia.
  - vm_compute; reflexivity.
Defined.

End Redis.

(** ** Memcached *)
Module Memcached.

Definition is_memcached_query (m : mem) (buf buf_size : Z) : bool :=
  if buf_size <? 9 then false
  else
  let? b := read_chars m buf 7 else false in
  let buf_size := TRUNCATE_PAYLOAD_SIZE buf_size in
  let? end_ := read_chars m (buf + buf_size - 2) 2 else false in
  if negb (end_.[0] =? 13) || negb (end_.[1] =? 10) then false
  else if (b.[0] =? "s") && (b.[1] =? "e") && (b.[2] =? "t") && (b.[3] =? " ") then true
  else if (b.[0] =? "a") && (b.[1] =? "d") && (b.[2] =? "d") && (b.[3] =? " ") then true
  else if (b.[0] =? "c") && (b.[1] =? "a") && (b.[2] =? "s") && (b.[3] =? " ") then true
  else if (b.[0] =? "g") && ((b.[1] =? "a") || (b.[1] =? "e")) && (b.[2] =? "t")
          && ((b.[3] =? " ") || (b.[3] =? "s")) then true
  else if (b.[0] =? "i") && (b.[1] =? "n") && (b.[2] =? "c") && (b.[3] =? "r")
          && (b.[4] =? " ") then true
  else if (b.[0] =? "d") && (b.[1] =? "e") && (b.[2] =? "c") && (b.[3] =? "r")
          && (b.[4] =? " ") then true
  else if (b.[0] =? "t") && (b.[1] =? "o") && (b.[2] =? "u") && (b.[3] =? "c")
          && (b.[4] =? "h") && (b.[5] =? " ") then true
  else if (b.[0] =? "d") && (b.[1] =? "e") && (b.[2] =? "l") && (b.[3] =? "e")
          && (b.[4] =? "t") && (b.[5] =? "e") && (b.[6] =? " ") then true
  else if (b.[0] =? "a") && (b.[1] =? "p") && (b.[2] =? "p") && (b.[3] =? "e")
          && (b.[4] =? "n") && (b.[5] =? "d") && (b.[6] =? " ") then true
  else if (b.[0] =? "p") && (b.[1] =? "r") && (b.[2] =? "e") && (b.[3] =? "p")
          && (b.[4] =? "e") && (b.[5] =? "n") && (b.[6] =? "d") then true
  else if (b.[0] =? "r") && (b.[1] =? "e") && (b.[2] =? "p") && (b.[3] =? "l")
          && (b.[4] =? "a") && (b.[5] =? "c") && (b.[6] =? "e") then true
  else false.

Definition is_memcached_response (m : mem) (buf buf_size status : Z) : bool * Z :=
  let? r := read_chars m buf 3 else (false, status) in
  let buf_size := TRUNCATE_PAYLOAD_SIZE buf_size in
  let? end_ := read_chars m (buf + buf_size - 2) 2 else (false, status) in
  if negb (end_.[0] =? 13) || negb (end_.[1] =? 10) then (false, status)
  else if (r.[0] =? "V") && (r.[1] =? "A") && (r.[2] =? "L") then (true, STATUS_OK)
  else if (r.[0] =? "S") && (r.[1] =? "T") && (r.[2] =? "O") then (true, STATUS_OK)
  else if (r.[0] =? "D") && (r.[1] =? "E") && (r.[2] =? "L") then (true, STATUS_OK)
  else if (r.[0] =? "T") && (r.[1] =? "O") && (r.[2] =? "C") then (true, STATUS_OK)
  else if (r.[0] =? "N") && (r.[1] =? "O") && (r.[2] =? "T") then (true, STATUS_OK)
  else if (r.[0] =? "E") && (r.[1] =? "X") && (r.[2] =? "I") then (true, STATUS_OK)
  else if (r.[0] =? "E") && (r.[1] =? "R") && (r.[2] =? "R") then (true, STATUS_FAILED)
  else if (r.[0] =? "C") && (r.[1] =? "L") && (r.[2] =? "I") then (true, STATUS_FAILED)
  else if (r.[0] =? "S") && (r.[1] =? "E") && (r.[2] =? "R") then (true, STATUS_FAILED)
  else if ("0" <=? r.[0]) && (r.[0] <=? "9") then (true, STATUS_OK)
  else (false, status).

End Memcached.

(** ** NATS *)
Module Nats.

(** Returns a method code, 0 when the payload is not a NATS message. *)
Definition nats_method (m : mem) (buf buf_size : Z) : Z :=
  if buf_size <? 7 then 0
  else
  let? b := read_chars m buf 5 else 0 in
  let buf_size := TRUNCATE_PAYLOAD_SIZE buf_size in
  let? end_ := read_chars m (buf + buf_size - 2) 2 else 0 in
  if negb (end_.[0] =? 13) || negb (end_.[1] =? 10) then 0
  else if (b.[0] =? "P") && (b.[1] =? "U") && (b.[2] =? "B")
          && ((b.[3] =? " ") || (b.[3] =? 9)) then METHOD_PRODUCE
  else if (b.[0] =? "H") && (b.[1] =? "P") && (b.[2] =? "U") && (b.[3] =? "B")
          && ((b.[4] =? " ") || (b.[4] =? 9)) then METHOD_PRODUCE
  else if (b.[0] =? "M") && (b.[1] =? "S") && (b.[2] =? "G")
          && ((b.[3] =? " ") || (b.[3] =? 9)) then METHOD_CONSUME
  else if (b.[0] =? "H") && (b.[1] =? "M") && (b.[2] =? "S") && (b.[3] =? "G")
          && ((b.[4] =? " ") || (b.[4] =? 9)) then METHOD_CONSUME
  else 0.

End Nats.
