(* ===== verification/ProtoSql.v ===== *)
(** * Detectors of the database protocols

    ebpftracer/ebpf/l7/{postgres,mysql,mongo,cassandra,clickhouse}.c. *)

From S2P Require Import Prelude L7Base.
Local Open Scope cchar_scope.

(** ** Postgres *)
Module Postgres.

Definition POSTGRES_FRAME_SIMPLE_QUERY : Z := "Q".
Definition POSTGRES_FRAME_PARSE : Z := "P".
Definition POSTGRES_FRAME_CLOSE : Z := "C".

(** Returns the result and [*request_type] after the call. *)
Definition is_postgres_query (m : mem) (buf buf_size request_type : Z) : bool * Z :=
  if buf_size <? 5 then (false, request_type)
  else
  let? f_cmd := read_chars m buf 1 else (false, request_type) in
  let f_cmd := f_cmd.[0] in
  let? f_length := read_u32 m (buf + 1) else (false, request_type) in
  let f_length := s32 (bpf_htonl f_length) in
  let request_type := u8 f_cmd in
  if ((f_cmd =? POSTGRES_FRAME_SIMPLE_QUERY) || (f_cmd =? POSTGRES_FRAME_CLOSE))
     && (u64 (s32 (f_length + 1)) =? buf_size)
  then (true, request_type)
  else
  let buf_size := TRUNCATE_PAYLOAD_SIZE buf_size in
  let? sync := read_chars m (buf + buf_size - 5) 5 else (false, request_type) in
  if (sync.[0] =? "S") && (sync.[1] =? 0) && (sync.[2] =? 0) && (sync.[3] =? 0)
     && (sync.[4] =? 4)
  then (true, request_type)
  else (false, request_type).

Definition is_postgres_response (m : mem) (buf buf_size status : Z) : bool * Z :=
  let? cmd := read_chars m buf 1 else (false, status) in
  let cmd := cmd.[0] in
  let? length := read_u32 m (buf + 1) else (false, status) in
  let length := s32 (bpf_htonl length) in
  if buf_size <? u64 (s32 (length + 1)) then (false, status)
  else
  let verdict (cmd : Z) :=
    if cmd =? "E" then (true, STATUS_FAILED)
    else if (cmd =? "t") || (cmd =? "T") || (cmd =? "D") || (cmd =? "C")
    then (true, STATUS_OK)
    else (false, status) in
  if ((cmd =? "1") || (cmd =? "2")) && (length =? 4) && (10 <=? buf_size)
  then
    let? cmd := read_chars m (buf + 5) 1 else (false, status) in
    let? _ := read_u32 m (buf + 5 + 1) else (false, status) in
    verdict cmd.[0]
  else verdict cmd.

(** The header of a frame: its type byte and its big-endian length. *)
Lemma read_frame_header m buf c len :
  0 <= c < 128 -> probe_read m buf 5 = Some (c :: be4 len) ->
  read_chars m buf 1 = Some [c] /\ read_u32 m (buf + 1) = Some (le (be4 len)).
Proof.
  intros Hc R. split.
  - unfold read_chars. rewrite probe_read_1, (load_0 _ _ _ _ _ R). cbn.
    do 2 f_equal. mod_lia.
  - rewrite (read_u32_at _ _ _ _ 1 R) by lia. done.
Qed.

(** A simple query or close frame whose length field covers the payload is
    recognised whatever its contents, and its type is reported. *)
Theorem is_postgres_query_frame m buf rt cmd len :
  cmd = POSTGRES_FRAME_SIMPLE_QUERY \/ cmd = POSTGRES_FRAME_CLOSE ->
  4 <= len < 2147483647 ->
  probe_read m buf 5 = Some (cmd :: be4 len) ->
  is_postgres_query m buf (len + 1) rt = (true, cmd).
Proof.
  intros Hcmd Hlen R.
  assert (0 <= cmd < 128) as Hc by (destruct Hcmd as [-> | ->]; done).
  destruct (read_frame_header _ _ _ _ Hc R) as [E1 E2].
  unfold is_postgres_query. rewrite (proj2 (Z.ltb_ge (len + 1) 5)) by lia.
  rewrite E1, E2. cbn [nth]. unfold bpf_htonl. fold (bpf_ntohl (le (be4 len))).
  rewrite bpf_ntohl_be4, !s32_small, u64_small, Z.eqb_refl, andb_true_r by (rewrite ?s32_small; lia).
  rewrite u8_small by lia.
  by destruct Hcmd as [-> | ->].
Qed.

Lemma is_postgres_query_frame_witness :
  is_postgres_query (overlay mem_empty 0 ("Q" :: be4 12 ++ ["S"; "E"; "L"; "E"; "C"; "T"; " "; "1"])) 0 13 0
    = (true, "Q").
Proof.
  apply (is_postgres_query_frame
           (overlay mem_empty 0 ("Q" :: be4 12 ++ ["S"; "E"; "L"; "E"; "C"; "T"; " "; "1"]))
           0 0 POSTGRES_FRAME_SIMPLE_QUERY 12).
  - left; reflexivity.
  - lia.
  - vm_compute; reflexivity.
Defined.

(** The byte a payload begins with is stored in [*request_type] even when the
    payload is not recognised. *)
Lemma is_postgres_query_type m buf n rt c bs :
  5 <= n -> probe_read m buf 5 = Some (c :: bs) ->
  (is_postgres_query m buf n rt).2 = c.
Proof.
  intros Hn R. unfold is_postgres_query. rewrite (proj2 (Z.ltb_ge n 5)) by lia.
  pose proof (load_0 _ _ _ _ _ R) as L. pose proof (load_range _ _ _ L) as Hc.
  unfold read_chars. rewrite probe_read_1, L. cbn [fmap option_fmap option_map map nth].
  rewrite (read_u32_at _ _ _ _ 1 R) by lia.
  assert (u8 (s8 c) = c) as -> by mod_lia.
  by repeat case_match.
Qed.

End Postgres.

(** ** MySQL *)
Module Mysql.

Definition MYSQL_COM_QUERY : Z := 3.
Definition MYSQL_COM_STMT_PREPARE : Z := 0x16.
Definition MYSQL_COM_STMT_EXECUTE : Z := 0x17.
Definition MYSQL_COM_STMT_CLOSE : Z := 0x19.

Definition MYSQL_RESPONSE_OK : Z := 0x00.
Definition MYSQL_RESPONSE_EOF : Z := 0xfe.
Definition MYSQL_RESPONSE_ERROR : Z := 0xff.

(** [(int)b[0] | (int)b[1] << 8 | (int)b[2] << 16] *)
Definition packet_length (b : list Z) : Z :=
  Z.lor (Z.lor b.[0] (Z.shiftl b.[1] 8)) (Z.shiftl b.[2] 16).

Definition is_mysql_query (m : mem) (buf buf_size request_type : Z) : bool * Z :=
  if buf_size <? 5 then (false, request_type)
  else
  let? b := probe_read m buf 5 else (false, request_type) in
  let length := packet_length b in
  if negb (length + 4 =? buf_size) || negb (b.[3] =? 0) then (false, request_type)
  else if (b.[4] =? MYSQL_COM_QUERY) || (b.[4] =? MYSQL_COM_STMT_EXECUTE)
  then (true, request_type)
  else if b.[4] =? MYSQL_COM_STMT_CLOSE then (true, MYSQL_COM_STMT_CLOSE)
  else if b.[4] =? MYSQL_COM_STMT_PREPARE then (true, MYSQL_COM_STMT_PREPARE)
  else (false, request_type).

(** Returns the result, [*statement_id] and [*status]. A failed read zeroes its
    destination. *)
Definition is_mysql_response (m : mem) (buf buf_size request_type statement_id status : Z)
  : bool * Z * Z :=
  let? b := probe_read m buf 5 else (false, statement_id, status) in
  if b.[3] <? 1 then (false, statement_id, status)
  else
  let length := packet_length b in
  if (length =? 1) || (b.[4] =? MYSQL_RESPONSE_EOF) then (true, statement_id, STATUS_OK)
  else if b.[4] =? MYSQL_RESPONSE_OK then
    if request_type =? MYSQL_COM_STMT_PREPARE then
      let? id := read_u32 m (buf + 5) else (false, 0, status) in
      (true, id, STATUS_OK)
    else (true, statement_id, STATUS_OK)
  else if b.[4] =? MYSQL_RESPONSE_ERROR then (true, statement_id, STATUS_FAILED)
  else (false, statement_id, status).

End Mysql.

(** ** MongoDB *)
Module Mongo.

Definition MONGO_OP_COMPRESSED : Z := 2012.
Definition MONGO_OP_MSG : Z := 2013.

Record mongo_header := MongoHeader {
  length : Z; request_id : Z; response_to : Z; op_code : Z
}.

(** The struct as it lies in memory ([sizeof] 16). *)
Definition mongo_header_of (bs : list Z) : mongo_header :=
  MongoHeader (s32 (field bs 0 4)) (s32 (field bs 4 4))
              (s32 (field bs 8 4)) (s32 (field bs 12 4)).

Definition is_mongo_query (m : mem) (buf buf_size : Z) : bool :=
  if buf_size <? 16 then false
  else
  let? bs := probe_read m buf 16 else false in
  let h := mongo_header_of bs in
  (response_to h =? 0)
  && ((op_code h =? MONGO_OP_MSG) || (op_code h =? MONGO_OP_COMPRESSED)).

(** 2: only the length has been read so far; 1: a response; 0: not a response. *)
Definition is_mongo_response (m : mem) (buf buf_size partial : Z) : Z :=
  if (partial =? 0) && (buf_size =? 4) then 2
  else
  let verdict (response_to op_code : Z) :=
    if response_to =? 0 then 0
    else if (op_code =? MONGO_OP_MSG) || (op_code =? MONGO_OP_COMPRESSED) then 1
    else 0 in
  if negb (partial =? 0) then
    let? response_to := read_u32 m (buf + 4) else 0 in
    let? op_code := read_u32 m (buf + 8) else 0 in
    verdict (s32 response_to) (s32 op_code)
  else
    let? bs := probe_read m buf 16 else 0 in
    let h := mongo_header_of bs in
    verdict (response_to h) (op_code h).

(** A response whose 4-byte length is read first and the rest by a second
    call gets the verdict it would have had in one read. *)
Theorem is_mongo_response_split m buf n bs :
  n <> 4 -> probe_read m buf 16 = Some bs ->
  is_mongo_response m buf n 0 = is_mongo_response m (buf + 4) (n - 4) 1.
Proof.
  intros Hn R. unfold is_mongo_response. rewrite R. cbn [Z.eqb negb andb].
  rewrite (proj2 (Z.eqb_neq n 4)) by done.
  replace (buf + 4 + 4) with (buf + 8) by lia. replace (buf + 4 + 8) with (buf + 12) by lia.
  by rewrite (read_u32_at _ _ _ _ 8 R), (read_u32_at _ _ _ _ 12 R) by lia.
Qed.

Lemma is_mongo_response_split_witness :
  is_mongo_response (overlay mem_empty 0 [40;0;0;0; 1;0;0;0; 7;0;0;0; 221;7;0;0]) 0 40 0 = 1 /\
  is_mongo_response (overlay mem_empty 0 [40;0;0;0; 1;0;0;0; 7;0;0;0; 221;7;0;0]) 0 40 0 =
  is_mongo_response (overlay mem_empty 0 [40;0;0;0; 1;0;0;0; 7;0;0;0; 221;7;0;0]) 4 36 1.
Proof.
  split; [vm_compute; reflexivity|].
  apply (is_mongo_response_split
    (overlay mem_empty 0 [40;0;0;0; 1;0;0;0; 7;0;0;0; 221;7;0;0]) 0 40
    [40;0;0;0; 1;0;0;0; 7;0;0;0; 221;7;0;0]).
  - lia.
  - vm_compute; reflexivity.
Defined.

End Mongo.

(** ** Cassandra *)
Module Cassandra.

Definition CASSANDRA_REQUEST_FRAME : Z := 0x04.
Definition CASSANDRA_RESPONSE_FRAME : Z := 0x84.

Definition CASSANDRA_OPCODE_ERROR : Z := 0x00.
Definition CASSANDRA_OPCODE_QUERY : Z := 0x07.
Definition CASSANDRA_OPCODE_RESULT : Z := 0x08.
Definition CASSANDRA_OPCODE_EXECUTE : Z := 0x0A.
Definition CASSANDRA_OPCODE_BATCH : Z := 0x0D.

Record cassandra_header := CassandraHeader {
  version : Z; flags : Z; stream_id : Z; opcode : Z
}.

(** [sizeof] is 6: one byte of padding after [opcode]. *)
Definition cassandra_header_of (bs : list Z) : cassandra_header :=
  CassandraHeader (field bs 0 1) (field bs 1 1) (s16 (field bs 2 2)) (field bs 4 1).

Definition is_cassandra_request (m : mem) (buf buf_size stream : Z) : bool * Z :=
  if buf_size <? 6 then (false, stream)
  else
  let? bs := probe_read m buf 6 else (false, stream) in
  let h := cassandra_header_of bs in
  if negb (version h =? CASSANDRA_REQUEST_FRAME) then (false, stream)
  else if (opcode h =? CASSANDRA_OPCODE_QUERY) || (opcode h =? CASSANDRA_OPCODE_EXECUTE)
          || (opcode h =? CASSANDRA_OPCODE_BATCH)
  then (true, stream_id h)
  else (false, stream).

(** Returns the result, [*stream_id] and [*status]. *)
Definition is_cassandra_response (m : mem) (buf buf_size stream status : Z)
  : bool * Z * Z :=
  if buf_size <? 6 then (false, stream, status)
  else
  let? bs := probe_read m buf 6 else (false, stream, status) in
  let h := cassandra_header_of bs in
  if negb (version h =? CASSANDRA_RESPONSE_FRAME) then (false, stream, status)
  else if opcode h =? CASSANDRA_OPCODE_RESULT then (true, stream_id h, STATUS_OK)
  else if opcode h =? CASSANDRA_OPCODE_ERROR then (true, stream_id h, STATUS_FAILED)
  else (false, stream, status).

End Cassandra.

(** ** ClickHouse *)
Module Clickhouse.

Definition CLICKHOUSE_QUERY_ID_SIZE : Z := 36.
Definition CLICKHOUSE_QUERY_KIND_INITIAL : Z := 1.
Definition CLICKHOUSE_QUERY_KIND_SECONDARY : Z := 2.
Definition CLICKHOUSE_CLIENT_CODE_QUERY : Z := 1.
Definition CLICKHOUSE_SERVER_CODE_DATA : Z := 1.
Definition CLICKHOUSE_SERVER_CODE_EXCEPTION : Z := 2.
Definition CLICKHOUSE_SERVER_CODE_END_OF_STREAM : Z := 5.

(** [b[CLICKHOUSE_QUERY_ID_SIZE+3]] is read whatever [buf_size] is. *)
Definition is_clickhouse_query (m : mem) (buf buf_size : Z) : bool :=
  let? b := probe_read m buf 39 else false in
  if negb (b.[0] =? CLICKHOUSE_CLIENT_CODE_QUERY) then false
  else
  let kind_ok (offset : nat) :=
    negb (negb (nth offset b 0 =? CLICKHOUSE_QUERY_KIND_INITIAL)
          && negb (nth offset b 0 =? CLICKHOUSE_QUERY_KIND_SECONDARY)) in
  if b.[1] =? 0 then kind_ok 2%nat
  else if b.[1] =? CLICKHOUSE_QUERY_ID_SIZE then kind_ok 38%nat
  else false.

Definition is_clickhouse_response (m : mem) (buf status : Z) : bool * Z :=
  let? code := read_u8 m buf else (false, status) in
  if (code =? CLICKHOUSE_SERVER_CODE_DATA) || (code =? CLICKHOUSE_SERVER_CODE_END_OF_STREAM)
  then (true, STATUS_OK)
  else if code =? CLICKHOUSE_SERVER_CODE_EXCEPTION then (true, STATUS_FAILED)
  else (false, status).

End Clickhouse.
