(* ===== verification/ProtoBin.v ===== *)
(** * Detectors of the binary RPC, queue and coordination protocols

    ebpftracer/ebpf/l7/{kafka,rabbitmq,http2,dubbo2,dns,zookeeper}.c. *)

From S2P Require Import Prelude L7Base.
Local Open Scope cchar_scope.

(** ** Kafka *)
Module Kafka.

Record kafka_request_header := KafkaRequestHeader {
  length : Z; api_key : Z; api_version : Z; correlation_id : Z
}.

Record kafka_response_header := KafkaResponseHeader {
  resp_length : Z; resp_correlation_id : Z
}.

Definition kafka_request_header_of (bs : list Z) : kafka_request_header :=
  KafkaRequestHeader (s32 (field bs 0 4)) (s16 (field bs 4 2))
                     (s16 (field bs 6 2)) (s32 (field bs 8 4)).

Definition kafka_response_header_of (bs : list Z) : kafka_response_header :=
  KafkaResponseHeader (s32 (field bs 0 4)) (s32 (field bs 4 4)).

(** Returns the result and [*request_id]. *)
Definition is_kafka_request (m : mem) (buf buf_size request_id : Z) : bool * Z :=
  if buf_size <? 12 then (false, request_id)
  else
  let? bs := probe_read m buf 12 else (false, request_id) in
  let h := kafka_request_header_of bs in
  let length := s32 (bpf_htonl (length h)) in
  if negb (u64 (s32 (length + 4)) =? buf_size) then (false, request_id)
  else
  let api_key := s16 (bpf_htons (api_key h)) in
  let correlation_id := s32 (bpf_htonl (correlation_id h)) in
  if (0 <? correlation_id) && ((0 <=? api_key) && (api_key <=? 67))
  then (true, correlation_id)
  else (false, request_id).

Definition is_kafka_response (m : mem) (buf request_id : Z) : bool :=
  let? bs := probe_read m buf 8 else false in
  let h := kafka_response_header_of bs in
  bpf_htonl (resp_correlation_id h) =? u32 request_id.

(** A request and its response are matched by correlation id: the request
    written with a length that covers the payload, a known API key and a positive
    id is recognised with that id, and the response read later is taken for its
    response exactly when it carries the same id. *)
Theorem kafka_correlation m m' buf buf' len api version corr resp_len corr' rid :
  8 <= len < 2147483644 -> 0 <= api <= 67 -> 0 <= version < 65536 ->
  0 < corr < 2147483648 -> 0 <= corr' < 4294967296 ->
  probe_read m buf 12 = Some (be4 len ++ be2 api ++ be2 version ++ be4 corr) ->
  probe_read m' buf' 8 = Some (be4 resp_len ++ be4 corr') ->
  is_kafka_request m buf (len + 4) rid = (true, corr) /\
  is_kafka_response m' buf' corr = (corr' =? corr).
Proof.
  intros Hlen Hapi Hver Hcorr Hcorr' R R'. split.
  - unfold is_kafka_request. rewrite (proj2 (Z.ltb_ge (len + 4) 12)) by lia. rewrite R.
    unfold kafka_request_header_of. cbn [length api_key correlation_id].
    unfold bpf_htonl, bpf_htons. rewrite !bpf_swab32_s32, bpf_swab16_s16.
    change (field _ 0 4) with (le (be4 len)). change (field _ 4 2) with (le (be2 api)).
    change (field _ 8 4) with (le (be4 corr)).
    fold (bpf_ntohl (le (be4 len))) (bpf_ntohl (le (be4 corr))) (bpf_ntohs (le (be2 api))).
    rewrite !bpf_ntohl_be4, bpf_ntohs_be2 by lia.
    rewrite (s32_small len), (s32_small (len + 4)), u64_small, Z.eqb_refl by lia. cbn [negb].
    rewrite s32_small, s16_small by lia. case_match eqn:E; [done|lia].
  - unfold is_kafka_response. rewrite R'. unfold kafka_response_header_of.
    cbn [resp_correlation_id]. unfold bpf_htonl. rewrite bpf_swab32_s32.
    change (field _ 4 4) with (le (be4 corr')). fold (bpf_ntohl (le (be4 corr'))).
    by rewrite bpf_ntohl_be4, u32_small by lia.
Qed.

Lemma kafka_correlation_witness :
  is_kafka_request (overlay mem_empty 0 (be4 20 ++ be2 3 ++ be2 9 ++ be4 77)) 0 24 0 = (true, 77) /\
  is_kafka_response (overlay mem_empty 0 (be4 100 ++ be4 77)) 0 77 = (77 =? 77).
Proof.
  apply (kafka_correlation (overlay mem_empty 0 (be4 20 ++ be2 3 ++ be2 9 ++ be4 77))
           (overlay mem_empty 0 (be4 100 ++ be4 77)) 0 0 20 3 9 77 100 77 0); try lia;
    vm_compute; reflexivity.
Defined.

End Kafka.

(** ** RabbitMQ *)
Module Rabbitmq.

Definition RABBITMQ_FRAME_TYPE_METHOD : Z := 1.
Definition RABBITMQ_FRAME_END : Z := 0xCE.
Definition RABBITMQ_CLASS_BASIC : Z := 60.
Definition RABBITMQ_METHOD_PUBLISH : Z := 40.
Definition RABBITMQ_METHOD_DELIVER : Z := 60.

Definition rabbitmq_method_is (m : mem) (buf buf_size expected_method : Z) : bool :=
  if buf_size <? 12 then false
  else
  let? type := read_u8 m buf else false in
  if negb (type =? RABBITMQ_FRAME_TYPE_METHOD) then false
  else
  let? size := read_u32 m (buf + 3) else false in
  let size := bpf_htonl size in
  if buf_size <? u32 (7 + size + 1) then false
  else
  let size := TRUNCATE_PAYLOAD_SIZE size in
  let? end_ := read_u8 m (buf + 7 + size) else false in
  if negb (end_ =? RABBITMQ_FRAME_END) then false
  else
  let? class := read_u16 m (buf + 7) else false in
  if negb (bpf_htons class =? RABBITMQ_CLASS_BASIC) then false
  else
  let? method := read_u16 m (buf + 9) else false in
  if negb (bpf_htons method =? expected_method) then false
  else true.

Definition is_rabbitmq_produce (m : mem) (buf buf_size : Z) : bool :=
  rabbitmq_method_is m buf buf_size RABBITMQ_METHOD_PUBLISH.

Definition is_rabbitmq_consume (m : mem) (buf buf_size : Z) : bool :=
  rabbitmq_method_is m buf buf_size RABBITMQ_METHOD_DELIVER.

(** An accepted AMQP frame is a method frame of class Basic with the expected
    method and the frame-end octet in its place (the size cut to 1023), and it
    lies inside the payload, provided its size field is below 2^32 - 8. *)
Theorem rabbitmq_method_is_sound m buf n meth :
  rabbitmq_method_is m buf n meth = true ->
  exists raw class method,
    let size := bpf_htonl raw in
    load m buf = Some RABBITMQ_FRAME_TYPE_METHOD /\ read_u32 m (buf + 3) = Some raw /\
    load m (buf + 7 + Z.min size 1023) = Some RABBITMQ_FRAME_END /\
    read_u16 m (buf + 7) = Some class /\ bpf_htons class = RABBITMQ_CLASS_BASIC /\
    read_u16 m (buf + 9) = Some method /\ bpf_htons method = meth /\
    12 <= n /\ (size < 4294967288 -> 7 + size + 1 <= n).
Proof.
  unfold rabbitmq_method_is, read_u8. intros H. repeat case_step_in H; try done.
  split_bools. rewrite TRUNCATE_PAYLOAD_SIZE_min in * by apply bpf_swab32_range.
  repeat match goal with E : (_ =? _) = true |- _ => apply Z.eqb_eq in E end. subst.
  eexists _, _, _. split_and!; eauto; [lia|].
  intros Hs. assert (u32 (7 + bpf_htonl z0 + 1) = 7 + bpf_htonl z0 + 1) as E
    by (apply u32_small; pose proof (bpf_swab32_range z0); unfold bpf_htonl in *; lia).
  lia.
Qed.

(** A publish frame of the size [size] in a payload padded to [n] bytes. *)
Definition publish_frame (size : Z) (n : nat) : list Z :=
  1 :: be2 1 ++ be4 size ++ be2 60 ++ be2 40 ++ replicate n 0xCE.

Lemma rabbitmq_method_is_sound_witness :
  exists raw class method,
    let size := bpf_htonl raw in
    let m := overlay mem_empty 0 (publish_frame 20 30) in
    load m 0 = Some RABBITMQ_FRAME_TYPE_METHOD /\ read_u32 m (0 + 3) = Some raw /\
    load m (0 + 7 + Z.min size 1023) = Some RABBITMQ_FRAME_END /\
    read_u16 m (0 + 7) = Some class /\ bpf_htons class = RABBITMQ_CLASS_BASIC /\
    read_u16 m (0 + 9) = Some method /\ bpf_htons method = 40 /\
    12 <= 28 /\ (size < 4294967288 -> 7 + size + 1 <= 28).
Proof.
  apply (rabbitmq_method_is_sound (overlay mem_empty 0 (publish_frame 20 30)) 0 28 40).
  vm_compute. reflexivity.
Defined.

(** The length check is made in 32 bits: a frame that claims 2^32 - 8 bytes or
    more passes it in a payload of any size from 12 on. *)
Theorem rabbitmq_length_wraps n :
  12 <= n ->
  is_rabbitmq_produce (overlay mem_empty 0 (publish_frame 4294967295 1100)) 0 n = true.
Proof.
  intros Hn. unfold is_rabbitmq_produce, rabbitmq_method_is.
  rewrite (proj2 (Z.ltb_ge n 12)) by lia.
  change (read_u8 _ 0) with (Some 1). cbn [Z.eqb negb RABBITMQ_FRAME_TYPE_METHOD Pos.eqb].
  assert (read_u32 (overlay mem_empty 0 (publish_frame 4294967295 1100)) (0 + 3)
          = Some 4294967295) as -> by (vm_compute; reflexivity).
  change (u32 (7 + bpf_htonl 4294967295 + 1)) with 7.
  rewrite (proj2 (Z.ltb_ge n 7)) by lia. vm_compute. reflexivity.
Qed.

Lemma rabbitmq_length_wraps_witness :
  is_rabbitmq_produce (overlay mem_empty 0 (publish_frame 4294967295 1100)) 0 12 = true.
Proof. apply (rabbitmq_length_wraps 12). lia. Defined.

End Rabbitmq.

(** ** HTTP/2 *)
Module Http2.

Definition HTTP2_CLIENT_INITIATED_STREAM (stream_id : Z) : Z := Z.land stream_id 0x01000000.
Definition HTTP2_SETTINGS_FRAME : Z := 0x4.

Definition is_client_preface (m : mem) (buf size method : Z) : bool :=
  if negb (method =? METHOD_HTTP2_CLIENT_FRAMES) || (size <? 24) then false
  else
  let? b := read_chars m buf 5 else false in
  (b.[0] =? "P") && (b.[1] =? "R") && (b.[2] =? "I") && (b.[3] =? " ") && (b.[4] =? "*").

Definition is_server_preface (frame_type stream_id method : Z) : bool :=
  (method =? METHOD_HTTP2_SERVER_FRAMES) && (frame_type =? HTTP2_SETTINGS_FRAME)
  && (stream_id =? 0).

Definition looks_like_http2_frame (m : mem) (buf size method : Z) : bool :=
  let? frame_length := read_u32 m buf else false in
  let frame_length := Z.shiftr (bpf_htonl frame_length) 8 in
  if size <? u32 (frame_length + 9) then is_client_preface m buf size method
  else
  let? frame_type := read_u8 m (buf + 3) else false in
  if 0x9 <? frame_type then is_client_preface m buf size method
  else
  let? stream_id := read_u32 m (buf + 5) else false in
  if HTTP2_CLIENT_INITIATED_STREAM stream_id =? 0
  then is_server_preface frame_type stream_id method
  else true.

(** The bit tested is the parity of the big-endian stream identifier. *)
Lemma client_initiated_odd sid :
  0 <= sid < 4294967296 ->
  (HTTP2_CLIENT_INITIATED_STREAM (le (be4 sid)) =? 0) = negb (Z.odd sid).
Proof.
  intros H. unfold HTTP2_CLIENT_INITIATED_STREAM. change 0x01000000 with (2 ^ 24).
  rewrite Zodd_mod.
  assert (Z.testbit (le (be4 sid)) 24 = (sid mod 2 =? 1)) as Hb.
  { rewrite Z.testbit_eqb by lia. f_equal. unfold be4. cbn [le]. mod_lia. }
  assert (Z.land (le (be4 sid)) (2 ^ 24) = if Z.testbit (le (be4 sid)) 24 then 2 ^ 24 else 0) as ->.
  { apply Z.bits_inj'. intros i Hi. rewrite Z.land_spec, Z.pow2_bits_eqb by lia.
    destruct (Z.eqb_spec 24 i) as [<-|Hne].
    - rewrite andb_true_r. destruct (Z.testbit _ 24); [done|by rewrite Z.bits_0].
    - rewrite andb_false_r. destruct (Z.testbit _ 24); [|by rewrite Z.bits_0].
      by rewrite Z.pow2_bits_false by lia. }
  rewrite Hb. by destruct (sid mod 2 =? 1).
Qed.

(** A payload that starts with a whole frame of a known type is taken for
    HTTP/2 exactly when the stream was initiated by the client (its number is
    odd) or, among server frames, when it is SETTINGS on stream 0. *)
Theorem looks_like_http2_frame_header m buf size method len ty fl sid :
  0 <= len < 16777216 -> 0 <= ty <= 9 -> 0 <= sid < 4294967296 -> len + 9 <= size ->
  probe_read m buf 9 = Some ([len / 65536; len / 256 mod 256; len mod 256; ty; fl] ++ be4 sid) ->
  looks_like_http2_frame m buf size method =
    Z.odd sid || ((method =? METHOD_HTTP2_SERVER_FRAMES) && (ty =? HTTP2_SETTINGS_FRAME)
                  && (sid =? 0)).
Proof.
  intros Hlen Hty Hsid Hsize R. unfold looks_like_http2_frame, read_u8.
  replace (read_u32 m buf) with (read_u32 m (buf + 0)) by (by rewrite Z.add_0_r).
  rewrite (read_u32_at _ _ _ _ 0 R), (load_at _ _ _ _ 3 R), (read_u32_at _ _ _ _ 5 R) by lia.
  change (field _ (Z.to_nat 0) 4) with (le [len / 65536; len / 256 mod 256; len mod 256; ty]).
  change (field _ (Z.to_nat 3) 1) with (ty + 256 * 0).
  change (field _ (Z.to_nat 5) 4) with (le (be4 sid)).
  unfold bpf_htonl. rewrite bpf_swab32_le, Z.shiftr_div_pow2 by mod_lia.
  replace ((16777216 * (len / 65536) + 65536 * (len / 256 mod 256) + 256 * (len mod 256) + ty) / 2 ^ 8)
    with len by mod_lia.
  rewrite u32_small, (proj2 (Z.ltb_ge _ _)) by lia.
  rewrite Z.add_0_r, (proj2 (Z.ltb_ge 9 ty)), client_initiated_odd by lia.
  destruct (Z.odd sid) eqn:Ho; [done|]. cbn [negb orb]. unfold is_server_preface.
  assert ((le (be4 sid) =? 0) = (sid =? 0)) as ->; [|done].
  apply eq_true_iff_eq. rewrite !Z.eqb_eq. unfold be4. cbn [le]. mod_lia.
Qed.

Lemma looks_like_http2_frame_header_witness :
  looks_like_http2_frame (overlay mem_empty 0 ([0; 0; 13; 1; 4] ++ be4 3)) 0 100
    METHOD_HTTP2_CLIENT_FRAMES
  = Z.odd 3 || ((METHOD_HTTP2_CLIENT_FRAMES =? METHOD_HTTP2_SERVER_FRAMES)
                && (1 =? HTTP2_SETTINGS_FRAME) && (3 =? 0)).
Proof.
  apply (looks_like_http2_frame_header (overlay mem_empty 0 ([0; 0; 13; 1; 4] ++ be4 3)) 0 100
           METHOD_HTTP2_CLIENT_FRAMES 13 1 4 3); try lia.
  vm_compute; reflexivity.
Defined.

End Http2.

(** ** Dubbo 2 *)
Module Dubbo2.

Definition DUBBO_HEADER_LENGTH : Z := 16.
Definition DUBBO_MAGIC_HIGH : Z := 0xda.
Definition DUBBO_MAGIC_LOW : Z := 0xbb.

Definition DUBBO_SERIALMASK : Z := 0x1f.
Definition DUBBO_FLAG_REQUEST : Z := 0x80.
Definition DUBBO_TWO_WAY : Z := 0x40.
Definition DUBBO_HEARTBEAT_EVENT : Z := 0x20.

Definition DUBBO_RESPONSE_OK : Z := 20.
Definition DUBBO_RESPONSE_CLIENT_TIMEOUT : Z := 30.
Definition DUBBO_RESPONSE_SERVER_TIMEOUT : Z := 31.
Definition DUBBO_RESPONSE_BAD_REQUEST : Z := 40.
Definition DUBBO_RESPONSE_BAD_RESPONSE : Z := 50.
Definition DUBBO_RESPONSE_SERVICE_NOT_FOUND : Z := 60.
Definition DUBBO_RESPONSE_SERVICE_ERROR : Z := 70.
Definition DUBBO_RESPONSE_SERVER_ERROR : Z := 80.
Definition DUBBO_RESPONSE_CLIENT_ERROR : Z := 90.
Definition DUBBO_RESPONSE_SERVER_THREADPOOL_EXHAUSTED_ERROR : Z := 100.

Definition is_dubbo2_request (m : mem) (buf buf_size : Z) : bool :=
  if buf_size <? DUBBO_HEADER_LENGTH then false
  else
  let? b := probe_read m buf 16 else false in
  if negb (b.[0] =? DUBBO_MAGIC_HIGH) || negb (b.[1] =? DUBBO_MAGIC_LOW) then false
  else if (Z.land b.[2] DUBBO_SERIALMASK =? 0) || (Z.land b.[2] DUBBO_FLAG_REQUEST =? 0)
          || (Z.land b.[2] DUBBO_TWO_WAY =? 0)
          || negb (Z.land b.[2] DUBBO_HEARTBEAT_EVENT =? 0) then false
  else true.

Definition is_dubbo2_response (m : mem) (buf status : Z) : bool * Z :=
  let? b := probe_read m buf 16 else (false, status) in
  if negb (b.[0] =? DUBBO_MAGIC_HIGH) || negb (b.[1] =? DUBBO_MAGIC_LOW) then (false, status)
  else if (Z.land b.[2] DUBBO_SERIALMASK =? 0)
          || negb (Z.land b.[2] DUBBO_FLAG_REQUEST =? 0)
          || negb (Z.land b.[2] DUBBO_HEARTBEAT_EVENT =? 0) then (false, status)
  else if b.[3] =? DUBBO_RESPONSE_OK then (true, STATUS_OK)
  else if (b.[3] =? DUBBO_RESPONSE_CLIENT_TIMEOUT) || (b.[3] =? DUBBO_RESPONSE_SERVER_TIMEOUT)
  then (true, STATUS_FAILED)
  else if (b.[3] =? DUBBO_RESPONSE_BAD_REQUEST) || (b.[3] =? DUBBO_RESPONSE_CLIENT_ERROR)
          || (b.[3] =? DUBBO_RESPONSE_SERVICE_NOT_FOUND)
  then (true, STATUS_FAILED)
  else if (b.[3] =? DUBBO_RESPONSE_BAD_RESPONSE) || (b.[3] =? DUBBO_RESPONSE_SERVICE_ERROR)
          || (b.[3] =? DUBBO_RESPONSE_SERVER_ERROR)
          || (b.[3] =? DUBBO_RESPONSE_SERVER_THREADPOOL_EXHAUSTED_ERROR)
  then (true, STATUS_FAILED)
  else (true, STATUS_UNKNOWN).

End Dubbo2.

(** ** DNS *)
Module Dns.

Definition DNS_QR_RESPONSE : Z := 0x80.
Definition DNS_OPCODE : Z := 0x78.
Definition DNS_Z : Z := 0xF0.
Definition DNS_RCODE : Z := 0x0F.

Record dns_header := DnsHeader { id : Z; bits0 : Z; bits1 : Z; qdcount : Z }.

Definition dns_header_of (bs : list Z) : dns_header :=
  DnsHeader (s16 (field bs 0 2)) (field bs 2 1) (field bs 3 1) (s16 (field bs 4 2)).

(** Returns the result and [*stream_id]. *)
Definition is_dns_request (m : mem) (buf buf_size stream_id : Z) : bool * Z :=
  if buf_size <? 6 then (false, stream_id)
  else
  let? bs := probe_read m buf 6 else (false, stream_id) in
  let h := dns_header_of bs in
  if negb (Z.land (bits0 h) DNS_QR_RESPONSE =? 0) then (false, stream_id)
  else if negb (Z.land (bits0 h) DNS_OPCODE =? 0) then (false, stream_id)
  else
  let qdcount := s16 (bpf_ntohs (qdcount h)) in
  if negb (qdcount =? 1) then (false, stream_id)
  else (true, id h).

(** Returns the result, [*stream_id] and [*status]. *)
Definition is_dns_response (m : mem) (buf buf_size stream_id status : Z) : bool * Z * Z :=
  if buf_size <? 6 then (false, stream_id, status)
  else
  let? bs := probe_read m buf 6 else (false, stream_id, status) in
  let h := dns_header_of bs in
  if Z.land (bits0 h) DNS_QR_RESPONSE =? 0 then (false, stream_id, status)
  else if negb (Z.land (bits0 h) DNS_OPCODE =? 0) then (false, stream_id, status)
  else
  let qdcount := s16 (bpf_ntohs (qdcount h)) in
  if negb (qdcount =? 1) then (false, stream_id, status)
  else (true, id h, Z.land (bits1 h) DNS_RCODE).

(** No packet is both a query and a response, and a query and a response
    that carry the same id get the same stream id. *)
Theorem dns_request_response m buf n sid sid0 st x :
  is_dns_request m buf n sid = (true, x) ->
  (is_dns_response m buf n sid0 st).1.1 = false /\
  forall m' buf' n' r code,
    is_dns_response m' buf' n' sid0 st = (true, r, code) ->
    (r = x <-> s16 <$> read_u16 m' buf' = s16 <$> read_u16 m buf).
Proof.
  intros H. unfold is_dns_request in H. repeat case_step_in H; try done.
  injection H as <-. split.
  - unfold is_dns_response. rewrite Heqb, Heqo. split_bools. by rewrite Heqb0.
  - unfold is_dns_response. intros m' buf' n' r code H. repeat case_step_in H; try done.
    injection H as <- <-. cbn [Dns.id dns_header_of].
    replace (read_u16 m' buf') with (read_u16 m' (buf' + 0)) by (by rewrite Z.add_0_r).
    replace (read_u16 m buf) with (read_u16 m (buf + 0)) by (by rewrite Z.add_0_r).
    rewrite (read_u16_at _ _ _ _ 0 Heqo), (read_u16_at _ _ _ _ 0 Heqo0) by lia.
    change (Z.to_nat 0) with 0%nat. cbn [fmap option_fmap option_map]. split; congruence.
Qed.

Lemma dns_request_response_witness :
  let q := overlay mem_empty 0 [171; 205; 1; 0; 0; 1] in
  (is_dns_response q 0 6 (-1) 0).1.1 = false /\
  forall m' buf' n' r code,
    is_dns_response m' buf' n' (-1) 0 = (true, r, code) ->
    (r = -12885 <-> s16 <$> read_u16 m' buf' = s16 <$> read_u16 q 0).
Proof.
  apply (dns_request_response (overlay mem_empty 0 [171; 205; 1; 0; 0; 1]) 0 6 (-1) (-1) 0 (-12885)).
  vm_compute; reflexivity.
Defined.

End Dns.

(** ** ZooKeeper *)
Module Zookeeper.

Definition ZK_OP_NOTIFY : Z := 0.
Definition ZK_OP_CREATE_CONTAINER : Z := 19.
Definition ZK_OP_CREATE_TTL : Z := 21.
Definition ZK_OP_CLOSE : Z := -11.
Definition ZK_OP_SET_AUTH : Z := 100.
Definition ZK_OP_SET_WATCHES : Z := 101.
Definition ZK_OP_ERROR : Z := -1.

Definition ZK_ERR_OK : Z := 0.
Definition ZK_ERR_SYSTEM_ERROR : Z := -1.
Definition ZK_ERR_INVALID_STATE : Z := -9.
Definition ZK_ERR_RECONFIG_DISABLED : Z := -123.

Record zk_request_header := ZkRequestHeader { length : Z; xid : Z; op_code : Z }.
Record zk_response_header := ZkResponseHeader {
  resp_length : Z; resp_xid : Z; zxid : Z; err_code : Z
}.

Definition zk_request_header_of (bs : list Z) : zk_request_header :=
  ZkRequestHeader (field bs 0 4) (field bs 4 4) (field bs 8 4).

(** [zxid] is 8-aligned at offset 8; [sizeof] is 24 (4 bytes of padding). *)
Definition zk_response_header_of (bs : list Z) : zk_response_header :=
  ZkResponseHeader (field bs 0 4) (field bs 4 4) (field bs 8 8) (field bs 16 4).

Definition is_zk_request (m : mem) (buf buf_size : Z) : bool :=
  let? bs := probe_read m buf 12 else false in
  let req := zk_request_header_of bs in
  if negb (u32 (bpf_ntohl (length req) + 4) =? buf_size) then false
  else
  let xid := s32 (bpf_ntohl (xid req)) in
  if (xid <? 0) && negb (xid =? -1) && negb (xid =? -2) then false
  else
  let op := s32 (bpf_ntohl (op_code req)) in
  if (ZK_OP_NOTIFY <=? op) && (op <=? ZK_OP_CREATE_CONTAINER) then true
  else if (op =? ZK_OP_CREATE_TTL) || (op =? ZK_OP_CLOSE) || (op =? ZK_OP_SET_AUTH)
          || (op =? ZK_OP_SET_WATCHES) || (op =? ZK_OP_ERROR) then true
  else false.

(** Returns 0, 1 or 2 (partial read), and [*status]. *)
Definition is_zk_response (m : mem) (buf buf_size status partial : Z) : Z * Z :=
  if (partial =? 0) && (buf_size =? 4) then (2, status)
  else
  let verdict (resp_xid resp_err_code : Z) :=
    let xid := s32 (bpf_ntohl resp_xid) in
    if (xid <? 0) && negb (xid =? -1) && negb (xid =? -2) then (0, status)
    else
    let status := s32 (bpf_ntohl resp_err_code) in
    if (0 <? status) || (status <? ZK_ERR_RECONFIG_DISABLED) then (0, status)
    else (1, status) in
  if negb (partial =? 0) then
    let? resp_xid := read_u32 m buf else (0, status) in
    let? resp_err_code := read_u32 m (buf + 12) else (0, status) in
    verdict resp_xid resp_err_code
  else
    let? bs := probe_read m buf 24 else (0, status) in
    let resp := zk_response_header_of bs in
    if negb (u32 (bpf_ntohl (resp_length resp) + 4) =? buf_size) then (0, status)
    else verdict (resp_xid resp) (err_code resp).

(** A response whose length is read by a first call of 4 bytes gets the
    verdict and the status of the same response read at once, when its length
    field is right. *)
Theorem is_zk_response_split m buf n st bs :
  n <> 4 -> probe_read m buf 24 = Some bs -> u32 (bpf_ntohl (field bs 0 4) + 4) = n ->
  is_zk_response m buf n st 0 = is_zk_response m (buf + 4) (n - 4) st 1.
Proof.
  intros Hn R Hlen. unfold is_zk_response. rewrite R. cbn [Z.eqb negb andb].
  rewrite (proj2 (Z.eqb_neq n 4)) by done. unfold zk_response_header_of. cbn [resp_length].
  rewrite Hlen, Z.eqb_refl. cbn [negb resp_xid err_code].
  replace (buf + 4 + 12) with (buf + 16) by lia.
  by rewrite (read_u32_at _ _ _ _ 4 R), (read_u32_at _ _ _ _ 16 R) by lia.
Qed.

Definition zk_ok_response : list Z :=
  be4 20 ++ be4 5 ++ [0; 0; 0; 0; 0; 0; 0; 9] ++ be4 (4294967296 - 101) ++ [0; 0; 0; 0].

Lemma is_zk_response_split_witness :
  is_zk_response (overlay mem_empty 0 zk_ok_response) 0 24 0 0 = (1, -101) /\
  is_zk_response (overlay mem_empty 0 zk_ok_response) 0 24 0 0 =
  is_zk_response (overlay mem_empty 0 zk_ok_response) 4 20 0 1.
Proof.
  split; [vm_compute; reflexivity|].
  apply (is_zk_response_split (overlay mem_empty 0 zk_ok_response) 0 24 0 zk_ok_response).
  - lia.
  - vm_compute; reflexivity.
  - vm_compute; reflexivity.
Defined.

End Zookeeper.
