(* ===== verification/Foundationdb.v ===== *)
(** * FoundationDB detector

    ebpftracer/ebpf/l7/foundationdb.c: the file identifiers of the requests,
    replies and interfaces, and the recognition of a packet by the identifier
    found at the offset it has without and with TLS. *)

From S2P Require Import Prelude L7Base.

Module Fdb.

(** ** File identifiers *)

(** The names of the requests, the most common replies and the key interfaces. *)
Inductive fdb_file_id :=
| FDB_RECRUITSTORAGEREQUEST | FDB_COMMITTRANSACTIONREQUEST
| FDB_GETREADVERSIONREQUEST | FDB_OPENDATABASECOORDREQUEST
| FDB_GLOBALCONFIGREFRESHREQUEST | FDB_GETKEYSERVERLOCATIONSREQUEST
| FDB_GETVALUEREQUEST | FDB_GETKEYVALUESREQUEST
| FDB_GETKEYVALUESSTREAMREQUEST | FDB_CHANGEFEEDSTREAMREQUEST
| FDB_GETMAPPEDKEYVALUESREQUEST | FDB_SETREQUEST
| FDB_CLEARREQUEST | FDB_GETKEYREQUEST
| FDB_WATCHVALUEREQUEST | FDB_INITIALIZESTORAGEREQUEST
| FDB_INITIALIZEGRVPROXYREQUEST | FDB_INITIALIZECOMMITPROXYREQUEST
| FDB_INITIALIZETLOGREQUEST | FDB_INITIALIZERATEKEEPERREQUEST
| FDB_TLOGCOMMITREQUEST | FDB_TLOGPEEKREQUEST
| FDB_TLOGPEEKSTREAMREQUEST | FDB_GETSTORAGEMETRICSREQUEST
| FDB_GETSERVERDBINFOREQUEST | FDB_UPDATESERVERDBINFOREQUEST
| FDB_REGISTERWORKERREQUEST | FDB_GETWORKERSREQUEST
| FDB_STATUSREQUEST | FDB_PINGREQUEST
| FDB_ECHOREQUEST | FDB_NETWORKTESTREQUEST
| FDB_RECRUITBLOBWORKERREQUEST | FDB_INITIALIZEBLOBWORKERREQUEST
| FDB_INITIALIZEBLOBMANAGERREQUEST | FDB_HALTBLOBWORKERREQUEST
| FDB_HALTBLOBMANAGERREQUEST | FDB_BLOBGRANULEFILEREQUEST
| FDB_GETBLOBGRANULELOCATIONSREQUEST | FDB_ASSIGNBLOBRANGEREQUEST
| FDB_REVOKEBLOBRANGEREQUEST | FDB_INITIALIZEBLOBMIGRATORREQUEST
| FDB_HALTBLOBMIGRATORREQUEST | FDB_INITIALIZEENCRYPTKEYPROXYREQUEST
| FDB_HALTENCRYPTKEYPROXYREQUEST | FDB_CONFIGTRANSACTIONGETREQUEST
| FDB_CONFIGTRANSACTIONCOMMITREQUEST | FDB_CONFIGFOLLOWERGETCHANGESREQUEST
| FDB_CONFIGBROADCASTCHANGESREQUEST | FDB_INITIALIZECONSISTENCYSCANREQUEST
| FDB_HALTCONSISTENCYSCANREQUEST | FDB_GETVALUEREPLY
| FDB_GETKEYVALUESREPLY | FDB_GETKEYVALUESSTREAMREPLY
| FDB_CHANGEFEEDSTREAMREPLY | FDB_GETMAPPEDKEYVALUESREPLY
| FDB_GETKEYREPLY | FDB_GETREADVERSIONREPLY
| FDB_TLOGCOMMITREPLY | FDB_TLOGPEEKREPLY
| FDB_TLOGPEEKSTREAMREPLY | FDB_ACKNOWLEDGEMENTREPLY
| FDB_VERSIONREPLY | FDB_CHECKREPLY
| FDB_WATCHVALUEREPLY | FDB_GETSTORAGEMETRICSREPLY
| FDB_INITIALIZESTORAGEREPLY | FDB_RECRUITSTORAGEREPLY
| FDB_GETCOMMITVERSIONREPLY | FDB_GETSERVERDBINFOREPLY
| FDB_STATUSREPLY | FDB_LOADEDREPLY
| FDB_REGISTERWORKERREPLY | FDB_NETWORKTESTREPLY
| FDB_ECHOSERVERINTERFACE | FDB_RECRUITBLOBWORKERREPLY
| FDB_INITIALIZEBLOBWORKERREPLY | FDB_BLOBGRANULEFILEREPLY
| FDB_GETBLOBGRANULELOCATIONSREPLY | FDB_MINBLOBVERSIONREPLY
| FDB_GLOBALCONFIGREFRESHREPLY | FDB_GETKEYSERVERLOCATIONSREPLY
| FDB_CONFIGTRANSACTIONGETREPLY | FDB_CONFIGTRANSACTIONGETGENERATIONREPLY
| FDB_CONFIGFOLLOWERGETCHANGESREPLY | FDB_CONFIGBROADCASTCHANGESREPLY
| FDB_GETHEALTHMETRICSREPLY | FDB_SPLITMETRICSREPLY
| FDB_PROTOCOLINFOREPLY | FDB_CHECKDESCRIPTORMUTABLEREPLY
| FDB_STORAGESERVERINTERFACE | FDB_GRVPROXYINTERFACE
| FDB_COMMITPROXYINTERFACE | FDB_MASTERINTERFACE
| FDB_RATEKEEPERINTERFACE | FDB_DATADISTRIBUTORINTERFACE
| FDB_TLOGINTERFACE | FDB_RESOLVERINTERFACE
| FDB_BLOBWORKERINTERFACE | FDB_BLOBMANAGERINTERFACE
| FDB_ENCRYPTKEYPROXYINTERFACE | FDB_CONSISTENCYSCANINTERFACE
| FDB_WORKERINTERFACE | FDB_CLUSTERINTERFACE
| FDB_PROCESSINTERFACE | FDB_CLIENTDBINFO
| FDB_SERVERDBINFO | FDB_COMMITID
| FDB_RANGERESULTREF | FDB_UNIQUEGENERATION
| FDB_VOID.

Definition FileIdentifier (f : fdb_file_id) : Z :=
  match f with
  | FDB_RECRUITSTORAGEREQUEST => 905920
  | FDB_COMMITTRANSACTIONREQUEST => 93948
  | FDB_GETREADVERSIONREQUEST => 838566
  | FDB_OPENDATABASECOORDREQUEST => 214728
  | FDB_GLOBALCONFIGREFRESHREQUEST => 2828131
  | FDB_GETKEYSERVERLOCATIONSREQUEST => 9144680
  | FDB_GETVALUEREQUEST => 8454530
  | FDB_GETKEYVALUESREQUEST => 6795746
  | FDB_GETKEYVALUESSTREAMREQUEST => 6795746
  | FDB_CHANGEFEEDSTREAMREQUEST => 6795746
  | FDB_GETMAPPEDKEYVALUESREQUEST => 6795747
  | FDB_SETREQUEST => 7554186
  | FDB_CLEARREQUEST => 8500026
  | FDB_GETKEYREQUEST => 10457870
  | FDB_WATCHVALUEREQUEST => 14747733
  | FDB_INITIALIZESTORAGEREQUEST => 16665642
  | FDB_INITIALIZEGRVPROXYREQUEST => 8265613
  | FDB_INITIALIZECOMMITPROXYREQUEST => 10344153
  | FDB_INITIALIZETLOGREQUEST => 15604392
  | FDB_INITIALIZERATEKEEPERREQUEST => 6416816
  | FDB_TLOGCOMMITREQUEST => 4022206
  | FDB_TLOGPEEKREQUEST => 11001131
  | FDB_TLOGPEEKSTREAMREQUEST => 10072821
  | FDB_GETSTORAGEMETRICSREQUEST => 13290999
  | FDB_GETSERVERDBINFOREQUEST => 9467439
  | FDB_UPDATESERVERDBINFOREQUEST => 9467438
  | FDB_REGISTERWORKERREQUEST => 14332605
  | FDB_GETWORKERSREQUEST => 1254174
  | FDB_STATUSREQUEST => 14419140
  | FDB_PINGREQUEST => 4707015
  | FDB_ECHOREQUEST => 10624019
  | FDB_NETWORKTESTREQUEST => 4146513
  | FDB_RECRUITBLOBWORKERREQUEST => 72435
  | FDB_INITIALIZEBLOBWORKERREQUEST => 5838547
  | FDB_INITIALIZEBLOBMANAGERREQUEST => 2567474
  | FDB_HALTBLOBWORKERREQUEST => 1985879
  | FDB_HALTBLOBMANAGERREQUEST => 4149140
  | FDB_BLOBGRANULEFILEREQUEST => 4150141
  | FDB_GETBLOBGRANULELOCATIONSREQUEST => 2508597
  | FDB_ASSIGNBLOBRANGEREQUEST => 905381
  | FDB_REVOKEBLOBRANGEREQUEST => 4844288
  | FDB_INITIALIZEBLOBMIGRATORREQUEST => 7932681
  | FDB_HALTBLOBMIGRATORREQUEST => 4980139
  | FDB_INITIALIZEENCRYPTKEYPROXYREQUEST => 4180191
  | FDB_HALTENCRYPTKEYPROXYREQUEST => 2378138
  | FDB_CONFIGTRANSACTIONGETREQUEST => 923040
  | FDB_CONFIGTRANSACTIONCOMMITREQUEST => 103841
  | FDB_CONFIGFOLLOWERGETCHANGESREQUEST => 178935
  | FDB_CONFIGBROADCASTCHANGESREQUEST => 601281
  | FDB_INITIALIZECONSISTENCYSCANREQUEST => 3104275
  | FDB_HALTCONSISTENCYSCANREQUEST => 2323417
  (* Most common Reply FileIdentifiers *)
  | FDB_GETVALUEREPLY => 1378929
  | FDB_GETKEYVALUESREPLY => 1783066
  | FDB_GETKEYVALUESSTREAMREPLY => 1783066
  | FDB_CHANGEFEEDSTREAMREPLY => 1783066
  | FDB_GETMAPPEDKEYVALUESREPLY => 1783067
  | FDB_GETKEYREPLY => 11226513
  | FDB_GETREADVERSIONREPLY => 15709388
  | FDB_TLOGCOMMITREPLY => 3
  | FDB_TLOGPEEKREPLY => 11365689
  | FDB_TLOGPEEKSTREAMREPLY => 10072848
  | FDB_ACKNOWLEDGEMENTREPLY => 1389929
  | FDB_VERSIONREPLY => 3
  | FDB_CHECKREPLY => 11
  | FDB_WATCHVALUEREPLY => 3
  | FDB_GETSTORAGEMETRICSREPLY => 15491478
  | FDB_INITIALIZESTORAGEREPLY => 10390645
  | FDB_RECRUITSTORAGEREPLY => 15877089
  | FDB_GETCOMMITVERSIONREPLY => 3568822
  | FDB_GETSERVERDBINFOREPLY => 9467439
  | FDB_STATUSREPLY => 9980504
  | FDB_LOADEDREPLY => 9956350
  | FDB_REGISTERWORKERREPLY => 16475696
  | FDB_NETWORKTESTREPLY => 14465374
  | FDB_ECHOSERVERINTERFACE => 3152015
  | FDB_RECRUITBLOBWORKERREPLY => 9908409
  | FDB_INITIALIZEBLOBWORKERREPLY => 6095215
  | FDB_BLOBGRANULEFILEREPLY => 6858612
  | FDB_GETBLOBGRANULELOCATIONSREPLY => 2923309
  | FDB_MINBLOBVERSIONREPLY => 6857512
  | FDB_GLOBALCONFIGREFRESHREPLY => 12680327
  | FDB_GETKEYSERVERLOCATIONSREPLY => 10636023
  | FDB_CONFIGTRANSACTIONGETREPLY => 2034110
  | FDB_CONFIGTRANSACTIONGETGENERATIONREPLY => 2934851
  | FDB_CONFIGFOLLOWERGETCHANGESREPLY => 234859
  | FDB_CONFIGBROADCASTCHANGESREPLY => 4014928
  | FDB_GETHEALTHMETRICSREPLY => 11544290
  | FDB_SPLITMETRICSREPLY => 11530792
  | FDB_PROTOCOLINFOREPLY => 7784298
  | FDB_CHECKDESCRIPTORMUTABLEREPLY => 7784299
  (* Key interface FileIdentifiers *)
  | FDB_STORAGESERVERINTERFACE => 15302073
  | FDB_GRVPROXYINTERFACE => 8743216
  | FDB_COMMITPROXYINTERFACE => 8954922
  | FDB_MASTERINTERFACE => 5979145
  | FDB_RATEKEEPERINTERFACE => 5983305
  | FDB_DATADISTRIBUTORINTERFACE => 12383874
  | FDB_TLOGINTERFACE => 16308510
  | FDB_RESOLVERINTERFACE => 1755944
  | FDB_BLOBWORKERINTERFACE => 8358753
  | FDB_BLOBMANAGERINTERFACE => 369169
  | FDB_ENCRYPTKEYPROXYINTERFACE => 1303419
  | FDB_CONSISTENCYSCANINTERFACE => 4983265
  | FDB_WORKERINTERFACE => 14712718
  | FDB_CLUSTERINTERFACE => 15888863
  | FDB_PROCESSINTERFACE => 985636
  | FDB_CLIENTDBINFO => 5355080
  | FDB_SERVERDBINFO => 13838807
  | FDB_COMMITID => 14254927
  | FDB_RANGERESULTREF => 3985192
  | FDB_UNIQUEGENERATION => 16684234
  | FDB_VOID => 2010442
  end.

(** ** Recognition *)

(** The cases of the [switch] of [is_known_fdb_operation]. *)
Definition known_operations : list Z := map FileIdentifier
  [FDB_GETVALUEREQUEST; FDB_GETKEYVALUESREQUEST;
   FDB_GETMAPPEDKEYVALUESREQUEST; FDB_COMMITTRANSACTIONREQUEST;
   FDB_GETREADVERSIONREQUEST; FDB_SETREQUEST;
   FDB_CLEARREQUEST; FDB_GETKEYREQUEST;
   FDB_WATCHVALUEREQUEST; FDB_OPENDATABASECOORDREQUEST;
   FDB_GLOBALCONFIGREFRESHREQUEST; FDB_GETKEYSERVERLOCATIONSREQUEST;
   FDB_GETSERVERDBINFOREQUEST; FDB_UPDATESERVERDBINFOREQUEST;
   FDB_REGISTERWORKERREQUEST; FDB_GETWORKERSREQUEST;
   FDB_RECRUITSTORAGEREQUEST; FDB_INITIALIZESTORAGEREQUEST;
   FDB_INITIALIZEGRVPROXYREQUEST; FDB_INITIALIZECOMMITPROXYREQUEST;
   FDB_INITIALIZETLOGREQUEST; FDB_INITIALIZERATEKEEPERREQUEST;
   FDB_TLOGCOMMITREQUEST; FDB_TLOGPEEKREQUEST;
   FDB_TLOGPEEKSTREAMREQUEST; FDB_GETSTORAGEMETRICSREQUEST;
   FDB_STATUSREQUEST; FDB_PINGREQUEST;
   FDB_ECHOREQUEST; FDB_NETWORKTESTREQUEST;
   FDB_RECRUITBLOBWORKERREQUEST; FDB_INITIALIZEBLOBWORKERREQUEST;
   FDB_INITIALIZEBLOBMANAGERREQUEST; FDB_HALTBLOBWORKERREQUEST;
   FDB_HALTBLOBMANAGERREQUEST; FDB_BLOBGRANULEFILEREQUEST;
   FDB_GETBLOBGRANULELOCATIONSREQUEST; FDB_ASSIGNBLOBRANGEREQUEST;
   FDB_REVOKEBLOBRANGEREQUEST; FDB_INITIALIZEBLOBMIGRATORREQUEST;
   FDB_HALTBLOBMIGRATORREQUEST; FDB_INITIALIZEENCRYPTKEYPROXYREQUEST;
   FDB_HALTENCRYPTKEYPROXYREQUEST; FDB_CONFIGTRANSACTIONGETREQUEST;
   FDB_CONFIGTRANSACTIONCOMMITREQUEST; FDB_CONFIGFOLLOWERGETCHANGESREQUEST;
   FDB_CONFIGBROADCASTCHANGESREQUEST; FDB_INITIALIZECONSISTENCYSCANREQUEST;
   FDB_HALTCONSISTENCYSCANREQUEST; FDB_STORAGESERVERINTERFACE;
   FDB_GRVPROXYINTERFACE; FDB_COMMITPROXYINTERFACE;
   FDB_MASTERINTERFACE; FDB_RATEKEEPERINTERFACE;
   FDB_DATADISTRIBUTORINTERFACE; FDB_TLOGINTERFACE;
   FDB_RESOLVERINTERFACE; FDB_BLOBWORKERINTERFACE;
   FDB_BLOBMANAGERINTERFACE; FDB_ENCRYPTKEYPROXYINTERFACE;
   FDB_CONSISTENCYSCANINTERFACE; FDB_WORKERINTERFACE;
   FDB_CLUSTERINTERFACE; FDB_PROCESSINTERFACE].

(** The cases of the [switch] of [is_known_reply_file_id]. *)
Definition known_replies : list Z := map FileIdentifier
  [FDB_GETVALUEREPLY; FDB_GETKEYVALUESREPLY;
   FDB_GETMAPPEDKEYVALUESREPLY; FDB_GETKEYREPLY;
   FDB_GETREADVERSIONREPLY; FDB_ACKNOWLEDGEMENTREPLY;
   FDB_VERSIONREPLY; FDB_CHECKREPLY;
   FDB_TLOGPEEKREPLY; FDB_TLOGPEEKSTREAMREPLY;
   FDB_GETSTORAGEMETRICSREPLY; FDB_INITIALIZESTORAGEREPLY;
   FDB_RECRUITSTORAGEREPLY; FDB_GETCOMMITVERSIONREPLY;
   FDB_GETSERVERDBINFOREPLY; FDB_STATUSREPLY;
   FDB_LOADEDREPLY; FDB_REGISTERWORKERREPLY;
   FDB_NETWORKTESTREPLY; FDB_ECHOSERVERINTERFACE;
   FDB_RECRUITBLOBWORKERREPLY; FDB_INITIALIZEBLOBWORKERREPLY;
   FDB_BLOBGRANULEFILEREPLY; FDB_GETBLOBGRANULELOCATIONSREPLY;
   FDB_MINBLOBVERSIONREPLY; FDB_GLOBALCONFIGREFRESHREPLY;
   FDB_GETKEYSERVERLOCATIONSREPLY; FDB_CONFIGTRANSACTIONGETREPLY;
   FDB_CONFIGTRANSACTIONGETGENERATIONREPLY; FDB_CONFIGFOLLOWERGETCHANGESREPLY;
   FDB_CONFIGBROADCASTCHANGESREPLY; FDB_GETHEALTHMETRICSREPLY;
   FDB_SPLITMETRICSREPLY; FDB_PROTOCOLINFOREPLY;
   FDB_CHECKDESCRIPTORMUTABLEREPLY; FDB_COMMITID;
   FDB_RANGERESULTREF; FDB_CLIENTDBINFO;
   FDB_SERVERDBINFO; FDB_UNIQUEGENERATION;
   FDB_VOID].

Definition is_foundationdb_connect_packet (m : mem) (payload : Z) : bool :=
  let? version_magic := read_u16 m (payload + 10) else false in
  version_magic =? 0x1FDB.

Definition is_known_fdb_operation (file_id : Z) : bool :=
  existsb (Z.eqb file_id) known_operations.

Definition is_known_reply_file_id (file_id : Z) : bool :=
  let base_id := Z.land file_id 0x00FFFFFF in
  existsb (Z.eqb base_id) known_replies.

Definition parse_fdb_packet (m : mem) (packet_start : Z) (is_request : bool) : bool :=
  let is_valid (file_id : Z) :=
    if is_request then is_known_fdb_operation file_id else is_known_reply_file_id file_id in
  let try (off : Z) :=
    let? file_id := read_u32 m (packet_start + off) else false in is_valid file_id in
  if try 32 then true
  else if try 24 then true
  else false.

Definition is_foundationdb_request (m : mem) (payload size : Z) : bool :=
  if is_foundationdb_connect_packet m payload then
    let? connect_length := read_u32 m payload else false in
    let actual_connect_size := u32 (connect_length + 4) in
    if size =? actual_connect_size then false
    else if actual_connect_size <? size
    then parse_fdb_packet m (payload + actual_connect_size) true
    else false
  else parse_fdb_packet m payload true.

(** Returns 0, 1 or 2 (only the connect packet so far), and [*status]. *)
Definition is_foundationdb_response (m : mem) (payload size status : Z) : Z * Z :=
  let status := STATUS_OK in
  if is_foundationdb_connect_packet m payload then
    let? connect_length := read_u32 m payload else (0, status) in
    let actual_connect_size := u32 (connect_length + 4) in
    if actual_connect_size <? size
    then (Z.b2z (parse_fdb_packet m (payload + actual_connect_size) false), status)
    else (2, status)
  else (Z.b2z (parse_fdb_packet m payload false), status).

(** A reply is recognised by the lower 24 bits of its file identifier alone;
    the wrapper identifier in the upper byte is not looked at. *)
Theorem is_known_reply_file_id_wrapper wrapper base :
  0 <= base < 16777216 ->
  is_known_reply_file_id (wrapper * 16777216 + base) = existsb (Z.eqb base) known_replies.
Proof.
  intros H. unfold is_known_reply_file_id. change 0x00FFFFFF with (Z.ones 24).
  rewrite Z.land_ones by lia.
  replace ((wrapper * 16777216 + base) mod 2 ^ 24) with base; [done|].
  rewrite Z.add_comm, Z.mod_add, Z.mod_small by lia. done.
Qed.

Lemma is_known_reply_file_id_wrapper_witness :
  is_known_reply_file_id (2 * 16777216 + FileIdentifier FDB_GETVALUEREPLY)
    = existsb (Z.eqb (FileIdentifier FDB_GETVALUEREPLY)) known_replies.
Proof. apply (is_known_reply_file_id_wrapper 2 (FileIdentifier FDB_GETVALUEREPLY)). cbn. lia. Defined.

End Fdb.
