(* ===== verification/Types.v ===== *)
(** * Data of the eBPF object and the environment of a handler

    The structs of ebpftracer/ebpf/{tcp/conntrack.c,tcp/state.c,l7/l7.c} that
    the maps hold, and [env]: what a handler reads from the kernel when it runs
    (current pid/tgid, clock, CPU, memory) together with the eviction choices of
    the LRU maps it updates. *)

From S2P Require Import Prelude L7Base.

(** ** Event types *)

Definition EVENT_TYPE_PROCESS_START : Z := 1.
Definition EVENT_TYPE_PROCESS_EXIT : Z := 2.
Definition EVENT_TYPE_CONNECTION_OPEN : Z := 3.
Definition EVENT_TYPE_CONNECTION_CLOSE : Z := 4.
Definition EVENT_TYPE_CONNECTION_ERROR : Z := 5.
Definition EVENT_TYPE_LISTEN_OPEN : Z := 6.
Definition EVENT_TYPE_LISTEN_CLOSE : Z := 7.
Definition EVENT_TYPE_FILE_OPEN : Z := 8.
Definition EVENT_TYPE_TCP_RETRANSMIT : Z := 9.
Definition EVENT_TYPE_PYTHON_THREAD_LOCK : Z := 11.
Definition EVENT_REASON_OOM_KILL : Z := 1.

(** ** Keys and values of the maps *)

(** An IPv6 (or v4-mapped) address, 16 bytes in network order, and a port. *)
Record ipPort := IpPort { ip : list Z; port : Z }.

Record connection_id := ConnectionId { cid_fd : Z; cid_pid : Z }.

Record connection := Connection {
  timestamp : Z; bytes_sent : Z; bytes_received : Z
}.

Record l7_request_key := L7RequestKey {
  k_fd : Z; k_pid : Z; k_is_tls : Z; k_stream_id : Z
}.

Record l7_request := L7Request {
  ns : Z; protocol : Z; partial : Z; request_type : Z; request_id : Z;
  payload_size : Z; payload : list Z
}.

Record l7_event := L7Event {
  e_fd : Z; e_connection_timestamp : Z; e_pid : Z; e_status : Z; e_duration : Z;
  e_protocol : Z; e_method : Z; e_padding : Z; e_statement_id : Z;
  e_payload_size : Z; e_payload : list Z
}.

Record read_args := ReadArgs { ra_fd : Z; ra_buf : Z; ra_ret : Z; ra_iovlen : Z }.

Record tcp_event := TcpEvent {
  t_fd : Z; t_timestamp : Z; t_duration : Z; t_type : Z; t_pid : Z;
  t_bytes_sent : Z; t_bytes_received : Z;
  t_sport : Z; t_dport : Z; t_aport : Z;
  t_saddr : list Z; t_daddr : list Z; t_aaddr : list Z
}.

(** The initialisers [{}]. *)
Definition zeros (n : nat) : list Z := replicate n 0.
Definition l7_request_zero : l7_request :=
  L7Request 0 0 0 0 0 0 (zeros (Z.to_nat MAX_PAYLOAD_SIZE)).
Definition l7_event_zero : l7_event :=
  L7Event 0 0 0 0 0 0 0 0 0 0 (zeros (Z.to_nat MAX_PAYLOAD_SIZE)).
Definition iovec_buf_zero : list Z := zeros (Z.to_nat IOVEC_BUF_SIZE).

#[global] Instance ipPort_eq_dec : EqDecision ipPort.
Proof. solve_decision. Defined.
#[global] Instance ipPort_countable : Countable ipPort.
Proof.
  apply (inj_countable' (fun x => (ip x, port x)) (fun '(a, b) => IpPort a b)).
  by intros [].
Defined.

#[global] Instance connection_id_eq_dec : EqDecision connection_id.
Proof. solve_decision. Defined.
#[global] Instance connection_id_countable : Countable connection_id.
Proof.
  apply (inj_countable' (fun x => (cid_fd x, cid_pid x)) (fun '(a, b) => ConnectionId a b)).
  by intros [].
Defined.

#[global] Instance l7_request_key_eq_dec : EqDecision l7_request_key.
Proof. solve_decision. Defined.
#[global] Instance l7_request_key_countable : Countable l7_request_key.
Proof.
  apply (inj_countable' (fun x => (k_fd x, k_pid x, k_is_tls x, k_stream_id x))
           (fun '(a, b, c, d) => L7RequestKey a b c d)).
  by intros [].
Defined.

#[global] Instance connection_eq_dec : EqDecision connection.
Proof. solve_decision. Defined.

(** ** The environment of a handler invocation *)

Record env := Env {
  (** [bpf_get_current_pid_tgid]: tgid in the upper, pid in the lower 32 bits. *)
  pid_tgid : Z;
  (** [bpf_ktime_get_ns]: the value of the n-th call the invocation makes. *)
  ktime : nat -> Z;
  (** The CPU the program runs on: selects the per-CPU map slots. *)
  cpu : Z;
  (** What the probe-read helpers see, and where the slot of
      [iovec_buf_heap] of this CPU lies. *)
  memory : mem;
  iovec_addr : Z;
  (** The entries the LRU maps evict when the invocation updates them. *)
  lru_destinations : gmap ipPort ipPort -> list ipPort;
  lru_sockets : gmap Z connection_id -> list Z;
  lru_connections : gmap connection_id connection -> list connection_id;
  lru_requests : gmap l7_request_key l7_request -> list l7_request_key;
  lru_reads : gmap Z read_args -> list Z
}.

(** [id >> 32] as the [__u32] the handlers keep. *)
Definition tgid (v : env) : Z := u32 (Z.shiftr (pid_tgid v) 32).

(** The environment of a later call in the same invocation. *)
Definition later (n : nat) (v : env) : env :=
  Env (pid_tgid v) (fun i => ktime v (n + i)%nat) (cpu v) (memory v) (iovec_addr v)
      (lru_destinations v) (lru_sockets v) (lru_connections v) (lru_requests v)
      (lru_reads v).

(** No LRU map drops anything: the maps are far from full. *)
Definition no_eviction (v : env) : Prop :=
  (forall m, lru_destinations v m = []) /\ (forall m, lru_sockets v m = []) /\
  (forall m, lru_connections v m = []) /\ (forall m, lru_requests v m = []) /\
  (forall m, lru_reads v m = []).

(** An environment for concrete runs. *)
Definition env_at (id now : Z) (m : mem) : env :=
  Env id (fun _ => now) 0 m 0xffff888000000000 (fun _ => []) (fun _ => []) (fun _ => [])
      (fun _ => []) (fun _ => []).
