(* ===== verification/Runtimes.v ===== *)
(** * Node.js event loop and Python thread lock probes

    ebpftracer/ebpf/nodejs.c and ebpftracer/ebpf/python.c: uprobes that
    accumulate, per process, the time the event loop is blocked and the time
    threads wait for a lock. *)

From S2P Require Import Prelude L7Base Types.

(** ** nodejs.c *)
Module Nodejs.

Record nodejs_proc_stats := NodejsProcStats { event_loop_blocked_time : Z }.

Record st := St {
  nodejs_prev_event_loop_iter : gmap Z Z;
  nodejs_current_io_cb : gmap Z Z;
  nodejs_stats : gmap Z nodejs_proc_stats
}.

Definition max_entries : Z := 10240.

Definition init : st := St ∅ ∅ ∅.

Definition set_prev (f : gmap Z Z -> gmap Z Z) (s : st) : st :=
  St (f (nodejs_prev_event_loop_iter s)) (nodejs_current_io_cb s) (nodejs_stats s).
Definition set_cb (f : gmap Z Z -> gmap Z Z) (s : st) : st :=
  St (nodejs_prev_event_loop_iter s) (f (nodejs_current_io_cb s)) (nodejs_stats s).
Definition set_stats (f : gmap Z nodejs_proc_stats -> gmap Z nodejs_proc_stats) (s : st) : st :=
  St (nodejs_prev_event_loop_iter s) (nodejs_current_io_cb s) (f (nodejs_stats s)).

(** [__sync_fetch_and_add(&stats->event_loop_blocked_time, duration)] on the
    value in the map. *)
Definition add_blocked (duration : Z) (x : nodejs_proc_stats) : nodejs_proc_stats :=
  NodejsProcStats (u64 (event_loop_blocked_time x + duration)).

(** The common tail of [uv_io_poll_enter] and [uv_io_cb_exit]: look the
    statistics up, create them when absent, add. *)
Definition account (pid duration : Z) (s : st) : st :=
  let s :=
    match nodejs_stats s !! pid with
    | Some _ => s
    | None =>
        set_stats (fun m =>
          (hash_update max_entries BPF_ANY pid (NodejsProcStats 0) m).2) s
    end in
  let? _ := nodejs_stats s !! pid else s in
  set_stats (alter (add_blocked duration) pid) s.

Definition uv_io_poll_exit (v : env) (s : st) : st :=
  let pid := Z.shiftr (pid_tgid v) 32 in
  let timestamp := ktime v 0 in
  if negb (u32 (pid_tgid v) =? u32 pid) then s
  else set_prev (fun m => (hash_update max_entries BPF_ANY pid timestamp m).2) s.

Definition uv_io_poll_enter (v : env) (s : st) : st :=
  let pid := Z.shiftr (pid_tgid v) 32 in
  if negb (u32 (pid_tgid v) =? u32 pid) then s
  else
  let? prev := nodejs_prev_event_loop_iter s !! pid else s in
  let duration := u64 (ktime v 0 - prev) in
  let s := set_prev (delete pid) s in
  account pid duration s.

Definition uv_io_cb_enter (v : env) (s : st) : st :=
  let pid := Z.shiftr (pid_tgid v) 32 in
  if negb (u32 (pid_tgid v) =? u32 pid) then s
  else
  let timestamp := ktime v 0 in
  set_cb (fun m => (hash_update max_entries BPF_ANY pid timestamp m).2) s.

Definition uv_io_cb_exit (v : env) (s : st) : st :=
  let pid := Z.shiftr (pid_tgid v) 32 in
  if negb (u32 (pid_tgid v) =? u32 pid) then s
  else
  let? start := nodejs_current_io_cb s !! pid else s in
  let duration := u64 (ktime v 0 - start) in
  let s := set_cb (delete pid) s in
  account pid duration s.

(** *** Accumulated time *)

Definition blocked (s : st) (pid : Z) : Z :=
  match nodejs_stats s !! pid with Some x => event_loop_blocked_time x | None => 0 end.

(** The statistics of [pid] exist, or there is room for them. *)
Definition has_room (pid : Z) (s : st) : Prop :=
  is_Some (nodejs_stats s !! pid) \/ Z.of_nat (size (nodejs_stats s)) < max_entries.

Lemma account_spec pid d s :
  has_room pid s ->
  blocked (account pid d s) pid = u64 (blocked s pid + d) /\
  (forall p, p <> pid -> nodejs_stats (account pid d s) !! p = nodejs_stats s !! p) /\
  is_Some (nodejs_stats (account pid d s) !! pid) /\
  nodejs_prev_event_loop_iter (account pid d s) = nodejs_prev_event_loop_iter s /\
  nodejs_current_io_cb (account pid d s) = nodejs_current_io_cb s.
Proof.
  intros Hroom. unfold blocked, account. destruct (nodejs_stats s !! pid) as [x|] eqn:Hx.
  - rewrite Hx. cbn. rewrite lookup_alter_eq, Hx. split_and!; try done.
    intros p Hp. by rewrite lookup_alter_ne.
  - destruct Hroom as [[x Hx']|Hroom]; [congruence|]. cbn.
    rewrite hash_update_any_room by done. cbn. rewrite lookup_insert_eq. cbn.
    rewrite hash_update_any_room by done. cbn [snd].
    rewrite lookup_alter_eq, lookup_insert_eq. cbn. split_and!; try done.
    intros p Hp. by rewrite lookup_alter_ne, lookup_insert_ne.
Qed.

(** A span of blocked time: from the end of a poll to the next poll, or from the
    start of an I/O callback to its end. *)
Inductive span := between_polls (v1 v2 : env) | in_callback (v1 v2 : env).

Definition do_span (s : st) (x : span) : st :=
  match x with
  | between_polls v1 v2 => uv_io_poll_enter v2 (uv_io_poll_exit v1 s)
  | in_callback v1 v2 => uv_io_cb_exit v2 (uv_io_cb_enter v1 s)
  end.

Definition envs (x : span) : env * env :=
  match x with between_polls v1 v2 | in_callback v1 v2 => (v1, v2) end.
Definition lasted (x : span) : Z := ktime (envs x).2 0 - ktime (envs x).1 0.

(** Both ends run on the main thread of [pid], and the maps have room. *)
Definition main_thread (pid : Z) (v : env) : Prop :=
  Z.shiftr (pid_tgid v) 32 = pid /\ u32 (pid_tgid v) = u32 pid.
Definition span_of (pid : Z) (x : span) : Prop :=
  main_thread pid (envs x).1 /\ main_thread pid (envs x).2.

Definition starts_room (s : st) : Prop :=
  Z.of_nat (size (nodejs_prev_event_loop_iter s)) < max_entries /\
  Z.of_nat (size (nodejs_current_io_cb s)) < max_entries.

Lemma size_update_delete {A} (k : Z) (x : A) (m : gmap Z A) :
  Z.of_nat (size m) < max_entries ->
  Z.of_nat (size (delete k (hash_update max_entries BPF_ANY k x m).2)) < max_entries.
Proof.
  intros. rewrite hash_update_any_room by done. cbn [snd].
  rewrite delete_insert_eq, map_size_delete. case_match; cbn; lia.
Qed.

Lemma do_span_spec pid x s :
  span_of pid x -> starts_room s -> has_room pid s ->
  blocked (do_span s x) pid = u64 (blocked s pid + lasted x) /\
  (forall p, p <> pid -> nodejs_stats (do_span s x) !! p = nodejs_stats s !! p) /\
  starts_room (do_span s x) /\ has_room pid (do_span s x).
Proof.
  intros [[Hp1 Hm1] [Hp2 Hm2]] [Hr1 Hr2] Hroom.
  destruct x as [v1 v2|v1 v2]; cbn [envs fst snd] in *; cbn [do_span]; unfold lasted; cbn [envs fst snd].
  - unfold uv_io_poll_enter, uv_io_poll_exit. rewrite Hp1, Hp2, Hm1, Hm2, !Z.eqb_refl. cbn [negb].
    cbn. rewrite hash_update_any_room by done. cbn. rewrite lookup_insert_eq.
    match goal with |- context [account pid ?d ?s0] =>
      destruct (account_spec pid d s0 Hroom) as (Hb & Ho & Hs & Hprev & Hcb) end.
    rewrite Hb, u64_add_r. split_and!; [done|done| |by left].
    split; rewrite ?Hprev, ?Hcb; cbn; [|done]. by apply size_update_delete.
  - unfold uv_io_cb_exit, uv_io_cb_enter. rewrite Hp1, Hp2, Hm1, Hm2, !Z.eqb_refl. cbn [negb].
    cbn. rewrite hash_update_any_room by done. cbn. rewrite lookup_insert_eq.
    match goal with |- context [account pid ?d ?s0] =>
      destruct (account_spec pid d s0 Hroom) as (Hb & Ho & Hs & Hprev & Hcb) end.
    rewrite Hb, u64_add_r. split_and!; [done|done| |by left].
    split; rewrite ?Hprev, ?Hcb; cbn; [done|]. by apply size_update_delete.
Qed.

(** The blocked time of a Node.js process grows by exactly the time its main
    thread spends between polls and in callbacks, modulo 2^64, and no other
    process is affected. *)
Theorem blocked_time_accumulates pid xs s :
  Forall (span_of pid) xs -> starts_room s -> has_room pid s ->
  u64 (blocked s pid) = blocked s pid ->
  let s' := foldl do_span s xs in
  blocked s' pid = u64 (blocked s pid + foldr (fun x t => lasted x + t) 0 xs) /\
  forall p, p <> pid -> nodejs_stats s' !! p = nodejs_stats s !! p.
Proof.
  intros Hxs. revert s. induction Hxs as [|x xs Hx _ IH]; intros s Hst Hroom Hok; cbn [foldl foldr].
  - by rewrite Z.add_0_r, Hok.
  - destruct (do_span_spec pid x s Hx Hst Hroom) as (Hb & Ho & Hst' & Hroom').
    destruct (IH _ Hst' Hroom') as [Hb' Ho']; [by rewrite Hb, u64_idemp|].
    rewrite Hb', Hb, u64_add_l, Z.add_assoc. split; [done|]. intros p Hp. by rewrite Ho', Ho.
Qed.

Lemma blocked_time_accumulates_witness :
  let v t := env_at (77 * 2^32 + 77) t mem_empty in
  let xs := [between_polls (v 100) (v 130); in_callback (v 140) (v 145); between_polls (v 150) (v 151)] in
  let s' := foldl do_span init xs in
  blocked s' 77 = u64 (0 + 36) /\ forall p, p <> 77 -> nodejs_stats s' !! p = nodejs_stats init !! p.
Proof.
  intros v xs. apply (blocked_time_accumulates 77 xs init).
  - repeat constructor.
  - split; vm_compute; reflexivity.
  - right; vm_compute; reflexivity.
  - reflexivity.
Defined.

End Nodejs.

(** ** python.c *)
Module Python.

Record python_proc_stats := PythonProcStats { thread_lock_wait_time : Z }.

Record st := St {
  python_stats : gmap Z python_proc_stats;
  python_thread_locks : gmap Z Z
}.

Definition max_entries : Z := 10240.

Definition init : st := St ∅ ∅.

Definition set_stats (f : gmap Z python_proc_stats -> gmap Z python_proc_stats) (s : st) : st :=
  St (f (python_stats s)) (python_thread_locks s).
Definition set_locks (f : gmap Z Z -> gmap Z Z) (s : st) : st :=
  St (python_stats s) (f (python_thread_locks s)).

Definition add_wait (duration : Z) (x : python_proc_stats) : python_proc_stats :=
  PythonProcStats (u64 (thread_lock_wait_time x + duration)).

Definition pthread_cond_timedwait_enter (v : env) (s : st) : st :=
  let timestamp := ktime v 0 in
  set_locks (fun m => (hash_update max_entries BPF_ANY (pid_tgid v) timestamp m).2) s.

Definition pthread_cond_timedwait_exit (v : env) (s : st) : st :=
  let? timestamp := python_thread_locks s !! pid_tgid v else s in
  let duration := u64 (ktime v 0 - timestamp) in
  let s := set_locks (delete (pid_tgid v)) s in
  let pid := Z.shiftr (pid_tgid v) 32 in
  let s :=
    match python_stats s !! pid with
    | Some _ => s
    | None =>
        set_stats (fun m =>
          (hash_update max_entries BPF_ANY pid (PythonProcStats 0) m).2) s
    end in
  let? _ := python_stats s !! pid else s in
  set_stats (alter (add_wait duration) pid) s.

(** *** Accumulated time *)

Definition waited (s : st) (pid : Z) : Z :=
  match python_stats s !! pid with Some x => thread_lock_wait_time x | None => 0 end.

Definition has_room (pid : Z) (s : st) : Prop :=
  (is_Some (python_stats s !! pid) \/ Z.of_nat (size (python_stats s)) < max_entries) /\
  Z.of_nat (size (python_thread_locks s)) < max_entries.

(** One wait of a thread: the call and its return. *)
Definition do_wait (s : st) (w : env * env) : st :=
  pthread_cond_timedwait_exit w.2 (pthread_cond_timedwait_enter w.1 s).
Definition wait_of (pid : Z) (w : env * env) : Prop :=
  pid_tgid w.1 = pid_tgid w.2 /\ Z.shiftr (pid_tgid w.2) 32 = pid.
Definition wait_time (w : env * env) : Z := ktime w.2 0 - ktime w.1 0.

Lemma do_wait_spec pid w s :
  wait_of pid w -> has_room pid s ->
  waited (do_wait s w) pid = u64 (waited s pid + wait_time w) /\
  (forall p, p <> pid -> python_stats (do_wait s w) !! p = python_stats s !! p) /\
  has_room pid (do_wait s w).
Proof.
  destruct w as [v1 v2]. intros [Hid Hpid] [Hroom Hlocks]. cbn [fst snd] in *.
  unfold do_wait, wait_time, pthread_cond_timedwait_exit, pthread_cond_timedwait_enter. cbn [fst snd].
  cbn [python_thread_locks set_locks]. rewrite Hid, hash_update_any_room by done. cbn [snd].
  rewrite lookup_insert_eq, Hpid. unfold waited, has_room. cbn.
  assert (Z.of_nat (size (delete (pid_tgid v2)
    (hash_update max_entries BPF_ANY (pid_tgid v2) (ktime v1 0) (python_thread_locks s)).2))
    < max_entries) as Hl.
  { rewrite hash_update_any_room by done. cbn [snd].
    rewrite delete_insert_eq, map_size_delete. case_match; cbn; lia. }
  destruct (python_stats s !! pid) as [x|] eqn:Hx; cbn.
  - rewrite Hx. cbn. rewrite lookup_alter_eq, Hx. cbn. rewrite u64_add_r. split_and!; [done| |left; by eexists|done].
    intros p Hp. by rewrite lookup_alter_ne.
  - destruct Hroom as [[x Hx']|Hroom]; [congruence|].
    rewrite hash_update_any_room by done. cbn. rewrite lookup_insert_eq. cbn.
    rewrite hash_update_any_room by done. cbn [snd].
    rewrite lookup_alter_eq, lookup_insert_eq. cbn. rewrite u64_add_r. split_and!; [done| |left; by eexists|done].
    intros p Hp. by rewrite lookup_alter_ne, lookup_insert_ne.
Qed.

(** The lock wait time of a Python process grows by exactly the time its
    threads spend waiting, whichever threads they are, modulo 2^64, and no
    other process is affected. *)
Theorem wait_time_accumulates pid ws s :
  Forall (wait_of pid) ws -> has_room pid s -> u64 (waited s pid) = waited s pid ->
  let s' := foldl do_wait s ws in
  waited s' pid = u64 (waited s pid + foldr (fun w t => wait_time w + t) 0 ws) /\
  forall p, p <> pid -> python_stats s' !! p = python_stats s !! p.
Proof.
  intros Hws. revert s. induction Hws as [|w ws Hw _ IH]; intros s Hroom Hok; cbn [foldl foldr].
  - by rewrite Z.add_0_r, Hok.
  - destruct (do_wait_spec pid w s Hw Hroom) as (Hb & Ho & Hroom').
    destruct (IH _ Hroom') as [Hb' Ho']; [by rewrite Hb, u64_idemp|].
    rewrite Hb', Hb, u64_add_l, Z.add_assoc. split; [done|]. intros p Hp. by rewrite Ho', Ho.
Qed.

Lemma wait_time_accumulates_witness :
  let v tid t := env_at (77 * 2^32 + tid) t mem_empty in
  let ws := [(v 77 100, v 77 130); (v 78 140, v 78 145)] in
  let s' := foldl do_wait init ws in
  waited s' 77 = u64 (0 + 35) /\ forall p, p <> 77 -> python_stats s' !! p = python_stats init !! p.
Proof.
  intros v ws. apply (wait_time_accumulates 77 ws init).
  - repeat constructor.
  - split; [right|]; vm_compute; reflexivity.
  - reflexivity.
Defined.

End Python.
