(* ===== verification/Proc.v ===== *)
(** * Process lifecycle

    ebpftracer/ebpf/proc.c: process start and exit events, the OOM victims, and
    the cleanup of the per-process statistics of nodejs.c and python.c. *)

From S2P Require Import Prelude L7Base Types Runtimes.

Module Proc.

Definition CLONE_THREAD : Z := 0x00010000.

Record proc_event := ProcEvent { type : Z; pid : Z; reason : Z }.

Record st := St {
  node : Nodejs.st;
  py : Python.st;
  oom_info : gmap Z Z;
  proc_events : list proc_event
}.

Definition oom_max_entries : Z := 10240.

Definition init : st := St Nodejs.init Python.init ∅ [].

Definition set_node (f : Nodejs.st -> Nodejs.st) (s : st) : st :=
  St (f (node s)) (py s) (oom_info s) (proc_events s).
Definition set_py (f : Python.st -> Python.st) (s : st) : st :=
  St (node s) (f (py s)) (oom_info s) (proc_events s).
Definition set_oom (f : gmap Z Z -> gmap Z Z) (s : st) : st :=
  St (node s) (py s) (f (oom_info s)) (proc_events s).
Definition output (e : proc_event) (s : st) : st :=
  St (node s) (py s) (oom_info s) (proc_events s ++ [e]).

(** The fields of the tracepoint contexts the handlers use. *)
Record task_newtask_args := TaskNewtaskArgs { nt_pid : Z; clone_flags : Z }.
Record sched_process_args := SchedProcessArgs { sp_pid : Z }.
Record mark_victim_args := MarkVictimArgs { mv_pid : Z }.

Definition task_newtask (args : task_newtask_args) (s : st) : st :=
  if negb (Z.land (clone_flags args) CLONE_THREAD =? 0) then s
  else output (ProcEvent EVENT_TYPE_PROCESS_START (nt_pid args) 0) s.

Definition sched_process_exit (v : env) (args : sched_process_args) (s : st) : st :=
  let id := pid_tgid v in
  let pid := Z.shiftr id 32 in
  if negb (pid =? u32 id) then s
  else
  let s := set_py (Python.set_stats (delete pid)) s in
  let s := set_node (Nodejs.set_stats (delete pid)) s in
  let s := set_node (Nodejs.set_prev (delete pid)) s in
  let s := set_node (Nodejs.set_cb (delete pid)) s in
  match oom_info s !! sp_pid args with
  | Some _ =>
      let s := set_oom (delete (sp_pid args)) s in
      output (ProcEvent EVENT_TYPE_PROCESS_EXIT (sp_pid args) EVENT_REASON_OOM_KILL) s
  | None => output (ProcEvent EVENT_TYPE_PROCESS_EXIT (sp_pid args) 0) s
  end.

Definition oom_mark_victim (args : mark_victim_args) (s : st) : st :=
  let pid := u32 (mv_pid args) in
  set_oom (fun m => (hash_update oom_max_entries BPF_ANY pid pid m).2) s.

(** ** The end of a process *)

(** The maps hold nothing of [pid]. *)
Definition forgotten (pid : Z) (s : st) : Prop :=
  Nodejs.nodejs_stats (node s) !! pid = None /\
  Nodejs.nodejs_prev_event_loop_iter (node s) !! pid = None /\
  Nodejs.nodejs_current_io_cb (node s) !! pid = None /\
  Python.python_stats (py s) !! pid = None.

Lemma sched_process_exit_leader v args s :
  Z.shiftr (pid_tgid v) 32 = u32 (pid_tgid v) ->
  let s' := sched_process_exit v args s in
  proc_events s' = proc_events s ++
    [ProcEvent EVENT_TYPE_PROCESS_EXIT (sp_pid args)
       (match oom_info s !! sp_pid args with Some _ => EVENT_REASON_OOM_KILL | None => 0 end)] /\
  oom_info s' = delete (sp_pid args) (oom_info s) /\
  forgotten (u32 (pid_tgid v)) s'.
Proof.
  intros Hl s'. unfold s', sched_process_exit. rewrite Hl, Z.eqb_refl. cbn [negb].
  unfold forgotten. cbn [oom_info set_node set_py].
  destruct (oom_info s !! sp_pid args) eqn:E; cbn; rewrite !lookup_delete_eq; split_and!; try done.
  by rewrite delete_id.
Qed.

(** A process the kernel picked as an OOM victim is reported as killed for lack
    of memory when its leader exits, once: the mark is consumed, so the next
    process with the same pid is not.  Each exit of a leader is reported exactly
    once and leaves nothing of the process in the runtime statistics; the exit
    of another thread changes nothing. *)
Theorem oom_kill_reported p v v' vt s :
  0 <= p < 2^32 -> Z.of_nat (size (oom_info s)) < oom_max_entries ->
  Z.shiftr (pid_tgid v) 32 = p -> u32 (pid_tgid v) = p ->
  Z.shiftr (pid_tgid v') 32 = p -> u32 (pid_tgid v') = p ->
  Z.shiftr (pid_tgid vt) 32 <> u32 (pid_tgid vt) ->
  let s1 := oom_mark_victim (MarkVictimArgs p) s in
  let s2 := sched_process_exit v (SchedProcessArgs p) s1 in
  let s3 := sched_process_exit v' (SchedProcessArgs p) s2 in
  proc_events s3 = proc_events s ++
    [ProcEvent EVENT_TYPE_PROCESS_EXIT p EVENT_REASON_OOM_KILL;
     ProcEvent EVENT_TYPE_PROCESS_EXIT p 0] /\
  forgotten p s2 /\ forgotten p s3 /\ sched_process_exit vt (SchedProcessArgs p) s3 = s3.
Proof.
  intros Hp Hroom Hv Hv0 Hv' Hv0' Ht s1 s2 s3.
  assert (oom_info s1 = <[p := p]> (oom_info s)) as Ho1.
  { unfold s1, oom_mark_victim. cbn. rewrite u32_small by lia. by rewrite hash_update_any_room. }
  destruct (sched_process_exit_leader v (SchedProcessArgs p) s1) as (He2 & Ho2 & Hf2); [congruence|].
  fold s2 in He2, Ho2, Hf2. cbn [sp_pid] in *.
  destruct (sched_process_exit_leader v' (SchedProcessArgs p) s2) as (He3 & _ & Hf3); [congruence|].
  fold s3 in He3, Hf3. cbn [sp_pid] in *.
  rewrite Ho2, lookup_delete_eq in He3. rewrite Ho1, lookup_insert_eq in He2.
  rewrite Hv0 in Hf2. rewrite Hv0' in Hf3. split_and!; try done.
  - rewrite He3, He2, <-app_assoc. done.
  - unfold sched_process_exit. by rewrite (proj2 (Z.eqb_neq _ _) Ht).
Qed.

Lemma oom_kill_reported_witness :
  let v := env_at (77 * 2^32 + 77) 5 mem_empty in
  let s1 := oom_mark_victim (MarkVictimArgs 77) init in
  let s2 := sched_process_exit v (SchedProcessArgs 77) s1 in
  let s3 := sched_process_exit v (SchedProcessArgs 77) s2 in
  proc_events s3 = proc_events init ++
    [ProcEvent EVENT_TYPE_PROCESS_EXIT 77 EVENT_REASON_OOM_KILL;
     ProcEvent EVENT_TYPE_PROCESS_EXIT 77 0] /\
  forgotten 77 s2 /\ forgotten 77 s3 /\
  sched_process_exit (env_at (77 * 2^32 + 78) 5 mem_empty) (SchedProcessArgs 77) s3 = s3.
Proof.
  apply (oom_kill_reported 77 (env_at (77 * 2^32 + 77) 5 mem_empty) (env_at (77 * 2^32 + 77) 5 mem_empty)
           (env_at (77 * 2^32 + 78) 5 mem_empty) init);
    [lia|vm_compute; reflexivity|reflexivity..|vm_compute; discriminate].
Defined.

End Proc.
