(* ===== verification/File.v ===== *)
(** * File opens

    ebpftracer/ebpf/file.c: the enter / [path_get] / exit sequence that reports
    the files a process opens for writing outside /proc, /dev and /sys. *)

From S2P Require Import Prelude L7Base Types.
Local Open Scope cchar_scope.

Module File.

Definition O_ACCMODE : Z := 3.
Definition O_WRONLY : Z := 1.
Definition O_RDWR : Z := 2.

Record file_event := FileEvent { type : Z; pid : Z; fd : Z; mnt : Z; log : Z }.

Record file_info := FileInfo { i_mnt : Z; i_log : Z }.

Record st := St {
  open_file_info : gmap Z file_info;
  file_events : list file_event
}.

Definition max_entries : Z := 10240.

Definition init : st := St ∅ [].

Definition set_info (f : gmap Z file_info -> gmap Z file_info) (s : st) : st :=
  St (f (open_file_info s)) (file_events s).
Definition output (e : file_event) (s : st) : st :=
  St (open_file_info s) (file_events s ++ [e]).

(** [char p[10]; bpf_probe_read_str(&p, sizeof(p), filename)]: [stack] is what
    the uninitialised array held; a failed read zeroes it. *)
Definition read_prefix (m : mem) (filename : Z) (stack : list Z) : list Z :=
  match read_str_chars m filename 10 with
  | Some bs => write_at 0 bs stack
  | None => zeros 10
  end.

Definition is_proc (p : list Z) : bool :=
  (p.[1] =? "p") && (p.[2] =? "r") && (p.[3] =? "o") && (p.[4] =? "c") && (p.[5] =? "/").
Definition is_dev (p : list Z) : bool :=
  (p.[1] =? "d") && (p.[2] =? "e") && (p.[3] =? "v") && (p.[4] =? "/").
Definition is_sys (p : list Z) : bool :=
  (p.[1] =? "s") && (p.[2] =? "y") && (p.[3] =? "s") && (p.[4] =? "/").
Definition is_var_log (p : list Z) : bool :=
  (p.[1] =? "v") && (p.[2] =? "a") && (p.[3] =? "r") && (p.[4] =? "/") && (p.[5] =? "l")
  && (p.[6] =? "o") && (p.[7] =? "g") && (p.[8] =? "/").

Definition trace_enter_open (v : env) (stack : list Z) (flags filename : Z) (s : st) : st :=
  if Z.land (Z.land flags O_ACCMODE) (Z.lor O_WRONLY O_RDWR) =? 0 then s
  else
  let p := read_prefix (memory v) filename stack in
  if negb (p.[0] =? "/") then s
  else if is_proc p then s
  else if is_dev p then s
  else if is_sys p then s
  else
  let i := FileInfo 0 (if is_var_log p then 1 else 0) in
  set_info (fun m => (hash_update max_entries BPF_ANY (pid_tgid v) i m).2) s.

(** [param1] is [PT_REGS_PARM1(ctx)], the [struct path *]. *)
Definition path_get (v : env) (param1 : Z) (s : st) : st :=
  let? _ := open_file_info s !! pid_tgid v else s in
  let? mnt := read_u64 (memory v) param1 else s in
  set_info (alter (fun i => FileInfo mnt (i_log i)) (pid_tgid v)) s.

Definition trace_exit_open (v : env) (ret : Z) (s : st) : st :=
  let id := pid_tgid v in
  let? i := open_file_info s !! id else s in
  if (ret <? 0) || (i_mnt i =? 0) then set_info (delete id) s
  else
  let e := FileEvent EVENT_TYPE_FILE_OPEN (u32 (Z.shiftr id 32)) (u64 ret) (i_mnt i) (i_log i) in
  let s := output e s in
  set_info (delete id) s.

Definition sys_enter_open (v : env) (stack : list Z) (flags filename : Z) (s : st) : st :=
  trace_enter_open v stack flags filename s.
Definition sys_exit_open (v : env) (ret : Z) (s : st) : st := trace_exit_open v ret s.
Definition sys_enter_openat (v : env) (stack : list Z) (flags filename : Z) (s : st) : st :=
  trace_enter_open v stack flags filename s.
Definition sys_exit_openat (v : env) (ret : Z) (s : st) : st := trace_exit_open v ret s.

(** ** Which opens are watched *)

(** The first nine bytes of the path, up to its end. *)
Definition path_prefix (m : mem) (filename : Z) : option (list Z) :=
  (fun bs => take (length bs - 1) bs) <$> probe_read_str m filename 10.

Definition slash_proc : list Z := ["/"; "p"; "r"; "o"; "c"; "/"].
Definition slash_dev : list Z := ["/"; "d"; "e"; "v"; "/"].
Definition slash_sys : list Z := ["/"; "s"; "y"; "s"; "/"].
Definition slash_var_log : list Z := ["/"; "v"; "a"; "r"; "/"; "l"; "o"; "g"; "/"].

Definition watched (name : list Z) : bool :=
  starts_with ["/"] name && negb (starts_with slash_proc name)
  && negb (starts_with slash_dev name) && negb (starts_with slash_sys name).

Lemma probe_read_str_bytes m a n bs :
  probe_read_str m a n = Some bs -> (0 < n)%nat ->
  exists name, bs = name ++ [0] /\ bytes_ok name.
Proof.
  revert a bs; induction n as [|n IH]; intros a bs H Hn; [lia|]. cbn in H.
  destruct (load m a) as [b|] eqn:L; [|done]. apply load_range in L.
  assert (exists name, [0] = name ++ [0] /\ bytes_ok name) as Hend by (exists []; by split; [|constructor]).
  destruct (b =? 0); [by injection H as <-|]. destruct n as [|n]; [by injection H as <-|].
  destruct (probe_read_str m (a + 1) (S n)) as [cs|] eqn:R; [|done]. injection H as <-.
  destruct (IH _ _ R) as (name & -> & Hname); [lia|]. exists (b :: name). split; [done|by constructor].
Qed.

(** What follows the end of the string is never looked at. *)
Lemma starts_with_cstring pat name rest :
  Forall (fun c => 0 < c < 128) pat -> bytes_ok name ->
  starts_with pat (map s8 name ++ 0 :: rest) = starts_with pat name.
Proof.
  intros Hpat. revert name. induction Hpat as [|c pat Hc _ IH]; intros name Hname; [by destruct name|].
  destruct Hname as [|b name Hb Hname]; cbn.
  - by destruct c; [lia| |].
  - rewrite s8_eqb by lia. by rewrite IH.
Qed.

Lemma length_10 (p : list Z) :
  length p = 10%nat -> exists a b c d e f g h i j, p = [a; b; c; d; e; f; g; h; i; j].
Proof.
  do 10 (destruct p as [|? p]; [done|]). destruct p; [|done]. intros _. by repeat eexists.
Qed.

(** The tests on the characters are tests on the beginning of the buffer. *)
Lemma tests_are_prefixes p :
  length p = 10%nat ->
  (p.[0] =? "/") = starts_with ["/"] p /\
  ((p.[0] =? "/") = true ->
   is_proc p = starts_with slash_proc p /\ is_dev p = starts_with slash_dev p /\
   is_sys p = starts_with slash_sys p /\ is_var_log p = starts_with slash_var_log p).
Proof.
  intros (a & b & c & d & e & f & g & h & i & j & ->)%length_10.
  split; [cbn; by rewrite andb_true_r|].
  unfold is_proc, is_dev, is_sys, is_var_log. cbn [nth slash_proc slash_dev slash_sys slash_var_log starts_with].
  intros ->. rewrite !andb_true_l, !andb_true_r, <-!andb_assoc. done.
Qed.

(** An open is watched exactly when it can write and its path is absolute and
    not below /proc/, /dev/ or /sys/; it is marked as a log when the path is
    below /var/log/.  The decision does not depend on what the uninitialised
    buffer of the handler held. *)
Theorem trace_enter_open_decides v stack flags filename s :
  length stack = 10%nat ->
  trace_enter_open v stack flags filename s =
    if Z.land flags 3 =? 0 then s
    else
    let? name := path_prefix (memory v) filename else s in
    if watched name then
      set_info (fun m => (hash_update max_entries BPF_ANY (pid_tgid v)
        (FileInfo 0 (if starts_with slash_var_log name then 1 else 0)) m).2) s
    else s.
Proof.
  intros Hstack. unfold trace_enter_open, path_prefix, read_prefix, read_str_chars.
  rewrite <-Z.land_assoc. change (Z.land O_ACCMODE (Z.lor O_WRONLY O_RDWR)) with 3.
  destruct (Z.land flags 3 =? 0); [done|].
  destruct (probe_read_str (memory v) filename 10) as [bs|] eqn:R; [|done]. cbn [fmap option_fmap option_map].
  pose proof (probe_read_str_length _ _ _ _ R) as Hlen.
  destruct (probe_read_str_bytes _ _ _ _ R) as (name & -> & Hname); [lia|].
  rewrite length_app in *. cbn [length] in *. rewrite Nat.add_sub, take_app_length.
  set (p := write_at 0 (map s8 (name ++ [0])) stack).
  assert (length p = 10%nat) as Hp.
  { unfold p. rewrite write_at_length; [done|]. rewrite length_map, length_app. cbn. lia. }
  assert (forall pat, Forall (fun c => 0 < c < 128) pat -> starts_with pat p = starts_with pat name) as Hsw.
  { intros pat Hpat. unfold p. rewrite write_at_0, map_app, <-app_assoc. by apply starts_with_cstring. }
  destruct (tests_are_prefixes p Hp) as [H0 Htests]. unfold watched.
  rewrite <-Hsw, <-H0 by (repeat constructor). destruct (p.[0] =? "/"); [|done].
  destruct Htests as (-> & -> & -> & ->); [done|].
  rewrite !Hsw by (repeat constructor). by repeat case_match.
Qed.

Definition demo_path : list Z := slash_var_log ++ ["x"; "."; "l"; "o"; "g"; 0].

Lemma trace_enter_open_decides_witness :
  let v := env_at (77 * 2^32 + 78) 5 (overlay mem_empty 4096 demo_path) in
  trace_enter_open v (replicate 10 99) 0x41 4096 init
    = set_info (fun m => (hash_update max_entries BPF_ANY (77 * 2^32 + 78) (FileInfo 0 1) m).2) init.
Proof.
  apply (trace_enter_open_decides (env_at (77 * 2^32 + 78) 5 (overlay mem_empty 4096 demo_path))
           (replicate 10 99) 0x41 4096 init).
  reflexivity.
Defined.

(** The end of a watched open reports it exactly when the call succeeded and the
    mount was seen: one event with the process, the descriptor returned, the
    mount of the last [path_get] of the thread and the log mark.  Whatever the
    outcome the note of the open is removed. *)
Theorem watched_open_reported v2 v3 param1 mnt ret s i :
  pid_tgid v2 = pid_tgid v3 -> open_file_info s !! pid_tgid v3 = Some i ->
  read_u64 (memory v2) param1 = Some mnt ->
  let s' := trace_exit_open v3 ret (path_get v2 param1 s) in
  file_events s' = file_events s ++
    (if (ret <? 0) || (mnt =? 0) then []
     else [FileEvent EVENT_TYPE_FILE_OPEN (tgid v3) (u64 ret) mnt (i_log i)]) /\
  open_file_info s' = delete (pid_tgid v3) (open_file_info s).
Proof.
  intros Hid Hi Hm s'. unfold s', path_get. rewrite Hid, Hi, Hm.
  unfold trace_exit_open. cbn [open_file_info set_info]. rewrite lookup_alter_eq, Hi.
  cbn [fmap option_fmap option_map i_mnt i_log].
  assert (delete (pid_tgid v3) (alter (fun i => FileInfo mnt (i_log i)) (pid_tgid v3) (open_file_info s))
          = delete (pid_tgid v3) (open_file_info s)) as Hd.
  { apply map_eq. intros k. destruct (decide (pid_tgid v3 = k)) as [<-|].
    - by rewrite !lookup_delete_eq.
    - by rewrite !lookup_delete_ne, lookup_alter_ne. }
  case_match; cbn; rewrite ?Hd, ?app_nil_r; done.
Qed.

Lemma watched_open_reported_witness :
  let v := env_at (77 * 2^32 + 78) 5 (overlay mem_empty 4096 [0x40; 1; 0; 0; 0; 0; 0; 0]) in
  let s := set_info (insert (77 * 2^32 + 78) (FileInfo 0 1)) init in
  let s' := trace_exit_open v 3 (path_get v 4096 s) in
  file_events s' = file_events s ++ [FileEvent EVENT_TYPE_FILE_OPEN 77 3 320 1] /\
  open_file_info s' = delete (77 * 2^32 + 78) (open_file_info s).
Proof.
  intros v s. apply (watched_open_reported v v 4096 320 3 s (FileInfo 0 1)).
  - reflexivity.
  - vm_compute; reflexivity.
  - vm_compute; reflexivity.
Defined.

End File.
