(* ===== verification/Tcp.v ===== *)
(** * TCP connection tracking

    ebpftracer/ebpf/tcp/{conntrack,state,retransmit}.c: the socket state
    tracepoint, the connect and close system calls, the NAT destinations learned
    from conntrack, and the maps they share with the L7 programs. *)

From S2P Require Import Prelude L7Base Types.

Module Tcp.

Definition IPPROTO_TCP : Z := 6.
Definition AF_INET : Z := 2.
Definition AF_INET6 : Z := 10.
Definition MAX_CONNECTIONS : Z := 1000000.

(** The socket states of the tracepoint. *)
Definition BPF_TCP_ESTABLISHED : Z := 1.
Definition BPF_TCP_SYN_SENT : Z := 2.
Definition BPF_TCP_FIN_WAIT1 : Z := 4.
Definition BPF_TCP_CLOSE : Z := 7.
Definition BPF_TCP_CLOSE_WAIT : Z := 8.
Definition BPF_TCP_LISTEN : Z := 10.

(** ** State *)

Record st := St {
  actual_destinations : gmap ipPort ipPort;
  fd_by_pid_tgid : gmap Z Z;
  connection_id_by_socket : gmap Z connection_id;
  active_connections : gmap connection_id connection;
  active_l7_requests : gmap l7_request_key l7_request;
  tcp_listen_events : list tcp_event;
  tcp_connect_events : list tcp_event;
  tcp_retransmit_events : list tcp_event
}.

Definition init : st := St ∅ ∅ ∅ ∅ ∅ [] [] [].

Definition fd_max_entries : Z := 10240.

Definition set_destinations f (s : st) : st :=
  St (f (actual_destinations s)) (fd_by_pid_tgid s) (connection_id_by_socket s)
     (active_connections s) (active_l7_requests s)
     (tcp_listen_events s) (tcp_connect_events s) (tcp_retransmit_events s).
Definition set_fds f (s : st) : st :=
  St (actual_destinations s) (f (fd_by_pid_tgid s)) (connection_id_by_socket s)
     (active_connections s) (active_l7_requests s)
     (tcp_listen_events s) (tcp_connect_events s) (tcp_retransmit_events s).
Definition set_sockets f (s : st) : st :=
  St (actual_destinations s) (fd_by_pid_tgid s) (f (connection_id_by_socket s))
     (active_connections s) (active_l7_requests s)
     (tcp_listen_events s) (tcp_connect_events s) (tcp_retransmit_events s).
Definition set_connections f (s : st) : st :=
  St (actual_destinations s) (fd_by_pid_tgid s) (connection_id_by_socket s)
     (f (active_connections s)) (active_l7_requests s)
     (tcp_listen_events s) (tcp_connect_events s) (tcp_retransmit_events s).
Definition set_requests f (s : st) : st :=
  St (actual_destinations s) (fd_by_pid_tgid s) (connection_id_by_socket s)
     (active_connections s) (f (active_l7_requests s))
     (tcp_listen_events s) (tcp_connect_events s) (tcp_retransmit_events s).

(** The perf buffers. *)
Inductive channel := listen_events | connect_events | retransmit_events.

Definition output (c : channel) (e : tcp_event) (s : st) : st :=
  let add (c' : channel) (l : list tcp_event) :=
    match c, c' with
    | listen_events, listen_events | connect_events, connect_events
    | retransmit_events, retransmit_events => l ++ [e]
    | _, _ => l
    end in
  St (actual_destinations s) (fd_by_pid_tgid s) (connection_id_by_socket s)
     (active_connections s) (active_l7_requests s)
     (add listen_events (tcp_listen_events s)) (add connect_events (tcp_connect_events s))
     (add retransmit_events (tcp_retransmit_events s)).

(** ** conntrack.c *)

Record nf_conntrack_tuple := NfConntrackTuple {
  src_addr : list Z; src_port : Z; src_l3num : Z;
  dst_addr : list Z; dst_port : Z; dst_protonum : Z; dst_dir : Z
}.

(** The 40 bytes of a tuple. *)
Definition nf_conntrack_tuple_of (bs : list Z) : nf_conntrack_tuple :=
  NfConntrackTuple (take 16 bs) (field bs 16 2) (field bs 18 2)
    (take 16 (drop 20 bs)) (field bs 36 2) (field bs 38 1) (field bs 39 1).

(** [struct nf_conn]: 16 bytes of padding, then two tuple hashes of 16 bytes of
    padding and a tuple each; [sizeof] 128. *)
Record nf_conn := NfConn { orig : nf_conntrack_tuple; repl : nf_conntrack_tuple }.
Definition nf_conn_size : nat := 128.
Definition nf_conn_of (bs : list Z) : nf_conn :=
  NfConn (nf_conntrack_tuple_of (drop 32 bs)) (nf_conntrack_tuple_of (drop 88 bs)).

(** [ip[10] = ip[11] = 0xff; memcpy(&ip[12], addr, 4)] on a zeroed address. *)
Definition v4_mapped (addr : list Z) : list Z := zeros 10 ++ [0xff; 0xff] ++ take 4 addr.

Definition handle_ct (v : env) (conn : nf_conn) (s : st) : st :=
  let repl := repl conn in
  if negb (dst_protonum repl =? IPPROTO_TCP) then s
  else
  let '(src_ip, dst_ip) :=
    if src_l3num repl =? AF_INET
    then (v4_mapped (dst_addr repl), v4_mapped (src_addr repl))
    else if src_l3num repl =? AF_INET6
    then (dst_addr repl, src_addr repl)
    else (zeros 16, zeros 16) in
  let src := IpPort src_ip (bpf_ntohs (dst_port repl)) in
  let actualDst := IpPort dst_ip (bpf_ntohs (src_port repl)) in
  set_destinations (fun m => (lru_update (lru_destinations v) BPF_ANY src actualDst m).2) s.

(** [param1] is [PT_REGS_PARM1(ctx)], the [struct nf_conn *]. *)
Definition nf_ct_deliver_cached_events (v : env) (param1 : Z) (s : st) : st :=
  let? bs := probe_read (memory v) param1 nf_conn_size else s in
  handle_ct v (nf_conn_of bs) s.

(** ** state.c *)

Record set_state_args := SetStateArgs {
  skaddr : Z; oldstate : Z; newstate : Z; sport : Z; dport : Z; family : Z;
  sk_protocol : Z; saddr_v6 : list Z; daddr_v6 : list Z
}.

(** The locals the tail of [inet_sock_set_state] builds its event from. *)
Record outcome := Outcome {
  o_type : Z; o_timestamp : Z; o_duration : Z; o_pid : Z; o_fd : Z
}.

(** [if (args.oldstate == BPF_TCP_SYN_SENT) { ... }]: [None] is its
    [return 0]; the deleted entries are read through the pointers taken before. *)
Definition leave_syn_sent (v : env) (args : set_state_args) (s : st) : option (st * outcome) :=
  let? cid := connection_id_by_socket s !! skaddr args else None in
  let? conn := active_connections s !! cid else None in
  let duration := u64 (ktime v 0 - timestamp conn) in
  if newstate args =? BPF_TCP_ESTABLISHED then
    Some (s, Outcome EVENT_TYPE_CONNECTION_OPEN (timestamp conn) duration
               (cid_pid cid) (cid_fd cid))
  else if newstate args =? BPF_TCP_CLOSE then
    let s := set_sockets (delete (skaddr args)) s in
    let s := set_connections (delete cid) s in
    Some (s, Outcome EVENT_TYPE_CONNECTION_ERROR 0 duration (cid_pid cid) (cid_fd cid))
  else Some (s, Outcome 0 0 duration (cid_pid cid) (cid_fd cid)).

Definition sock_event (args : set_state_args) (o : outcome) (s : st) : tcp_event :=
  let src := IpPort (saddr_v6 args) (sport args) in
  let '(aport, aaddr) :=
    match actual_destinations s !! src with
    | Some actualDst => (port actualDst, ip actualDst)
    | None => (0, zeros 16)
    end in
  TcpEvent (o_fd o) (o_timestamp o) (o_duration o) (o_type o) (o_pid o) 0 0
    (sport args) (dport args) aport (saddr_v6 args) (daddr_v6 args) aaddr.

(** [ctx]: the tracepoint arguments, [None] when [bpf_probe_read] fails. *)
Definition inet_sock_set_state (v : env) (ctx : option set_state_args) (s : st) : st :=
  let? args := ctx else s in
  if negb (sk_protocol args =? IPPROTO_TCP) then s
  else
  let id := pid_tgid v in
  let pid := tgid v in
  if (oldstate args =? BPF_TCP_CLOSE) && (newstate args =? BPF_TCP_SYN_SENT) then
    let? fd := fd_by_pid_tgid s !! id else s in
    let cid := ConnectionId fd pid in
    let conn := Connection (ktime v 0) 0 0 in
    let s := set_fds (delete id) s in
    let s := set_sockets (fun m => (lru_update (lru_sockets v) BPF_ANY (skaddr args) cid m).2) s in
    set_connections (fun m => (lru_update (lru_connections v) BPF_ANY cid conn m).2) s
  else
  let? (s, o) :=
    (if oldstate args =? BPF_TCP_SYN_SENT then leave_syn_sent v args s
     else Some (s, Outcome 0 0 0 pid 0)) else s in
  let s :=
    if (oldstate args =? BPF_TCP_ESTABLISHED)
       && ((newstate args =? BPF_TCP_FIN_WAIT1) || (newstate args =? BPF_TCP_CLOSE_WAIT))
    then set_sockets (delete (skaddr args)) s else s in
  let '(type, map) := (o_type o, connect_events) in
  let '(type, map) :=
    if (oldstate args =? BPF_TCP_CLOSE) && (newstate args =? BPF_TCP_LISTEN)
    then (EVENT_TYPE_LISTEN_OPEN, listen_events) else (type, map) in
  let '(type, map) :=
    if (oldstate args =? BPF_TCP_LISTEN) && (newstate args =? BPF_TCP_CLOSE)
    then (EVENT_TYPE_LISTEN_CLOSE, listen_events) else (type, map) in
  if type =? 0 then s
  else
  let o := Outcome type (o_timestamp o) (o_duration o) (o_pid o) (o_fd o) in
  output map (sock_event args o s) s.

(** [ctx]: the [fd] argument, [None] when [bpf_probe_read] fails. *)
Definition sys_enter_connect (v : env) (ctx : option Z) (s : st) : st :=
  let? fd := ctx else s in
  set_fds (fun m => (hash_update fd_max_entries BPF_ANY (pid_tgid v) fd m).2) s.

Definition sys_exit_connect (v : env) (ret : Z) (s : st) : st :=
  let id := pid_tgid v in
  let? fd := fd_by_pid_tgid s !! id else s in
  let cid := ConnectionId fd (tgid v) in
  let s :=
    match active_connections s !! cid with
    | None =>
        if ret =? 0 then
          let conn := Connection (ktime v 0) 0 0 in
          set_connections (fun m => (lru_update (lru_connections v) BPF_ANY cid conn m).2) s
        else s
    | Some _ => s
    end in
  let k := L7RequestKey fd (tgid v) 0 (-1) in
  let s := set_requests (delete k) s in
  let k := L7RequestKey fd (tgid v) 1 (-1) in
  let s := set_requests (delete k) s in
  set_fds (delete id) s.

Definition sys_enter_close (v : env) (ctx : option Z) (s : st) : st :=
  let? fd := ctx else s in
  let cid := ConnectionId fd (tgid v) in
  let? conn := active_connections s !! cid else s in
  let e := TcpEvent (cid_fd cid) (timestamp conn) 0 EVENT_TYPE_CONNECTION_CLOSE (cid_pid cid)
             (bytes_sent conn) (bytes_received conn) 0 0 0 (zeros 16) (zeros 16) (zeros 16) in
  let s := output connect_events e s in
  set_connections (delete cid) s.

(** ** retransmit.c *)

Record retransmit_args := RetransmitArgs {
  r_sport : Z; r_dport : Z; r_saddr_v6 : list Z; r_daddr_v6 : list Z
}.

Definition tcp_retransmit_skb (args : retransmit_args) (s : st) : st :=
  output retransmit_events
    (TcpEvent 0 0 0 EVENT_TYPE_TCP_RETRANSMIT 0 0 0 (r_sport args) (r_dport args) 0
       (r_saddr_v6 args) (r_daddr_v6 args) (zeros 16)) s.

(** ** Connections the agent found *)

(** [Tracer.init] of ebpftracer/init.go, which runs beside the programs, adds the connections
    of descriptors that were open before. *)
Definition seed_connection (v : env) (cid : connection_id) (now : Z) (s : st) : st :=
  set_connections (fun m => (lru_update (lru_connections v) BPF_NOEXIST cid (Connection now 0 0) m).2) s.

(** ** The life of a connection *)

(** The tracepoint arguments of a transition of the socket of [a]. *)
Definition transition (a : set_state_args) (old new : Z) : set_state_args :=
  SetStateArgs (skaddr a) old new (sport a) (dport a) (family a) IPPROTO_TCP
    (saddr_v6 a) (daddr_v6 a).

(** A thread calls connect on [fd] and the socket of [a] enters SYN_SENT. *)
Definition start_connect (v1 v2 : env) (fd : Z) (a : set_state_args) (s : st) : st :=
  inet_sock_set_state v2 (Some (transition a BPF_TCP_CLOSE BPF_TCP_SYN_SENT))
    (sys_enter_connect v1 (Some fd) s).

(** After it the socket and the connection are known, the pending fd is not, and
    nothing has been reported. *)
Lemma start_connect_spec v1 v2 fd a s :
  pid_tgid v1 = pid_tgid v2 -> no_eviction v2 ->
  Z.of_nat (size (fd_by_pid_tgid s)) < fd_max_entries ->
  let cid := ConnectionId fd (tgid v2) in
  let s' := start_connect v1 v2 fd a s in
  connection_id_by_socket s' = <[skaddr a := cid]> (connection_id_by_socket s) /\
  active_connections s' = <[cid := Connection (ktime v2 0) 0 0]> (active_connections s) /\
  fd_by_pid_tgid s' = delete (pid_tgid v2) (fd_by_pid_tgid s) /\
  tcp_connect_events s' = tcp_connect_events s /\
  tcp_listen_events s' = tcp_listen_events s /\
  actual_destinations s' = actual_destinations s.
Proof.
  intros Hid (_ & Hsk & Hco & _ & _) Hroom cid s'.
  assert (fd_by_pid_tgid (sys_enter_connect v1 (Some fd) s)
          = <[pid_tgid v2 := fd]> (fd_by_pid_tgid s)) as Hf.
  { cbn. by rewrite hash_update_any_room, Hid. }
  unfold s', start_connect, inet_sock_set_state. cbn [transition sk_protocol oldstate newstate].
  cbn [Z.eqb negb Pos.eqb andb IPPROTO_TCP BPF_TCP_CLOSE BPF_TCP_SYN_SENT].
  rewrite Hf, lookup_insert_eq. cbn. unfold lru_update. rewrite Hsk, Hco. cbn.
  rewrite hash_update_any_room, Hid by done. cbn. by rewrite delete_insert_eq.
Qed.

(** C35: a successful connection is reported once, when it is established, under
    the process and descriptor that called connect and with the time the
    handshake took, whatever task the tracepoint fires in; its close is reported
    with the same identity and start time and forgets it. *)
Theorem connection_lifecycle v1 v2 v3 v4 fd a s :
  pid_tgid v1 = pid_tgid v2 -> tgid v4 = tgid v2 -> no_eviction v2 ->
  Z.of_nat (size (fd_by_pid_tgid s)) < fd_max_entries ->
  let s3 := inet_sock_set_state v3
              (Some (transition a BPF_TCP_SYN_SENT BPF_TCP_ESTABLISHED))
              (start_connect v1 v2 fd a s) in
  let s4 := sys_enter_close v4 (Some fd) s3 in
  exists e1 e2,
    tcp_connect_events s4 = tcp_connect_events s ++ [e1; e2] /\
    (t_type e1, t_pid e1, t_fd e1) = (EVENT_TYPE_CONNECTION_OPEN, tgid v2, fd) /\
    (t_timestamp e1, t_duration e1) = (ktime v2 0, u64 (ktime v3 0 - ktime v2 0)) /\
    (t_sport e1, t_dport e1, t_saddr e1, t_daddr e1)
      = (sport a, dport a, saddr_v6 a, daddr_v6 a) /\
    (t_type e2, t_pid e2, t_fd e2) = (EVENT_TYPE_CONNECTION_CLOSE, tgid v2, fd) /\
    (t_timestamp e2, t_bytes_sent e2, t_bytes_received e2) = (ktime v2 0, 0, 0) /\
    active_connections s4 !! ConnectionId fd (tgid v2) = None.
Proof.
  intros Hid Hpid Hev Hroom s3 s4.
  destruct (start_connect_spec v1 v2 fd a s Hid Hev Hroom) as (Hsk & Hco & Hfd & Hce & _ & _).
  set (s2 := start_connect v1 v2 fd a s) in *. set (cid := ConnectionId fd (tgid v2)) in *.
  assert (leave_syn_sent v3 (transition a BPF_TCP_SYN_SENT BPF_TCP_ESTABLISHED) s2
    = Some (s2, Outcome EVENT_TYPE_CONNECTION_OPEN (ktime v2 0) (u64 (ktime v3 0 - ktime v2 0))
                  (tgid v2) fd)) as Hl.
  { unfold leave_syn_sent. cbn [transition skaddr newstate].
    by rewrite Hsk, lookup_insert_eq, Hco, lookup_insert_eq. }
  assert (exists e1, s3 = output connect_events e1 s2 /\
    e1 = sock_event (transition a BPF_TCP_SYN_SENT BPF_TCP_ESTABLISHED)
      (Outcome EVENT_TYPE_CONNECTION_OPEN (ktime v2 0) (u64 (ktime v3 0 - ktime v2 0))
         (tgid v2) fd) s2) as (e1 & Hs3 & He1).
  { unfold s3, inet_sock_set_state. cbn [transition sk_protocol oldstate newstate].
    cbn [Z.eqb negb Pos.eqb andb orb IPPROTO_TCP BPF_TCP_CLOSE BPF_TCP_SYN_SENT
         BPF_TCP_ESTABLISHED BPF_TCP_LISTEN].
    change (SetStateArgs _ _ _ _ _ _ _ _ _)
      with (transition a BPF_TCP_SYN_SENT BPF_TCP_ESTABLISHED).
    rewrite Hl. eexists. split; [reflexivity|done]. }
  unfold s4, sys_enter_close. clearbody s3. clear s4. clearbody s2. rewrite Hs3.
  cbn [output active_connections].
  rewrite Hpid. fold cid. rewrite Hco, lookup_insert_eq. cbn -[sock_event].
  exists e1. eexists. rewrite Hce. split; [by rewrite <-app_assoc|].
  rewrite He1. unfold sock_event. destruct (actual_destinations s2 !! _) as [[]|]; cbn;
    split_and!; try done; by rewrite lookup_delete_eq.
Qed.

Definition demo_socket : set_state_args :=
  SetStateArgs 0xffff0001 0 0 40000 80 AF_INET6 IPPROTO_TCP (zeros 16) (replicate 16 1).

Lemma connection_lifecycle_witness :
  let v t := env_at (77 * 2^32 + 78) t mem_empty in
  let s3 := inet_sock_set_state (env_at 0 150 mem_empty)
              (Some (transition demo_socket BPF_TCP_SYN_SENT BPF_TCP_ESTABLISHED))
              (start_connect (v 90) (v 100) 5 demo_socket init) in
  let s4 := sys_enter_close (v 900) (Some 5) s3 in
  exists e1 e2,
    tcp_connect_events s4 = tcp_connect_events init ++ [e1; e2] /\
    (t_type e1, t_pid e1, t_fd e1) = (EVENT_TYPE_CONNECTION_OPEN, tgid (v 100), 5) /\
    (t_timestamp e1, t_duration e1) = (100, u64 (150 - 100)) /\
    (t_sport e1, t_dport e1, t_saddr e1, t_daddr e1) = (40000, 80, zeros 16, replicate 16 1) /\
    (t_type e2, t_pid e2, t_fd e2) = (EVENT_TYPE_CONNECTION_CLOSE, tgid (v 100), 5) /\
    (t_timestamp e2, t_bytes_sent e2, t_bytes_received e2) = (100, 0, 0) /\
    active_connections s4 !! ConnectionId 5 (tgid (v 100)) = None.
Proof.
  apply (connection_lifecycle (env_at (77 * 2^32 + 78) 90 mem_empty)
           (env_at (77 * 2^32 + 78) 100 mem_empty) (env_at 0 150 mem_empty)
           (env_at (77 * 2^32 + 78) 900 mem_empty) 5 demo_socket init).
  - reflexivity.
  - reflexivity.
  - repeat split.
  - vm_compute; reflexivity.
Defined.

(** A connection that fails is reported once as an error, under the process and
    descriptor that called connect and with the time the attempt took; socket
    and connection are forgotten, and closing the descriptor reports nothing. *)
Theorem connection_failure v1 v2 v3 v4 fd a s :
  pid_tgid v1 = pid_tgid v2 -> tgid v4 = tgid v2 -> no_eviction v2 ->
  Z.of_nat (size (fd_by_pid_tgid s)) < fd_max_entries ->
  let s3 := inet_sock_set_state v3 (Some (transition a BPF_TCP_SYN_SENT BPF_TCP_CLOSE))
              (start_connect v1 v2 fd a s) in
  let s4 := sys_enter_close v4 (Some fd) s3 in
  exists e,
    tcp_connect_events s4 = tcp_connect_events s ++ [e] /\
    (t_type e, t_pid e, t_fd e) = (EVENT_TYPE_CONNECTION_ERROR, tgid v2, fd) /\
    t_duration e = u64 (ktime v3 0 - ktime v2 0) /\
    connection_id_by_socket s4 !! skaddr a = None /\
    active_connections s4 !! ConnectionId fd (tgid v2) = None.
Proof.
  intros Hid Hpid Hev Hroom s3 s4.
  destruct (start_connect_spec v1 v2 fd a s Hid Hev Hroom) as (Hsk & Hco & Hfd & Hce & _ & _).
  set (s2 := start_connect v1 v2 fd a s) in *. set (cid := ConnectionId fd (tgid v2)) in *.
  set (s2' := set_connections (delete cid) (set_sockets (delete (skaddr a)) s2)).
  set (o := Outcome EVENT_TYPE_CONNECTION_ERROR 0 (u64 (ktime v3 0 - ktime v2 0)) (tgid v2) fd).
  assert (s3 = output connect_events
                 (sock_event (transition a BPF_TCP_SYN_SENT BPF_TCP_CLOSE) o s2') s2') as Hs3.
  { unfold s3, inet_sock_set_state. cbn [transition sk_protocol oldstate newstate].
    cbn [Z.eqb negb Pos.eqb andb orb IPPROTO_TCP BPF_TCP_CLOSE BPF_TCP_SYN_SENT
         BPF_TCP_ESTABLISHED BPF_TCP_LISTEN].
    unfold leave_syn_sent. cbn [skaddr newstate].
    by rewrite Hsk, lookup_insert_eq, Hco, lookup_insert_eq. }
  clearbody s3. unfold s4, sys_enter_close. subst s3. clear s4. unfold s2'. clear s2'. clearbody s2.
  cbn [output active_connections set_connections]. rewrite Hpid. fold cid. rewrite lookup_delete_eq.
  cbn -[sock_event]. rewrite Hce.
  eexists. split; [reflexivity|]. rewrite !lookup_delete_eq.
  unfold sock_event. destruct (actual_destinations _ !! _) as [[]|]; done.
Qed.

Lemma connection_failure_witness :
  let v t := env_at (77 * 2^32 + 78) t mem_empty in
  let s3 := inet_sock_set_state (env_at 0 150 mem_empty)
              (Some (transition demo_socket BPF_TCP_SYN_SENT BPF_TCP_CLOSE))
              (start_connect (v 90) (v 100) 5 demo_socket init) in
  let s4 := sys_enter_close (v 900) (Some 5) s3 in
  exists e,
    tcp_connect_events s4 = tcp_connect_events init ++ [e] /\
    (t_type e, t_pid e, t_fd e) = (EVENT_TYPE_CONNECTION_ERROR, tgid (v 100), 5) /\
    t_duration e = u64 (150 - 100) /\
    connection_id_by_socket s4 !! skaddr demo_socket = None /\
    active_connections s4 !! ConnectionId 5 (tgid (v 100)) = None.
Proof.
  apply (connection_failure (env_at (77 * 2^32 + 78) 90 mem_empty)
           (env_at (77 * 2^32 + 78) 100 mem_empty) (env_at 0 150 mem_empty)
           (env_at (77 * 2^32 + 78) 900 mem_empty) 5 demo_socket init).
  - reflexivity.
  - reflexivity.
  - repeat split.
  - vm_compute; reflexivity.
Defined.

(** The destination behind a NAT is reported: once conntrack has delivered the
    reply tuple of an IPv4 connection, its establishment is reported with the
    reply source as the actual destination, address and port in host order. *)
Theorem nat_destination_reported v1 v2 param1 bs a s cid c :
  let r := repl (nf_conn_of bs) in
  no_eviction v1 ->
  probe_read (memory v1) param1 nf_conn_size = Some bs ->
  dst_protonum r = IPPROTO_TCP -> src_l3num r = AF_INET ->
  saddr_v6 a = v4_mapped (dst_addr r) -> sport a = bpf_ntohs (dst_port r) ->
  connection_id_by_socket s !! skaddr a = Some cid -> active_connections s !! cid = Some c ->
  let s' := inet_sock_set_state v2 (Some (transition a BPF_TCP_SYN_SENT BPF_TCP_ESTABLISHED))
              (nf_ct_deliver_cached_events v1 param1 s) in
  exists e,
    tcp_connect_events s' = tcp_connect_events s ++ [e] /\
    (t_type e, t_fd e, t_pid e) = (EVENT_TYPE_CONNECTION_OPEN, cid_fd cid, cid_pid cid) /\
    (t_aaddr e, t_aport e) = (v4_mapped (src_addr r), bpf_ntohs (src_port r)).
Proof.
  intros r (Hev & _) R Hproto Hl3 Haddr Hport Hsk Hco s'.
  unfold s', nf_ct_deliver_cached_events. rewrite R. unfold handle_ct. fold r.
  rewrite Hproto, Hl3. cbn [Z.eqb negb Pos.eqb IPPROTO_TCP AF_INET].
  unfold inet_sock_set_state. cbn [transition sk_protocol oldstate newstate].
  cbn [Z.eqb negb Pos.eqb andb orb IPPROTO_TCP BPF_TCP_CLOSE BPF_TCP_SYN_SENT
       BPF_TCP_ESTABLISHED BPF_TCP_LISTEN].
  unfold leave_syn_sent.
  cbn [transition skaddr newstate connection_id_by_socket active_connections set_destinations].
  rewrite Hsk, Hco. cbn -[sock_event v4_mapped]. eexists. split; [reflexivity|].
  unfold sock_event. cbn [actual_destinations set_destinations saddr_v6 sport transition].
  unfold lru_update. rewrite Hev. change (evict [] ?m) with m. cbn [snd].
  rewrite Haddr, Hport, lookup_insert_eq. done.
Qed.

(** 10.0.0.5:40000 -> 10.1.0.1:80, answered by 10.2.0.9:8080. *)
Definition demo_nf_conn : list Z :=
  zeros 88 ++ [10; 2; 0; 9] ++ zeros 12 ++ be2 8080 ++ [2; 0]
  ++ [10; 0; 0; 5] ++ zeros 12 ++ be2 40000 ++ [6; 1].

Lemma nat_destination_reported_witness :
  let a := SetStateArgs 0xffff0001 0 0 40000 80 AF_INET IPPROTO_TCP
             (v4_mapped [10; 0; 0; 5]) (v4_mapped [10; 1; 0; 1]) in
  let s := set_connections (insert (ConnectionId 5 77) (Connection 100 0 0))
             (set_sockets (insert 0xffff0001 (ConnectionId 5 77)) init) in
  let s' := inet_sock_set_state (env_at 0 150 mem_empty)
              (Some (transition a BPF_TCP_SYN_SENT BPF_TCP_ESTABLISHED))
              (nf_ct_deliver_cached_events (env_at 0 120 (overlay mem_empty 4096 demo_nf_conn)) 4096 s) in
  exists e,
    tcp_connect_events s' = tcp_connect_events s ++ [e] /\
    (t_type e, t_fd e, t_pid e) = (EVENT_TYPE_CONNECTION_OPEN, 5, 77) /\
    (t_aaddr e, t_aport e) = (v4_mapped [10; 2; 0; 9], 8080).
Proof.
  intros a s.
  apply (nat_destination_reported (env_at 0 120 (overlay mem_empty 4096 demo_nf_conn))
           (env_at 0 150 mem_empty) 4096 demo_nf_conn a s (ConnectionId 5 77) (Connection 100 0 0));
    [repeat split|vm_compute; reflexivity..].
Defined.

(** ** Who the entries and the events are about

    [P fd pid]: connect was called on [fd] in process [pid], or whatever else
    holds of every descriptor that enters the maps. *)

Record known (P : Z -> Z -> Prop) (s : st) : Prop := {
  known_fds id fd : fd_by_pid_tgid s !! id = Some fd -> P fd (u32 (Z.shiftr id 32));
  known_sockets sk cid : connection_id_by_socket s !! sk = Some cid -> P (cid_fd cid) (cid_pid cid);
  known_connections cid c : active_connections s !! cid = Some c -> P (cid_fd cid) (cid_pid cid);
  known_requests k r : active_l7_requests s !! k = Some r -> P (k_fd k) (k_pid k);
  known_events e : e ∈ tcp_connect_events s -> P (t_fd e) (t_pid e)
}.

Section known.
Context (P : Z -> Z -> Prop).

Lemma known_init : known P init.
Proof. by split; cbn; intros; try (rewrite ?lookup_empty in *; done); set_solver. Qed.

Lemma known_weaken (Q : Z -> Z -> Prop) s :
  (forall fd pid, P fd pid -> Q fd pid) -> known P s -> known Q s.
Proof. intros HPQ []. split; eauto. Qed.

Lemma known_set_fds f s :
  (forall id fd, f (fd_by_pid_tgid s) !! id = Some fd ->
     fd_by_pid_tgid s !! id = Some fd \/ P fd (u32 (Z.shiftr id 32))) ->
  known P s -> known P (set_fds f s).
Proof. intros Hf []. split; eauto. intros id fd [|]%Hf; eauto. Qed.

Lemma known_set_sockets f s :
  (forall sk cid, f (connection_id_by_socket s) !! sk = Some cid ->
     connection_id_by_socket s !! sk = Some cid \/ P (cid_fd cid) (cid_pid cid)) ->
  known P s -> known P (set_sockets f s).
Proof. intros Hf []. split; eauto. intros sk cid [|]%Hf; eauto. Qed.

Lemma known_set_connections f s :
  (forall cid c, f (active_connections s) !! cid = Some c ->
     is_Some (active_connections s !! cid) \/ P (cid_fd cid) (cid_pid cid)) ->
  known P s -> known P (set_connections f s).
Proof. intros Hf []. split; eauto. intros cid c [[? ?]|]%Hf; eauto. Qed.

Lemma known_set_requests f s :
  (forall k r, f (active_l7_requests s) !! k = Some r ->
     is_Some (active_l7_requests s !! k) \/ P (k_fd k) (k_pid k)) ->
  known P s -> known P (set_requests f s).
Proof. intros Hf []. split; eauto. intros k r [[? ?]|]%Hf; eauto. Qed.

Lemma known_output ch e s :
  (ch = connect_events -> P (t_fd e) (t_pid e)) -> known P s -> known P (output ch e s).
Proof.
  intros He []. split; eauto. destruct ch; cbn; intros e'; eauto.
  rewrite elem_of_app, list_elem_of_singleton. intros [|<-]; eauto.
Qed.

Lemma known_delete_connection cid s : known P s -> known P (set_connections (delete cid) s).
Proof.
  apply known_set_connections. intros cid' c [_ H]%lookup_delete_Some. eauto.
Qed.
Lemma known_delete_socket sk s : known P s -> known P (set_sockets (delete sk) s).
Proof. apply known_set_sockets. intros sk' c [_ H]%lookup_delete_Some. eauto. Qed.
Lemma known_delete_fd id s : known P s -> known P (set_fds (delete id) s).
Proof. apply known_set_fds. intros id' c [_ H]%lookup_delete_Some. eauto. Qed.
Lemma known_delete_request k s : known P s -> known P (set_requests (delete k) s).
Proof. apply known_set_requests. intros k' c [_ H]%lookup_delete_Some. eauto. Qed.

Lemma known_add_connection policy flags cid c s :
  P (cid_fd cid) (cid_pid cid) -> known P s ->
  known P (set_connections (fun m => (lru_update policy flags cid c m).2) s).
Proof.
  intros Hc. apply known_set_connections. intros cid' c' [[-> _]|H]%lru_update_lookup; eauto.
Qed.
Lemma known_add_socket policy sk cid s :
  P (cid_fd cid) (cid_pid cid) -> known P s ->
  known P (set_sockets (fun m => (lru_update policy BPF_ANY sk cid m).2) s).
Proof.
  intros Hc. apply known_set_sockets. intros sk' c' [[_ ->]|H]%lru_update_lookup; eauto.
Qed.

Lemma known_nf_ct_deliver_cached_events v param1 s :
  known P s -> known P (nf_ct_deliver_cached_events v param1 s).
Proof.
  intros Hs. unfold nf_ct_deliver_cached_events, handle_ct. case_match; [|done].
  case_match; [done|]. destruct (if src_l3num _ =? _ then _ else _). destruct Hs; by split.
Qed.

Lemma known_tcp_retransmit_skb args s : known P s -> known P (tcp_retransmit_skb args s).
Proof. by apply known_output. Qed.

Lemma known_sys_enter_connect v fd s :
  P fd (tgid v) -> known P s -> known P (sys_enter_connect v (Some fd) s).
Proof.
  intros Hp. apply known_set_fds. intros id fd' [[-> ->]|H]%hash_update_lookup; auto.
Qed.

Lemma known_sys_exit_connect v ret s : known P s -> known P (sys_exit_connect v ret s).
Proof.
  intros Hs. unfold sys_exit_connect. cbv zeta.
  destruct (fd_by_pid_tgid s !! pid_tgid v) as [fd|] eqn:Hfd; [|done].
  apply known_delete_fd. do 2 apply known_delete_request.
  case_match; [done|]. case_match; [|done]. apply known_add_connection; [|done].
  by apply (known_fds _ _ Hs).
Qed.

Lemma known_sys_enter_close v ctx s : known P s -> known P (sys_enter_close v ctx s).
Proof.
  intros Hs. unfold sys_enter_close. destruct ctx as [fd|]; [|done]. case_match eqn:Hc; [|done].
  apply known_delete_connection, known_output; [|done]. intros _.
  apply (known_connections _ _ Hs _ _ Hc).
Qed.

Lemma known_leave_syn_sent v args s s' o :
  known P s -> leave_syn_sent v args s = Some (s', o) ->
  known P s' /\ P (o_fd o) (o_pid o).
Proof.
  intros Hs. unfold leave_syn_sent.
  destruct (connection_id_by_socket s !! skaddr args) as [cid|] eqn:Hsk; [|done].
  destruct (active_connections s !! cid) as [c|]; [|done].
  pose proof (known_sockets _ _ Hs _ _ Hsk) as Hcid.
  repeat case_match; intros [= <- <-]; (split; [|exact Hcid]); [done| |done].
  by apply known_delete_connection, known_delete_socket.
Qed.

Lemma known_inet_sock_set_state v ctx s : known P s -> known P (inet_sock_set_state v ctx s).
Proof.
  intros Hs. unfold inet_sock_set_state. destruct ctx as [args|]; [|done].
  case_match; [done|]. case_match.
  { destruct (fd_by_pid_tgid s !! pid_tgid v) as [fd|] eqn:Hfd; [|done].
    pose proof (known_fds _ _ Hs _ _ Hfd) as Hp.
    by apply known_add_connection, known_add_socket, known_delete_fd. }
  cbv zeta.
  destruct (if oldstate args =? BPF_TCP_SYN_SENT then _ else _) as [[s1 o]|] eqn:Ho; [|done].
  assert (known P s1 /\ (o_type o <> 0 -> P (o_fd o) (o_pid o))) as [Hs1 Hpo].
  { case_match.
    - destruct (known_leave_syn_sent _ _ _ _ _ Hs Ho). auto.
    - injection Ho as <- <-. done. }
  clear Ho.
  set (s2 := if (oldstate args =? BPF_TCP_ESTABLISHED) && _ then _ else s1).
  assert (known P s2) as Hs2
    by (subst s2; apply if_both; [by apply known_delete_socket|done]).
  clearbody s2.
  destruct ((oldstate args =? BPF_TCP_CLOSE) && (newstate args =? BPF_TCP_LISTEN));
    destruct ((oldstate args =? BPF_TCP_LISTEN) && (newstate args =? BPF_TCP_CLOSE));
    (case_match eqn:E0; [done|]); try by apply known_output.
  apply known_output; [|done].
  intros _. apply Z.eqb_neq in E0. unfold sock_event. case_match. cbn. auto.
Qed.
End known.

End Tcp.
