(* ===== verification/L7.v ===== *)
(** * L7 request tracking

    ebpftracer/ebpf/l7/l7.c: the write and read hooks that recognise a protocol
    in what a process sends over a tracked connection, keep the request until
    the response is read, and report the pair. *)

From S2P Require Import Prelude L7Base ProtoText ProtoSql ProtoBin Foundationdb Types Tcp.

Module L7.

(** ** State *)

Record st := St {
  tcp : Tcp.st;
  active_reads : gmap Z read_args;
  l7_event_heap : gmap Z l7_event;
  l7_request_heap : gmap Z l7_request;
  iovec_buf_heap : gmap Z (list Z);
  l7_events : list l7_event
}.

Definition init : st := St Tcp.init ∅ ∅ ∅ ∅ [].

Definition set_tcp (f : Tcp.st -> Tcp.st) (s : st) : st :=
  St (f (tcp s)) (active_reads s) (l7_event_heap s) (l7_request_heap s)
     (iovec_buf_heap s) (l7_events s).
Definition set_reads (f : gmap Z read_args -> gmap Z read_args) (s : st) : st :=
  St (tcp s) (f (active_reads s)) (l7_event_heap s) (l7_request_heap s)
     (iovec_buf_heap s) (l7_events s).
Definition put_event (v : env) (e : l7_event) (s : st) : st :=
  St (tcp s) (active_reads s) (<[cpu v := e]> (l7_event_heap s)) (l7_request_heap s)
     (iovec_buf_heap s) (l7_events s).
Definition put_req (v : env) (r : l7_request) (s : st) : st :=
  St (tcp s) (active_reads s) (l7_event_heap s) (<[cpu v := r]> (l7_request_heap s))
     (iovec_buf_heap s) (l7_events s).
Definition put_iovec (v : env) (b : list Z) (s : st) : st :=
  St (tcp s) (active_reads s) (l7_event_heap s) (l7_request_heap s)
     (<[cpu v := b]> (iovec_buf_heap s)) (l7_events s).
Definition output (e : l7_event) (s : st) : st :=
  St (tcp s) (active_reads s) (l7_event_heap s) (l7_request_heap s)
     (iovec_buf_heap s) (l7_events s ++ [e]).

(** The maps of tcp/state.c the hooks use. *)
Definition connections (s : st) := Tcp.active_connections (tcp s).
Definition requests (s : st) := Tcp.active_l7_requests (tcp s).
Definition set_connections f (s : st) : st := set_tcp (Tcp.set_connections f) s.
Definition set_requests f (s : st) : st := set_tcp (Tcp.set_requests f) s.

(** Assignments to a field of the event and of the request under construction. *)
Definition ev_set_protocol x e :=
  L7Event (e_fd e) (e_connection_timestamp e) (e_pid e) (e_status e) (e_duration e)
    x (e_method e) (e_padding e) (e_statement_id e) (e_payload_size e) (e_payload e).
Definition ev_set_method x e :=
  L7Event (e_fd e) (e_connection_timestamp e) (e_pid e) (e_status e) (e_duration e)
    (e_protocol e) x (e_padding e) (e_statement_id e) (e_payload_size e) (e_payload e).
Definition ev_set_status x e :=
  L7Event (e_fd e) (e_connection_timestamp e) (e_pid e) x (e_duration e)
    (e_protocol e) (e_method e) (e_padding e) (e_statement_id e) (e_payload_size e) (e_payload e).
Definition ev_set_duration x e :=
  L7Event (e_fd e) (e_connection_timestamp e) (e_pid e) (e_status e) x
    (e_protocol e) (e_method e) (e_padding e) (e_statement_id e) (e_payload_size e) (e_payload e).
Definition ev_set_statement_id x e :=
  L7Event (e_fd e) (e_connection_timestamp e) (e_pid e) (e_status e) (e_duration e)
    (e_protocol e) (e_method e) (e_padding e) x (e_payload_size e) (e_payload e).
Definition ev_set_payload_size x e :=
  L7Event (e_fd e) (e_connection_timestamp e) (e_pid e) (e_status e) (e_duration e)
    (e_protocol e) (e_method e) (e_padding e) (e_statement_id e) x (e_payload e).
Definition ev_set_payload x e :=
  L7Event (e_fd e) (e_connection_timestamp e) (e_pid e) (e_status e) (e_duration e)
    (e_protocol e) (e_method e) (e_padding e) (e_statement_id e) (e_payload_size e) x.

Definition rq_set_ns x r :=
  L7Request x (protocol r) (partial r) (request_type r) (request_id r) (payload_size r) (payload r).
Definition rq_set_protocol x r :=
  L7Request (ns r) x (partial r) (request_type r) (request_id r) (payload_size r) (payload r).
Definition rq_set_partial x r :=
  L7Request (ns r) (protocol r) x (request_type r) (request_id r) (payload_size r) (payload r).
Definition rq_set_type x r :=
  L7Request (ns r) (protocol r) (partial r) x (request_id r) (payload_size r) (payload r).
Definition rq_set_id x r :=
  L7Request (ns r) (protocol r) (partial r) (request_type r) x (payload_size r) (payload r).
Definition rq_set_payload_size x r :=
  L7Request (ns r) (protocol r) (partial r) (request_type r) (request_id r) x (payload r).
Definition rq_set_payload x r :=
  L7Request (ns r) (protocol r) (partial r) (request_type r) (request_id r) (payload_size r) x.

(** ** Helpers of l7.c *)

(** [COPY_PAYLOAD(dst, size, src)]: whether the read succeeded (the macro returns
    from the handler otherwise) and the buffer it leaves; a failed read zeroes
    the bytes it was to write. *)
Definition COPY_PAYLOAD (m : mem) (dst : list Z) (size src : Z) : bool * list Z :=
  let size := TRUNCATE_PAYLOAD_SIZE size in
  match probe_read m src (Z.to_nat size) with
  | Some bs => (true, write_at 0 bs dst)
  | None => (false, write_at 0 (zeros (Z.to_nat size)) dst)
  end.

Definition send_event (v : env) (e : l7_event) (cid : connection_id) (conn : connection)
  (s : st) : st :=
  let e := L7Event (cid_fd cid) (timestamp conn) (cid_pid cid) (e_status e) (e_duration e)
             (e_protocol e) (e_method e) (e_padding e) (e_statement_id e)
             (e_payload_size e) (e_payload e) in
  output e (put_event v e s).

(** The loop of [read_iovec]: [n] iterations are left, [i] is the index. *)
Fixpoint read_iovec_loop (n : nat) (i : Z) (m : mem) (iovec iovlen max : Z)
  (buf : list Z) (offset total_size : Z) : Z * list Z * Z :=
  match n with
  | O => (offset, buf, total_size)
  | S n =>
      if iovlen <=? i then (offset, buf, total_size)
      else
      let? iov := probe_read m (iovec + i * 16) 16 else (0, buf, total_size) in
      let iov_buf := field iov 0 8 in
      let iov_size := field iov 8 8 in
      if iov_size <=? 0
      then read_iovec_loop n (i + 1) m iovec iovlen max buf offset total_size
      else
      let total_size := u64 (total_size + iov_size) in
      if offset <? max then
        let size := Z.min iov_size (max - offset) in
        let size := TRUNCATE_PAYLOAD_SIZE size in
        let offset := TRUNCATE_PAYLOAD_SIZE offset in
        match probe_read m iov_buf (Z.to_nat size) with
        | None => (0, write_at (Z.to_nat offset) (zeros (Z.to_nat size)) buf, total_size)
        | Some bs =>
            read_iovec_loop n (i + 1) m iovec iovlen max
              (write_at (Z.to_nat offset) bs buf) (offset + size) total_size
        end
      else read_iovec_loop n (i + 1) m iovec iovlen max buf offset total_size
  end.

(** Returns the number of bytes gathered in [buf], [buf] and [*total_size]. *)
Definition read_iovec (m : mem) (iovec iovlen ret : Z) (buf : list Z) (total_size : Z)
  : Z * list Z * Z :=
  let max := if negb (ret =? 0) then Z.min ret MAX_PAYLOAD_SIZE else MAX_PAYLOAD_SIZE in
  read_iovec_loop (Z.to_nat MAX_IOVEC_SIZE) 0 m iovec iovlen max buf 0 total_size.

(** The vectored case of both hooks: gather into this CPU's [iovec_buf_heap]
    slot.  Returns the memory as seen afterwards, the address of the slot, the
    gathered size and the total size. *)
Definition gather (v : env) (buf iovlen ret : Z) (s : st) : mem * Z * Z * Z * st :=
  let h := percpu iovec_buf_zero (cpu v) (iovec_buf_heap s) in
  let '(size, h, total_size) := read_iovec (memory v) buf iovlen ret h 0 in
  (overlay (memory v) (iovec_addr v) h, iovec_addr v, size, total_size, put_iovec v h s).

(** [__sync_fetch_and_add(&conn->bytes_sent, n)] and [bytes_received]. *)
Definition add_sent (n : Z) (c : connection) : connection :=
  Connection (timestamp c) (u64 (bytes_sent c + n)) (bytes_received c).
Definition add_received (n : Z) (c : connection) : connection :=
  Connection (timestamp c) (bytes_sent c) (u64 (bytes_received c + n)).

(** ** trace_enter_write *)

(** The end of the function: store the request unless one is pending. *)
Definition track_request (v : env) (m : mem) (payload_ptr size : Z) (k : l7_request_key)
  (req : l7_request) (s : st) : st :=
  if protocol req =? PROTOCOL_UNKNOWN then put_req v req s
  else
  let req := if ns req =? 0 then rq_set_ns (ktime v 0) req else req in
  let '(ok, buf) := COPY_PAYLOAD m (payload req) size payload_ptr in
  let req := rq_set_payload buf req in
  let s := put_req v req s in
  if ok then
    set_requests (fun r => (lru_update (lru_requests v) BPF_NOEXIST k req r).2) s
  else s.

(** The branches that report a closed prepared statement. *)
Definition statement_close (v : env) (m : mem) (payload_ptr size proto : Z)
  (cid : connection_id) (conn : connection) (s : st) : st :=
  let e := percpu l7_event_zero (cpu v) (l7_event_heap s) in
  let e := ev_set_protocol proto e in
  let e := ev_set_method METHOD_STATEMENT_CLOSE e in
  let e := ev_set_payload_size size e in
  let '(ok, buf) := COPY_PAYLOAD m (e_payload e) size payload_ptr in
  let e := ev_set_payload buf e in
  if ok then send_event v e cid conn s else put_event v e s.

(** The branches that report a published message. *)
Definition produce (v : env) (proto : Z) (cid : connection_id) (conn : connection) (s : st) : st :=
  let e := percpu l7_event_zero (cpu v) (l7_event_heap s) in
  let e := ev_set_protocol proto e in
  let e := ev_set_method METHOD_PRODUCE e in
  send_event v e cid conn s.

(** HTTP/2 frames are reported as they are, with the time in [duration]. *)
Definition http2_frames (v : env) (m : mem) (payload_ptr size method : Z) (e : l7_event)
  (cid : connection_id) (conn : connection) (s : st) : st :=
  let e := ev_set_protocol PROTOCOL_HTTP2 e in
  let e := ev_set_method method e in
  let e := ev_set_duration (ktime v 0) e in
  let e := ev_set_payload_size size e in
  let '(ok, buf) := COPY_PAYLOAD m (e_payload e) size payload_ptr in
  let e := ev_set_payload buf e in
  if ok then send_event v e cid conn s else put_event v e s.

(** The chain of protocol tests. *)
Definition classify_write (v : env) (m : mem) (ptr size total_size : Z)
  (cid : connection_id) (conn : connection) (k : l7_request_key) (req : l7_request)
  (s : st) : st :=
  let track p k req := track_request v m ptr size k (rq_set_protocol p req) s in
  if Http.is_http_request m ptr then track PROTOCOL_HTTP k req
  else
  let '(yes, rt) := Postgres.is_postgres_query m ptr size (request_type req) in
  let req := rq_set_type rt req in
  if yes then
    if request_type req =? Postgres.POSTGRES_FRAME_CLOSE
    then statement_close v m ptr size PROTOCOL_POSTGRES cid conn (put_req v req s)
    else track PROTOCOL_POSTGRES k req
  else if Redis.is_redis_query m ptr size then track PROTOCOL_REDIS k req
  else if Memcached.is_memcached_query m ptr size then track PROTOCOL_MEMCACHED k req
  else
  let '(yes, rt) := Mysql.is_mysql_query m ptr size (request_type req) in
  let req := rq_set_type rt req in
  if yes then
    if request_type req =? Mysql.MYSQL_COM_STMT_CLOSE
    then statement_close v m ptr size PROTOCOL_MYSQL cid conn (put_req v req s)
    else track PROTOCOL_MYSQL k req
  else if Mongo.is_mongo_query m ptr size then track PROTOCOL_MONGO k req
  else if Rabbitmq.is_rabbitmq_produce m ptr size
  then produce v PROTOCOL_RABBITMQ cid conn (put_req v req s)
  else if Nats.nats_method m ptr size =? METHOD_PRODUCE
  then produce v PROTOCOL_NATS cid conn (put_req v req s)
  else
  let '(yes, sid) := Cassandra.is_cassandra_request m ptr size (k_stream_id k) in
  let k := L7RequestKey (k_fd k) (k_pid k) (k_is_tls k) sid in
  if yes then track PROTOCOL_CASSANDRA k req
  else if Http2.looks_like_http2_frame m ptr size METHOD_HTTP2_CLIENT_FRAMES
  then
    let s := put_req v req s in
    http2_frames v m ptr size METHOD_HTTP2_CLIENT_FRAMES
      (percpu l7_event_zero (cpu v) (l7_event_heap s)) cid conn s
  else if Clickhouse.is_clickhouse_query m ptr size then track PROTOCOL_CLICKHOUSE k req
  else if Zookeeper.is_zk_request m ptr total_size then track PROTOCOL_ZOOKEEPER k req
  else
  let '(yes, rid) := Kafka.is_kafka_request m ptr size (request_id req) in
  let req := rq_set_id rid req in
  if yes then
    let req :=
      match requests s !! k with
      | Some prev_req =>
          if protocol prev_req =? PROTOCOL_KAFKA then rq_set_ns (ns prev_req) req else req
      | None => req
      end in
    track PROTOCOL_KAFKA k req
  else if Dubbo2.is_dubbo2_request m ptr size then track PROTOCOL_DUBBO2 k req
  else
  let '(yes, sid) := Dns.is_dns_request m ptr size (k_stream_id k) in
  let k := L7RequestKey (k_fd k) (k_pid k) (k_is_tls k) sid in
  if yes then track PROTOCOL_DNS k req
  else if Fdb.is_foundationdb_request m ptr size then track PROTOCOL_FOUNDATIONDB k req
  else put_req v req s.

Definition trace_enter_write (v : env) (fd is_tls buf size iovlen : Z) (s : st) : st :=
  let cid := ConnectionId fd (tgid v) in
  let? conn := connections s !! cid else s in
  let '(m, ptr, size, total_size, s) :=
    if negb (iovlen =? 0) then gather v buf iovlen 0 s
    else (memory v, buf, size, size, s) in
  if size =? 0 then s
  else
  let s := if is_tls =? 0 then set_connections (alter (add_sent total_size) cid) s else s in
  let req := percpu l7_request_zero (cpu v) (l7_request_heap s) in
  let req := L7Request 0 PROTOCOL_UNKNOWN 0 (request_type req) 0 size (payload req) in
  let k := L7RequestKey (cid_fd cid) (cid_pid cid) is_tls (-1) in
  classify_write v m ptr size total_size cid conn k req s.

(** ** trace_enter_read *)

Definition trace_enter_read (v : env) (id pid fd buf ret iovlen : Z) (s : st) : st :=
  let cid := ConnectionId fd pid in
  let? _ := connections s !! cid else s in
  let args := ReadArgs fd buf ret iovlen in
  set_reads (fun m => (lru_update (lru_reads v) BPF_ANY id args m).2) s.

(** ** trace_exit_read *)

(** [bpf_map_delete_elem(&active_l7_requests, &k)] and the report of a response. *)
Definition respond (v : env) (response : bool) (cid : connection_id) (conn : connection)
  (k : l7_request_key) (req : l7_request) (e : l7_event) (s : st) : st :=
  let s := set_requests (delete k) s in
  if negb response then put_event v e s
  else
  let e := ev_set_duration (u64 (ktime v 0 - ns req)) e in
  send_event v e cid conn s.

(** A partial response: the request stays, marked as such. *)
Definition keep_partial (v : env) (k : l7_request_key) (req : l7_request) (e : l7_event)
  (s : st) : st :=
  put_event v e (set_requests (insert k (rq_set_partial 1 req)) s).

(** From [e->protocol = req->protocol] on: the pending request [req] decides how
    the payload is read as its response. *)
Definition match_response (v : env) (m : mem) (ptr ret total_size : Z)
  (cid : connection_id) (conn : connection) (k : l7_request_key) (req : l7_request)
  (response : bool) (e : l7_event) (s : st) : st :=
  let e := ev_set_protocol (protocol req) e in
  let e := ev_set_payload_size (payload_size req) e in
  let req := rq_set_payload_size (TRUNCATE_PAYLOAD_SIZE (payload_size req)) req in
  let s := set_requests (insert k req) s in
  let e := ev_set_payload
             (write_at 0 (take (Z.to_nat (payload_size req)) (payload req)) (e_payload e)) e in
  let finish (response : bool) (e : l7_event) := respond v response cid conn k req e s in
  if e_protocol e =? PROTOCOL_HTTP then
    let '(response, status) := Http.is_http_response m ptr (e_status e) in
    finish response (ev_set_status status e)
  else if e_protocol e =? PROTOCOL_POSTGRES then
    let '(response, status) := Postgres.is_postgres_response m ptr ret (e_status e) in
    let e := ev_set_status status e in
    finish response
      (if request_type req =? Postgres.POSTGRES_FRAME_PARSE
       then ev_set_method METHOD_STATEMENT_PREPARE e else e)
  else if e_protocol e =? PROTOCOL_REDIS then
    let '(response, status) := Redis.is_redis_response m ptr ret (e_status e) in
    finish response (ev_set_status status e)
  else if e_protocol e =? PROTOCOL_MEMCACHED then
    let '(response, status) := Memcached.is_memcached_response m ptr ret (e_status e) in
    finish response (ev_set_status status e)
  else if e_protocol e =? PROTOCOL_MYSQL then
    let '(response, statement_id, status) :=
      Mysql.is_mysql_response m ptr ret (request_type req) (e_statement_id e) (e_status e) in
    let e := ev_set_status status (ev_set_statement_id statement_id e) in
    finish response
      (if request_type req =? Mysql.MYSQL_COM_STMT_PREPARE
       then ev_set_method METHOD_STATEMENT_PREPARE e else e)
  else if e_protocol e =? PROTOCOL_MONGO then
    let response := Mongo.is_mongo_response m ptr ret (partial req) in
    if response =? 2 then keep_partial v k req e s
    else finish (negb (response =? 0)) e
  else if e_protocol e =? PROTOCOL_KAFKA then
    finish (Kafka.is_kafka_response m ptr (request_id req)) e
  else if e_protocol e =? PROTOCOL_CLICKHOUSE then
    let '(response, status) := Clickhouse.is_clickhouse_response m ptr (e_status e) in
    let e := ev_set_status status e in
    if negb response then put_event v e s
    else finish response e
  else if e_protocol e =? PROTOCOL_ZOOKEEPER then
    let '(response, status) :=
      Zookeeper.is_zk_response m ptr total_size (e_status e) (partial req) in
    let e := ev_set_status status e in
    if response =? 2 then keep_partial v k req e s
    else finish (negb (response =? 0)) e
  else if e_protocol e =? PROTOCOL_DUBBO2 then
    let '(response, status) := Dubbo2.is_dubbo2_response m ptr (e_status e) in
    finish response (ev_set_status status e)
  else if e_protocol e =? PROTOCOL_FOUNDATIONDB then
    let '(response, status) := Fdb.is_foundationdb_response m ptr ret (e_status e) in
    let e := ev_set_status status e in
    if response =? 2 then put_event v e s
    else finish (negb (response =? 0)) e
  else finish response e.

(** The messages read without a pending request on the connection's own key:
    DNS and Cassandra responses find theirs by stream, HTTP/2 needs none. *)
Definition unsolicited (v : env) (m : mem) (ptr ret total_size : Z)
  (cid : connection_id) (conn : connection) (k : l7_request_key) (e : l7_event) (s : st) : st :=
  let '(yes, sid, status) := Dns.is_dns_response m ptr ret (k_stream_id k) (e_status e) in
  let k := L7RequestKey (k_fd k) (k_pid k) (k_is_tls k) sid in
  let e := ev_set_status status e in
  if yes then
    let? req := requests s !! k else put_event v e s in
    let e := ev_set_protocol PROTOCOL_DNS e in
    let e := ev_set_duration (u64 (ktime v 0 - ns req)) e in
    let e := ev_set_payload_size ret e in
    let '(ok, buf) := COPY_PAYLOAD m (e_payload e) ret ptr in
    let e := ev_set_payload buf e in
    if ok then set_requests (delete k) (send_event v e cid conn s)
    else put_event v e s
  else
  let '(yes, sid, status) :=
    Cassandra.is_cassandra_response m ptr ret (k_stream_id k) (e_status e) in
  let k := L7RequestKey (k_fd k) (k_pid k) (k_is_tls k) sid in
  let e := ev_set_status status e in
  if yes then
    let? req := requests s !! k else put_event v e s in
    match_response v m ptr ret total_size cid conn k req true e s
  else if Http2.looks_like_http2_frame m ptr ret METHOD_HTTP2_SERVER_FRAMES
  then http2_frames v m ptr ret METHOD_HTTP2_SERVER_FRAMES e cid conn s
  else put_event v e s.

(** From the reset of the event on: [ret] bytes were read at [ptr]. *)
Definition classify_read (v : env) (m : mem) (ptr ret total_size : Z)
  (cid : connection_id) (conn : connection) (k : l7_request_key) (s : st) : st :=
  let e := percpu l7_event_zero (cpu v) (l7_event_heap s) in
  let e := ev_set_protocol PROTOCOL_UNKNOWN e in
  let e := ev_set_status STATUS_UNKNOWN e in
  let e := ev_set_method METHOD_UNKNOWN e in
  let e := ev_set_statement_id 0 e in
  let e := ev_set_payload_size 0 e in
  if Rabbitmq.is_rabbitmq_consume m ptr ret
  then send_event v (ev_set_method METHOD_CONSUME (ev_set_protocol PROTOCOL_RABBITMQ e)) cid conn s
  else if Nats.nats_method m ptr ret =? METHOD_CONSUME
  then send_event v (ev_set_method METHOD_CONSUME (ev_set_protocol PROTOCOL_NATS e)) cid conn s
  else
  match requests s !! k with
  | Some req => match_response v m ptr ret total_size cid conn k req false e s
  | None => unsolicited v m ptr ret total_size cid conn k e s
  end.

Definition trace_exit_read (v : env) (id pid is_tls ret : Z) (s : st) : st :=
  let? args := active_reads s !! id else s in
  let cid := ConnectionId (ra_fd args) pid in
  let? conn := connections s !! cid else set_reads (delete id) s in
  let k := L7RequestKey (cid_fd cid) (cid_pid cid) is_tls (-1) in
  let s := set_reads (delete id) s in
  if ret <=? 0 then s
  else
  let? ret :=
    (if negb (ra_ret args =? 0) then s64 <$> read_u64 (memory v) (ra_ret args)
     else Some ret) else s in
  if ret <=? 0 then s
  else
  let '(m, ptr, ret, total_size, s) :=
    if negb (ra_iovlen args =? 0) then gather v (ra_buf args) (ra_iovlen args) ret s
    else (memory v, ra_buf args, ret, ret, s) in
  if ret =? 0 then s
  else
  let s := if is_tls =? 0 then set_connections (alter (add_received total_size) cid) s else s in
  classify_read v m ptr ret total_size cid conn k s.

(** ** The system call hooks *)

(** The context of the read and write tracepoints. *)
Record rw_args := RwArgs { rw_fd : Z; rw_buf : Z; rw_size : Z }.

(** [struct user_msghdr] (56 bytes): the fields the hooks use. *)
Definition msghdr_size : nat := 56.
Definition msg_iov (bs : list Z) : Z := field bs 16 8.
Definition msg_iovlen (bs : list Z) : Z := field bs 24 8.

Definition sys_enter_write (v : env) (ctx : rw_args) (s : st) : st :=
  trace_enter_write v (rw_fd ctx) 0 (rw_buf ctx) (rw_size ctx) 0 s.

Definition sys_enter_writev (v : env) (ctx : rw_args) (s : st) : st :=
  trace_enter_write v (rw_fd ctx) 0 (rw_buf ctx) 0 (rw_size ctx) s.

Definition sys_enter_sendmsg (v : env) (ctx : rw_args) (s : st) : st :=
  let? msghdr := probe_read (memory v) (rw_buf ctx) msghdr_size else s in
  trace_enter_write v (rw_fd ctx) 0 (msg_iov msghdr) 0 (msg_iovlen msghdr) s.

(** [sizeof(struct mmsghdr)]: the header, [msg_len] and its padding. *)
Definition mmsghdr_size : nat := 64.

Fixpoint sendmmsg_loop (n : nat) (i : Z) (v : env) (ctx : rw_args) (offset : Z) (s : st) : st :=
  match n with
  | O => s
  | S n =>
      if rw_size ctx <=? i then s
      else
      let? h := probe_read (memory v) (rw_buf ctx + offset) mmsghdr_size else s in
      let offset := offset + Z.of_nat mmsghdr_size in
      let s := trace_enter_write v (rw_fd ctx) 0 (msg_iov h) 0 (msg_iovlen h) s in
      sendmmsg_loop n (i + 1) (later 1 v) ctx offset s
  end.

Definition sys_enter_sendmmsg (v : env) (ctx : rw_args) (s : st) : st :=
  sendmmsg_loop 2 0 v ctx 0 s.

Definition sys_enter_sendto (v : env) (ctx : rw_args) (s : st) : st :=
  trace_enter_write v (rw_fd ctx) 0 (rw_buf ctx) (rw_size ctx) 0 s.

Definition sys_enter_read (v : env) (ctx : rw_args) (s : st) : st :=
  trace_enter_read v (pid_tgid v) (tgid v) (rw_fd ctx) (rw_buf ctx) 0 0 s.

Definition sys_enter_readv (v : env) (ctx : rw_args) (s : st) : st :=
  trace_enter_read v (pid_tgid v) (tgid v) (rw_fd ctx) (rw_buf ctx) 0 (rw_size ctx) s.

Definition sys_enter_recvmsg (v : env) (ctx : rw_args) (s : st) : st :=
  let? msghdr := probe_read (memory v) (rw_buf ctx) msghdr_size else s in
  trace_enter_read v (pid_tgid v) (tgid v) (rw_fd ctx) (msg_iov msghdr) 0 (msg_iovlen msghdr) s.

Definition sys_enter_recvfrom (v : env) (ctx : rw_args) (s : st) : st :=
  trace_enter_read v (pid_tgid v) (tgid v) (rw_fd ctx) (rw_buf ctx) 0 0 s.

Definition sys_exit_read (v : env) (ret : Z) (s : st) : st :=
  trace_exit_read v (pid_tgid v) (tgid v) 0 ret s.
Definition sys_exit_readv (v : env) (ret : Z) (s : st) : st :=
  trace_exit_read v (pid_tgid v) (tgid v) 0 ret s.
Definition sys_exit_recvmsg (v : env) (ret : Z) (s : st) : st :=
  trace_exit_read v (pid_tgid v) (tgid v) 0 ret s.
Definition sys_exit_recvfrom (v : env) (ret : Z) (s : st) : st :=
  trace_exit_read v (pid_tgid v) (tgid v) 0 ret s.

End L7.
