(* ===== verification/L7Spec.v ===== *)
(** * Correctness of the L7 tracking

    The theorems on l7/l7.c: what a run of the write and the read hook may change
    and report, the gathering of vectored buffers, the pairing of requests with
    responses, and the byte counters of a connection. *)

From S2P Require Import Prelude L7Base ProtoText ProtoSql ProtoBin Foundationdb Types Tcp L7.

Module L7Spec.
Import L7.

(** ** The ways a run can end *)

(** [k'] is a key of the connection of [k]: the stream may differ. *)
Definition same_conn (k k' : l7_request_key) : Prop :=
  k_fd k' = k_fd k /\ k_pid k' = k_pid k /\ k_is_tls k' = k_is_tls k.

(** [r'] is the request [r] the write hook prepared: the protocol tests only set
    its type, its id and, for Kafka, its time. *)
Definition prepared (r r' : l7_request) : Prop :=
  partial r' = partial r /\ payload_size r' = payload_size r /\ payload r' = payload r /\
  protocol r' = protocol r.

Definition is_protocol (p : Z) : Prop := PROTOCOL_HTTP <= p <= PROTOCOL_FOUNDATIONDB.

(** What the tests found at [ptr] before the protocol [p] was chosen (as far as the
    packets of MySQL go). *)
Definition recognised (m : mem) (ptr size p : Z) : Prop :=
  p = PROTOCOL_MYSQL -> exists rt, (Mysql.is_mysql_query m ptr size rt).1 = true.

Create HintDb l7.

(** A property of every way the chain of protocol tests of [trace_enter_write]
    can end holds of its result. *)
Lemma classify_write_cases v m ptr size total_size cid conn k req s (P : st -> Prop) :
  (forall p k' req', is_protocol p -> recognised m ptr size p -> same_conn k k' -> prepared req req' ->
     P (track_request v m ptr size k' (rq_set_protocol p req') s)) ->
  (forall p req', is_protocol p -> recognised m ptr size p -> prepared req req' ->
     P (statement_close v m ptr size p cid conn (put_req v req' s))) ->
  (forall p req', is_protocol p -> p <> PROTOCOL_MYSQL -> prepared req req' ->
     P (produce v p cid conn (put_req v req' s))) ->
  (forall req', prepared req req' ->
     P (http2_frames v m ptr size METHOD_HTTP2_CLIENT_FRAMES
          (percpu l7_event_zero (cpu v) (l7_event_heap s)) cid conn (put_req v req' s))) ->
  (forall req', prepared req req' -> P (put_req v req' s)) ->
  P (classify_write v m ptr size total_size cid conn k req s).
Proof.
  intros Ht Hc Hp Hh Hn. unfold classify_write. cbv zeta.
  repeat first
    [ lazymatch goal with
      | |- P (let '(_, _) := Mysql.is_mysql_query ?m ?a ?n ?rt in _) =>
          destruct (Mysql.is_mysql_query m a n rt) as [[] ?] eqn:Emysql; cbn iota
      end
    | branch P ];
    lazymatch goal with
    | |- P (track_request _ _ _ _ _ _ _) => apply Ht
    | |- P (statement_close _ _ _ _ _ _ _ _) => apply Hc
    | |- P (produce _ _ _ _ _) => apply Hp
    | |- P (http2_frames _ _ _ _ _ _ _ _ _) => apply Hh
    | |- P (put_req _ _ _) => apply Hn
    end;
    lazymatch goal with
    | |- is_protocol _ => split; vm_compute; discriminate
    | |- recognised _ _ _ _ => intros E; first [by vm_compute in E|by eexists; rewrite Emysql]
    | |- _ <> _ => vm_compute; discriminate
    | |- same_conn _ _ => repeat split
    | |- prepared _ _ => try (destruct (requests s !! _); [apply if_both|]); repeat split
    end.
Qed.

(** The event of a response: protocol and payload of the request [r], the rest
    from the event [e] under construction. *)
Definition answers (r : l7_request) (e e' : l7_event) : Prop :=
  e_protocol e' = protocol r /\ e_payload_size e' = payload_size r /\
  e_payload e' = write_at 0 (take (Z.to_nat (TRUNCATE_PAYLOAD_SIZE (payload_size r))) (payload r))
                   (e_payload e).

(** The request as it stands in the map while its response is examined. *)
Definition truncated (r : l7_request) : l7_request :=
  rq_set_payload_size (TRUNCATE_PAYLOAD_SIZE (payload_size r)) r.

Lemma match_response_cases v m ptr ret total_size cid conn k req resp e s (P : st -> Prop) :
  let s1 := set_requests (insert k (truncated req)) s in
  (forall b e', answers req e e' -> P (respond v b cid conn k (truncated req) e' s1)) ->
  (forall e', answers req e e' -> P (keep_partial v k (truncated req) e' s1)) ->
  (forall e', answers req e e' -> P (put_event v e' s1)) ->
  P (match_response v m ptr ret total_size cid conn k req resp e s).
Proof.
  intros s1 Hr Hk Hp. unfold match_response. cbv zeta.
  repeat branch P;
    lazymatch goal with
    | |- P (respond _ _ _ _ _ _ _ _) => apply Hr
    | |- P (keep_partial _ _ _ _ _) => apply Hk
    | |- P (put_event _ _ _) => apply Hp
    end; try apply if_both; repeat split.
Qed.

Lemma unsolicited_cases v m ptr ret total_size cid conn k e s (P : st -> Prop) :
  (forall e', e_payload e' = e_payload e -> P (put_event v e' s)) ->
  (forall k' r e' buf, same_conn k k' -> requests s !! k' = Some r -> e_protocol e' = PROTOCOL_DNS ->
     COPY_PAYLOAD m (e_payload e) ret ptr = (true, buf) ->
     P (set_requests (delete k') (send_event v (ev_set_payload buf e') cid conn s))) ->
  (forall e' buf, COPY_PAYLOAD m (e_payload e) ret ptr = (false, buf) ->
     P (put_event v (ev_set_payload buf e') s)) ->
  (forall k' r e', same_conn k k' -> requests s !! k' = Some r -> e_payload e' = e_payload e ->
     P (match_response v m ptr ret total_size cid conn k' r true e' s)) ->
  (forall e', e_payload e' = e_payload e ->
     P (http2_frames v m ptr ret METHOD_HTTP2_SERVER_FRAMES e' cid conn s)) ->
  P (unsolicited v m ptr ret total_size cid conn k e s).
Proof.
  intros Hp Hd Hf Hm Hh. unfold unsolicited. cbv zeta.
  destruct (Dns.is_dns_response _ _ _ _ _) as [[[] sid] st].
  - branch P; [|by apply Hp]. destruct (COPY_PAYLOAD _ _ _ _) as [[] buf] eqn:E.
    + by eapply Hd.
    + by apply Hf.
  - destruct (Cassandra.is_cassandra_response _ _ _ _ _) as [[[] sid'] st'].
    + branch P; [|by apply Hp]. by eapply Hm.
    + branch P; [by apply Hh|by apply Hp].
Qed.

(** ** What a run may change *)

(** The event names the connection it was observed on. *)
Definition names (cid : connection_id) (conn : connection) (e : l7_event) : Prop :=
  e_fd e = cid_fd cid /\ e_pid e = cid_pid cid /\ e_connection_timestamp e = timestamp conn.

(** Of the TCP state only the pending requests of the connection change, nothing
    of the pending reads, and at most one event is reported. *)
Record effect (cid : connection_id) (conn : connection) (s s' : st) : Prop := {
  eff_tcp : tcp s' = Tcp.set_requests (fun _ => requests s') (tcp s);
  eff_reads : active_reads s' = active_reads s;
  eff_events : l7_events s' = l7_events s \/
               exists e, names cid conn e /\ l7_events s' = l7_events s ++ [e];
  eff_requests k r : (k_fd k, k_pid k) <> (cid_fd cid, cid_pid cid) ->
                     requests s' !! k = Some r -> requests s !! k = Some r
}.

Definition key_of (cid : connection_id) (k : l7_request_key) : Prop :=
  k_fd k = cid_fd cid /\ k_pid k = cid_pid cid.

Lemma key_of_ne cid k k' :
  key_of cid k -> (k_fd k', k_pid k') <> (cid_fd cid, cid_pid cid) -> k <> k'.
Proof. intros [Hf Hp] Hne ->. apply Hne. congruence. Qed.
Lemma key_of_same cid k k' : key_of cid k -> same_conn k k' -> key_of cid k'.
Proof. unfold key_of, same_conn. intuition congruence. Qed.

Section effect.
Context (v : env) (cid : connection_id) (conn : connection).

Lemma effect_refl s : effect cid conn s s.
Proof. split; auto. by destruct s as [[]]. Qed.

Lemma effect_put_event e s s' : effect cid conn s s' -> effect cid conn s (put_event v e s').
Proof. by intros []; split. Qed.
Lemma effect_put_req r s s' : effect cid conn s s' -> effect cid conn s (put_req v r s').
Proof. by intros []; split. Qed.
Lemma effect_put_req_l r s s' : effect cid conn (put_req v r s) s' -> effect cid conn s s'.
Proof. by intros []; split. Qed.

Lemma effect_set_requests f s s' :
  (forall k r, (k_fd k, k_pid k) <> (cid_fd cid, cid_pid cid) ->
     f (requests s') !! k = Some r -> requests s' !! k = Some r) ->
  effect cid conn s s' -> effect cid conn s (set_requests f s').
Proof.
  intros Hf [Ht Hr He Hq]. split; [|done|done|].
  - cbn. rewrite Ht. by destruct (tcp s').
  - intros k r Hk H. by apply Hq, Hf.
Qed.

Lemma effect_delete k s s' :
  effect cid conn s s' -> effect cid conn s (set_requests (delete k) s').
Proof.
  apply effect_set_requests. intros k' r _ H. by apply lookup_delete_Some in H as [_ ?].
Qed.

Lemma effect_insert k r s s' :
  key_of cid k -> effect cid conn s s' -> effect cid conn s (set_requests (insert k r) s').
Proof.
  intros Hk. apply effect_set_requests. intros k' r' Hk' H.
  by rewrite lookup_insert_ne in H by (eapply key_of_ne; eauto).
Qed.

(** Reporting: once, from a state where nothing was reported yet. *)
Lemma effect_send e s s' :
  l7_events s' = l7_events s -> effect cid conn s s' ->
  effect cid conn s (send_event v e cid conn s').
Proof.
  intros Hs [Ht Hr He Hq]. split; [done|done| |done].
  right. eexists. split; [|by cbn; rewrite Hs]. done.
Qed.
End effect.

#[local] Hint Resolve effect_refl effect_put_event effect_put_req effect_delete effect_insert
  effect_send : l7.

Lemma track_request_effect v m ptr size cid conn k req s :
  key_of cid k -> effect cid conn s (track_request v m ptr size k req s).
Proof.
  intros Hk. unfold track_request. case_step; [eauto with l7|].
  destruct (COPY_PAYLOAD _ _ _ _) as [[] buf]; [|eauto with l7].
  apply effect_set_requests; [|eauto with l7]. intros k' r Hk' Hl.
  apply lru_update_lookup in Hl as [[-> _]|Hl]; [|done].
  by destruct (key_of_ne cid k k Hk Hk').
Qed.

Lemma statement_close_effect v m ptr size p cid conn s :
  effect cid conn s (statement_close v m ptr size p cid conn s).
Proof. unfold statement_close. destruct (COPY_PAYLOAD _ _ _ _) as [[] buf]; eauto with l7. Qed.

Lemma produce_effect v p cid conn s : effect cid conn s (produce v p cid conn s).
Proof. unfold produce. eauto with l7. Qed.

Lemma http2_frames_effect v m ptr size method e cid conn s :
  effect cid conn s (http2_frames v m ptr size method e cid conn s).
Proof. unfold http2_frames. destruct (COPY_PAYLOAD _ _ _ _) as [[] buf]; eauto with l7. Qed.

Lemma classify_write_effect v m ptr size total_size cid conn k req s :
  key_of cid k -> effect cid conn s (classify_write v m ptr size total_size cid conn k req s).
Proof.
  intros Hk. apply classify_write_cases.
  - intros p k' req' _ _ Hs _. by apply track_request_effect, (key_of_same cid k).
  - intros p req' _ _ _. eapply effect_put_req_l, statement_close_effect.
  - intros p req' _ _ _. eapply effect_put_req_l, produce_effect.
  - intros req' _. eapply effect_put_req_l, http2_frames_effect.
  - eauto with l7.
Qed.

Lemma match_response_effect v m ptr ret total_size cid conn k req resp e s :
  key_of cid k ->
  effect cid conn s (match_response v m ptr ret total_size cid conn k req resp e s).
Proof.
  intros Hk. apply match_response_cases; intros; [|unfold keep_partial; eauto with l7..].
  unfold respond. case_step; eauto with l7.
Qed.

Lemma classify_read_effect v m ptr ret total_size cid conn k s :
  key_of cid k -> effect cid conn s (classify_read v m ptr ret total_size cid conn k s).
Proof.
  intros Hk. unfold classify_read. cbv zeta.
  repeat branch (effect cid conn s); [eauto with l7..|by apply match_response_effect|].
  apply unsolicited_cases; intros; eauto with l7.
  - by apply match_response_effect, (key_of_same cid k).
  - apply http2_frames_effect.
Qed.

(** *** A run of a hook *)

(** What a run of a hook on the connection [cid] may do: count bytes on that
    connection, change the pending requests of that connection, and report at
    most one event, which names it. *)
Record run_effect (count : connection -> connection) (cid : connection_id) (conn : connection)
  (s s' : st) : Prop := {
  run_tcp :
    tcp s' = Tcp.set_requests (fun _ => requests s') (tcp s) \/
    tcp s' = Tcp.set_requests (fun _ => requests s')
               (Tcp.set_connections (alter count cid) (tcp s));
  run_events :
    l7_events s' = l7_events s \/ exists e, names cid conn e /\ l7_events s' = l7_events s ++ [e];
  run_requests k r :
    (k_fd k, k_pid k) <> (cid_fd cid, cid_pid cid) ->
    requests s' !! k = Some r -> requests s !! k = Some r
}.

(** Two states that differ in the buffers and the pending reads only. *)
Definition same_maps (s s' : st) : Prop := tcp s' = tcp s /\ l7_events s' = l7_events s.

Lemma run_effect_idle count cid conn s s' : same_maps s s' -> run_effect count cid conn s s'.
Proof.
  intros [Ht He]. unfold requests. split; [left|left|]; unfold requests; rewrite ?Ht; [|done..].
  by destruct (tcp s).
Qed.

Lemma run_effect_uncounted count cid conn s s1 s' :
  same_maps s s1 -> effect cid conn s1 s' -> run_effect count cid conn s s'.
Proof.
  intros [Ht Hev] [Et _ Ee Er]. unfold requests in *. rewrite Ht, Hev in *.
  split; [by left|done|done].
Qed.

Lemma run_effect_counted count cid conn s s1 s' :
  same_maps s s1 -> effect cid conn (set_connections (alter count cid) s1) s' ->
  run_effect count cid conn s s'.
Proof.
  intros [Ht Hev] [Et _ Ee Er]. cbn in *. unfold requests in *. rewrite Ht, Hev in *.
  split; [by right|done|done].
Qed.

(** The bytes a write is charged with. *)
Definition write_total (v : env) (buf size iovlen : Z) (s : st) : Z :=
  if negb (iovlen =? 0) then
    (read_iovec (memory v) buf iovlen 0 (percpu iovec_buf_zero (cpu v) (iovec_buf_heap s)) 0).2
  else size.

(** A write on a connection that is not tracked is ignored; otherwise it counts
    its size on that connection, changes the pending requests of that
    connection only, leaves the pending reads alone, and reports at most one
    event, which names that connection and its start time. *)
Lemma trace_enter_write_effect v fd is_tls buf size iovlen s :
  let cid := ConnectionId fd (tgid v) in
  let s' := trace_enter_write v fd is_tls buf size iovlen s in
  match connections s !! cid with
  | None => s' = s
  | Some conn =>
      run_effect (add_sent (write_total v buf size iovlen s)) cid conn s s'
      /\ active_reads s' = active_reads s
  end.
Proof.
  intros cid s'. unfold s', trace_enter_write. fold cid.
  destruct (connections s !! cid) as [conn|]; [|done].
  unfold write_total, gather.
  destruct (negb (iovlen =? 0)); [destruct (read_iovec _ _ _ _ _ _) as [[n h] total]|];
    cbn [fst snd]; case_step; try (split; [by apply run_effect_idle|done]);
    match goal with |- context [classify_write v ?m ?p ?n ?t cid conn ?k ?r ?s] =>
      pose proof (classify_write_effect v m p n t cid conn k r s (conj eq_refl eq_refl)) as He
    end; case_step; (split; [|apply (eff_reads _ _ _ _ He)]).
  - by eapply run_effect_counted, He.
  - by eapply run_effect_uncounted, He.
  - by eapply run_effect_counted, He.
  - by eapply run_effect_uncounted, He.
Qed.

(** The length a finished read reports, and the bytes it is charged with. *)
Definition read_length (v : env) (args : read_args) (ret : Z) : Z :=
  if negb (ra_ret args =? 0) then default 0 (s64 <$> read_u64 (memory v) (ra_ret args)) else ret.

Definition read_total (v : env) (args : read_args) (ret : Z) (s : st) : Z :=
  if negb (ra_iovlen args =? 0) then
    (read_iovec (memory v) (ra_buf args) (ra_iovlen args) (read_length v args ret)
       (percpu iovec_buf_zero (cpu v) (iovec_buf_heap s)) 0).2
  else read_length v args ret.

(** The end of a read that was not noted at its start is ignored; otherwise the
    note is removed whatever the read returned, and on a connection still tracked the
    run counts the bytes received on that connection, changes the pending
    requests of that connection only, and reports at most one event, which names
    that connection and its start time. *)
Lemma trace_exit_read_effect v id pid is_tls ret s :
  let s' := trace_exit_read v id pid is_tls ret s in
  match active_reads s !! id with
  | None => s' = s
  | Some args =>
      let cid := ConnectionId (ra_fd args) pid in
      active_reads s' = delete id (active_reads s) /\
      match connections s !! cid with
      | None => same_maps s s'
      | Some conn => run_effect (add_received (read_total v args ret s)) cid conn s s'
      end
  end.
Proof.
  intros s'. unfold s', trace_exit_read.
  destruct (active_reads s !! id) as [args|]; [|done]. cbv zeta.
  set (cid := ConnectionId (ra_fd args) pid).
  destruct (connections s !! cid) as [conn|]; [|done].
  case_step; [split; [done|by apply run_effect_idle]|].
  unfold read_total, read_length.
  destruct (if negb (ra_ret args =? 0) then _ else Some ret) as [len|] eqn:Hlen;
    [|split; [done|by apply run_effect_idle]].
  assert ((if negb (ra_ret args =? 0) then default 0 (s64 <$> read_u64 (memory v) (ra_ret args))
           else ret) = len) as -> by (case_step_in Hlen; [by rewrite Hlen|congruence]).
  case_step; [split; [done|by apply run_effect_idle]|].
  unfold gather. cbn [iovec_buf_heap set_reads].
  destruct (negb (ra_iovlen args =? 0)); [destruct (read_iovec _ _ _ _ _ _) as [[n h] total]|];
    cbn [fst snd]; case_step; try (split; [done|by apply run_effect_idle]);
    match goal with |- context [classify_read v ?m ?p ?n ?t cid conn ?k ?s] =>
      pose proof (classify_read_effect v m p n t cid conn k s (conj eq_refl eq_refl)) as He
    end; case_step; (split; [apply (eff_reads _ _ _ _ He)|]).
  - by eapply run_effect_counted, He.
  - by eapply run_effect_uncounted, He.
  - by eapply run_effect_counted, He.
  - by eapply run_effect_uncounted, He.
Qed.

(** ** Vectored buffers *)

(** Conversion unfolds [read_iovec] before the loop it runs 32 times. *)
#[local] Strategy 100 [read_iovec_loop].

Lemma read_iovec_loop_bounds n i m iovec iovlen max buf offset total n' buf' total' :
  read_iovec_loop n i m iovec iovlen max buf offset total = (n', buf', total') ->
  0 <= offset <= max -> max <= 1024 -> length buf = Z.to_nat IOVEC_BUF_SIZE ->
  0 <= n' <= max /\ length buf' = Z.to_nat IOVEC_BUF_SIZE.
Proof.
  assert (Z.to_nat IOVEC_BUF_SIZE = 2048)%nat as -> by done.
  revert i buf offset total. induction n as [|n IH]; intros i buf offset total; cbn [read_iovec_loop].
  { intros [= <- <- <-]. lia. }
  destruct (iovlen <=? i); [intros [= <- <- <-]; lia|].
  destruct (probe_read m (iovec + i * 16) 16) as [l|] eqn:R0; [|intros [= <- <- <-]; lia].
  cbv zeta. destruct (field l 8 8 <=? 0); [eauto|].
  destruct (Z.ltb_spec offset max); [|eauto].
  assert (0 <= field l 8 8) as Hsz by (by eapply field_range).
  intros Hrun Ho Hm Hb.
  pose proof (TRUNCATE_PAYLOAD_SIZE_range (Z.min (field l 8 8) (max - offset))).
  rewrite !TRUNCATE_PAYLOAD_SIZE_min in * by lia.
  destruct (probe_read m (field l 0 8) _) as [bs|] eqn:R.
  - pose proof (probe_read_length _ _ _ _ R). eapply IH; [exact Hrun|lia|lia|].
    rewrite write_at_length; lia.
  - injection Hrun as <- <- <-. split; [lia|].
    rewrite write_at_length; unfold zeros; rewrite ?length_replicate; lia.
Qed.

Lemma read_iovec_length m iovec iovlen ret buf total n buf' total' :
  0 <= ret -> length buf = Z.to_nat IOVEC_BUF_SIZE ->
  read_iovec m iovec iovlen ret buf total = (n, buf', total') ->
  length buf' = Z.to_nat IOVEC_BUF_SIZE.
Proof.
  intros Hret Hb H. unfold read_iovec in H.
  apply read_iovec_loop_bounds in H; [apply H|unfold MAX_PAYLOAD_SIZE; case_step; lia..|done].
Qed.

(** Gathering never writes outside the buffer of the CPU and returns at most the
    number of bytes read, and at most 1024. *)
Theorem read_iovec_bounds m iovec iovlen ret buf total n buf' total' :
  0 <= ret -> length buf = Z.to_nat IOVEC_BUF_SIZE ->
  read_iovec m iovec iovlen ret buf total = (n, buf', total') ->
  0 <= n <= MAX_PAYLOAD_SIZE /\ (0 < ret -> n <= ret) /\
  length buf' = Z.to_nat IOVEC_BUF_SIZE.
Proof.
  intros Hret Hb H. unfold read_iovec in H.
  apply read_iovec_loop_bounds in H; [|unfold MAX_PAYLOAD_SIZE; case_step; lia..|done].
  unfold MAX_PAYLOAD_SIZE in *.
  destruct (Z.eqb_spec ret 0); cbn [negb] in H; split_and!; try lia; tauto.
Qed.

(** The memory at [iovec] describes the buffers [segs], from index [i] on. *)
Fixpoint iov_at (m : mem) (iovec i : Z) (segs : list (list Z)) : Prop :=
  match segs with
  | [] => True
  | seg :: segs =>
      (exists iov, probe_read m (iovec + i * 16) 16 = Some iov /\
         field iov 8 8 = Z.of_nat (length seg) /\
         probe_read m (field iov 0 8) (length seg) = Some seg) /\
      iov_at m iovec (i + 1) segs
  end.

(** [offset] bytes of [pre] are in [buf]: all of it up to [max], but for the byte
    at index 1023 when a buffer of 1024 bytes or more was cut there. *)
Definition gathered (max offset : Z) (buf pre : list Z) : Prop :=
  0 <= offset <= Z.min (Z.of_nat (length pre)) max /\
  Z.min offset 1023 = Z.min (Z.min (Z.of_nat (length pre)) max) 1023 /\
  take (Z.to_nat (Z.min offset 1023)) buf = take (Z.to_nat (Z.min offset 1023)) pre.

Lemma gathered_full max offset buf pre seg :
  max <= offset -> gathered max offset buf pre -> gathered max offset buf (pre ++ seg).
Proof.
  intros Hm (Ho & Hmin & Ht). unfold gathered. rewrite length_app. split_and!; try lia.
  rewrite Ht. by rewrite take_app_le by lia.
Qed.

Lemma gathered_step max offset buf pre seg :
  offset < max -> max <= 1024 -> length buf = 2048%nat -> gathered max offset buf pre ->
  let size := Z.min (Z.min (Z.of_nat (length seg)) (max - offset)) 1023 in
  gathered max (offset + size)
    (write_at (Z.to_nat offset) (take (Z.to_nat size) seg) buf) (pre ++ seg).
Proof.
  intros Hm Hmax Hb (Ho & Hmin & Ht) size. unfold gathered. rewrite length_app.
  assert (length (take (Z.to_nat size) seg) = Z.to_nat size) as Hl
    by (rewrite length_take; unfold size; lia).
  destruct (Z.lt_ge_cases offset 1023) as [Hlt|Hge].
  - assert (Z.of_nat (length pre) = offset) as Hp by lia.
    rewrite (Z.min_l offset) in Ht by lia.
    split_and!; [unfold size; lia..|].
    assert (take (Z.to_nat (offset + size)) (write_at (Z.to_nat offset) (take (Z.to_nat size) seg) buf)
            = pre ++ take (Z.to_nat size) seg) as Hw.
    { replace (Z.to_nat (offset + size)) with (Z.to_nat offset + length (take (Z.to_nat size) seg))%nat
        by (rewrite Hl; unfold size; lia).
      rewrite take_write_at, Ht, take_ge by lia. done. }
    replace (Z.to_nat (Z.min (offset + size) 1023))
      with (Z.to_nat (Z.min (offset + size) 1023) `min` Z.to_nat (offset + size))%nat by lia.
    rewrite <-(take_take (write_at _ _ _)), Hw.
    rewrite !take_app, take_take.
    assert (0 <= size) as Hs by (unfold size; lia). clearbody size. clear - Hp Hs.
    do 2 f_equal; lia.
  - assert (offset = 1023 /\ max = 1024) as [-> ->] by lia.
    assert (Z.min (1023 + size) 1023 = 1023) as -> by (unfold size; lia).
    split_and!; [unfold size; lia..|].
    unfold write_at. rewrite take_app_le by (rewrite length_take; lia).
    rewrite take_take, Nat.min_id. change (Z.min 1023 1023) with 1023 in Ht. rewrite Ht.
    by rewrite take_app_le by lia.
Qed.

Lemma read_iovec_loop_gathers n i m iovec max segs buf offset total pre :
  (length segs <= n)%nat -> 0 <= max <= 1024 -> iov_at m iovec i segs ->
  length buf = 2048%nat -> gathered max offset buf pre -> u64 total = total ->
  exists n' buf',
    read_iovec_loop n i m iovec (i + Z.of_nat (length segs)) max buf offset total
      = (n', buf', u64 (total + Z.of_nat (length (concat segs))))
    /\ gathered max n' buf' (pre ++ concat segs).
Proof.
  revert i buf offset total pre segs.
  induction n as [|n IH]; intros i buf offset total pre [|seg segs] Hn Hmax; cbn [length] in Hn;
    try lia; intros Hiov Hb Hg Ht.
  - exists offset, buf. cbn. by rewrite Z.add_0_r, Ht, app_nil_r.
  - exists offset, buf. cbn. rewrite Z.add_0_r, Z.leb_refl, app_nil_r. by rewrite Z.add_0_r, Ht.
  - destruct Hiov as [(iov & R & Hlen & Rb) Hiov]. cbn [concat read_iovec_loop length].
    rewrite (proj2 (Z.leb_gt _ _)) by lia. rewrite R, Hlen. cbv zeta.
    replace (i + Z.of_nat (S (length segs))) with (i + 1 + Z.of_nat (length segs)) by lia.
    rewrite length_app, Nat2Z.inj_add, Z.add_assoc, app_assoc.
    destruct (Z.leb_spec (Z.of_nat (length seg)) 0) as [H0|H0].
    { destruct seg; [|cbn in H0; lia]. cbn [length]. rewrite Z.add_0_r, app_nil_r.
      apply IH; [lia|done..]. }
    rewrite <-(u64_add_l (total + Z.of_nat (length seg))).
    destruct (Z.ltb_spec offset max) as [Hlt|Hge].
    + destruct Hg as [Ho Hg]. pose proof (gathered_step max offset buf pre seg Hlt (proj2 Hmax) Hb
        (conj Ho Hg)) as Hg'. cbv zeta in Hg'.
      rewrite !TRUNCATE_PAYLOAD_SIZE_min by lia. rewrite (Z.min_l offset) by lia.
      erewrite probe_read_take by (exact Rb || lia).
      apply IH; [lia|done|done| |done|apply u64_idemp].
      rewrite write_at_length; [done|]. rewrite length_take; lia.
    + apply IH; [lia|done|done|done|by apply gathered_full|apply u64_idemp].
Qed.

(** The limit [read_iovec] gathers up to. *)
Definition iovec_max (ret : Z) : Z :=
  if negb (ret =? 0) then Z.min ret MAX_PAYLOAD_SIZE else MAX_PAYLOAD_SIZE.

(** Of up to 32 readable buffers, the bytes gathered are a prefix of their
    concatenation: all of it, or up to the limit (but for the byte at index
    1023), and the total reported is the sum of the sizes of the buffers,
    whatever number [ret] of bytes was transferred. *)
Theorem read_iovec_gathers m iovec ret segs buf :
  (length segs <= 32)%nat -> 0 <= ret -> iov_at m iovec 0 segs ->
  length buf = Z.to_nat IOVEC_BUF_SIZE ->
  let data := concat segs in
  exists n buf',
    read_iovec m iovec (Z.of_nat (length segs)) ret buf 0
      = (n, buf', u64 (Z.of_nat (length data))) /\
    Z.min n 1023 = Z.min (Z.min (Z.of_nat (length data)) (iovec_max ret)) 1023 /\
    take (Z.to_nat (Z.min n 1023)) buf' = take (Z.to_nat (Z.min n 1023)) data.
Proof.
  intros Hn Hret Hiov Hb data.
  assert (0 <= iovec_max ret <= 1024) as Hmax
    by (unfold iovec_max, MAX_PAYLOAD_SIZE; case_step; lia).
  destruct (read_iovec_loop_gathers (Z.to_nat MAX_IOVEC_SIZE) 0 m iovec (iovec_max ret) segs buf 0 0 [])
    as (n & buf' & Hrun & _ & Hmin & Htake); [done..| |done|].
  - unfold gathered. cbn [length]. split_and!; [lia..|done].
  - exists n, buf'. split; [exact Hrun|done].
Qed.

(** Three buffers: "GET /", nothing, "HTTP". *)
Definition demo_segs : list (list Z) := [[71; 69; 84; 32; 47]; []; [72; 84; 84; 80]].
Definition le8 (z : Z) : list Z := [z mod 256; z / 256 mod 256; 0; 0; 0; 0; 0; 0].
Definition demo_iovec : mem :=
  overlay (overlay (overlay mem_empty 512 [71; 69; 84; 32; 47]) 1024 [72; 84; 84; 80])
    4096 (le8 512 ++ le8 5 ++ le8 0 ++ le8 0 ++ le8 1024 ++ le8 4).

Lemma demo_iovec_at : iov_at demo_iovec 4096 0 demo_segs.
Proof.
  cbn [iov_at demo_segs].
  split; [exists (le8 512 ++ le8 5)|split; [exists (le8 0 ++ le8 0)|
    split; [exists (le8 1024 ++ le8 4)|exact I]]]; repeat split; vm_compute; reflexivity.
Defined.

Lemma read_iovec_bounds_witness :
  let r := read_iovec demo_iovec 4096 3 7 iovec_buf_zero 0 in
  0 <= r.1.1 <= MAX_PAYLOAD_SIZE /\ (0 < 7 -> r.1.1 <= 7) /\
  length r.1.2 = Z.to_nat IOVEC_BUF_SIZE.
Proof.
  intros r.
  apply (read_iovec_bounds demo_iovec 4096 3 7 iovec_buf_zero 0 r.1.1 r.1.2 r.2).
  - lia.
  - vm_compute; reflexivity.
  - vm_compute; reflexivity.
Defined.

Lemma read_iovec_gathers_witness :
  exists n buf',
    read_iovec demo_iovec 4096 3 7 iovec_buf_zero 0 = (n, buf', u64 9) /\
    Z.min n 1023 = Z.min (Z.min 9 (iovec_max 7)) 1023 /\
    take (Z.to_nat (Z.min n 1023)) buf'
      = take (Z.to_nat (Z.min n 1023)) [71; 69; 84; 32; 47; 72; 84; 84; 80].
Proof.
  apply (read_iovec_gathers demo_iovec 4096 7 demo_segs iovec_buf_zero).
  - cbn. lia.
  - lia.
  - exact demo_iovec_at.
  - vm_compute; reflexivity.
Defined.

(** ** Byte accounting

    The counters of the connections and the reads in progress, without the
    protocols. *)

Record accounts := Accounts {
  a_connections : gmap connection_id connection;
  a_reads : gmap Z read_args
}.

Definition accounts_of (s : st) : accounts := Accounts (connections s) (active_reads s).

(** The number of bytes gathered from a vector of buffers, and their total. *)
Definition iovec_sizes (m : mem) (iovec iovlen ret : Z) : Z * Z :=
  let '(n, _, total) := read_iovec m iovec iovlen ret iovec_buf_zero 0 in (n, total).

Definition hook_write (v : env) (fd is_tls buf size iovlen : Z) (a : accounts) : accounts :=
  let cid := ConnectionId fd (tgid v) in
  let '(n, total) :=
    if negb (iovlen =? 0) then iovec_sizes (memory v) buf iovlen 0 else (size, size) in
  if (n =? 0) || negb (is_tls =? 0) then a
  else Accounts (alter (add_sent total) cid (a_connections a)) (a_reads a).

Definition hook_read_enter (v : env) (id pid fd buf ret iovlen : Z) (a : accounts) : accounts :=
  let? _ := a_connections a !! ConnectionId fd pid else a in
  Accounts (a_connections a)
    (lru_update (lru_reads v) BPF_ANY id (ReadArgs fd buf ret iovlen) (a_reads a)).2.

Definition hook_read_exit (v : env) (id pid is_tls ret : Z) (a : accounts) : accounts :=
  let? args := a_reads a !! id else a in
  let len := if ret <=? 0 then ret else read_length v args ret in
  let '(n, total) :=
    if negb (ra_iovlen args =? 0)
    then iovec_sizes (memory v) (ra_buf args) (ra_iovlen args) len else (len, len) in
  Accounts
    (if (len <=? 0) || (n =? 0) || negb (is_tls =? 0) then a_connections a
     else alter (add_received total) (ConnectionId (ra_fd args) pid) (a_connections a))
    (delete id (a_reads a)).

Lemma read_iovec_loop_sizes n i m iovec iovlen max buf buf2 offset total :
  let r := read_iovec_loop n i m iovec iovlen max buf offset total in
  let r2 := read_iovec_loop n i m iovec iovlen max buf2 offset total in
  (r.1.1, r.2) = (r2.1.1, r2.2).
Proof.
  cbv zeta. revert i buf buf2 offset total.
  induction n as [|n IH]; intros i buf buf2 offset total; cbn [read_iovec_loop]; [done|].
  destruct (iovlen <=? i); [done|].
  destruct (probe_read m (iovec + i * 16) 16) as [iov|]; [|done]. cbv zeta.
  destruct (field iov 8 8 <=? 0); [apply IH|]. destruct (offset <? max); [|apply IH].
  destruct (probe_read m (field iov 0 8) _); [apply IH|done].
Qed.

Lemma read_iovec_sizes m iovec iovlen ret buf n buf' total :
  read_iovec m iovec iovlen ret buf 0 = (n, buf', total) ->
  iovec_sizes m iovec iovlen ret = (n, total).
Proof.
  intros H. unfold iovec_sizes.
  pose proof (read_iovec_loop_sizes (Z.to_nat MAX_IOVEC_SIZE) 0 m iovec iovlen (iovec_max ret)
                buf iovec_buf_zero 0 0) as Hs. cbv zeta in Hs.
  change (read_iovec_loop _ 0 m iovec iovlen (iovec_max ret) buf 0 0)
    with (read_iovec m iovec iovlen ret buf 0) in Hs.
  change (read_iovec_loop _ 0 m iovec iovlen (iovec_max ret) iovec_buf_zero 0 0)
    with (read_iovec m iovec iovlen ret iovec_buf_zero 0) in Hs.
  rewrite H in Hs. destruct (read_iovec m iovec iovlen ret iovec_buf_zero 0) as [[n2 b2] t2].
  cbn in Hs. congruence.
Qed.

Lemma effect_accounts cid conn s s' : effect cid conn s s' -> accounts_of s' = accounts_of s.
Proof. intros [Ht Hr _ _]. unfold accounts_of, connections. by rewrite Ht, Hr. Qed.

Lemma alter_absent {A} (f : A -> A) (c : connection_id) (m : gmap connection_id A) :
  m !! c = None -> alter f c m = m.
Proof.
  intros Hc. apply map_eq. intros c'. destruct (decide (c = c')) as [<-|].
  - by rewrite lookup_alter_eq, Hc.
  - by rewrite lookup_alter_ne.
Qed.

Lemma accounts_write v fd is_tls buf size iovlen s :
  accounts_of (trace_enter_write v fd is_tls buf size iovlen s)
  = hook_write v fd is_tls buf size iovlen (accounts_of s).
Proof.
  unfold trace_enter_write, hook_write, gather. cbv zeta.
  destruct (connections s !! _) as [conn|] eqn:Hc.
  2:{ destruct (if negb (iovlen =? 0) then _ else _) as [n t]. case_step; [done|].
      unfold accounts_of. cbn. by rewrite alter_absent. }
  destruct (negb (iovlen =? 0));
    [destruct (read_iovec _ _ _ _ _ _) as [[n h] total] eqn:R; rewrite (read_iovec_sizes _ _ _ _ _ _ _ _ R)|];
    match goal with |- context [accounts_of (if ?b then _ else _)] => destruct b; [done|] end;
    cbn [orb];
    (erewrite effect_accounts by (by apply classify_write_effect));
    by destruct (is_tls =? 0).
Qed.

Lemma accounts_read_enter v id pid fd buf ret iovlen s :
  accounts_of (trace_enter_read v id pid fd buf ret iovlen s)
  = hook_read_enter v id pid fd buf ret iovlen (accounts_of s).
Proof. unfold trace_enter_read, hook_read_enter. cbn. by case_step. Qed.

Lemma accounts_read_exit v id pid is_tls ret s :
  accounts_of (trace_exit_read v id pid is_tls ret s)
  = hook_read_exit v id pid is_tls ret (accounts_of s).
Proof.
  unfold trace_exit_read, hook_read_exit. cbn [accounts_of a_reads].
  destruct (active_reads s !! id) as [args|]; [|done]. cbv zeta.
  destruct (connections s !! _) as [conn|] eqn:Hc.
  2:{ destruct (if negb (ra_iovlen args =? 0) then _ else _) as [n t].
      destruct (_ || negb (is_tls =? 0)); [done|]. unfold accounts_of. cbn. by rewrite alter_absent. }
  destruct (ret <=? 0) eqn:Hret.
  { rewrite Hret. by destruct (if negb (ra_iovlen args =? 0) then _ else _). }
  unfold read_length.
  destruct (if negb (ra_ret args =? 0) then _ else Some ret) as [len|] eqn:Hlen.
  2:{ case_step_in Hlen; [|done]. rewrite Hlen. cbn.
      by destruct (if negb (ra_iovlen args =? 0) then _ else _). }
  assert ((if negb (ra_ret args =? 0) then default 0 (s64 <$> read_u64 (memory v) (ra_ret args))
           else ret) = len) as -> by (case_step_in Hlen; [by rewrite Hlen|congruence]).
  destruct (len <=? 0) eqn:H0.
  { by destruct (if negb (ra_iovlen args =? 0) then _ else _). }
  unfold gather. cbn [iovec_buf_heap set_reads].
  destruct (negb (ra_iovlen args =? 0));
    [destruct (read_iovec _ _ _ _ _ _) as [[n h] total] eqn:R; rewrite (read_iovec_sizes _ _ _ _ _ _ _ _ R)|];
    match goal with |- context [accounts_of (if ?b then _ else _)] => destruct b; [done|] end;
    cbn [orb];
    (erewrite effect_accounts by (by apply classify_read_effect));
    by destruct (is_tls =? 0).
Qed.

(** The calls the system call hooks and the TLS probes make. *)
Inductive call :=
| call_write (v : env) (fd is_tls buf size iovlen : Z)
| call_read_enter (v : env) (id pid fd buf ret iovlen : Z)
| call_read_exit (v : env) (id pid is_tls ret : Z).

Definition do_call (s : st) (c : call) : st :=
  match c with
  | call_write v fd is_tls buf size iovlen => trace_enter_write v fd is_tls buf size iovlen s
  | call_read_enter v id pid fd buf ret iovlen => trace_enter_read v id pid fd buf ret iovlen s
  | call_read_exit v id pid is_tls ret => trace_exit_read v id pid is_tls ret s
  end.

Definition hook_call (a : accounts) (c : call) : accounts :=
  match c with
  | call_write v fd is_tls buf size iovlen => hook_write v fd is_tls buf size iovlen a
  | call_read_enter v id pid fd buf ret iovlen => hook_read_enter v id pid fd buf ret iovlen a
  | call_read_exit v id pid is_tls ret => hook_read_exit v id pid is_tls ret a
  end.

Lemma accounts_call s c : accounts_of (do_call s c) = hook_call (accounts_of s) c.
Proof. destruct c; [apply accounts_write|apply accounts_read_enter|apply accounts_read_exit]. Qed.

(** *** The specification *)

(** The buffers, by address and length, that a vector names from its index [i] on. *)
Fixpoint vector (m : mem) (iovec i : Z) (n : nat) : option (list (Z * Z)) :=
  match n with
  | O => Some []
  | S n =>
      let? iov := probe_read m (iovec + 16 * i) 16 else None in
      let? bufs := vector m iovec (i + 1) n else None in
      Some ((le (take 8 iov), le (take 8 (drop 8 iov))) :: bufs)
  end.

(** The first [room] bytes of the buffers can be read, at most 1023 of each. *)
Fixpoint readable (m : mem) (room : Z) (bufs : list (Z * Z)) : bool :=
  match bufs with
  | [] => true
  | (addr, len) :: bufs =>
      let size := Z.min (Z.min len room) 1023 in
      if size <=? 0 then readable m room bufs
      else match probe_read m addr (Z.to_nat size) with
           | None => false
           | Some _ => readable m (room - size) bufs
           end
  end.

Definition capacity (bufs : list (Z * Z)) : Z := foldr (fun b n => Z.max 0 b.2 + n) 0 bufs.

(** What a vector of [iovlen] buffers counts for, of which 32 are looked at: their
    capacity, or nothing if they are empty or what is copied of them cannot be read. *)
Definition vector_amount (m : mem) (iovec iovlen room : Z) : Z :=
  match vector m iovec 0 (Z.to_nat (Z.min iovlen 32)) with
  | None => 0
  | Some bufs => if readable m room bufs then capacity bufs else 0
  end.

(** Counters of 64 bits. *)
Definition plus64 (a b : Z) : Z := (a + b) mod 2 ^ 64.

(** A write adds its size, or the capacity of its buffers, to the bytes sent of its
    connection, unless it comes from a TLS library. *)
Definition spec_write (v : env) (fd is_tls buf size iovlen : Z) (a : accounts) : accounts :=
  let amount := if iovlen =? 0 then size else vector_amount (memory v) buf iovlen 1024 in
  if (amount =? 0) || negb (is_tls =? 0) then a
  else Accounts (alter (fun c => Connection (timestamp c) (plus64 (bytes_sent c) amount) (bytes_received c))
                   (ConnectionId fd (tgid v)) (a_connections a)) (a_reads a).

(** A read on a tracked connection is remembered; the map may evict others. *)
Definition spec_read_enter (v : env) (id pid fd buf ret iovlen : Z) (a : accounts) : accounts :=
  match a_connections a !! ConnectionId fd pid with
  | None => a
  | Some _ => Accounts (a_connections a)
                (<[id := ReadArgs fd buf ret iovlen]> (foldr delete (a_reads a) (lru_reads v (a_reads a))))
  end.

(** A read that is remembered adds its length, or the capacity of its buffers, to the bytes
    received of its connection, unless it failed or comes from a TLS library, and is
    forgotten.  The length is what the call returned, or at the address it was given. *)
Definition spec_read_exit (v : env) (id pid is_tls ret : Z) (a : accounts) : accounts :=
  match a_reads a !! id with
  | None => a
  | Some args =>
      let len := if (ret <=? 0) || (ra_ret args =? 0) then ret
                 else default 0 (s64 <$> read_u64 (memory v) (ra_ret args)) in
      let amount := if ra_iovlen args =? 0 then len
                    else vector_amount (memory v) (ra_buf args) (ra_iovlen args) (Z.min len 1024) in
      Accounts
        (if (len <=? 0) || (amount =? 0) || negb (is_tls =? 0) then a_connections a
         else alter (fun c => Connection (timestamp c) (bytes_sent c) (plus64 (bytes_received c) amount))
                (ConnectionId (ra_fd args) pid) (a_connections a))
        (delete id (a_reads a))
  end.

Definition spec_call (a : accounts) (c : call) : accounts :=
  match c with
  | call_write v fd is_tls buf size iovlen => spec_write v fd is_tls buf size iovlen a
  | call_read_enter v id pid fd buf ret iovlen => spec_read_enter v id pid fd buf ret iovlen a
  | call_read_exit v id pid is_tls ret => spec_read_exit v id pid is_tls ret a
  end.

Lemma truncated_min z : 0 <= z -> TRUNCATE_PAYLOAD_SIZE z = Z.min z 1023.
Proof.
  intros Hz. unfold TRUNCATE_PAYLOAD_SIZE. change (MAX_PAYLOAD_SIZE - 1) with (Z.ones 10).
  rewrite Z.land_ones by lia. apply Z.mod_small. change (Z.ones 10) with 1023. lia.
Qed.

Lemma capacity_nonneg bufs : 0 <= capacity bufs.
Proof. induction bufs as [|b bufs IH]; cbn [capacity foldr]; [done|]. fold (capacity bufs). lia. Qed.

(** What the loop over a vector returns, in the terms of the specification. *)
Lemma read_iovec_loop_amount n i m iovec iovlen max buf offset total :
  0 <= offset -> 0 < max <= 1024 -> u64 total = total ->
  let r := read_iovec_loop n i m iovec iovlen max buf offset total in
  match vector m iovec i (Z.to_nat (Z.min (iovlen - i) (Z.of_nat n))) with
  | None => r.1.1 = 0
  | Some bufs =>
      if readable m (max - offset) bufs
      then r.2 = u64 (total + capacity bufs) /\ (r.1.1 = 0 <-> offset = 0 /\ capacity bufs = 0)
      else r.1.1 = 0
  end.
Proof.
  intros Ho Hm Ht. cbv zeta. revert i buf offset total Ho Ht.
  induction n as [|n IH]; intros i buf offset total Ho Ht; cbn [read_iovec_loop].
  { replace (Z.to_nat (Z.min _ _)) with 0%nat by lia. cbn. rewrite Z.add_0_r. split; [done|]. tauto. }
  destruct (Z.leb_spec iovlen i).
  { replace (Z.to_nat (Z.min _ _)) with 0%nat by lia. cbn. rewrite Z.add_0_r. split; [done|]. tauto. }
  replace (Z.to_nat (Z.min (iovlen - i) (Z.of_nat (S n)))) with (S (Z.to_nat (Z.min (iovlen - (i + 1)) (Z.of_nat n)))) by lia.
  cbn [vector]. rewrite (Z.mul_comm 16). destruct (probe_read m (iovec + i * 16) 16) as [iov|]; [|done].
  change (le (take 8 iov)) with (field iov 0 8). change (le (take 8 (drop 8 iov))) with (field iov 8 8). cbv zeta.
  set (len := field iov 8 8). clearbody len.
  destruct (Z.leb_spec len 0) as [Hlen|Hlen].
  { specialize (IH (i + 1) buf offset total Ho Ht). destruct (vector m iovec (i + 1) _) as [bufs|]; [|done].
    cbn [readable capacity foldr snd]. rewrite (proj2 (Z.leb_le (Z.min (Z.min len _) 1023) 0)) by lia.
    rewrite Z.max_l by lia. exact IH. }
  destruct (Z.ltb_spec offset max) as [Hmax|Hmax].
  2: { specialize (IH (i + 1) buf offset (u64 (total + len)) Ho (u64_idemp _)). destruct (vector m iovec (i + 1) _) as [bufs|]; [|done].
       cbn [readable capacity foldr snd]. rewrite (proj2 (Z.leb_le (Z.min (Z.min len _) 1023) 0)) by lia.
       rewrite Z.max_r by lia. destruct (readable m (max - offset) bufs); [|done]. destruct IH as [-> Hz].
       fold (capacity bufs). rewrite u64_add_l, Z.add_assoc. split; [done|]. rewrite Hz. lia. }
  rewrite !truncated_min, (Z.min_l offset) by lia. set (size := Z.min (Z.min len (max - offset)) 1023).
  assert (0 < size) as Hsize by lia.
  assert (forall bufs, readable m (max - offset) ((field iov 0 8, len) :: bufs) =
    match probe_read m (field iov 0 8) (Z.to_nat size) with None => false | Some _ => readable m (max - offset - size) bufs end) as Hread
    by (intros bufs; cbn [readable]; fold size; by rewrite (proj2 (Z.leb_gt size 0)) by lia).
  destruct (probe_read m (field iov 0 8) (Z.to_nat size)) as [bs|].
  2: { destruct (vector m iovec (i + 1) _); [|done]. by rewrite Hread. }
  specialize (IH (i + 1) (write_at (Z.to_nat offset) bs buf) (offset + size) (u64 (total + len)) ltac:(lia) (u64_idemp _)).
  destruct (vector m iovec (i + 1) _) as [bufs|]; [|done]. rewrite Hread.
  replace (max - (offset + size)) with (max - offset - size) in IH by lia.
  destruct (readable m (max - offset - size) bufs); [|done]. destruct IH as [-> Hz].
  cbn [capacity foldr snd]. fold (capacity bufs). pose proof (capacity_nonneg bufs).
  rewrite u64_add_l, Z.add_assoc, Z.max_r by lia. split; [done|]. rewrite Hz. lia.
Qed.

Lemma iovec_sizes_amount m iovec iovlen ret room :
  room = (if ret =? 0 then 1024 else Z.min ret 1024) -> 0 < room ->
  let '(n, total) := iovec_sizes m iovec iovlen ret in
  let amount := vector_amount m iovec iovlen room in
  (n =? 0) = (amount =? 0) /\ (n <> 0 -> total = u64 amount).
Proof.
  intros Hr Hpos. unfold iovec_sizes, read_iovec, vector_amount.
  assert ((if negb (ret =? 0) then Z.min ret MAX_PAYLOAD_SIZE else MAX_PAYLOAD_SIZE) = room) as ->
    by (rewrite Hr; by destruct (ret =? 0)).
  pose proof (read_iovec_loop_amount (Z.to_nat MAX_IOVEC_SIZE) 0 m iovec iovlen room iovec_buf_zero 0 0) as Hl.
  cbv zeta in Hl. destruct (read_iovec_loop _ _ _ _ _ _ _ _ _) as [[n b] total]. cbn [fst snd] in Hl.
  rewrite !Z.sub_0_r in Hl. change (Z.of_nat (Z.to_nat MAX_IOVEC_SIZE)) with 32 in Hl.
  assert (room <= 1024) by (rewrite Hr; destruct (ret =? 0); lia).
  specialize (Hl ltac:(lia) ltac:(lia) eq_refl).
  destruct (vector _ _ _ _) as [bufs|]; [|by subst n]. destruct (readable m room bufs); [|by subst n].
  destruct Hl as [-> Hz]. split; [|done].
  destruct (Z.eqb_spec n 0), (Z.eqb_spec (capacity bufs) 0); tauto.
Qed.

Lemma plus64_sent n n' c : n = u64 n' -> add_sent n c = Connection (timestamp c) (plus64 (bytes_sent c) n') (bytes_received c).
Proof. intros ->. unfold add_sent, plus64, u64. by rewrite Zplus_mod_idemp_r. Qed.

Lemma plus64_received n n' c :
  n = u64 n' -> add_received n c = Connection (timestamp c) (bytes_sent c) (plus64 (bytes_received c) n').
Proof. intros ->. unfold add_received, plus64, u64. by rewrite Zplus_mod_idemp_r. Qed.

(** Equal changes of an entry. *)
Lemma alter_same {A} (f g : A -> A) (k : connection_id) (m : gmap connection_id A) :
  (forall x, f x = g x) -> alter f k m = alter g k m.
Proof.
  intros Hfg. apply map_eq. intros k'. destruct (decide (k = k')) as [<-|Hk].
  - rewrite !lookup_alter_eq. destruct (m !! k) as [x|]; [|done]. cbn. by rewrite Hfg.
  - by rewrite !lookup_alter_ne.
Qed.

Lemma hook_spec_write v fd is_tls buf size iovlen a :
  hook_write v fd is_tls buf size iovlen a = spec_write v fd is_tls buf size iovlen a.
Proof.
  unfold hook_write, spec_write. cbv zeta. destruct (iovlen =? 0); cbn [negb].
  - destruct (_ || _); [done|]. by f_equal.
  - pose proof (iovec_sizes_amount (memory v) buf iovlen 0 1024 eq_refl ltac:(lia)) as Hs.
    destruct (iovec_sizes _ _ _ _) as [n total]. cbv zeta in Hs. destruct Hs as [Hn Ht]. rewrite Hn.
    destruct (Z.eqb_spec n 0); rewrite <-Hn; [done|]. destruct (is_tls =? 0); [|done]. cbn [negb orb].
    f_equal. apply alter_same. intros c. by apply plus64_sent, Ht.
Qed.

Lemma hook_spec_read_exit v id pid is_tls ret a :
  hook_read_exit v id pid is_tls ret a = spec_read_exit v id pid is_tls ret a.
Proof.
  unfold hook_read_exit, spec_read_exit, read_length. cbv zeta. destruct (a_reads a !! id) as [args|]; [|done].
  assert ((if ret <=? 0 then ret else if negb (ra_ret args =? 0) then default 0 (s64 <$> read_u64 (memory v) (ra_ret args)) else ret)
    = (if (ret <=? 0) || (ra_ret args =? 0) then ret else default 0 (s64 <$> read_u64 (memory v) (ra_ret args)))) as ->
    by (by destruct (ret <=? 0), (ra_ret args =? 0)).
  set (len := if (ret <=? 0) || _ then _ else _). clearbody len. destruct (ra_iovlen args =? 0); cbn [negb].
  - destruct (_ || _); [done|]. by f_equal.
  - destruct (Z.leb_spec len 0) as [Hl|Hl]; [by destruct (iovec_sizes _ _ _ _)|]. cbn [orb].
    pose proof (iovec_sizes_amount (memory v) (ra_buf args) (ra_iovlen args) len (Z.min len 1024)) as Hs.
    rewrite (proj2 (Z.eqb_neq len 0)) in Hs by lia. specialize (Hs eq_refl ltac:(lia)).
    destruct (iovec_sizes _ _ _ _) as [n total]. cbv zeta in Hs. destruct Hs as [Hn Ht]. rewrite Hn.
    destruct (Z.eqb_spec n 0); rewrite <-Hn; [done|]. destruct (is_tls =? 0); [|done]. cbn [negb orb].
    f_equal. apply alter_same. intros c. by apply plus64_received, Ht.
Qed.

Lemma hook_spec_call a c : hook_call a c = spec_call a c.
Proof. destruct c; [apply hook_spec_write|done|apply hook_spec_read_exit]. Qed.

(** C18: the byte counters and the pending reads are those of the accounting
    specification after any sequence of calls of the hooks, on any connections: a write
    adds its size to the bytes sent, at its entry and whatever of it is sent; a finished
    read adds its length to those received; a vectored call adds the capacity of its
    buffers (the first 32, if what is copied of them can be read) instead, also if it
    reads less; TLS calls add nothing; the sums are modulo 2^64; and no protocol
    recognised, event reported or request tracked has any influence. *)
Theorem accounting_refines s cs :
  accounts_of (foldl do_call s cs) = foldl spec_call (accounts_of s) cs.
Proof.
  revert s. induction cs as [|c cs IH]; intros s; cbn; [done|].
  by rewrite IH, accounts_call, hook_spec_call.
Qed.

(** *** Vectored reads *)

Lemma iovec_sizes_at m iovec ret segs :
  (length segs <= 32)%nat -> 0 <= ret -> iov_at m iovec 0 segs ->
  exists n, iovec_sizes m iovec (Z.of_nat (length segs)) ret
              = (n, u64 (Z.of_nat (length (concat segs)))) /\
    Z.min n 1023 = Z.min (Z.min (Z.of_nat (length (concat segs))) (iovec_max ret)) 1023.
Proof.
  intros Hn Hret Hiov.
  assert (0 <= iovec_max ret <= 1024) as Hmax
    by (unfold iovec_max, MAX_PAYLOAD_SIZE; case_step; lia).
  destruct (read_iovec_loop_gathers (Z.to_nat MAX_IOVEC_SIZE) 0 m iovec (iovec_max ret) segs
              iovec_buf_zero 0 0 []) as (n & buf' & Hrun & _ & Hmin & _); [done..| |done|].
  - unfold gathered. cbn [length]. split_and!; [lia..|done].
  - exists n. split; [|exact Hmin]. eapply read_iovec_sizes. exact Hrun.
Qed.

(** A vectored read is charged with the capacity of its buffers: recvmsg or
    readv of [ret] bytes into buffers of [c] bytes adds [c] to the bytes received,
    however small [ret] is. *)
Theorem vectored_read_counts_capacity v fd iovec segs ret s conn :
  let cid := ConnectionId fd (tgid v) in
  active_reads s !! pid_tgid v = Some (ReadArgs fd iovec 0 (Z.of_nat (length segs))) ->
  connections s !! cid = Some conn -> iov_at (memory v) iovec 0 segs ->
  (length segs <= 32)%nat -> concat segs <> [] -> 0 < ret ->
  connections (sys_exit_recvmsg v ret s) !! cid
    = Some (add_received (u64 (Z.of_nat (length (concat segs)))) conn).
Proof.
  intros cid Ha Hc Hiov Hn Hne Hret.
  destruct (iovec_sizes_at (memory v) iovec ret segs Hn) as (n & Hsz & Hmin); [lia|done|].
  assert (0 < Z.of_nat (length (concat segs))) as Hpos by (destruct (concat segs); [done|cbn; lia]).
  assert (0 < Z.of_nat (length segs)) as Hpos' by (destruct segs; [done|cbn; lia]).
  change (connections (sys_exit_recvmsg v ret s))
    with (a_connections (accounts_of (trace_exit_read v (pid_tgid v) (tgid v) 0 ret s))).
  rewrite accounts_read_exit. unfold hook_read_exit, read_length. cbn [accounts_of a_reads].
  rewrite Ha. cbn [ra_ret ra_iovlen ra_buf ra_fd Z.eqb negb].
  rewrite (proj2 (Z.leb_gt ret 0) Hret), (proj2 (Z.eqb_neq (Z.of_nat _) 0)) by lia. cbn [negb].
  rewrite Hsz. rewrite (proj2 (Z.leb_gt ret 0) Hret), (proj2 (Z.eqb_neq n 0)).
  - cbn. fold cid. by rewrite lookup_alter_eq, Hc.
  - unfold iovec_max, MAX_PAYLOAD_SIZE in Hmin. destruct (negb (ret =? 0)); lia.
Qed.

Lemma vectored_read_counts_capacity_witness :
  let v := env_at (77 * 2^32 + 78) 5 demo_iovec in
  let s := set_reads (insert (77 * 2^32 + 78) (ReadArgs 9 4096 0 3))
             (set_connections (insert (ConnectionId 9 77) (Connection 3 0 0)) init) in
  connections (sys_exit_recvmsg v 2 s) !! ConnectionId 9 77
    = Some (add_received (u64 9) (Connection 3 0 0)).
Proof.
  intros v s. apply (vectored_read_counts_capacity v 9 4096 demo_segs 2 s (Connection 3 0 0)).
  - vm_compute; reflexivity.
  - vm_compute; reflexivity.
  - exact demo_iovec_at.
  - cbn; lia.
  - discriminate.
  - lia.
Defined.

(** *** Transfers on one connection *)

(** A write, or a read from its entry to its exit, of a buffer or of a vector of them. *)
Inductive transfer :=
| send (v : env) (ctx : rw_args)
| sendv (v : env) (ctx : rw_args)
| receive (v v' : env) (ctx : rw_args) (ret : Z)
| receivev (v v' : env) (ctx : rw_args) (ret : Z).

Definition do_transfer (s : st) (t : transfer) : st :=
  match t with
  | send v ctx => sys_enter_write v ctx s
  | sendv v ctx => sys_enter_writev v ctx s
  | receive v v' ctx ret => sys_exit_read v' ret (sys_enter_read v ctx s)
  | receivev v v' ctx ret => sys_exit_readv v' ret (sys_enter_readv v ctx s)
  end.

(** The transfer is on the connection of [fd] in process [pid], the map of pending reads
    has room for it, and a vector is not empty. *)
Definition transfer_on (fd pid : Z) (t : transfer) : Prop :=
  match t with
  | send v ctx => tgid v = pid /\ rw_fd ctx = fd
  | sendv v ctx => tgid v = pid /\ rw_fd ctx = fd /\ rw_size ctx <> 0
  | receive v v' ctx ret => tgid v = pid /\ pid_tgid v' = pid_tgid v /\ rw_fd ctx = fd /\ no_eviction v
  | receivev v v' ctx ret =>
      tgid v = pid /\ pid_tgid v' = pid_tgid v /\ rw_fd ctx = fd /\ rw_size ctx <> 0 /\ no_eviction v
  end.

(** What it counts for: the size given to write, the length read returned, and for
    vectors the capacity of their buffers. *)
Definition sent (t : transfer) : Z :=
  match t with
  | send _ ctx => rw_size ctx
  | sendv v ctx => vector_amount (memory v) (rw_buf ctx) (rw_size ctx) 1024
  | _ => 0
  end.
Definition received (t : transfer) : Z :=
  match t with
  | receive _ _ _ ret => Z.max 0 ret
  | receivev _ v' ctx ret =>
      if ret <=? 0 then 0 else vector_amount (memory v') (rw_buf ctx) (rw_size ctx) (Z.min ret 1024)
  | _ => 0
  end.
Definition sum (f : transfer -> Z) (ts : list transfer) : Z := foldr (fun t n => f t + n) 0 ts.

Lemma add_sent_zero (c : connection) : u64 (bytes_sent c) = bytes_sent c -> add_sent 0 c = c.
Proof. destruct c. unfold add_sent. cbn. rewrite Z.add_0_r. by intros ->. Qed.

Definition counters_ok (c : connection) : Prop :=
  u64 (bytes_sent c) = bytes_sent c /\ u64 (bytes_received c) = bytes_received c.

Lemma spec_write_counts v fd buf size iovlen a conn :
  a_connections a !! ConnectionId fd (tgid v) = Some conn -> counters_ok conn ->
  a_connections (spec_write v fd 0 buf size iovlen a) !! ConnectionId fd (tgid v)
  = Some (add_sent (if iovlen =? 0 then size else vector_amount (memory v) buf iovlen 1024) conn).
Proof.
  intros Hc [Hs _]. unfold spec_write. cbv zeta. set (amount := if iovlen =? 0 then _ else _). cbn [Z.eqb negb].
  rewrite orb_false_r. destruct (Z.eqb_spec amount 0) as [->|_]; [by rewrite add_sent_zero|].
  cbn [a_connections]. by rewrite lookup_alter_eq, Hc.
Qed.

Lemma spec_read_counts v v' fd buf iovlen ret a conn :
  pid_tgid v' = pid_tgid v -> no_eviction v ->
  a_connections a !! ConnectionId fd (tgid v) = Some conn -> counters_ok conn ->
  a_connections (spec_read_exit v' (pid_tgid v') (tgid v') 0 ret
    (spec_read_enter v (pid_tgid v) (tgid v) fd buf 0 iovlen a)) !! ConnectionId fd (tgid v)
  = Some (add_received (if iovlen =? 0 then Z.max 0 ret
                        else if ret <=? 0 then 0 else vector_amount (memory v') buf iovlen (Z.min ret 1024)) conn).
Proof.
  intros Hid Hev Hc [_ Hr]. unfold spec_read_enter. rewrite Hc. unfold spec_read_exit. cbn [a_reads a_connections].
  assert (tgid v' = tgid v) as -> by (unfold tgid; by rewrite Hid). rewrite Hid, lookup_insert_eq. cbn [ra_ret ra_iovlen ra_buf ra_fd Z.eqb negb]. rewrite !orb_true_r, !orb_false_r.
  assert (add_received 0 conn = conn) as Hz by (destruct conn; unfold add_received; cbn in *; by rewrite Z.add_0_r, Hr).
  destruct (Z.leb_spec ret 0) as [Hle|Hlt]; cbn [orb].
  - rewrite Z.max_l, Tauto.if_same, Hz by lia. exact Hc.
  - rewrite Z.max_r by lia. set (amount := if iovlen =? 0 then _ else _).
    destruct (Z.eqb_spec amount 0) as [->|_]; [by rewrite Hz|]. cbn [a_connections]. by rewrite lookup_alter_eq, Hc.
Qed.

Lemma do_transfer_counts fd pid t s conn :
  transfer_on fd pid t -> connections s !! ConnectionId fd pid = Some conn -> counters_ok conn ->
  connections (do_transfer s t) !! ConnectionId fd pid
  = Some (add_sent (sent t) (add_received (received t) conn)).
Proof.
  intros Ht Hc Hok. pose proof Hok as [Hs Hr].
  change (connections (do_transfer s t)) with (a_connections (accounts_of (do_transfer s t))).
  assert (add_received 0 conn = conn) as Hz by (destruct conn; unfold add_received; cbn in *; by rewrite Z.add_0_r, Hr).
  assert (forall n, add_sent 0 (add_received n conn) = add_received n conn) as Hz' by (intros n; by apply add_sent_zero).
  destruct t as [v ctx|v ctx|v v' ctx ret|v v' ctx ret]; cbn [do_transfer sent received transfer_on] in *.
  - destruct Ht as [<- <-]. unfold sys_enter_write. rewrite accounts_write, hook_spec_write, Hz. by apply spec_write_counts.
  - destruct Ht as (<- & <- & Hn). unfold sys_enter_writev. rewrite accounts_write, hook_spec_write, Hz.
    rewrite (spec_write_counts _ _ _ _ _ _ conn) by done. by rewrite (proj2 (Z.eqb_neq _ _) Hn).
  - destruct Ht as (<- & Hid & <- & Hev). unfold sys_exit_read, sys_enter_read.
    rewrite accounts_read_exit, accounts_read_enter, hook_spec_read_exit, Hz'. by apply spec_read_counts.
  - destruct Ht as (<- & Hid & <- & Hn & Hev). unfold sys_exit_readv, sys_enter_readv.
    rewrite accounts_read_exit, accounts_read_enter, hook_spec_read_exit, Hz'.
    pose proof (spec_read_counts v v' (rw_fd ctx) (rw_buf ctx) (rw_size ctx) ret (accounts_of s) conn Hid Hev Hc Hok) as Hsp.
    by rewrite (proj2 (Z.eqb_neq _ _) Hn) in Hsp.
Qed.

(** The hooks never report on the TCP channels. *)
Definition tcp_reports (s : Tcp.st) : list tcp_event * list tcp_event * list tcp_event :=
  (Tcp.tcp_listen_events s, Tcp.tcp_connect_events s, Tcp.tcp_retransmit_events s).

Lemma run_effect_reports count cid conn s s' :
  run_effect count cid conn s s' -> tcp_reports (tcp s') = tcp_reports (tcp s).
Proof. by intros [[->| ->] _ _]. Qed.

Lemma write_reports v fd is_tls buf size iovlen s :
  tcp_reports (tcp (trace_enter_write v fd is_tls buf size iovlen s)) = tcp_reports (tcp s).
Proof.
  pose proof (trace_enter_write_effect v fd is_tls buf size iovlen s) as H. cbv zeta in H.
  case_match; [|by rewrite H]. destruct H as [H _]. by eapply run_effect_reports.
Qed.

Lemma read_reports v v' fd buf iovlen ret s :
  tcp_reports (tcp (trace_exit_read v' (pid_tgid v') (tgid v') 0 ret
    (trace_enter_read v (pid_tgid v) (tgid v) fd buf 0 iovlen s))) = tcp_reports (tcp s).
Proof.
  transitivity (tcp_reports (tcp (trace_enter_read v (pid_tgid v) (tgid v) fd buf 0 iovlen s))).
  2:{ unfold trace_enter_read. by case_match. }
  set (s1 := trace_enter_read _ _ _ _ _ _ _ _).
  pose proof (trace_exit_read_effect v' (pid_tgid v') (tgid v') 0 ret s1) as H. cbv zeta in H.
  case_match; [|by rewrite H]. destruct H as [_ H]. case_match; [by eapply run_effect_reports|]. by destruct H as [-> _].
Qed.

Lemma do_transfer_reports s t : tcp_reports (tcp (do_transfer s t)) = tcp_reports (tcp s).
Proof. destruct t; [apply write_reports|apply write_reports|apply read_reports|apply read_reports]. Qed.

Lemma add_counts a b a' b' c :
  add_sent a' (add_received b' (add_sent a (add_received b c)))
  = add_sent (a + a') (add_received (b + b') c).
Proof.
  destruct c. unfold add_sent, add_received. cbn.
  by rewrite !u64_add_l, !Z.add_assoc.
Qed.

Lemma counters_ok_add a b c : counters_ok (add_sent a (add_received b c)).
Proof. split; apply u64_idemp. Qed.

Lemma transfers_count fd pid ts s conn :
  Forall (transfer_on fd pid) ts -> connections s !! ConnectionId fd pid = Some conn ->
  counters_ok conn ->
  connections (foldl do_transfer s ts) !! ConnectionId fd pid
    = Some (add_sent (sum sent ts) (add_received (sum received ts) conn)) /\
  tcp_reports (tcp (foldl do_transfer s ts)) = tcp_reports (tcp s).
Proof.
  intros Hts. revert s conn. induction Hts as [|t ts Ht _ IH]; intros s conn Hc Hok; cbn [foldl sum foldr].
  - split; [|done]. destruct Hok as [Hs Hr]. destruct conn.
    unfold add_sent, add_received. cbn in *. rewrite !Z.add_0_r, Hs, Hr. exact Hc.
  - pose proof (do_transfer_counts fd pid t s conn Ht Hc Hok) as Hc'.
    destruct (IH _ _ Hc' (counters_ok_add _ _ _)) as [-> ->].
    by rewrite add_counts, do_transfer_reports.
Qed.

(** C19: closing a connection reports what its transfers counted for: after any sequence of
    write, writev, read and readv on it, each read from its entry to its exit, the sums
    modulo 2^64, on top of the counters it had, of the sizes given to write (counted at
    its entry, whatever of them is sent), of the lengths read returned, and of the
    capacities of the buffers of writev and of readv, also if readv fills less of them;
    with its start time, and the connection is forgotten. *)
Theorem close_reports_transfers v fd pid ts s conn :
  tgid v = pid -> Forall (transfer_on fd pid) ts ->
  connections s !! ConnectionId fd pid = Some conn -> counters_ok conn ->
  let s' := tcp (foldl do_transfer s ts) in
  let s'' := Tcp.sys_enter_close v (Some fd) s' in
  exists e,
    Tcp.tcp_connect_events s'' = Tcp.tcp_connect_events (tcp s) ++ [e] /\
    (t_type e, t_pid e, t_fd e, t_timestamp e)
      = (EVENT_TYPE_CONNECTION_CLOSE, pid, fd, timestamp conn) /\
    t_bytes_sent e = u64 (bytes_sent conn + sum sent ts) /\
    t_bytes_received e = u64 (bytes_received conn + sum received ts) /\
    Tcp.active_connections s'' !! ConnectionId fd pid = None.
Proof.
  intros <- Hts Hc Hok s' s''.
  destruct (transfers_count _ _ _ _ _ Hts Hc Hok) as [Hc' Hrep]. unfold connections in Hc'.
  fold s' in Hc', Hrep. unfold s'', Tcp.sys_enter_close. rewrite Hc'. cbn.
  injection Hrep as _ -> _. eexists. split_and!; [done|done|done|done|].
  apply lookup_delete_eq.
Qed.

(** A vectored read of 2 bytes into buffers of 9 is among them. *)
Lemma close_reports_transfers_witness :
  let v := env_at (77 * 2^32 + 78) 5 demo_iovec in
  let ts := [send v (RwArgs 9 0 100); receive v v (RwArgs 9 0 64) 60; receivev v v (RwArgs 9 4096 3) 2;
             send v (RwArgs 9 0 11)] in
  let s := set_connections (insert (ConnectionId 9 77) (Connection 3 0 0)) init in
  let s'' := Tcp.sys_enter_close v (Some 9) (tcp (foldl do_transfer s ts)) in
  exists e,
    Tcp.tcp_connect_events s'' = Tcp.tcp_connect_events (tcp s) ++ [e] /\
    (t_type e, t_pid e, t_fd e, t_timestamp e) = (EVENT_TYPE_CONNECTION_CLOSE, 77, 9, 3) /\
    t_bytes_sent e = u64 (0 + 111) /\ t_bytes_received e = u64 (0 + 69) /\
    Tcp.active_connections s'' !! ConnectionId 9 77 = None.
Proof.
  intros v ts s. assert (sum received ts = 69) as <- by (vm_compute; reflexivity).
  apply (close_reports_transfers v 9 77 ts s (Connection 3 0 0)).
  - reflexivity.
  - repeat constructor; discriminate.
  - vm_compute; reflexivity.
  - split; reflexivity.
Defined.

(** ** Who the events are about *)

Section known.
Context (P : Z -> Z -> Prop).

Definition known (s : st) : Prop :=
  Tcp.known P (tcp s) /\ forall e, e ∈ l7_events s -> P (e_fd e) (e_pid e).

Lemma known_same_maps s s' : same_maps s s' -> known s -> known s'.
Proof. intros [Ht He] [Hk Hl]. split; by rewrite ?Ht, ?He. Qed.

Lemma known_run_effect count cid conn s s' :
  connections s !! cid = Some conn -> run_effect count cid conn s s' -> known s -> known s'.
Proof.
  intros Hc [Ht Hev Hrq] [Hk Hl].
  pose proof (Tcp.known_connections _ _ Hk _ _ Hc) as Hp. split.
  - assert (forall k r, requests s' !! k = Some r ->
      is_Some (requests s !! k) \/ P (k_fd k) (k_pid k)) as Hrq'.
    { intros k r Hr. destruct (decide ((k_fd k, k_pid k) = (cid_fd cid, cid_pid cid))) as [E|E].
      - injection E as -> ->. by right.
      - left. exists r. by apply Hrq. }
    destruct Ht as [->| ->].
    + by apply Tcp.known_set_requests.
    + apply Tcp.known_set_requests; [exact Hrq'|]. apply Tcp.known_set_connections; [|done].
      intros cid' c. rewrite lookup_alter_Some. intros [(<- & x & Hx & _)|[_ Hx]]; eauto.
  - intros e. destruct Hev as [-> |(e0 & (Hfd & Hpid & _) & ->)]; [apply Hl|].
    rewrite elem_of_app, list_elem_of_singleton. intros [?| ->]; [by apply Hl|]. by rewrite Hfd, Hpid.
Qed.

Lemma known_do_call s c : known s -> known (do_call s c).
Proof.
  intros Hs. destruct c as [v fd is_tls buf size iovlen|v id pid fd buf ret iovlen|v id pid is_tls ret];
    cbn [do_call].
  - pose proof (trace_enter_write_effect v fd is_tls buf size iovlen s) as H. cbv zeta in H.
    case_match eqn:Hc; [|by rewrite H]. destruct H as [H _]. by eapply known_run_effect.
  - unfold trace_enter_read. by case_match.
  - pose proof (trace_exit_read_effect v id pid is_tls ret s) as H. cbv zeta in H.
    case_match; [|by rewrite H]. destruct H as [_ H]. case_match eqn:Hc.
    + by eapply known_run_effect.
    + by eapply known_same_maps.
Qed.
End known.

(** ** The events of a call *)

(** An event of the connection it names, as the maps know it. *)
Definition about_connection (m : gmap connection_id connection) (e : l7_event) : Prop :=
  exists c, m !! ConnectionId (e_fd e) (e_pid e) = Some c /\
            timestamp c = e_connection_timestamp e.

Lemma names_about m cid conn e : m !! cid = Some conn -> names cid conn e -> about_connection m e.
Proof. intros Hc (Hf & Hp & Ht). exists conn. rewrite Hf, Hp. by destruct cid. Qed.

Lemma do_call_events s c :
  exists es, l7_events (do_call s c) = l7_events s ++ es /\ (length es <= 1)%nat /\
             Forall (about_connection (connections s)) es.
Proof.
  assert (forall s', l7_events s' = l7_events s -> exists es, l7_events s' = l7_events s ++ es /\
    (length es <= 1)%nat /\ Forall (about_connection (connections s)) es) as Hnone.
  { intros s' ->. exists []. rewrite app_nil_r. cbn. auto with lia. }
  assert (forall count cid conn s', connections s !! cid = Some conn ->
    run_effect count cid conn s s' -> exists es, l7_events s' = l7_events s ++ es /\
    (length es <= 1)%nat /\ Forall (about_connection (connections s)) es) as Hone.
  { intros count cid conn s' Hc [_ [He|(e & Hn & He)] _]; [by apply Hnone|].
    exists [e]. split_and!; [done|done|]. constructor; [by eapply names_about|constructor]. }
  destruct c as [v fd is_tls buf size iovlen|v id pid fd buf ret iovlen|v id pid is_tls ret];
    cbn [do_call].
  - pose proof (trace_enter_write_effect v fd is_tls buf size iovlen s) as H. cbv zeta in H.
    case_match eqn:Hc; [|by apply Hnone; rewrite H]. destruct H as [H _]. eauto.
  - apply Hnone. unfold trace_enter_read. by case_match.
  - pose proof (trace_exit_read_effect v id pid is_tls ret s) as H. cbv zeta in H.
    case_match; [|by apply Hnone; rewrite H]. destruct H as [_ H]. case_match eqn:Hc; [eauto|].
    apply Hnone. apply H.
Qed.

(** A call changes no start time. *)
Lemma do_call_timestamps s c e :
  about_connection (connections (do_call s c)) e -> about_connection (connections s) e.
Proof.
  intros (c' & Hc' & Ht). unfold about_connection. rewrite <-Ht. clear Ht.
  change (connections (do_call s c)) with (a_connections (accounts_of (do_call s c))) in Hc'.
  rewrite accounts_call in Hc'.
  assert (forall f cid, (forall x, timestamp (f x) = timestamp x) ->
    alter f cid (connections s) !! ConnectionId (e_fd e) (e_pid e) = Some c' ->
    exists x, connections s !! ConnectionId (e_fd e) (e_pid e) = Some x /\ timestamp x = timestamp c')
    as Halter.
  { intros f cid Hf. rewrite lookup_alter_Some. intros [(_ & x & Hx & ->)|[_ Hx]]; eauto. }
  destruct c; cbn in Hc'; unfold hook_write, hook_read_enter, hook_read_exit in Hc'.
  - destruct (if negb (iovlen =? 0) then _ else _). case_match; [by eauto|]. by eapply Halter; [|done].
  - case_match; eauto.
  - case_match; [|by eauto]. destruct (if negb (ra_iovlen _ =? 0) then _ else _). cbn in Hc'.
    case_match; [by eauto|]. by eapply Halter; [|done].
Qed.

End L7Spec.
