(* ===== verification/L7Pairing.v ===== *)
(** * Requests and responses

    How l7/l7.c pairs what a connection sends with what it receives: what becomes
    of a pending request when data is read, which request is kept when several
    are written, and whole exchanges. *)

From S2P Require Import Prelude L7Base ProtoText ProtoSql ProtoBin Foundationdb Types Tcp L7 L7Spec.

Module L7Pairing.
Import L7 L7Spec.
#[local] Arguments write_at : simpl never.

(** ** What becomes of a pending request *)

(** The event answers [r]: protocol, size and payload of the request, and the
    time since it was written. *)
Definition reports_answer (v : env) (cid : connection_id) (conn : connection) (r : l7_request)
  (e : l7_event) : Prop :=
  let n := Z.to_nat (TRUNCATE_PAYLOAD_SIZE (payload_size r)) in
  names cid conn e /\ e_protocol e = protocol r /\ e_payload_size e = payload_size r /\
  e_duration e = u64 (ktime v 0 - ns r) /\
  (n <= length (payload r) -> take n (e_payload e) = take n (payload r))%nat.

(** The request as it is kept: [partial] may change, and COPY_PAYLOAD, which assigns to its
    size argument, has cut the size to at most 1023. *)
Definition kept (r r' : l7_request) : Prop :=
  (ns r', protocol r', request_type r', request_id r', payload r')
    = (ns r, protocol r, request_type r, request_id r, payload r) /\
  payload_size r' = TRUNCATE_PAYLOAD_SIZE (payload_size r).

Inductive outcome (v : env) (cid : connection_id) (conn : connection) (k : l7_request_key)
  (r : l7_request) (s s' : st) : Prop :=
| answered e :
    l7_events s' = l7_events s ++ [e] -> reports_answer v cid conn r e ->
    requests s' = delete k (requests s) -> outcome v cid conn k r s s'
| dropped :
    l7_events s' = l7_events s -> requests s' = delete k (requests s) ->
    outcome v cid conn k r s s'
| pending r' :
    l7_events s' = l7_events s -> kept r r' -> requests s' = <[k := r']> (requests s) ->
    outcome v cid conn k r s s'.

Lemma take_write_at_0 n src dst :
  (n <= length src)%nat -> take n (write_at 0 (take n src) dst) = take n src.
Proof.
  intros. rewrite write_at_0. rewrite take_app_le by (rewrite length_take; lia).
  apply take_ge. rewrite length_take. lia.
Qed.

Lemma match_response_outcome v m ptr ret total_size cid conn k req resp e s :
  outcome v cid conn k req s (match_response v m ptr ret total_size cid conn k req resp e s).
Proof.
  apply match_response_cases.
  - intros [] e' (Hp & Hs & Hb); unfold respond; cbn [negb].
    + eapply answered; [reflexivity| |by apply delete_insert_eq].
      unfold reports_answer; cbv zeta. split_and!; try done. cbn. intros Hn. rewrite Hb. by apply take_write_at_0.
    + eapply dropped; [done|by apply delete_insert_eq].
  - intros e' _. unfold keep_partial. eapply pending; [done| |by apply insert_insert_eq].
    done.
  - intros e' _. by apply (pending v cid conn k req _ _ (truncated req)).
Qed.

(** C17: data read on a connection with a pending request ends in one of three ways:
    the request is answered, by exactly one event that carries its protocol, its
    payload and the time since it was written, and is forgotten; or it is
    forgotten and nothing is reported; or it stays pending and nothing is reported,
    unchanged but for its partial mark and its size, which the copy of its payload to
    the event has cut to at most 1023, so that a longer request answered by a later read is
    reported with that size.  (RabbitMQ and NATS deliveries are
    reported on their own and leave it alone.) *)
Theorem pending_request_outcome v m ptr ret total_size cid conn k req s :
  requests s !! k = Some req ->
  let s' := classify_read v m ptr ret total_size cid conn k s in
  if Rabbitmq.is_rabbitmq_consume m ptr ret || (Nats.nats_method m ptr ret =? METHOD_CONSUME)
  then requests s' = requests s
  else outcome v cid conn k req s s'.
Proof.
  intros Hk s'. unfold s', classify_read. cbv zeta.
  destruct (Rabbitmq.is_rabbitmq_consume m ptr ret); [done|].
  destruct (Nats.nats_method m ptr ret =? METHOD_CONSUME); [done|]. cbn [orb].
  rewrite Hk. apply match_response_outcome.
Qed.

Lemma pending_request_outcome_witness :
  let k := L7RequestKey 9 77 0 (-1) in
  let req := rq_set_protocol PROTOCOL_REDIS l7_request_zero in
  let s := set_requests (insert k req) init in
  let v := env_at (77 * 2^32 + 78) 5 mem_empty in
  let cid := ConnectionId 9 77 in
  let conn := Connection 3 0 0 in
  requests s !! k = Some req /\
  outcome v cid conn k req s (classify_read v mem_empty 0 100 100 cid conn k s).
Proof.
  intros k req s v cid conn. split; [vm_compute; reflexivity|].
  apply (pending_request_outcome v mem_empty 0 100 100 cid conn k req s).
  vm_compute; reflexivity.
Defined.

(** ** Several writes *)

Lemma track_request_keeps v m ptr size k req s k' r :
  no_eviction v -> requests s !! k' = Some r ->
  requests (track_request v m ptr size k req s) !! k' = Some r.
Proof.
  intros (_ & _ & _ & Hev & _) Hk. unfold track_request. case_step; [done|].
  destruct (COPY_PAYLOAD _ _ _ _) as [[] buf]; [|done]. by apply lru_update_noexist.
Qed.

Lemma classify_write_keeps v m ptr size total_size cid conn k req s k' r :
  no_eviction v -> requests s !! k' = Some r ->
  requests (classify_write v m ptr size total_size cid conn k req s) !! k' = Some r.
Proof.
  intros Hev Hk. apply classify_write_cases; intros; [by apply track_request_keeps|..|done].
  - unfold statement_close. by destruct (COPY_PAYLOAD _ _ _ _) as [[] buf].
  - done.
  - unfold http2_frames. by destruct (COPY_PAYLOAD _ _ _ _) as [[] buf].
Qed.

(** The first request wins: whatever is written while a request is pending, on
    the same connection or another, leaves it as it is, its time included.  (So a
    Kafka request never takes over the time of the pending one: the update that
    would store it is refused.) *)
Theorem first_request_wins v fd is_tls buf size iovlen s k r :
  no_eviction v -> requests s !! k = Some r ->
  requests (trace_enter_write v fd is_tls buf size iovlen s) !! k = Some r.
Proof.
  intros Hev Hk. unfold trace_enter_write, gather. cbv zeta. case_match; [|done].
  destruct (negb (iovlen =? 0)); [destruct (read_iovec _ _ _ _ _ _) as [[n h] total]|];
    (case_match; [done|]); apply classify_write_keeps; [done|by case_match|done|by case_match].
Qed.

(** A Kafka request with correlation id 7. *)
Definition kafka_request : list Z := be4 20 ++ be2 1 ++ be2 4 ++ be4 7 ++ replicate 12 0.

Lemma first_request_wins_witness :
  let k := L7RequestKey 9 77 0 (-1) in
  let req := L7Request 1000 PROTOCOL_KAFKA 0 0 6 24 (zeros 1024) in
  let s := set_requests (insert k req)
             (set_connections (insert (ConnectionId 9 77) (Connection 3 0 0)) init) in
  let v := env_at (77 * 2^32 + 78) 2000 (overlay mem_empty 4096 kafka_request) in
  (Kafka.is_kafka_request (memory v) 4096 24 0 = (true, 7)) /\
  requests (trace_enter_write v 9 0 4096 24 0 s) !! k = Some req.
Proof.
  intros k req s v. split; [vm_compute; reflexivity|].
  apply (first_request_wins v 9 0 4096 24 0 s k req).
  - repeat split.
  - vm_compute; reflexivity.
Defined.

(** ** An HTTP exchange *)

Lemma http_response_not_consume m ptr st n ret :
  Http.is_http_response m ptr st = (true, n) ->
  Rabbitmq.is_rabbitmq_consume m ptr ret = false /\
  (Nats.nats_method m ptr ret =? METHOD_CONSUME) = false.
Proof.
  intros H. destruct (probe_read m ptr 16) as [bs|] eqn:R.
  2:{ unfold Http.is_http_response in H. change 16 with (Z.of_nat 16) in H.
      by rewrite read_str_full_case, R in H. }
  rewrite (Http.is_http_response_bytes _ _ _ _ R) in H.
  case_step_in H; [|done]. split_bools.
  pose proof (probe_read_length _ _ _ _ R) as Hl.
  do 16 (destruct bs as [|? bs]; [done|]). destruct bs; [|done].
  cbn [starts_with] in *. split_bools. rewrite !Z.eqb_eq in *. subst.
  split.
  - unfold Rabbitmq.is_rabbitmq_consume, Rabbitmq.rabbitmq_method_is, read_u8.
    rewrite (load_0 _ _ _ _ _ R). by case_match.
  - unfold Nats.nats_method. case_match; [done|].
    unfold read_chars. rewrite (probe_read_take _ _ _ _ 5 R) by lia. cbn [fmap option_fmap option_map].
    case_match; [|done]. case_match; [done|]. done.
Qed.

(** The response is recognised: one event, with the status of the response. *)
Lemma http_response_read v m ptr ret total_size cid conn k req s status :
  requests s !! k = Some req -> protocol req = PROTOCOL_HTTP ->
  Http.is_http_response m ptr STATUS_UNKNOWN = (true, status) ->
  exists e,
    let s' := classify_read v m ptr ret total_size cid conn k s in
    l7_events s' = l7_events s ++ [e] /\ reports_answer v cid conn req e /\
    (e_status e, e_method e) = (status, METHOD_UNKNOWN) /\
    requests s' = delete k (requests s).
Proof.
  intros Hk Hp Hr. destruct (http_response_not_consume _ _ _ _ ret Hr) as [Hm Hn].
  unfold classify_read. cbv zeta. rewrite Hm, Hn, Hk.
  unfold match_response. cbv zeta. cbn [e_protocol ev_set_payload ev_set_payload_size ev_set_protocol].
  rewrite Hp. cbn [Z.eqb PROTOCOL_HTTP Pos.eqb]. cbn [e_status ev_set_status ev_set_protocol
    ev_set_method ev_set_statement_id ev_set_payload_size ev_set_payload].
  rewrite Hr. unfold respond. cbn [negb]. eexists. split; [reflexivity|].
  split_and!; [|done|by apply delete_insert_eq].
  unfold reports_answer. cbv zeta. split_and!; try done. cbn. by apply take_write_at_0.
Qed.

(** The request is stored under the connection's own key, with the time of the write. *)
Lemma http_request_written v fd buf size s conn bs :
  connections s !! ConnectionId fd (tgid v) = Some conn ->
  requests s !! L7RequestKey fd (tgid v) 0 (-1) = None -> no_eviction v ->
  0 < size -> Http.is_http_request (memory v) buf = true ->
  probe_read (memory v) buf (Z.to_nat (Z.min size 1023)) = Some bs ->
  exists req,
    let s' := sys_enter_write v (RwArgs fd buf size) s in
    requests s' = <[L7RequestKey fd (tgid v) 0 (-1) := req]> (requests s) /\
    (protocol req, payload_size req, ns req) = (PROTOCOL_HTTP, size, ktime v 0) /\
    take (length bs) (payload req) = bs /\
    connections s' !! ConnectionId fd (tgid v) = Some (add_sent size conn) /\
    l7_events s' = l7_events s /\ active_reads s' = active_reads s.
Proof.
  intros Hc Hk (_ & _ & _ & Hev & _) Hsz Hreq R. unfold sys_enter_write, trace_enter_write.
  cbn [rw_fd rw_buf rw_size]. rewrite Hc. cbn [Z.eqb negb].
  rewrite (proj2 (Z.eqb_neq size 0)) by lia. unfold classify_write. rewrite Hreq.
  unfold track_request. cbn [protocol rq_set_protocol Z.eqb PROTOCOL_HTTP PROTOCOL_UNKNOWN ns].
  unfold COPY_PAYLOAD. rewrite TRUNCATE_PAYLOAD_SIZE_min, R by lia.
  unfold requests, connections in *. cbn. unfold lru_update. rewrite Hev. change (evict [] ?m) with m.
  rewrite Hk. cbn. eexists. split_and!; [reflexivity|done| | |done|done].
  - cbn. rewrite write_at_0. rewrite take_app_le by lia. by apply take_ge.
  - by rewrite lookup_alter_eq, Hc.
Qed.

(** A plain read of [ret] bytes, from its entry to its exit, examines the buffer
    against the requests as they are. *)
Lemma plain_read v v' ctx ret s conn :
  let cid := ConnectionId (rw_fd ctx) (tgid v) in
  pid_tgid v' = pid_tgid v -> no_eviction v -> 0 < ret -> connections s !! cid = Some conn ->
  exists s0,
    sys_exit_read v' ret (sys_enter_read v ctx s)
      = classify_read v' (memory v') (rw_buf ctx) ret ret cid conn
          (L7RequestKey (rw_fd ctx) (tgid v) 0 (-1)) s0 /\
    requests s0 = requests s /\ l7_events s0 = l7_events s /\
    connections s0 = alter (add_received ret) cid (connections s).
Proof.
  intros cid Hid (_ & _ & _ & _ & Hev) Hret Hc.
  assert (tgid v' = tgid v) as Hp by (unfold tgid; congruence).
  unfold sys_exit_read, sys_enter_read, trace_enter_read, trace_exit_read. fold cid.
  rewrite Hc, Hp, Hid. cbn [set_reads active_reads].
  unfold lru_update at 1. rewrite Hev. change (evict [] ?m) with m. cbn [snd].
  rewrite lookup_insert_eq. cbn [ra_fd ra_ret ra_iovlen ra_buf Z.eqb negb]. fold cid.
  change (connections (set_reads ?f s)) with (connections s). rewrite Hc.
  rewrite (proj2 (Z.leb_gt ret 0)), (proj2 (Z.eqb_neq ret 0)) by lia.
  eexists. by split_and!.
Qed.

(** An HTTP exchange: a request written on a tracked connection and a response
    read from it, by the same process, give exactly one event.  It names the
    connection, carries the status of the response, the size and the first bytes
    of the request, and the time from the write of the request to the end of the read;
    the request is forgotten and both directions are counted. *)
Theorem http_exchange v1 v2 v3 fd wbuf wsize rbuf rsize ret status s conn bs :
  let cid := ConnectionId fd (tgid v1) in
  let k := L7RequestKey fd (tgid v1) 0 (-1) in
  tgid v2 = tgid v1 -> pid_tgid v3 = pid_tgid v2 -> no_eviction v1 -> no_eviction v2 ->
  connections s !! cid = Some conn -> requests s !! k = None ->
  0 < wsize -> Http.is_http_request (memory v1) wbuf = true ->
  probe_read (memory v1) wbuf (Z.to_nat (Z.min wsize 1023)) = Some bs ->
  0 < ret -> Http.is_http_response (memory v3) rbuf STATUS_UNKNOWN = (true, status) ->
  let s' := sys_exit_read v3 ret
              (sys_enter_read v2 (RwArgs fd rbuf rsize)
                 (sys_enter_write v1 (RwArgs fd wbuf wsize) s)) in
  exists e,
    l7_events s' = l7_events s ++ [e] /\
    (e_fd e, e_pid e, e_connection_timestamp e) = (fd, tgid v1, timestamp conn) /\
    (e_protocol e, e_status e, e_payload_size e) = (PROTOCOL_HTTP, status, wsize) /\
    e_duration e = u64 (ktime v3 0 - ktime v1 0) /\
    take (length bs) (e_payload e) = bs /\
    requests s' = requests s /\
    connections s' !! cid = Some (add_received ret (add_sent wsize conn)).
Proof.
  intros cid k Hp Hid Hev1 Hev2 Hc Hk Hsz Hreq R Hret Hresp s'.
  destruct (http_request_written v1 fd wbuf wsize s conn bs Hc Hk Hev1 Hsz Hreq R)
    as (req & Hq & Hf & Hpay & Hc1 & He1 & _).
  destruct (plain_read v2 v3 (RwArgs fd rbuf rsize) ret (sys_enter_write v1 (RwArgs fd wbuf wsize) s)
              (add_sent wsize conn)) as (s0 & Hrun & Hq0 & He0 & Hc0);
    [done|done|done|by rewrite Hp|].
  cbn [rw_fd rw_buf] in *. rewrite Hp in *. fold cid k in Hq, Hc1, Hrun, Hc0. fold s' in Hrun.
  destruct (http_response_read v3 (memory v3) rbuf ret ret cid (add_sent wsize conn) k req s0 status)
    as (e & He & ((Hfd & Hpid & Hts) & Hpr & Hps & Hdur & Htk) & Hst & Hqs);
    [by rewrite Hq0, Hq, lookup_insert_eq|congruence|done|].
  assert (accounts_of s' = accounts_of s0) as [= Hcs _].
  { rewrite Hrun. eapply effect_accounts. by apply classify_read_effect. }
  cbv zeta in *. rewrite <-Hrun in *. injection Hf as Hf1 Hf2 Hf3. injection Hst as Hst _.
  pose proof (probe_read_length _ _ _ _ R) as Hl.
  assert (Z.to_nat (TRUNCATE_PAYLOAD_SIZE (payload_size req)) = length bs) as Hn
    by (rewrite Hf2, TRUNCATE_PAYLOAD_SIZE_min by lia; congruence).
  exists e. split_and!.
  - by rewrite He, He0, He1.
  - by rewrite Hfd, Hpid, Hts.
  - by rewrite Hpr, Hst, Hps, Hf1, Hf2.
  - by rewrite Hdur, Hf3.
  - rewrite Hn in Htk. rewrite Htk, Hpay; [done|]. rewrite <-Hpay at 1. rewrite length_take. lia.
  - rewrite Hqs, Hq0, Hq. by apply delete_insert_id.
  - by rewrite Hcs, Hc0, lookup_alter_eq, Hc1.
Qed.

(** "GET / HTTP/1.1" and "HTTP/1.1 204 No". *)
Definition http_get : list Z :=
  [71; 69; 84; 32; 47; 32; 72; 84; 84; 80; 47; 49; 46; 49; 13; 10; 13; 10].
Definition http_no_content : list Z :=
  Http.status_line 1 1 204 ++ [32; 78; 111; 32; 67; 111; 110; 116; 101; 110; 116; 13; 10; 13; 10].

Lemma http_exchange_witness :
  let v t := env_at (77 * 2^32 + 78) t
               (overlay (overlay mem_empty 4096 http_get) 8192 http_no_content) in
  let s := set_connections (insert (ConnectionId 9 77) (Connection 3 0 0)) init in
  let s' := sys_exit_read (v 350) 27
              (sys_enter_read (v 200) (RwArgs 9 8192 512)
                 (sys_enter_write (v 100) (RwArgs 9 4096 18) s)) in
  exists e,
    l7_events s' = l7_events s ++ [e] /\
    (e_fd e, e_pid e, e_connection_timestamp e) = (9, 77, 3) /\
    (e_protocol e, e_status e, e_payload_size e) = (PROTOCOL_HTTP, 204, 18) /\
    e_duration e = u64 (350 - 100) /\ take 18 (e_payload e) = http_get /\
    requests s' = requests s /\
    connections s' !! ConnectionId 9 77 = Some (add_received 27 (add_sent 18 (Connection 3 0 0))).
Proof.
  intros v s.
  apply (http_exchange (v 100) (v 200) (v 350) 9 4096 18 8192 512 27 204 s (Connection 3 0 0) http_get);
    [reflexivity..|repeat split|repeat split|vm_compute; reflexivity|vm_compute; reflexivity|lia|
     vm_compute; reflexivity|vm_compute; reflexivity|lia|vm_compute; reflexivity].
Defined.

(** ** A query mistaken for a statement close *)

(** A payload that begins with the byte 0x19 is no text request. *)
Lemma not_text_request m buf size bs :
  probe_read m buf 5 = Some (0x19 :: bs) ->
  Http.is_http_request m buf = false /\ Redis.is_redis_query m buf size = false /\
  Memcached.is_memcached_query m buf size = false.
Proof.
  intros R. split_and!.
  - unfold Http.is_http_request. change 16 with (Z.of_nat 16). rewrite read_str_full_case.
    destruct (probe_read m buf 16) as [cs|] eqn:R'; [|done].
    rewrite (probe_read_take _ _ _ _ 5 R') in R by lia. destruct cs as [|c cs]; [done|].
    injection R as -> _. by case_match.
  - unfold Redis.is_redis_query, read_chars. rewrite R. by case_match.
  - unfold Memcached.is_memcached_query, read_chars. case_match; [done|].
    destruct (probe_read m buf 7) as [cs|] eqn:R'; [|done].
    rewrite (probe_read_take _ _ _ _ 5 R') in R by lia. destruct cs as [|c cs]; [done|].
    injection R as -> _. cbn [fmap option_fmap option_map map nth]. by repeat case_match.
Qed.

(** C40: a MySQL query whose packet length has 0x19 as its lowest byte is reported as
    a closed statement and is not tracked: the PostgreSQL test, which runs
    first, stores the first byte of the payload as the request type even when it
    fails, the MySQL test does not reset it for COM_QUERY, and 0x19 is
    COM_STMT_CLOSE. *)
Theorem mysql_query_reported_as_close v fd buf size b1 b2 s conn bs :
  connections s !! ConnectionId fd (tgid v) = Some conn ->
  probe_read (memory v) buf 5 = Some [0x19; b1; b2; 0; Mysql.MYSQL_COM_QUERY] ->
  Mysql.packet_length [0x19; b1; b2; 0; Mysql.MYSQL_COM_QUERY] + 4 = size -> 5 <= size ->
  probe_read (memory v) buf (Z.to_nat (Z.min size 1023)) = Some bs ->
  (forall rt, (Postgres.is_postgres_query (memory v) buf size rt).1 = false) ->
  let s' := sys_enter_write v (RwArgs fd buf size) s in
  exists e,
    l7_events s' = l7_events s ++ [e] /\
    (e_protocol e, e_method e) = (PROTOCOL_MYSQL, METHOD_STATEMENT_CLOSE) /\
    requests s' = requests s.
Proof.
  intros Hc R Hlen Hsz Rp Hpg. unfold sys_enter_write, trace_enter_write. cbn [rw_fd rw_buf rw_size].
  rewrite Hc. cbn [Z.eqb negb]. rewrite (proj2 (Z.eqb_neq size 0)) by lia.
  destruct (not_text_request _ _ size _ R) as (Hh & Hr & Hm).
  unfold classify_write. rewrite Hh. cbn [request_type].
  match goal with |- context [Postgres.is_postgres_query ?m ?b ?n ?rt] =>
    pose proof (Hpg rt) as Hno;
    pose proof (Postgres.is_postgres_query_type m b n rt _ _ Hsz R) as Hty;
    destruct (Postgres.is_postgres_query m b n rt) as [yes ty]
  end.
  cbn in Hno, Hty. subst yes ty. cbv zeta. rewrite Hr, Hm.
  unfold Mysql.is_mysql_query. rewrite R, Hlen, Z.eqb_refl.
  rewrite (proj2 (Z.ltb_ge size 5)) by lia.
  cbn [rq_set_type request_type nth Z.eqb Pos.eqb Mysql.MYSQL_COM_QUERY Mysql.MYSQL_COM_STMT_CLOSE negb orb].
  unfold statement_close, COPY_PAYLOAD. rewrite TRUNCATE_PAYLOAD_SIZE_min, Rp by lia.
  eexists. by split_and!.
Qed.

(** A query of 25 bytes. *)
Definition mysql_query : list Z := [0x19; 0; 0; 0; 3] ++ replicate 24 97.

Lemma mysql_query_reported_as_close_witness :
  let v := env_at (77 * 2^32 + 78) 5 (overlay mem_empty 4096 mysql_query) in
  let s := set_connections (insert (ConnectionId 9 77) (Connection 3 0 0)) init in
  let s' := sys_enter_write v (RwArgs 9 4096 29) s in
  exists e,
    l7_events s' = l7_events s ++ [e] /\
    (e_protocol e, e_method e) = (PROTOCOL_MYSQL, METHOD_STATEMENT_CLOSE) /\
    requests s' = requests s.
Proof.
  intros v s.
  apply (mysql_query_reported_as_close v 9 4096 29 0 0 s (Connection 3 0 0) mysql_query);
    [vm_compute; reflexivity|vm_compute; reflexivity|reflexivity|lia|vm_compute; reflexivity|].
  intros rt. vm_compute. reflexivity.
Defined.

End L7Pairing.
