(* ===== verification/Tls.v ===== *)
(** * TLS uprobes

    ebpftracer/ebpf/l7/gotls.c and openssl.c: the hooks on the TLS libraries
    that hand plaintext to the L7 tracking.  The registers come from the
    architecture ([vmlinux.h], [bpf_tracing.h]), an interface with the two
    instances the programs are built for. *)

From S2P Require Import Prelude L7Base Types Tcp L7.

(** ** Architectures *)

(** The registers the programs read: function arguments, return value, and the
    Go ABI's argument and goroutine registers. *)
Class Arch := {
  pt_regs : Type;
  PT_REGS_PARM1 : pt_regs -> Z;
  PT_REGS_PARM2 : pt_regs -> Z;
  PT_REGS_PARM3 : pt_regs -> Z;
  PT_REGS_PARM4 : pt_regs -> Z;
  PT_REGS_RC : pt_regs -> Z;
  GO_PARAM1 : pt_regs -> Z;
  GO_PARAM2 : pt_regs -> Z;
  GO_PARAM3 : pt_regs -> Z;
  GOROUTINE : pt_regs -> Z
}.

Module X86.

Record pt_regs := PtRegs {
  r15 : Z; r14 : Z; r13 : Z; r12 : Z; bp : Z; bx : Z; r11 : Z; r10 : Z; r9 : Z; r8 : Z;
  ax : Z; cx : Z; dx : Z; si : Z; di : Z; orig_ax : Z; ip : Z; cs : Z; flags : Z;
  sp : Z; ss : Z
}.

Definition arch : Arch := {|
  Tls.pt_regs := pt_regs;
  PT_REGS_PARM1 := di; PT_REGS_PARM2 := si; PT_REGS_PARM3 := dx; PT_REGS_PARM4 := cx;
  PT_REGS_RC := ax;
  GO_PARAM1 := ax; GO_PARAM2 := bx; GO_PARAM3 := cx; GOROUTINE := r14
|}.

End X86.

Module Arm64.

Record pt_regs := PtRegs { regs : list Z; sp : Z; pc : Z; pstate : Z }.

Definition reg (n : nat) (x : pt_regs) : Z := nth n (regs x) 0.

Definition arch : Arch := {|
  Tls.pt_regs := pt_regs;
  PT_REGS_PARM1 := reg 0; PT_REGS_PARM2 := reg 1; PT_REGS_PARM3 := reg 2;
  PT_REGS_PARM4 := reg 3; PT_REGS_RC := reg 0;
  GO_PARAM1 := reg 0; GO_PARAM2 := reg 1; GO_PARAM3 := reg 2; GOROUTINE := reg 28
|}.

End Arm64.

(** ** gotls.c *)
Module GoTls.
Section go.
Context `{Arch}.

Definition IS_TLS_READ_ID : Z := 0x8000000000000000.

(** [None]: the C function returns 1. *)
Definition go_crypto_tls_get_fd_from_conn (v : env) (ctx : pt_regs) : option Z :=
  let? conn := probe_read (memory v) (GO_PARAM1 ctx) 16 else None in
  let? fd_ptr := read_u64 (memory v) (field conn 8 8) else None in
  read_u32 (memory v) (fd_ptr + 0x10).

Definition go_crypto_tls_write_enter (v : env) (ctx : pt_regs) (s : L7.st) : L7.st :=
  let? fd := go_crypto_tls_get_fd_from_conn v ctx else s in
  L7.trace_enter_write v fd 1 (GO_PARAM2 ctx) (GO_PARAM3 ctx) 0 s.

(** [pid << 32 | goroutine_id | IS_TLS_READ_ID] *)
Definition go_read_id (pid goroutine_id : Z) : Z :=
  Z.lor (Z.lor (shl64 pid 32) goroutine_id) IS_TLS_READ_ID.

Definition go_crypto_tls_read_enter (v : env) (ctx : pt_regs) (s : L7.st) : L7.st :=
  let? fd := go_crypto_tls_get_fd_from_conn v ctx else s in
  let pid := Z.shiftr (pid_tgid v) 32 in
  let id := go_read_id pid (GOROUTINE ctx) in
  L7.trace_enter_read v id (u32 pid) fd (GO_PARAM2 ctx) 0 0 s.

Definition go_crypto_tls_read_exit (v : env) (ctx : pt_regs) (s : L7.st) : L7.st :=
  let pid := Z.shiftr (pid_tgid v) 32 in
  let id := go_read_id pid (GOROUTINE ctx) in
  L7.trace_exit_read v id (u32 pid) 1 (s64 (GO_PARAM1 ctx)) s.

End go.

(** The identifier of a Go TLS read does not determine the process: the
    goroutine pointer is a 64-bit address and its upper half is merged into the
    pid, so processes whose pids differ only in bits set in that half share the
    identifier of reads in goroutines at the same address. *)
Theorem go_read_id_collides pid g :
  0 <= g < 2^64 -> go_read_id (Z.lor pid (Z.shiftr g 32)) g = go_read_id pid g.
Proof.
  intros Hg. unfold go_read_id, shl64, u64. f_equal.
  apply Z.bits_inj'; intros i Hi. rewrite !Z.lor_spec.
  destruct (Z.lt_ge_cases i 64).
  - rewrite !Z.mod_pow2_bits_low by lia. rewrite !Z.shiftl_spec, Z.lor_spec by lia.
    destruct (Z.lt_ge_cases i 32).
    + by rewrite !(Z.testbit_neg_r _ (i - 32)) by lia.
    + rewrite Z.shiftr_spec by lia. replace (i - 32 + 32) with i by lia.
      by destruct (Z.testbit pid (i - 32)), (Z.testbit g i).
  - by rewrite !Z.mod_pow2_bits_high by lia.
Qed.

(** Two processes and a goroutine in the usual Go heap. *)
Lemma go_read_id_collides_witness :
  1024 <> Z.lor 1024 (Z.shiftr 0xc000002000 32) /\
  go_read_id (Z.lor 1024 (Z.shiftr 0xc000002000 32)) 0xc000002000 = go_read_id 1024 0xc000002000.
Proof.
  split; [vm_compute; discriminate|]. apply (go_read_id_collides 1024 0xc000002000). lia.
Defined.

End GoTls.

(** ** openssl.c *)
Module OpenSsl.
Section openssl.
Context `{Arch}.

(** The layouts of [struct bio_st] the library versions have. *)
Inductive bio := bio_st | bio_st_v1_1_1 | bio_st_v3_0.
Definition bio_size (b : bio) : nat :=
  match b with bio_st => 48 | bio_st_v1_1_1 => 56 | bio_st_v3_0 => 64 end%nat.
Definition bio_num_offset (b : bio) : nat :=
  match b with bio_st => 40 | bio_st_v1_1_1 => 48 | bio_st_v3_0 => 56 end%nat.

(** The fields of [struct ssl_st] (32 bytes) that hold a [bio]. *)
Inductive bio_rw := rbio | wbio.
Definition ssl_st_size : nat := 32.
Definition bio_offset (rw : bio_rw) : nat := match rw with rbio => 16 | wbio => 24 end%nat.

(** [GET_FD(ctx, bio_t, bio_rw)]; [None]: the macro returns from the handler. *)
Definition GET_FD (v : env) (ctx : pt_regs) (b : bio) (rw : bio_rw) : option Z :=
  let? ssl := probe_read (memory v) (PT_REGS_PARM1 ctx) ssl_st_size else None in
  let? bio := probe_read (memory v) (field ssl (bio_offset rw) 8) (bio_size b) else None in
  let fd := u32 (s32 (field bio (bio_num_offset b) 4)) in
  if fd <=? 2 then None else Some fd.

Definition WRITE_ENTER (v : env) (ctx : pt_regs) (b : bio) (s : L7.st) : L7.st :=
  let? fd := GET_FD v ctx b wbio else s in
  L7.trace_enter_write v fd 1 (PT_REGS_PARM2 ctx) (PT_REGS_PARM3 ctx) 0 s.

Definition ssl_read_id (v : env) : Z := Z.lor (pid_tgid v) GoTls.IS_TLS_READ_ID.

Definition READ_ENTER (v : env) (ctx : pt_regs) (b : bio) (s : L7.st) : L7.st :=
  let? fd := GET_FD v ctx b rbio else s in
  L7.trace_enter_read v (ssl_read_id v) (tgid v) fd (PT_REGS_PARM2 ctx) 0 0 s.

Definition READ_EX_ENTER (v : env) (ctx : pt_regs) (b : bio) (s : L7.st) : L7.st :=
  let? fd := GET_FD v ctx b rbio else s in
  L7.trace_enter_read v (ssl_read_id v) (tgid v) fd (PT_REGS_PARM2 ctx) (PT_REGS_PARM4 ctx) 0 s.

Definition openssl_SSL_write_enter v ctx s := WRITE_ENTER v ctx bio_st s.
Definition openssl_SSL_write_enter_v1_1_1 v ctx s := WRITE_ENTER v ctx bio_st_v1_1_1 s.
Definition openssl_SSL_write_enter_v3_0 v ctx s := WRITE_ENTER v ctx bio_st_v3_0 s.
Definition openssl_SSL_read_enter v ctx s := READ_ENTER v ctx bio_st s.
Definition openssl_SSL_read_ex_enter v ctx s := READ_EX_ENTER v ctx bio_st s.
Definition openssl_SSL_read_enter_v1_1_1 v ctx s := READ_ENTER v ctx bio_st_v1_1_1 s.
Definition openssl_SSL_read_ex_enter_v1_1_1 v ctx s := READ_EX_ENTER v ctx bio_st_v1_1_1 s.
Definition openssl_SSL_read_enter_v3_0 v ctx s := READ_ENTER v ctx bio_st_v3_0 s.
Definition openssl_SSL_read_ex_enter_v3_0 v ctx s := READ_EX_ENTER v ctx bio_st_v3_0 s.

Definition openssl_SSL_read_exit (v : env) (ctx : pt_regs) (s : L7.st) : L7.st :=
  L7.trace_exit_read v (ssl_read_id v) (tgid v) 1 (s32 (PT_REGS_RC ctx)) s.

End openssl.

(** Reads through OpenSSL and plain reads never share an identifier, and
    the identifiers of two threads are different, so the exit of a read always finds the
    arguments of its own entry (the kernel keeps pids below 2^31). *)
Theorem ssl_read_id_distinct v v' :
  0 <= pid_tgid v < 2^63 -> 0 <= pid_tgid v' < 2^63 ->
  ssl_read_id v <> pid_tgid v' /\
  (ssl_read_id v = ssl_read_id v' -> pid_tgid v = pid_tgid v').
Proof.
  intros Hv Hv'.
  assert (forall x, 0 <= x < 2^63 -> Z.lor x GoTls.IS_TLS_READ_ID = 2^63 + x) as Hid.
  { intros x Hx. change GoTls.IS_TLS_READ_ID with (Z.shiftl 1 63).
    rewrite lor_shiftl_add_r; lia. }
  unfold ssl_read_id. rewrite !Hid by done. lia.
Qed.

Lemma ssl_read_id_distinct_witness :
  let v := env_at (77 * 2^32 + 78) 5 mem_empty in
  let v' := env_at (77 * 2^32 + 79) 5 mem_empty in
  ssl_read_id v <> pid_tgid v' /\ (ssl_read_id v = ssl_read_id v' -> pid_tgid v = pid_tgid v').
Proof.
  apply (ssl_read_id_distinct (env_at (77 * 2^32 + 78) 5 mem_empty) (env_at (77 * 2^32 + 79) 5 mem_empty));
    cbn [pid_tgid env_at]; lia.
Defined.

End OpenSsl.
