(* ===== verification/Object.v ===== *)
(** * The eBPF object of the tracer

    ebpftracer/ebpf/ebpf.c links the programs of the other files over one set of
    maps.  Its state is the state of its components; a step is one run of one
    program. *)

From S2P Require Import Prelude L7Base Types Runtimes Proc File Tcp L7 Tls.

Module Object.
Section object.
Context `{Arch}.

Record st := St { proc : Proc.st; files : File.st; l7 : L7.st }.

Definition init : st := St Proc.init File.init L7.init.

Definition set_proc (f : Proc.st -> Proc.st) (s : st) : st := St (f (proc s)) (files s) (l7 s).
Definition set_files (f : File.st -> File.st) (s : st) : st := St (proc s) (f (files s)) (l7 s).
Definition set_l7 (f : L7.st -> L7.st) (s : st) : st := St (proc s) (files s) (f (l7 s)).
Definition set_tcp (f : Tcp.st -> Tcp.st) (s : st) : st := set_l7 (L7.set_tcp f) s.

(** The programs, with what their context gives them; [seed_connection] is the one update of
    the maps from user space, by [Tracer.init] of the agent, which starts after the programs
    and runs beside them. *)
Inductive program :=
| uv_io_poll_exit | uv_io_poll_enter | uv_io_cb_enter | uv_io_cb_exit
| pthread_cond_timedwait_enter | pthread_cond_timedwait_exit
| task_newtask (args : Proc.task_newtask_args)
| sched_process_exit (args : Proc.sched_process_args)
| oom_mark_victim (args : Proc.mark_victim_args)
| path_get (ctx : pt_regs)
| sys_enter_open (stack : list Z) (flags filename : Z)
| sys_exit_open (ret : Z)
| sys_enter_openat (stack : list Z) (flags filename : Z)
| sys_exit_openat (ret : Z)
| nf_ct_deliver_cached_events (ctx : pt_regs)
| inet_sock_set_state (ctx : option Tcp.set_state_args)
| sys_enter_connect (ctx : option Z)
| sys_exit_connect (ret : Z)
| sys_enter_close (ctx : option Z)
| tcp_retransmit_skb (args : Tcp.retransmit_args)
| sys_enter_write (ctx : L7.rw_args) | sys_enter_writev (ctx : L7.rw_args)
| sys_enter_sendmsg (ctx : L7.rw_args) | sys_enter_sendmmsg (ctx : L7.rw_args)
| sys_enter_sendto (ctx : L7.rw_args)
| sys_enter_read (ctx : L7.rw_args) | sys_enter_readv (ctx : L7.rw_args)
| sys_enter_recvmsg (ctx : L7.rw_args) | sys_enter_recvfrom (ctx : L7.rw_args)
| sys_exit_read (ret : Z) | sys_exit_readv (ret : Z)
| sys_exit_recvmsg (ret : Z) | sys_exit_recvfrom (ret : Z)
| go_crypto_tls_write_enter (ctx : pt_regs)
| go_crypto_tls_read_enter (ctx : pt_regs)
| go_crypto_tls_read_exit (ctx : pt_regs)
| openssl_SSL_write_enter (b : OpenSsl.bio) (ctx : pt_regs)
| openssl_SSL_read_enter (b : OpenSsl.bio) (ctx : pt_regs)
| openssl_SSL_read_ex_enter (b : OpenSsl.bio) (ctx : pt_regs)
| openssl_SSL_read_exit (ctx : pt_regs)
| seed_connection (cid : connection_id) (now : Z).

Definition run (v : env) (p : program) : st -> st :=
  match p with
  | uv_io_poll_exit => set_proc (Proc.set_node (Nodejs.uv_io_poll_exit v))
  | uv_io_poll_enter => set_proc (Proc.set_node (Nodejs.uv_io_poll_enter v))
  | uv_io_cb_enter => set_proc (Proc.set_node (Nodejs.uv_io_cb_enter v))
  | uv_io_cb_exit => set_proc (Proc.set_node (Nodejs.uv_io_cb_exit v))
  | pthread_cond_timedwait_enter =>
      set_proc (Proc.set_py (Python.pthread_cond_timedwait_enter v))
  | pthread_cond_timedwait_exit =>
      set_proc (Proc.set_py (Python.pthread_cond_timedwait_exit v))
  | task_newtask args => set_proc (Proc.task_newtask args)
  | sched_process_exit args => set_proc (Proc.sched_process_exit v args)
  | oom_mark_victim args => set_proc (Proc.oom_mark_victim args)
  | path_get ctx => set_files (File.path_get v (PT_REGS_PARM1 ctx))
  | sys_enter_open stack flags filename => set_files (File.sys_enter_open v stack flags filename)
  | sys_exit_open ret => set_files (File.sys_exit_open v ret)
  | sys_enter_openat stack flags filename =>
      set_files (File.sys_enter_openat v stack flags filename)
  | sys_exit_openat ret => set_files (File.sys_exit_openat v ret)
  | nf_ct_deliver_cached_events ctx =>
      set_tcp (Tcp.nf_ct_deliver_cached_events v (PT_REGS_PARM1 ctx))
  | inet_sock_set_state ctx => set_tcp (Tcp.inet_sock_set_state v ctx)
  | sys_enter_connect ctx => set_tcp (Tcp.sys_enter_connect v ctx)
  | sys_exit_connect ret => set_tcp (Tcp.sys_exit_connect v ret)
  | sys_enter_close ctx => set_tcp (Tcp.sys_enter_close v ctx)
  | tcp_retransmit_skb args => set_tcp (Tcp.tcp_retransmit_skb args)
  | sys_enter_write ctx => set_l7 (L7.sys_enter_write v ctx)
  | sys_enter_writev ctx => set_l7 (L7.sys_enter_writev v ctx)
  | sys_enter_sendmsg ctx => set_l7 (L7.sys_enter_sendmsg v ctx)
  | sys_enter_sendmmsg ctx => set_l7 (L7.sys_enter_sendmmsg v ctx)
  | sys_enter_sendto ctx => set_l7 (L7.sys_enter_sendto v ctx)
  | sys_enter_read ctx => set_l7 (L7.sys_enter_read v ctx)
  | sys_enter_readv ctx => set_l7 (L7.sys_enter_readv v ctx)
  | sys_enter_recvmsg ctx => set_l7 (L7.sys_enter_recvmsg v ctx)
  | sys_enter_recvfrom ctx => set_l7 (L7.sys_enter_recvfrom v ctx)
  | sys_exit_read ret => set_l7 (L7.sys_exit_read v ret)
  | sys_exit_readv ret => set_l7 (L7.sys_exit_readv v ret)
  | sys_exit_recvmsg ret => set_l7 (L7.sys_exit_recvmsg v ret)
  | sys_exit_recvfrom ret => set_l7 (L7.sys_exit_recvfrom v ret)
  | go_crypto_tls_write_enter ctx => set_l7 (GoTls.go_crypto_tls_write_enter v ctx)
  | go_crypto_tls_read_enter ctx => set_l7 (GoTls.go_crypto_tls_read_enter v ctx)
  | go_crypto_tls_read_exit ctx => set_l7 (GoTls.go_crypto_tls_read_exit v ctx)
  | openssl_SSL_write_enter OpenSsl.bio_st ctx => set_l7 (OpenSsl.openssl_SSL_write_enter v ctx)
  | openssl_SSL_write_enter OpenSsl.bio_st_v1_1_1 ctx =>
      set_l7 (OpenSsl.openssl_SSL_write_enter_v1_1_1 v ctx)
  | openssl_SSL_write_enter OpenSsl.bio_st_v3_0 ctx => set_l7 (OpenSsl.openssl_SSL_write_enter_v3_0 v ctx)
  | openssl_SSL_read_enter OpenSsl.bio_st ctx => set_l7 (OpenSsl.openssl_SSL_read_enter v ctx)
  | openssl_SSL_read_enter OpenSsl.bio_st_v1_1_1 ctx =>
      set_l7 (OpenSsl.openssl_SSL_read_enter_v1_1_1 v ctx)
  | openssl_SSL_read_enter OpenSsl.bio_st_v3_0 ctx => set_l7 (OpenSsl.openssl_SSL_read_enter_v3_0 v ctx)
  | openssl_SSL_read_ex_enter OpenSsl.bio_st ctx => set_l7 (OpenSsl.openssl_SSL_read_ex_enter v ctx)
  | openssl_SSL_read_ex_enter OpenSsl.bio_st_v1_1_1 ctx =>
      set_l7 (OpenSsl.openssl_SSL_read_ex_enter_v1_1_1 v ctx)
  | openssl_SSL_read_ex_enter OpenSsl.bio_st_v3_0 ctx => set_l7 (OpenSsl.openssl_SSL_read_ex_enter_v3_0 v ctx)
  | openssl_SSL_read_exit ctx => set_l7 (OpenSsl.openssl_SSL_read_exit v ctx)
  | seed_connection cid now => set_tcp (Tcp.seed_connection v cid now)
  end.

(** One run of one program, or one update by the agent; they run one at a time. *)
Inductive step : st -> st -> Prop :=
| step_run v p s : step s (run v p s).

Inductive reachable : st -> Prop :=
| reach_init : reachable init
| reach_step s s' : reachable s -> step s s' -> reachable s'.

End object.
End Object.
