(* ===== verification/ObjectSpec.v ===== *)
(** * Properties of the whole eBPF object

    Theorems about arbitrary sequences of program runs: where the events come
    from, how many a run reports, and the invariant of the maps and buffers. *)

From S2P Require Import Prelude L7Base Types Runtimes Proc File Tcp L7 L7Spec Tls Object.

Module ObjectSpec.
Import Object.
Section spec.
Context `{Arch}.

(** ** Runs *)

(** The programs that ran, in order, with the environments they ran in. *)
Definition trace : Type := list (env * program).
Definition exec (s : st) (tr : trace) : st := foldl (fun s vp => run vp.1 vp.2 s) s tr.

Lemma exec_app s tr tr' : exec s (tr ++ tr') = exec (exec s tr) tr'.
Proof. apply foldl_app. Qed.

(** The calls of the L7 hooks a program makes. *)
Lemma sendmmsg_calls n i v ctx offset :
  exists cs, (length cs <= n)%nat /\
    forall s, L7.sendmmsg_loop n i v ctx offset s = foldl L7Spec.do_call s cs.
Proof.
  revert i v offset. induction n as [|n IH]; intros i v offset; cbn [L7.sendmmsg_loop].
  { by exists []. }
  destruct (L7.rw_size ctx <=? i); [exists []; split; [cbn; lia|done]|].
  destruct (probe_read _ _ _) as [h|]; [|exists []; split; [cbn; lia|done]]. cbv zeta.
  destruct (IH (i + 1) (later 1 v) (offset + Z.of_nat L7.mmsghdr_size)) as (cs & Hn & Hrun).
  exists (L7Spec.call_write v (L7.rw_fd ctx) 0 (L7.msg_iov h) 0 (L7.msg_iovlen h) :: cs).
  split; [cbn; lia|]. intros s. by rewrite Hrun.
Qed.

(** Every run changes the processes, the files, the TCP state by one of the six
    TCP programs, or makes up to two hook calls. *)
Inductive change (v : env) (p : program) (s : st) : st -> Prop :=
| change_proc f : change v p s (set_proc f s)
| change_files f : change v p s (set_files f s)
| change_ct x : change v p s (set_tcp (Tcp.nf_ct_deliver_cached_events v x) s)
| change_state x : change v p s (set_tcp (Tcp.inet_sock_set_state v x) s)
| change_connect x : p = sys_enter_connect x -> change v p s (set_tcp (Tcp.sys_enter_connect v x) s)
| change_connected x : change v p s (set_tcp (Tcp.sys_exit_connect v x) s)
| change_close x : change v p s (set_tcp (Tcp.sys_enter_close v x) s)
| change_retransmit x : change v p s (set_tcp (Tcp.tcp_retransmit_skb x) s)
| change_seed cid now :
    p = seed_connection cid now -> change v p s (set_tcp (Tcp.seed_connection v cid now) s)
| change_calls cs :
    (length cs <= match p with sys_enter_sendmmsg _ => 2 | _ => 1 end)%nat ->
    change v p s (set_l7 (fun x => foldl L7Spec.do_call x cs) s).

Lemma change_none v p s : change v p s s.
Proof. replace s with (set_proc id s) at 2 by (by destruct s). apply change_proc. Qed.

Lemma change_call v p c s : change v p s (set_l7 (fun x => L7Spec.do_call x c) s).
Proof. apply (change_calls v p s [c]). by destruct p; cbn; lia. Qed.

(** A program that ends in one call of a hook, or gives up before. *)
Ltac hook_call :=
  lazymatch goal with
  | |- context [let? _ := ?o else _ in _] =>
      destruct o as [?|]; [hook_call|match goal with s : st |- _ => destruct s end; apply change_none]
  | |- context [L7.trace_enter_write ?v ?fd ?tls ?buf ?n ?iov (l7 ?s)] =>
      exact (change_call v _ (L7Spec.call_write v fd tls buf n iov) s)
  | |- context [L7.trace_enter_read ?v ?id ?pid ?fd ?buf ?ret ?iov (l7 ?s)] =>
      exact (change_call v _ (L7Spec.call_read_enter v id pid fd buf ret iov) s)
  | |- context [L7.trace_exit_read ?v ?id ?pid ?tls ?ret (l7 ?s)] =>
      exact (change_call v _ (L7Spec.call_read_exit v id pid tls ret) s)
  end.

Lemma run_change v p s : change v p s (run v p s).
Proof.
  destruct p; try destruct b; cbn [run]; try by econstructor.
  4:{ destruct (sendmmsg_calls 2 0 v ctx 0) as (cs & Hn & Hrun).
      unfold set_l7, L7.sys_enter_sendmmsg. rewrite Hrun. by apply (change_calls v _ s cs). }
  all: unfold set_l7, L7.sys_enter_write, L7.sys_enter_writev, L7.sys_enter_sendmsg,
    L7.sys_enter_sendto, L7.sys_enter_read, L7.sys_enter_readv, L7.sys_enter_recvmsg,
    L7.sys_enter_recvfrom, L7.sys_exit_read, L7.sys_exit_readv, L7.sys_exit_recvmsg,
    L7.sys_exit_recvfrom, GoTls.go_crypto_tls_write_enter, GoTls.go_crypto_tls_read_enter,
    GoTls.go_crypto_tls_read_exit, OpenSsl.openssl_SSL_write_enter,
    OpenSsl.openssl_SSL_write_enter_v1_1_1, OpenSsl.openssl_SSL_write_enter_v3_0,
    OpenSsl.openssl_SSL_read_enter, OpenSsl.openssl_SSL_read_enter_v1_1_1,
    OpenSsl.openssl_SSL_read_enter_v3_0, OpenSsl.openssl_SSL_read_ex_enter,
    OpenSsl.openssl_SSL_read_ex_enter_v1_1_1, OpenSsl.openssl_SSL_read_ex_enter_v3_0,
    OpenSsl.openssl_SSL_read_exit, OpenSsl.WRITE_ENTER, OpenSsl.READ_ENTER,
    OpenSsl.READ_EX_ENTER; hook_call.
Qed.

(** ** Events *)

Lemma do_calls_events s cs :
  exists es, L7.l7_events (foldl L7Spec.do_call s cs) = L7.l7_events s ++ es /\
    (length es <= length cs)%nat /\ Forall (L7Spec.about_connection (L7.connections s)) es.
Proof.
  revert s. induction cs as [|c cs IH]; intros s; cbn [foldl length].
  { exists []. by rewrite app_nil_r. }
  destruct (L7Spec.do_call_events s c) as (es & He & Hl & Hf).
  destruct (IH (L7Spec.do_call s c)) as (es' & -> & Hl' & Hf').
  exists (es ++ es'). rewrite He, app_assoc, length_app. split_and!; [done|lia|].
  apply Forall_app_2; [done|]. eapply Forall_impl; [exact Hf'|].
  apply L7Spec.do_call_timestamps.
Qed.

(** C3: a run of any program reports at most one L7 event, sendmmsg at most two, and
    every event it reports names a connection that is tracked when the run
    starts, with its start time. *)
Theorem run_l7_events v p s :
  exists es,
    L7.l7_events (l7 (run v p s)) = L7.l7_events (l7 s) ++ es /\
    (length es <= match p with sys_enter_sendmmsg _ => 2 | _ => 1 end)%nat /\
    Forall (L7Spec.about_connection (L7.connections (l7 s))) es.
Proof.
  destruct (run_change v p s) as [| | | | | | | | |cs Hcs].
  1-9: exists []; rewrite app_nil_r; split_and!; [done|cbn; lia|constructor].
  destruct (do_calls_events (l7 s) cs) as (es & He & Hl & Hf).
  exists es. split_and!; [done|lia|done].
Qed.

(** Process [pid] called connect on [fd]. *)
Definition connected (tr : trace) (fd pid : Z) : Prop :=
  exists v, (v, sys_enter_connect (Some fd)) ∈ tr /\ tgid v = pid.

(** The agent found that [fd] of the process was connected before. *)
Definition seeded (tr : trace) (fd pid : Z) : Prop :=
  exists v now, (v, seed_connection (ConnectionId fd pid) now) ∈ tr.

Definition opened (tr : trace) (fd pid : Z) : Prop := connected tr fd pid \/ seeded tr fd pid.

Lemma opened_app tr tr' fd pid : opened tr fd pid -> opened (tr ++ tr') fd pid.
Proof.
  intros [(v & Hin & Hp)|(v & now & Hin)]; [left; exists v|right; exists v, now]; rewrite elem_of_app; auto.
Qed.

Lemma known_exec tr : L7Spec.known (opened tr) (l7 (exec init tr)).
Proof.
  induction tr as [|[v p] tr IH] using rev_ind.
  { split; [apply Tcp.known_init|]. cbn. set_solver. }
  rewrite exec_app. cbn [exec foldl fst snd].
  assert (L7Spec.known (opened (tr ++ [(v, p)])) (l7 (exec init tr))) as [Ht Hl].
  { destruct IH as [Ht Hl]. split.
    - eapply Tcp.known_weaken; [|exact Ht]. intros fd pid. apply opened_app.
    - intros e He. by apply opened_app, Hl. }
  fold (exec init tr). destruct (run_change v p (exec init tr)) as [| |x|x|[fd|] ->|x|x|x|cid now ->|cs _].
  - done.
  - done.
  - split; [by apply Tcp.known_nf_ct_deliver_cached_events|done].
  - split; [by apply Tcp.known_inet_sock_set_state|done].
  - split; [|done]. apply Tcp.known_sys_enter_connect; [|done].
    left. exists v. split; [|done]. rewrite elem_of_app, list_elem_of_singleton. by right.
  - done.
  - split; [by apply Tcp.known_sys_exit_connect|done].
  - split; [by apply Tcp.known_sys_enter_close|done].
  - split; [by apply Tcp.known_tcp_retransmit_skb|done].
  - split; [|done]. apply Tcp.known_add_connection; [|done]. right. exists v, now. destruct cid.
    rewrite elem_of_app, list_elem_of_singleton. by right.
  - cbn. revert Ht Hl. generalize (l7 (exec init tr)) as s0.
    induction cs as [|c cs IHc]; intros s0 Ht Hl; [done|]. cbn [foldl].
    destruct (L7Spec.known_do_call _ _ c (conj Ht Hl)). by apply IHc.
Qed.

(** C1: provenance: after any sequence of program runs, among which the agent adds the connections
    that were open when it started, every L7 event and every event of the connection channel is
    about a descriptor on which the process it names called connect, or which the agent added
    for this process, and so is every connection, socket and request the maps hold. *)
Theorem events_come_from_connect tr :
  let s := l7 (exec init tr) in
  (forall e, e ∈ L7.l7_events s -> opened tr (e_fd e) (e_pid e)) /\
  (forall e, e ∈ Tcp.tcp_connect_events (L7.tcp s) -> opened tr (t_fd e) (t_pid e)) /\
  (forall cid c, L7.connections s !! cid = Some c -> opened tr (cid_fd cid) (cid_pid cid)) /\
  (forall a cid, Tcp.connection_id_by_socket (L7.tcp s) !! a = Some cid ->
                 opened tr (cid_fd cid) (cid_pid cid)) /\
  (forall k r, L7.requests s !! k = Some r -> opened tr (k_fd k) (k_pid k)).
Proof. destruct (known_exec tr) as [[] Hl]. cbv zeta. by split_and!. Qed.

End spec.
End ObjectSpec.
