(* ===== verification/Invariant.v ===== *)
(** * The invariant of the maps and buffers

    What every program of the object preserves: the payload and gathering buffers
    have the size the programs assume, pending requests and reported events
    carry a protocol, byte counters stay 64-bit words, and no hash map holds more
    than its [max_entries]. *)

From S2P Require Import Prelude L7Base ProtoText ProtoSql ProtoBin Foundationdb Types.
From S2P Require Import Runtimes Proc File Tcp L7 L7Spec Tls Object ObjectSpec.

Module Invariant.
Import L7Spec.

(** A payload buffer, whose last byte no copy reaches. *)
Definition payload_ok (b : list Z) : Prop := length b = Z.to_nat MAX_PAYLOAD_SIZE /\ b.[1023] = 0.
(** A payload kept for MySQL starts with a packet that is not empty. *)
Definition framed (p : Z) (b : list Z) : Prop := p = PROTOCOL_MYSQL -> 1 <= Mysql.packet_length b.
Definition request_ok (r : l7_request) : Prop :=
  payload_ok (payload r) /\ is_protocol (protocol r) /\ (partial r = 0 \/ partial r = 1) /\
  framed (protocol r) (payload r) /\ (protocol r = PROTOCOL_MYSQL -> 5 <= payload_size r).
Definition event_ok (e : l7_event) : Prop :=
  payload_ok (e_payload e) /\ is_protocol (e_protocol e) /\ framed (e_protocol e) (e_payload e).

(** ** TCP state *)

Record tcp_ok (s : Tcp.st) : Prop := {
  ok_connections : map_Forall (fun _ c => counters_ok c) (Tcp.active_connections s);
  ok_requests : map_Forall (fun _ r => request_ok r) (Tcp.active_l7_requests s);
  ok_fds : Z.of_nat (size (Tcp.fd_by_pid_tgid s)) <= Tcp.fd_max_entries
}.

Lemma map_Forall_delete_any {K A} `{Countable K} (P : K -> A -> Prop) (k : K) (m : gmap K A) :
  map_Forall P m -> map_Forall P (delete k m).
Proof. apply map_Forall_delete. Qed.

Lemma map_Forall_lru {K A} `{Countable K} (P : A -> Prop) policy flags (k : K) x (m : gmap K A) :
  P x -> map_Forall (fun _ => P) m ->
  map_Forall (fun _ => P) (lru_update policy flags k x m).2.
Proof. intros Hx Hm k' x' [[_ ->]|Hk]%lru_update_lookup; [done|]. by eapply Hm. Qed.

Lemma map_Forall_alter {K A} `{Countable K} (P : A -> Prop) f (k : K) (m : gmap K A) :
  (forall x, P x -> P (f x)) -> map_Forall (fun _ => P) m -> map_Forall (fun _ => P) (alter f k m).
Proof.
  intros Hf Hm k' x'. rewrite lookup_alter_Some. intros [(_ & x & Hx & ->)|[_ Hx]].
  - by eapply Hf, Hm.
  - by eapply Hm.
Qed.

Lemma size_delete_le {K A} `{Countable K} (k : K) (m : gmap K A) n :
  Z.of_nat (size m) <= n -> Z.of_nat (size (delete k m)) <= n.
Proof. intros. rewrite map_size_delete. case_match; cbn; lia. Qed.

Create HintDb inv.
#[export] Hint Resolve map_Forall_delete_any map_Forall_lru map_Forall_alter size_delete_le
  hash_update_size : inv.

Lemma counters_ok_fresh t : counters_ok (Connection t 0 0).
Proof. by split. Qed.
#[export] Hint Resolve counters_ok_fresh : inv.

Lemma tcp_ok_init : tcp_ok Tcp.init.
Proof. split; [apply map_Forall_empty..|done]. Qed.

Section tcp.
Implicit Types s : Tcp.st.

Lemma tcp_ok_output ch e s : tcp_ok s -> tcp_ok (Tcp.output ch e s).
Proof. by intros []; split. Qed.
Lemma tcp_ok_set_fds f s :
  (Z.of_nat (size (Tcp.fd_by_pid_tgid s)) <= Tcp.fd_max_entries ->
   Z.of_nat (size (f (Tcp.fd_by_pid_tgid s))) <= Tcp.fd_max_entries) ->
  tcp_ok s -> tcp_ok (Tcp.set_fds f s).
Proof. intros Hf []; split; auto. Qed.
Lemma tcp_ok_set_sockets f s : tcp_ok s -> tcp_ok (Tcp.set_sockets f s).
Proof. by intros []; split. Qed.
Lemma tcp_ok_set_connections f s :
  (map_Forall (fun _ c => counters_ok c) (Tcp.active_connections s) ->
   map_Forall (fun _ c => counters_ok c) (f (Tcp.active_connections s))) ->
  tcp_ok s -> tcp_ok (Tcp.set_connections f s).
Proof. intros Hf []; split; auto. Qed.
Lemma tcp_ok_set_requests f s :
  (map_Forall (fun _ r => request_ok r) (Tcp.active_l7_requests s) ->
   map_Forall (fun _ r => request_ok r) (f (Tcp.active_l7_requests s))) ->
  tcp_ok s -> tcp_ok (Tcp.set_requests f s).
Proof. intros Hf []; split; auto. Qed.
End tcp.
#[export] Hint Resolve tcp_ok_output tcp_ok_set_fds tcp_ok_set_sockets tcp_ok_set_connections
  tcp_ok_set_requests : inv.

Lemma tcp_ok_nf_ct v x s : tcp_ok s -> tcp_ok (Tcp.nf_ct_deliver_cached_events v x s).
Proof.
  intros Hs. unfold Tcp.nf_ct_deliver_cached_events, Tcp.handle_ct. case_match; [|done].
  case_match; [done|]. destruct (if Tcp.src_l3num _ =? _ then _ else _). destruct Hs; by split.
Qed.

Lemma tcp_ok_sys_enter_connect v x s : tcp_ok s -> tcp_ok (Tcp.sys_enter_connect v x s).
Proof. unfold Tcp.sys_enter_connect. case_match; eauto with inv. Qed.

Lemma tcp_ok_sys_exit_connect v x s : tcp_ok s -> tcp_ok (Tcp.sys_exit_connect v x s).
Proof. unfold Tcp.sys_exit_connect. repeat case_match; eauto 10 with inv. Qed.

Lemma tcp_ok_sys_enter_close v x s : tcp_ok s -> tcp_ok (Tcp.sys_enter_close v x s).
Proof. unfold Tcp.sys_enter_close. repeat case_match; eauto with inv. Qed.

Lemma tcp_ok_leave_syn_sent v args s s' o :
  tcp_ok s -> Tcp.leave_syn_sent v args s = Some (s', o) -> tcp_ok s'.
Proof.
  intros Hs. unfold Tcp.leave_syn_sent. repeat case_match; intros; simplify_eq; eauto with inv.
Qed.

Lemma tcp_ok_inet_sock_set_state v x s : tcp_ok s -> tcp_ok (Tcp.inet_sock_set_state v x s).
Proof.
  intros Hs. unfold Tcp.inet_sock_set_state. destruct x as [args|]; [|done].
  case_match; [done|]. case_match.
  { case_match; [|done]. apply tcp_ok_set_connections; [auto with inv|].
    apply tcp_ok_set_sockets, tcp_ok_set_fds; auto with inv. }
  cbv zeta.
  destruct (if Tcp.oldstate args =? Tcp.BPF_TCP_SYN_SENT then _ else _) as [[s1 o]|] eqn:Ho; [|done].
  assert (tcp_ok s1) as Hs1.
  { destruct (Tcp.oldstate args =? Tcp.BPF_TCP_SYN_SENT); [by eapply tcp_ok_leave_syn_sent|].
    by injection Ho as <- _. }
  clear Ho.
  set (s2 := if (Tcp.oldstate args =? Tcp.BPF_TCP_ESTABLISHED) && _ then _ else s1).
  assert (tcp_ok s2) as Hs2 by (subst s2; apply if_both; eauto with inv). clearbody s2.
  repeat (case_match; try done); eauto with inv.
Qed.

(** ** L7 state *)

Record l7_ok (s : L7.st) : Prop := {
  ok_tcp : tcp_ok (L7.tcp s);
  ok_event_heap : map_Forall (fun _ e => payload_ok (e_payload e)) (L7.l7_event_heap s);
  ok_request_heap : map_Forall (fun _ r => payload_ok (payload r)) (L7.l7_request_heap s);
  ok_iovec_heap :
    map_Forall (fun _ b => length b = Z.to_nat IOVEC_BUF_SIZE) (L7.iovec_buf_heap s);
  ok_events : Forall event_ok (L7.l7_events s)
}.

Lemma percpu_ok {A} (P : A -> Prop) zero c (h : gmap Z A) :
  P zero -> map_Forall (fun _ => P) h -> P (percpu zero c h).
Proof. intros Hz Hh. unfold percpu. destruct (h !! c) eqn:E; [by eapply Hh|done]. Qed.

Lemma payload_ok_write src dst :
  (length src <= 1023)%nat -> payload_ok dst -> payload_ok (write_at 0 src dst).
Proof.
  intros Hs [Hl Hz]. change (Z.to_nat MAX_PAYLOAD_SIZE) with 1024%nat in *. split.
  - rewrite write_at_length; [done|lia].
  - rewrite nth_lookup, write_at_0, lookup_app_r, lookup_drop by lia.
    replace (length src + (1023 - length src))%nat with 1023%nat by lia. by rewrite <-nth_lookup.
Qed.

Lemma COPY_PAYLOAD_ok m dst size src ok buf :
  payload_ok dst -> L7.COPY_PAYLOAD m dst size src = (ok, buf) -> payload_ok buf.
Proof.
  unfold L7.COPY_PAYLOAD. intros Hd. pose proof (TRUNCATE_PAYLOAD_SIZE_range size) as Hs.
  destruct (probe_read _ _ _) as [bs|] eqn:R; intros [= <- <-]; apply payload_ok_write; try done.
  - apply probe_read_length in R. lia.
  - unfold zeros. rewrite length_replicate. lia.
Qed.

Lemma COPY_PAYLOAD_length m dst size src ok buf :
  length dst = Z.to_nat MAX_PAYLOAD_SIZE -> L7.COPY_PAYLOAD m dst size src = (ok, buf) ->
  length buf = Z.to_nat MAX_PAYLOAD_SIZE.
Proof.
  unfold L7.COPY_PAYLOAD. change (Z.to_nat MAX_PAYLOAD_SIZE) with 1024%nat.
  intros Hd. pose proof (TRUNCATE_PAYLOAD_SIZE_range size) as Hs.
  destruct (probe_read _ _ _) as [bs|] eqn:R; intros [= <- <-]; rewrite write_at_length; try done.
  - apply probe_read_length in R. lia.
  - unfold zeros. rewrite length_replicate. lia.
Qed.

Lemma packet_length_prefix b b' :
  take 3 b = take 3 b' -> Mysql.packet_length b = Mysql.packet_length b'.
Proof.
  intros E. unfold Mysql.packet_length.
  assert (forall i, (i < 3)%nat -> nth i b 0 = nth i b' 0) as Hn.
  { intros i Hi. rewrite !nth_lookup, <-(lookup_take_lt b 3 i), <-(lookup_take_lt b' 3 i) by done. by rewrite E. }
  by rewrite !Hn by lia.
Qed.

Lemma COPY_PAYLOAD_framed m dst size src buf p :
  recognised m src size p -> L7.COPY_PAYLOAD m dst size src = (true, buf) -> framed p buf.
Proof.
  intros Hr E Hp. destruct (Hr Hp) as [rt Hq]. unfold Mysql.is_mysql_query in Hq.
  destruct (Z.ltb_spec size 5); [done|]. destruct (probe_read m src 5) as [b|] eqn:R; [|done].
  destruct (Z.eqb_spec (Mysql.packet_length b + 4) size) as [Hl|]; [|done].
  unfold L7.COPY_PAYLOAD in E. rewrite TRUNCATE_PAYLOAD_SIZE_min in E by lia.
  destruct (probe_read m src _) as [bs|] eqn:R'; [|done]. injection E as <-.
  rewrite (packet_length_prefix _ b); [lia|].
  pose proof (probe_read_slice _ _ _ _ 0 5 R') as Hs. rewrite Z.add_0_r, R in Hs.
  injection Hs as ->; [|lia]. rewrite drop_0, take_take, write_at_0.
  pose proof (probe_read_length _ _ _ _ R'). by rewrite take_app_le by lia.
Qed.

Section l7.
Implicit Types s : L7.st.

Lemma l7_ok_put_event v e s : payload_ok (e_payload e) -> l7_ok s -> l7_ok (L7.put_event v e s).
Proof. intros He []; split; try done. by apply map_Forall_insert_2. Qed.
Lemma l7_ok_put_req v r s : payload_ok (payload r) -> l7_ok s -> l7_ok (L7.put_req v r s).
Proof. intros He []; split; try done. by apply map_Forall_insert_2. Qed.
Lemma l7_ok_put_iovec v b s :
  length b = Z.to_nat IOVEC_BUF_SIZE -> l7_ok s -> l7_ok (L7.put_iovec v b s).
Proof. intros He []; split; try done. by apply map_Forall_insert_2. Qed.
Lemma l7_ok_set_tcp f s :
  (tcp_ok (L7.tcp s) -> tcp_ok (f (L7.tcp s))) -> l7_ok s -> l7_ok (L7.set_tcp f s).
Proof. intros Hf []; split; auto. Qed.
Lemma l7_ok_set_reads f s : l7_ok s -> l7_ok (L7.set_reads f s).
Proof. by intros []; split. Qed.
Lemma l7_ok_send v e cid conn s : event_ok e -> l7_ok s -> l7_ok (L7.send_event v e cid conn s).
Proof.
  intros (Hp & Hq & Hf) []. split; try done.
  - by apply map_Forall_insert_2.
  - cbn. apply Forall_app_2; [done|]. constructor; [by split_and!|constructor].
Qed.

Lemma l7_ok_delete k s : l7_ok s -> l7_ok (L7.set_requests (delete k) s).
Proof. apply l7_ok_set_tcp, tcp_ok_set_requests. auto with inv. Qed.
Lemma l7_ok_insert k r s : request_ok r -> l7_ok s -> l7_ok (L7.set_requests (insert k r) s).
Proof.
  intros Hr. apply l7_ok_set_tcp, tcp_ok_set_requests. intros. by apply map_Forall_insert_2.
Qed.

Lemma event_buf_ok v s :
  l7_ok s -> payload_ok (e_payload (percpu l7_event_zero (cpu v) (L7.l7_event_heap s))).
Proof.
  intros Hs. by apply (percpu_ok (fun e => payload_ok (e_payload e))), (ok_event_heap _ Hs).
Qed.
Lemma request_buf_ok v s :
  l7_ok s -> payload_ok (payload (percpu l7_request_zero (cpu v) (L7.l7_request_heap s))).
Proof.
  intros Hs. by apply (percpu_ok (fun e => payload_ok (payload e))), (ok_request_heap _ Hs).
Qed.

Lemma track_request_ok v m ptr size k p req s :
  payload_ok (payload req) -> partial req = 0 -> payload_size req = size -> is_protocol p ->
  recognised m ptr size p -> l7_ok s ->
  l7_ok (L7.track_request v m ptr size k (L7.rq_set_protocol p req) s).
Proof.
  intros Hb Hpart Hsize Hp Hr Hs. unfold L7.track_request. case_match; [by apply l7_ok_put_req|].
  cbn [payload L7.rq_set_protocol ns].
  assert (payload (if ns req =? 0 then L7.rq_set_ns (ktime v 0) (L7.rq_set_protocol p req)
    else L7.rq_set_protocol p req) = payload req) as -> by (by case_match).
  destruct (L7.COPY_PAYLOAD _ _ _ _) as [ok buf] eqn:E.
  pose proof (COPY_PAYLOAD_ok _ _ _ _ _ _ Hb E) as Hbuf.
  destruct ok; [|by apply l7_ok_put_req].
  apply l7_ok_set_tcp; [|by apply l7_ok_put_req]. apply tcp_ok_set_requests.
  pose proof (COPY_PAYLOAD_framed _ _ _ _ _ _ Hr E) as Hf.
  assert (p = PROTOCOL_MYSQL -> 5 <= payload_size req) as H5.
  { intros Hmy. destruct (Hr Hmy) as [rt Hq]. unfold Mysql.is_mysql_query in Hq.
    destruct (Z.ltb_spec size 5); [done|lia]. }
  apply map_Forall_lru. case_match; split_and!; auto.
Qed.

Lemma statement_close_ok v m ptr size p cid conn s :
  is_protocol p -> recognised m ptr size p -> l7_ok s ->
  l7_ok (L7.statement_close v m ptr size p cid conn s).
Proof.
  intros Hp Hr Hs. unfold L7.statement_close.
  destruct (L7.COPY_PAYLOAD _ _ _ _) as [ok buf] eqn:E.
  pose proof (COPY_PAYLOAD_ok _ _ _ _ _ _ (event_buf_ok v s Hs) E).
  destruct ok; [|by apply l7_ok_put_event]. apply l7_ok_send; [|done].
  split_and!; try done. cbn. by eapply COPY_PAYLOAD_framed.
Qed.

Lemma produce_ok v p cid conn s :
  is_protocol p -> p <> PROTOCOL_MYSQL -> l7_ok s -> l7_ok (L7.produce v p cid conn s).
Proof. intros Hp Hn Hs. apply l7_ok_send; [|done]. split_and!; [apply event_buf_ok, Hs..|done|by intros ?]. Qed.

Lemma http2_frames_ok v m ptr size method e cid conn s :
  payload_ok (e_payload e) -> l7_ok s ->
  l7_ok (L7.http2_frames v m ptr size method e cid conn s).
Proof.
  intros Hp Hs. unfold L7.http2_frames.
  destruct (L7.COPY_PAYLOAD _ _ _ _) as [ok buf] eqn:E. eapply COPY_PAYLOAD_ok in E; [|done].
  case_match; [by apply l7_ok_send|by apply l7_ok_put_event].
Qed.

Lemma classify_write_ok v m ptr size total_size cid conn k req s :
  payload_ok (payload req) -> partial req = 0 -> payload_size req = size -> l7_ok s ->
  l7_ok (L7.classify_write v m ptr size total_size cid conn k req s).
Proof.
  intros Hb Hpart Hsize Hs. apply classify_write_cases.
  - intros p k' req' Hp Hr _ (Hpa & Hps & Hpl & _). apply track_request_ok; by rewrite ?Hpa, ?Hps, ?Hpl.
  - intros p req' Hp Hr (_ & _ & Hpl & _). apply statement_close_ok; [done|done|].
    apply l7_ok_put_req; by rewrite ?Hpl.
  - intros p req' Hp Hn (_ & _ & Hpl & _). apply produce_ok; [done|done|]. apply l7_ok_put_req; by rewrite ?Hpl.
  - intros req' (_ & _ & Hpl & _). apply http2_frames_ok; [by apply event_buf_ok|].
    apply l7_ok_put_req; by rewrite ?Hpl.
  - intros req' (_ & _ & Hpl & _). apply l7_ok_put_req; by rewrite ?Hpl.
Qed.

Lemma answers_ok req e e' :
  request_ok req -> payload_ok (e_payload e) -> answers req e e' -> event_ok e'.
Proof.
  intros (Hb & Hp & Hpart & Hf & H5) He (Hpr & _ & Hpay).
  pose proof (TRUNCATE_PAYLOAD_SIZE_range (payload_size req)) as Ht.
  split_and!; [|by rewrite Hpr|].
  - rewrite Hpay. apply payload_ok_write; [|done]. rewrite length_take. lia.
  - rewrite Hpr, Hpay. intros Hmy. specialize (Hf Hmy). specialize (H5 Hmy).
    rewrite TRUNCATE_PAYLOAD_SIZE_min by lia. rewrite (packet_length_prefix _ (payload req)); [done|].
    destruct Hb as [Hl _]. change (Z.to_nat MAX_PAYLOAD_SIZE) with 1024%nat in Hl.
    rewrite write_at_0, take_app_le by (rewrite length_take; lia). rewrite take_take. f_equal. lia.
Qed.

Lemma match_response_ok v m ptr ret total_size cid conn k req resp e s :
  request_ok req -> payload_ok (e_payload e) -> l7_ok s ->
  l7_ok (L7.match_response v m ptr ret total_size cid conn k req resp e s).
Proof.
  intros (Hb & Hp & Hpart & Hf & H5) He Hs.
  assert (request_ok (truncated req)) as Hr.
  { split_and!; try done. intros Hmy. specialize (H5 Hmy). cbn. rewrite TRUNCATE_PAYLOAD_SIZE_min by lia. lia. }
  assert (forall e', answers req e e' -> event_ok e') as Hans by (intros e'; by apply answers_ok).
  apply match_response_cases.
  - intros b e' Ha%Hans. unfold L7.respond. case_match.
    + apply l7_ok_put_event; [apply Ha|]. by apply l7_ok_delete, l7_ok_insert.
    + apply l7_ok_send; [apply Ha|]. by apply l7_ok_delete, l7_ok_insert.
  - intros e' Ha%Hans. unfold L7.keep_partial. apply l7_ok_put_event; [apply Ha|].
    apply l7_ok_insert; [|by apply l7_ok_insert]. destruct Hr as (? & ? & _ & ? & ?). split_and!; auto.
  - intros e' Ha%Hans. apply l7_ok_put_event; [apply Ha|]. by apply l7_ok_insert.
Qed.

Lemma classify_read_ok v m ptr ret total_size cid conn k s :
  l7_ok s -> l7_ok (L7.classify_read v m ptr ret total_size cid conn k s).
Proof.
  intros Hs. pose proof (event_buf_ok v s Hs) as He. unfold L7.classify_read. cbv zeta.
  assert (forall k' r, L7.requests s !! k' = Some r -> request_ok r) as Hreq
    by (intros k' r; apply (ok_requests _ (ok_tcp _ Hs))).
  repeat branch l7_ok.
  - by apply l7_ok_send.
  - by apply l7_ok_send.
  - apply match_response_ok; [by eapply Hreq|done|done].
  - apply unsolicited_cases.
    + intros e' Hp. apply l7_ok_put_event; [by rewrite Hp|done].
    + intros k' r e' buf _ Hk Hp Hbuf. apply l7_ok_delete, l7_ok_send; [|done].
      split; [by eapply COPY_PAYLOAD_ok in Hbuf|]. cbn. rewrite Hp. by split.
    + intros e' buf Hbuf. apply l7_ok_put_event; [by eapply COPY_PAYLOAD_ok in Hbuf|done].
    + intros k' r e' _ Hk Hp. apply match_response_ok; [by eapply Hreq|by rewrite Hp|done].
    + intros e' Hp. apply http2_frames_ok; [by rewrite Hp|done].
Qed.

Lemma gather_ok v buf iovlen ret s n h total :
  0 <= ret -> l7_ok s ->
  L7.read_iovec (memory v) buf iovlen ret
    (percpu iovec_buf_zero (cpu v) (L7.iovec_buf_heap s)) 0 = (n, h, total) ->
  l7_ok (L7.put_iovec v h s).
Proof.
  intros Hret Hs R. apply l7_ok_put_iovec; [|done].
  eapply read_iovec_length; [exact Hret| |exact R].
  by apply (percpu_ok (fun b => length b = Z.to_nat IOVEC_BUF_SIZE)), (ok_iovec_heap _ Hs).
Qed.

Lemma counters_ok_sent n c : counters_ok c -> counters_ok (L7.add_sent n c).
Proof. intros [? ?]. split; [apply u64_idemp|done]. Qed.
Lemma counters_ok_received n c : counters_ok c -> counters_ok (L7.add_received n c).
Proof. intros [? ?]. split; [done|apply u64_idemp]. Qed.

Lemma l7_ok_count f cid s :
  (forall c, counters_ok c -> counters_ok (f c)) -> l7_ok s ->
  l7_ok (L7.set_connections (alter f cid) s).
Proof. intros Hf. apply l7_ok_set_tcp, tcp_ok_set_connections. by apply map_Forall_alter. Qed.

Lemma do_call_ok s c : l7_ok s -> l7_ok (do_call s c).
Proof.
  intros Hs. destruct c as [v fd is_tls buf size iovlen|v id pid fd buf ret iovlen|v id pid is_tls ret];
    cbn [do_call].
  - unfold L7.trace_enter_write, L7.gather. case_match; [|done].
    destruct (negb (iovlen =? 0));
      [destruct (L7.read_iovec _ _ _ _ _ _) as [[n h] total] eqn:R; apply gather_ok in R; [|lia|done]|];
      (case_match; [done|]);
      match goal with |- l7_ok (L7.classify_write _ _ _ _ _ _ _ _ _ ?s0) => assert (l7_ok s0) as Hs0
        by (apply if_both; [apply l7_ok_count; [apply counters_ok_sent|done]|done]) end;
      (apply classify_write_ok; [by apply request_buf_ok|done|done|done]).
  - unfold L7.trace_enter_read. case_match; [by apply l7_ok_set_reads|done].
  - unfold L7.trace_exit_read, L7.gather. case_match; [|done].
    apply (l7_ok_set_reads (delete id)) in Hs. case_match; [|done]. cbv zeta.
    branch l7_ok; [done|]. branch l7_ok; [|done]. destruct (Z.leb_spec a 0); [done|].
    destruct (negb (ra_iovlen _ =? 0));
      [destruct (L7.read_iovec _ _ _ _ _ _) as [[n h] total] eqn:R; apply gather_ok in R; [|lia|done]|];
      (branch l7_ok; [done|]); apply classify_read_ok;
      (apply if_both; [apply l7_ok_count; [apply counters_ok_received|done]|done]).
Qed.
End l7.

(** ** Processes and files *)

Definition room {A} (max : Z) (m : gmap Z A) : Prop := Z.of_nat (size m) <= max.

Lemma room_delete {A} max k (m : gmap Z A) : room max m -> room max (delete k m).
Proof. apply size_delete_le. Qed.
Lemma room_update {A} max flags k (x : A) m : room max m -> room max (hash_update max flags k x m).2.
Proof. apply hash_update_size. Qed.
Lemma room_alter {A} max f k (m : gmap Z A) : room max m -> room max (alter f k m).
Proof.
  unfold room. intros Hm. enough (size (alter f k m) = size m) as -> by done.
  rewrite <-!size_dom. by rewrite dom_alter.
Qed.
#[local] Hint Resolve room_delete room_update room_alter : inv.

Record proc_ok (s : Proc.st) : Prop := {
  ok_prev : room Nodejs.max_entries (Nodejs.nodejs_prev_event_loop_iter (Proc.node s));
  ok_cb : room Nodejs.max_entries (Nodejs.nodejs_current_io_cb (Proc.node s));
  ok_node_stats : room Nodejs.max_entries (Nodejs.nodejs_stats (Proc.node s));
  ok_py_stats : room Python.max_entries (Python.python_stats (Proc.py s));
  ok_locks : room Python.max_entries (Python.python_thread_locks (Proc.py s));
  ok_oom : room Proc.oom_max_entries (Proc.oom_info s)
}.

Definition files_ok (s : File.st) : Prop := room File.max_entries (File.open_file_info s).

Lemma trace_enter_open_ok v stack flags filename s :
  files_ok s -> files_ok (File.trace_enter_open v stack flags filename s).
Proof.
  intros Hs. unfold File.trace_enter_open. repeat (case_match; try done); by apply room_update.
Qed.

(** ** The object *)

Section object.
Context `{Arch}.

Record ok (s : Object.st) : Prop := {
  ok_proc : proc_ok (Object.proc s);
  ok_files : files_ok (Object.files s);
  ok_l7 : l7_ok (Object.l7 s)
}.

Lemma run_proc_ok v p s : proc_ok (Object.proc s) -> proc_ok (Object.proc (Object.run v p s)).
Proof.
  intros Hs. destruct p; try (destruct b); try exact Hs; cbn.
  1-4: unfold Proc.set_node, Nodejs.uv_io_poll_exit, Nodejs.uv_io_poll_enter, Nodejs.uv_io_cb_enter,
    Nodejs.uv_io_cb_exit; destruct Hs; split; try done; cbn;
    unfold Nodejs.account; repeat (case_match; try done); cbn; auto with inv.
  1-2: unfold Proc.set_py, Python.pthread_cond_timedwait_enter, Python.pthread_cond_timedwait_exit;
    destruct Hs; split; try done; cbn; repeat (case_match; try done); cbn; auto with inv.
  - unfold Proc.task_newtask. case_match; [done|]. by destruct Hs.
  - unfold Proc.sched_process_exit. case_match; [done|].
    destruct Hs. case_match; split; cbn; auto with inv.
  - destruct Hs. split; cbn; auto with inv.
Qed.

Lemma run_files_ok v p s : files_ok (Object.files s) -> files_ok (Object.files (Object.run v p s)).
Proof.
  intros Hs. destruct p; try (destruct b); try exact Hs; cbn.
  - unfold File.path_get. repeat (case_match; try done). by apply room_alter.
  - by apply trace_enter_open_ok.
  - unfold File.sys_exit_open, File.trace_exit_open.
    repeat (case_match; try done); by apply room_delete.
  - by apply trace_enter_open_ok.
  - unfold File.sys_exit_openat, File.trace_exit_open.
    repeat (case_match; try done); by apply room_delete.
Qed.

Lemma run_l7_ok v p s : l7_ok (Object.l7 s) -> l7_ok (Object.l7 (Object.run v p s)).
Proof.
  intros Hs. destruct (ObjectSpec.run_change v p s) as [| |x|x|x _|x|x|x|cid now _|cs _]; cbn; try done.
  - apply l7_ok_set_tcp; [|done]. apply tcp_ok_nf_ct.
  - apply l7_ok_set_tcp; [|done]. apply tcp_ok_inet_sock_set_state.
  - apply l7_ok_set_tcp; [|done]. apply tcp_ok_sys_enter_connect.
  - apply l7_ok_set_tcp; [|done]. apply tcp_ok_sys_exit_connect.
  - apply l7_ok_set_tcp; [|done]. apply tcp_ok_sys_enter_close.
  - apply l7_ok_set_tcp; [|done]. apply tcp_ok_output.
  - apply l7_ok_set_tcp; [|done]. apply tcp_ok_set_connections. auto with inv.
  - revert Hs. generalize (Object.l7 s) as s0.
    induction cs as [|c cs IH]; intros s0 Hs; [done|]. cbn [foldl]. by apply IH, do_call_ok.
Qed.

Lemma ok_init : ok Object.init.
Proof.
  split; [split; done|done|].
  split; [apply tcp_ok_init|apply map_Forall_empty..|constructor].
Qed.

Lemma run_ok v p s : ok s -> ok (Object.run v p s).
Proof. intros []. split; [by apply run_proc_ok|by apply run_files_ok|by apply run_l7_ok]. Qed.

Lemma exec_ok s tr : ok s -> ok (ObjectSpec.exec s tr).
Proof. revert s. induction tr as [|[v p] tr IH]; intros s Hs; [done|]. by apply IH, run_ok. Qed.

(** C2: the invariant holds in every reachable state: every payload buffer has 1024
    bytes and every gathering buffer 2048, so no copy a handler makes leaves its
    buffer, and the last byte of a payload is never written; pending requests carry a
    protocol and a 0/1 partial mark and reported events a protocol; a payload reported
    for MySQL starts with the header of a packet that is not empty; the byte counters
    are 64-bit words; and no hash map holds more entries than its capacity. *)
Theorem reachable_ok s : Object.reachable s -> ok s.
Proof.
  induction 1 as [|s s' _ IH Hstep]; [apply ok_init|]. destruct Hstep as [v p s]. by apply run_ok.
Qed.
End object.

Lemma reachable_ok_witness :
  ok (@Object.run X86.arch (env_at (77 * 2^32 + 77) 5 mem_empty)
        (Object.sys_enter_connect (Some 9)) Object.init).
Proof.
  apply (@reachable_ok X86.arch). eapply Object.reach_step; [apply Object.reach_init|]. apply Object.step_run.
Defined.

End Invariant.
