(* ===== verification/PyBase.v ===== *)
(** * Building blocks of the profilers

    internal/pyroscope-ebpf/bpf: hash.h (the stack hash), pid.h (the pid in the
    agent's pid namespace), pyoffsets.h, pystr.h (reading a Python string),
    pthread_amd64.h and pthread_arm64.h (thread-specific data), stacks.h. *)

From S2P Require Import Prelude L7Base Types.

(** ** hash.h *)
Module Hash.

Definition HASH_LIMIT : Z := 32 * 3 * 4.
Definition m : Z := 0xc6a4a7935bd1e995.
Definition r : Z := 47.

(** One round of the loop on the 8-byte word [k]. *)
Definition mix (k h : Z) : Z :=
  let k := u64 (k * m) in
  let k := Z.lxor k (Z.shiftr k r) in
  let k := u64 (k * m) in
  let h := Z.lxor h k in
  u64 (h * m).

(** [for (; i < len/8 && i < HASH_LIMIT/8; i++)]; returns the final [i] and [h]. *)
Fixpoint murmur_loop (n : nat) (i : nat) (key : list Z) (len h : Z) : nat * Z :=
  match n with
  | O => (i, h)
  | S n =>
      if (Z.of_nat i <? len / 8) && (Z.of_nat i <? HASH_LIMIT / 8)
      then murmur_loop n (S i) key len (mix (field key (8 * i) 8) h)
      else (i, h)
  end.

(** [h ^= h >> r; h *= m; h ^= h >> r] *)
Definition finalize (h : Z) : Z :=
  let h := Z.lxor h (Z.shiftr h r) in
  let h := u64 (h * m) in
  Z.lxor h (Z.shiftr h r).

(** The bytes of the object [key] points to are [key]. *)
Definition MurmurHash64A (key : list Z) (len seed : Z) : Z :=
  let h := Z.lxor seed (u64 (len * m)) in
  let '(i, h) := murmur_loop (Z.to_nat (HASH_LIMIT / 8)) 0 key len h in
  let h :=
    if negb (Z.land len 7 =? 0)
    then u64 (Z.lxor h (field key (8 * i) 4) * m)
    else h in
  finalize h.

(** *** Reference

    The published MurmurHash64A: whole 8-byte blocks, then a tail of up to seven
    bytes, all little-endian. *)
Fixpoint murmur_blocks (bs : list Z) (h : Z) : Z :=
  match bs with
  | b0 :: b1 :: b2 :: b3 :: b4 :: b5 :: b6 :: b7 :: rest =>
      murmur_blocks rest (mix (le [b0; b1; b2; b3; b4; b5; b6; b7]) h)
  | [] => h
  | tail => u64 (Z.lxor h (le tail) * m)
  end.

Definition murmur_ref (bs : list Z) (seed : Z) : Z :=
  finalize (murmur_blocks bs (Z.lxor seed (u64 (Z.of_nat (length bs) * m)))).

#[local] Arguments mix : simpl never.

Lemma murmur_blocks_step bs h :
  (8 <= length bs)%nat -> murmur_blocks bs h = murmur_blocks (drop 8 bs) (mix (field bs 0 8) h).
Proof.
  intros Hl. do 8 (destruct bs as [|? bs]; [cbn in Hl; lia|]).
  unfold field. cbn [murmur_blocks drop take]. by rewrite take_0.
Qed.

Lemma murmur_blocks_4 bs h :
  length bs = 4%nat -> murmur_blocks bs h = u64 (Z.lxor h (le bs) * m).
Proof. do 4 (destruct bs as [|? bs]; [done|]). by destruct bs. Qed.

(** The end of the function after the loop. *)
Definition murmur_tail (key : list Z) (len : Z) (r : nat * Z) : Z :=
  if negb (Z.land len 7 =? 0) then u64 (Z.lxor r.2 (field key (8 * r.1) 4) * m) else r.2.

Lemma murmur_loop_blocks q n i key (t : nat) h :
  let len := (8 * i + 8 * q + t)%nat in
  (q <= n)%nat -> t = 0%nat \/ t = 4%nat -> (len <= length key)%nat -> (len <= 384)%nat ->
  murmur_tail key (Z.of_nat len) (murmur_loop n i key (Z.of_nat len) h)
  = murmur_blocks (take (8 * q + t) (drop (8 * i) key)) h.
Proof.
  revert n i h. induction q as [|q IH]; intros n i h len Hn Ht Hk Hmax.
  - assert (murmur_loop n i key (Z.of_nat len) h = (i, h)) as ->.
    { destruct n; [done|]. cbn [murmur_loop]. rewrite (proj2 (Z.ltb_ge _ _)); [done|].
      unfold len. destruct Ht as [-> | ->]; mod_lia. }
    unfold murmur_tail. cbn [fst snd]. change 7 with (Z.ones 3). rewrite Z.land_ones by lia.
    destruct Ht as [-> | ->].
    + assert (Z.of_nat len mod 2^3 = 0) as -> by (unfold len; mod_lia). done.
    + assert (Z.of_nat len mod 2^3 = 4) as -> by (unfold len; mod_lia). cbn [Z.eqb negb].
      rewrite murmur_blocks_4; [done|]. rewrite length_take, length_drop. lia.
  - destruct n as [|n]; [lia|]. cbn [murmur_loop].
    rewrite (proj2 (Z.ltb_lt _ _)), (proj2 (Z.ltb_lt _ _)).
    2:{ unfold len in Hmax. change (HASH_LIMIT / 8) with 48. lia. }
    2:{ unfold len. destruct Ht as [-> | ->]; mod_lia. }
    cbn [andb]. unfold len in *.
    replace (8 * i + 8 * S q + t)%nat with (8 * S i + 8 * q + t)%nat in * by lia.
    rewrite (IH n (S i)) by (done || lia).
    rewrite (murmur_blocks_step (take _ (drop (8 * i) key))) by (rewrite length_take, length_drop; lia).
    replace (8 * S q + t)%nat with (8 + (8 * q + t))%nat by lia.
    rewrite <-take_drop_commute, drop_drop. replace (8 * i + 8)%nat with (8 * S i)%nat by lia.
    do 2 f_equal. unfold field. by rewrite drop_0, take_take.
Qed.

(** On the stacks it is given, arrays of up to 96 words, the hash is the
    published MurmurHash64A of the words in use; what follows them is not read. *)
Theorem MurmurHash64A_ref key (w : nat) seed :
  (w <= 96)%nat -> (4 * w <= length key)%nat ->
  MurmurHash64A key (Z.of_nat (4 * w)) seed = murmur_ref (take (4 * w) key) seed.
Proof.
  intros Hw Hk. unfold murmur_ref. rewrite length_take, Nat.min_l by lia.
  assert (exists q t, (4 * w = 8 * q + t /\ (t = 0 \/ t = 4))%nat) as (q & t & Hqt & Ht).
  { exists (w / 2)%nat, (4 * (w mod 2))%nat. pose proof (Nat.div_mod_eq w 2).
    pose proof (Nat.mod_upper_bound w 2). lia. }
  set (h := Z.lxor seed _).
  assert (murmur_tail key (Z.of_nat (4 * w)) (murmur_loop (Z.to_nat (HASH_LIMIT / 8)) 0 key
    (Z.of_nat (4 * w)) h) = murmur_blocks (take (4 * w) key) h) as <-.
  { rewrite Hqt. apply (murmur_loop_blocks q (Z.to_nat (HASH_LIMIT / 8)) 0 key t h);
      [change (Z.to_nat (HASH_LIMIT / 8)) with 48%nat; lia|done|lia|lia]. }
  unfold MurmurHash64A, murmur_tail. fold h. by destruct (murmur_loop _ _ _ _ _).
Qed.

Lemma MurmurHash64A_ref_witness :
  MurmurHash64A (replicate 384 7) (Z.of_nat (4 * 3)) 0 = murmur_ref (take (4 * 3) (replicate 384 7)) 0.
Proof.
  apply (MurmurHash64A_ref (replicate 384 7) 3 0); [lia|]. rewrite length_replicate. lia.
Defined.

End Hash.

(** ** pid.h *)
Module Pid.

Definition PID_NESTED_NAMESPACES_MAX : Z := 4.

(** What [BPF_CORE_READ] finds for the current task: the level of its pid
    namespace, and the namespace inode and pid at each index of
    [thread_pid->numbers] (0 where the read faults). *)
Record task_pids := TaskPids {
  level : Z;
  number_inum : Z -> Z;
  number_nr : Z -> Z
}.

(** The loop, [n] iterations left.  [level] is unsigned: [level - i] wraps. *)
Fixpoint ns_loop (n : nat) (i : Z) (t : task_pids) (ns_pid_ino pid : Z) : Z :=
  match n with
  | O => pid
  | S n =>
      if u32 (level t - i) <? 0 then pid
      else
      let inum := number_inum t (u32 (level t - i)) in
      if inum =? ns_pid_ino then number_nr t (u32 (level t - i))
      else ns_loop n (i + 1) t ns_pid_ino pid
  end.

(** Returns [*pid] after the call; [pid] is its value before. *)
Definition current_pid (id : Z) (t : task_pids) (ns_pid_ino pid : Z) : Z :=
  if ns_pid_ino =? 0 then u32 (Z.shiftr id 32)
  else ns_loop (Z.to_nat PID_NESTED_NAMESPACES_MAX) 0 t ns_pid_ino pid.

(** The pid is the one the task has in the agent's namespace, looked for at the
    four innermost levels from the inside out, and the caller's variable is left
    alone when none matches.  The guard against running out of levels never
    stops the search: [level - i] is unsigned, so a task nested less than four
    deep is asked for the entries 2^32 - 1, 2^32 - 2, ... *)
Theorem current_pid_scans id t ns_pid_ino pid :
  current_pid id t ns_pid_ino pid =
    if ns_pid_ino =? 0 then u32 (Z.shiftr id 32)
    else
    match List.find (fun i => number_inum t (u32 (level t - i)) =? ns_pid_ino) [0; 1; 2; 3] with
    | Some i => number_nr t (u32 (level t - i))
    | None => pid
    end.
Proof.
  assert (forall x, (u32 x <? 0) = false) as Hu by (intros x; apply Z.ltb_ge, u32_range).
  unfold current_pid. destruct (ns_pid_ino =? 0); [done|].
  change (Z.to_nat PID_NESTED_NAMESPACES_MAX) with 4%nat. cbn [ns_loop List.find]. rewrite !Hu.
  change (0 + 1) with 1. change (1 + 1) with 2. change (2 + 1) with 3. by repeat case_match.
Qed.

End Pid.

(** ** pyoffsets.h *)
Module PyOffsets.

Definition FRAME_OWNED_BY_THREAD : Z := 0.
Definition FRAME_OWNED_BY_GENERATOR : Z := 1.
Definition FRAME_OWNED_BY_FRAME_OBJECT : Z := 2.
Definition FRAME_OWNED_BY_CSTACK : Z := 3.

Record libc := Libc {
  musl : bool;
  pthread_size : Z;
  pthread_specific1stblock : Z
}.

Record py_offset_config := PyOffsetConfig {
  PyThreadState_frame : Z;
  PyThreadState_cframe : Z;
  PyCFrame_current_frame : Z;
  PyCodeObject_co_filename : Z;
  PyCodeObject_co_name : Z;
  PyCodeObject_co_varnames : Z;
  PyCodeObject_co_localsplusnames : Z;
  PyCodeObject__co_cell2arg : Z;
  PyCodeObject__co_cellvars : Z;
  PyCodeObject__co_nlocals : Z;
  PyTupleObject_ob_item : Z;
  PyVarObject_ob_size : Z;
  PyObject_ob_type : Z;
  PyTypeObject_tp_name : Z;
  VFrame_code : Z;
  VFrame_previous : Z;
  VFrame_localsplus : Z;
  PyInterpreterFrame_owner : Z;
  PyASCIIObject_size : Z;
  PyCompactUnicodeObject_size : Z;
  PyCellObject_ob_ref : Z;
  base : Z;
  PyCell_Type : Z
}.

Definition offsets_zero : py_offset_config :=
  PyOffsetConfig 0 0 0 0 0 0 0 0 0 0 0 0 0 0 0 0 0 0 0 0 0 0 0.

End PyOffsets.

(** ** pystr.h *)
Module PyStr.
Import PyOffsets.

Definition PYSTR_TYPE_1BYTE : Z := 1.
Definition PYSTR_TYPE_2BYTE : Z := 2.
Definition PYSTR_TYPE_4BYTE : Z := 4.
Definition PYSTR_TYPE_ASCII : Z := 8.
Definition PYSTR_TYPE_UTF8 : Z := 16.
Definition PYSTR_TYPE_NOT_COMPACT : Z := 32.

Record py_str_type := PyStrType { type : Z; size_codepoints : Z }.

(** [PyASCIIObject] ([sizeof] 40): the length and the bit fields of [state]. *)
Record PyASCIIObject := PyAscii { length : Z; kind : Z; compact : Z; ascii : Z }.
Definition PyASCIIObject_of (bs : list Z) : PyASCIIObject :=
  let state := field bs 32 4 in
  PyAscii (field bs 16 8) (Z.land (Z.shiftr state 2) 7) (Z.land (Z.shiftr state 5) 1)
          (Z.land (Z.shiftr state 6) 1).

(** Returns the result, the buffer [buf] (of [buf_size] bytes) and [*typ]. *)
Definition pystr_read (m : mem) (str : Z) (offsets : py_offset_config)
  (buf : list Z) (buf_size : Z) (typ : py_str_type) : Z * list Z * py_str_type :=
  let? bs := probe_read m str 40 else (-1, buf, typ) in
  let pystr := PyASCIIObject_of bs in
  if compact pystr =? 0 then (0, buf, PyStrType PYSTR_TYPE_NOT_COMPACT (size_codepoints typ))
  else
  let sz_bytes := u64 (kind pystr * length pystr) in
  let '(sz_bytes, size_codepoints) :=
    if buf_size <? sz_bytes then (buf_size, u8 (buf_size / kind pystr))
    else (sz_bytes, u8 (length pystr)) in
  let '(type, data) :=
    if negb (ascii pystr =? 0)
    then (Z.lor (kind pystr) PYSTR_TYPE_ASCII, str + PyASCIIObject_size offsets)
    else (kind pystr, str + PyCompactUnicodeObject_size offsets) in
  let typ := PyStrType type size_codepoints in
  match probe_read m data (Z.to_nat sz_bytes) with
  | Some bs => (0, write_at 0 bs buf, typ)
  | None => (-1, write_at 0 (zeros (Z.to_nat sz_bytes)) buf, typ)
  end.

End PyStr.

(** ** pthread.bpf.h *)

(** The result of [pyro_pthread_getspecific]: [None] is its -1.  [task] is
    [bpf_get_current_task()], [tls_base] the thread pointer read from it. *)
Module PthreadAmd64.
Import PyOffsets.

Definition pthread_getspecific_glibc (m : mem) (libc : libc) (key tls_base : Z) : option Z :=
  if 32 <=? key then None
  else read_u64 m (tls_base + pthread_specific1stblock libc + key * 0x10 + 0x08).

Definition pthread_getspecific_musl (m : mem) (libc : libc) (key tls_base : Z) : option Z :=
  let? tmp := read_u64 m tls_base else None in
  let? tmp := read_u64 m (tmp + pthread_specific1stblock libc) else None in
  read_u64 m (tmp + key * 0x8).

Definition pyro_pthread_getspecific (m : mem) (task : Z) (fsbase : option Z)
  (libc : libc) (key : Z) : option Z :=
  if key =? -1 then None
  else if task =? 0 then None
  else
  let? tls_base := fsbase else None in
  if musl libc then pthread_getspecific_musl m libc key tls_base
  else pthread_getspecific_glibc m libc key tls_base.

End PthreadAmd64.

Module PthreadArm64.
Import PyOffsets.

Definition pthread_getspecific_glibc (m : mem) (libc : libc) (key tls_base : Z) : option Z :=
  if 32 <=? key then None
  else
  let tls_base := tls_base - pthread_size libc in
  read_u64 m (tls_base + pthread_specific1stblock libc + key * 0x10 + 0x08).

Definition pthread_getspecific_musl (m : mem) (libc : libc) (key tls_base : Z) : option Z :=
  let? tmp := read_u64 m (tls_base - pthread_size libc + pthread_specific1stblock libc) else None in
  read_u64 m (tmp + key * 0x8).

Definition pyro_pthread_getspecific (m : mem) (task : Z) (tp_value : option Z)
  (libc : libc) (key : Z) : option Z :=
  if key =? -1 then None
  else if task =? 0 then None
  else
  let? tls_base := tp_value else None in
  if musl libc then pthread_getspecific_musl m libc key tls_base
  else pthread_getspecific_glibc m libc key tls_base.

End PthreadArm64.

(** Thread-specific data of the architecture the program is built for. *)
Class Pthread := {
  getspecific : mem -> Z -> option Z -> PyOffsets.libc -> Z -> option Z
}.
Definition pthread_amd64 : Pthread := {| getspecific := PthreadAmd64.pyro_pthread_getspecific |}.
Definition pthread_arm64 : Pthread := {| getspecific := PthreadArm64.pyro_pthread_getspecific |}.

(** ** stacks.h *)
Module Stacks.

Definition PERF_MAX_STACK_DEPTH : Z := 127.
Definition PROFILE_MAPS_SIZE : Z := 16384.
Definition BPF_F_USER_STACK : Z := 256.
Definition BPF_F_FAST_STACK_CMP : Z := 512.
Definition KERN_STACKID_FLAGS : Z := Z.lor 0 BPF_F_FAST_STACK_CMP.
Definition USER_STACKID_FLAGS : Z := Z.lor (Z.lor 0 BPF_F_FAST_STACK_CMP) BPF_F_USER_STACK.
Definition SAMPLE_KEY_FLAG_PYTHON_STACK : Z := 1.
Definition SAMPLE_KEY_FLAG_STACK_TRUNCATED : Z := 2.

Record sample_key := SampleKey { pid : Z; flags : Z; kern_stack : Z; user_stack : Z }.

#[global] Instance sample_key_eq_dec : EqDecision sample_key.
Proof. solve_decision. Defined.
#[global] Instance sample_key_countable : Countable sample_key.
Proof.
  apply (inj_countable' (fun x => (pid x, flags x, kern_stack x, user_stack x))
           (fun '(a, b, c, d) => SampleKey a b c d)).
  by intros [].
Defined.

(** [val = lookup(counts, k); if (val) ( *val)++; else update(counts, k, 1, NOEXIST)] *)
Definition count_sample (k : sample_key) (counts : gmap sample_key Z) : gmap sample_key Z :=
  match counts !! k with
  | Some n => <[k := u32 (n + 1)]> counts
  | None => (hash_update PROFILE_MAPS_SIZE BPF_NOEXIST k 1 counts).2
  end.

End Stacks.
