(* ===== verification/PyPerf.v ===== *)
(** * The Python profiler

    internal/pyroscope-ebpf/bpf/pyperf.bpf.c: on a perf event of a Python
    process, walk the interpreter frames through user memory, intern each
    frame's symbol, and count the stack. *)

From S2P Require Import Prelude L7Base Types PyBase.
Local Open Scope cchar_scope.

Module PyPerf.
Import PyOffsets.
Import PyStr.
Import Stacks.

(** ** Constants *)

Definition PYTHON_STACK_FRAMES_PER_PROG : Z := 32.
Definition PYTHON_STACK_PROG_CNT : Z := 3.
Definition PYTHON_STACK_MAX_LEN : Z := PYTHON_STACK_FRAMES_PER_PROG * PYTHON_STACK_PROG_CNT.
Definition PYTHON_CLASS_NAME_LEN : Z := 32.
Definition PYTHON_FUNCTION_NAME_LEN : Z := 64.
Definition PYTHON_FILE_NAME_LEN : Z := 128.
Definition PY_NUM_CPU : Z := 512.

Definition PY_ERROR_GENERIC : Z := 1.
Definition PY_ERROR_THREAD_STATE : Z := 2.
Definition PY_ERROR_THREAD_STATE_NULL : Z := 3.
Definition PY_ERROR_TOP_FRAME : Z := 4.
Definition PY_ERROR_FRAME_CODE : Z := 5.
Definition PY_ERROR_FRAME_PREV : Z := 6.
Definition PY_ERROR_SYMBOL : Z := 7.
Definition PY_ERROR_TLSBASE : Z := 8.
Definition PY_ERROR_FIRST_ARG : Z := 9.
Definition PY_ERROR_CLASS_NAME : Z := 10.
Definition PY_ERROR_FILE_NAME : Z := 11.
Definition PY_ERROR_NAME : Z := 12.
Definition PY_ERROR_FRAME_OWNER : Z := 13.
Definition PY_ERROR_FRAME_OWNER_INVALID : Z := 14.

(** ** Data *)

Record py_version := PyVersion { major : Z; minor : Z; patch : Z }.

Record py_pid_data := PyPidData {
  pd_offsets : py_offset_config; version : py_version; pd_libc : libc; tssKey : Z;
  collect_kernel : Z
}.

Record py_symbol := PySymbol {
  classname : list Z; name : list Z; file : list Z;
  classname_type : py_str_type; name_type : py_str_type; file_type : py_str_type
}.

Record py_event := PyEvent { k : sample_key; stack_len : Z; stack : list Z }.

Record py_sample_state_t := PySampleState {
  symbol_counter : Z; offsets : py_offset_config; cur_cpu : Z; frame_ptr : Z;
  python_stack_prog_call_cnt : Z; sym : py_symbol; event : py_event
}.

Definition str_type_zero : py_str_type := PyStrType 0 0.
(** What [bpf_perf_prog_read_value] with a wrong size leaves: zeroes. *)
Definition symbol_zero : py_symbol :=
  PySymbol (zeros (Z.to_nat PYTHON_CLASS_NAME_LEN)) (zeros (Z.to_nat PYTHON_FUNCTION_NAME_LEN))
    (zeros (Z.to_nat PYTHON_FILE_NAME_LEN)) str_type_zero str_type_zero str_type_zero.
Definition event_zero : py_event :=
  PyEvent (SampleKey 0 0 0 0) 0 (zeros (Z.to_nat PYTHON_STACK_MAX_LEN)).
Definition state_zero : py_sample_state_t :=
  PySampleState 0 offsets_zero 0 0 0 symbol_zero event_zero.

#[global] Instance py_str_type_eq_dec : EqDecision py_str_type.
Proof. solve_decision. Defined.
#[global] Instance py_str_type_countable : Countable py_str_type.
Proof.
  apply (inj_countable' (fun x => (type x, size_codepoints x)) (fun '(a, b) => PyStrType a b)).
  by intros [].
Defined.
#[global] Instance py_symbol_eq_dec : EqDecision py_symbol.
Proof. solve_decision. Defined.
#[global] Instance py_symbol_countable : Countable py_symbol.
Proof.
  apply (inj_countable'
    (fun x => (classname x, name x, file x, classname_type x, name_type x, file_type x))
    (fun '(a, b, c, d, e, f) => PySymbol a b c d e f)).
  by intros [].
Defined.

Record st := St {
  py_pid_config : gmap Z py_pid_data;
  py_state_heap : gmap Z py_sample_state_t;
  py_symbols : gmap py_symbol Z;
  python_stacks : gmap Z (list Z);
  counts : gmap sample_key Z
}.

Definition py_symbols_max_entries : Z := 16384.

(** What the program reads from the kernel when it runs. *)
Record penv := PEnv {
  p_id : Z;                       (* bpf_get_current_pid_tgid *)
  p_cpu : Z;                      (* bpf_get_smp_processor_id *)
  p_memory : mem;                 (* bpf_probe_read_user *)
  p_task : Z;                     (* bpf_get_current_task *)
  p_tls_base : option Z;          (* task->thread.fsbase / uw.tp_value *)
  p_pids : Pid.task_pids;         (* the task's pid namespaces *)
  p_stackid : Z -> Z;             (* bpf_get_stackid(ctx, &stacks, flags) *)
  ns_pid_ino : Z                  (* global_config *)
}.

(** ** Symbols *)

Definition sym_set_name x t (s : py_symbol) :=
  PySymbol (classname s) x (file s) (classname_type s) t (file_type s).
Definition sym_set_file x t (s : py_symbol) :=
  PySymbol (classname s) (name s) x (classname_type s) (name_type s) t.
Definition sym_set_class x t (s : py_symbol) :=
  PySymbol x (name s) (file s) t (name_type s) (file_type s).

Definition empty_str : py_str_type := PyStrType (Z.lor PYSTR_TYPE_1BYTE PYSTR_TYPE_ASCII) 0.

(** Returns -1 or 0, [out_first_self], [out_first_cls] and the symbol. *)
Definition check_first_arg (m : mem) (code_ptr : Z) (o : py_offset_config) (symbol : py_symbol)
  : Z * bool * bool * py_symbol :=
  let off := if PyCodeObject_co_varnames o =? -1 then PyCodeObject_co_localsplusnames o
             else PyCodeObject_co_varnames o in
  let? args_ptr := read_u64 m (code_ptr + off) else (-1, false, false, symbol) in
  if args_ptr =? 0 then (0, false, false, symbol)
  else
  let? args_size := read_u64 m (args_ptr + PyVarObject_ob_size o) else (-1, false, false, symbol) in
  if args_size <? 1 then (0, false, false, symbol)
  else
  let? args_ptr := read_u64 m (args_ptr + PyTupleObject_ob_item o) else (-1, false, false, symbol) in
  let nm := write_at 0 (zeros 8) (name symbol) in
  let '(res, nm, t) := pystr_read m args_ptr o nm PYTHON_FUNCTION_NAME_LEN (name_type symbol) in
  let symbol := sym_set_name nm t symbol in
  if negb (res =? 0) then (-1, false, false, symbol)
  else
  let first_self := field nm 0 4 =? le ["s"; "e"; "l"; "f"] in
  let first_cls := field nm 0 4 =? le ["c"; "l"; "s"; 0] in
  (0, first_self, first_cls, symbol).

(** The loop of [get_first_arg_cell]; [None] is -1, [Some 0] no cell found. *)
Fixpoint cell_loop (n : nat) (i : Z) (m : mem) (frame co_cell2arg co_nlocals co_cellvars_size : Z)
  (o : py_offset_config) : option Z :=
  match n with
  | O => Some 0
  | S n =>
      if co_cellvars_size <=? i then Some 0
      else
      let? argno := read_u64 m (co_cell2arg + i * 8) else None in
      if negb (s64 argno =? 0) then cell_loop n (i + 1) m frame co_cell2arg co_nlocals co_cellvars_size o
      else
      let? cell := read_u64 m (frame + VFrame_localsplus o + s32 (co_nlocals + i) * 8) else None in
      if cell =? 0 then Some 0
      else
      let? ob_type := read_u64 m (cell + PyObject_ob_type o) else None in
      if negb (ob_type =? PyCell_Type o) then Some 0
      else Some cell
  end.

Definition get_first_arg_cell (m : mem) (frame code_ptr : Z) (o : py_offset_config) : option Z :=
  if (PyCodeObject__co_cell2arg o =? -1) || (PyCodeObject__co_cellvars o =? -1) then Some 0
  else
  let? co_cellvars := read_u64 m (code_ptr + PyCodeObject__co_cellvars o) else None in
  let? co_cell2arg := read_u64 m (code_ptr + PyCodeObject__co_cell2arg o) else None in
  let? co_nlocals := read_u32 m (code_ptr + PyCodeObject__co_nlocals o) else None in
  if (co_cellvars =? 0) || (co_cell2arg =? 0) then Some 0
  else
  let? co_cellvars_size := read_u64 m (co_cellvars + PyVarObject_ob_size o) else None in
  let co_cellvars_size := s64 co_cellvars_size in
  if co_cellvars_size <? 1 then Some 0
  else cell_loop 8 0 m frame co_cell2arg (s32 co_nlocals) co_cellvars_size o.

(** The tail of [get_class_name]: [ptr] is the first argument. *)
Definition class_name_of (m : mem) (ptr : Z) (o : py_offset_config) (first_self : bool)
  (symbol : py_symbol) : Z * py_symbol :=
  let? ptr := (if first_self then read_u64 m (ptr + PyObject_ob_type o) else Some ptr)
    else (-1, symbol) in
  let? ptr := read_u64 m (ptr + PyTypeObject_tp_name o) else (-1, symbol) in
  match probe_read_str m ptr (Z.to_nat PYTHON_CLASS_NAME_LEN) with
  | None => (-1, sym_set_class (zeros (Z.to_nat PYTHON_CLASS_NAME_LEN)) (classname_type symbol) symbol)
  | Some bs =>
      (0, sym_set_class (write_at 0 bs (classname symbol))
            (PyStrType PYSTR_TYPE_UTF8 (u8 (Z.of_nat (List.length bs) - 1))) symbol)
  end.

Definition get_class_name (m : mem) (cur_frame code_ptr : Z) (o : py_offset_config)
  (first_self : bool) (symbol : py_symbol) : Z * py_symbol :=
  let? ptr := read_u64 m (cur_frame + VFrame_localsplus o) else (-1, symbol) in
  let? ptr := (if ptr =? 0 then get_first_arg_cell m cur_frame code_ptr o else Some ptr)
    else (-1, symbol) in
  if ptr =? 0 then (0, sym_set_class (classname symbol) empty_str symbol)
  else
  let? ptr_ob_type := read_u64 m (ptr + PyObject_ob_type o) else (-1, symbol) in
  if ptr_ob_type =? PyCell_Type o then
    let? ptr := read_u64 m (ptr + PyCellObject_ob_ref o) else (-1, symbol) in
    if ptr =? 0 then (0, sym_set_class (classname symbol) empty_str symbol)
    else class_name_of m ptr o first_self symbol
  else class_name_of m ptr o first_self symbol.

(** The file name, then the function name, into a cleared symbol. *)
Definition get_file_and_name (m : mem) (code_ptr : Z) (o : py_offset_config) (symbol : py_symbol)
  : Z * py_symbol :=
  let? pystr_ptr := read_u64 m (code_ptr + PyCodeObject_co_filename o)
    else (- PY_ERROR_FILE_NAME, symbol) in
  let '(res, symbol) :=
    if pystr_ptr =? 0 then (0, sym_set_file (file symbol) empty_str symbol)
    else
      let '(res, fl, t) := pystr_read m pystr_ptr o (file symbol) PYTHON_FILE_NAME_LEN (file_type symbol) in
      (res, sym_set_file fl t symbol) in
  if negb (res =? 0) then (- PY_ERROR_FILE_NAME, symbol)
  else
  let? pystr_ptr := read_u64 m (code_ptr + PyCodeObject_co_name o) else (- PY_ERROR_NAME, symbol) in
  let '(res, nm, t) := pystr_read m pystr_ptr o (name symbol) PYTHON_FUNCTION_NAME_LEN (name_type symbol) in
  let symbol := sym_set_name nm t symbol in
  if negb (res =? 0) then (- PY_ERROR_NAME, symbol)
  else (0, symbol).

Definition get_names (m : mem) (cur_frame code_ptr : Z) (o : py_offset_config) (symbol : py_symbol)
  : Z * py_symbol :=
  let '(res, first_self, first_cls, symbol) := check_first_arg m code_ptr o symbol in
  if negb (res =? 0) then (- PY_ERROR_FIRST_ARG, symbol)
  else
  let symbol := symbol_zero in
  let '(res, symbol) :=
    if first_self || first_cls then get_class_name m cur_frame code_ptr o first_self symbol
    else (0, symbol) in
  if negb (res =? 0) then (- PY_ERROR_CLASS_NAME, symbol)
  else get_file_and_name m code_ptr o symbol.

(** ** Frames *)

(** From the read of the code object on: [cur] is the frame described. *)
Definition frame_code (m : mem) (cur fp : Z) (o : py_offset_config) (symbol : py_symbol)
  : Z * Z * py_symbol :=
  let? code_ptr := read_u64 m (cur + VFrame_code o) else (- PY_ERROR_FRAME_CODE, fp, symbol) in
  if code_ptr =? 0 then (0, fp, symbol)
  else
  let '(res, symbol) := get_names m cur code_ptr o symbol in
  if res <? 0 then (res, fp, symbol)
  else
  let? prev := read_u64 m (cur + VFrame_previous o) else (- PY_ERROR_FRAME_PREV, 0, symbol) in
  (1, prev, symbol).

(** Returns [-PY_ERR_XXX], 1 or 0, the next frame pointer and the symbol. *)
Definition get_frame_data (m : mem) (fp : Z) (o : py_offset_config) (symbol : py_symbol)
  : Z * Z * py_symbol :=
  let cur_frame := fp in
  if cur_frame =? 0 then (0, fp, symbol)
  else if negb (PyInterpreterFrame_owner o =? -1) then
    let? owner := read_u8 m (cur_frame + PyInterpreterFrame_owner o)
      else (- PY_ERROR_FRAME_OWNER, fp, symbol) in
    if owner =? FRAME_OWNED_BY_CSTACK then
      let? fp := read_u64 m (cur_frame + VFrame_previous o)
        else (- PY_ERROR_FRAME_PREV, 0, symbol) in
      let cur_frame := fp in
      if cur_frame =? 0 then (0, fp, symbol)
      else frame_code m cur_frame fp o symbol
    else if negb (owner =? FRAME_OWNED_BY_THREAD) && negb (owner =? FRAME_OWNED_BY_GENERATOR)
            && negb (owner =? FRAME_OWNED_BY_FRAME_OBJECT)
    then (- PY_ERROR_FRAME_OWNER_INVALID, fp, symbol)
    else frame_code m cur_frame fp o symbol
  else frame_code m cur_frame fp o symbol.

(** ** Symbol identifiers *)

(** Returns -1 or 0, [*out_symbol_id], the counter and the table. *)
Definition get_symbol_id (cpu_ counter : Z) (symbol : py_symbol) (table : gmap py_symbol Z)
  : Z * Z * Z * gmap py_symbol Z :=
  match table !! symbol with
  | Some id => (0, id, counter, table)
  | None =>
      let counter := s64 (counter + 1) in
      let symbol_id := u32 (counter * PY_NUM_CPU + cpu_) in
      let '(err, table) :=
        hash_update py_symbols_max_entries BPF_NOEXIST symbol symbol_id table in
      if err =? 0 then (0, symbol_id, counter, table)
      else
      match table !! symbol with
      | Some id => (0, id, counter, table)
      | None => (-1, 0, counter, table)
      end
  end.

(** ** read_python_stack *)

(** [submit_error_sample] returns -1; a batch ends in error or with [last_res]. *)
Inductive batch := BatchError (err : Z) | BatchDone (last_res : Z).

Definition push (id : Z) (e : py_event) : py_event :=
  if stack_len e <? PYTHON_STACK_MAX_LEN
  then PyEvent (k e) (u32 (stack_len e + 1)) (<[Z.to_nat (stack_len e) := id]> (stack e))
  else e.

Definition with_frame (c fp : Z) (y : py_symbol) (e : py_event) (x : py_sample_state_t) :=
  PySampleState c (offsets x) (cur_cpu x) fp (python_stack_prog_call_cnt x) y e.

(** The loop over the frames of one program, [n] iterations left. *)
Fixpoint frames_loop (n : nat) (m : mem) (last_res : Z) (x : py_sample_state_t)
  (table : gmap py_symbol Z) : batch * py_sample_state_t * gmap py_symbol Z :=
  match n with
  | O => (BatchDone last_res, x, table)
  | S n =>
      let '(last_res, fp, y) := get_frame_data m (frame_ptr x) (offsets x) (sym x) in
      let x := with_frame (symbol_counter x) fp y (event x) x in
      if last_res <? 0 then (BatchError (- last_res), x, table)
      else if last_res =? 0 then (BatchDone 0, x, table)
      else
        let '(err, id, c, table) := get_symbol_id (cur_cpu x) (symbol_counter x) (sym x) table in
        let x := with_frame c (frame_ptr x) (sym x) (event x) x in
        if negb (err =? 0) then (BatchError PY_ERROR_SYMBOL, x, table)
        else
        let x := with_frame (symbol_counter x) (frame_ptr x) (sym x) (push id (event x)) x in
        frames_loop n m last_res x table
  end.

(** The bytes of the stack array, as the hash reads them. *)
Definition le_bytes4 (w : Z) : list Z :=
  [u8 w; u8 (Z.shiftr w 8); u8 (Z.shiftr w 16); u8 (Z.shiftr w 24)].
Definition stack_bytes (stk : list Z) : list Z := flat_map le_bytes4 stk.

Definition set_key_stack (h : Z) (e : py_event) : py_event :=
  PyEvent (SampleKey (pid (k e)) (flags (k e)) (kern_stack (k e)) (s64 h)) (stack_len e) (stack e).
Definition set_key_flags (f : Z) (e : py_event) : py_event :=
  PyEvent (SampleKey (pid (k e)) f (kern_stack (k e)) (user_stack (k e))) (stack_len e) (stack e).

Definition with_event (e : py_event) (x : py_sample_state_t) : py_sample_state_t :=
  PySampleState (symbol_counter x) (offsets x) (cur_cpu x) (frame_ptr x)
    (python_stack_prog_call_cnt x) (sym x) e.
Definition put_state (cpu_ : Z) (x : py_sample_state_t) (s : st) : st :=
  St (py_pid_config s) (<[cpu_ := x]> (py_state_heap s)) (py_symbols s) (python_stacks s) (counts s).
Definition set_symbols (t : gmap py_symbol Z) (s : st) : st :=
  St (py_pid_config s) (py_state_heap s) t (python_stacks s) (counts s).

(** The key of [python_stacks] is 4 bytes: the low half of the hash. *)
Definition submit_sample (cpu_ : Z) (x : py_sample_state_t) (s : st) : Z * st :=
  let e := event x in
  let stk := if stack_len e <? PYTHON_STACK_MAX_LEN
             then <[Z.to_nat (stack_len e) := 0]> (stack e) else stack e in
  let h := Hash.MurmurHash64A (stack_bytes stk) (u32 (stack_len e) * 4) 0 in
  let e := set_key_stack h (PyEvent (k e) (stack_len e) stk) in
  let s := put_state cpu_ (with_event e x) s in
  let '(err, stacks) := hash_update PROFILE_MAPS_SIZE BPF_ANY (u32 h) stk (python_stacks s) in
  let s := St (py_pid_config s) (py_state_heap s) (py_symbols s) stacks (counts s) in
  if negb (err =? 0) then (-1, s)
  else (0, St (py_pid_config s) (py_state_heap s) (py_symbols s) (python_stacks s)
             (count_sample (k e) (counts s))).

Definition submit_error_sample (err : Z) : Z := -1.

(** [fuel] bounds the chain of tail calls ([bpf_tail_call] does not return when
    it succeeds); [None] when it runs out. *)
Fixpoint read_python_stack (fuel : nat) (v : penv) (s : st) : option (Z * st) :=
  match fuel with
  | O => None
  | S fuel =>
      let x := percpu state_zero (p_cpu v) (py_state_heap s) in
      let x := PySampleState (symbol_counter x) (offsets x) (cur_cpu x) (frame_ptr x)
                 (s64 (python_stack_prog_call_cnt x + 1)) (sym x) (event x) in
      let '(b, x, table) :=
        frames_loop (Z.to_nat PYTHON_STACK_FRAMES_PER_PROG) (p_memory v) 0 x (py_symbols s) in
      let s := set_symbols table s in
      match b with
      | BatchError err => Some (submit_error_sample (u8 err), put_state (p_cpu v) x s)
      | BatchDone last_res =>
          let flags :=
            if last_res =? 0 then SAMPLE_KEY_FLAG_PYTHON_STACK
            else Z.lor SAMPLE_KEY_FLAG_PYTHON_STACK SAMPLE_KEY_FLAG_STACK_TRUNCATED in
          let x := with_event (set_key_flags flags (event x)) x in
          let s := put_state (p_cpu v) x s in
          if (flags =? Z.lor SAMPLE_KEY_FLAG_PYTHON_STACK SAMPLE_KEY_FLAG_STACK_TRUNCATED)
             && (python_stack_prog_call_cnt x <? PYTHON_STACK_PROG_CNT)
          then read_python_stack fuel v s
          else Some (submit_sample (p_cpu v) x s)
      end
  end.

(** ** pyperf_collect *)

Definition get_thread_state `{Pthread} (v : penv) (d : py_pid_data) : option Z :=
  getspecific (p_memory v) (p_task v) (p_tls_base v) (pd_libc d) (tssKey d).

(** Returns the frame pointer; [None] is -1. *)
Definition get_top_frame (m : mem) (d : py_pid_data) (thread_state : Z) : option Z :=
  if PyThreadState_frame (pd_offsets d) =? -1 then
    let? cframe := read_u64 m (thread_state + PyThreadState_cframe (pd_offsets d)) else None in
    if cframe =? 0 then None
    else read_u64 m (cframe + PyCFrame_current_frame (pd_offsets d))
  else read_u64 m (thread_state + PyThreadState_frame (pd_offsets d)).

Definition pyperf_collect_impl `{Pthread} (fuel : nat) (v : penv) (pid_ : Z) (s : st)
  : option (Z * st) :=
  let? pid_data := py_pid_config s !! pid_ else Some (0, s) in
  let x := percpu state_zero (p_cpu v) (py_state_heap s) in
  let kern := if negb (collect_kernel pid_data =? 0) then p_stackid v KERN_STACKID_FLAGS else -1 in
  let key := SampleKey pid_ (flags (k (event x))) kern (user_stack (k (event x))) in
  let x := PySampleState (symbol_counter x) (pd_offsets pid_data) (p_cpu v) 0 0 (sym x)
             (PyEvent key (stack_len (event x)) (stack (event x))) in
  let? thread_state := get_thread_state v pid_data
    else Some (submit_error_sample PY_ERROR_THREAD_STATE, put_state (p_cpu v) x s) in
  let x := with_event (PyEvent key 0 (stack (event x))) x in
  if negb (thread_state =? 0) then
    match get_top_frame (p_memory v) pid_data thread_state with
    | None => Some (submit_error_sample PY_ERROR_TOP_FRAME, put_state (p_cpu v) x s)
    | Some fp =>
        let x := with_frame (symbol_counter x) fp (sym x) (event x) x in
        read_python_stack fuel v (put_state (p_cpu v) x s)
    end
  else Some (submit_error_sample PY_ERROR_THREAD_STATE_NULL, put_state (p_cpu v) x s).

(** [garbage] is the value the uninitialised local [pid] has. *)
Definition pyperf_collect `{Pthread} (fuel : nat) (v : penv) (garbage : Z) (s : st)
  : option (Z * st) :=
  let pid_ := Pid.current_pid (p_id v) (p_pids v) (ns_pid_ino v) garbage in
  if pid_ =? 0 then Some (0, s)
  else pyperf_collect_impl fuel v pid_ s.

End PyPerf.
