(* ===== verification/PyPerfSpec.v ===== *)
(** * Correctness of the Python profiler

    Bounds of the buffers the program fills, uniqueness of the symbol
    identifiers, termination of the chain of tail calls and its equivalence with
    one walk over 96 frames. *)

From S2P Require Import Prelude L7Base Types PyBase PyPerf.

Module PyPerfSpec.
Import Stacks PyPerf.

(** ** Buffers *)

Definition sym_ok (y : py_symbol) : Prop :=
  length (classname y) = Z.to_nat PYTHON_CLASS_NAME_LEN /\
  length (name y) = Z.to_nat PYTHON_FUNCTION_NAME_LEN /\
  length (file y) = Z.to_nat PYTHON_FILE_NAME_LEN.

Definition event_ok (e : py_event) : Prop :=
  length (stack e) = Z.to_nat PYTHON_STACK_MAX_LEN /\ 0 <= stack_len e <= PYTHON_STACK_MAX_LEN.

Definition state_ok (x : py_sample_state_t) : Prop := sym_ok (sym x) /\ event_ok (event x).

Lemma pystr_read_length m str o buf n t r buf' t' :
  length buf = Z.to_nat n -> 0 <= n -> PyStr.pystr_read m str o buf n t = (r, buf', t') ->
  length buf' = Z.to_nat n.
Proof.
  intros Hb Hn. unfold PyStr.pystr_read. case_match; [|by intros [= <- <- <-]].
  case_match; [by intros [= <- <- <-]|]. cbv zeta.
  set (p := PyStr.PyASCIIObject_of _). clearbody p.
  destruct (Z.ltb_spec n (u64 (PyStr.kind p * PyStr.length p))) as [Hs|Hs]; cbv zeta;
    destruct (negb (PyStr.ascii p =? 0)); cbv zeta;
    match goal with |- context [probe_read ?m ?a ?k] => destruct (probe_read m a k) eqn:R end;
    intros [= <- <- <-]; rewrite write_at_length; try done;
    try (apply probe_read_length in R); unfold zeros; rewrite ?length_replicate; lia.
Qed.

Lemma sym_ok_zero : sym_ok symbol_zero.
Proof. by split_and!. Qed.
Lemma sym_ok_name x t y :
  length x = Z.to_nat PYTHON_FUNCTION_NAME_LEN -> sym_ok y -> sym_ok (sym_set_name x t y).
Proof. intros Hx (? & ? & ?). by split_and!. Qed.
Lemma sym_ok_file x t y :
  length x = Z.to_nat PYTHON_FILE_NAME_LEN -> sym_ok y -> sym_ok (sym_set_file x t y).
Proof. intros Hx (? & ? & ?). by split_and!. Qed.
Lemma sym_ok_class x t y :
  length x = Z.to_nat PYTHON_CLASS_NAME_LEN -> sym_ok y -> sym_ok (sym_set_class x t y).
Proof. intros Hx (? & ? & ?). by split_and!. Qed.

Lemma check_first_arg_ok m code o y r a b y' :
  sym_ok y -> check_first_arg m code o y = (r, a, b, y') -> sym_ok y'.
Proof.
  intros Hy. unfold check_first_arg. cbv zeta.
  repeat (case_match; try by intros [= <- <- <- <-]).
  all: intros [= <- <- <- <-]; apply sym_ok_name; [|done];
    match goal with E : PyStr.pystr_read _ _ _ _ _ _ = _ |- _ =>
      eapply pystr_read_length; [|done|exact E] end;
    destruct Hy as (_ & Hn & _); (rewrite write_at_length; [done|]; rewrite Hn; by apply Nat.leb_le).
Qed.

Lemma class_name_of_ok m ptr o first y r y' :
  sym_ok y -> class_name_of m ptr o first y = (r, y') -> sym_ok y'.
Proof.
  intros Hy. unfold class_name_of.
  destruct (if first then _ else _) as [p|]; [|by intros [= <- <-]].
  destruct (read_u64 m _) as [q|]; [|by intros [= <- <-]].
  destruct (probe_read_str _ _ _) as [bs|] eqn:R; intros [= <- <-]; apply sym_ok_class; try done.
  apply probe_read_str_length in R. destruct Hy as (Hc & _). rewrite write_at_length; [done|]. lia.
Qed.

Lemma get_class_name_ok m frame code o first y r y' :
  sym_ok y -> get_class_name m frame code o first y = (r, y') -> sym_ok y'.
Proof.
  intros Hy. unfold get_class_name.
  assert (sym_ok (sym_set_class (classname y) empty_str y)) by (destruct Hy; by apply sym_ok_class).
  repeat (case_match; try (by intros [= <- <-]); try by apply class_name_of_ok).
Qed.

Lemma get_file_and_name_ok m code o y r y' :
  sym_ok y -> get_file_and_name m code o y = (r, y') -> sym_ok y'.
Proof.
  intros Hy. unfold get_file_and_name. case_match; [|by intros [= <- <-]].
  destruct (if z =? 0 then _ else _) as [res y1] eqn:E.
  assert (sym_ok y1) as Hy1.
  { destruct Hy as (Hc & Hn & Hf). destruct (z =? 0).
    - injection E as <- <-. by apply sym_ok_file.
    - destruct (PyStr.pystr_read _ _ _ _ _ _) as [[? fl] t] eqn:R. injection E as <- <-.
      apply sym_ok_file; [|done]. by eapply pystr_read_length. }
  clear E. case_match; [by intros [= <- <-]|]. case_match; [|by intros [= <- <-]].
  destruct (PyStr.pystr_read _ _ _ _ _ _) as [[? nm] t] eqn:R.
  assert (sym_ok (sym_set_name nm t y1)).
  { apply sym_ok_name; [|done]. destruct Hy1 as (_ & Hn & _). by eapply pystr_read_length. }
  case_match; by intros [= <- <-].
Qed.

Lemma get_names_ok m frame code o y r y' :
  sym_ok y -> get_names m frame code o y = (r, y') -> sym_ok y'.
Proof.
  intros Hy. unfold get_names. destruct (check_first_arg _ _ _ _) as [[[res a] b] y1] eqn:E.
  apply check_first_arg_ok in E; [|done]. case_match; [by intros [= <- <-]|]. cbv zeta.
  destruct (if a || b then _ else _) as [res2 y2] eqn:E2.
  assert (sym_ok y2) as Hy2.
  { destruct (a || b); [|injection E2 as <- <-; apply sym_ok_zero].
    eapply get_class_name_ok; [apply sym_ok_zero|exact E2]. }
  clear E2. case_match; [by intros [= <- <-]|]. by apply get_file_and_name_ok.
Qed.

Lemma frame_code_ok m cur fp o y r fp' y' :
  sym_ok y -> frame_code m cur fp o y = (r, fp', y') -> sym_ok y'.
Proof.
  intros Hy. unfold frame_code. case_match; [|by intros [= <- <- <-]].
  case_match; [by intros [= <- <- <-]|].
  destruct (get_names _ _ _ _ _) as [res y1] eqn:E. apply get_names_ok in E; [|done].
  repeat case_match; by intros [= <- <- <-].
Qed.

Lemma get_frame_data_ok m fp o y r fp' y' :
  sym_ok y -> get_frame_data m fp o y = (r, fp', y') -> sym_ok y'.
Proof.
  intros Hy. unfold get_frame_data. cbv zeta.
  repeat (case_match; try (by intros [= <- <- <-]); try by apply frame_code_ok).
Qed.

Lemma push_ok id e : event_ok e -> event_ok (push id e).
Proof.
  intros [Hl Hn]. unfold push. case_match eqn:E; [|done]. apply Z.ltb_lt in E.
  change PYTHON_STACK_MAX_LEN with 96 in *. split; cbn.
  - by rewrite length_insert.
  - change PYTHON_STACK_MAX_LEN with 96. rewrite u32_small; lia.
Qed.

(** The frames of one program: the buffers keep their size. *)
Lemma frames_loop_ok n m lr x t b x' t' :
  state_ok x -> frames_loop n m lr x t = (b, x', t') -> state_ok x'.
Proof.
  revert lr x t. induction n as [|n IH]; intros lr x t Hx; cbn [frames_loop].
  { by intros [= <- <- <-]. }
  destruct (get_frame_data _ _ _ _) as [[res fp] y] eqn:E.
  destruct Hx as [Hy He]. apply get_frame_data_ok in E; [|done].
  case_match; [by intros [= <- <- <-]|]. case_match; [by intros [= <- <- <-]|].
  destruct (get_symbol_id _ _ _ _) as [[[err id] c] t1]. cbv zeta.
  case_match; [by intros [= <- <- <-]|].
  intros Hrun%IH; [done|]. split; [done|by apply push_ok].
Qed.

(** ** The chain of tail calls *)

(** The state with another number of calls and other flags. *)
Definition retag (c f : Z) (x : py_sample_state_t) : py_sample_state_t :=
  PySampleState (symbol_counter x) (offsets x) (cur_cpu x) (frame_ptr x) c (sym x)
    (set_key_flags f (event x)).

Lemma push_flags id f e : push id (set_key_flags f e) = set_key_flags f (push id e).
Proof. unfold push. cbn. by case_match. Qed.

Lemma frames_loop_retag n m lr c f x t b x' t' :
  frames_loop n m lr x t = (b, x', t') ->
  frames_loop n m lr (retag c f x) t = (b, retag c f x', t').
Proof.
  revert lr x t. induction n as [|n IH]; intros lr x t; cbn [frames_loop].
  { by intros [= <- <- <-]. }
  cbn [frame_ptr offsets sym retag]. destruct (get_frame_data _ _ _ _) as [[res fp] y].
  destruct (res <? 0); [by intros [= <- <- <-]|]. destruct (res =? 0); [by intros [= <- <- <-]|].
  cbn [cur_cpu symbol_counter sym with_frame retag].
  destruct (get_symbol_id _ _ _ _) as [[[err id] c'] t1]. cbv zeta.
  destruct (negb (err =? 0)); [by intros [= <- <- <-]|].
  intros Hrun%IH. rewrite <-Hrun. cbn. by rewrite push_flags.
Qed.

Lemma frames_loop_cnt n m lr x t b x' t' :
  frames_loop n m lr x t = (b, x', t') ->
  python_stack_prog_call_cnt x' = python_stack_prog_call_cnt x.
Proof.
  revert lr x t. induction n as [|n IH]; intros lr x t; cbn [frames_loop].
  { by intros [= <- <- <-]. }
  destruct (get_frame_data _ _ _ _) as [[res fp] y]. cbv zeta.
  case_match; [by intros [= <- <- <-]|]. case_match; [by intros [= <- <- <-]|].
  destruct (get_symbol_id _ _ _ _) as [[[err id] c'] t1].
  case_match; [by intros [= <- <- <-]|]. by intros Hrun%IH.
Qed.

(** A walk of [a + b] frames is a walk of [a] frames, continued when it did not
    reach the last frame. *)
Lemma frames_loop_add a b m lr x t :
  lr <> 0 \/ a <> 0%nat ->
  frames_loop (a + b) m lr x t =
    let '(r, x', t') := frames_loop a m lr x t in
    match r with
    | BatchDone l => if l =? 0 then (r, x', t') else frames_loop b m l x' t'
    | BatchError _ => (r, x', t')
    end.
Proof.
  revert lr x t. induction a as [|a IH]; intros lr x t Hlr; cbn [frames_loop Nat.add].
  { destruct Hlr as [Hlr|]; [|done]. by rewrite (proj2 (Z.eqb_neq lr 0) Hlr). }
  destruct (get_frame_data _ _ _ _) as [[res fp] y]. cbv zeta.
  destruct (res <? 0); [done|]. destruct (Z.eqb_spec res 0) as [|Hres]; [done|].
  destruct (get_symbol_id _ _ _ _) as [[[err id] c'] t1].
  destruct (negb (err =? 0)); [done|]. apply IH. by left.
Qed.

(** The flags of a walk that ended with [last_res]. *)
Definition walk_flags (last_res : Z) : Z :=
  if last_res =? 0 then SAMPLE_KEY_FLAG_PYTHON_STACK
  else Z.lor SAMPLE_KEY_FLAG_PYTHON_STACK SAMPLE_KEY_FLAG_STACK_TRUNCATED.

(** What the agent can read. *)
Definition outputs (s : st) := (py_symbols s, python_stacks s, counts s).

(** The specification of the chain: one walk over [n] frames, then one sample. *)
Definition walk (n : nat) (v : penv) (x : py_sample_state_t) (s : st) :=
  let '(b, x, table) := frames_loop n (p_memory v) 0 x (py_symbols s) in
  match b with
  | BatchError _ => (-1, (table, python_stacks s, counts s))
  | BatchDone last_res =>
      let x := with_event (set_key_flags (walk_flags last_res) (event x)) x in
      let '(r, s) := submit_sample (p_cpu v) x (set_symbols table s) in (r, outputs s)
  end.

Lemma submit_sample_outputs c x x' s s' :
  event x = event x' -> outputs s = outputs s' ->
  let r := submit_sample c x s in
  let r' := submit_sample c x' s' in
  (r.1, outputs r.2) = (r'.1, outputs r'.2).
Proof.
  intros He [= Ht Hst Hc]. unfold submit_sample. rewrite He. cbn [python_stacks put_state].
  rewrite Hst. destruct (hash_update _ _ _ _ _) as [err stacks]. destruct (negb (err =? 0));
    cbn; unfold outputs; cbn; by rewrite ?Ht, ?Hc.
Qed.

Definition walk_result (r : Z * st) := (r.1, outputs r.2).

Lemma walk_submit c x x' last s s' :
  event x = set_key_flags (walk_flags last) (event x') -> outputs s = outputs s' ->
  walk_result (submit_sample c x s)
  = (let '(r, s) := submit_sample c (with_event (set_key_flags (walk_flags last) (event x')) x') s' in
     (r, outputs s)).
Proof.
  intros He Ho. pose proof (submit_sample_outputs c x
    (with_event (set_key_flags (walk_flags last) (event x')) x') s s' He Ho) as H. cbv zeta in H.
  unfold walk_result. rewrite H. by destruct (submit_sample c (with_event _ _) s').
Qed.

Lemma walk_retag n v c f x s s' :
  outputs s = outputs s' -> walk n v (retag c f x) s = walk n v x s'.
Proof.
  intros Ho. pose proof Ho as [= Ht Hst Hc]. unfold walk. rewrite Ht, Hst, Hc.
  destruct (frames_loop n (p_memory v) 0 x (py_symbols s')) as [[b x'] t'] eqn:E.
  rewrite (frames_loop_retag _ _ _ c f _ _ _ _ _ E). destruct b as [err|last]; [done|].
  assert (outputs (set_symbols t' s) = outputs (set_symbols t' s')) as Ho'
    by (unfold outputs; cbn; congruence).
  pose proof (submit_sample_outputs (p_cpu v)
    (with_event (set_key_flags (walk_flags last) (event (retag c f x'))) (retag c f x'))
    (with_event (set_key_flags (walk_flags last) (event x')) x') _ _ eq_refl Ho') as H. cbv zeta in H.
  destruct (submit_sample _ (with_event _ (retag c f x')) _), (submit_sample _ (with_event _ x') _).
  exact H.
Qed.

Lemma retag_id x : retag (python_stack_prog_call_cnt x) (flags (k (event x))) x = x.
Proof. by destruct x as [? ? ? ? ? ? [[] ? ?]]. Qed.

Lemma walk_outputs n v x s s' : outputs s = outputs s' -> walk n v x s = walk n v x s'.
Proof. intros Ho. rewrite <-(retag_id x) at 1. by apply walk_retag. Qed.

Lemma frames_loop_lr n m lr lr' x t :
  n <> 0%nat -> frames_loop n m lr x t = frames_loop n m lr' x t.
Proof. by destruct n. Qed.

(** With [j] calls to go the program behaves as a walk over [32 * j] frames. *)
Lemma read_python_stack_walk j fuel v s :
  let x := percpu state_zero (p_cpu v) (py_state_heap s) in
  (0 < j <= 3)%nat -> (j <= fuel)%nat -> python_stack_prog_call_cnt x = 3 - Z.of_nat j ->
  walk_result <$> read_python_stack fuel v s = Some (walk (32 * j) v x s).
Proof.
  revert fuel s. induction j as [|j IH]; intros fuel s x Hj Hfuel Hcnt; [lia|].
  destruct fuel as [|fuel]; [lia|]. cbn [read_python_stack]. fold x.
  assert (s64 (python_stack_prog_call_cnt x + 1) = 3 - Z.of_nat j) as ->
    by (rewrite Hcnt; unfold s64; rewrite Z.mod_small; lia).
  set (x1 := PySampleState _ _ _ _ (3 - Z.of_nat j) _ _).
  assert (walk (32 * S j) v x s = walk (32 * S j) v x1 s) as ->.
  { replace x1 with (retag (3 - Z.of_nat j) (flags (k (event x))) x); [by rewrite (walk_retag _ _ _ _ _ s s)|].
    clear -x1. subst x1. by destruct x as [? ? ? ? ? ? [[] ? ?]]. }
  assert (python_stack_prog_call_cnt x1 = 3 - Z.of_nat j) as Hc1 by done.
  clearbody x1. clear x Hcnt.
  change (Z.to_nat PYTHON_STACK_FRAMES_PER_PROG) with 32%nat.
  replace (32 * S j)%nat with (32 + 32 * j)%nat by lia.
  unfold walk at 1. rewrite frames_loop_add by auto.
  destruct (frames_loop 32 (p_memory v) 0 x1 (py_symbols s)) as [[[err|last] x'] t'] eqn:E; [done|].
  pose proof (frames_loop_cnt _ _ _ _ _ _ _ _ E) as Hc'. fold (walk_flags last).
  cbn [with_event python_stack_prog_call_cnt]. rewrite Hc', Hc1.
  destruct (last =? 0) eqn:Hlast.
  { unfold walk_flags at 1. rewrite Hlast.
    change (SAMPLE_KEY_FLAG_PYTHON_STACK =? _) with false. cbn [andb fmap option_fmap option_map].
    f_equal. by apply walk_submit. }
  unfold walk_flags at 1. rewrite Hlast. cbn [Z.eqb andb].
  destruct j as [|j].
  - change (3 - Z.of_nat 0 <? PYTHON_STACK_PROG_CNT) with false.
    rewrite andb_false_r. cbn [fmap option_fmap option_map frames_loop Nat.mul].
    f_equal. by apply walk_submit.
  - rewrite (proj2 (Z.ltb_lt _ _)) by (change PYTHON_STACK_PROG_CNT with 3; lia).
    rewrite Z.eqb_refl. cbn [andb].
    rewrite IH; [|lia|lia|].
    + cbn [put_state py_state_heap]. rewrite percpu_insert. f_equal.
      replace (with_event (set_key_flags (walk_flags last) (event x')) x')
        with (retag (3 - Z.of_nat (S j)) (walk_flags last) x') by (unfold retag; by rewrite <-Hc1, <-Hc').
      rewrite (walk_retag _ _ _ _ _ _ (set_symbols t' s)) by done.
      unfold walk. by rewrite (frames_loop_lr _ _ 0 last) by lia.
    + cbn [put_state py_state_heap]. rewrite percpu_insert. cbn. congruence.
Qed.

(** The state a sample starts from: the counter of symbols and the buffers of the
    CPU, everything else set for this sample. *)
Definition start_state (v : penv) (pid_ fp : Z) (d : py_pid_data) (s : st) : py_sample_state_t :=
  let x := percpu state_zero (p_cpu v) (py_state_heap s) in
  let kern := if negb (collect_kernel d =? 0) then p_stackid v KERN_STACKID_FLAGS else -1 in
  PySampleState (symbol_counter x) (pd_offsets d) (p_cpu v) fp 0 (sym x)
    (PyEvent (SampleKey pid_ (flags (k (event x))) kern (user_stack (k (event x)))) 0
       (stack (event x))).

(** The specification of [pyperf_collect]: no chain of calls, one walk. *)
Definition collect_spec `{Pthread} (v : penv) (garbage : Z) (s : st) :=
  let pid_ := Pid.current_pid (p_id v) (p_pids v) (ns_pid_ino v) garbage in
  if pid_ =? 0 then (0, outputs s)
  else
  let? d := py_pid_config s !! pid_ else (0, outputs s) in
  let? thread_state := get_thread_state v d else (-1, outputs s) in
  if thread_state =? 0 then (-1, outputs s)
  else
  let? fp := get_top_frame (p_memory v) d thread_state else (-1, outputs s) in
  walk (Z.to_nat PYTHON_STACK_MAX_LEN) v (start_state v pid_ fp d s) s.

(** C36: a sample always ends, after at most three tail calls, and the chain of
    programs of 32 frames each does what one program over 96 frames would do:
    same symbols, same stored stack, same counter, same result, on every path. *)
Theorem pyperf_collect_is_walk `{Pthread} v garbage s :
  walk_result <$> pyperf_collect 3 v garbage s = Some (collect_spec v garbage s).
Proof.
  unfold pyperf_collect, collect_spec. cbv zeta. case_match; [done|].
  unfold pyperf_collect_impl. destruct (py_pid_config s !! _) as [d|]; [|done]. cbv zeta.
  destruct (get_thread_state v d) as [ts|]; [|done].
  destruct (ts =? 0); cbn [negb]; [done|].
  destruct (get_top_frame (p_memory v) d ts) as [fp|]; [|done].
  match goal with |- context [read_python_stack 3 v ?s0] =>
    pose proof (read_python_stack_walk 3 3 v s0) as Hw end.
  cbv zeta in Hw. cbn [put_state py_state_heap] in Hw. rewrite percpu_insert in Hw.
  rewrite Hw by (done || lia). f_equal. by apply walk_outputs.
Qed.

(** ** The buffers of the maps *)

Record py_ok (s : st) : Prop := {
  ok_heap : map_Forall (fun _ x => state_ok x) (py_state_heap s);
  ok_stacks : map_Forall (fun _ stk => length stk = Z.to_nat PYTHON_STACK_MAX_LEN) (python_stacks s);
  ok_stacks_size : Z.of_nat (size (python_stacks s)) <= PROFILE_MAPS_SIZE;
  ok_counts_size : Z.of_nat (size (counts s)) <= PROFILE_MAPS_SIZE
}.

Lemma state_ok_zero : state_ok state_zero.
Proof. split; [apply sym_ok_zero|]. by split. Qed.

Lemma heap_ok c s : py_ok s -> state_ok (percpu state_zero c (py_state_heap s)).
Proof.
  intros Hs. unfold percpu. destruct (_ !! c) eqn:E; [|apply state_ok_zero].
  by apply (ok_heap _ Hs) in E.
Qed.

Lemma put_state_ok c x s : state_ok x -> py_ok s -> py_ok (put_state c x s).
Proof. intros Hx []. split; try done. by apply map_Forall_insert_2. Qed.

Lemma set_symbols_ok t s : py_ok s -> py_ok (set_symbols t s).
Proof. by intros []; split. Qed.

Lemma count_sample_size key m :
  Z.of_nat (size m) <= PROFILE_MAPS_SIZE -> Z.of_nat (size (count_sample key m)) <= PROFILE_MAPS_SIZE.
Proof.
  intros Hm. unfold count_sample. destruct (m !! key) eqn:E; [|by apply hash_update_size].
  by rewrite map_size_insert, E.
Qed.

Lemma submit_sample_ok c x s : state_ok x -> py_ok s -> py_ok (submit_sample c x s).2.
Proof.
  intros [Hy [Hl Hn]] Hs. unfold submit_sample. cbv zeta.
  set (stk := if stack_len (event x) <? PYTHON_STACK_MAX_LEN then _ else _).
  assert (length stk = Z.to_nat PYTHON_STACK_MAX_LEN) as Hstk
    by (unfold stk; case_match; rewrite ?length_insert; done).
  clearbody stk. set (h := Hash.MurmurHash64A _ _ _). clearbody h.
  match goal with |- context [put_state c ?y s] =>
    assert (py_ok (put_state c y s)) as [Hh Hst Hss Hcs] by (by apply put_state_ok) end.
  destruct (hash_update _ _ _ _ _) as [err stacks] eqn:E.
  assert (map_Forall (fun _ stk => length stk = Z.to_nat PYTHON_STACK_MAX_LEN) stacks /\
          Z.of_nat (size stacks) <= PROFILE_MAPS_SIZE) as [Hst' Hss'].
  { apply (f_equal snd) in E. cbn in E. subst stacks. split; [|by apply hash_update_size].
    intros h' stk' [[_ ->]|Hlk]%hash_update_lookup; [done|]. by eapply Hst. }
  case_match; split; try done. by apply count_sample_size.
Qed.

Lemma read_python_stack_ok fuel v s r s' :
  py_ok s -> read_python_stack fuel v s = Some (r, s') -> py_ok s'.
Proof.
  revert s. induction fuel as [|fuel IH]; intros s Hs; cbn [read_python_stack]; [done|].
  pose proof (heap_ok (p_cpu v) s Hs) as Hx. set (x := percpu _ _ _) in *. clearbody x.
  destruct (frames_loop _ _ _ _ _) as [[b x'] t'] eqn:E. eapply frames_loop_ok in E; [|exact Hx].
  destruct b as [err|last].
  { intros [= <- <-]. by apply put_state_ok, set_symbols_ok. }
  cbv zeta. set (fl := if last =? 0 then _ else _). clearbody fl.
  set (x2 := with_event (set_key_flags fl (event x')) x').
  assert (state_ok x2) as Hx2 by (by destruct E as [? [? ?]]; split).
  assert (py_ok (put_state (p_cpu v) x2 (set_symbols t' s))) as Hs2
    by (by apply put_state_ok, set_symbols_ok).
  case_match; [by apply IH|].
  intros Heq. injection Heq as Heq.
  pose proof (submit_sample_ok (p_cpu v) x2 _ Hx2 Hs2) as Hok. by rewrite Heq in Hok.
Qed.

(** A sample never writes outside its buffers: the three name buffers of the
    symbol keep their 32, 64 and 128 bytes, the stack its 96 entries with at most 96 in use,
    whatever the process memory holds; every stored stack has 96 entries, and
    the maps of stacks and counters stay within their capacity. *)
Theorem pyperf_collect_ok `{Pthread} fuel v garbage s r s' :
  py_ok s -> pyperf_collect fuel v garbage s = Some (r, s') -> py_ok s'.
Proof.
  intros Hs. unfold pyperf_collect. cbv zeta. case_match; [by intros [= <- <-]|].
  unfold pyperf_collect_impl. destruct (py_pid_config s !! _) as [d|]; [|by intros [= <- <-]].
  destruct (heap_ok (p_cpu v) s Hs) as [Hy [Hl Hn]]. set (x := percpu _ _ _) in *. clearbody x. cbv zeta.
  destruct (get_thread_state v d) as [ts|]; [|intros [= <- <-]; by apply put_state_ok].
  destruct (ts =? 0); cbn [negb]; [intros [= <- <-]; by apply put_state_ok|].
  destruct (get_top_frame (p_memory v) d ts) as [fp|]; [|intros [= <- <-]; by apply put_state_ok].
  apply read_python_stack_ok. by apply put_state_ok.
Qed.

(** A process whose thread has no Python frame. *)
Definition demo_penv : penv :=
  PEnv (77 * 2^32 + 78) 1 (overlay (overlay mem_empty 4096 ([0; 0; 0; 0; 0; 0; 0; 0; 0; 32] ++ zeros 6))
    8192 (zeros 8)) 1 (Some 4096) (Pid.TaskPids 0 (fun _ => 0) (fun _ => 0)) (fun _ => 5) 0.
Definition demo_data : py_pid_data :=
  PyPidData PyOffsets.offsets_zero (PyVersion 3 9 0) (PyOffsets.Libc false 0 0) 0 1.
Definition demo_st : st := St {[ 77 := demo_data ]} ∅ ∅ ∅ ∅.

Lemma pyperf_collect_ok_witness :
  let run := @pyperf_collect pthread_amd64 3 demo_penv 0 demo_st in
  fst <$> run = Some 0 /\ py_ok (default demo_st (snd <$> run)).
Proof.
  intros run. split; [vm_compute; reflexivity|].
  apply (@pyperf_collect_ok pthread_amd64 3 demo_penv 0 demo_st 0).
  - split; [apply map_Forall_empty..|vm_compute; discriminate|vm_compute; discriminate].
  - vm_compute. reflexivity.
Defined.

(** ** Symbol identifiers *)

(** [cnt c] identifiers have been given on CPU [c]; those in the table are among
    them and no two symbols share one. *)
Definition ids_unique (cnt : Z -> Z) (table : gmap py_symbol Z) : Prop :=
  (forall y id, table !! y = Some id ->
     exists c n, 0 <= c < PY_NUM_CPU /\ 1 <= n <= cnt c /\ id = n * PY_NUM_CPU + c) /\
  (forall y y' id, table !! y = Some id -> table !! y' = Some id -> y = y').

Definition bump (cnt : Z -> Z) (c n : Z) : Z -> Z := fun c' => if c' =? c then n else cnt c'.

Lemma ids_unique_insert cnt table y c n :
  ids_unique cnt table -> table !! y = None -> 0 <= c < PY_NUM_CPU -> 0 <= cnt c -> n = cnt c + 1 ->
  ids_unique (bump cnt c n) (<[y := n * PY_NUM_CPU + c]> table).
Proof.
  intros [Hid Hinj] Hy Hc Hn ->. unfold ids_unique, bump, PY_NUM_CPU in *.
  assert (forall y', table !! y' <> Some ((cnt c + 1) * 512 + c)) as Hnew.
  { intros y' Hy'. destruct (Hid _ _ Hy') as (c' & n' & Hc' & Hn' & E).
    assert (c' = c) as -> by lia. lia. }
  split.
  - intros y' id. rewrite lookup_insert_Some. intros [[_ <-]|[_ Hy']].
    + exists c, (cnt c + 1). rewrite Z.eqb_refl. lia.
    + destruct (Hid _ _ Hy') as (c' & n' & Hc' & Hn' & E). exists c', n'.
      split_and!; try lia. destruct (Z.eqb_spec c' c) as [->|]; lia.
  - intros y1 y2 id. rewrite !lookup_insert_Some.
    intros [[<- <-]|[_ H1]] [[<- H2]|[_ H2]]; [done|by destruct (Hnew y2)| |by eapply Hinj].
    subst id. by destruct (Hnew y1).
Qed.

Lemma ids_unique_bump cnt table c n :
  ids_unique cnt table -> cnt c <= n -> ids_unique (bump cnt c n) table.
Proof.
  intros [Hid Hinj] Hn. split; [|done]. intros y id Hy.
  destruct (Hid _ _ Hy) as (c' & n' & Hc' & Hn' & E). exists c', n'. split_and!; try done; try lia.
  unfold bump. destruct (Z.eqb_spec c' c) as [->|]; lia.
Qed.

(** Symbol identifiers are unique across CPUs: interning a symbol on any CPU keeps
    the identifiers of different symbols different, gives a known symbol its old
    identifier, and a new one an identifier that no CPU has given before, as
    long as a CPU has interned fewer than 2^23 - 1 symbols. *)
Theorem get_symbol_id_unique cnt table c y err id n table' :
  ids_unique cnt table -> 0 <= c < PY_NUM_CPU -> 0 <= cnt c < 2^23 - 1 ->
  get_symbol_id c (cnt c) y table = (err, id, n, table') ->
  ids_unique (bump cnt c n) table' /\
  (err = 0 -> table' !! y = Some id) /\
  (forall y' id', table !! y' = Some id' -> table' !! y' = Some id') /\
  cnt c <= n <= cnt c + 1.
Proof.
  intros Hu Hc Hn. unfold get_symbol_id.
  destruct (table !! y) as [old|] eqn:Hy.
  { intros [= <- <- <- <-]. split_and!; [apply ids_unique_bump; [done|lia]|done|done|lia|lia]. }
  assert (s64 (cnt c + 1) = cnt c + 1) as -> by (unfold s64; rewrite Z.mod_small; lia).
  rewrite u32_small by (unfold PY_NUM_CPU in *; lia).
  unfold hash_update. rewrite Hy.
  destruct (py_symbols_max_entries <=? Z.of_nat (size table)); cbn [Z.eqb E2BIG Z.opp].
  - rewrite Hy. intros [= <- <- <- <-]. split_and!; [apply ids_unique_bump; [done|lia]|done|done|lia|lia].
  - intros [= <- <- <- <-]. split_and!.
    + apply ids_unique_insert; [done|done|done|lia|done].
    + intros _. apply lookup_insert_eq.
    + intros y' id' Hy'. rewrite lookup_insert_ne; congruence.
    + lia.
    + lia.
Qed.

Lemma get_symbol_id_unique_witness :
  let r := get_symbol_id 3 0 symbol_zero ∅ in
  ids_unique (bump (fun _ => 0) 3 r.1.2) r.2 /\
  (r.1.1.1 = 0 -> r.2 !! symbol_zero = Some r.1.1.2) /\
  (forall y' id', (∅ : gmap py_symbol Z) !! y' = Some id' -> r.2 !! y' = Some id') /\
  0 <= r.1.2 <= 0 + 1.
Proof.
  intros r. apply (get_symbol_id_unique (fun _ => 0) ∅ 3 symbol_zero r.1.1.1 r.1.1.2 r.1.2 r.2).
  - split; intros y; [intros id|intros y' id]; by rewrite lookup_empty.
  - unfold PY_NUM_CPU; lia.
  - lia.
  - unfold r. by destruct (get_symbol_id 3 0 symbol_zero ∅) as [[[? ?] ?] ?].
Defined.

End PyPerfSpec.
