(* ===== verification/Profile.v ===== *)
(** * The CPU profiler

    internal/pyroscope-ebpf/bpf/profile.bpf.{c,h}: the perf event program that
    counts native stacks or tail-calls the Python profiler, and the kprobes that
    follow the life of a process. *)

From S2P Require Import Prelude L7Base Types PyBase PyPerf.

Module Profile.
Import Stacks.

Definition PF_KTHREAD : Z := 0x00200000.

Definition PROFILING_TYPE_UNKNOWN : Z := 1.
Definition PROFILING_TYPE_FRAMEPOINTERS : Z := 2.
Definition PROFILING_TYPE_PYTHON : Z := 3.
Definition PROFILING_TYPE_ERROR : Z := 4.

Definition OP_REQUEST_UNKNOWN_PROCESS_INFO : Z := 1.
Definition OP_PID_DEAD : Z := 2.
Definition OP_REQUEST_EXEC_PROCESS_INFO : Z := 3.

Record pid_config := PidConfig {
  type : Z; collect_user : Z; collect_kernel : Z; padding_ : Z
}.

Record pid_event := PidEvent { op : Z; ev_pid : Z }.

Record st := St {
  pids : gmap Z pid_config;
  events : list pid_event;
  py : PyPerf.st
}.

Definition pids_max_entries : Z := 2048.

Definition set_pids (f : gmap Z pid_config -> gmap Z pid_config) (s : st) : st :=
  St (f (pids s)) (events s) (py s).
Definition output (e : pid_event) (s : st) : st := St (pids s) (events s ++ [e]) (py s).
Definition set_py (f : PyPerf.st -> PyPerf.st) (s : st) : st := St (pids s) (events s) (f (py s)).

(** The [counts] map is shared with the Python program. *)
Definition set_counts (f : gmap sample_key Z -> gmap sample_key Z) (s : st) : st :=
  set_py (fun p => PyPerf.St (PyPerf.py_pid_config p) (PyPerf.py_state_heap p)
                     (PyPerf.py_symbols p) (PyPerf.python_stacks p) (f (PyPerf.counts p))) s.

Definition current_pid (v : PyPerf.penv) (pid : Z) : Z :=
  Pid.current_pid (PyPerf.p_id v) (PyPerf.p_pids v) (PyPerf.ns_pid_ino v) pid.

(** The key of a native sample. *)
Definition native_key (v : PyPerf.penv) (tgid : Z) (config : pid_config) : sample_key :=
  SampleKey tgid 0
    (if negb (collect_kernel config =? 0)
     then PyPerf.p_stackid v KERN_STACKID_FLAGS else -1)
    (if negb (collect_user config =? 0)
     then PyPerf.p_stackid v USER_STACKID_FLAGS else -1).

(** [task_flags]: [task->flags], [None] when the read fails.  [python]: the
    program in slot [PROG_IDX_PYTHON] of [progs], [None] when the slot is empty
    (the tail call then falls through). *)
Definition do_perf_event (v : PyPerf.penv) (task_flags : option Z)
  (python : option (PyPerf.st -> PyPerf.st)) (s : st) : st :=
  let tgid := current_pid v 0 in
  if (tgid =? 0) || (PyPerf.p_task v =? 0) then s
  else
  let? flags := task_flags else s in
  if negb (Z.land flags PF_KTHREAD =? 0) then s
  else
  match pids s !! tgid with
  | None =>
      let unknown := PidConfig PROFILING_TYPE_UNKNOWN 0 0 0 in
      let '(err, m) := hash_update pids_max_entries BPF_NOEXIST tgid unknown (pids s) in
      let s := set_pids (fun _ => m) s in
      if negb (err =? 0) then s
      else output (PidEvent OP_REQUEST_UNKNOWN_PROCESS_INFO tgid) s
  | Some config =>
      if (type config =? PROFILING_TYPE_ERROR) || (type config =? PROFILING_TYPE_UNKNOWN) then s
      else if type config =? PROFILING_TYPE_PYTHON then
        let? run := python else s in set_py run s
      else if type config =? PROFILING_TYPE_FRAMEPOINTERS then
        set_counts (count_sample (native_key v tgid config)) s
      else s
  end.

Definition disassociate_ctty (v : PyPerf.penv) (on_exit : Z) (s : st) : st :=
  if on_exit =? 0 then s
  else
  let pid := current_pid v 0 in
  if pid =? 0 then s
  else
  let s := set_pids (delete pid) s in
  output (PidEvent OP_PID_DEAD pid) s.

Definition exec (v : PyPerf.penv) (s : st) : st :=
  let pid := current_pid v 0 in
  if pid =? 0 then s
  else output (PidEvent OP_REQUEST_EXEC_PROCESS_INFO pid) s.

(** The life of a process in the profiler: the first sample of an unknown
    process asks the agent about it, once: further samples change nothing until
    the agent answers; when the process exits it is reported dead and forgotten,
    so a later process with the same pid is asked about again. *)
Theorem process_lifecycle v fl python s :
  let p := current_pid v 0 in
  p <> 0 -> PyPerf.p_task v <> 0 -> Z.land fl PF_KTHREAD = 0 ->
  pids s !! p = None -> Z.of_nat (size (pids s)) < pids_max_entries ->
  let s1 := do_perf_event v (Some fl) python s in
  let s2 := disassociate_ctty v 1 s1 in
  events s1 = events s ++ [PidEvent OP_REQUEST_UNKNOWN_PROCESS_INFO p] /\
  do_perf_event v (Some fl) python s1 = s1 /\
  events s2 = events s ++ [PidEvent OP_REQUEST_UNKNOWN_PROCESS_INFO p; PidEvent OP_PID_DEAD p] /\
  pids s2 = pids s /\ py s2 = py s /\
  events (do_perf_event v (Some fl) python s2)
    = events s2 ++ [PidEvent OP_REQUEST_UNKNOWN_PROCESS_INFO p].
Proof.
  intros p Hp Htask Hfl Hnone Hroom s1 s2.
  assert (forall s, pids s !! p = None -> Z.of_nat (size (pids s)) < pids_max_entries ->
    do_perf_event v (Some fl) python s =
      output (PidEvent OP_REQUEST_UNKNOWN_PROCESS_INFO p)
        (set_pids (insert p (PidConfig PROFILING_TYPE_UNKNOWN 0 0 0)) s)) as Hask.
  { intros s0 Hs0 Hr0. unfold do_perf_event. fold p.
    rewrite (proj2 (Z.eqb_neq _ _) Hp), (proj2 (Z.eqb_neq _ _) Htask), Hfl, Hs0. cbn [orb Z.eqb negb].
    unfold hash_update. by rewrite Hs0, (proj2 (Z.leb_gt _ _) Hr0). }
  assert (s1 = _) as Hs1 by (by apply Hask). clearbody s1.
  assert (s2 = output (PidEvent OP_PID_DEAD p) (set_pids (delete p) s1)) as Hs2.
  { unfold s2, disassociate_ctty. fold p. by rewrite (proj2 (Z.eqb_neq _ _) Hp). }
  clearbody s2. assert (pids s2 = pids s) as Hpids by (subst; by apply delete_insert_id).
  split_and!; [by subst| | |done|by subst|].
  - subst s1. unfold do_perf_event. fold p.
    rewrite (proj2 (Z.eqb_neq _ _) Hp), (proj2 (Z.eqb_neq _ _) Htask), Hfl. cbn [orb Z.eqb negb].
    cbn [pids output set_pids]. by rewrite lookup_insert_eq.
  - subst. cbn. by rewrite <-app_assoc.
  - rewrite Hask; [done|by rewrite Hpids|by rewrite Hpids].
Qed.

Definition demo_penv : PyPerf.penv :=
  PyPerf.PEnv (77 * 2^32 + 78) 1 mem_empty 0xffff0001 None (Pid.TaskPids 0 (fun _ => 0) (fun _ => 0))
    (fun _ => 5) 0.
Definition demo_st : st := St ∅ [] (PyPerf.St ∅ ∅ ∅ ∅ ∅).

Lemma process_lifecycle_witness :
  let s1 := do_perf_event demo_penv (Some 0) None demo_st in
  let s2 := disassociate_ctty demo_penv 1 s1 in
  events s1 = events demo_st ++ [PidEvent OP_REQUEST_UNKNOWN_PROCESS_INFO 77] /\
  do_perf_event demo_penv (Some 0) None s1 = s1 /\
  events s2 = events demo_st ++ [PidEvent OP_REQUEST_UNKNOWN_PROCESS_INFO 77; PidEvent OP_PID_DEAD 77] /\
  pids s2 = pids demo_st /\ py s2 = py demo_st /\
  events (do_perf_event demo_penv (Some 0) None s2)
    = events s2 ++ [PidEvent OP_REQUEST_UNKNOWN_PROCESS_INFO 77].
Proof.
  apply (process_lifecycle demo_penv 0 None demo_st);
    [vm_compute; discriminate|vm_compute; discriminate|vm_compute; reflexivity..].
Defined.

End Profile.
