(* ===== verification/GoLib.v ===== *)
(** * The Go side: byte slices, strings and readers

    What the user-space half of the agent uses of the Go language and its
    standard library: [bytes.Cut], [strings.Split], [strconv.ParseUint], slices
    that panic out of range, and [binary.Read] on structs of fixed layout. *)

From Stdlib Require Import Strings.Ascii Strings.String.
From S2P Require Import Prelude.

(** A [[]byte] or a [string]: its bytes. *)
Definition bytes : Type := list Z.

(** The bytes of a string literal. *)
Definition str (s : string) : bytes :=
  List.map (fun c => Z.of_N (N_of_ascii c)) (list_ascii_of_string s).

(** What a statement that may panic evaluates to. *)
Inductive go (A : Type) := Panic | Val (a : A).
#[global] Arguments Panic {A}.
#[global] Arguments Val {A} a.

Notation "'let!' x := e 'in' k" := (match e with Panic => Panic | Val x => k end)
  (at level 10, x pattern, e at level 100, k at level 200).

(** ** Slices *)

(** [s[i:j]]: panics unless [i <= j <= len(s)] (the slices the agent takes have
    no spare capacity). *)
Definition slice (s : bytes) (i j : Z) : go bytes :=
  if (0 <=? i) && (i <=? j) && (j <=? Z.of_nat (length s))
  then Val (take (Z.to_nat (j - i)) (drop (Z.to_nat i) s)) else Panic.

(** [append(s, t...)] is [s ++ t]. *)

(** ** Package bytes and strings *)

Definition HasPrefix (s prefix : bytes) : bool := starts_with prefix s.
Definition HasSuffix (s suffix : bytes) : bool := starts_with (rev suffix) (rev s).

Definition bytes_eqb (s t : bytes) : bool := bool_decide (s = t).

(** The index of the first occurrence of [sep]. *)
Fixpoint Index (s sep : bytes) : option nat :=
  if starts_with sep s then Some O
  else match s with
       | [] => None
       | _ :: s => S <$> Index s sep
       end.

(** The part before the first [sep], the part after it, and whether it occurs. *)
Definition Cut (s sep : bytes) : bytes * bytes * bool :=
  match Index s sep with
  | Some i => (take i s, drop (i + length sep) s, true)
  | None => (s, [], false)
  end.

(** [strings.Split(s, sep)] for a separator of one byte. *)
Fixpoint Split (s : bytes) (sep : Z) : list bytes :=
  match s with
  | [] => [[]]
  | c :: s =>
      if c =? sep then [] :: Split s sep
      else match Split s sep with
           | [] => [[c]]
           | w :: ws => (c :: w) :: ws
           end
  end.

(** ** Package strconv *)

Definition is_digit (c : Z) : bool := (48 <=? c) && (c <=? 57).

Definition digits_value (s : bytes) : Z := foldl (fun n c => n * 10 + (c - 48)) 0 s.

(** [strconv.ParseUint(s, 10, bits)]; [None] is an error. *)
Definition ParseUint (bits : Z) (s : bytes) : option Z :=
  if (length s =? 0)%nat || negb (forallb is_digit s) then None
  else if digits_value s <? 2 ^ bits then Some (digits_value s) else None.

Fixpoint format_digits (fuel : nat) (n : Z) (acc : bytes) : bytes :=
  match fuel with
  | O => acc
  | S fuel =>
      let acc := (48 + n mod 10) :: acc in
      if n / 10 =? 0 then acc else format_digits fuel (n / 10) acc
  end.

(** [strconv.FormatUint(n, 10)]: a 64-bit integer has at most 20 digits. *)
Definition FormatUint (n : Z) : bytes := format_digits 20 n [].

(** ** Package encoding/binary *)

(** A reader takes a value off the front of its input; [None] is an error
    ([io.EOF] or [io.ErrUnexpectedEOF]). *)
Definition reader (A : Type) : Type := bytes -> option (A * bytes).

Definition bind {A B} (r : reader A) (f : A -> reader B) : reader B :=
  fun s => let? (a, s) := r s else None in f a s.
Definition ret {A} (a : A) : reader A := fun s => Some (a, s).

Declare Scope reader_scope.
Delimit Scope reader_scope with reader.
Notation "x <- r ;; k" := (bind r (fun x => k))
  (at level 100, r at next level, right associativity) : reader_scope.

Definition take_bytes (n : nat) : reader bytes :=
  fun s => if (n <=? length s)%nat then Some (take n s, drop n s) else None.

(** The fields [binary.Read] fills, little endian. *)
#[local] Open Scope reader_scope.
Definition uint8 : reader Z := s <- take_bytes 1 ;; ret (le s).
Definition uint16 : reader Z := s <- take_bytes 2 ;; ret (le s).
Definition uint32 : reader Z := s <- take_bytes 4 ;; ret (le s).
Definition uint64 : reader Z := s <- take_bytes 8 ;; ret (le s).
Definition int32 : reader Z := s <- take_bytes 4 ;; ret (s32 (le s)).

(** The same, big endian. *)
Definition be (s : bytes) : Z := le (rev s).
Definition be_uint16 : reader Z := s <- take_bytes 2 ;; ret (be s).
Definition be_uint32 : reader Z := s <- take_bytes 4 ;; ret (be s).

(** ** The layout the C side writes *)

(** An [n]-byte integer object of value [z] (two's complement if negative). *)
Fixpoint le_bytes (n : nat) (z : Z) : bytes :=
  match n with
  | O => []
  | S n => z mod 256 :: le_bytes n (z / 256)
  end.

Lemma le_bytes_length n z : length (le_bytes n z) = n.
Proof. revert z. induction n; intros; cbn; auto. Qed.

Lemma le_le_bytes n z : le (le_bytes n z) = z mod 256 ^ Z.of_nat n.
Proof.
  revert z. induction n as [|n IH]; intros z; [cbn; symmetry; apply Z.mod_1_r|].
  cbn [le_bytes le]. rewrite IH, Nat2Z.inj_succ, Z.pow_succ_r by lia.
  rewrite Z.rem_mul_r by lia. lia.
Qed.

Lemma le_bytes_ok n z : bytes_ok (le_bytes n z).
Proof. revert z. induction n; intros; cbn; constructor; [mod_lia|]. apply IHn. Qed.

(** ** Readers invert the layout *)

Lemma take_bytes_app n s t : length s = n -> take_bytes n (s ++ t) = Some (s, t).
Proof.
  intros <-. unfold take_bytes. rewrite length_app.
  destruct (Nat.leb_spec (length s) (length s + length t)); [|lia].
  by rewrite take_app_length, drop_app_length.
Qed.

Lemma take_bytes_short n s : (length s < n)%nat -> take_bytes n s = None.
Proof. intros. unfold take_bytes. by destruct (Nat.leb_spec n (length s)); [lia|]. Qed.

Lemma bind_eq {A B} (r : reader A) (f : A -> reader B) s a t :
  r s = Some (a, t) -> bind r f s = f a t.
Proof. unfold bind. by intros ->. Qed.

Lemma bind_Some {A B} (r : reader A) (f : A -> reader B) s x :
  bind r f s = Some x <-> exists a t, r s = Some (a, t) /\ f a t = Some x.
Proof.
  unfold bind. destruct (r s) as [[a t]|]; split; try done; [by eauto|by intros (? & ? & [= <- <-] & ?)|].
  by intros (? & ? & ? & _).
Qed.

Lemma uint8_le_bytes z s : uint8 (le_bytes 1 z ++ s) = Some (u8 z, s).
Proof.
  unfold uint8. erewrite bind_eq by (by apply take_bytes_app, le_bytes_length).
  by rewrite le_le_bytes.
Qed.
Lemma uint16_le_bytes z s : uint16 (le_bytes 2 z ++ s) = Some (u16 z, s).
Proof.
  unfold uint16. erewrite bind_eq by (by apply take_bytes_app, le_bytes_length).
  by rewrite le_le_bytes.
Qed.
Lemma uint32_le_bytes z s : uint32 (le_bytes 4 z ++ s) = Some (u32 z, s).
Proof.
  unfold uint32. erewrite bind_eq by (by apply take_bytes_app, le_bytes_length).
  by rewrite le_le_bytes.
Qed.
Lemma uint64_le_bytes z s : uint64 (le_bytes 8 z ++ s) = Some (u64 z, s).
Proof.
  unfold uint64. erewrite bind_eq by (by apply take_bytes_app, le_bytes_length).
  by rewrite le_le_bytes.
Qed.
Lemma s32_mod z : s32 (z mod 256 ^ Z.of_nat 4) = s32 z.
Proof. change (256 ^ Z.of_nat 4) with (2 ^ 32). mod_lia. Qed.
Lemma int32_le_bytes z s : int32 (le_bytes 4 z ++ s) = Some (s32 z, s).
Proof.
  unfold int32. erewrite bind_eq by (by apply take_bytes_app, le_bytes_length).
  by rewrite le_le_bytes, s32_mod.
Qed.

(** The same, big endian. *)
Definition be_bytes (n : nat) (z : Z) : bytes := rev (le_bytes n z).

Lemma be_uint32_bytes z s : be_uint32 (be_bytes 4 z ++ s) = Some (u32 z, s).
Proof.
  unfold be_uint32. erewrite bind_eq by (apply take_bytes_app; unfold be_bytes; by rewrite length_rev, le_bytes_length).
  unfold be, be_bytes. by rewrite rev_involutive, le_le_bytes.
Qed.

Lemma be_be_bytes n z : be (be_bytes n z) = z mod 256 ^ Z.of_nat n.
Proof. unfold be, be_bytes. by rewrite rev_involutive, le_le_bytes. Qed.
Lemma be_snoc s x : be (s ++ [x]) = be s * 256 + x.
Proof. unfold be. rewrite rev_unit. cbn [le]. lia. Qed.
Lemma be_bytes_length n z : length (be_bytes n z) = n.
Proof. unfold be_bytes. by rewrite length_rev, le_bytes_length. Qed.

(** Step a reader over the field at the front of its input. *)
Ltac read_field :=
  first [ erewrite bind_eq by apply uint64_le_bytes | erewrite bind_eq by apply uint32_le_bytes
        | erewrite bind_eq by apply int32_le_bytes | erewrite bind_eq by apply uint16_le_bytes
        | erewrite bind_eq by apply uint8_le_bytes
        | erewrite bind_eq by (apply take_bytes_app; first [done | by apply le_bytes_length]) ];
  cbv beta.

Lemma take_bytes_shrinks n s a t : take_bytes n s = Some (a, t) -> length s = (n + length t)%nat.
Proof.
  unfold take_bytes. destruct (Nat.leb_spec n (length s)); intros [= <- <-].
  rewrite length_drop. lia.
Qed.

(** ** Slices *)

Lemma slice_prefix s n : 0 <= n <= Z.of_nat (length s) -> slice s 0 n = Val (take (Z.to_nat n) s).
Proof.
  intros. unfold slice. cbn [Z.leb andb Z.compare].
  destruct (Z.leb_spec 0 n); [|lia]. destruct (Z.leb_spec n (Z.of_nat (length s))); [|lia].
  cbn. by rewrite Z.sub_0_r.
Qed.

(** ** Prefixes and cuts *)

Lemma starts_with_app p s : starts_with p (p ++ s) = true.
Proof. induction p; cbn; [done|]. by rewrite Z.eqb_refl. Qed.

Lemma HasSuffix_app s s' : HasSuffix (s' ++ s) s = true.
Proof. unfold HasSuffix. rewrite rev_app_distr. apply starts_with_app. Qed.

Lemma starts_with_true p s : starts_with p s = true <-> exists t, s = p ++ t.
Proof.
  revert s. induction p as [|c p IH]; intros s; cbn; [by split; eauto|].
  destruct s as [|b s]; [by split; [|intros (? & [=])]|].
  rewrite andb_true_iff, Z.eqb_eq, IH. split.
  - intros [-> [t ->]]. by exists t.
  - intros [t [= -> ->]]. eauto.
Qed.

(** [sep] does not occur in [s] followed by the beginning of [sep]: the first
    occurrence in [s ++ sep ++ t] is the one after [s]. *)
Lemma Index_first s c t : Forall (fun b => b <> c) s -> Index (s ++ c :: t) [c] = Some (length s).
Proof.
  induction 1 as [|b s Hb _ IH]; cbn; [by rewrite Z.eqb_refl|].
  destruct (Z.eqb_spec b c); [done|]. cbn. rewrite IH. done.
Qed.

Lemma Cut_app s c t : Forall (fun b => b <> c) s -> Cut (s ++ c :: t) [c] = (s, t, true).
Proof.
  intros H. unfold Cut. rewrite Index_first by done.
  rewrite take_app_length. cbn. rewrite drop_app_add. done.
Qed.

(** A two-byte separator whose first byte does not occur in [s]. *)
Lemma Index_first2 s c d t :
  Forall (fun b => b <> c) s -> Index (s ++ c :: d :: t) [c; d] = Some (length s).
Proof.
  induction 1 as [|b s Hb _ IH]; cbn; [by rewrite !Z.eqb_refl|].
  destruct (Z.eqb_spec b c); [done|]. cbn. rewrite IH. done.
Qed.
Lemma Cut_app2 s c d t :
  Forall (fun b => b <> c) s -> Cut (s ++ c :: d :: t) [c; d] = (s, t, true).
Proof.
  intros H. unfold Cut. rewrite Index_first2 by done.
  rewrite take_app_length. cbn. rewrite drop_app_add. done.
Qed.

Lemma Index_none s c : Forall (fun b => b <> c) s -> Index s [c] = None.
Proof.
  induction 1 as [|b s Hb _ IH]; cbn; [done|].
  destruct (Z.eqb_spec b c); [done|]. cbn. by rewrite IH.
Qed.
Lemma Index_byte s c i :
  Index s [c] = Some i -> s = take i s ++ c :: drop (i + 1) s /\ Forall (fun x => x <> c) (take i s).
Proof.
  revert i. induction s as [|x s IH]; intros i E; [done|]. cbn [Index starts_with] in E. rewrite andb_true_r in E.
  destruct (Z.eqb_spec x c) as [->|Hne]; [injection E as <-; by cbn; rewrite drop_0|].
  destruct (Index s [c]) as [j|]; [|done]. injection E as <-. destruct (IH j eq_refl) as [Es Hf].
  cbn. split; [by rewrite Es at 1|]. by constructor.
Qed.

Lemma Cut_true s c a b : Cut s [c] = (a, b, true) -> s = a ++ c :: b /\ Forall (fun x => x <> c) a.
Proof. unfold Cut. destruct (Index s [c]) as [i|] eqn:E; [|done]. intros Ec. injection Ec as <- <-. by apply Index_byte. Qed.

Lemma Cut_none s c : Forall (fun b => b <> c) s -> Cut s [c] = (s, [], false).
Proof. intros H. unfold Cut. by rewrite Index_none. Qed.

(** ** Decimal numbers *)

Lemma digits_value_snoc s c : digits_value (s ++ [c]) = digits_value s * 10 + (c - 48).
Proof. unfold digits_value. by rewrite foldl_app. Qed.

Lemma format_digits_spec fuel n acc :
  0 <= n < 10 ^ Z.of_nat fuel -> exists s,
    format_digits fuel n acc = s ++ acc /\ forallb is_digit s = true /\ digits_value s = n /\
    (fuel <> O -> s <> []).
Proof.
  revert n acc. induction fuel as [|fuel IH]; intros n acc Hn.
  { exists []. split_and!; try done. cbn in Hn |- *. lia. }
  assert (is_digit (48 + n mod 10) = true) as Hd.
  { unfold is_digit. apply andb_true_intro; split; apply Z.leb_le; mod_lia. }
  cbn [format_digits]. destruct (Z.eqb_spec (n / 10) 0) as [E|E].
  - exists [48 + n mod 10]. split_and!; try done.
    + cbn [forallb]. by rewrite Hd.
    + unfold digits_value. cbn [foldl]. mod_lia.
  - rewrite Nat2Z.inj_succ, Z.pow_succ_r in Hn by lia.
    destruct (IH (n / 10) ((48 + n mod 10) :: acc)) as (s & -> & Hs & Hv & _).
    { split; [mod_lia|]. apply Z.div_lt_upper_bound; lia. }
    exists (s ++ [48 + n mod 10]). rewrite <-app_assoc. split_and!; try done.
    + rewrite forallb_app, Hs. cbn [forallb]. by rewrite Hd.
    + rewrite digits_value_snoc, Hv. mod_lia.
    + intros _ [_ [=]]%app_nil.
Qed.

Lemma FormatUint_digits n : 0 <= n < 2 ^ 64 -> forallb is_digit (FormatUint n) = true.
Proof.
  intros Hn. unfold FormatUint.
  destruct (format_digits_spec 20 n []) as (s & -> & Hs & _ & _); [cbn in *; lia|].
  by rewrite app_nil_r.
Qed.

(** Parsing inverts formatting, within the width. *)
Lemma ParseUint_FormatUint bits n :
  0 <= bits <= 64 -> 0 <= n < 2 ^ bits -> ParseUint bits (FormatUint n) = Some n.
Proof.
  intros Hb Hn. assert (2 ^ bits <= 2 ^ 64) by (apply Z.pow_le_mono_r; lia).
  unfold FormatUint.
  destruct (format_digits_spec 20 n []) as (s & -> & Hs & Hv & Hne); [cbn in *; lia|].
  rewrite app_nil_r. unfold ParseUint. rewrite Hs, Hv.
  destruct s; [by destruct Hne|]. cbn [length Nat.eqb orb negb].
  by destruct (Z.ltb_spec n (2 ^ bits)); [|lia].
Qed.

Lemma ParseUint_range bits s n : ParseUint bits s = Some n -> n < 2 ^ bits.
Proof.
  unfold ParseUint. case_match; [done|]. case_match eqn:E; [|done].
  intros [= <-]. by apply Z.ltb_lt.
Qed.

(** ** Splitting *)

Lemma Split_cons s c : exists w ws, Split s c = w :: ws.
Proof. destruct s; cbn; [eauto|]. case_match; [eauto|]. destruct (Split s c); eauto. Qed.

Lemma Split_none s c : Forall (fun b => b <> c) s -> Split s c = [s].
Proof.
  induction 1 as [|b s Hb _ IH]; cbn; [done|].
  destruct (Z.eqb_spec b c); [done|]. by rewrite IH.
Qed.

Lemma Split_app s c t :
  Forall (fun b => b <> c) s -> Split (s ++ c :: t) c = s :: Split t c.
Proof.
  induction 1 as [|b s Hb _ IH]; cbn; [by rewrite Z.eqb_refl|].
  destruct (Z.eqb_spec b c); [done|]. by rewrite IH.
Qed.
