(* ===== verification/GoFloat.v ===== *)
(** * Floating-point numbers of Go

    [float64] as the IEEE 754 binary64 numbers of the standard library's executable
    specification (all NaNs are one), with the arithmetic and the comparisons the
    sources use, [strconv.ParseFloat] and [strconv.FormatFloat]. *)

From Stdlib Require Floats.SpecFloat.
From S2P Require Import Prelude GoLib.

Module GoFloat.
Import SpecFloat.

Definition float64 : Type := spec_float.

#[global] Instance float64_eq_dec : EqDecision float64.
Proof. solve_decision. Defined.

(** ** Arithmetic *)

Definition fadd : float64 -> float64 -> float64 := SFadd 53 1024.
Definition fmul : float64 -> float64 -> float64 := SFmul 53 1024.
Definition fdiv : float64 -> float64 -> float64 := SFdiv 53 1024.
Definition fle (x y : float64) : bool := SFleb x y.
Definition flt (x y : float64) : bool := SFltb x y.
Definition feq (x y : float64) : bool := SFeqb x y.

Definition IsNaN (x : float64) : bool := match x with S754_nan => true | _ => false end.
(** [math.IsInf(x, 0)] *)
Definition IsInf (x : float64) : bool := match x with S754_infinity _ => true | _ => false end.
Definition finite (x : float64) : bool := negb (IsNaN x) && negb (IsInf x).

(** [float64(n)] of an integer, rounded to even. *)
Definition of_int (n : Z) : float64 := binary_normalize 53 1024 n 0 false.

(** [int64(x)] of a number in its range: towards zero. *)
Definition to_int (x : float64) : Z :=
  match x with
  | S754_finite s m e => cond_Zopp s (Z.shiftl (Zpos m) e)
  | _ => 0
  end.

Definition zero : float64 := S754_zero false.
Definition one : float64 := of_int 1.
(** [math.Inf(-1)] *)
Definition neg_inf : float64 := S754_infinity true.

(** [m * 10^e], negated if [neg], rounded to even. *)
Definition of_decimal (neg : bool) (m e : Z) : float64 :=
  match m with
  | Z0 | Zneg _ => S754_zero neg
  | Zpos _ =>
      if 0 <=? e then binary_normalize 53 1024 (cond_Zopp neg (m * 10 ^ e)) 0 neg
      else let '(q, e', l) := SFdiv_core_binary 53 1024 m 0 (10 ^ (- e)) 0 in
           binary_round_aux 53 1024 neg q e' l
  end.

(** [m * 2^e] *)
Definition of_binary (neg : bool) (m e : Z) : float64 :=
  binary_normalize 53 1024 (cond_Zopp neg m) e neg.

(** ** strconv.ParseFloat *)

Definition lower (c : Z) : Z := Z.lor c 32.
Definition hex_letter (c : Z) : bool := (97 <=? lower c) && (lower c <=? 102).
Definition hex_value (c : Z) : Z := if is_digit c then c - 48 else lower c - 87.

(** The loop of [readFloat] over the digits: the mantissa, the digits after the point
    (if one was seen), whether a digit and whether an underscore was seen, and what
    is left. *)
Fixpoint read_digits (hex : bool) (s : bytes) (m frac : Z) (dot digits under : bool)
  : Z * Z * bool * bool * bytes :=
  match s with
  | [] => (m, frac, digits, under, s)
  | c :: s' =>
      if c =? 95 then read_digits hex s' m frac dot digits true
      else if c =? 46 then
        if dot then (m, frac, digits, under, s) else read_digits hex s' m frac true digits under
      else if is_digit c || hex && hex_letter c then
        read_digits hex s' (m * (if hex then 16 else 10) + hex_value c) (if dot then frac + 1 else frac)
          dot true under
      else (m, frac, digits, under, s)
  end.

(** The digits of the exponent, which stops growing at 10000. *)
Fixpoint read_exponent (s : bytes) (e : Z) (under : bool) : Z * bool * bytes :=
  match s with
  | [] => (e, under, s)
  | c :: s' =>
      if c =? 95 then read_exponent s' e true
      else if is_digit c then read_exponent s' (if e <? 10000 then e * 10 + (c - 48) else e) under
      else (e, under, s)
  end.

(** Underscores only between digits (or after a base prefix): [saw] is the kind of
    the last character, 0 for a digit, 1 for an underscore, 2 for anything else. *)
Fixpoint underscores (hex : bool) (saw : Z) (s : bytes) : bool :=
  match s with
  | [] => negb (saw =? 1)
  | c :: s =>
      if is_digit c || hex && hex_letter c then underscores hex 0 s
      else if c =? 95 then (saw =? 0) && underscores hex 1 s
      else negb (saw =? 1) && underscores hex 2 s
  end.

Definition drop_sign (s : bytes) : bytes :=
  match s with c :: s' => if (c =? 43) || (c =? 45) then s' else s | [] => s end.

Definition underscoreOK (s : bytes) : bool :=
  let s := drop_sign s in
  match s with
  | 48 :: c :: s' =>
      if (lower c =? 98) || (lower c =? 111) || (lower c =? 120)
      then underscores (lower c =? 120) 0 s' else underscores false 2 s
  | _ => underscores false 2 s
  end.

(** The length of the common prefix of [s] and [prefix], in lower case. *)
Fixpoint common_prefix (s prefix : bytes) : nat :=
  match s, prefix with
  | c :: s, p :: prefix =>
      if (if (65 <=? c) && (c <=? 90) then c + 32 else c) =? p then S (common_prefix s prefix) else O
  | _, _ => O
  end.

(** The whole of [s] as a special value. *)
Definition special (s : bytes) : option float64 :=
  let infinite t := let n := common_prefix t (str "infinity") in
                    ((n =? 8) || (3 <=? n) && (n <? 8) && (length t =? 3))%nat && (length t <=? 8)%nat in
  match s with
  | [] => None
  | c :: t =>
      if (c =? 43) || (c =? 45)
      then if infinite t then Some (S754_infinity (c =? 45)) else None
      else if infinite s then Some (S754_infinity false)
      else if (common_prefix s (str "nan") =? 3)%nat && (length s =? 3)%nat then Some S754_nan
      else None
  end.

(** [readFloat] on a text that has to be a number to its end. *)
Definition read_float (s : bytes) : option float64 :=
  let neg := HasPrefix s (str "-") in
  let t := drop_sign s in
  let hex := match t with 48 :: c :: _ :: _ => lower c =? 120 | _ => false end in
  let '(m, frac, digits, under, rest) := read_digits hex (if hex then drop 2 t else t) 0 0 false false false in
  if negb digits then None
  else
  let? (e, under) :=
    match rest with
    | [] => if hex then None else Some (0, under)
    | c :: rest =>
        if lower c =? (if hex then 112 else 101) then
          let minus := HasPrefix rest (str "-") in
          match drop_sign rest with
          | d :: _ => if is_digit d then
                        match read_exponent (drop_sign rest) 0 under with
                        | (e, under, []) => Some (if minus then - e else e, under)
                        | _ => None
                        end
                      else None
          | [] => None
          end
        else None
    end else None in
  if under && negb (underscoreOK s) then None
  else Some (if hex then of_binary neg m (e - 4 * frac) else of_decimal neg m (e - frac)).

(** [None] is a syntax error, or a number that is too large. *)
Definition ParseFloat (s : bytes) : option float64 :=
  match special s with
  | Some x => Some x
  | None => let? x := read_float s else None in if IsInf x then None else Some x
  end.

(** ** strconv.FormatFloat(x, 'g', -1, 64) *)

(** The largest [p' >= p] with [10^p' <= n]. *)
Fixpoint log10_from (fuel : nat) (p n : Z) : Z :=
  match fuel with
  | O => p
  | S fuel => if 10 ^ (p + 1) <=? n then log10_from fuel (p + 1) n else p
  end.

(** The least [k' >= k] with [den <= num * 10^k']. *)
Fixpoint scale_from (fuel : nat) (k num den : Z) : Z :=
  match fuel with
  | O => k
  | S fuel => if den <=? num * 10 ^ k then k else scale_from fuel (k + 1) num den
  end.

(** [num / den >= 10^p], the largest such [p]; the exponents of a float64 are between
    -324 and 308. *)
Definition log10 (num den : Z) : Z :=
  if den <=? num then log10_from 309 0 (num / den) else - scale_from 324 1 num den.

(** The digits [d] and the exponent [k] of [d * 10^k], the decimal of [n] digits that
    is nearest to [num / den] among those that are read back as [x]. *)
Definition decimal_of (x : float64) (num den : Z) (n : Z) : option (Z * Z) :=
  let k := log10 num den - n + 1 in
  let (a, b) := if 0 <=? k then (num, den * 10 ^ k) else (num * 10 ^ (- k), den) in
  let d := a / b in
  let below := bool_decide (of_decimal false d k = x) in
  let above := bool_decide (of_decimal false (d + 1) k = x) in
  let nearer := 2 * (a mod b) <=? b in
  if below && (nearer || negb above) then Some (d, k)
  else if above then Some (d + 1, k) else None.

(** The smallest number of digits that is read back exactly; 17 always are. *)
Fixpoint shortest (fuel : nat) (n : Z) (x : float64) (num den : Z) : option (Z * Z) :=
  match fuel with
  | O => None
  | S fuel => match decimal_of x num den n with
              | Some r => Some r
              | None => shortest fuel (n + 1) x num den
              end
  end.

(** The digits [ds] with the decimal point after the first [dp] of them: [%e] and
    [%f]. *)
Definition format_e (ds : bytes) (exp : Z) : bytes :=
  let mant := match ds with
              | [] => []
              | [d] => [d]
              | d :: ds => d :: 46 :: ds
              end in
  let e := FormatUint (Z.abs exp) in
  mant ++ (if exp <? 0 then str "e-" else str "e+") ++ (if (length e <? 2)%nat then 48 :: e else e).

Definition format_f (ds : bytes) (dp : Z) : bytes :=
  let nd := Z.of_nat (length ds) in
  if dp <=? 0 then str "0." ++ repeat 48 (Z.to_nat (- dp)) ++ ds
  else if nd <=? dp then ds ++ repeat 48 (Z.to_nat (dp - nd))
  else take (Z.to_nat dp) ds ++ str "." ++ drop (Z.to_nat dp) ds.

Fixpoint strip_zeros (ds : bytes) : bytes :=
  match ds with
  | 48 :: ds => strip_zeros ds
  | _ => ds
  end.

Definition format_g (d k : Z) : bytes :=
  let all := FormatUint d in
  let dp := Z.of_nat (length all) + k in
  let ds := rev (strip_zeros (rev all)) in
  if (dp - 1 <? -4) || (6 <=? dp - 1) then format_e ds (dp - 1) else format_f ds dp.

Definition FormatFloat (x : float64) : bytes :=
  match x with
  | S754_nan => str "NaN"
  | S754_infinity s => if s then str "-Inf" else str "+Inf"
  | S754_zero s => if s then str "-0" else str "0"
  | S754_finite s m e =>
      let (num, den) := if 0 <=? e then (Zpos m * 2 ^ e, 1) else (Zpos m, 2 ^ (- e)) in
      let digits := match shortest 17 1 (S754_finite false m e) num den with
                    | Some (d, k) => format_g d k
                    | None => []
                    end in
      if s then 45 :: digits else digits
  end.

End GoFloat.
