(* ===== verification/GoText.v ===== *)
(** * Paths and regular expressions of Go

    The parts of the packages strings, bytes, path and regexp that cgroup/cgroup.go,
    containers/registry.go, containers/app.go, containers/process.go and
    ebpftracer/l7/clickhouse.go use; the backtracking matcher of regular expressions
    is proved against their meaning as a relation. *)

From S2P Require Import Prelude GoLib.

Module GoText.

(** ** Package strings *)

(** [strings.SplitN(s, sep, n)] with a separator of one byte and [n > 0]. *)
Fixpoint SplitN (n : nat) (s : bytes) (sep : Z) : list bytes :=
  match n with
  | O => []
  | S O => [s]
  | S n => match Cut s [sep] with
           | (a, rest, true) => a :: SplitN n rest sep
           | (_, _, false) => [s]
           end
  end.

Definition Contains (s sub : bytes) : bool := match Index s sub with Some _ => true | None => false end.

Definition TrimPrefix (s prefix : bytes) : bytes := if HasPrefix s prefix then drop (length prefix) s else s.

(** [strings.TrimLeft(s, cutset)] with a cutset of one byte. *)
Fixpoint TrimLeft (s : bytes) (c : Z) : bytes :=
  match s with
  | b :: s' => if b =? c then TrimLeft s' c else s
  | [] => []
  end.

(** [strings.Replace(s, old, new, -1)] with [old] not empty; a round consumes at least
    one byte. *)
Fixpoint replace_all (fuel : nat) (s old new : bytes) : bytes :=
  match fuel with
  | O => s
  | S fuel => match Cut s old with
              | (a, rest, true) => a ++ new ++ replace_all fuel rest old new
              | (_, _, false) => s
              end
  end.
Definition ReplaceAll (s old new : bytes) : bytes := replace_all (length s) s old new.

Fixpoint Join (l : list bytes) (sep : bytes) : bytes :=
  match l with
  | [] => []
  | [s] => s
  | s :: l => s ++ sep ++ Join l sep
  end.

(** *** White space *)

(** The UTF-8 encodings of the white space of Unicode.  Their first bytes never occur
    inside the encoding of another character. *)
Definition white_space : list bytes :=
  [[9]; [10]; [11]; [12]; [13]; [32]; [0xc2; 0x85]; [0xc2; 0xa0]; [0xe1; 0x9a; 0x80]] ++
  map (fun b => [0xe2; 0x80; b])
    [0x80; 0x81; 0x82; 0x83; 0x84; 0x85; 0x86; 0x87; 0x88; 0x89; 0x8a; 0xa8; 0xa9; 0xaf] ++
  [[0xe2; 0x81; 0x9f]; [0xe3; 0x80; 0x80]].

(** Drop the words of [ws] from the front of [s]. *)
Fixpoint trim_left (fuel : nat) (ws : list bytes) (s : bytes) : bytes :=
  match fuel with
  | O => s
  | S fuel =>
      match List.find (fun w => starts_with w s) ws with
      | Some w => trim_left fuel ws (drop (length w) s)
      | None => s
      end
  end.

(** [bytes.TrimSpace]: a word takes at least one byte, so the length is fuel enough. *)
Definition TrimSpace (s : bytes) : bytes :=
  let s := trim_left (length s) white_space s in
  rev (trim_left (length s) (map (@rev Z) white_space) (rev s)).

Fixpoint until_space (s : bytes) : bytes :=
  match s with
  | [] => []
  | b :: s' => if existsb (fun w => starts_with w s) white_space then [] else b :: until_space s'
  end.

(** [bytes.Fields]: a field takes at least one byte. *)
Fixpoint fields (fuel : nat) (s : bytes) : list bytes :=
  match fuel with
  | O => []
  | S fuel => match trim_left (length s) white_space s with
              | [] => []
              | s => let f := until_space s in f :: fields fuel (drop (length f) s)
              end
  end.
Definition Fields (s : bytes) : list bytes := fields (length s) s.

(** A text of white space only. *)
Definition blank (s : bytes) : Prop := exists ws, Forall (fun w => In w white_space) ws /\ s = concat ws.

Lemma white_space_cons w : In w white_space -> exists b w', w = b :: w'.
Proof.
  intros Hw. destruct w as [|b w']; [|by exists b, w'].
  assert (existsb (bytes_eqb []) white_space = false) as Hf by done.
  rewrite <-not_true_iff_false, existsb_exists in Hf. destruct Hf. by exists [].
Qed.

(** No encoding is a prefix of another. *)
Lemma white_space_prefix w w' s :
  In w white_space -> In w' white_space -> starts_with w s = true -> starts_with w' s = true -> w = w'.
Proof.
  assert (forallb (fun w => forallb (fun w' => implb (starts_with w w') (bytes_eqb w w')) white_space)
            white_space = true) as Hall by by vm_compute.
  rewrite forallb_forall in Hall.
  assert (forall w w', In w white_space -> In w' white_space -> starts_with w w' = true -> w = w') as Hp.
  { intros u u' Hu Hu' E. specialize (Hall u Hu). rewrite forallb_forall in Hall. specialize (Hall u' Hu').
    rewrite E in Hall. by apply bool_decide_eq_true in Hall. }
  intros Hw Hw' [r ->]%starts_with_true [r' Er]%starts_with_true.
  apply app_eq_inv in Er as [(k & -> & _)|(k & -> & _)].
  - symmetry. apply Hp; [done|done|]. apply starts_with_app.
  - apply Hp; [done|done|]. apply starts_with_app.
Qed.

Lemma find_word s w :
  List.find (fun w => starts_with w s) white_space = Some w -> In w white_space /\ s = w ++ drop (length w) s.
Proof.
  intros [Hw [t ->]%starts_with_true]%find_some. by rewrite drop_app_length.
Qed.

Lemma trim_left_blank fuel s :
  (length s <= fuel)%nat -> trim_left fuel white_space s = [] <-> blank s.
Proof.
  revert s. induction fuel as [|fuel IH]; intros s Hs; cbn [trim_left].
  - destruct s; [|cbn in Hs; lia]. split; [|done]. intros _. by exists [].
  - destruct (List.find _ _) as [w|] eqn:E.
    + apply find_word in E as [Hw Es]. destruct (white_space_cons w Hw) as (b & w' & ->).
      rewrite IH by (rewrite Es, length_app in Hs; cbn [length] in *; lia). split.
      * intros (ws & Hws & Ed). exists ((b :: w') :: ws). split; [by constructor|]. by rewrite Es, Ed at 1.
      * intros (ws & Hws & Ec). destruct Hws as [|u ws Hu Hws]; [by rewrite Ec in Es|].
        assert (u = b :: w') as ->.
        { apply (white_space_prefix _ _ s); [done|done|..]; apply starts_with_true; [rewrite Ec|]; eauto. }
        exists ws. split; [done|]. rewrite Ec. cbn [concat]. by rewrite drop_app_length.
    + split; [intros ->; by exists []|]. intros (ws & Hws & Ec). destruct Hws as [|u ws Hu Hws]; [done|].
      pose proof (find_none _ _ E u Hu) as Hn. cbn beta in Hn. rewrite Ec in Hn. cbn [concat] in Hn.
      by rewrite starts_with_app in Hn.
Qed.

Lemma Fields_nil s : Fields s = [] <-> blank s.
Proof.
  unfold Fields. destruct s as [|b s]; [split; [by exists []|done]|].
  rewrite <-(trim_left_blank (length (b :: s)) (b :: s)) by lia. cbn [length fields]. by destruct (trim_left _ _ _).
Qed.

(** ** Package path *)

Definition slash : Z := 47.
Definition dotdot : bytes := str "..".

(** One element of a path, on the elements kept so far in reverse. *)
Definition clean_elem (rooted : bool) (acc : list bytes) (e : bytes) : list bytes :=
  if bytes_eqb e [] || bytes_eqb e (str ".") then acc
  else if bytes_eqb e dotdot then
    match acc with
    | top :: rest => if bytes_eqb top dotdot then e :: acc else rest
    | [] => if rooted then [] else [e]
    end
  else e :: acc.

Definition Clean (p : bytes) : bytes :=
  let rooted := HasPrefix p [slash] in
  let elems := rev (foldl (clean_elem rooted) [] (Split p slash)) in
  let s := Join elems [slash] in
  if rooted then slash :: s else if bytes_eqb s [] then str "." else s.

(** [path.Join] of two elements. *)
Definition path_Join (a b : bytes) : bytes :=
  if negb (bytes_eqb a []) then Clean (a ++ [slash] ++ b)
  else if negb (bytes_eqb b []) then Clean b
  else [].

(** ** Package regexp *)

(** The expressions the sources compile: a sequence of literals, of characters of a
    class repeated a number of times, at least once or any number of times, of a
    choice between literals, of the brackets of numbered groups, and of the end of
    the text. *)
Inductive item :=
  | Lit (s : bytes) | Times (p : Z -> bool) (n : nat) | Plus (p : Z -> bool) | Star (p : Z -> bool)
  | OneOf (l : list bytes) | GroupOpen (i : nat) | GroupClose (i : nat) | EndText.

(** Where the groups that closed began and ended. *)
Abbreviation groups := (gmap nat (nat * nat)).

(** The longest prefix of characters of a class. *)
Fixpoint span (p : Z -> bool) (s : bytes) : nat :=
  match s with
  | b :: s => if p b then S (span p s) else O
  | [] => O
  end.

(** A match at the position [pos], where [s] begins, as the backtracking engine
    prefers it: the longest repetition first, the alternatives in order. *)
Fixpoint match_at (r : list item) (s : bytes) (pos : nat) (g : groups) : option groups :=
  match r with
  | [] => Some g
  | Lit l :: r => if starts_with l s then match_at r (drop (length l) s) (pos + length l) g else None
  | Times p n :: r =>
      if (n <=? length s)%nat && forallb p (take n s) then match_at r (drop n s) (pos + n) g else None
  | Plus p :: r =>
      (fix go (k : nat) : option groups :=
         match k with
         | O => None
         | S k' => match match_at r (drop k s) (pos + k) g with
                   | Some g => Some g
                   | None => go k'
                   end
         end) (span p s)
  | Star p :: r =>
      (fix go (k : nat) : option groups :=
         match match_at r (drop k s) (pos + k) g, k with
         | Some g, _ => Some g
         | None, O => None
         | None, S k' => go k'
         end) (span p s)
  | OneOf ls :: r =>
      (fix go (ls : list bytes) : option groups :=
         match ls with
         | [] => None
         | l :: ls => match (if starts_with l s then match_at r (drop (length l) s) (pos + length l) g else None) with
                      | Some g => Some g
                      | None => go ls
                      end
         end) ls
  | GroupOpen i :: r => match_at r s pos (<[i := (pos, pos)]> g)
  | GroupClose i :: r => match_at r s pos (alter (fun x => (x.1, pos)) i g)
  | EndText :: r => match s with [] => match_at r s pos g | _ :: _ => None end
  end.

(** The leftmost match from position [pos] on. *)
Fixpoint find_from (r : list item) (s : bytes) (pos : nat) : option groups :=
  match match_at r s pos ∅ with
  | Some g => Some g
  | None => match s with
            | [] => None
            | _ :: s => find_from r s (S pos)
            end
  end.

Definition group_text (s : bytes) (g : groups) (i : nat) : bytes :=
  match g !! i with Some (a, b) => take (b - a) (drop a s) | None => [] end.

(** [re.FindStringSubmatch(s)]: the text of each group of the match. *)
Definition FindStringSubmatch (r : list item) (s : bytes) : option (nat -> bytes) :=
  let? g := find_from r s 0 else None in
  Some (group_text s g).

Definition MatchString (r : list item) (s : bytes) : bool :=
  match find_from r s 0 with Some _ => true | None => false end.

Definition group (i : nat) (r : list item) : list item := GroupOpen i :: r ++ [GroupClose i].

Definition in_ranges (l : list (Z * Z)) (c : Z) : bool := existsb (fun r => (r.1 <=? c) && (c <=? r.2)) l.
Definition lower_digit : Z -> bool := in_ranges [(97, 122); (48, 57)].
Definition digit : Z -> bool := in_ranges [(48, 57)].
Definition not_slash (c : Z) : bool := negb (c =? slash).
Definition not_newline (c : Z) : bool := negb (c =? 10).

(** ** Where a match is *)

Lemma find_from_sound r s0 k g :
  find_from r (drop k s0) k = Some g -> exists j, match_at r (drop j s0) j ∅ = Some g.
Proof.
  remember (drop k s0) as s eqn:Es. revert k Es. induction s as [|b s IH]; intros k Es; cbn [find_from].
  - rewrite Es. destruct (match_at r _ k ∅) eqn:E; [|done]. intros [= <-]. eauto.
  - destruct (match_at r _ k ∅) eqn:E; [intros [= <-]; rewrite Es in E; eauto|].
    apply IH. replace (S k) with (k + 1)%nat by lia. by rewrite <-drop_drop, <-Es.
Qed.

(** The characters of a group that repeats a class, at the position [pos] of [s0]. *)
Lemma match_group_times i p n s0 pos g g' :
  match_at (group i [Times p n]) (drop pos s0) pos g = Some g' ->
  length (group_text s0 g' i) = n /\ forallb p (group_text s0 g' i) = true /\
  group_text s0 g' i = take n (drop pos s0).
Proof.
  unfold group, group_text. cbn [app match_at]. destruct (_ && _) eqn:E; [|done]. intros [= <-].
  apply andb_true_iff in E as [Hn%Nat.leb_le Hp]. rewrite lookup_alter_eq, lookup_insert_eq. cbn [fmap option_fmap option_map fst].
  replace (pos + n - pos)%nat with n by lia. split_and!; [|done|done]. rewrite length_take. lia.
Qed.

(** ** What an expression means *)

(** The items match the text [m] when [rest] follows it. *)
Inductive Matches : list item -> bytes -> bytes -> Prop :=
  | M_nil rest : Matches [] [] rest
  | M_lit l r m rest : Matches r m rest -> Matches (Lit l :: r) (l ++ m) rest
  | M_times p n a r m rest :
      length a = n -> forallb p a = true -> Matches r m rest -> Matches (Times p n :: r) (a ++ m) rest
  | M_plus p a r m rest :
      a <> [] -> forallb p a = true -> Matches r m rest -> Matches (Plus p :: r) (a ++ m) rest
  | M_star p a r m rest : forallb p a = true -> Matches r m rest -> Matches (Star p :: r) (a ++ m) rest
  | M_one l ls r m rest : In l ls -> Matches r m rest -> Matches (OneOf ls :: r) (l ++ m) rest
  | M_open i r m rest : Matches r m rest -> Matches (GroupOpen i :: r) m rest
  | M_close i r m rest : Matches r m rest -> Matches (GroupClose i :: r) m rest
  | M_end r : Matches r [] [] -> Matches (EndText :: r) [] [].

Lemma span_spec p s k : (k <= span p s)%nat -> forallb p (take k s) = true /\ (k <= length s)%nat.
Proof.
  revert k. induction s as [|b s IH]; intros k Hk; cbn [span] in Hk.
  - assert (k = O) as -> by lia. done.
  - destruct k as [|k]; [split; [done|lia]|]. destruct (p b) eqn:Eb; [|lia].
    destruct (IH k) as [Hf Hl]; [lia|]. cbn. rewrite Eb. split; [done|lia].
Qed.

Lemma span_max p a s : forallb p a = true -> (length a <= span p (a ++ s))%nat.
Proof.
  induction a as [|b a IH]; cbn; [lia|]. intros [-> Ha]%andb_true_iff. specialize (IH Ha). lia.
Qed.

(** The repetitions the matcher tries, from the longest. *)
Lemma plus_tries p r s pos g :
  is_Some (match_at (Plus p :: r) s pos g) <->
  exists k, (0 < k <= span p s)%nat /\ is_Some (match_at r (drop k s) (pos + k) g).
Proof.
  cbn [match_at]. induction (span p s) as [|n IH]; [split; [intros [? [=]]|intros (k & ? & _); lia]|].
  destruct (match_at r (drop (S n) s) _ g) eqn:E.
  - split; [intros _; exists (S n); split; [lia|by eexists]|by eexists].
  - rewrite IH. split; intros (k & Hk & Hm); exists k; (split; [|done]).
    + lia.
    + destruct (decide (k = S n)) as [-> |]; [rewrite E in Hm; by destruct Hm|lia].
Qed.

Lemma star_tries p r s pos g :
  is_Some (match_at (Star p :: r) s pos g) <->
  exists k, (k <= span p s)%nat /\ is_Some (match_at r (drop k s) (pos + k) g).
Proof.
  cbn [match_at]. induction (span p s) as [|n IH].
  - destruct (match_at r (drop 0 s) _ g) eqn:E.
    + split; [intros _; exists O; split; [lia|by eexists]|by eexists].
    + split; [by intros [? [=]]|]. intros (k & Hk & Hm). assert (k = O) as -> by lia. by rewrite E in Hm.
  - destruct (match_at r (drop (S n) s) _ g) eqn:E.
    + split; [intros _; exists (S n); split; [lia|by eexists]|by eexists].
    + rewrite IH. split; intros (k & Hk & Hm); exists k; (split; [|done]).
      * lia.
      * destruct (decide (k = S n)) as [-> |]; [rewrite E in Hm; by destruct Hm|lia].
Qed.

Lemma one_tries ls r s pos g :
  is_Some (match_at (OneOf ls :: r) s pos g) <->
  exists l, In l ls /\ starts_with l s = true /\ is_Some (match_at r (drop (length l) s) (pos + length l) g).
Proof.
  cbn [match_at]. induction ls as [|l ls IH]; [split; [by intros [? [=]]|by intros (l & [] & _)]|].
  destruct (starts_with l s) eqn:El; [destruct (match_at r (drop (length l) s) _ g) eqn:E|].
  - split; [intros _; exists l; split_and!; [by left|done|by eexists]|by eexists].
  - rewrite IH. split; [intros (u & Hu & Hm); exists u; split; [by right|done]|].
    intros (u & [-> |Hu] & Hs & Hm); [rewrite E in Hm; by destruct Hm|by exists u].
  - rewrite IH. split; [intros (u & Hu & Hm); exists u; split; [by right|done]|].
    intros (u & [-> |Hu] & Hs & Hm); [by rewrite El in Hs|by exists u].
Qed.

(** The matcher answers as the items mean, whatever the groups. *)
Definition answers (r : list item) : Prop :=
  forall s pos g, is_Some (match_at r s pos g) <-> exists m rest, s = m ++ rest /\ Matches r m rest.

Lemma answers_lit s0 r : answers r -> answers (Lit s0 :: r).
Proof.
  unfold answers. intros IH s pos g.
  cbn [match_at]. destruct (starts_with s0 s) eqn:E.
  - apply starts_with_true in E as [t ->]. rewrite drop_app_length, IH. split.
    + intros (m & rest & -> & Hm). exists (s0 ++ m), rest. split; [by rewrite app_assoc|by constructor].
    + intros (m & rest & Es & Hm). inversion Hm; subst. rewrite <-app_assoc in Es. apply app_inv_head in Es.
      eauto.
  - split; [by intros [? [=]]|]. intros (m & rest & -> & Hm). inversion Hm; subst.
    by rewrite <-app_assoc, starts_with_app in E.
Qed.

Lemma answers_times p n r : answers r -> answers (Times p n :: r).
Proof.
  unfold answers. intros IH s pos g.
  cbn [match_at]. destruct (_ && _) eqn:E.
  - apply andb_true_iff in E as [Hn%Nat.leb_le Hp]. rewrite IH. split.
    + intros (m & rest & Ed & Hm). exists (take n s ++ m), rest.
      split; [by rewrite <-app_assoc, <-Ed, take_drop|]. constructor; [rewrite length_take; lia|done|done].
    + intros (m & rest & -> & Hm). inversion Hm; subst. rewrite <-app_assoc, drop_app_length. eauto.
  - split; [by intros [? [=]]|]. intros (m & rest & -> & Hm). inversion Hm; subst.
    rewrite <-app_assoc, take_app_length in E. rewrite !length_app in E.
    rewrite andb_false_iff, Nat.leb_gt in E. destruct E as [E|E]; [lia|congruence].
Qed.

Lemma answers_plus p r : answers r -> answers (Plus p :: r).
Proof.
  unfold answers. intros IH s pos g.
  rewrite plus_tries. setoid_rewrite IH. split.
  - intros (k & [Hk Hs] & m & rest & Ed & Hm). destruct (span_spec _ _ _ Hs) as [Hf Hl].
    exists (take k s ++ m), rest. split; [by rewrite <-app_assoc, <-Ed, take_drop|].
    constructor; [|done|done]. intros E%(f_equal length). rewrite length_take in E. cbn in E. lia.
  - intros (m & rest & -> & Hm). inversion Hm; subst. rewrite <-app_assoc. exists (length a).
    split; [|rewrite drop_app_length; eauto].
    split; [destruct a; [done|cbn; lia]|by apply span_max].
Qed.

Lemma answers_star p r : answers r -> answers (Star p :: r).
Proof.
  unfold answers. intros IH s pos g.
  rewrite star_tries. setoid_rewrite IH. split.
  - intros (k & Hs & m & rest & Ed & Hm). destruct (span_spec _ _ _ Hs) as [Hf Hl].
    exists (take k s ++ m), rest. split; [by rewrite <-app_assoc, <-Ed, take_drop|by constructor].
  - intros (m & rest & -> & Hm). inversion Hm; subst. rewrite <-app_assoc. exists (length a).
    split; [by apply span_max|rewrite drop_app_length; eauto].
Qed.

Lemma answers_one l r : answers r -> answers (OneOf l :: r).
Proof.
  unfold answers. intros IH s pos g.
  rewrite one_tries. setoid_rewrite IH. split.
  - intros (l' & Hl & [t ->]%starts_with_true & m & rest & Ed & Hm). rewrite drop_app_length in Ed. subst t.
    exists (l' ++ m), rest. split; [by rewrite app_assoc|by constructor].
  - intros (m & rest & -> & Hm). inversion Hm; subst. rewrite <-app_assoc. eexists. split; [done|].
    rewrite starts_with_app, drop_app_length. eauto.
Qed.

Lemma answers_open i r : answers r -> answers (GroupOpen i :: r).
Proof.
  unfold answers. intros IH s pos g.
  cbn [match_at]. rewrite IH. split; intros (m & rest & -> & Hm); exists m, rest; (split; [done|]).
  - by constructor.
  - by inversion Hm.
Qed.

Lemma answers_close i r : answers r -> answers (GroupClose i :: r).
Proof.
  unfold answers. intros IH s pos g.
  cbn [match_at]. rewrite IH. split; intros (m & rest & -> & Hm); exists m, rest; (split; [done|]).
  - by constructor.
  - by inversion Hm.
Qed.

Lemma answers_end r : answers r -> answers (EndText :: r).
Proof.
  unfold answers. intros IH s pos g.
  cbn [match_at]. destruct s as [|b s].
  - rewrite IH. split.
    + intros (m & rest & Es & Hm). symmetry in Es. apply app_eq_nil in Es as [-> ->].
      exists [], []. split; [done|by constructor].
    + intros (m & rest & _ & Hm). inversion Hm; subst. by exists [], [].
  - split; [by intros [? [=]]|]. intros (m & rest & Es & Hm). by inversion Hm; subst.
Qed.

Lemma match_at_spec r s pos g :
  is_Some (match_at r s pos g) <-> exists m rest, s = m ++ rest /\ Matches r m rest.
Proof.
  revert s pos g. change (answers r). induction r as [|[] r IH]; [|by auto using answers_lit, answers_times, answers_plus, answers_star, answers_one,
    answers_open, answers_close, answers_end..].
  intros s pos g. split; [intros _; exists [], s; split; [done|constructor]|by eexists].
Qed.

Lemma find_from_spec r s pos : is_Some (find_from r s pos) <-> exists a t, s = a ++ t /\ is_Some (match_at r t 0 ∅).
Proof.
  revert pos. induction s as [|b s IH]; intros pos; cbn [find_from].
  - split.
    + destruct (match_at r [] pos ∅) eqn:E; [|by intros [? [=]]]. intros _. exists [], []. split; [done|].
      by eapply match_at_spec, match_at_spec; eexists.
    + intros (a & t & Es & Hm). symmetry in Es. apply app_eq_nil in Es as [-> ->].
      apply match_at_spec, (match_at_spec _ _ pos ∅) in Hm as [g ->]. by eexists.
  - destruct (match_at r (b :: s) pos ∅) eqn:E.
    + split; [|by eexists]. intros _. exists [], (b :: s). split; [done|].
      by eapply match_at_spec, match_at_spec; eexists.
    + rewrite IH. split; [intros (a & t & -> & Hm); by exists (b :: a), t|].
      intros (a & t & Es & Hm). destruct a as [|c a]; [|injection Es as <- ->; eauto].
      cbn [app] in Es. subst t. apply match_at_spec, (match_at_spec _ _ pos ∅) in Hm as [g Eg]. congruence.
Qed.

Lemma MatchString_spec r s :
  MatchString r s = true <-> exists a m rest, s = a ++ m ++ rest /\ Matches r m rest.
Proof.
  unfold MatchString. transitivity (is_Some (find_from r s 0)).
  { destruct (find_from r s 0); split; [by eexists|done|done|by intros [? [=]]]. }
  rewrite find_from_spec. setoid_rewrite match_at_spec. split.
  - intros (a & t & -> & m & rest & -> & Hm). by exists a, m, rest.
  - intros (a & m & rest & -> & Hm). exists a, (m ++ rest). split; [done|]. by exists m, rest.
Qed.

End GoText.
