(* ===== verification/GoRegexp.v ===== *)
(** * Regular expressions with nested groups

    Package regexp for the expressions of common/, node/ and ebpftracer/tls.go, in which
    groups are nested, repeated and alternatives of each other.  A match is found as the
    package documents it: the leftmost one, and of these the one a backtracking engine
    would find first.  The expressions match single bytes; the classes that occur are of
    ASCII characters or exclude a newline only. *)

From S2P Require Import Prelude GoLib.

Module GoRegexp.

Inductive re :=
  | Empty | Begin | Chr (p : Z -> bool) | Cat (r1 r2 : re) | Or (r1 r2 : re) | Star (r : re) | Group (i : nat) (r : re).

Abbreviation groups := (gmap nat (nat * nat)).

(** What follows a match: the rest of the text, its position and the groups. *)
Abbreviation cont := (bytes -> nat -> groups -> option groups).

(** One more repetition is preferred, if it takes at least a byte. *)
Fixpoint star_loop (m : bytes -> nat -> groups -> cont -> option groups) (n : nat)
  (s : bytes) (pos : nat) (g : groups) (k : cont) : option groups :=
  match n with
  | O => k s pos g
  | S n =>
      match m s pos g (fun s' pos' g' => if (length s' <? length s)%nat then star_loop m n s' pos' g' k else None) with
      | Some g => Some g
      | None => k s pos g
      end
  end.

Fixpoint match_at (r : re) (s : bytes) (pos : nat) (g : groups) (k : cont) : option groups :=
  match r with
  | Empty => k s pos g
  | Begin => if (pos =? 0)%nat then k s pos g else None
  | Chr p => match s with
             | c :: s => if p c then k s (S pos) g else None
             | [] => None
             end
  | Cat r1 r2 => match_at r1 s pos g (fun s pos g => match_at r2 s pos g k)
  | Or r1 r2 => match match_at r1 s pos g k with
                | Some g => Some g
                | None => match_at r2 s pos g k
                end
  | Star r => star_loop (match_at r) (length s) s pos g k
  | Group i r => match_at r s pos g (fun s' pos' g' => k s' pos' (<[i := (pos, pos')]> g'))
  end.

Fixpoint find_from (r : re) (s : bytes) (pos : nat) : option groups :=
  match match_at r s pos ∅ (fun _ pos' g => Some (<[O := (pos, pos')]> g)) with
  | Some g => Some g
  | None => match s with
            | [] => None
            | _ :: s => find_from r s (S pos)
            end
  end.

Definition group_text (s : bytes) (g : groups) (i : nat) : bytes :=
  match g !! i with Some (a, b) => take (b - a) (drop a s) | None => [] end.

(** [re.FindStringSubmatch(s)]: the text of each group of the match. *)
Definition FindStringSubmatch (r : re) (s : bytes) : option (nat -> bytes) :=
  let? g := find_from r s 0 else None in Some (group_text s g).

Definition MatchString (r : re) (s : bytes) : bool :=
  match find_from r s 0 with Some _ => true | None => false end.

(** ** Notations of the expressions *)

Definition lit (s : bytes) : re := foldr (fun c r => Cat (Chr (Z.eqb c)) r) Empty s.
Definition Plus (r : re) : re := Cat r (Star r).
Definition Opt (r : re) : re := Or r Empty.
Definition cats (l : list re) : re := foldr Cat Empty l.
Definition ors (r : re) (l : list re) : re := foldr (fun r s => Or s r) r (rev l).
Definition Times (n : nat) (r : re) : re := Nat.iter n (Cat r) Empty.
(** [r{1,n+1}]: up to [n] more, as many as possible. *)
Definition Upto (n : nat) (r : re) : re := Cat r (Nat.iter n (fun q => Opt (Cat r q)) Empty).

Definition in_ranges (l : list (Z * Z)) (c : Z) : bool := existsb (fun r => (r.1 <=? c) && (c <=? r.2)) l.
Definition digit : Z -> bool := in_ranges [(48, 57)].
(** [a-z0-9-] and [0-9a-f]. *)
Definition name_char : Z -> bool := in_ranges [(97, 122); (48, 57); (45, 45)].
Definition hex_char : Z -> bool := in_ranges [(48, 57); (97, 102)].
Definition any_char (c : Z) : bool := negb (c =? 10).

(** ** The meaning of an expression *)

(** The text that an expression matches, at the beginning of the text or behind it. *)
Inductive Lang : bool -> re -> bytes -> Prop :=
  | L_empty b : Lang b Empty []
  | L_begin : Lang true Begin []
  | L_chr b p c : p c = true -> Lang b (Chr p) [c]
  | L_cat b r1 r2 s1 s2 : Lang b r1 s1 -> Lang (b && bool_decide (s1 = [])) r2 s2 -> Lang b (Cat r1 r2) (s1 ++ s2)
  | L_or1 b r1 r2 s : Lang b r1 s -> Lang b (Or r1 r2) s
  | L_or2 b r1 r2 s : Lang b r2 s -> Lang b (Or r1 r2) s
  | L_star_nil b r : Lang b (Star r) []
  | L_star b r s1 s2 : s1 <> [] -> Lang b r s1 -> Lang false (Star r) s2 -> Lang b (Star r) (s1 ++ s2)
  | L_group b i r s : Lang b r s -> Lang b (Group i r) s.

Lemma bool_decide_pos pos (s : bytes) :
  bool_decide (pos + length s = 0)%nat = bool_decide (pos = 0%nat) && bool_decide (s = []).
Proof. destruct s; cbn; repeat case_bool_decide; try done; lia. Qed.

(** A match is a text of the language. *)
Lemma match_at_sound r s pos g k x :
  match_at r s pos g k = Some x ->
  exists a b g', s = a ++ b /\ Lang (bool_decide (pos = O)) r a /\ k b (pos + length a)%nat g' = Some x.
Proof.
  revert s pos g k x. induction r as [| |p|r1 IH1 r2 IH2|r1 IH1 r2 IH2|r IH|i r IH]; intros s pos g k x E; cbn [match_at] in E.
  - exists [], s, g. rewrite Nat.add_0_r. split_and!; [done|constructor|done].
  - destruct (Nat.eqb_spec pos 0) as [->|]; [|done]. exists [], s, g. split_and!; [done|constructor|done].
  - destruct s as [|c s]; [done|]. destruct (p c) eqn:Hp; [|done]. exists [c], s, g. rewrite Nat.add_1_r.
    split_and!; [done|by constructor|done].
  - apply IH1 in E as (a & b & g' & -> & La & E). apply IH2 in E as (a' & b' & g'' & -> & La' & E).
    exists (a ++ a'), b', g''. rewrite bool_decide_pos in La'. rewrite length_app, Nat.add_assoc.
    split_and!; [by rewrite app_assoc|by constructor|done].
  - destruct (match_at r1 s pos g k) eqn:E1.
    + injection E as ->. apply IH1 in E1 as (a & b & g' & -> & La & E). exists a, b, g'. split_and!; [done|by apply L_or1|done].
    + apply IH2 in E as (a & b & g' & -> & La & E). exists a, b, g'. split_and!; [done|by apply L_or2|done].
  - revert E. generalize (length s) as n. intros n. revert s pos g k x. induction n as [|n IHn]; intros s pos g k x E; cbn [star_loop] in E.
    + exists [], s, g. rewrite Nat.add_0_r. split_and!; [done|constructor|done].
    + destruct (match_at r s pos g _) eqn:E1.
      * injection E as ->. apply IH in E1 as (a & b & g' & -> & La & E). rewrite length_app in E.
        destruct (Nat.ltb_spec (length b) (length a + length b)) as [Hlt|]; [|done].
        apply IHn in E as (a' & b' & g'' & -> & La' & E).
        exists (a ++ a'), b', g''. rewrite length_app, Nat.add_assoc. split_and!; [by rewrite app_assoc| |done].
        rewrite (bool_decide_eq_false_2 (pos + length a = 0)%nat) in La' by lia.
        constructor; [by intros ->; cbn in Hlt; lia|done|done].
      * exists [], s, g. rewrite Nat.add_0_r. split_and!; [done|constructor|done].
  - apply IH in E as (a & b & g' & -> & La & E). exists a, b, (<[i := (pos, (pos + length a)%nat)]> g').
    split_and!; [done|by constructor|done].
Qed.

(** A text of the language is matched, if what follows accepts the rest. *)
Lemma match_at_complete b r a :
  Lang b r a -> forall s pos g k,
  b = bool_decide (pos = O) -> (forall g', is_Some (k s (pos + length a)%nat g')) ->
  is_Some (match_at r (a ++ s) pos g k) /\
  forall r' n, r = Star r' -> (length (a ++ s) <= n)%nat -> is_Some (star_loop (match_at r') n (a ++ s) pos g k).
Proof.
  induction 1 as [b| |b p c Hp|b r1 r2 s1 s2 _ IH1 _ IH2|b r1 r2 a _ IH|b r1 r2 a _ IH|b r|b r s1 s2 Hs1 _ IH1 _ IH2|b i r a _ IH];
    intros s pos g k Eb Hk; cbn [match_at app] in *.
  - rewrite Nat.add_0_r in Hk. done.
  - rewrite Nat.add_0_r in Hk. symmetry in Eb. apply bool_decide_eq_true in Eb as ->. split; [apply Hk|done].
  - rewrite Hp. rewrite Nat.add_1_r in Hk. done.
  - split; [|done]. rewrite <-app_assoc. apply IH1; [done|]. intros g'. apply IH2; [by rewrite bool_decide_pos, Eb|].
    intros g''. rewrite <-Nat.add_assoc, <-length_app. apply Hk.
  - split; [|done]. destruct (IH s pos g k Eb Hk) as [[x ->] _]. by eexists.
  - split; [|done]. destruct (match_at r1 _ _ _ _); [by eexists|]. by apply IH.
  - assert (forall n, is_Some (star_loop (match_at r) n s pos g k)) as Hn.
    { rewrite Nat.add_0_r in Hk. intros [|n]; cbn [star_loop]; [done|]. destruct (match_at r _ _ _ _); [by eexists|done]. }
    split; [apply Hn|]. intros r' n [= ->] _. apply Hn.
  - assert (forall n, (length ((s1 ++ s2) ++ s) <= n)%nat -> is_Some (star_loop (match_at r) n ((s1 ++ s2) ++ s) pos g k)) as Hn.
    { intros [|n] Hn; [destruct s1; [done|cbn in Hn; lia]|]. cbn [star_loop].
      rewrite <-app_assoc in *.
      match goal with |- context [match_at r _ pos g ?K] =>
        destruct (IH1 (s2 ++ s) pos g K Eb) as [[x ->] _]; [|by eexists] end.
      assert (length s1 <> 0)%nat as Hl by by destruct s1. rewrite (length_app s1) in Hn |- *.
      intros g'. rewrite (proj2 (Nat.ltb_lt _ _)) by lia. apply IH2; [by rewrite bool_decide_eq_false_2 by lia| |done|lia].
      intros g''. rewrite <-Nat.add_assoc, <-length_app. apply Hk. }
    split; [by apply Hn|]. intros r' n [= ->]. apply Hn.
  - split; [|done]. by apply IH.
Qed.

(** *** The match that is preferred *)

Definition stops (p : Z -> bool) (s : bytes) : Prop := match s with c :: _ => p c = false | [] => True end.

(** A repeated class takes all it can, if what follows accepts that. *)
Lemma star_class p a s n pos g k x :
  forallb p a = true -> stops p s -> (length (a ++ s) <= n)%nat -> k s (pos + length a)%nat g = Some x ->
  star_loop (match_at (Chr p)) n (a ++ s) pos g k = Some x.
Proof.
  revert n pos. induction a as [|c a IH]; intros n pos Ha Hs Hn Hk; cbn [app length] in *.
  - rewrite Nat.add_0_r in Hk. destruct n as [|n]; [done|]. cbn [star_loop match_at].
    destruct s as [|c s]; [done|]. cbn in Hs. by rewrite Hs.
  - cbn in Ha. apply andb_true_iff in Ha as [Hc Ha]. destruct n as [|n]; [lia|]. cbn [star_loop match_at]. rewrite Hc.
    rewrite (proj2 (Nat.ltb_lt _ _)) by (cbn; lia). rewrite IH; [done|done|done|lia|].
    rewrite <-Hk. f_equal. cbn. lia.
Qed.

Lemma plus_class p a s pos g k x :
  a <> [] -> forallb p a = true -> stops p s -> k s (pos + length a)%nat g = Some x ->
  match_at (Plus (Chr p)) (a ++ s) pos g k = Some x.
Proof.
  destruct a as [|c a]; [done|]. intros _ Ha Hs Hk. cbn in Ha. apply andb_true_iff in Ha as [Hc Ha].
  cbn [Plus match_at app]. rewrite Hc. apply star_class; [done|done|done|].
  rewrite <-Hk. f_equal. cbn. lia.
Qed.

(** A search succeeds if and only if some part of the text is in the language. *)
Theorem regexp_search r s :
  MatchString r s = true <-> exists a b c, s = a ++ b ++ c /\ Lang (bool_decide (a = [])) r b.
Proof.
  assert (forall pos, is_Some (find_from r s pos) <->
    exists a b c, s = a ++ b ++ c /\ Lang (bool_decide (pos = 0%nat) && bool_decide (a = [])) r b) as Hf.
  { induction s as [|x s IH]; intros pos; cbn [find_from].
    all: destruct (match_at r _ pos ∅ _) as [y|] eqn:E.
    1,3: split; [intros _|by eexists]; apply match_at_sound in E as (a & b & g & Es & La & _);
      exists [], a, b; (split; [exact Es|]); by rewrite (bool_decide_eq_true_2 ([] = [])), andb_true_r by done.
    1,2: assert (forall b c, _ = b ++ c -> ~ Lang (bool_decide (pos = 0%nat)) r b) as Hno by
      (intros b c Es Lb; destruct (match_at_complete _ _ _ Lb c pos ∅ (fun _ pos' g => Some (<[O := (pos, pos')]> g)) eq_refl)
         as [[y Ey] _]; [by eexists|]; rewrite <-Es in Ey; discriminate (eq_trans (eq_sym E) Ey)).
    - split; [by intros []|]. intros (a & b & c & Es & Lb). destruct a as [|? a]; [|done].
      rewrite (bool_decide_eq_true_2 ([] = [])), andb_true_r in Lb by done. by destruct (Hno b c Es).
    - rewrite IH. rewrite (bool_decide_eq_false_2 (S pos = 0%nat)) by done. cbn [andb]. split.
      + intros (a & b & c & -> & Lb). exists (x :: a), b, c. by rewrite (bool_decide_eq_false_2 (x :: a = [])), andb_false_r.
      + intros (a & b & c & Es & Lb). destruct a as [|y a].
        * rewrite (bool_decide_eq_true_2 ([] = [])), andb_true_r in Lb by done. by destruct (Hno b c Es).
        * injection Es as -> ->. rewrite (bool_decide_eq_false_2 (y :: a = [])), andb_false_r in Lb by done. by exists a, b, c. }
  specialize (Hf O). rewrite bool_decide_eq_true_2 in Hf by done. cbn [andb] in Hf. rewrite <-Hf. unfold MatchString.
  destruct (find_from r s 0); split; intros Hx; [by eexists|done|done|by destruct Hx].
Qed.

End GoRegexp.
