(* ===== verification/GoUtf8.v ===== *)
(** * Strings of runes

    UTF-8 as the packages unicode/utf8, strings, strconv and sort use it: decoding of a rune,
    [strings.ToValidUTF8], [strconv.Quote] and [sort.Strings]. *)

From stdpp Require Import sorting.
From S2P Require Import Prelude GoLib GoText.

Module GoUtf8.

Definition RuneError : Z := 0xfffd.

Definition between (lo c hi : Z) : bool := (lo <=? c) && (c <=? hi).
Definition continuation (c : Z) : bool := between 0x80 c 0xbf.

(** The bounds of the second byte after the first byte [b] of a rune of three or four
    bytes: no overlong encodings, no surrogates, nothing above U+10FFFF. *)
Definition second_ok (b c : Z) : bool :=
  if b =? 0xe0 then between 0xa0 c 0xbf
  else if b =? 0xed then between 0x80 c 0x9f
  else if b =? 0xf0 then between 0x90 c 0xbf
  else if b =? 0xf4 then between 0x80 c 0x8f
  else continuation c.

(** [utf8.DecodeRuneInString] of a text that is not empty: the rune and its width; an
    invalid byte is [RuneError] of width one. *)
Definition DecodeRune (s : bytes) : Z * nat :=
  match s with
  | [] => (RuneError, O)
  | b :: s =>
      if b <? 0x80 then (b, 1%nat)
      else
      match s with
      | c :: s =>
          if between 0xc2 b 0xdf then
            if continuation c then (Z.land b 0x1f * 64 + Z.land c 0x3f, 2%nat) else (RuneError, 1%nat)
          else
          match s with
          | d :: s =>
              if between 0xe0 b 0xef then
                if second_ok b c && continuation d
                then (Z.land b 0x0f * 4096 + Z.land c 0x3f * 64 + Z.land d 0x3f, 3%nat)
                else (RuneError, 1%nat)
              else
              match s with
              | e :: _ =>
                  if between 0xf0 b 0xf4 && second_ok b c && continuation d && continuation e
                  then (Z.land b 0x07 * 262144 + Z.land c 0x3f * 4096 + Z.land d 0x3f * 64 + Z.land e 0x3f, 4%nat)
                  else (RuneError, 1%nat)
              | [] => (RuneError, 1%nat)
              end
          | [] => (RuneError, 1%nat)
          end
      | [] => (RuneError, 1%nat)
      end
  end.

(** [for _, r := range s]: every rune takes at least one byte. *)
Fixpoint runes_from (fuel : nat) (s : bytes) : list Z :=
  match fuel, s with
  | S fuel, _ :: _ => let (r, w) := DecodeRune s in r :: runes_from fuel (drop w s)
  | _, _ => []
  end.
Definition runes (s : bytes) : list Z := runes_from (length s) s.

(** A byte that is not part of a rune. *)
Definition invalid_at (s : bytes) : bool :=
  match s with
  | [] => false
  | b :: _ => negb (b <? 0x80) && ((DecodeRune s).2 =? 1)%nat
  end.

(** [strings.ToValidUTF8(s, rep)]: a run of invalid bytes becomes one [rep]. *)
Fixpoint to_valid (fuel : nat) (invalid : bool) (s rep : bytes) : bytes :=
  match fuel, s with
  | S fuel, b :: s' =>
      if invalid_at s then (if invalid then [] else rep) ++ to_valid fuel true s' rep
      else let w := (DecodeRune s).2 in take w s ++ to_valid fuel false (drop w s) rep
  | _, _ => []
  end.
Definition ToValidUTF8 (s rep : bytes) : bytes := to_valid (length s) false s rep.

(** ** strconv.Quote *)

Section quote.

(** [unicode.IsPrint] above ASCII: the tables of Unicode. *)
Variable IsPrint : Z -> bool.

Definition hex_digit (n : Z) : Z := if n <? 10 then 48 + n else 87 + n.
Fixpoint hex_digits (n : nat) (r : Z) : bytes :=
  match n with
  | O => []
  | S n => hex_digits n (r / 16) ++ [hex_digit (r mod 16)]
  end.

Definition quote_rune (r : Z) (w : bytes) : bytes :=
  if (r =? 34) || (r =? 92) then [92; r]
  else if (if r <? 0x80 then between 0x20 r 0x7e else IsPrint r) then w
  else if r =? 7 then [92; 97] else if r =? 8 then [92; 98] else if r =? 12 then [92; 102]
  else if r =? 10 then [92; 110] else if r =? 13 then [92; 114] else if r =? 9 then [92; 116]
  else if r =? 11 then [92; 118]
  else if (r <? 32) || (r =? 0x7f) then [92; 120] ++ hex_digits 2 r
  else if r <? 0x10000 then [92; 117] ++ hex_digits 4 r
  else [92; 85] ++ hex_digits 8 r.

Fixpoint quote_from (fuel : nat) (s : bytes) : bytes :=
  match fuel, s with
  | S fuel, b :: _ =>
      let (r, w) := DecodeRune s in
      (if invalid_at s then [92; 120] ++ hex_digits 2 b else quote_rune r (take w s)) ++
      quote_from fuel (drop w s)
  | _, _ => []
  end.
Definition Quote (s : bytes) : bytes := [34] ++ quote_from (length s) s ++ [34].

End quote.

(** ** sort.Strings *)

(** Bytewise lexicographic order. *)
Fixpoint bytes_leb (s t : bytes) : bool :=
  match s, t with
  | [], _ => true
  | _ :: _, [] => false
  | a :: s, b :: t => (a <? b) || (a =? b) && bytes_leb s t
  end.

Definition bytes_le (s t : bytes) : Prop := bytes_leb s t = true.

#[global] Instance bytes_le_dec : RelDecision bytes_le.
Proof. intros s t. unfold bytes_le. apply _. Defined.

#[global] Instance bytes_le_total : Total bytes_le.
Proof.
  unfold bytes_le. intros s. induction s as [|a s IH]; intros [|b t]; cbn; auto.
  destruct (Z.ltb_spec a b), (Z.ltb_spec b a), (Z.eqb_spec a b), (Z.eqb_spec b a); try lia; auto. apply IH.
Qed.

#[global] Instance bytes_le_trans : Transitive bytes_le.
Proof.
  unfold bytes_le. intros s. induction s as [|a s IH]; intros [|b t] [|c u]; cbn; try done.
  destruct (Z.ltb_spec a b), (Z.ltb_spec b c), (Z.eqb_spec a b), (Z.eqb_spec b c); cbn; try done;
    destruct (Z.ltb_spec a c), (Z.eqb_spec a c); cbn; try done; try lia. apply IH.
Qed.

#[global] Instance bytes_le_antisymm : AntiSymm (=) bytes_le.
Proof.
  unfold bytes_le. intros s. induction s as [|a s IH]; intros [|b t]; cbn; try done.
  destruct (Z.ltb_spec a b), (Z.ltb_spec b a), (Z.eqb_spec a b), (Z.eqb_spec b a); cbn; try done; try lia.
  intros. f_equal; auto.
Qed.

Definition SortStrings (l : list bytes) : list bytes := merge_sort bytes_le l.

(** The keys of a map, as the sources collect and sort them. *)
Definition sorted_keys {A} (m : gmap bytes A) : list bytes := SortStrings (map_to_list m).*1.

Lemma SortStrings_Permutation l : SortStrings l ≡ₚ l.
Proof. apply merge_sort_Permutation. Qed.

Lemma SortStrings_sorted l : StronglySorted bytes_le (SortStrings l).
Proof. apply (StronglySorted_merge_sort bytes_le). Qed.

(** The order in which the elements come does not matter. *)
Lemma SortStrings_proper l k : l ≡ₚ k -> SortStrings l = SortStrings k.
Proof.
  intros Hp. apply (StronglySorted_unique bytes_le); [apply SortStrings_sorted..|].
  by rewrite !SortStrings_Permutation.
Qed.

Lemma sorted_keys_elem {A} (m : gmap bytes A) k : k ∈ sorted_keys m <-> is_Some (m !! k).
Proof.
  unfold sorted_keys. rewrite SortStrings_Permutation, list_elem_of_fmap. split.
  - intros ([k' x] & -> & Hx%elem_of_map_to_list). by eexists.
  - intros [x Hx]. exists (k, x). split; [done|]. by apply elem_of_map_to_list.
Qed.

Lemma sorted_keys_NoDup {A} (m : gmap bytes A) : NoDup (sorted_keys m).
Proof. unfold sorted_keys. rewrite SortStrings_Permutation. apply NoDup_fst_map_to_list. Qed.

(** ** Bytes of valid text *)

(** 0xff occurs in no encoding. *)
Definition utf8_byte (b : Z) : Prop := 0 <= b <= 0xf4.

Lemma DecodeRune_bytes s :
  bytes_ok s -> invalid_at s = false -> Forall utf8_byte (take (DecodeRune s).2 s).
Proof.
  unfold invalid_at, DecodeRune, utf8_byte, second_ok, continuation, between. intros Hs.
  destruct s as [|b [|c [|d [|e s]]]]; repeat case_match; cbn [snd take negb andb Nat.eqb]; intros E; try done;
    repeat match goal with H : _ && _ = true |- _ => apply andb_true_iff in H as [? ?] end;
    repeat match goal with H : bytes_ok (_ :: _) |- _ => apply Forall_cons in H as [? H] end;
    repeat constructor; lia.
Qed.

Lemma to_valid_bytes fuel invalid s rep :
  bytes_ok s -> Forall utf8_byte rep -> Forall utf8_byte (to_valid fuel invalid s rep).
Proof.
  intros Hs Hr. revert invalid s Hs. induction fuel as [|fuel IH]; intros invalid [|b s] Hs; cbn [to_valid];
    [constructor..|].
  destruct (invalid_at (b :: s)) eqn:E.
  - apply Forall_app. split; [by destruct invalid|]. apply IH. by inversion Hs.
  - cbv zeta. apply Forall_app. split; [by apply DecodeRune_bytes|]. apply IH. by apply Forall_drop.
Qed.

Lemma ToValidUTF8_bytes s rep :
  bytes_ok s -> Forall utf8_byte rep -> Forall utf8_byte (ToValidUTF8 s rep).
Proof. apply to_valid_bytes. Qed.

End GoUtf8.
