(* ===== verification/GoNetip.v ===== *)
(** * Package net/netip of Go

    Addresses and prefixes as the receiver uses them: [ParseAddr], [ParsePrefix],
    [AddrFromSlice], [Unmap], [Masked] and [Contains].  An address is the integer of its
    bits; zones cannot occur in a prefix nor in the address of a packet. *)

From S2P Require Import Prelude GoLib GoText GoFloat.

Module GoNetip.
Import GoText GoFloat.

Inductive Addr := Addr4 (n : Z) | Addr16 (n : Z).

#[global] Instance Addr_eq_dec : EqDecision Addr.
Proof. solve_decision. Defined.

Definition BitLen (ip : Addr) : Z := match ip with Addr4 _ => 32 | Addr16 _ => 128 end.
Definition bits_of (ip : Addr) : Z := match ip with Addr4 n | Addr16 n => n end.

(** [AddrFromSlice] *)
Definition AddrFromSlice (s : bytes) : option Addr :=
  match length s with
  | 4%nat => Some (Addr4 (be s))
  | 16%nat => Some (Addr16 (be s))
  | _ => None
  end.

(** An IPv4 address mapped into IPv6 is the IPv4 address. *)
Definition Unmap (ip : Addr) : Addr :=
  match ip with
  | Addr16 n => if n / 2 ^ 32 =? 0xffff then Addr4 (n mod 2 ^ 32) else ip
  | Addr4 _ => ip
  end.

(** ** Parsing *)

(** The loop of [parseIPv4Fields]: [val] and [digits] of the field so far, [fields] those
    before it, [first] at its start. *)
Fixpoint ipv4_fields (s : bytes) (val : Z) (digits : nat) (fields : list Z) : option (list Z) :=
  match s with
  | [] => if (length fields <? 3)%nat then None else Some (fields ++ [val])
  | c :: s =>
      if is_digit c then
        if (digits =? 1)%nat && (val =? 0) then None
        else let val := val * 10 + (c - 48) in
             if val >? 255 then None else ipv4_fields s val (S digits) fields
      else if c =? 46 then
        if (digits =? 0)%nat || bytes_eqb s [] || (length fields =? 3)%nat then None
        else ipv4_fields s 0 0 (fields ++ [val])
      else None
  end.

Definition parseIPv4 (s : bytes) : option Addr :=
  let? fields := ipv4_fields s 0 0 [] else None in Some (Addr4 (be fields)).

(** A hexadecimal group: its value, the number of its digits and what follows. *)
Fixpoint hex_group (s : bytes) (acc : Z) (off : nat) : option (Z * nat * bytes) :=
  match s with
  | [] => Some (acc, off, s)
  | c :: s' =>
      if is_digit c || hex_letter c then
        let acc := acc * 16 + hex_value c in
        if (3 <? off)%nat || (acc >? 0xffff) then None else hex_group s' acc (S off)
      else Some (acc, off, s)
  end.

(** The loop of [parseIPv6]: [ip] holds the bytes so far, [ellipsis] the place of a [::].
    A round adds two bytes, so eight are enough. *)
Fixpoint ipv6_groups (fuel : nat) (s ip : bytes) (ellipsis : option nat) : option (bytes * bytes * option nat) :=
  match fuel with
  | O => Some (s, ip, ellipsis)
  | S fuel =>
      let? (acc, off, rest) := hex_group s 0 0 else None in
      if (off =? 0)%nat then None
      else
      match rest with
      | 46 :: _ =>
          if match ellipsis with None => negb (length ip =? 12)%nat | Some _ => false end then None
          else if (16 <? length ip + 4)%nat then None
          else let? fields := ipv4_fields s 0 0 [] else None in Some ([], ip ++ fields, ellipsis)
      | _ =>
          let ip := ip ++ [acc / 256; acc mod 256] in
          match rest with
          | [] => Some ([], ip, ellipsis)
          | c :: s =>
              if negb (c =? 58) then None
              else
              match s with
              | [] => None
              | c :: s' =>
                  if c =? 58 then
                    match ellipsis with
                    | Some _ => None
                    | None => match s' with
                              | [] => Some ([], ip, Some (length ip))
                              | _ => ipv6_groups fuel s' ip (Some (length ip))
                              end
                    end
                  else ipv6_groups fuel s ip ellipsis
              end
          end
      end
  end.

Definition parseIPv6 (s : bytes) : option Addr :=
  let '(s, ellipsis) := if HasPrefix s (str "::") then (drop 2 s, Some O) else (s, None) in
  match s, ellipsis with
  | [], Some _ => Some (Addr16 0)
  | _, _ =>
      let? (s, ip, ellipsis) := ipv6_groups 8 s [] ellipsis else None in
      if negb (bytes_eqb s []) then None
      else
      if (length ip <? 16)%nat then
        let? e := ellipsis else None in
        Some (Addr16 (be (take e ip ++ repeat 0 (16 - length ip) ++ drop e ip)))
      else match ellipsis with Some _ => None | None => Some (Addr16 (be ip)) end
  end.

(** A zone makes [ParsePrefix] fail, like a text that is no address. *)
Definition ParseAddr (s : bytes) : option Addr :=
  match List.find (fun c => (c =? 46) || (c =? 58) || (c =? 37)) s with
  | Some 46 => parseIPv4 s
  | Some 58 => if existsb (Z.eqb 37) s then None else parseIPv6 s
  | _ => None
  end.

Record Prefix := PrefixFrom { prefix_ip : Addr; prefix_bits : Z }.

(** The text before and after the last slash. *)
Definition LastCut (s : bytes) (sep : Z) : option (bytes * bytes) :=
  match Cut (rev s) [sep] with
  | (after, before, true) => Some (rev before, rev after)
  | _ => None
  end.

Definition ParsePrefix (s : bytes) : option Prefix :=
  let? (addr, bits) := LastCut s 47 else None in
  let? ip := ParseAddr addr else None in
  let? n := match bits with
            | c :: _ :: _ => if (49 <=? c) && (c <=? 57) then ParseUint 63 bits else None
            | _ => ParseUint 63 bits
            end else None in
  if n >? BitLen ip then None else Some (PrefixFrom ip n).

(** ** Networks *)

(** The [n] highest bits of an address. *)
Definition network (ip : Addr) (n : Z) : Z := bits_of ip / 2 ^ (BitLen ip - n).

Definition Masked (p : Prefix) : Prefix :=
  let n := network (prefix_ip p) (prefix_bits p) * 2 ^ (BitLen (prefix_ip p) - prefix_bits p) in
  PrefixFrom (match prefix_ip p with Addr4 _ => Addr4 n | Addr16 _ => Addr16 n end) (prefix_bits p).

Definition Contains (p : Prefix) (ip : Addr) : bool :=
  (BitLen ip =? BitLen (prefix_ip p)) && (network ip (prefix_bits p) =? network (prefix_ip p) (prefix_bits p)).

(** Masking does not change which addresses a prefix contains. *)
Lemma Masked_Contains p ip :
  prefix_bits p <= BitLen (prefix_ip p) -> Contains (Masked p) ip = Contains p ip.
Proof.
  intros Hb. unfold Contains.
  assert (BitLen (prefix_ip (Masked p)) = BitLen (prefix_ip p)) as El by (unfold Masked; cbn; by destruct (prefix_ip p)).
  rewrite El. change (prefix_bits (Masked p)) with (prefix_bits p). do 2 f_equal.
  unfold network at 1. rewrite El.
  assert (bits_of (prefix_ip (Masked p)) = network (prefix_ip p) (prefix_bits p) * 2 ^ (BitLen (prefix_ip p) - prefix_bits p)) as ->
    by (unfold Masked; cbn; by destruct (prefix_ip p)).
  apply Z.div_mul. pose proof (Z.pow_pos_nonneg 2 (BitLen (prefix_ip p) - prefix_bits p)). lia.
Qed.

Lemma ParsePrefix_bits s p : ParsePrefix s = Some p -> 0 <= prefix_bits p <= BitLen (prefix_ip p).
Proof.
  unfold ParsePrefix. destruct (LastCut s 47) as [[addr bits]|]; [|done]. destruct (ParseAddr addr) as [ip|]; [|done].
  assert (forall n, ParseUint 63 bits = Some n -> 0 <= n) as Hn.
  { intros n. unfold ParseUint. destruct (_ || _) eqn:E; [done|]. case_match; [|done]. intros [= <-].
    apply orb_false_iff in E as [_ E]. apply negb_false_iff in E. unfold digits_value.
    assert (forall s a, forallb is_digit s = true -> 0 <= a -> 0 <= foldl (fun n c => n * 10 + (c - 48)) a s) as Hd; [|by apply Hd].
    clear. induction s as [|c s IH]; intros a Hs Ha; cbn in *; [done|]. apply andb_true_iff in Hs as [Hc Hs].
    apply IH; [done|]. unfold is_digit in Hc. lia. }
  destruct bits as [|c [|d bits]]; cbn -[ParseUint]; repeat case_match; try done; intros [= <-]; cbn; naive_solver lia.
Qed.

End GoNetip.
