(* ===== verification/GoLines.v ===== *)
(** * Text files

    Files of lines and of fields separated by spaces, as the kernel prints them, and
    path.Join: what the readers of control groups and of /proc have in common. *)

From S2P Require Import Prelude GoLib GoText.

Module GoLines.
Import GoText.

(** [path.Join] *)
Definition path_join (elems : list bytes) : bytes :=
  match List.filter (fun e => negb (bytes_eqb e [])) elems with
  | [] => []
  | elems => Clean (Join elems [slash])
  end.

(** ** Fields *)

(** Letters, digits and punctuation: what is neither white space nor a part of its encoding. *)
Definition graphic (c : Z) : Prop := 33 <= c <= 126.
Definition word (s : bytes) : Prop := s <> [] /\ Forall graphic s.

Lemma word_check s : negb (bytes_eqb s []) && forallb (fun c => (33 <=? c) && (c <=? 126)) s = true -> word s.
Proof.
  intros [Hs Hg]%andb_true_iff. split; [by intros ->|]. apply Forall_forall. intros c Hc. rewrite forallb_forall in Hg.
  apply list_elem_of_In, Hg in Hc. unfold graphic. lia.
Qed.

Lemma graphic_no_space c s : graphic c -> existsb (fun w => starts_with w (c :: s)) white_space = false.
Proof.
  intros Hc. apply not_true_iff_false. intros (w & Hw & Hs)%existsb_exists.
  assert (forallb (fun w => match w with b :: _ => negb ((33 <=? b) && (b <=? 126)) | [] => false end) white_space = true) as Hall
    by by vm_compute.
  rewrite forallb_forall in Hall. specialize (Hall w Hw). destruct w as [|b w]; [done|].
  apply starts_with_true in Hs as [t [= <- _]]. unfold graphic in Hc. lia.
Qed.

Lemma find_none_existsb {A} (f : A -> bool) l : existsb f l = false -> List.find f l = None.
Proof. induction l as [|a l IH]; [done|]. cbn. destruct (f a); [done|]. apply IH. Qed.

Lemma trim_left_spaces fuel n s :
  (n <= fuel)%nat -> (match s with [] => True | c :: _ => graphic c end) ->
  trim_left fuel white_space (replicate n 32 ++ s) = s.
Proof.
  revert fuel. induction n as [|n IH]; intros fuel Hn Hs.
  - destruct fuel as [|fuel]; [done|]. cbn [replicate app trim_left]. destruct s as [|c s]; [done|].
    by rewrite (find_none_existsb _ _ (graphic_no_space c s Hs)).
  - destruct fuel as [|fuel]; [lia|]. cbn [replicate app trim_left].
    change (List.find _ white_space) with (Some [32]). cbn [length drop]. rewrite drop_0. apply IH; [lia|done].
Qed.

Lemma until_space_word w s : Forall graphic w -> (match s with [] => True | c :: _ => c = 32 \/ c = 10 \/ c = 9 end) -> until_space (w ++ s) = w.
Proof.
  intros Hw Hs. induction Hw as [|c w Hc _ IH]; cbn [app until_space].
  - destruct s as [|c s]; [done|]. destruct Hs as [->|[->| ->]]; done.
  - by rewrite graphic_no_space, IH.
Qed.

(** The fuel is enough when it is the length or more. *)
Lemma trim_left_length fuel ws s : (length (trim_left fuel ws s) <= length s)%nat.
Proof.
  revert s. induction fuel as [|fuel IH]; intros s; cbn [trim_left]; [done|]. destruct (List.find _ _); [|done].
  etrans; [apply IH|]. rewrite length_drop. lia.
Qed.

Lemma fields_fuel fuel s : (length s <= fuel)%nat -> fields fuel s = Fields s.
Proof.
  unfold Fields. remember (length s) as n eqn:En. revert fuel s En. induction n as [n IH] using lt_wf_ind. intros fuel s En Hf.
  destruct fuel as [|fuel]; [by destruct n; [|lia]|]. destruct n as [|n]; [destruct s; [done|done]|].
  cbn [fields]. destruct (trim_left (length s) white_space s) as [|c t] eqn:Et; [done|]. f_equal.
  pose proof (trim_left_length (length s) white_space s) as Hl. rewrite Et in Hl.
  set (rest := drop (length (until_space (c :: t))) (c :: t)).
  assert (length rest <= n)%nat as Hr.
  { assert (until_space (c :: t) <> []) as Hu.
    { cbn [until_space]. destruct (existsb _ _) eqn:Ex; [|done]. exfalso.
      assert (forall fuel u, (length u <= fuel)%nat -> forall b v, trim_left fuel white_space u = b :: v ->
        existsb (fun w => starts_with w (b :: v)) white_space = false) as Hno.
      { clear. induction fuel as [|fuel IH]; intros u Hu b v E; cbn [trim_left] in E; [destruct u; [done|cbn in Hu; lia]|].
        destruct (List.find _ _) as [w|] eqn:Ef.
        - apply find_word in Ef as [Hw Eu]. apply (IH _) in E; [done|]. destruct (white_space_cons w Hw) as (x & y & ->).
          rewrite length_drop. cbn [length]. lia.
        - rewrite E in Ef. apply not_true_iff_false. intros (w & Hw & Hs)%existsb_exists. by rewrite (find_none _ _ Ef w Hw) in Hs. }
      by rewrite (Hno _ _ (le_n _) _ _ Et) in Ex. }
    unfold rest. rewrite length_drop. destruct (until_space (c :: t)); [done|]. cbn [length] in *. lia. }
  rewrite (IH (length rest)), (IH (length rest) ltac:(lia) n rest); try done; lia.
Qed.

Lemma Fields_blank n : Fields (replicate n 32) = [].
Proof.
  unfold Fields. rewrite length_replicate. destruct n as [|n]; [done|]. cbn [fields].
  rewrite <-(app_nil_r (replicate (S n) 32)). rewrite app_nil_r at 1. by rewrite trim_left_spaces by (done || rewrite length_replicate; lia).
Qed.

(** The next field, behind any number of spaces. *)
Lemma Fields_cons n w s :
  word w -> (match s with [] => True | c :: _ => c = 32 \/ c = 10 \/ c = 9 end) -> Fields (replicate n 32 ++ w ++ s) = w :: Fields s.
Proof.
  intros [Hw Hg] Hs. unfold Fields at 1. set (text := replicate n 32 ++ w ++ s).
  assert (length text = n + length w + length s)%nat as El by (unfold text; rewrite !length_app, length_replicate; lia).
  assert (length w <> 0)%nat as Hl by by destruct w. destruct (length text) as [|fuel] eqn:Ef; [lia|]. cbn [fields].
  unfold text. rewrite trim_left_spaces.
  - destruct w as [|c w]; [done|]. cbn [app]. change (c :: w ++ s) with ((c :: w) ++ s).
    rewrite until_space_word, drop_app_length by done. f_equal. apply fields_fuel. cbn [length] in *. lia.
  - rewrite length_app, length_replicate. lia.
  - destruct Hg; [done|]. done.
Qed.

(** A line of words, one space between each two. *)
Lemma Fields_words_spaces n ws : Forall word ws -> Fields (replicate n 32 ++ Join ws [32]) = ws.
Proof.
  intros Hws. revert n. induction Hws as [|w ws Hw _ IH]; intros n; [cbn [Join]; rewrite app_nil_r; apply Fields_blank|].
  destruct ws as [|v ws].
  - pose proof (Fields_cons n w [] Hw I) as E. by rewrite app_nil_r in E.
  - change (Join (w :: v :: ws) [32]) with (w ++ [32] ++ Join (v :: ws) [32]).
    rewrite Fields_cons by (done || by left). f_equal. apply (IH 1%nat).
Qed.

Lemma Fields_words ws : Forall word ws -> Fields (Join ws [32]) = ws.
Proof. apply (Fields_words_spaces 0). Qed.

(** ** Lines *)

Definition no_newline (s : bytes) : Prop := Forall (fun b => b <> 10) s.
Definition unlines (ls : list bytes) : bytes := concat (map (fun l => l ++ [10]) ls).

Lemma Split_unlines ls : Forall no_newline ls -> Split (unlines ls) 10 = ls ++ [[]].
Proof.
  induction 1 as [|l ls Hl _ IH]; [done|]. unfold unlines. cbn [map concat]. rewrite <-app_assoc. cbn [app].
  rewrite Split_app by done. by rewrite <-IH.
Qed.

Lemma word_no_newline w : Forall graphic w -> no_newline w.
Proof. intros Hw. eapply Forall_impl; [exact Hw|]. unfold graphic. cbn. lia. Qed.

Lemma words_no_newline ws : Forall word ws -> no_newline (Join ws [32]).
Proof.
  induction 1 as [|w ws [_ Hw] Hws IH]; [constructor|]. destruct ws; cbn [Join]; [by apply word_no_newline|].
  apply Forall_app. split; [by apply word_no_newline|]. apply Forall_app. split; [by apply Forall_singleton|done].
Qed.

(** The space around a line is trimmed. *)
Lemma graphic_no_space_rev c s : graphic c -> List.find (fun w => starts_with w (c :: s)) (map (@rev Z) white_space) = None.
Proof.
  intros Hc. apply find_none_existsb, not_true_iff_false. intros (w & Hw & Hs)%existsb_exists.
  assert (forallb (fun w => match w with b :: _ => negb ((33 <=? b) && (b <=? 126)) | [] => false end) (map (@rev Z) white_space) = true)
    as Hall by by vm_compute.
  rewrite forallb_forall in Hall. specialize (Hall w Hw). destruct w as [|b w]; [done|].
  apply starts_with_true in Hs as [t [= <- _]]. unfold graphic in Hc. lia.
Qed.

Lemma TrimSpace_newline s :
  (match s with a :: _ => graphic a | [] => False end) -> (match rev s with z :: _ => graphic z | [] => False end) ->
  TrimSpace (s ++ [10]) = s.
Proof.
  intros Ha Hz. unfold TrimSpace.
  assert (trim_left (length (s ++ [10])) white_space (s ++ [10]) = s ++ [10]) as ->.
  { apply (trim_left_spaces (length (s ++ [10])) 0 (s ++ [10])); [lia|]. by destruct s. }
  rewrite length_app, rev_app_distr. cbn [app rev length]. rewrite Nat.add_1_r. cbn [trim_left].
  change (List.find _ (map (@rev Z) white_space)) with (Some [10]). cbn [length drop]. rewrite drop_0.
  destruct (rev s) as [|z r] eqn:E; [done|].
  replace (trim_left (length s) _ (z :: r)) with (z :: r) by (destruct (length s); [done|]; cbn [trim_left]; by rewrite graphic_no_space_rev).
  by rewrite <-E, rev_involutive.
Qed.

Lemma word_ends w : word w ->
  (match w with a :: _ => graphic a | [] => False end) /\ (match rev w with z :: _ => graphic z | [] => False end).
Proof.
  intros [Hw Hg]. split; [by destruct Hg|]. destruct (rev w) as [|z r] eqn:E.
  - apply Hw. apply (f_equal (@rev Z)) in E. by rewrite rev_involutive in E.
  - rewrite Forall_forall in Hg. apply Hg, list_elem_of_In, in_rev. rewrite E. by left.
Qed.

Lemma TrimSpace_word w : word w -> TrimSpace (w ++ [10]) = w.
Proof. intros Hw. by apply TrimSpace_newline; apply word_ends. Qed.

Lemma TrimSpace_two v w : word v -> word w -> TrimSpace ((v ++ [32] ++ w) ++ [10]) = v ++ [32] ++ w.
Proof.
  intros Hv Hw. apply TrimSpace_newline.
  - apply word_ends in Hv as [Hv _]. by destruct v.
  - apply word_ends in Hw as [_ Hw]. rewrite !rev_app_distr, <-app_assoc. by destruct (rev w).
Qed.

(** Decimal numbers are words. *)
Lemma FormatUint_word n : 0 <= n < 2 ^ 64 -> word (FormatUint n).
Proof.
  intros Hn. pose proof (FormatUint_digits n Hn) as Hd. pose proof (ParseUint_FormatUint 64 n ltac:(lia) Hn) as Hp.
  split; [intros E; by rewrite E in Hp|]. apply Forall_forall. intros c Hc. rewrite forallb_forall in Hd.
  apply list_elem_of_In, Hd in Hc. unfold is_digit in Hc. unfold graphic. lia.
Qed.

(** ** Scanners *)

(** [bufio.Scanner] with its default split function: lines without their end, the
    carriage return before it included; a line that does not fit into the buffer ends
    the scan. *)
Definition MaxScanTokenSize : nat := 64 * 1024.

Definition dropCR (line : bytes) : bytes :=
  match rev line with
  | c :: rest => if c =? 13 then rev rest else line
  | [] => line
  end.

Fixpoint scan_lines (lines : list bytes) : list bytes :=
  match lines with
  | [] | [[]] => []
  | line :: lines => if (length line <? MaxScanTokenSize)%nat then dropCR line :: scan_lines lines else []
  end.

Definition ScanLines (data : bytes) : list bytes := scan_lines (Split data 10).

(** [scanner.Err()] *)
Definition ScanErr (data : bytes) : bool := existsb (fun line => (MaxScanTokenSize <=? length line)%nat) (Split data 10).

Definition short_line (s : bytes) : Prop :=
  (length s < MaxScanTokenSize)%nat /\ Forall (fun b => b <> 10) s /\ dropCR s = s.

Lemma scan_lines_cons line w ws :
  scan_lines (line :: w :: ws) =
  if (length line <? MaxScanTokenSize)%nat then dropCR line :: scan_lines (w :: ws) else [].
Proof. by destruct line. Qed.

Lemma ScanLines_printed lines :
  Forall short_line lines -> ScanLines (concat (map (fun line => line ++ [10]) lines)) = lines.
Proof.
  unfold ScanLines. induction 1 as [|line lines (Hl & Hn & Hcr) _ IH]; [done|].
  cbn [map concat]. rewrite <-app_assoc. cbn [app]. rewrite Split_app by done.
  destruct (Split_cons (concat (map (fun line => line ++ [10]) lines)) 10) as (w & ws & E). rewrite E in *.
  by rewrite scan_lines_cons, (proj2 (Nat.ltb_lt _ _) Hl), Hcr, IH.
Qed.

End GoLines.
