(* ===== verification/Common.v ===== *)
(** * Small helpers of the agent

    common/: versions (version.go, kernel.go), truncation of strings (strings.go), numbers
    in files (file.go), service names (otel.go) and volumes of Kubernetes (volumes.go). *)

From S2P Require Import Prelude GoLib GoText GoRegexp.

Module Common.
Import GoText GoRegexp.

(** ** Numbers *)

(** [strconv.ParseInt(s, 10, bits)]; [None] is an error. *)
Definition ParseInt (bits : Z) (s : bytes) : option Z :=
  let '(neg, ds) := match s with
                    | c :: s' => if c =? 45 then (true, s') else if c =? 43 then (false, s') else (false, s)
                    | [] => (false, s)
                    end in
  if (length ds =? 0)%nat || negb (forallb is_digit ds) then None
  else let n := digits_value ds in
       if neg then if n <=? 2 ^ (bits - 1) then Some (- n) else None
       else if n <? 2 ^ (bits - 1) then Some n else None.

(** The number [strconv.Atoi] returns for digits, the greatest integer if there are too
    many; the error is ignored. *)
Definition Atoi_digits (s : bytes) : Z := Z.min (digits_value s) (2 ^ 63 - 1).

(** A file that cannot be read is [None]. *)
Definition ReadIntFromFile (data : option bytes) : option Z :=
  let? data := data else None in ParseInt 64 (TrimSpace data).

Definition ReadUintFromFile (data : option bytes) : option Z :=
  let? data := data else None in ParseUint 64 (TrimSpace data).

(** ** Strings *)

Definition RuneStart (b : Z) : bool := negb (Z.land b 0xc0 =? 0x80).

(** The loop back to the start of a rune; an index out of range panics. *)
Fixpoint rune_start (s : bytes) (maxLength : nat) : go nat :=
  match maxLength with
  | O => Val O
  | S n => match s !! maxLength with
           | None => Panic
           | Some b => if RuneStart b then Val maxLength else rune_start s n
           end
  end.

Definition TruncateUtf8 (s : bytes) (maxLength : nat) : go bytes :=
  if (length s <=? maxLength)%nat then Val s
  else let! n := rune_start s maxLength in
       if (n =? 0)%nat then Val [] else Val (take n s).

(** ** Versions *)

Definition dot : bytes := str ".".

(** At the beginning a letter v or none, then the group of numbers with dots between. *)
Definition versionRe : re :=
  Cat Begin (Cat (Opt (lit (str "v")))
    (Group 1 (Cat (Plus (Chr digit)) (Star (Group 2 (Cat (lit dot) (Plus (Chr digit)))))))).

Record Version := NewVersion { Major : Z; Minor : Z; Patch : Z }.

Definition part (l : list bytes) (i : nat) : Z := match l !! i with Some p => Atoi_digits p | None => 0 end.

Definition VersionFromString (version : bytes) : option Version :=
  let? matches := FindStringSubmatch versionRe version else None in
  let parts := Split (matches 1%nat) 46 in
  Some (NewVersion (part parts 0) (part parts 1) (part parts 2)).

Definition String (v : Version) : bytes :=
  FormatUint (Major v) ++ dot ++ FormatUint (Minor v) ++ dot ++ FormatUint (Patch v).

Definition GreaterOrEqual (v other : Version) : bool :=
  if Major v >? Major other then true
  else if Major v <? Major other then false
  else if Minor v >? Minor other then true
  else if Minor v <? Minor other then false
  else Patch v >=? Patch other.

(** The kernel version, if it is valid. *)
Definition SetKernelVersion (version : bytes) : option Version :=
  let? v := VersionFromString version else None in
  if Major v =? 0 then None else Some v.

(** ** Names *)

(** The letters and digits of the random part of a pod name. *)
Definition pod_char (c : Z) : bool := existsb (Z.eqb c) (str "bcdfghjklmnpqrstvwxz2456789").

Definition pod_prefix (kind : bytes) : re :=
  Group 1 (cats [lit kind; Plus (Chr name_char); lit (str "/"); Plus (Chr name_char)]).
Definition tail_re : re := Cat (lit (str "/")) (Plus (Chr any_char)).

Definition deploymentPodRegex : re :=
  cats [pod_prefix (str "/k8s/"); lit (str "-"); Upto 9 (Chr hex_char); lit (str "-"); Times 5 (Chr pod_char); tail_re].
Definition daemonsetPodRegex : re := cats [pod_prefix (str "/k8s/"); lit (str "-"); Times 5 (Chr pod_char); tail_re].
Definition statefulsetPodRegex : re := cats [pod_prefix (str "/k8s/"); lit (str "-"); Plus (Chr digit); tail_re].
Definition cronjobPodRegex : re := cats [pod_prefix (str "/k8s-cronjob/"); tail_re].

(** The first expression that matches. *)
Fixpoint first_group (rs : list re) (s : bytes) : option bytes :=
  match rs with
  | [] => None
  | r :: rs => match FindStringSubmatch r s with
               | Some g => Some (g 1%nat)
               | None => first_group rs s
               end
  end.

Definition ContainerIdToOtelServiceName (containerId : bytes) : bytes :=
  if negb (HasPrefix containerId (str "/k8s/")) then containerId
  else default containerId
         (first_group [deploymentPodRegex; daemonsetPodRegex; statefulsetPodRegex; cronjobPodRegex] containerId).

Definition k8sVolumeDir : re :=
  cats [Plus (Chr any_char);
        Group 1 (cats [lit (str "pvc-"); Times 8 (Chr hex_char); lit (str "-"); Times 4 (Chr hex_char); lit (str "-");
                       Times 4 (Chr hex_char); lit (str "-"); Times 4 (Chr hex_char); lit (str "-"); Times 12 (Chr hex_char)]);
        Star (Chr any_char)].

Definition ParseKubernetesVolumeSource (source : bytes) : bytes :=
  match FindStringSubmatch k8sVolumeDir source with
  | Some g => g 1%nat
  | None => []
  end.

(** ** Printed versions are read back *)

Lemma digit_is_digit c : digit c = is_digit c.
Proof. unfold digit, in_ranges, is_digit. cbn. by rewrite orb_false_r. Qed.

(** What may follow a version: no digit, and no dot with a digit behind it. *)
Definition suffix_ok (s : bytes) : Prop :=
  match s with
  | [] => True
  | c :: s => digit c = false /\ (c = 46 -> stops digit s)
  end.

(** A number with the dot before it. *)
Definition numbers (l : list bytes) : bytes := concat (map (fun d => 46 :: d) l).
Definition number_ok (d : bytes) : Prop := d <> [] /\ forallb digit d = true.

Lemma numbers_stop l s : suffix_ok s -> stops digit (numbers l ++ s).
Proof. destruct l; [|done]. destruct s; [done|]. by intros []. Qed.

Lemma suffix_unmatched s pos g k : suffix_ok s -> match_at (Group 2 (Cat (lit dot) (Plus (Chr digit)))) s pos g k = None.
Proof.
  destruct s as [|c s]; [done|]. intros [_ Hs].
  change (match_at _ (c :: s) pos g k) with
    (if 46 =? c then match_at (Plus (Chr digit)) s (S pos) g (fun s' pos' g' => k s' pos' (<[2%nat := (pos, pos')]> g')) else None).
  destruct (Z.eqb_spec 46 c) as [<-|]; [|done]. specialize (Hs eq_refl). destruct s as [|b s]; [done|].
  cbn [stops] in Hs. cbn [Plus match_at]. by rewrite Hs.
Qed.

(** The repeated group takes all the numbers. *)
Lemma numbers_matched p0 l s n pos g k :
  Forall number_ok l -> suffix_ok s -> (length (numbers l ++ s) <= n)%nat ->
  (forall g', exists g'', k s (pos + length (numbers l))%nat g' = Some g'' /\ g'' !! 1%nat = Some (p0, (pos + length (numbers l))%nat)) ->
  exists x, star_loop (match_at (Group 2 (Cat (lit dot) (Plus (Chr digit))))) n (numbers l ++ s) pos g k = Some x /\
    x !! 1%nat = Some (p0, (pos + length (numbers l))%nat).
Proof.
  intros Hl Hs. revert n pos g. induction Hl as [|d l [Hd Hn] _ IH]; intros n pos g Hlen Hk.
  - cbn [numbers map concat app length] in *. rewrite Nat.add_0_r in *. destruct (Hk g) as (x & Ex & E1).
    exists x. split; [|done]. destruct n as [|n]; [exact Ex|]. cbn [star_loop].
    by rewrite suffix_unmatched.
  - change (numbers (d :: l)) with ((46 :: d) ++ numbers l) in *. rewrite <-app_assoc in *. rewrite !length_app in Hlen, Hk |- *.
    destruct n as [|n]; [cbn [length] in Hlen; lia|]. cbn [star_loop].
    match goal with |- context [match_at _ _ pos g ?K] => set (cont := K) end.
    destruct (IH n (pos + S (length d))%nat (<[2%nat := (pos, (pos + S (length d))%nat)]> g)) as (x & Ex & E1).
    { cbn [length] in Hlen. lia. }
    { intros g'. rewrite <-Nat.add_assoc. apply Hk. }
    exists x. rewrite <-Nat.add_assoc in E1. split; [|done].
    enough (match_at (Group 2 (Cat (lit dot) (Plus (Chr digit)))) ((46 :: d) ++ numbers l ++ s) pos g cont = Some x) as -> by done.
    cbn [match_at lit foldr dot app]. apply plus_class; [done|done|by apply numbers_stop|].
    unfold cont. rewrite (proj2 (Nat.ltb_lt _ _)) by (rewrite !length_app; cbn; lia).
    by rewrite Nat.add_succ_comm.
Qed.

(** The group behind the first letter. *)
Definition version_group : re := Group 1 (Cat (Plus (Chr digit)) (Star (Group 2 (Cat (lit dot) (Plus (Chr digit)))))).

Lemma version_group_matched d l s pos k0 :
  number_ok d -> Forall number_ok l -> suffix_ok s ->
  exists x, match_at version_group (d ++ numbers l ++ s) pos ∅ (fun _ pos' g => Some (<[O := (k0, pos')]> g)) = Some x /\
    x !! 1%nat = Some (pos, (pos + length (d ++ numbers l))%nat).
Proof.
  intros [Hd Hn] Hl Hs. unfold version_group.
  destruct (numbers_matched pos l s (length (numbers l ++ s)) (pos + length d)%nat ∅
    (fun _ pos' g => Some (<[O := (k0, pos')]> (<[1%nat := (pos, pos')]> g))) Hl Hs (le_n _)) as (x & Ex & E1).
  { intros g'. eexists. split; [done|]. by rewrite lookup_insert_ne, lookup_insert_eq. }
  exists x. rewrite length_app, Nat.add_assoc. split; [|done]. cbn [match_at].
  apply (plus_class digit d (numbers l ++ s)); [done|done|by apply numbers_stop|]. exact Ex.
Qed.

Lemma version_matched (v : bool) d l s :
  number_ok d -> Forall number_ok l -> suffix_ok s ->
  exists g, FindStringSubmatch versionRe ((if v then str "v" else []) ++ d ++ numbers l ++ s) = Some g /\
    g 1%nat = d ++ numbers l.
Proof.
  intros Hd Hl Hs. set (text := (if v then str "v" else []) ++ d ++ numbers l ++ s).
  set (p := if v then 1%nat else 0%nat).
  destruct (version_group_matched d l s p 0%nat Hd Hl Hs) as (x & Ex & E1).
  assert (find_from versionRe text 0 = Some x) as Ef.
  { unfold find_from. enough (match_at versionRe text 0 ∅ (fun _ pos' g => Some (<[O := (O, pos')]> g)) = Some x) as E
      by (destruct text; by rewrite E).
    unfold versionRe. fold version_group. destruct v; unfold text, p in *.
    - change (match_at _ (str "v" ++ ?u) 0 ∅ ?K) with (match match_at version_group u 1 ∅ K with Some g => Some g | None =>
        match_at version_group (str "v" ++ u) 0 ∅ K end). by rewrite Ex.
    - destruct Hd as [Hd Hn]. destruct d as [|c d]; [done|]. cbn in Hn. apply andb_true_iff in Hn as [Hc _].
      cbn [app] in *.
      change (match_at _ (c :: ?u) 0 ∅ ?K) with (match (if 118 =? c then match_at version_group u 1 ∅ K else None) with
        Some g => Some g | None => match_at version_group (c :: u) 0 ∅ K end).
      replace (118 =? c) with false; [exact Ex|]. symmetry. apply Z.eqb_neq. by intros <-. }
  unfold FindStringSubmatch. rewrite Ef. eexists. split; [done|]. unfold group_text. rewrite E1.
  replace (p + length (d ++ numbers l) - p)%nat with (length (d ++ numbers l)) by lia.
  replace (drop p text) with (d ++ numbers l ++ s) by (unfold text, p; by destruct v). by rewrite app_assoc, take_app_length.
Qed.

Lemma Split_numbers d l :
  number_ok d -> Forall number_ok l -> Split (d ++ numbers l) 46 = d :: l.
Proof.
  assert (forall d, number_ok d -> Forall (fun b => b <> 46) d) as Hno.
  { intros e [_ He]. apply Forall_forall. intros b Hb. rewrite forallb_forall in He. apply list_elem_of_In, He in Hb. by intros ->. }
  intros Hd Hl. revert d Hd. induction Hl as [|e l He Hl IH]; intros d Hd; cbn [numbers map concat].
  - rewrite app_nil_r. apply Split_none, Hno, Hd.
  - change (concat (map (fun d => 46 :: d) l)) with (numbers l). cbn [app]. by rewrite Split_app, IH by auto.
Qed.

(** The version of a kernel, of OpenSSL or of Go is read as it is written: with the letter v
    before it or without, and with anything behind it that does not go on with the numbers. *)
Theorem version_printed (v : bool) ver suffix :
  0 <= Major ver < 2 ^ 63 -> 0 <= Minor ver < 2 ^ 63 -> 0 <= Patch ver < 2 ^ 63 -> suffix_ok suffix ->
  VersionFromString ((if v then str "v" else []) ++ String ver ++ suffix) = Some ver.
Proof.
  intros Ha Hb Hc Hs.
  assert (forall n, 0 <= n < 2 ^ 63 -> number_ok (FormatUint n) /\ Atoi_digits (FormatUint n) = n) as Hn.
  { intros n Hn. pose proof (ParseUint_FormatUint 64 n ltac:(lia) ltac:(lia)) as Ep.
    unfold ParseUint in Ep. destruct (Nat.eqb_spec (length (FormatUint n)) 0); [done|].
    destruct (forallb is_digit (FormatUint n)) eqn:Ed; [|done]. cbn [orb negb] in Ep. case_match; [|done]. injection Ep as Ev.
    split; [split; [by intros E0; rewrite E0 in *|]|unfold Atoi_digits; lia].
    rewrite forallb_forall in Ed |- *. intros b Hin. rewrite digit_is_digit. by apply Ed. }
  destruct (Hn _ Ha) as [Oa Ea]. destruct (Hn _ Hb) as [Ob Eb]. destruct (Hn _ Hc) as [Oc Ec].
  assert (Forall number_ok [FormatUint (Minor ver); FormatUint (Patch ver)]) as Hl
    by (apply Forall_cons_2; [exact Ob|apply Forall_singleton; exact Oc]).
  replace (String ver ++ suffix) with (FormatUint (Major ver) ++ numbers [FormatUint (Minor ver); FormatUint (Patch ver)] ++ suffix)
    by (unfold String, numbers; change dot with [46]; cbn [map concat]; by rewrite app_nil_r, <-!app_assoc).
  destruct (version_matched v _ _ _ Oa Hl Hs) as (g & Eg & E1). unfold VersionFromString. rewrite Eg, E1, (Split_numbers _ _ Oa Hl).
  unfold part. cbn [lookup list_lookup]. rewrite Ea, Eb, Ec. by destruct ver.
Qed.

(** ** The order of versions *)

(** Versions as numbers in a base above all their parts. *)
Definition code (base : Z) (v : Version) : Z := (Major v * base + Minor v) * base + Patch v.
Definition below (base : Z) (v : Version) : Prop := 0 <= Minor v < base /\ 0 <= Patch v < base.

(** The comparison of versions, branch by branch, is that of the numbers they are in a base
    above all their parts; so it is a total order. *)
Theorem GreaterOrEqual_code base v w :
  below base v -> below base w -> GreaterOrEqual v w = (code base w <=? code base v).
Proof.
  intros [Hm Hp] [Hm' Hp']. unfold GreaterOrEqual, code.
  destruct (Z.gtb_spec (Major v) (Major w)); [symmetry; apply Z.leb_le; nia|].
  destruct (Z.ltb_spec (Major v) (Major w)); [symmetry; apply Z.leb_gt; nia|].
  assert (Major v = Major w) as -> by lia.
  destruct (Z.gtb_spec (Minor v) (Minor w)); [symmetry; apply Z.leb_le; nia|].
  destruct (Z.ltb_spec (Minor v) (Minor w)); [symmetry; apply Z.leb_gt; nia|].
  assert (Minor v = Minor w) as -> by lia.
  destruct (Z.leb_spec ((Major w * base + Minor w) * base + Patch w) ((Major w * base + Minor w) * base + Patch v)); lia.
Qed.

(** ** Truncated strings *)

Lemma rune_start_spec s m :
  (m < length s)%nat -> exists n, rune_start s m = Val n /\ (n <= m)%nat /\
    (n = 0%nat \/ exists b, s !! n = Some b /\ RuneStart b = true) /\
    forall i b, (n < i <= m)%nat -> s !! i = Some b -> RuneStart b = false.
Proof.
  induction m as [|m IH]; intros Hm; cbn [rune_start].
  - exists 0%nat. split_and!; [done|lia|by left|lia].
  - case_match eqn:E; [|apply lookup_ge_None in E; lia]. case_match eqn:Er.
    + exists (S m). split_and!; [done|lia|right; eauto|lia].
    + destruct (IH ltac:(lia)) as (n & En & Hn & Hs & Hno). exists n. split_and!; [done|lia|done|].
      intros i c Hi Ec. destruct (decide (i = S m)) as [->|]; [|apply (Hno i); [lia|done]].
      assert (Some c = Some z) as [= ->] by (rewrite <-Ec; exact E). done.
Qed.

(** A string is cut without a panic to the longest beginning of at most the given length that
    ends before the start of a rune, or to nothing. *)
Theorem TruncateUtf8_spec s maxLength :
  exists n, TruncateUtf8 s maxLength = Val (take n s) /\ (n <= maxLength)%nat /\
    (n = 0%nat \/ (length s <= maxLength)%nat \/ exists b, s !! n = Some b /\ RuneStart b = true) /\
    forall i b, (n < i <= maxLength)%nat -> s !! i = Some b -> RuneStart b = false.
Proof.
  unfold TruncateUtf8. destruct (Nat.leb_spec (length s) maxLength) as [Hle|Hlt].
  - exists (length s). rewrite firstn_all. split_and!; [done|done|by right; left|].
    intros i b Hi Hb. apply lookup_lt_Some in Hb. lia.
  - destruct (rune_start_spec s maxLength Hlt) as (n & -> & Hn & Hs & Hno). exists n.
    split_and!; [by destruct (Nat.eqb_spec n 0) as [->|]|done| |done]. destruct Hs as [?|?]; [by left|by right; right].
Qed.

Lemma version_printed_witness :
  VersionFromString (str "v5.10.0-21-amd64") = Some (NewVersion 5 10 0).
Proof.
  apply (version_printed true (NewVersion 5 10 0) (str "-21-amd64")); [done|done|done|].
  split; [by vm_compute|done].
Defined.

Lemma GreaterOrEqual_code_witness :
  GreaterOrEqual (NewVersion 5 10 0) (NewVersion 5 6 3) = true.
Proof. rewrite (GreaterOrEqual_code 100 (NewVersion 5 10 0) (NewVersion 5 6 3)); [done|by split..]. Defined.

(** *** The cases of the tests *)

Example otel_names :
  map ContainerIdToOtelServiceName
    [str "/k8s/otel-demo/otel-demo-frauddetectionservice-64cd4f9686-mvtnb/frauddetectionservice";
     str "/k8s/codifinary/codexray-node-agent-np9pk/node-agent"; str "/k8s/codifinary/pyroscope-df884bb79-hhxtv/pyroscope";
     str "/k8s/default/cassandra-main-12/cassandra"; str "/k8s/default/hello-28283967-khz2f/xz";
     str "/system.slice/k3s.service"; str "/docker/container_name"] =
  [str "/k8s/otel-demo/otel-demo-frauddetectionservice"; str "/k8s/codifinary/codexray-node-agent";
   str "/k8s/codifinary/pyroscope"; str "/k8s/default/cassandra-main"; str "/k8s/default/hello";
   str "/system.slice/k3s.service"; str "/docker/container_name"].
Proof. by vm_compute. Qed.

Example volume_sources :
  map ParseKubernetesVolumeSource
    [str "/var/lib/kubelet/pods/adf669ca/volume-subpaths/pvc-0307b722-e448-4d73-9d75-091ebf367264/pg/0";
     str "/var/snap/microk8s/common/default-storage/codexray-data-pvc-4bf620ab-bb10-4cd6-803a-5be8735ccaf6";
     str "/var/lib/kubelet/pods/adf669ca/volumes/kubernetes.io~projected/kube-api-access-jvvq6"] =
  [str "pvc-0307b722-e448-4d73-9d75-091ebf367264"; str "pvc-4bf620ab-bb10-4cd6-803a-5be8735ccaf6"; []].
Proof. by vm_compute. Qed.

Example versions :
  VersionFromString (str "v5.10.0-21-amd64") = Some (NewVersion 5 10 0) /\
  VersionFromString (str "4.16") = Some (NewVersion 4 16 0) /\ VersionFromString (str "x1") = None.
Proof. by vm_compute. Qed.

End Common.
