(* ===== verification/Attach.v ===== *)
(** * Attaching of probes

    ebpftracer/elf.go, tls.go, nodejs.go and python.go: where the uprobes of a process go in
    its executable and its libraries, and which of them are open when attaching fails
    half way; the choice of the eBPF object by the version of the kernel
    (ebpftracer/tracer.go) and the probes a process of a container holds
    (containers/container.go, containers/process.go).  ELF files are given parsed; the
    decoders of instructions, which are not part of the repository, are the class [Asm]. *)

From stdpp Require Import sorting.
From S2P Require Import Prelude GoLib GoText GoRegexp GoLines Common.

(** [x86asm.Decode] and [arm64asm.Decode]: whether an instruction is decoded and returns
    from a function, and for x86 its length. *)
Class Asm := { x86_Decode : bytes -> bool * nat; arm64_Decode : bytes -> bool }.

(** An instruction takes at least one byte. *)
Class AsmLaws `(Asm) := { x86_Decode_len b s : (1 <= (x86_Decode (b :: s)).2)%nat }.

Module Attach.
Import GoText GoRegexp Common.

(** ** The kernel *)

(** An open link: the symbol and the program it was made with, the address and offset. *)
Record link := Link { l_id : nat; l_symbol : bytes; l_prog : bytes; l_address : Z; l_offset : Z }.

(** The links that are open and whether the next attempts to make one succeed. *)
Record kernel := Kernel { open : list link; next : nat; outcomes : list bool }.

Definition io (A : Type) : Type := kernel -> go (A * kernel).
Definition ret {A} (a : A) : io A := fun k => Val (a, k).
Definition bind {A B} (m : io A) (f : A -> io B) : io B :=
  fun k => match m k with Panic => Panic | Val (a, k) => f a k end.
Notation "'let*' x := m 'in' k" := (bind m (fun x => k)) (at level 10, x pattern, m at level 100, k at level 200).

(** [exe.Uprobe] *)
Definition Uprobe (symbol prog : bytes) (address offset : Z) : io (option link) :=
  fun k => match outcomes k with
           | true :: os =>
               let l := Link (next k) symbol prog address offset in
               Val (Some l, Kernel (open k ++ [l]) (S (next k)) os)
           | false :: os => Val (None, Kernel (open k) (next k) os)
           | [] => Val (None, k)
           end.

Definition Close (l : link) : io unit :=
  fun k => Val (tt, Kernel (filter (fun x => l_id x <> l_id l) (open k)) (next k) (outcomes k)).

Fixpoint close_all (ls : list link) : io unit :=
  match ls with
  | [] => ret tt
  | l :: ls => let* _ := Close l in close_all ls
  end.

(** ** ELF files *)

Record elf_symbol := ElfSymbol { s_name : bytes; s_info : Z; s_version : Z; s_value : Z; s_size : Z }.
Record elf_prog := ElfProg { p_type : Z; p_flags : Z; p_off : Z; p_vaddr : Z; p_memsz : Z }.
Inductive machine := EM_X86_64 | EM_AARCH64 | EM_OTHER.
(** [text]: the address and the bytes of the section .text. *)
Record ELFFile := MkELFFile {
  e_machine : machine; e_symbols : list elf_symbol; e_dynamic : list elf_symbol; e_progs : list elf_prog;
  e_text : option (Z * bytes)
}.

Definition STT_FUNC : Z := 2.
Definition PT_LOAD : Z := 1.
Definition PF_X : Z := 1.

(** The offset in the file of an address in an executable segment, in 64 bits; else the address. *)
Fixpoint segment_address (ps : list elf_prog) (value : Z) : Z :=
  match ps with
  | [] => value
  | p :: ps =>
      if negb (p_type p =? PT_LOAD) || (Z.land (p_flags p) PF_X =? 0) then segment_address ps value
      else if (p_vaddr p <=? value) && (value <? u64 (p_vaddr p + p_memsz p)) then u64 (value - p_vaddr p + p_off p)
      else segment_address ps value
  end.

Definition Address (f : ELFFile) (s : elf_symbol) : Z := segment_address (e_progs f) (s_value s).

Definition GetSymbol (f : ELFFile) (name : bytes) : option elf_symbol :=
  List.find (fun s => negb (negb (Z.land (s_info s) 0xf =? STT_FUNC) || (s_size s =? 0) || (s_value s =? 0)) &&
                      (bytes_eqb (s_name s) name && (Z.land (s_version s) 0x8000 =? 0)))
    (e_symbols f ++ e_dynamic f).

Section attach.
Context `{Asm}.

(** The loops of [getReturnOffsets]; [None] if the fuel does not suffice. *)
Fixpoint x86_returns (fuel : nat) (i : nat) (s : bytes) : option (list nat) :=
  match s with
  | [] => Some []
  | _ =>
      match fuel with
      | O => None
      | S fuel =>
          let '(is_ret, len) := x86_Decode s in
          let? res := x86_returns fuel (i + len) (drop len s) else None in
          Some (if is_ret then i :: res else res)
      end
  end.

Fixpoint arm64_returns (fuel : nat) (i : nat) (s : bytes) : option (list nat) :=
  match s with
  | [] => Some []
  | _ =>
      match fuel with
      | O => None
      | S fuel =>
          let? res := arm64_returns fuel (i + 4) (drop 4 s) else None in
          Some (if arm64_Decode s then i :: res else res)
      end
  end.

Definition getReturnOffsets (m : machine) (instructions : bytes) : option (list nat) :=
  match m with
  | EM_X86_64 => x86_returns (length instructions) 0 instructions
  | EM_AARCH64 => arm64_returns (length instructions) 0 instructions
  | EM_OTHER => Some []
  end.

(** [make([]byte, size)] panics when the size is out of the range of the allocator; a read that
    does not fill the slice is an error. *)
Definition maxAlloc : Z := 2 ^ 48.

Definition ReturnOffsets (f : ELFFile) (s : elf_symbol) : go (option (list nat)) :=
  let? (addr, text) := e_text f else Val None in
  let sStart := s64 (s_value s - addr) in
  if sStart <? 0 then Val None
  else if s_size s >? maxAlloc then Panic
  else if sStart + s_size s >? Z.of_nat (length text) then Val None
  else
  let sBytes := take (Z.to_nat (s_size s)) (drop (Z.to_nat sStart) text) in
  match getReturnOffsets (e_machine f) sBytes with
  | None => Panic
  | Some [] => Val None
  | Some offsets => Val (Some offsets)
  end.

Definition AttachUprobe (f : ELFFile) (s : elf_symbol) (prog : bytes) : io (option link) :=
  Uprobe (s_name s) prog (Address f s) 0.

(** The links so far and whether there was an error. *)
Fixpoint attach_offsets (f : ELFFile) (s : elf_symbol) (prog : bytes) (offsets : list nat) : io (list link * bool) :=
  match offsets with
  | [] => ret ([], false)
  | offset :: offsets =>
      let* l := Uprobe (str "pthread_cond_timedwait") prog (Address f s) (Z.of_nat offset) in
      match l with
      | None => ret ([], true)
      | Some l => let* (ls, err) := attach_offsets f s prog offsets in ret (l :: ls, err)
      end
  end.

Definition AttachUretprobes (f : ELFFile) (s : elf_symbol) (prog : bytes) : io (list link * bool) :=
  fun k => match ReturnOffsets f s with
           | Panic => Panic
           | Val None => Val (([], true), k)
           | Val (Some offsets) => attach_offsets f s prog offsets k
           end.

(** ** OpenSSL *)

(** The expression OpenSSL\s(\d\.\d+\.\d+). *)
Definition white (c : Z) : bool := existsb (Z.eqb c) [9; 10; 12; 13; 32].
Definition opensslVersionRe : re :=
  cats [lit (str "OpenSSL"); Chr white;
        Group 1 (cats [Chr digit; lit dot; Plus (Chr digit); lit dot; Plus (Chr digit)])].

(** The loop over the lines of /proc/PID/maps: the first libraries of the names that exist. *)
Fixpoint find_libs (root : bytes -> bytes) (exists_ : bytes -> bool) (lines : list bytes) (ssl crypto : bytes) : bytes * bytes :=
  match lines with
  | [] => (ssl, crypto)
  | line :: lines =>
      match Fields line !! 5%nat with
      | None => find_libs root exists_ lines ssl crypto
      | Some libPath =>
          let full := root libPath in
          if bytes_eqb ssl [] && Contains libPath (str "libssl.so") then
            let ssl := if exists_ full then full else ssl in
            if negb (bytes_eqb ssl []) && negb (bytes_eqb crypto []) then (ssl, crypto)
            else find_libs root exists_ lines ssl crypto
          else if bytes_eqb crypto [] && Contains libPath (str "libcrypto.so") then
            let crypto := if exists_ full then full else crypto in
            if negb (bytes_eqb ssl []) && negb (bytes_eqb crypto []) then (ssl, crypto)
            else find_libs root exists_ lines ssl crypto
          else find_libs root exists_ lines ssl crypto
      end
  end.

(** The last version among the strings of the section .rodata. *)
Definition openssl_version (rodata : bytes) : bytes :=
  fold_left (fun version s =>
    if HasPrefix s (str "OpenSSL") then
      match FindStringSubmatch opensslVersionRe s with Some m => m 1%nat | None => version end
    else version) (Split rodata 0) [].

(** [rodata] reads the section .rodata of an ELF file. *)
Definition getSslLibPathAndVersion (root : bytes -> bytes) (exists_ : bytes -> bool) (rodata : bytes -> option bytes)
  (maps : option bytes) : bytes * bytes :=
  let? maps := maps else ([], []) in
  let '(ssl, crypto) := find_libs root exists_ (GoLines.ScanLines maps) [] [] in
  if bytes_eqb ssl [] || bytes_eqb crypto [] then ([], [])
  else let? data := rodata crypto else ([], []) in
       (ssl, str "v" ++ openssl_version data).

(** A symbol with the program for its entry or, if that is [None], for its returns. *)
Record prog := Prog { symbol : bytes; uprobe : option bytes; uretprobe : option bytes }.

Definition openssl_progs (v : Version) : list prog :=
  let '(writeEnter, readEnter, readExEnter) :=
    if GreaterOrEqual v (NewVersion 3 0 0) then
      (str "openssl_SSL_write_enter_v3_0", str "openssl_SSL_read_enter_v3_0", str "openssl_SSL_read_ex_enter_v3_0")
    else if GreaterOrEqual v (NewVersion 1 1 1) then
      (str "openssl_SSL_write_enter_v1_1_1", str "openssl_SSL_read_enter_v1_1_1", str "openssl_SSL_read_ex_enter_v1_1_1")
    else (str "openssl_SSL_write_enter", str "openssl_SSL_read_enter", str "openssl_SSL_read_ex_enter") in
  let readExit := str "openssl_SSL_read_exit" in
  [Prog (str "SSL_write") (Some writeEnter) None; Prog (str "SSL_read") (Some readEnter) None;
   Prog (str "SSL_read") None (Some readExit)] ++
  (if GreaterOrEqual v (NewVersion 1 1 1) then
     [Prog (str "SSL_write_ex") (Some writeEnter) None; Prog (str "SSL_read_ex") (Some readExEnter) None;
      Prog (str "SSL_read_ex") None (Some readExit)]
   else []).

(** The loop over the programs; [links] are open already. *)
Fixpoint attach_progs (f : ELFFile) (ps : list prog) (links : list link) : io (list link) :=
  match ps with
  | [] => ret links
  | p :: ps =>
      match GetSymbol f (symbol p) with
      | None => let* _ := close_all links in ret []
      | Some s =>
          let* entry := match uprobe p with
                        | None => ret (Some [])
                        | Some g => let* l := AttachUprobe f s g in ret (option_map (fun l => [l]) l)
                        end in
          match entry with
          | None => let* _ := close_all links in ret []
          | Some l =>
              let links := links ++ l in
              let* (ls, err) := match uretprobe p with
                                | None => ret ([], false)
                                | Some g => AttachUretprobes f s g
                                end in
              let links := links ++ ls in
              if err : bool then let* _ := close_all links in ret [] else attach_progs f ps links
          end
      end
  end.

(** What is found of the process: the library and the version; [exe]: whether it can be
    opened for probes; [file]: the library as an ELF file. *)
Definition AttachOpenSslUprobes (disableL7Tracing : bool) (lib : bytes * bytes) (exe : bool) (file : option ELFFile)
  : io (list link) :=
  if disableL7Tracing then ret []
  else let '(libPath, version) := lib in
  if bytes_eqb libPath [] || bytes_eqb version [] then ret []
  else if negb exe then ret []
  else let? v := VersionFromString version else ret [] in
  let? f := file else ret [] in
  attach_progs f (openssl_progs v) [].

(** ** Go *)

Definition goTlsWriteSymbol : bytes := str "crypto/tls.(*Conn).Write".
Definition goTlsReadSymbol : bytes := str "crypto/tls.(*Conn).Read".

(** [build]: the version in the build information, [name]: whether the link to the
    executable can be read. *)
Definition AttachGoTlsUprobes (disableL7Tracing : bool) (build : option bytes) (name exe : bool) (file : option ELFFile)
  : io (list link * bool) :=
  if disableL7Tracing then ret ([], false)
  else let? goVersion := build else ret ([], false) in
  if negb name then ret ([], true)
  else let v := default (NewVersion 0 0 0) (VersionFromString (let '(a, b, found) := Cut goVersion (str "go") in
                                                               if found then a ++ b else goVersion)) in
  if negb (GreaterOrEqual v (NewVersion 1 17 0)) then ret ([], true)
  else let? f := file else ret ([], true) in
  if negb exe then ret ([], true)
  else let? ws := GetSymbol f goTlsWriteSymbol else ret ([], true) in
  let* l := AttachUprobe f ws (str "go_crypto_tls_write_enter") in
  match l with
  | None => ret ([], true)
  | Some l1 =>
      match GetSymbol f goTlsReadSymbol with
      | None => ret ([], true)
      | Some rs =>
          let* l := AttachUprobe f rs (str "go_crypto_tls_read_enter") in
          match l with
          | None => let* _ := close_all [l1] in ret ([], true)
          | Some l2 =>
              let* (ls, err) := AttachUretprobes f rs (str "go_crypto_tls_read_exit") in
              if err : bool then let* _ := close_all ([l1; l2] ++ ls) in ret ([], true)
              else ret ([l1; l2] ++ ls, true)
          end
      end
  end.

(** ** Node.js and Python *)

(** The loop over the callbacks, which ends at the first error. *)
Fixpoint attach_callbacks (f : ELFFile) (cbs : list bytes) : io (list link) :=
  match cbs with
  | [] => ret []
  | cb :: cbs =>
      match GetSymbol f cb with
      | None => ret []
      | Some s =>
          let* l := AttachUprobe f s (str "uv_io_cb_enter") in
          match l with
          | None => ret []
          | Some l =>
              let* (ls, err) := AttachUretprobes f s (str "uv_io_cb_exit") in
              if err : bool then ret (l :: ls)
              else let* rest := attach_callbacks f cbs in ret (l :: ls ++ rest)
          end
      end
  end.

(** The entry and the returns of a symbol; [None] is an error. *)
Definition attach_both (f : ELFFile) (name enter exit : bytes) : io (option (list link)) :=
  match GetSymbol f name with
  | None => ret None
  | Some s =>
      let* l := AttachUprobe f s enter in
      match l with
      | None => ret None
      | Some l =>
          let* (ls, err) := AttachUretprobes f s exit in
          if err : bool then let* _ := close_all (l :: ls) in ret None else ret (Some (l :: ls))
      end
  end.

(** A library that cannot be opened is [None]. *)
Definition attachNodejsUprobes (lib : option ELFFile) : io (option (list link)) :=
  let? f := lib else ret None in
  let* links := attach_both f (str "uv__io_poll") (str "uv_io_poll_enter") (str "uv_io_poll_exit") in
  match links with
  | None => ret None
  | Some links =>
      let* rest := attach_callbacks f [str "uv__stream_io"; str "uv__async_io"; str "uv__poll_io"; str "uv__server_io"; str "uv__udp_io"] in
      ret (Some (links ++ rest))
  end.

Definition attachPythonUprobes (lib : option ELFFile) : io (option (list link)) :=
  let? f := lib else ret None in
  attach_both f (str "pthread_cond_timedwait") (str "pthread_cond_timedwait_enter") (str "pthread_cond_timedwait_exit").

(** The first library for which it succeeds. *)
Fixpoint first_attached (attach : option ELFFile -> io (option (list link))) (libs : list (option ELFFile)) : io (list link) :=
  match libs with
  | [] => ret []
  | lib :: libs =>
      let* links := attach lib in
      match links with
      | Some links => ret links
      | None => first_attached attach libs
      end
  end.

Definition AttachNodejsProbes (libs : list (option ELFFile)) : io (list link) := first_attached attachNodejsUprobes libs.
Definition AttachPythonThreadLockProbes (libs : list (option ELFFile)) : io (list link) := first_attached attachPythonUprobes libs.

(** ** Where functions return *)

(** The offsets at which instructions begin, and those of them that return. *)
Inductive returns_at : nat -> bytes -> list nat -> Prop :=
  | returns_nil i : returns_at i [] []
  | returns_ins i s len res : s <> [] -> x86_Decode s = (false, len) -> (1 <= len)%nat ->
      returns_at (i + len) (drop len s) res -> returns_at i s res
  | returns_ret i s len res : s <> [] -> x86_Decode s = (true, len) -> (1 <= len)%nat ->
      returns_at (i + len) (drop len s) res -> returns_at i s (i :: res).

Lemma x86_returns_total `{!AsmLaws _} fuel i s :
  (length s <= fuel)%nat -> exists res, x86_returns fuel i s = Some res /\ returns_at i s res.
Proof.
  revert i s. induction fuel as [|fuel IH]; intros i s Hs; (destruct s as [|b s]; [by exists []; split; [|constructor]|]); [cbn in Hs; lia|].
  cbn [x86_returns]. pose proof (x86_Decode_len b s) as Hl. destruct (x86_Decode (b :: s)) as [r len] eqn:E. cbn in Hl.
  destruct (IH (i + len)%nat (drop len (b :: s))) as (res & -> & Hr).
  { rewrite length_drop. cbn in *. lia. }
  destruct r; eexists; (split; [done|]); by econstructor.
Qed.

Lemma arm64_returns_total fuel i s :
  (length s <= fuel)%nat -> exists res, arm64_returns fuel i s = Some res.
Proof.
  revert i s. induction fuel as [|fuel IH]; intros i s Hs; (destruct s as [|b s]; [by exists []|]); [cbn in Hs; lia|].
  cbn [arm64_returns]. destruct (IH (i + 4)%nat (drop 4 (b :: s))) as [res ->]; [|by eexists].
  rewrite length_drop. cbn in *. lia.
Qed.

(** The search for the returns of a function ends. *)
Lemma getReturnOffsets_total `{!AsmLaws _} m s : is_Some (getReturnOffsets m s).
Proof.
  destruct m; cbn [getReturnOffsets]; [|by destruct (arm64_returns_total (length s) 0 s (le_n _)) as [? ->]|by eexists].
  by destruct (x86_returns_total (length s) 0 s (le_n _)) as (? & -> & _).
Qed.

(** ** Open links *)

Definition kernel_ok (k : kernel) : Prop :=
  NoDup (map l_id (open k)) /\ Forall (fun l => (l_id l < next k)%nat) (open k).

(** The links [ls] were opened and nothing else happened. *)
Definition grows (k : kernel) (ls : list link) (k' : kernel) : Prop := open k' = open k ++ ls /\ kernel_ok k'.

Lemma grows_refl k : kernel_ok k -> grows k [] k.
Proof. intros Hk. split; [by rewrite app_nil_r|done]. Qed.

Lemma grows_trans k1 k2 k3 a b : grows k1 a k2 -> grows k2 b k3 -> grows k1 (a ++ b) k3.
Proof. intros [E1 _] [E2 H2]. split; [|done]. by rewrite E2, E1, app_assoc. Qed.

Lemma attach_bind_inv {A B} (m : io A) (f : A -> io B) k b k' :
  bind m f k = Val (b, k') -> exists a k1, m k = Val (a, k1) /\ f a k1 = Val (b, k').
Proof. unfold bind. destruct (m k) as [|[a k1]]; [done|]. eauto. Qed.

Lemma Uprobe_grows sym prog addr off k r k' :
  kernel_ok k -> Uprobe sym prog addr off k = Val (r, k') -> grows k (match r with Some l => [l] | None => [] end) k'.
Proof.
  intros Hk. unfold Uprobe. destruct (outcomes k) as [|[|] os]; intros [= <- <-]; [by apply grows_refl| |].
  - split; [done|]. destruct Hk as [Hn Hl]. split; cbn.
    + rewrite map_app. apply NoDup_app. split_and!; [done| |apply NoDup_singleton].
      intros i Hi ->%list_elem_of_singleton. apply list_elem_of_fmap in Hi as (l & El & Hin).
      rewrite Forall_forall in Hl. specialize (Hl l Hin). cbn in El. lia.
    + apply Forall_app. split; [|apply Forall_singleton; cbn; lia]. eapply Forall_impl; [exact Hl|]. cbn. lia.
  - split; [by rewrite app_nil_r|done].
Qed.

Lemma filter_keeps {A} (P : A -> Prop) `{!forall x, Decision (P x)} (l : list A) : (forall x, x ∈ l -> P x) -> filter P l = l.
Proof.
  induction l as [|x l IH]; intros Hl; [done|]. rewrite filter_cons_True by (apply Hl; by left).
  f_equal. apply IH. intros y Hy. apply Hl. by right.
Qed.

(** Closing the last links that were opened. *)
Lemma close_all_last k o ls :
  kernel_ok k -> open k = o ++ ls -> exists k', close_all ls k = Val (tt, k') /\ open k' = o /\ kernel_ok k'.
Proof.
  revert k. induction ls as [|l ls IH]; intros k Hk Eo; cbn [close_all].
  - exists k. by rewrite app_nil_r in Eo.
  - unfold bind, Close. set (k1 := Kernel _ _ _). destruct Hk as [Hn Hl].
    assert (open k1 = o ++ ls) as E1.
    { unfold k1. cbn [open]. rewrite Eo in *. rewrite map_app in Hn. cbn in Hn. apply NoDup_app in Hn as (_ & Hd & Hn).
      apply NoDup_cons in Hn as [Hnot _]. rewrite filter_app, filter_cons_False by (intros Hx; by apply Hx). f_equal; apply filter_keeps; intros x Hx.
      - intros E. apply (Hd (l_id x)); [by apply list_elem_of_fmap_2|]. rewrite E. by left.
      - intros E. apply Hnot. rewrite <-E. by apply list_elem_of_fmap_2. }
    apply IH; [|done]. split; rewrite E1; rewrite Eo in *.
    + eapply sublist_NoDup; [exact Hn|]. apply fmap_sublist, sublist_app; [done|]. by apply sublist_cons.
    + apply Forall_app in Hl as [Ho [_ Hs]%Forall_cons]. by apply Forall_app.
Qed.

Lemma close_all_perm k ls rest :
  kernel_ok k -> open k ≡ₚ ls ++ rest -> exists k', close_all ls k = Val (tt, k') /\ open k' ≡ₚ rest /\ kernel_ok k'.
Proof.
  revert k. induction ls as [|l ls IH]; intros k [Hn Hl] Eo; cbn [close_all]; [by exists k|].
  unfold bind, Close. set (k1 := Kernel _ _ _). assert (open k1 ≡ₚ ls ++ rest) as E1.
  { unfold k1. cbn [open]. cbn [app] in Eo. assert (NoDup (map l_id (l :: ls ++ rest))) as Hd by by rewrite <-Eo.
    rewrite Eo. cbn in Hd. apply NoDup_cons in Hd as [Hnot _]. rewrite filter_cons_False by (intros Hx; by apply Hx).
    rewrite filter_keeps; [done|]. intros x Hx E. apply Hnot. rewrite <-E. by apply list_elem_of_fmap_2. }
  apply IH; [|done]. split.
  - eapply sublist_NoDup; [exact Hn|]. apply fmap_sublist. apply sublist_filter.
  - unfold k1. cbn [open next]. apply Forall_forall. intros x [_ Hx]%list_elem_of_filter. by eapply Forall_forall in Hl.
Qed.

Lemma attach_offsets_grows f s prog offsets k ls err k' :
  kernel_ok k -> attach_offsets f s prog offsets k = Val ((ls, err), k') -> grows k ls k'.
Proof.
  revert k ls err k'. induction offsets as [|o offsets IH]; intros k ls err k' Hk E; cbn [attach_offsets] in E.
  - injection E as <- <- <-. by apply grows_refl.
  - apply attach_bind_inv in E as (r & k1 & E1 & E). apply Uprobe_grows in E1 as G1; [|done]. destruct r as [l|].
    + apply attach_bind_inv in E as ([ls' err'] & k2 & E2 & E). injection E as <- <- <-.
      apply (grows_trans _ _ _ [l] ls' G1). by eapply IH; [apply G1|].
    + by injection E as <- <- <-.
Qed.

Lemma AttachUretprobes_grows f s prog k ls err k' :
  kernel_ok k -> AttachUretprobes f s prog k = Val ((ls, err), k') -> grows k ls k'.
Proof.
  intros Hk. unfold AttachUretprobes. destruct (ReturnOffsets f s) as [|[offsets|]]; [done|by apply attach_offsets_grows|].
  intros [= <- <- <-]. by apply grows_refl.
Qed.

(** What closes the links it opened before it fails. *)
Lemma closed_again k0 k ls {A} (a b : A) k' :
  kernel_ok k0 -> grows k0 ls k -> (let* _ := close_all ls in ret a) k = Val (b, k') -> a = b /\ grows k0 [] k'.
Proof.
  intros Hk0 [Eo Hk] E. destruct (close_all_last k (open k0) ls Hk Eo) as (k1 & E1 & Eo1 & Hk1).
  unfold bind in E. rewrite E1 in E. injection E as <- <-. split; [done|]. split; [by rewrite app_nil_r|done].
Qed.

Lemma attach_progs_grows f ps k0 links k res k' :
  kernel_ok k0 -> grows k0 links k -> attach_progs f ps links k = Val (res, k') -> grows k0 res k'.
Proof.
  intros Hk0. revert links k. induction ps as [|p ps IH]; intros links k G E; cbn [attach_progs] in E; [by injection E as <- <-|].
  destruct (GetSymbol f (symbol p)) as [s|]; [|by apply (closed_again _ _ _ _ _ _ Hk0 G) in E as [<- ?]].
  apply attach_bind_inv in E as (entry & k1 & E1 & E).
  assert (grows k (match entry with Some l => l | None => [] end) k1) as G1.
  { destruct (uprobe p) as [g|]; [|injection E1 as <- <-; apply grows_refl, G].
    apply attach_bind_inv in E1 as (r & k2 & E1 & E2). injection E2 as <- <-. apply Uprobe_grows in E1; [|apply G]. by destruct r. }
  destruct entry as [l|]; cycle 1.
  { pose proof (grows_trans _ _ _ _ _ G G1) as G2. rewrite app_nil_r in G2. by apply (closed_again _ _ _ _ _ _ Hk0 G2) in E as [<- ?]. }
  apply attach_bind_inv in E as ([ls err] & k2 & E2 & E).
  assert (grows k1 ls k2) as G2.
  { destruct (uretprobe p) as [g|]; [by eapply AttachUretprobes_grows; [apply G1|]|]. injection E2 as <- <- <-. apply grows_refl, G1. }
  pose proof (grows_trans _ _ _ _ _ (grows_trans _ _ _ _ _ G G1) G2) as G3.
  destruct err; [by apply (closed_again _ _ _ _ _ _ Hk0 G3) in E as [<- ?]|]. exact (IH _ _ G3 E).
Qed.

Lemma attach_both_grows f name enter exit k r k' :
  kernel_ok k -> attach_both f name enter exit k = Val (r, k') -> grows k (default [] r) k'.
Proof.
  intros Hk E. unfold attach_both in E. destruct (GetSymbol f name) as [s|]; [|injection E as <- <-; by apply grows_refl].
  apply attach_bind_inv in E as (l & k1 & E1 & E). apply Uprobe_grows in E1 as G1; [|done].
  destruct l as [l|]; [|by injection E as <- <-]. apply attach_bind_inv in E as ([ls err] & k2 & E2 & E).
  apply AttachUretprobes_grows in E2 as G2; [|apply G1]. pose proof (grows_trans _ _ _ _ _ G1 G2) as G. cbn [app] in G.
  destruct err; [by apply (closed_again _ _ _ _ _ _ Hk G) in E as [<- ?]|]. by injection E as <- <-.
Qed.

Lemma attach_callbacks_grows f cbs k ls k' :
  kernel_ok k -> attach_callbacks f cbs k = Val (ls, k') -> grows k ls k'.
Proof.
  revert k ls k'. induction cbs as [|cb cbs IH]; intros k ls k' Hk E; cbn [attach_callbacks] in E; [injection E as <- <-; by apply grows_refl|].
  destruct (GetSymbol f cb) as [s|]; [|injection E as <- <-; by apply grows_refl].
  apply attach_bind_inv in E as (l & k1 & E1 & E). apply Uprobe_grows in E1 as G1; [|done].
  destruct l as [l|]; [|by injection E as <- <-]. apply attach_bind_inv in E as ([ls' err] & k2 & E2 & E).
  apply AttachUretprobes_grows in E2 as G2; [|apply G1]. pose proof (grows_trans _ _ _ _ _ G1 G2) as G. cbn [app] in G.
  destruct err; [by injection E as <- <-|]. apply attach_bind_inv in E as (rest & k3 & E3 & E). injection E as <- <-.
  apply (grows_trans _ _ _ (l :: ls') rest G). apply (IH k2); [apply G|done].
Qed.

Lemma first_attached_grows attach libs k ls k' :
  (forall lib k r k', kernel_ok k -> attach lib k = Val (r, k') -> grows k (default [] r) k') ->
  kernel_ok k -> first_attached attach libs k = Val (ls, k') -> grows k ls k'.
Proof.
  intros Ha. revert k. induction libs as [|lib libs IH]; intros k Hk E; cbn [first_attached] in E; [injection E as <- <-; by apply grows_refl|].
  apply attach_bind_inv in E as (r & k1 & E1 & E). apply Ha in E1 as G; [|done]. destruct r as [links|]; [by injection E as <- <-|].
  specialize (IH k1 (proj2 G) E). pose proof (grows_trans _ _ _ _ _ G IH) as G'. exact G'.
Qed.

Lemma AttachNodejsProbes_grows libs k ls k' :
  kernel_ok k -> AttachNodejsProbes libs k = Val (ls, k') -> grows k ls k'.
Proof.
  apply first_attached_grows. clear. intros lib k r k' Hk E. unfold attachNodejsUprobes in E.
  destruct lib as [f|]; [|injection E as <- <-; by apply grows_refl].
  apply attach_bind_inv in E as (links & k1 & E1 & E). apply attach_both_grows in E1 as G1; [|done].
  destruct links as [links|]; [|by injection E as <- <-]. apply attach_bind_inv in E as (rest & k2 & E2 & E). injection E as <- <-.
  apply (grows_trans _ _ _ links rest G1). eapply attach_callbacks_grows; [apply G1|done].
Qed.

Lemma AttachPythonThreadLockProbes_grows libs k ls k' :
  kernel_ok k -> AttachPythonThreadLockProbes libs k = Val (ls, k') -> grows k ls k'.
Proof.
  apply first_attached_grows. clear. intros lib k r k' Hk E. unfold attachPythonUprobes in E.
  destruct lib as [f|]; [by eapply attach_both_grows|injection E as <- <-; by apply grows_refl].
Qed.

Lemma AttachOpenSslUprobes_grows dis lib exe file k ls k' :
  kernel_ok k -> AttachOpenSslUprobes dis lib exe file k = Val (ls, k') -> grows k ls k'.
Proof.
  intros Hk E. unfold AttachOpenSslUprobes in E. destruct lib as [libPath version].
  assert (ret [] k = Val (ls, k') -> grows k ls k') as Hret by (intros [= <- <-]; by apply grows_refl).
  destruct dis; [exact (Hret E)|]. destruct (_ || _); [exact (Hret E)|]. destruct exe; [|exact (Hret E)].
  cbn [negb] in E. destruct (VersionFromString version) as [v|]; [|exact (Hret E)]. destruct file as [f|]; [|exact (Hret E)].
  by eapply attach_progs_grows; [|apply grows_refl|].
Qed.

(** The executable has both functions of crypto/tls or none that is probed first. *)
Definition both_functions (file : option ELFFile) : Prop :=
  forall f, file = Some f -> GetSymbol f goTlsWriteSymbol <> None -> GetSymbol f goTlsReadSymbol <> None.

Lemma AttachGoTlsUprobes_grows dis build name exe file k ls go k' :
  kernel_ok k -> both_functions file -> AttachGoTlsUprobes dis build name exe file k = Val ((ls, go), k') -> grows k ls k'.
Proof.
  intros Hk Hboth E. unfold AttachGoTlsUprobes in E.
  assert (forall b, ret ([], b) k = Val ((ls, go), k') -> grows k ls k') as Hret by (intros b [= <- <- <-]; by apply grows_refl).
  destruct dis; [exact (Hret _ E)|]. destruct build as [version|]; [|exact (Hret _ E)]. destruct name; [|exact (Hret _ E)].
  cbn [negb] in E. destruct (GreaterOrEqual _ _); [|exact (Hret _ E)]. cbn [negb] in E.
  destruct file as [f|]; [|exact (Hret _ E)]. destruct exe; [|exact (Hret _ E)]. cbn [negb] in E.
  destruct (GetSymbol f goTlsWriteSymbol) as [ws|] eqn:Ew; [|exact (Hret _ E)].
  apply attach_bind_inv in E as (l & k1 & E1 & E). apply Uprobe_grows in E1 as G1; [|done].
  destruct l as [l1|]; [|by injection E as <- <- <-].
  destruct (GetSymbol f goTlsReadSymbol) as [rs|] eqn:Er; [|by exfalso; apply (Hboth f eq_refl); [rewrite Ew|]].
  apply attach_bind_inv in E as (l & k2 & E2 & E). apply Uprobe_grows in E2 as G2; [|apply G1].
  pose proof (grows_trans _ _ _ _ _ G1 G2) as G. destruct l as [l2|].
  2: { by apply (closed_again _ _ _ _ _ _ Hk G) in E as [[= <- <-] ?]. }
  apply attach_bind_inv in E as ([ls' err] & k3 & E3 & E). apply AttachUretprobes_grows in E3 as G3; [|apply G].
  pose proof (grows_trans _ _ _ _ _ G G3) as G'.
  destruct err; [by apply (closed_again _ _ _ _ _ _ Hk G') in E as [[= <- <-] ?]|]. by injection E as <- <- <-.
Qed.

(** ** The probes of the processes *)

(** The part of the struct Process the probes are in.  [closed] is not in the struct: it is
    how many of [uprobes] were there when the process was closed. *)
Record Process := MkProcess {
  uprobes : list link; openSslUprobesChecked : bool; goTlsUprobesChecked : bool; isGolangApp : bool;
  pythonGilChecked : bool; nodejsChecked : bool; closed : nat
}.
Definition NewProcess : Process := MkProcess [] false false false false false 0.

Definition add_uprobes (ls : list link) (p : Process) : Process :=
  MkProcess (uprobes p ++ ls) (openSslUprobesChecked p) (goTlsUprobesChecked p) (isGolangApp p)
    (pythonGilChecked p) (nodejsChecked p) (closed p).
Definition set_tls ssl go golang (p : Process) : Process :=
  MkProcess (uprobes p) ssl go golang (pythonGilChecked p) (nodejsChecked p) (closed p).
Definition set_runtimes python nodejs (p : Process) : Process :=
  MkProcess (uprobes p) (openSslUprobesChecked p) (goTlsUprobesChecked p) (isGolangApp p) python nodejs (closed p).
Definition set_closed n (p : Process) : Process :=
  MkProcess (uprobes p) (openSslUprobesChecked p) (goTlsUprobesChecked p) (isGolangApp p)
    (pythonGilChecked p) (nodejsChecked p) n.

Definition attachTlsUprobes (openssl : io (list link)) (gotls : io (list link * bool)) (p : Process) : io Process :=
  let* p := if openSslUprobesChecked p then ret p
            else let* ls := openssl in
                 ret (set_tls true (goTlsUprobesChecked p) (isGolangApp p) (add_uprobes ls p)) in
  if goTlsUprobesChecked p then ret p
  else let* (ls, golang) := gotls in
       ret (set_tls (openSslUprobesChecked p) true golang (add_uprobes ls p)).

(** [python], [nodejs]: whether the command and the executable are those of the runtime. *)
Definition instrumentPython (python : bool) (libs : list (option ELFFile)) (p : Process) : io Process :=
  if pythonGilChecked p then ret p
  else let p := set_runtimes true (nodejsChecked p) p in
  if negb python then ret p
  else let* ls := AttachPythonThreadLockProbes libs in ret (add_uprobes ls p).

Definition instrumentNodejs (nodejs : bool) (libs : list (option ELFFile)) (p : Process) : io Process :=
  if nodejsChecked p then ret p
  else let p := set_runtimes (pythonGilChecked p) true p in
  if negb nodejs then ret p
  else let* ls := AttachNodejsProbes libs in ret (add_uprobes ls p).

Definition Process_Close (p : Process) : io Process :=
  let* _ := close_all (uprobes p) in ret (set_closed (length (uprobes p)) p).

(** What the tracer finds of the TLS libraries of a process. *)
Record tls_env := TlsEnv {
  disableL7Tracing : bool; t_lib : bytes * bytes; t_lib_exe : bool; t_lib_file : option ELFFile;
  t_build : option bytes; t_name : bool; t_exe : bool; t_file : option ELFFile
}.

Definition attach_tls (t : tls_env) (p : Process) : io Process :=
  attachTlsUprobes (AttachOpenSslUprobes (disableL7Tracing t) (t_lib t) (t_lib_exe t) (t_lib_file t))
    (AttachGoTlsUprobes (disableL7Tracing t) (t_build t) (t_name t) (t_exe t) (t_file t)) p.

(** The processes that were made, and those the containers hold, by container and pid.  The
    goroutine that instruments a process holds it whether or not a container still does. *)
Record world := World { objects : list Process; processes : gmap (nat * Z) nat }.
Definition world_init : world := World [] ∅.

Inductive event :=
  | Start (c : nat) (pid : Z)
  | Tls (c : nat) (pid : Z) (t : tls_env)
  | Python (o : nat) (python : bool) (libs : list (option ELFFile))
  | Nodejs (o : nat) (nodejs : bool) (libs : list (option ELFFile))
  | Exit (c : nat) (pid : Z).

Definition event_ok (e : event) : Prop :=
  match e with Tls _ _ t => both_functions (t_file t) | _ => True end.

(** Update a process. *)
Definition on_object (o : nat) (f : Process -> io Process) (w : world) : io world :=
  match objects w !! o with
  | None => ret w
  | Some p => let* p := f p in ret (World (<[o := p]> (objects w)) (processes w))
  end.

(** A process that starts takes the place of the one the container had under its pid. *)
Definition handle (e : event) (w : world) : io world :=
  match e with
  | Start c pid => ret (World (objects w ++ [NewProcess]) (<[(c, pid) := length (objects w)]> (processes w)))
  | Tls c pid t => match processes w !! (c, pid) with None => ret w | Some o => on_object o (attach_tls t) w end
  | Python o python libs => on_object o (instrumentPython python libs) w
  | Nodejs o nodejs libs => on_object o (instrumentNodejs nodejs libs) w
  | Exit c pid => match processes w !! (c, pid) with
                  | None => ret w
                  | Some o => let* w := on_object o Process_Close w in ret (World (objects w) (delete (c, pid) (processes w)))
                  end
  end.

Fixpoint handle_all (es : list event) (w : world) : io world :=
  match es with
  | [] => ret w
  | e :: es => let* w := handle e w in handle_all es w
  end.

(** *** Ownership *)

(** The links a process has that were not closed with it. *)
Definition held (p : Process) : list link := drop (closed p) (uprobes p).
Definition all_held (ps : list Process) : list link := concat (map held ps).

(** Every open link is held by one process; those the containers have are not closed. *)
Record owned (w : world) (k : kernel) : Prop := {
  ow_kernel : kernel_ok k;
  ow_open : open k ≡ₚ all_held (objects w);
  ow_closed o p : objects w !! o = Some p -> (closed p <= length (uprobes p))%nat;
  ow_running key o : processes w !! key = Some o -> exists p, objects w !! o = Some p /\ closed p = 0%nat;
  ow_unique key1 key2 o : processes w !! key1 = Some o -> processes w !! key2 = Some o -> key1 = key2
}.

(** Only processes that a container has hold links. *)
Definition none_left (w : world) : Prop :=
  forall o p, objects w !! o = Some p -> held p <> [] -> exists key, processes w !! key = Some o.

Lemma owned_init k : open k = [] -> owned world_init k.
Proof. intros Hk. split; [|by rewrite Hk|done|done|done]. split; rewrite Hk; [apply NoDup_nil_2|done]. Qed.

Lemma all_held_insert ps o p p' :
  ps !! o = Some p -> exists rest, all_held ps ≡ₚ held p ++ rest /\ all_held (<[o := p']> ps) ≡ₚ held p' ++ rest.
Proof.
  intros Ho. exists (all_held (take o ps ++ drop (S o) ps)). unfold all_held.
  rewrite insert_take_drop by by eapply lookup_lt_Some. rewrite <-(take_drop_middle ps o p Ho) at 1.
  rewrite !map_app. cbn [map]. rewrite !concat_app. cbn [concat].
  split; rewrite !app_assoc; f_equiv; apply Permutation_app_comm.
Qed.

(** More links for a process. *)
Definition extends (f : Process -> io Process) : Prop :=
  forall p k p' k', kernel_ok k -> f p k = Val (p', k') ->
  exists ls, uprobes p' = uprobes p ++ ls /\ closed p' = closed p /\ grows k ls k'.

Lemma on_object_inv o f w k w' k' :
  on_object o f w k = Val (w', k') ->
  objects w !! o = None /\ w' = w /\ k' = k \/
  exists p p', objects w !! o = Some p /\ f p k = Val (p', k') /\ w' = World (<[o := p']> (objects w)) (processes w).
Proof.
  unfold on_object. destruct (objects w !! o) as [p|]; [|intros [= <- <-]; by left].
  intros (p' & k1 & E1 & E)%attach_bind_inv. injection E as <- <-. right. by exists p, p'.
Qed.

Lemma on_object_owned o f w k w' k' :
  owned w k -> extends f -> on_object o f w k = Val (w', k') -> owned w' k' /\ processes w' = processes w /\
  (none_left w -> (exists key, processes w !! key = Some o) -> none_left w').
Proof.
  intros Hw Hf [(_ & -> & ->)|(p & p' & Ho & E & ->)]%on_object_inv; [done|]. destruct Hw as [Hk Hopen Hc Hr Hu].
  destruct (Hf p k p' k' Hk E) as (ls & Eu & Ec & Eo & Hk'). pose proof (lookup_lt_Some _ _ _ Ho) as Hlt.
  assert (held p' = held p ++ ls) as Eh by (unfold held; rewrite Eu, Ec, drop_app_le by (by eapply Hc); done).
  split_and!; [split; cbn [objects processes]|done|].
  - done.
  - destruct (all_held_insert (objects w) o p p' Ho) as (rest & E1 & E2).
    rewrite Eo, Hopen, E1, E2, Eh, <-!app_assoc. f_equiv. apply Permutation_app_comm.
  - intros o' q [(<- & <- & _)|[_ Hq]]%list_lookup_insert_Some; [|by eapply Hc].
    rewrite Ec, Eu, length_app. specialize (Hc _ _ Ho). lia.
  - intros key o' Hkey. destruct (Hr key o' Hkey) as (q & Hq & Hz). destruct (decide (o' = o)) as [->|Hne].
    + exists p'. rewrite list_lookup_insert_eq by done. rewrite Ho in Hq. injection Hq as <-. by rewrite Ec.
    + exists q. by rewrite list_lookup_insert_ne.
  - done.
  - intros Hn Hkey o' q [(<- & <- & _)|[_ Hq]]%list_lookup_insert_Some; [done|by apply Hn].
Qed.

Lemma extends_tls t : both_functions (t_file t) -> extends (attach_tls t).
Proof.
  intros Hb p k p' k' Hk E. apply attach_bind_inv in E as (p1 & k1 & E1 & E).
  assert (exists ls, uprobes p1 = uprobes p ++ ls /\ closed p1 = closed p /\ grows k ls k1) as (l1 & U1 & C1 & G1).
  { destruct (openSslUprobesChecked p).
    - injection E1 as <- <-. exists []. rewrite app_nil_r. split_and!; [done..|]. by apply grows_refl.
    - apply attach_bind_inv in E1 as (ls & k2 & E2 & E1). injection E1 as <- <-. exists ls. split_and!; [done..|].
      by eapply AttachOpenSslUprobes_grows. }
  destruct (goTlsUprobesChecked p1).
  - injection E as <- <-. by exists l1.
  - apply attach_bind_inv in E as ([ls golang] & k2 & E2 & E). injection E as <- <-. exists (l1 ++ ls). cbn.
    rewrite U1, app_assoc. split_and!; [done..|]. apply (grows_trans _ _ _ _ _ G1). eapply AttachGoTlsUprobes_grows; [apply G1|done|done].
Qed.

Lemma extends_python python libs : extends (instrumentPython python libs).
Proof.
  intros p k p' k' Hk E. unfold instrumentPython in E.
  destruct (pythonGilChecked p); [|destruct python; cbn [negb] in E].
  2: { apply attach_bind_inv in E as (ls & k1 & E1 & E). injection E as <- <-. exists ls. split_and!; [done..|].
       by eapply AttachPythonThreadLockProbes_grows. }
  all: injection E as <- <-; exists []; rewrite app_nil_r; split_and!; [done..|]; by apply grows_refl.
Qed.

Lemma extends_nodejs nodejs libs : extends (instrumentNodejs nodejs libs).
Proof.
  intros p k p' k' Hk E. unfold instrumentNodejs in E.
  destruct (nodejsChecked p); [|destruct nodejs; cbn [negb] in E].
  2: { apply attach_bind_inv in E as (ls & k1 & E1 & E). injection E as <- <-. exists ls. split_and!; [done..|].
       by eapply AttachNodejsProbes_grows. }
  all: injection E as <- <-; exists []; rewrite app_nil_r; split_and!; [done..|]; by apply grows_refl.
Qed.

(** A process that a container has is closed, and the container forgets it. *)
Lemma exit_owned c pid o w k w' k' :
  owned w k -> processes w !! (c, pid) = Some o -> handle (Exit c pid) w k = Val (w', k') ->
  owned w' k' /\ (none_left w -> none_left w').
Proof.
  intros [Hk Hopen Hc Hr Hu] Hkey E. cbn [handle] in E. rewrite Hkey in E.
  destruct (Hr _ _ Hkey) as (p & Ho & Hz). apply attach_bind_inv in E as (w1 & k1 & E1 & E). injection E as <- <-.
  apply on_object_inv in E1 as [(H0 & _)|(q & p' & Hq & E1 & ->)]; [congruence|].
  rewrite Ho in Hq. injection Hq as <-. apply attach_bind_inv in E1 as ([] & k2 & E1 & E2). injection E2 as <- <-.
  set (p' := set_closed (length (uprobes p)) p). pose proof (lookup_lt_Some _ _ _ Ho) as Hlt.
  destruct (all_held_insert (objects w) o p p' Ho) as (rest & Ea & Eb).
  assert (held p = uprobes p) as Eh by (unfold held; by rewrite Hz).
  assert (held p' = []) as Eh' by (unfold held; cbn; apply drop_all).
  destruct (close_all_perm k (uprobes p) rest Hk) as (k3 & E3 & Ho3 & Hk3); [by rewrite Hopen, Ea, Eh|].
  rewrite E3 in E1. injection E1 as <-. split; [split; cbn [objects processes]|].
  - done.
  - by rewrite Ho3, Eb, Eh'.
  - intros o' q [(<- & <- & _)|[_ Hq]]%list_lookup_insert_Some; [by cbn|by eapply Hc].
  - intros key o' [Hne Hkey']%lookup_delete_Some. destruct (Hr key o' Hkey') as (q & Hq & Hzq).
    exists q. rewrite list_lookup_insert_ne; [done|]. intros ->. apply Hne. by eapply Hu.
  - intros key1 key2 o' [_ H1]%lookup_delete_Some [_ H2]%lookup_delete_Some. by eapply Hu.
  - intros Hn o' q [(<- & <- & _)|[Hne Hq]]%list_lookup_insert_Some Hh; [done|].
    destruct (Hn o' q Hq Hh) as [key Hk']. exists key. cbn. apply lookup_delete_Some. split; [|done].
    intros <-. rewrite Hkey in Hk'. by injection Hk'.
Qed.

(** A process of a container, and a pid it has no process of. *)
Definition in_order (w : world) (e : event) : Prop :=
  match e with
  | Start c pid => processes w !! (c, pid) = None
  | Python o _ _ | Nodejs o _ _ => exists key, processes w !! key = Some o
  | _ => True
  end.

Lemma start_owned c pid w k :
  owned w k -> let w' := World (objects w ++ [NewProcess]) (<[(c, pid) := length (objects w)]> (processes w)) in
  owned w' k /\ (processes w !! (c, pid) = None -> none_left w -> none_left w').
Proof.
  intros [Hk Hopen Hc Hr Hu] w'.
  assert (forall key, processes w !! key <> Some (length (objects w))) as Hnew.
  { intros key Hkey. destruct (Hr _ _ Hkey) as (q & Hq%lookup_lt_Some & _). lia. }
  split; [split; cbn [w' objects processes]|].
  - done.
  - rewrite Hopen. unfold all_held. by rewrite map_app, concat_app, app_nil_r.
  - intros o p [Hp|[_ [_ <-]%list_lookup_singleton_Some]]%lookup_app_Some; [by eapply Hc|cbn; lia].
  - intros key o [[_ <-]|[_ Hkey]]%lookup_insert_Some.
    + exists NewProcess. rewrite lookup_app_r, Nat.sub_diag by lia. done.
    + destruct (Hr _ _ Hkey) as (q & Hq & Hz). exists q. by rewrite lookup_app_l by by eapply lookup_lt_Some.
  - intros key1 key2 o [[<- <-]|[_ H1]]%lookup_insert_Some [[<- E2]|[_ H2]]%lookup_insert_Some.
    + done.
    + by apply Hnew in H2.
    + subst o. by apply Hnew in H1.
    + by eapply Hu.
  - intros Hnone Hn o p [Hp|[_ [_ <-]%list_lookup_singleton_Some]]%lookup_app_Some Hh; [|done].
    destruct (Hn _ _ Hp Hh) as [key Hkey]. exists key. cbn. rewrite lookup_insert_ne; [done|]. congruence.
Qed.

Lemma handle_owned e w k w' k' :
  owned w k -> event_ok e -> handle e w k = Val (w', k') ->
  owned w' k' /\ (in_order w e -> none_left w -> none_left w').
Proof.
  intros Ho He E. destruct e; [cbn [handle] in E..|].
  - injection E as <- <-. by apply start_owned.
  - destruct (processes w !! (c, pid)) as [o|] eqn:Ep; [|by injection E as <- <-].
    destruct (on_object_owned o _ w k w' k' Ho (extends_tls t He) E) as (? & _ & Hn). split; [done|]. eauto.
  - destruct (on_object_owned o _ w k w' k' Ho (extends_python _ _) E) as (? & _ & Hn). split; [done|]. auto.
  - destruct (on_object_owned o _ w k w' k' Ho (extends_nodejs _ _) E) as (? & _ & Hn). split; [done|]. auto.
  - destruct (processes w !! (c, pid)) as [o|] eqn:Ep.
    + destruct (exit_owned c pid o w k w' k' Ho Ep E). by split.
    + cbn [handle] in E. rewrite Ep in E. by injection E as <- <-.
Qed.

Lemma handle_all_app es1 es2 w k : handle_all (es1 ++ es2) w k = bind (handle_all es1 w) (handle_all es2) k.
Proof.
  revert w k. induction es1 as [|e es1 IH]; intros w k; cbn [handle_all app]; [done|].
  unfold bind. destruct (handle e w k) as [|[w1 k1]]; [done|]. apply IH.
Qed.

(** *** Panics *)

(** No function of the file has a size that cannot be allocated. *)
Definition file_ok (file : option ELFFile) : Prop :=
  forall f, file = Some f -> Forall (fun s => s_size s <= maxAlloc) (e_symbols f ++ e_dynamic f).

Definition tls_ok (t : tls_env) : Prop := file_ok (t_lib_file t) /\ file_ok (t_file t).

Definition files_ok (e : event) : Prop :=
  match e with
  | Tls _ _ t => tls_ok t
  | Python _ _ libs | Nodejs _ _ libs => Forall file_ok libs
  | _ => True
  end.

Definition total {A} (m : io A) : Prop := forall k, exists r, m k = Val r.

Lemma total_ret {A} (a : A) : total (ret a).
Proof. intros k. by eexists. Qed.

Lemma total_bind {A B} (m : io A) (f : A -> io B) : total m -> (forall a, total (f a)) -> total (bind m f).
Proof. intros Hm Hf k. unfold bind. destruct (Hm k) as [[a k1] ->]. apply Hf. Qed.

Lemma total_Uprobe sym prog addr off : total (Uprobe sym prog addr off).
Proof. intros k. unfold Uprobe. destruct (outcomes k) as [|[|] os]; by eexists. Qed.

Lemma total_close_all ls : total (close_all ls).
Proof. induction ls; cbn [close_all]; [apply total_ret|]. apply total_bind; [|done]. intros k. by eexists. Qed.

Lemma total_attach_offsets f s prog offsets : total (attach_offsets f s prog offsets).
Proof.
  induction offsets; cbn [attach_offsets]; [apply total_ret|]. apply total_bind; [apply total_Uprobe|].
  intros [l|]; [|apply total_ret]. apply total_bind; [done|]. intros [ls err]. apply total_ret.
Qed.

Create HintDb attach discriminated.
#[local] Hint Resolve total_ret total_Uprobe total_close_all : attach.

Section total.
Context `{!AsmLaws _}.

Lemma total_AttachUretprobes f name s prog :
  file_ok (Some f) -> GetSymbol f name = Some s -> total (AttachUretprobes f s prog).
Proof.
  intros Hf [Hin _]%find_some k. apply list_elem_of_In in Hin. specialize (Hf f eq_refl). rewrite Forall_forall in Hf.
  specialize (Hf s Hin). unfold AttachUretprobes, ReturnOffsets. destruct (e_text f) as [[addr text]|]; [|by eexists].
  destruct (_ <? 0); [by eexists|]. destruct (Z.gtb_spec (s_size s) maxAlloc); [lia|]. destruct (_ >? _); [by eexists|].
  set (code := take _ _). destruct (getReturnOffsets_total (e_machine f) code) as [offsets ->].
  destruct offsets; [by eexists|]. apply total_attach_offsets.
Qed.

Lemma total_attach_progs f ps links : file_ok (Some f) -> total (attach_progs f ps links).
Proof.
  intros Hf. revert links. induction ps as [|p ps IH]; intros links; cbn [attach_progs]; [apply total_ret|].
  destruct (GetSymbol f (symbol p)) as [s|] eqn:Es; [|by apply total_bind; auto with attach].
  apply total_bind; [|intros [l|]].
  - destruct (uprobe p); [|apply total_ret]. apply total_bind; [apply total_Uprobe|auto with attach].
  - apply total_bind; [|intros [ls [|]]; [by apply total_bind; auto with attach|apply IH]].
    destruct (uretprobe p); [by eapply total_AttachUretprobes|apply total_ret].
  - apply total_bind; auto with attach.
Qed.

Lemma total_attach_both f name enter exit : file_ok (Some f) -> total (attach_both f name enter exit).
Proof.
  intros Hf. unfold attach_both. destruct (GetSymbol f name) as [s|] eqn:Es; [|apply total_ret].
  apply total_bind; [apply total_Uprobe|]. intros [l|]; [|apply total_ret].
  apply total_bind; [by eapply total_AttachUretprobes|]. intros [ls [|]]; [apply total_bind|]; auto with attach.
Qed.

Lemma total_attach_callbacks f cbs : file_ok (Some f) -> total (attach_callbacks f cbs).
Proof.
  intros Hf. induction cbs as [|cb cbs IH]; cbn [attach_callbacks]; [apply total_ret|].
  destruct (GetSymbol f cb) as [s|] eqn:Es; [|apply total_ret]. apply total_bind; [apply total_Uprobe|].
  intros [l|]; [|apply total_ret]. apply total_bind; [by eapply total_AttachUretprobes|].
  intros [ls [|]]; [apply total_ret|]. apply total_bind; [done|]. auto with attach.
Qed.

Lemma total_first_attached attach libs :
  Forall file_ok libs -> (forall lib, file_ok lib -> total (attach lib)) -> total (first_attached attach libs).
Proof.
  intros Hl Ha. induction Hl as [|lib libs Hlib _ IH]; cbn [first_attached]; [apply total_ret|].
  apply total_bind; [by apply Ha|]. intros [links|]; [apply total_ret|done].
Qed.

Lemma total_AttachOpenSsl dis lib exe file : file_ok file -> total (AttachOpenSslUprobes dis lib exe file).
Proof.
  intros Hf. unfold AttachOpenSslUprobes. destruct lib as [libPath version].
  repeat (case_match; auto with attach). subst. by apply total_attach_progs.
Qed.

Lemma total_AttachGoTls dis build name exe file : file_ok file -> total (AttachGoTlsUprobes dis build name exe file).
Proof.
  intros Hf. unfold AttachGoTlsUprobes. destruct dis; [apply total_ret|]. destruct build; [|apply total_ret].
  destruct name; [|apply total_ret]. cbn [negb]. destruct (GreaterOrEqual _ _); [|apply total_ret]. cbn [negb].
  destruct file as [f|]; [|apply total_ret]. destruct exe; [|apply total_ret]. cbn [negb].
  destruct (GetSymbol f goTlsWriteSymbol); [|apply total_ret]. apply total_bind; [apply total_Uprobe|].
  intros [l1|]; [|apply total_ret]. destruct (GetSymbol f goTlsReadSymbol) as [rs|] eqn:Er; [|apply total_ret].
  apply total_bind; [apply total_Uprobe|]. intros [l2|]; [|apply total_bind; auto with attach].
  apply total_bind; [by eapply total_AttachUretprobes|]. intros [ls [|]]; [apply total_bind|]; auto with attach.
Qed.

Lemma total_attach_tls t p : tls_ok t -> total (attach_tls t p).
Proof.
  intros [Hl Hf]. unfold attach_tls, attachTlsUprobes. apply total_bind.
  - case_match; [apply total_ret|]. apply total_bind; [by apply total_AttachOpenSsl|auto with attach].
  - intros p1. case_match; [apply total_ret|]. apply total_bind; [by apply total_AttachGoTls|]. intros []. apply total_ret.
Qed.

Lemma total_instrumentPython python libs p : Forall file_ok libs -> total (instrumentPython python libs p).
Proof.
  intros Hl. unfold instrumentPython. repeat (case_match; [apply total_ret|]).
  apply total_bind; [|auto with attach]. apply total_first_attached; [done|].
  intros [f|] Hf; [by apply total_attach_both|apply total_ret].
Qed.

Lemma total_instrumentNodejs nodejs libs p : Forall file_ok libs -> total (instrumentNodejs nodejs libs p).
Proof.
  intros Hl. unfold instrumentNodejs. repeat (case_match; [apply total_ret|]).
  apply total_bind; [|auto with attach]. apply total_first_attached; [done|].
  intros [f|] Hf; [|apply total_ret]. cbn [attachNodejsUprobes]. apply total_bind; [by apply total_attach_both|].
  intros [links|]; [|apply total_ret]. apply total_bind; [by apply total_attach_callbacks|auto with attach].
Qed.

Lemma total_on_object o f w : (forall p, total (f p)) -> total (on_object o f w).
Proof. intros Hf. unfold on_object. destruct (objects w !! o); [|apply total_ret]. apply total_bind; auto with attach. Qed.

Lemma total_handle e w : files_ok e -> total (handle e w).
Proof.
  intros He. destruct e; cbn [handle files_ok] in *; [apply total_ret|..].
  - destruct (processes w !! _); [|apply total_ret]. apply total_on_object. intros p. by apply total_attach_tls.
  - apply total_on_object. intros p. by apply total_instrumentPython.
  - apply total_on_object. intros p. by apply total_instrumentNodejs.
  - destruct (processes w !! _); [|apply total_ret]. apply total_bind; [|auto with attach]. apply total_on_object.
    intros p. apply total_bind; [apply total_close_all|auto with attach].
Qed.

(** A history in which no process starts under a pid its container has a process of, and
    none is instrumented after its container forgot it. *)
Definition orderly (es : list event) (k : kernel) : Prop :=
  forall pre e post w k', es = pre ++ e :: post -> handle_all pre world_init k = Val (w, k') -> in_order w e.

Lemma handle_all_owned es pre w k0 k :
  handle_all pre world_init k0 = Val (w, k) -> owned w k -> (orderly (pre ++ es) k0 -> none_left w) ->
  Forall event_ok es -> Forall files_ok es ->
  exists w' k', handle_all (pre ++ es) world_init k0 = Val (w', k') /\ owned w' k' /\
    (orderly (pre ++ es) k0 -> none_left w').
Proof.
  revert pre w k. induction es as [|e es IH]; intros pre w k E Ho Hn Hes Hfs; [rewrite app_nil_r in *; by exists w, k|].
  apply Forall_cons in Hes as [He Hes]. apply Forall_cons in Hfs as [Hf Hfs].
  destruct (total_handle e w Hf k) as [[w1 k1] E1]. destruct (handle_owned e w k w1 k1 Ho He E1) as [Ho1 Hn1].
  rewrite (app_assoc pre [e] es : pre ++ e :: es = (pre ++ [e]) ++ es). apply (IH (pre ++ [e]) w1 k1); try done.
  - rewrite handle_all_app. unfold bind. rewrite E. cbn [handle_all]. unfold bind. by rewrite E1.
  - rewrite <-app_assoc. intros Hord. apply Hn1; [|by apply Hn]. by eapply (Hord pre e es).
Qed.

(** C9: Every open probe has one owner.  Processes start and exit in the containers, and
    probes of OpenSSL, of Go, of Python and of Node.js are attached to them, in any order,
    also by a goroutine that still instruments a process after it was closed; any attempt
    to make a probe may fail, and then those made for the same library are closed again.
    If the sizes of the functions can be allocated, attaching never panics, and in
    every state every open link is in the list of exactly one process, among those that
    it was not closed with.  In an orderly history, where no process starts under the pid
    of one its container still has (which is replaced without being closed) and none is
    instrumented after it exited, that process is one a container has, so that none is
    open when the containers have none.  (Executables of Go in which only the function
    that writes is found are excepted.) *)
Theorem probes_owned es k :
  open k = [] -> Forall event_ok es -> Forall files_ok es ->
  exists w k', handle_all es world_init k = Val (w, k') /\
    open k' ≡ₚ all_held (objects w) /\ NoDup (map l_id (open k')) /\
    (orderly es k ->
     (forall l, l ∈ open k' -> exists key o p, processes w !! key = Some o /\ objects w !! o = Some p /\ l ∈ uprobes p) /\
     (processes w = ∅ -> open k' = [])).
Proof.
  intros Hk Hes Hfs.
  destruct (handle_all_owned es [] world_init k k) as (w & k' & E & Ho & Hn); [done|by apply owned_init|by intros _ ? ?|done|done|].
  exists w, k'. pose proof (ow_open _ _ Ho) as Hopen. destruct (ow_kernel _ _ Ho) as [Hd _].
  split_and!; [done..|]. intros Hord. specialize (Hn Hord).
  assert (forall l, l ∈ open k' ->
    exists key o p, processes w !! key = Some o /\ objects w !! o = Some p /\ l ∈ uprobes p) as Hin.
  { intros l Hl. rewrite Hopen in Hl. unfold all_held in Hl. apply list_elem_of_In, in_concat in Hl as (x & Hx & Hl).
    apply in_map_iff in Hx as (p & <- & Hp). apply list_elem_of_In, list_elem_of_lookup in Hp as [o Hp].
    apply list_elem_of_In in Hl. destruct (Hn o p Hp) as [key Hkey]; [by intros E0; rewrite E0 in Hl; apply elem_of_nil in Hl|].
    exists key, o, p. split_and!; [done..|]. rewrite <-(take_drop (closed p)). apply elem_of_app. by right. }
  split; [done|]. intros Hempty. destruct (open k') as [|l ls]; [done|].
  destruct (Hin l) as (key & o & p & Hkey & _); [by left|]. by rewrite Hempty, lookup_empty in Hkey.
Qed.

End total.

(** A function whose symbol claims more than can be allocated makes the agent panic. *)
Lemma oversized_symbol_panics f s prog k addr text :
  e_text f = Some (addr, text) -> 0 <= s64 (s_value s - addr) -> maxAlloc < s_size s -> AttachUretprobes f s prog k = Panic.
Proof.
  intros Ht Hs Hm. unfold AttachUretprobes, ReturnOffsets. rewrite Ht.
  destruct (Z.ltb_spec (s64 (s_value s - addr)) 0); [lia|]. destruct (Z.gtb_spec (s_size s) maxAlloc); [done|lia].
Qed.

(** If the symbol of the function that reads is not found after the probe of the function that
    writes was made, that probe is leaked: the result names no link, and the link is open. *)
Theorem go_tls_probe_leaked f version ws k os :
  VersionFromString version = Some (NewVersion 1 21 0) ->
  GetSymbol f goTlsWriteSymbol = Some ws -> GetSymbol f goTlsReadSymbol = None -> outcomes k = true :: os ->
  exists l, AttachGoTlsUprobes false (Some (str "go" ++ version)) true true (Some f) k =
    Val (([], true), Kernel (open k ++ [l]) (S (next k)) os) /\ l_prog l = str "go_crypto_tls_write_enter".
Proof.
  intros Hv Hw Hr Hos. eexists. unfold AttachGoTlsUprobes.
  assert (Cut (str "go" ++ version) (str "go") = ([], version, true)) as Ec.
  { unfold Cut. cbn [str app Index starts_with]. by destruct version. }
  rewrite Ec. cbn [app]. rewrite Hv. cbn [default from_option]. change (GreaterOrEqual _ _) with true. cbn [negb].
  rewrite Hw. unfold bind, AttachUprobe, Uprobe. rewrite Hos, Hr. split; reflexivity.
Qed.

End attach.

(** ** The object for the kernel *)

(** The versions and flags of the objects, in the order of the table. *)
Definition ebpfProgs : list (bytes * bytes) :=
  [(str "5.12", str "ctx-extra-padding"); (str "5.12", []); (str "5.6", []); (str "4.20", []); (str "4.16", [])].

Definition prog_version (p : bytes * bytes) : Version := default (NewVersion 0 0 0) (VersionFromString p.1).

Fixpoint choose_program (kv : Version) (flags : bytes) (progs : list (bytes * bytes)) : option (bytes * bytes) :=
  match progs with
  | [] => None
  | p :: progs =>
      if negb (GreaterOrEqual kv (prog_version p)) then choose_program kv flags progs
      else if negb (bytes_eqb flags p.2) then choose_program kv flags progs
      else Some p
  end.

(** A table in which newer objects come first. *)
Definition newest_first (progs : list (bytes * bytes)) : Prop :=
  StronglySorted (fun p q => p.2 = q.2 -> GreaterOrEqual (prog_version p) (prog_version q) = true) progs.

(** The object that is loaded is, of those built for the layout of the events, the one for
    the newest kernel that is not newer than the running one; there is none exactly when the
    kernel is older than all of these. *)
Theorem newest_program_chosen kv flags :
  match choose_program kv flags ebpfProgs with
  | Some p => p ∈ ebpfProgs /\ p.2 = flags /\ GreaterOrEqual kv (prog_version p) = true /\
      forall q, q ∈ ebpfProgs -> q.2 = flags -> GreaterOrEqual kv (prog_version q) = true ->
        GreaterOrEqual (prog_version p) (prog_version q) = true
  | None => forall q, q ∈ ebpfProgs -> q.2 = flags -> GreaterOrEqual kv (prog_version q) = false
  end.
Proof.
  assert (newest_first ebpfProgs) as Hs.
  { unfold newest_first, ebpfProgs. repeat (apply SSorted_cons; [|repeat (apply Forall_cons_2; [by vm_compute|]); constructor]). constructor. }
  induction Hs as [|p progs _ IH Hp]; cbn [choose_program]; [by intros q ?%elem_of_nil|].
  destruct (GreaterOrEqual kv (prog_version p)) eqn:Eg; cbn [negb].
  1: unfold bytes_eqb; case_bool_decide as Ef; cbn [negb].
  - split_and!; [by left|done|done|]. intros q [->|Hq]%elem_of_cons Eq Hkq.
    + subst flags. unfold GreaterOrEqual. repeat case_match; lia.
    + rewrite Forall_forall in Hp. apply (Hp q Hq). by rewrite Eq.
  - destruct (choose_program kv flags progs) as [r|]; [destruct IH as (Hr & Ef' & Er & Hmax); split_and!; [by right|done|done|]|];
      intros q [->|Hq]%elem_of_cons; try done; by auto.
  - destruct (choose_program kv flags progs) as [r|]; [destruct IH as (Hr & Ef' & Er & Hmax); split_and!; [by right|done|done|]|];
      intros q [->|Hq]%elem_of_cons; try done; try congruence; by auto.
Qed.

(** ** A concrete library *)

(** Instructions of one byte, of which 0xc3 returns. *)
#[export] Instance byte_asm : Asm := {|
  x86_Decode s := (match s with b :: _ => b =? 0xc3 | [] => false end, 1%nat);
  arm64_Decode _ := false
|}.

#[export] Instance byte_asm_laws : AsmLaws byte_asm.
Proof. split. cbn. lia. Qed.

Definition demo_symbol (name : bytes) (value : Z) : elf_symbol := ElfSymbol name 0x12 0 value 4.
Definition demo_lib (names : list bytes) : ELFFile :=
  MkELFFile EM_X86_64 [] (imap (fun i n => demo_symbol n (0x1000 + 4 * Z.of_nat i)) names)
    [ElfProg PT_LOAD 5 0x400 0x1000 0x100] (Some (0x1000, concat (replicate (length names) [0x90; 0xc3; 0x90; 0xc3]))).

Definition demo_ssl : ELFFile :=
  demo_lib [str "SSL_write"; str "SSL_read"; str "SSL_write_ex"; str "SSL_read_ex"].

(** The third attempt fails, so the links of the first two are closed; the process of Python is
    probed, and both exit. *)
Definition demo_tls : tls_env :=
  TlsEnv false (str "/lib/libssl.so.3", str "v3.0.2") true (Some demo_ssl) None true true None.
Definition demo_events : list event :=
  [Start 0 7; Start 0 8; Tls 0 7 demo_tls; Python 1 true [None; Some (demo_lib [str "pthread_cond_timedwait"])]; Exit 0 7].
Definition demo_kernel : kernel := Kernel [] 0 [true; true; false; true; true; true].

Lemma demo_object_ok names :
  forallb (fun s => s_size s <=? maxAlloc) (e_symbols (demo_lib names) ++ e_dynamic (demo_lib names)) = true ->
  file_ok (Some (demo_lib names)).
Proof.
  intros Hn f [= <-]. apply Forall_forall. intros s Hs. rewrite forallb_forall in Hn.
  apply Z.leb_le, Hn. by apply list_elem_of_In.
Qed.

Lemma demo_orderly : orderly demo_events demo_kernel.
Proof.
  intros pre e post w k' E Hr.
  destruct pre as [|e1 pre]; [injection E as <- <-; injection Hr as <- _; exact eq_refl|].
  destruct pre as [|e2 pre]; [injection E as <- <- <-; injection Hr as <- _; exact eq_refl|].
  destruct pre as [|e3 pre]; [injection E as <- <- <- <-; exact I|].
  destruct pre as [|e4 pre].
  { injection E as <- <- <- <- <-. exists (0%nat, 8).
    assert (match handle_all [Start 0 7; Start 0 8; Tls 0 7 demo_tls] world_init demo_kernel with
            | Val (w, _) => processes w !! (0%nat, 8) | Panic => None end = Some 1%nat) as Ep by by vm_compute.
    by rewrite Hr in Ep. }
  destruct pre as [|e5 pre]; [injection E as <- <- <- <- <- <-; exact I|].
  apply (f_equal length) in E. rewrite length_app in E. cbn [length demo_events] in E. lia.
Qed.

Lemma probes_owned_witness :
  match handle_all demo_events world_init demo_kernel with
  | Panic => False
  | Val (w, k') => map l_id (open k') = [2; 3; 4]%nat /\ open k' ≡ₚ all_held (objects w) /\
      forall l, l ∈ open k' -> exists key o p, processes w !! key = Some o /\ objects w !! o = Some p /\ l ∈ uprobes p
  end.
Proof.
  destruct (probes_owned demo_events demo_kernel) as (w & k' & E & Ho & _ & Hord).
  - done.
  - repeat (apply Forall_cons_2; [|]); [done|done|by intros f|done|done|constructor].
  - apply Forall_cons_2; [done|]. apply Forall_cons_2; [done|].
    apply Forall_cons_2; [split; [by apply demo_object_ok; vm_compute|by intros f]|].
    apply Forall_cons_2; [|by apply Forall_singleton].
    apply Forall_cons_2; [by intros f|]. apply Forall_singleton. by apply demo_object_ok; vm_compute.
  - rewrite E. split_and!; [|done|exact (proj1 (Hord demo_orderly))].
    assert (match handle_all demo_events world_init demo_kernel with Val (_, k') => map l_id (open k') | Panic => [] end
      = [2; 3; 4]%nat) as Ei by by vm_compute.
    by rewrite E in Ei.
Defined.

(** What the two other histories leave open when no container has a process: a process that is
    started again under its pid before it exits, and one that is instrumented after it exits. *)
Definition open_at_end (es : list event) : option (nat * nat) :=
  match handle_all es world_init (Kernel [] 0 (replicate 10 true)) with
  | Val (w, k) => Some (length (open k), size (processes w))
  | Panic => None
  end.

Example replaced_process_leaks :
  let python := [Some (demo_lib [str "pthread_cond_timedwait"])] in
  open_at_end [Start 0 8; Python 0 true python; Start 0 8; Exit 0 8] = Some (3, 0)%nat /\
  open_at_end [Start 0 8; Exit 0 8; Python 0 true python] = Some (3, 0)%nat /\
  open_at_end [Start 0 8; Python 0 true python; Exit 0 8] = Some (0, 0)%nat.
Proof. by vm_compute. Qed.

Lemma go_tls_probe_leaked_witness :
  let k := Kernel [] 0 [true] in
  exists l, AttachGoTlsUprobes false (Some (str "go1.21")) true true (Some (demo_lib [goTlsWriteSymbol])) k =
    Val (([], true), Kernel [l] 1 []) /\ l_prog l = str "go_crypto_tls_write_enter".
Proof.
  intros k. exact (go_tls_probe_leaked (demo_lib [goTlsWriteSymbol]) (str "1.21") (demo_symbol goTlsWriteSymbol 0x1000) k []
    ltac:(by vm_compute) ltac:(by vm_compute) ltac:(by vm_compute) eq_refl).
Defined.

Example openssl_found :
  getSslLibPathAndVersion (fun p => str "/proc/7/root" ++ p) (fun _ => true)
    (fun _ => Some (str "abc" ++ [0] ++ str "OpenSSL 3.0.2 15 Mar 2022" ++ [0]))
    (Some (str "7f00-7f10 r-xp 00000000 08:01 12 /lib/libssl.so.3" ++ [10] ++ str "7f20-7f30 r-xp 00000000 08:01 13 /lib/libcrypto.so.3" ++ [10])) =
  (str "/proc/7/root/lib/libssl.so.3", str "v3.0.2").
Proof. by vm_compute. Qed.

End Attach.
