(* ===== verification/Apps.v ===== *)
(** * Application types

    containers/app.go: the type of an application guessed from the command line and
    from the executable of a process, and which processes are instrumented as Python
    and Node.js (containers/process.go). *)

From S2P Require Import Prelude GoLib GoText.

Module Apps.
Import GoText.

(** ** The expressions *)

(** [\d*\.?\d*$] *)
Definition version : list item := [Star digit; OneOf [str "."; []]; Star digit; EndText].

Definition phpCmd : list item := Star not_newline :: Lit (str "php") :: version.
Definition pythonCmd : list item := Star not_newline :: Lit (str "python") :: version.
Definition rubyCmd : list item := Star not_newline :: Lit (str "ruby") :: version.
Definition nodejsCmd : list item :=
  Star not_newline :: Lit (str "node") :: GroupOpen 1 :: OneOf [str "js"; []] :: GroupClose 1 :: version.

(** ** The guesses *)

(** [bytes.TrimSuffix(bytes.Fields(arg)[0], []byte{':'})] *)
Definition command_name (arg : bytes) : go bytes :=
  match Fields arg with
  | [] => Panic
  | f :: _ => Val (if HasSuffix f (str ":") then take (length f - 1) f else f)
  end.

Definition guessApplicationTypeByCmdline (cmdline : bytes) : go bytes :=
  let parts := Split cmdline 0 in
  match parts with
  | [] => Val []
  | part :: _ =>
      if (length part =? 0)%nat then Val []
      else
      match command_name part with
      | Panic => Panic
      | Val cmd => Val (
          if HasSuffix cmd (str "codexray") then str "codexray"
          else if HasSuffix cmd (str "codexray-node-agent") then str "codexray-node-agent"
          else if HasSuffix cmd (str "codexray-cluster-agent") then str "codexray-cluster-agent"
          else if HasSuffix cmd (str "memcached") then str "memcached"
          else if HasSuffix cmd (str "envoy") then str "envoy"
          else if Contains cmdline (str "org.elasticsearch.bootstrap") then str "elasticsearch"
          else if Contains cmdline (str "org.opensearch.bootstrap") then str "opensearch"
          else if Contains cmdline (str "kafka.Kafka") ||
              Contains cmdline (str "io.confluent.support.metrics.SupportedKafka") then str "kafka"
          else if HasSuffix cmd (str "mongod") then str "mongodb"
          else if HasSuffix cmd (str "mongos") then str "mongos"
          else if HasSuffix cmd (str "mysqld") then str "mysql"
          else if HasSuffix cmd (str "mariadbd") then str "mysql"
          else if Contains cmdline (str "org.apache.zookeeper.server.quorum.QuorumPeerMain") then str "zookeeper"
          else if HasSuffix cmd (str "redis-server") then str "redis"
          else if HasSuffix cmd (str "redis-sentinel") then str "redis-sentinel"
          else if HasSuffix cmd (str "keydb-server") then str "keydb"
          else if HasSuffix cmd (str "valkey-server") then str "valkey"
          else if HasSuffix cmd (str "dragonfly") then str "dragonfly"
          else if HasSuffix cmd (str "beam.smp") && Contains cmdline (str "rabbit") then str "rabbitmq"
          else if HasSuffix cmd (str "beam.smp") && Contains cmdline (str "couch") then str "couchbase"
          else if HasSuffix cmd (str "pgbouncer") then str "pgbouncer"
          else if HasSuffix cmd (str "postgres") then str "postgres"
          else if HasSuffix cmd (str "haproxy") then str "haproxy"
          else if HasSuffix cmd (str "nginx") then str "nginx"
          else if HasSuffix cmd (str "kubelet") then str "kubelet"
          else if HasSuffix cmd (str "kube-apiserver") then str "kube-apiserver"
          else if HasSuffix cmd (str "kube-controller-manager") then str "kube-controller-manager"
          else if HasSuffix cmd (str "kube-scheduler") then str "kube-scheduler"
          else if HasSuffix cmd (str "k3s") then str "k3s"
          else if HasSuffix cmd (str "etcd") then str "etcd"
          else if HasSuffix cmd (str "dockerd") then str "dockerd"
          else if HasSuffix cmd (str "consul") then str "consul"
          else if Contains cmdline (str "org.apache.cassandra.service.CassandraDaemon") then str "cassandra"
          else if HasSuffix cmd (str "clickhouse-server") then str "clickhouse"
          else if HasSuffix cmd (str "traefik") then str "traefik"
          else if HasSuffix cmd (str "asd") then str "aerospike"
          else if HasSuffix cmd (str "httpd") then str "httpd"
          else if HasSuffix cmd (str "influxd") then str "influxdb"
          else if Contains cmdline (str "org.apache.catalina.startup.Bootstrap") then str "tomcat"
          else if HasSuffix cmd (str "vault") then str "vault"
          else if HasSuffix cmd (str "proxysql") then str "proxysql"
          else if HasSuffix cmd (str "cockroach") then str "cockroach"
          else if HasSuffix cmd (str "prometheus") then str "prometheus"
          else if HasSuffix cmd (str "ceph-mon") || HasSuffix cmd (str "ceph-mgr") ||
              HasSuffix cmd (str "ceph-osd") || HasSuffix cmd (str "cephcsi") then str "ceph"
          else if HasSuffix cmd (str "rook") then str "rook"
          else if HasSuffix cmd (str "nats-server") then str "nats"
          else if HasSuffix cmd (str "java") then str "java"
          else if HasSuffix cmd (str "ollama") then str "ollama"
          else if HasSuffix cmd (str "fdbserver") then str "foundationdb"
          else if Contains cmd (str "victoria-metrics") || Contains cmd (str "vmstorage") ||
              Contains cmd (str "vminsert") || Contains cmd (str "vmselect") then str "victoria-metrics"
          else if Contains cmd (str "victoria-logs") then str "victoria-logs"
          else if MatchString phpCmd cmd then str "php"
          else if MatchString pythonCmd cmd then str "python"
          else if MatchString nodejsCmd cmd then str "nodejs"
          else if MatchString rubyCmd cmd then str "ruby"
          else [])
      end
  end.

Definition guessApplicationTypeByExe (exe : bytes) : bytes :=
  if MatchString phpCmd exe then str "php"
  else if MatchString pythonCmd exe then str "python"
  else if MatchString nodejsCmd exe then str "nodejs"
  else if MatchString rubyCmd exe then str "ruby"
  else [].

(** ** Instrumentation *)

(** [instrumentPython]: whether the process is instrumented. *)
Definition instrumentPython (cmdline : bytes) : go bool :=
  let parts := Split cmdline 0 in
  let cmd := hd [] parts in
  if (length cmd =? 0)%nat then Val false
  else
  match command_name cmd with
  | Panic => Panic
  | Val cmd => Val (MatchString pythonCmd cmd)
  end.

(** [instrumentNodejs] *)
Definition instrumentNodejs (exe : bytes) : bool := MatchString nodejsCmd exe.

(** What [instrument] does with what the iterations of its loop read, the link to the
    executable and the command line: whether the process is instrumented as Python
    and as Node.js.  The list ends when the process is closed. *)
Fixpoint instrument (reads : list (option bytes * bytes)) : go (bool * bool) :=
  match reads with
  | [] => Val (false, false)
  | (None, _) :: _ => Val (false, false)
  | (Some dest, cmdline) :: reads =>
      if negb (bytes_eqb dest (str "/")) && (0 <? length cmdline)%nat then
        match instrumentPython cmdline with
        | Panic => Panic
        | Val python => Val (python, instrumentNodejs dest)
        end
      else instrument reads
  end.

(** ** What they recognise *)

(** [name] at the end of [s], with a version number after it. *)
Definition versioned (name s : bytes) : Prop :=
  exists pre major dot minor, s = pre ++ name ++ major ++ dot ++ minor /\
    forallb digit major = true /\ (dot = [] \/ dot = str ".") /\ forallb digit minor = true.

Lemma version_spec m rest :
  Matches version m rest <->
  rest = [] /\ exists major dot minor, m = major ++ dot ++ minor /\
    forallb digit major = true /\ (dot = [] \/ dot = str ".") /\ forallb digit minor = true.
Proof.
  split.
  - intros Hm. inversion Hm as [| | | |? a ? m1 ? Ha H1| | | |]; subst.
    inversion H1 as [| | | | |l ? ? m2 ? Hl H2| | |]; subst.
    inversion H2 as [| | | |? b ? m3 ? Hb H3| | | |]; subst. inversion H3; subst.
    split; [done|]. exists a, l, b. rewrite app_nil_r. destruct Hl as [<- | [<- | []]]; auto.
  - intros (-> & major & dot & minor & -> & H1 & Hd & H2). unfold version.
    apply M_star; [done|]. apply M_one; [destruct Hd as [-> | ->]; cbn; auto|].
    rewrite <-(app_nil_r minor). apply M_star; [done|]. apply M_end, M_nil.
Qed.

(** The leading [.*] does not matter: a match may start anywhere. *)
Lemma MatchString_named name s :
  MatchString (Star not_newline :: Lit name :: version) s = true <-> versioned name s.
Proof.
  rewrite MatchString_spec. split.
  - intros (a & m & rest & -> & Hm). inversion Hm as [| | | |? b ? m1 ? Hb H1| | | |]; subst.
    inversion H1 as [|? ? m2 ? H2| | | | | | |]; subst.
    apply version_spec in H2 as (-> & major & dot & minor & -> & Hv).
    exists (a ++ b), major, dot, minor. by rewrite app_nil_r, <-!app_assoc.
  - intros (pre & major & dot & minor & -> & Hv). exists pre, (name ++ major ++ dot ++ minor), [].
    rewrite app_nil_r. split; [done|]. apply (M_star _ []); [done|]. apply M_lit, version_spec. split; [done|].
    by exists major, dot, minor.
Qed.

Lemma MatchString_nodejs s :
  MatchString nodejsCmd s = true <-> versioned (str "node") s \/ versioned (str "nodejs") s.
Proof.
  rewrite MatchString_spec. split.
  - intros (a & m & rest & -> & Hm). inversion Hm as [| | | |? b ? m1 ? Hb H1| | | |]; subst.
    inversion H1 as [|? ? m2 ? H2| | | | | | |]; subst. inversion H2 as [| | | | | |? ? ? ? H3| |]; subst.
    inversion H3 as [| | | | |l ? ? m3 ? Hl H4| | |]; subst. inversion H4 as [| | | | | | |? ? ? ? H5|]; subst.
    apply version_spec in H5 as (-> & major & dot & minor & -> & Hv).
    destruct Hl as [<- | [<- | []]]; [right|left]; exists (a ++ b), major, dot, minor;
      by rewrite app_nil_r, <-!app_assoc.
  - assert (forall js, In js [str "js"; []] -> versioned (str "node" ++ js) s ->
      exists a m rest, s = a ++ m ++ rest /\ Matches nodejsCmd m rest) as Hjs.
    { intros js Hjs (pre & major & dot & minor & -> & Hv).
      exists pre, (str "node" ++ js ++ major ++ dot ++ minor), [].
      split; [by rewrite app_nil_r, <-!app_assoc|].
      refine (M_star _ [] _ (str "node" ++ js ++ major ++ dot ++ minor) [] eq_refl _).
      apply (M_lit (str "node")), M_open, M_one; [done|]. apply M_close, version_spec. split; [done|].
      by exists major, dot, minor. }
    intros [Hv|Hv]; [apply (Hjs [])|apply (Hjs (str "js"))]; cbn; auto.
Qed.

Lemma command_name_panics arg : command_name arg = Panic <-> blank arg.
Proof. rewrite <-Fields_nil. unfold command_name. by destruct (Fields arg). Qed.

(** A command line whose first argument is there but holds nothing but white space. *)
Definition nameless (cmdline : bytes) : Prop :=
  hd [] (Split cmdline 0) <> [] /\ blank (hd [] (Split cmdline 0)).

Lemma instrumentPython_spec cmdline :
  (instrumentPython cmdline = Panic <-> nameless cmdline) /\
  (instrumentPython cmdline = Val true <->
   exists name, command_name (hd [] (Split cmdline 0)) = Val name /\ versioned (str "python") name).
Proof.
  unfold instrumentPython, nameless. destruct (hd [] (Split cmdline 0)) as [|b arg].
  - cbn. split; [split; [done|by intros []]|]. split; [done|]. by intros (name & [=] & _).
  - cbn [length Nat.eqb]. rewrite <-(command_name_panics (b :: arg)). destruct (command_name _) as [|name].
    + split; [by split|]. split; [done|]. by intros (? & [=] & _).
    + split; [split; [done|by intros [_ [=]]]|]. split.
      * intros [= E]. exists name. split; [done|]. by apply MatchString_named.
      * intros (? & [= <-] & E%MatchString_named). by f_equal.
Qed.

(** What an iteration of [instrument] reads while it waits: an executable or a command line
    that is not there yet. *)
Definition waiting (w : option bytes * bytes) : Prop := w.1 = Some (str "/") \/ is_Some w.1 /\ w.2 = [].

(** The command line [instrument] comes to look at is nameless. *)
Definition sees_nameless (reads : list (option bytes * bytes)) : Prop :=
  exists waits exe cmdline rest, reads = waits ++ (Some exe, cmdline) :: rest /\
    Forall waiting waits /\ exe <> str "/" /\ nameless cmdline.

Lemma instrument_panics reads : instrument reads = Panic <-> sees_nameless reads.
Proof.
  unfold sees_nameless. split.
  - induction reads as [|[[exe|] cmdline] reads IH]; cbn [instrument]; [done| |done].
    unfold bytes_eqb. case_bool_decide as He; cbn [negb andb].
    + intros (waits & e & c & rest & -> & Hw & Hexe & Hnm)%IH. exists ((Some exe, cmdline) :: waits), e, c, rest.
      split_and!; try done. constructor; [|done]. left. by rewrite <-He.
    + destruct cmdline as [|b cmdline]; cbn [length Nat.ltb Nat.leb].
      * intros (waits & e & c & rest & -> & Hw & Hexe & Hnm)%IH. exists ((Some exe, []) :: waits), e, c, rest.
        split_and!; try done. constructor; [|done]. right. split; [by eexists|done].
      * destruct (instrumentPython (b :: cmdline)) eqn:E; [|done]. intros _. exists [], exe, (b :: cmdline), reads.
        split_and!; [done..|]. by apply instrumentPython_spec.
  - intros (waits & exe & cmdline & rest & -> & Hw & He & Hn). assert (cmdline <> []) as Hc by by intros ->; destruct Hn.
    induction Hw as [|[e c] waits Hwait _ IH]; cbn [app instrument].
    + unfold bytes_eqb. rewrite bool_decide_eq_false_2 by done. destruct cmdline; [done|]. cbn [negb andb length Nat.ltb Nat.leb].
      apply instrumentPython_spec in Hn. by rewrite Hn.
    + cbn [fst snd] in Hwait. destruct Hwait as [Hx | [[d Hx] Hy]]; cbn in Hx; subst; [done|]. cbn in Hy. subst. by rewrite andb_false_r.
Qed.

(** A process is instrumented as Python exactly if the name of its command is one of
    python, python3, python3.11 and so on, behind any path, and as Node.js if its
    executable is called node or nodejs; before its executable and its command line
    can be read it waits; and the agent crashes, whatever the executable is, exactly
    if the first argument of the command line is there but blank. *)
Theorem instrument_outcome waits exe cmdline rest :
  Forall (fun w => w.1 = Some (str "/") \/ is_Some w.1 /\ w.2 = []) waits ->
  exe <> str "/" -> cmdline <> [] ->
  let outcome := instrument (waits ++ (Some exe, cmdline) :: rest) in
  (outcome = Panic <-> nameless cmdline) /\
  forall python nodejs, outcome = Val (python, nodejs) ->
    (python = true <->
     exists name, command_name (hd [] (Split cmdline 0)) = Val name /\ versioned (str "python") name) /\
    (nodejs = true <-> versioned (str "node") exe \/ versioned (str "nodejs") exe).
Proof.
  intros Hw Hexe Hcmd.
  assert (instrument (waits ++ (Some exe, cmdline) :: rest) =
          match instrumentPython cmdline with Panic => Panic | Val p => Val (p, instrumentNodejs exe) end) as ->.
  { induction Hw as [|[e c] waits Hwait _ IH].
    - cbn [app instrument]. unfold bytes_eqb. rewrite bool_decide_eq_false_2 by done. by destruct cmdline.
    - cbn [app instrument]. cbn [fst snd] in Hwait.
      destruct Hwait as [-> | [[d ->] ->]]; [done|]. by rewrite andb_false_r. }
  destruct (instrumentPython_spec cmdline) as [Hp Ht]. cbv zeta. rewrite <-Hp.
  destruct (instrumentPython cmdline) as [|b]; (split; [by split|]); intros python nodejs; [done|].
  intros [= -> <-]. rewrite <-Ht, <-MatchString_nodejs. split; [|done]. split; [by intros ->|by intros [=]].
Qed.

(** Guessing the type of an application crashes the agent exactly if the first
    argument of its command line is there but blank. *)
Theorem guess_panics cmdline : guessApplicationTypeByCmdline cmdline = Panic <-> nameless cmdline.
Proof.
  unfold guessApplicationTypeByCmdline, nameless. destruct (Split cmdline 0) as [|arg parts]; cbn [hd].
  - split; [done|by intros []].
  - destruct arg as [|b arg]; cbn [length Nat.eqb]; [split; [done|by intros []]|].
    rewrite <-(command_name_panics (b :: arg)). destruct (command_name _); [by split|].
    split; [done|by intros [_ [=]]].
Qed.

Lemma instrument_outcome_witness :
  let cmdline := str "/usr/bin/python3.11" ++ [0] ++ str "app.py" in
  let outcome := instrument ([(Some (str "/"), [])] ++ [(Some (str "/usr/bin/python3.11"), cmdline)]) in
  outcome = Val (true, false) /\
  (exists name, command_name (hd [] (Split cmdline 0)) = Val name /\ versioned (str "python") name) /\
  instrument ([] ++ [(Some (str "/bin/sh"), str "  " ++ [0] ++ str "-c")]) = Panic.
Proof.
  intros cmdline outcome. assert (outcome = Val (true, false)) as E by by vm_compute. split; [done|].
  split.
  - refine (proj1 (proj1 (proj2 (instrument_outcome [(Some (str "/"), [])] (str "/usr/bin/python3.11") cmdline []
      _ _ _) true false E)) eq_refl); [by repeat constructor|by vm_compute|done].
  - apply (proj2 (proj1 (instrument_outcome [] (str "/bin/sh") (str "  " ++ [0] ++ str "-c") []
      (Forall_nil_2 _) ltac:(by vm_compute) ltac:(done)))).
    split; [done|]. exists [[32]; [32]]. split; [|done]. repeat constructor; cbn; tauto.
Defined.

End Apps.
