(* ===== verification/Cgroup.v ===== *)
(** * Control groups

    cgroup/cgroup.go: reading /proc/<pid>/cgroup and telling from the path of the
    control group what kind of container a process runs in and its id. *)

From S2P Require Import Prelude GoLib GoText.

Module Cgroup.
Import GoText.

(** ** Expressions *)

Definition hex64 : list item := [Times lower_digit 64].
Definition dockerIdRegexp : list item := group 1 hex64.
Definition crioIdRegexp : list item := Lit (str "crio-") :: group 1 hex64.
Definition containerdIdRegexp : list item :=
  Lit (str "cri-containerd") :: Times (in_ranges [(45, 45); (58, 58)]) 1 :: group 1 hex64.
Definition lxcIdRegexp : list item := Lit (str "/lxc/") :: group 1 [Plus not_slash].
Definition systemSliceIdRegexp : list item :=
  group 1 ([Lit (str "/")] ++ group 2 [OneOf [str "system"; str "runtime"; str "reserved"]] ++
           [Lit (str ".slice/")] ++ group 3 [Plus not_slash]).
Definition talosIdRegexp : list item :=
  [Lit (str "/")] ++ group 1 [OneOf [str "system"; str "podruntime"]] ++
  [Lit (str "/")] ++ group 2 [Plus not_slash].
Definition lxcPayloadRegexp : list item := Lit (str "/lxc.payload.") :: group 1 [Plus not_slash].

(** ** Types *)

Inductive ContainerType :=
  | ContainerTypeUnknown | ContainerTypeStandaloneProcess | ContainerTypeDocker | ContainerTypeCrio
  | ContainerTypeContainerd | ContainerTypeLxc | ContainerTypeSystemdService | ContainerTypeSandbox
  | ContainerTypeTalosRuntime.

#[export] Instance ContainerType_eq_dec : EqDecision ContainerType.
Proof. solve_decision. Defined.

Record Cgroup := MkCgroup {
  Id : bytes; ContainerType_ : ContainerType; ContainerId : bytes; subsystems : gmap bytes bytes
}.

(** ** Identification *)

Definition sub (k : bytes) (m : gmap bytes bytes) : bytes := default [] (m !! k).

Definition getId (m : gmap bytes bytes) : bytes :=
  let v2 := sub [] m in
  let cpu := sub (str "cpu") m in
  let mem := sub (str "memory") m in
  let name := sub (str "name=systemd") m in
  if HasPrefix cpu (str "/kubepods") then cpu
  else if HasPrefix mem (str "/kubepods") then mem
  else
  let id := v2 in
  let id := if bytes_eqb id [] then cpu else id in
  let id := if bytes_eqb id [] then mem else id in
  if bytes_eqb id [] then name else id.

(** The kind and the id of a container; [None] is an error. *)
Definition containerByCgroup (cgroupPath : bytes) : option (ContainerType * bytes) :=
  let parts := Split (TrimLeft cgroupPath slash) slash in
  match parts with
  | [] => Some (ContainerTypeStandaloneProcess, [])
  | prefix :: _ =>
    if bytes_eqb cgroupPath (str "/init") then Some (ContainerTypeTalosRuntime, str "/talos/init")
    else if bytes_eqb prefix (str "user.slice") || bytes_eqb prefix (str "init.scope")
    then Some (ContainerTypeStandaloneProcess, [])
    else if bytes_eqb prefix (str "docker") ||
            (bytes_eqb prefix (str "system.slice") && (1 <? length parts)%nat &&
             HasPrefix (nth 1 parts []) (str "docker-")) then
      let? m := FindStringSubmatch dockerIdRegexp cgroupPath else None in
      Some (ContainerTypeDocker, m 1%nat)
    else if Contains cgroupPath (str "kubepods") then
      match FindStringSubmatch crioIdRegexp cgroupPath with
      | Some m => Some (ContainerTypeCrio, m 1%nat)
      | None =>
        if Contains cgroupPath (str "crio-conmon-") then Some (ContainerTypeUnknown, [])
        else
        match FindStringSubmatch containerdIdRegexp cgroupPath with
        | Some m => Some (ContainerTypeContainerd, m 1%nat)
        | None =>
          match FindStringSubmatch dockerIdRegexp cgroupPath with
          | None => Some (ContainerTypeSandbox, [])
          | Some m => Some (ContainerTypeDocker, m 1%nat)
          end
        end
      end
    else if bytes_eqb prefix (str "system") || bytes_eqb prefix (str "podruntime") then
      let? m := FindStringSubmatch talosIdRegexp cgroupPath else None in
      Some (ContainerTypeTalosRuntime, path_Join (str "/talos/") (m 2%nat))
    else if bytes_eqb prefix (str "system.slice") || bytes_eqb prefix (str "runtime.slice") ||
            bytes_eqb prefix (str "reserved.slice") then
      let? m := FindStringSubmatch systemSliceIdRegexp cgroupPath else None in
      Some (ContainerTypeSystemdService, ReplaceAll (m 1%nat) (str "\x2d") (str "-"))
    else if bytes_eqb prefix (str "lxc") then
      let? m := FindStringSubmatch lxcIdRegexp cgroupPath else None in
      Some (ContainerTypeLxc, m 1%nat)
    else if HasPrefix prefix (str "lxc.payload.") then
      let? m := FindStringSubmatch lxcPayloadRegexp cgroupPath else None in
      Some (ContainerTypeLxc, str "/lxc/" ++ m 1%nat)
    else if (length parts <? 2)%nat then Some (ContainerTypeStandaloneProcess, [])
    else None
  end.

(** ** The file of a process *)

(** The path of a line, without what follows the directory of an LXC payload. *)
Definition line_path (base path : bytes) : bytes :=
  let path := if HasPrefix path (str "/lxc.payload.") then slash :: nth 1 (Split path slash) [] else path in
  path_Join base path.

Definition add_line (base : bytes) (m : gmap bytes bytes) (line : bytes) : gmap bytes bytes :=
  match SplitN 3 line 58 with
  | [_; types; path] =>
      foldl (fun m cgType =>
        let p := line_path base path in
        if bytes_eqb p (str "/") || bytes_eqb p (str "/init.scope") then m
        else <[cgType := p]> m) m (Split types 44)
  | _ => m
  end.

(** [data] is the contents of the file, [base] the [baseCgroupPath]. *)
Definition NewFromProcessCgroupFile (base data : bytes) : option Cgroup :=
  let m := foldl (add_line base) ∅ (Split data 10) in
  let id := getId m in
  let? (t, cid) := containerByCgroup id else None in
  Some (MkCgroup id t cid m).

(** ** Ids *)

(** An id of 64 characters that is a part of the path. *)
Definition is_id (path id : bytes) : Prop :=
  length id = 64%nat /\ forallb lower_digit id = true /\ exists before after, path = before ++ id ++ after.

Lemma group_is_id path pos g g' :
  match_at (group 1 hex64) (drop pos path) pos g = Some g' ->
  is_id path (group_text path g' 1).
Proof.
  intros (Hl & Hp & Ht)%match_group_times. split_and!; [done|done|]. rewrite Ht.
  exists (take pos path), (drop 64 (drop pos path)). by rewrite take_drop, take_drop.
Qed.

(** The three expressions end in such a group. *)
Lemma submatch_is_id r path m :
  (r = dockerIdRegexp \/ r = crioIdRegexp \/ r = containerdIdRegexp) ->
  FindStringSubmatch r path = Some m -> is_id path (m 1%nat).
Proof.
  intros Hr. unfold FindStringSubmatch. destruct (find_from r path 0) as [g|] eqn:E; [|done]. intros [= <-].
  destruct (find_from_sound r path 0 g E) as [j Hj].
  destruct Hr as [-> | [-> | ->]]; [by eapply group_is_id| |]; cbn [crioIdRegexp containerdIdRegexp match_at] in Hj.
  - destruct (starts_with _ _); [|done]. rewrite drop_drop in Hj. by eapply group_is_id.
  - destruct (starts_with _ _); [|done]. destruct (_ && _); [|done]. rewrite !drop_drop in Hj.
    rewrite ?Nat.add_assoc in Hj. by eapply group_is_id.
Qed.

(** The id a Docker, CRI-O or containerd container is looked up by is never made up:
    it is a run of 64 lower-case letters and digits of the path of the control group. *)
Theorem container_id_shape path t id :
  containerByCgroup path = Some (t, id) ->
  t = ContainerTypeDocker \/ t = ContainerTypeCrio \/ t = ContainerTypeContainerd -> is_id path id.
Proof.
  intros E Ht. unfold containerByCgroup in E.
  repeat (case_match; simplify_eq/=; try (by destruct Ht as [? | [? | ?]]));
    (eapply submatch_is_id; [|eassumption]; auto).
Qed.

Lemma container_id_shape_witness :
  is_id (str "/kubepods/burstable/pod9729/17db96a24ae1e9dd57143e62b1cb0d2d35e693c65c774c7470e87b0572e07c1a")
    (str "17db96a24ae1e9dd57143e62b1cb0d2d35e693c65c774c7470e87b0572e07c1a").
Proof. apply (container_id_shape _ ContainerTypeDocker); [by vm_compute|by left]. Defined.

End Cgroup.
