(* ===== verification/Net.v ===== *)
(** * Addresses, filters and destination keys

    common/net.go: which connections the agent tracks (the ports and networks it
    skips) and under which key it accounts them.  Addresses are those of the
    package [inet.af/netaddr], which is not part of the repository: its types and
    functions are the class [Netaddr], and what its documentation promises of them
    the class [NetaddrLaws]. *)

From S2P Require Import Prelude GoLib.

(** ** Package netaddr *)

Class Netaddr := {
  IP : Type;
  IP_eq_dec :: EqDecision IP;
  IP_countable :: Countable IP;
  IP_zero : IP;
  FromStdIP : bytes -> option IP;
  IPFrom4 : bytes -> IP;
  IPFrom16 : bytes -> IP;
  Is4 : IP -> bool;
  Is6 : IP -> bool;
  As4 : IP -> bytes;
  IsLoopback : IP -> bool;
  IsPrivate : IP -> bool;
  IsLinkLocalUnicast : IP -> bool;
  IsUnspecified : IP -> bool;
  IP_String : IP -> bytes;
  IPPrefix : Type;
  IPPrefixFrom : IP -> Z -> IPPrefix;
  Prefix_String : IPPrefix -> bytes;
  Contains : IPPrefix -> IP -> bool
}.

(** The prefix of all the bits of an address. *)
Definition host_bits `{Netaddr} (ip : IP) : Z := if Is6 ip then 128 else 32.

(** A full-length prefix contains its address and no other, and its string
    determines it. *)
Class NetaddrLaws `(Netaddr) := {
  Contains_host b ip : FromStdIP b = Some ip -> Contains (IPPrefixFrom ip (host_bits ip)) ip = true;
  Contains_host_only ip ip' : Contains (IPPrefixFrom ip (host_bits ip)) ip' = true -> ip' = ip;
  Prefix_String_inj p q : Prefix_String p = Prefix_String q -> p = q
}.

Section net.
Context `{Netaddr}.

(** [netaddr.IPPort]: an address and a port. *)
Record IPPort := IPPortFrom { addr_ip : IP; addr_port : Z }.

#[export] Instance IPPort_eq_dec : EqDecision IPPort.
Proof. solve_decision. Defined.
#[export] Instance IPPort_countable : Countable IPPort.
Proof.
  apply (inj_countable' (fun x => (addr_ip x, addr_port x)) (fun '(a, b) => IPPortFrom a b)).
  by intros [].
Defined.

Definition IPPort_zero : IPPort := IPPortFrom IP_zero 0.

(** ** Private and external addresses *)

Definition IsIpPrivate (ip : IP) : bool :=
  if IsPrivate ip then true
  else if Is4 ip then
    let parts := As4 ip in (parts.[0] =? 100) && (Z.land parts.[1] 0xc0 =? 64)
  else false.

Definition IsIpExternal (ip : IP) : bool := negb (IsLoopback ip) && negb (IsIpPrivate ip).

(** ** Connection filter *)

(** [connectionFilter.whitelist]: the methods have a value receiver, but a map is
    a reference, so their updates persist: the map is threaded. *)
Abbreviation connectionFilter := (gmap bytes IPPrefix).

Definition WhitelistPrefix (p : IPPrefix) (f : connectionFilter) : connectionFilter :=
  match f !! Prefix_String p with
  | Some _ => f
  | None => <[Prefix_String p := p]> f
  end.

Definition WhitelistIP (ip : IP) (f : connectionFilter) : connectionFilter :=
  WhitelistPrefix (IPPrefixFrom ip (if Is6 ip then 128 else 32)) f.

(** [for _, prefix := range f.whitelist { if prefix.Contains(ip) ... }]: whether
    some entry contains the address, in whatever order they are visited. *)
Definition whitelisted (f : connectionFilter) (ip : IP) : bool :=
  existsb (fun kp => Contains kp.2 ip) (map_to_list f).

Definition ShouldBeSkipped (dst actualDst : IP) (f : connectionFilter) : bool * connectionFilter :=
  if IsLinkLocalUnicast dst then (true, f)
  else if IsIpPrivate dst || IsLoopback dst then (false, f)
  else if whitelisted f dst then (false, f)
  else if IsIpPrivate actualDst || IsLoopback actualDst then (false, WhitelistIP dst f)
  else if whitelisted f actualDst then (false, WhitelistIP dst f)
  else (true, f).

(** ** Port filter *)

Record portFilter := PortFilter { pf_from : Z; pf_to : Z }.

(** [init] on the flag [ephemeral-port-range]: [None] is the exit on a malformed
    range, [Some None] no filter. *)
Definition parse_port_range (r : bytes) : option (option portFilter) :=
  if bytes_eqb r [] then Some None
  else match Split r 45 with
       | [a; b] =>
           let? from := ParseUint 16 a else None in
           let? to := ParseUint 16 b else None in
           if from >? to then None else Some (Some (PortFilter from to))
       | _ => None
       end.

Definition port_ShouldBeSkipped (f : option portFilter) (port : Z) : bool :=
  match f with
  | None => false
  | Some f => (port >=? pf_from f) && (port <=? pf_to f)
  end.

(** ** Destination keys *)

Record HostPort := MkHostPort { hp_host : bytes; hp_ip : IP; hp_port : Z }.

Definition HostPortFromIPPort (a : IPPort) : HostPort := MkHostPort [] (addr_ip a) (addr_port a).
Definition HostPortWithEmptyIP (host : bytes) (port : Z) : HostPort := MkHostPort host IP_zero port.
Definition HostPort_zero : HostPort := MkHostPort [] IP_zero 0.

Definition Host (hp : HostPort) : bytes :=
  if negb (bool_decide (hp_ip hp = IP_zero)) then IP_String (hp_ip hp) else hp_host hp.

(** [net.JoinHostPort]: a host with a colon is bracketed. *)
Definition JoinHostPort (host port : bytes) : bytes :=
  if existsb (Z.eqb 58) host then str "[" ++ host ++ str "]:" ++ port else host ++ str ":" ++ port.

Definition HostPort_String (hp : HostPort) : bytes :=
  if hp_port hp =? 0 then [] else JoinHostPort (Host hp) (FormatUint (hp_port hp)).

Record DestinationKey := MkDestinationKey { destination : HostPort; actualDestination : HostPort }.

Definition ActualDestinationIfKnown (dk : DestinationKey) : HostPort :=
  if negb (hp_port (actualDestination dk) =? 0) then actualDestination dk else destination dk.

Record Domain := MkDomain { FQDN : bytes; SpecifyIP : bool }.

Definition NewDomain (fqdn : bytes) (ips : list IP) : Domain :=
  let specify :=
    if (1 <? length ips)%nat then
      let containsPrivateIPs := existsb (fun ip => negb (IsIpExternal ip)) ips in
      containsPrivateIPs
    else true in
  MkDomain fqdn specify.

Definition NewDestinationKey (dst actualDst : IPPort) (domain : option Domain) : DestinationKey :=
  match domain with
  | Some d =>
      if IsIpExternal (addr_ip actualDst) && negb (SpecifyIP d)
      then MkDestinationKey (HostPortWithEmptyIP (FQDN d) (addr_port dst)) HostPort_zero
      else MkDestinationKey (HostPortFromIPPort dst) (HostPortFromIPPort actualDst)
  | None => MkDestinationKey (HostPortFromIPPort dst) (HostPortFromIPPort actualDst)
  end.

#[export] Instance HostPort_eq_dec : EqDecision HostPort.
Proof. solve_decision. Defined.
#[export] Instance HostPort_countable : Countable HostPort.
Proof.
  apply (inj_countable' (fun x => (hp_host x, hp_ip x, hp_port x))
           (fun '(a, b, c) => MkHostPort a b c)).
  by intros [].
Defined.
#[export] Instance DestinationKey_eq_dec : EqDecision DestinationKey.
Proof. solve_decision. Defined.
#[export] Instance DestinationKey_countable : Countable DestinationKey.
Proof.
  apply (inj_countable' (fun x => (destination x, actualDestination x))
           (fun '(a, b) => MkDestinationKey a b)).
  by intros [].
Defined.

(** ** Domain names *)

Definition tlds : list bytes := [str "com"; str "net"; str "org"; str "io"].

(** The loop of [NormalizeFQDN] over the name: [buf] the label being read,
    [parts] the dots seen, [seen] the bytes before the current one.  The bytes of
    a multi-byte character are no dots, and a label that holds one is none of the
    names looked for, so the loop may go over bytes. *)
Fixpoint normalize_loop (fqdn : bytes) (seen buf : bytes) (parts : nat) (s : bytes) : bytes :=
  match s with
  | [] => fqdn
  | r :: s =>
      if negb (r =? 46) then normalize_loop fqdn (seen ++ [r]) (buf ++ [r]) parts s
      else if (0 <? parts)%nat && existsb (bytes_eqb buf) tlds
      then seen ++ str ".search_path_suffix"
      else normalize_loop fqdn (seen ++ [r]) [] (S parts) s
  end.

Definition NormalizeFQDN (fqdn requestType : bytes) : bytes :=
  if bytes_eqb requestType (str "TypePTR") then str "IP.in-addr.arpa"
  else
    let ec2 :=
      if HasPrefix fqdn (str "ip-") then
        match Index fqdn (str ".") with
        | Some idx =>
            if (0 <? idx)%nat && HasPrefix (drop (idx + 1) fqdn) (str "ec2")
            then Some (str "IP.ec2" ++ drop (idx + 4) fqdn) else None
        | None => None
        end
      else None in
    match ec2 with
    | Some r => r
    | None => normalize_loop fqdn [] [] 0 fqdn
    end.

(** ** HTTP path filter *)

(** [glob.Glob]s are represented by their [Match]. *)
Definition httpFilter : Type := list (bytes -> bool).
Definition http_ShouldBeSkipped (f : httpFilter) (path : bytes) : bool :=
  existsb (fun g => g path) f.

End net.

#[local] Abbreviation connectionFilter := (gmap bytes IPPrefix).

(** ** The connection filter as a set of addresses *)

Section filter.
Context `{NetaddrLaws}.

(** The addresses a connection may go to. *)
Definition allowed (f : connectionFilter) (ip : IP) : bool :=
  IsIpPrivate ip || IsLoopback ip || whitelisted f ip.

(** What the filter promises: a link-local destination is skipped; any other passes
    if it or the address behind it is allowed, and is allowed from then on. *)
Definition spec_step (A : IP -> bool) (dst actualDst : IP) : bool * (IP -> bool) :=
  if IsLinkLocalUnicast dst then (true, A)
  else if A dst || A actualDst then (false, fun ip => A ip || bool_decide (ip = dst))
  else (true, A).

Fixpoint spec_run (A : IP -> bool) (calls : list (IP * IP)) : list bool * (IP -> bool) :=
  match calls with
  | [] => ([], A)
  | (dst, actualDst) :: calls =>
      let (b, A) := spec_step A dst actualDst in
      let (bs, A) := spec_run A calls in (b :: bs, A)
  end.

Fixpoint filter_run (f : connectionFilter) (calls : list (IP * IP)) : list bool * connectionFilter :=
  match calls with
  | [] => ([], f)
  | (dst, actualDst) :: calls =>
      let (b, f) := ShouldBeSkipped dst actualDst f in
      let (bs, f) := filter_run f calls in (b :: bs, f)
  end.

(** Every prefix is stored under its string. *)
Definition filter_ok (f : connectionFilter) : Prop :=
  map_Forall (fun k p => k = Prefix_String p) f.

Lemma filter_ok_WhitelistPrefix p f : filter_ok f -> filter_ok (WhitelistPrefix p f).
Proof. intros Hf. unfold WhitelistPrefix. case_match; [done|]. by apply map_Forall_insert_2. Qed.

Lemma whitelisted_true f ip :
  whitelisted f ip = true <-> exists k p, f !! k = Some p /\ Contains p ip = true.
Proof.
  unfold whitelisted. rewrite existsb_exists. split.
  - intros ([k p] & Hin & Hc). exists k, p. split; [|done].
    by apply elem_of_map_to_list, list_elem_of_In.
  - intros (k & p & Hk & Hc). exists (k, p). split; [|done].
    by apply list_elem_of_In, elem_of_map_to_list.
Qed.

Lemma whitelisted_WhitelistPrefix p f ip :
  filter_ok f -> whitelisted (WhitelistPrefix p f) ip = whitelisted f ip || Contains p ip.
Proof.
  intros Hf. apply eq_true_iff_eq. rewrite orb_true_iff, !whitelisted_true.
  unfold WhitelistPrefix. destruct (f !! Prefix_String p) as [q|] eqn:E.
  - assert (q = p) as -> by (symmetry; by apply Prefix_String_inj, (Hf _ _ E)).
    split; [by left|]. intros [?|Hc]; [done|]. by exists (Prefix_String p), p.
  - split.
    + intros (k & q & [[<- <-]|[? ?]]%lookup_insert_Some & Hc); [by right|]. left. eauto.
    + intros [(k & q & Hk & Hc)|Hc].
      * exists k, q. split; [|done]. apply lookup_insert_Some. right. split; [congruence|done].
      * exists (Prefix_String p), p. by rewrite lookup_insert_eq.
Qed.

Lemma whitelisted_WhitelistIP b dst f ip :
  FromStdIP b = Some dst -> filter_ok f ->
  whitelisted (WhitelistIP dst f) ip = whitelisted f ip || bool_decide (ip = dst).
Proof.
  intros Hb Hf. unfold WhitelistIP. fold (host_bits dst).
  rewrite whitelisted_WhitelistPrefix by done. f_equal. apply eq_true_iff_eq.
  rewrite bool_decide_eq_true. split; [apply Contains_host_only|].
  intros ->. by eapply Contains_host.
Qed.

(** One call: the verdict of the specification, and a filter that stands for the
    same set. *)
Lemma ShouldBeSkipped_step b dst actualDst f A :
  FromStdIP b = Some dst -> filter_ok f -> (forall ip, allowed f ip = A ip) ->
  let (r, f') := ShouldBeSkipped dst actualDst f in
  let (r', A') := spec_step A dst actualDst in
  r = r' /\ filter_ok f' /\ (forall ip, allowed f' ip = A' ip).
Proof.
  intros Hb Hf HA. unfold ShouldBeSkipped, spec_step. rewrite <-!HA.
  destruct (IsLinkLocalUnicast dst); [done|].
  assert (filter_ok (WhitelistIP dst f)) as Hw by (by apply filter_ok_WhitelistPrefix).
  assert (forall ip, allowed (WhitelistIP dst f) ip = A ip || bool_decide (ip = dst)) as Hw'.
  { intros ip. unfold allowed. rewrite (whitelisted_WhitelistIP b) by done.
    rewrite orb_assoc. by rewrite <-HA. }
  assert (allowed f dst = true -> forall ip, A ip = A ip || bool_decide (ip = dst)) as Hd.
  { intros Hd ip. case_bool_decide; [|by rewrite orb_false_r]. subst. by rewrite <-HA, Hd. }
  destruct (allowed f dst) eqn:Ed; unfold allowed in Ed.
  - cbn [orb]. destruct (IsIpPrivate dst || IsLoopback dst); [by split_and!; [..|intros; rewrite HA; auto]|].
    cbn in Ed. rewrite Ed. split_and!; [done..|intros; rewrite HA; auto].
  - apply orb_false_iff in Ed as [-> ->]. cbn [orb]. unfold allowed.
    destruct (IsIpPrivate actualDst || IsLoopback actualDst); [done|].
    by destruct (whitelisted f actualDst).
Qed.

Lemma filter_run_spec f A calls :
  filter_ok f -> Forall (fun c => exists b, FromStdIP b = Some c.1) calls ->
  (forall ip, allowed f ip = A ip) ->
  (filter_run f calls).1 = (spec_run A calls).1 /\
  forall ip, allowed (filter_run f calls).2 ip = (spec_run A calls).2 ip.
Proof.
  intros Hf Hc. revert f A Hf.
  induction Hc as [|[dst act] calls [b Hb] _ IH]; intros f A Hf HA; [done|].
  cbn [filter_run spec_run]. pose proof (ShouldBeSkipped_step b dst act f A Hb Hf HA) as Hs.
  destruct (ShouldBeSkipped dst act f) as [r f'], (spec_step A dst act) as [r' A'].
  destruct Hs as (<- & Hf' & HA'). destruct (IH f' A' Hf' HA') as [IH1 IH2].
  destruct (filter_run f' calls), (spec_run A' calls). cbn in *. by rewrite IH1.
Qed.

(** Over any sequence of connections the filter answers as the set of allowed
    addresses: a link-local destination is skipped, any other passes exactly if it
    or the address behind it is private, local, in a configured network, or the
    destination of a connection let through earlier; and once let through it stays
    allowed. *)
Theorem connection_filter_refines f calls :
  filter_ok f -> Forall (fun c => exists b, FromStdIP b = Some c.1) calls ->
  (filter_run f calls).1 = (spec_run (allowed f) calls).1 /\
  forall ip, allowed (filter_run f calls).2 ip = (spec_run (allowed f) calls).2 ip.
Proof. intros Hf Hc. by apply filter_run_spec. Qed.

End filter.

(** ** Domain names by labels *)

Definition dotted (ls : list bytes) : bytes := concat (map (fun l => l ++ [46]) ls).

(** The labels up to the first top-level domain that has a label before and after
    it: the rest is a search path the resolver appended. *)
Fixpoint search_path (seen ls : list bytes) : option (list bytes * bytes) :=
  match ls with
  | [] => None
  | l :: ls =>
      if (length ls =? 0)%nat then None
      else if (0 <? length seen)%nat && existsb (bytes_eqb l) tlds then Some (seen, l)
      else search_path (seen ++ [l]) ls
  end.

Lemma normalize_loop_labels `{Netaddr} fqdn seen buf s w ws :
  Split s 46 = w :: ws ->
  normalize_loop fqdn (dotted seen ++ buf) buf (length seen) s =
  match search_path seen ((buf ++ w) :: ws) with
  | Some (ls, l) => dotted ls ++ l ++ str ".search_path_suffix"
  | None => fqdn
  end.
Proof.
  revert seen buf w ws. induction s as [|c s IH]; intros seen buf w ws.
  { by intros [= <- <-]. }
  cbn [Split normalize_loop]. destruct (Split_cons s 46) as (w' & ws' & E). rewrite E.
  destruct (Z.eqb_spec c 46) as [->|Hc]; intros [= <- <-]; cbn [negb].
  - rewrite app_nil_r. cbn [search_path length Nat.eqb].
    destruct ((0 <? length seen)%nat && existsb (bytes_eqb buf) tlds); [by rewrite <-app_assoc|].
    specialize (IH (seen ++ [buf]) [] w' ws' E). etrans; [|exact IH]. f_equal.
    + unfold dotted. rewrite map_app, concat_app. cbn. by rewrite !app_nil_r, !app_assoc.
    + rewrite length_app. cbn. lia.
  - rewrite <-(app_assoc (dotted seen)), (IH _ _ _ _ E), <-(app_assoc buf). done.
Qed.

(** A name is cut after its first inner top-level domain, and is unchanged if it
    has none. *)
Lemma NormalizeFQDN_labels `{Netaddr} fqdn t :
  bytes_eqb t (str "TypePTR") = false -> HasPrefix fqdn (str "ip-") = false ->
  NormalizeFQDN fqdn t =
  match search_path [] (Split fqdn 46) with
  | Some (ls, l) => dotted ls ++ l ++ str ".search_path_suffix"
  | None => fqdn
  end.
Proof.
  intros Ht Hp. unfold NormalizeFQDN. rewrite Ht, Hp.
  destruct (Split_cons fqdn 46) as (w & ws & E).
  rewrite E. exact (normalize_loop_labels fqdn [] [] fqdn w ws E).
Qed.

(** ** An implementation of the package *)

(** IPv4 and IPv6 addresses by their bytes, enough of the package to run the
    filters on concrete addresses. *)
Module StdNetaddr.

Inductive ip := zero | v4 (b : bytes) | v6 (b : bytes).

#[export] Instance ip_eq_dec : EqDecision ip.
Proof. solve_decision. Defined.
#[export] Instance ip_countable : Countable ip.
Proof.
  apply (inj_countable'
    (fun i => match i with zero => inl () | v4 b => inr (inl b) | v6 b => inr (inr b) end)
    (fun x => match x with inl _ => zero | inr (inl b) => v4 b | inr (inr b) => v6 b end)).
  by intros [].
Defined.

Definition of_std (b : bytes) : option ip :=
  if (length b =? 4)%nat then Some (v4 b)
  else if (length b =? 16)%nat then
    if starts_with (replicate 10 0 ++ [255; 255]) b then Some (v4 (drop 12 b)) else Some (v6 b)
  else None.

(** The first [n] bits of a big-endian byte string of [size] bits. *)
Definition prefix_bits (b : bytes) (size n : Z) : Z := Z.shiftr (be b) (size - n).

Definition contains (p : ip * Z) (i : ip) : bool :=
  match p, i with
  | (v4 b, n), v4 c => if n =? 32 then bool_decide (b = c) else prefix_bits b 32 n =? prefix_bits c 32 n
  | (v6 b, n), v6 c => if n =? 128 then bool_decide (b = c) else prefix_bits b 128 n =? prefix_bits c 128 n
  | _, _ => false
  end.

Definition private (i : ip) : bool :=
  match i with
  | zero => false
  | v4 b => (b.[0] =? 10) || (b.[0] =? 172) && (Z.land b.[1] 0xf0 =? 16) ||
            (b.[0] =? 192) && (b.[1] =? 168)
  | v6 b => Z.land b.[0] 0xfe =? 0xfc
  end.

Definition encode (i : ip) : bytes :=
  match i with zero => [] | v4 b => 4 :: b | v6 b => 6 :: b end.

#[export] Instance std : Netaddr := {|
  IP := ip;
  IP_zero := zero;
  FromStdIP := of_std;
  IPFrom4 := v4;
  IPFrom16 := v6;
  Is4 i := match i with v4 _ => true | _ => false end;
  Is6 i := match i with v6 _ => true | _ => false end;
  As4 i := match i with v4 b => b | _ => [] end;
  IsLoopback i := match i with
    | zero => false | v4 b => b.[0] =? 127 | v6 b => bool_decide (b = replicate 15 0 ++ [1]) end;
  IsPrivate := private;
  IsLinkLocalUnicast i := match i with
    | zero => false | v4 b => (b.[0] =? 169) && (b.[1] =? 254)
    | v6 b => (b.[0] =? 0xfe) && (Z.land b.[1] 0xc0 =? 0x80) end;
  IsUnspecified i := match i with
    | zero => false | v4 b => bool_decide (b = replicate 4 0)
    | v6 b => bool_decide (b = replicate 16 0) end;
  IP_String := encode;
  IPPrefix := ip * Z;
  IPPrefixFrom i n := (i, n);
  Prefix_String p := p.2 :: encode p.1;
  Contains := contains
|}.

#[export] Instance std_laws : NetaddrLaws std.
Proof.
  split; cbn.
  - intros b [|c|c] Hb; cbn; [|by apply bool_decide_eq_true..].
    revert Hb. unfold of_std. by repeat case_match.
  - intros [|b|b] [|c|c]; cbn; try done; by intros ->%bool_decide_eq_true.
  - by intros [[|b|b] n] [[|c|c] m]; intros [=]; subst.
Qed.

End StdNetaddr.

Import StdNetaddr.

(** The calls of TestConnectionFilter. *)
Lemma connection_filter_refines_witness :
  let ip a b c d := v4 [a; b; c; d] in
  let calls := [(ip 127 0 0 1, ip 127 0 0 1); (ip 192 168 1 1, ip 127 0 0 1);
    (ip 1 1 1 1, ip 2 2 2 2); (ip 1 1 1 1, ip 192 168 1 1); (ip 1 1 1 1, ip 2 2 2 2);
    (ip 2 2 2 2, ip 2 2 2 2); (ip 3 3 3 3, ip 4 4 4 4)] in
  (filter_run (WhitelistPrefix (ip 4 4 4 0, 24) ∅) calls).1 =
    [false; false; true; false; false; true; false] /\
  (filter_run (WhitelistPrefix (ip 4 4 4 0, 24) ∅) calls).1 =
  (spec_run (allowed (WhitelistPrefix (ip 4 4 4 0, 24) ∅)) calls).1.
Proof.
  intros ip calls. split; [by vm_compute|]. apply connection_filter_refines.
  - apply filter_ok_WhitelistPrefix, map_Forall_empty.
  - repeat (apply Forall_cons_2; [by eexists [_; _; _; _]|]). constructor.
Defined.
