(* ===== verification/Decode.v ===== *)
(** * From the perf buffers to the agent

    ebpftracer/tracer.go: the events as the Go side declares them and
    [runEventsReader], which decodes the records the eBPF programs write.  The C
    layout of the four event structs ([*_bytes]) connects the two sides. *)

From S2P Require Import Prelude L7Base Types Proc File GoLib Net.

Module Decode.

Definition MaxPayloadSize : Z := 1024.

Definition EventTypeProcessStart : Z := 1.
Definition EventTypeProcessExit : Z := 2.
Definition EventTypeConnectionOpen : Z := 3.
Definition EventTypeConnectionClose : Z := 4.
Definition EventTypeConnectionError : Z := 5.
Definition EventTypeListenOpen : Z := 6.
Definition EventTypeListenClose : Z := 7.
Definition EventTypeFileOpen : Z := 8.
Definition EventTypeTCPRetransmit : Z := 9.
Definition EventTypeL7Request : Z := 10.

Definition EventReasonOOMKill : Z := 1.

Record TrafficStats := MkTrafficStats { BytesSent : Z; BytesReceived : Z }.

(** l7.RequestData *)
Record RequestData := MkRequestData {
  r_Protocol : Z; r_Status : Z; r_Duration : Z; r_Method : Z; r_StatementId : Z;
  r_Payload : bytes
}.

Section decode.
Context `{Netaddr}.

Record Event := MkEvent {
  Type_ : Z; Reason : Z; Pid : Z;
  SrcAddr : IPPort; DstAddr : IPPort; ActualDstAddr : IPPort;
  Fd : Z; Timestamp : Z; Duration : Z;
  L7Request_ : option RequestData; Traffic : option TrafficStats;
  Mnt : Z; Log : bool
}.

(** The zero [Event] with a type and a pid: what a composite literal that names
    only some fields starts from. *)
Definition event_of (type pid : Z) : Event :=
  MkEvent type 0 pid IPPort_zero IPPort_zero IPPort_zero 0 0 0 None None 0 false.

(** The kinds of perf maps. *)
Inductive perfMapType :=
| perfMapTypeProcEvents | perfMapTypeTCPEvents | perfMapTypeFileEvents | perfMapTypeL7Events.

(** ** The records *)

Record procEvent := ProcEv { p_Type : Z; p_Pid : Z; p_Reason : Z }.

Record tcpEvent := TcpEv {
  v_Fd : Z; v_Timestamp : Z; v_Duration : Z; v_Type : Z; v_Pid : Z;
  v_BytesSent : Z; v_BytesReceived : Z; v_SPort : Z; v_DPort : Z; v_Aport : Z;
  v_SAddr : bytes; v_DAddr : bytes; v_AAddr : bytes
}.

Record fileEvent := FileEv { f_Type : Z; f_Pid : Z; f_Fd : Z; f_Mnt : Z; f_Log : Z }.

Record l7Event := L7Ev {
  l_Fd : Z; l_ConnectionTimestamp : Z; l_Pid : Z; l_Status : Z; l_Duration : Z;
  l_Protocol : Z; l_Method : Z; l_Padding : Z; l_StatementId : Z; l_PayloadSize : Z
}.

(** [binary.Read(reader, binary.LittleEndian, v)] of each. *)
#[local] Open Scope reader_scope.

Definition read_procEvent : reader procEvent :=
  t <- uint32 ;; p <- uint32 ;; r <- uint32 ;; ret (ProcEv t p r).

Definition read_tcpEvent : reader tcpEvent :=
  fd <- uint64 ;; ts <- uint64 ;; d <- uint64 ;; t <- uint32 ;; p <- uint32 ;;
  bs <- uint64 ;; br <- uint64 ;; sp <- uint16 ;; dp <- uint16 ;; ap <- uint16 ;;
  sa <- take_bytes 16 ;; da <- take_bytes 16 ;; aa <- take_bytes 16 ;;
  ret (TcpEv fd ts d t p bs br sp dp ap sa da aa).

Definition read_fileEvent : reader fileEvent :=
  t <- uint32 ;; p <- uint32 ;; fd <- uint64 ;; m <- uint64 ;; l <- uint64 ;;
  ret (FileEv t p fd m l).

Definition read_l7Event : reader l7Event :=
  fd <- uint64 ;; ts <- uint64 ;; p <- uint32 ;; st <- int32 ;; d <- uint64 ;;
  pr <- uint8 ;; m <- uint8 ;; pad <- uint16 ;; sid <- uint32 ;; n <- uint64 ;;
  ret (L7Ev fd ts p st d pr m pad sid n).

(** [netaddr.FromStdIP] gives the zero address when it refuses its argument. *)
Definition ipPort_of (ip : bytes) (port : Z) : IPPort :=
  IPPortFrom (default IP_zero (FromStdIP ip)) port.

(** ** runEventsReader *)

(** What one iteration does with the record it read: [Val None] continues with the
    next, [Val (Some e)] sends [e].  [lost] is [rec.LostSamples]. *)
Definition decode_record (typ : perfMapType) (lost : Z) (raw : bytes) : go (option Event) :=
  if lost >? 0 then Val None
  else
  match typ with
  | perfMapTypeL7Events =>
      let? (v, payload) := read_l7Event raw else Val None in
      let req p := MkRequestData (l_Protocol v) (l_Status v) (s64 (l_Duration v)) (l_Method v)
                     (l_StatementId v) p in
      let event p := Val (Some (MkEvent EventTypeL7Request 0 (l_Pid v)
                       IPPort_zero IPPort_zero IPPort_zero
                       (l_Fd v) (l_ConnectionTimestamp v) 0 (Some (req p)) None 0 false)) in
      if l_PayloadSize v =? 0 then event []
      else
      match slice payload 0 (if l_PayloadSize v >? MaxPayloadSize then MaxPayloadSize
                             else l_PayloadSize v) with
      | Panic => Panic
      | Val p => event p
      end
  | perfMapTypeFileEvents =>
      let? (v, _) := read_fileEvent raw else Val None in
      Val (Some (MkEvent (f_Type v) 0 (f_Pid v) IPPort_zero IPPort_zero IPPort_zero
             (f_Fd v) 0 0 None None (f_Mnt v) (f_Log v >? 0)))
  | perfMapTypeProcEvents =>
      let? (v, _) := read_procEvent raw else Val None in
      Val (Some (MkEvent (p_Type v) (p_Reason v) (p_Pid v) IPPort_zero IPPort_zero IPPort_zero
             0 0 0 None None 0 false))
  | perfMapTypeTCPEvents =>
      let? (v, _) := read_tcpEvent raw else Val None in
      let stats := if v_Type v =? EventTypeConnectionClose
                   then Some (MkTrafficStats (v_BytesSent v) (v_BytesReceived v)) else None in
      Val (Some (MkEvent (v_Type v) 0 (v_Pid v)
             (ipPort_of (v_SAddr v) (v_SPort v)) (ipPort_of (v_DAddr v) (v_DPort v))
             (ipPort_of (v_AAddr v) (v_Aport v))
             (v_Fd v) (v_Timestamp v) (s64 (v_Duration v)) None stats 0 false))
  end.

(** The loop over the records a reader delivers until it is closed: the events
    sent, and whether the goroutine panicked. *)
Fixpoint runEventsReader (typ : perfMapType) (recs : list (Z * bytes)) : list Event * bool :=
  match recs with
  | [] => ([], false)
  | (lost, raw) :: recs =>
      match decode_record typ lost raw with
      | Panic => ([], true)
      | Val None => runEventsReader typ recs
      | Val (Some e) => let (es, p) := runEventsReader typ recs in (e :: es, p)
      end
  end.

(** ** The layout of the C structs *)

Definition proc_event_bytes (e : Proc.proc_event) : bytes :=
  le_bytes 4 (Proc.type e) ++ le_bytes 4 (Proc.pid e) ++ le_bytes 4 (Proc.reason e).

Definition file_event_bytes (e : File.file_event) : bytes :=
  le_bytes 4 (File.type e) ++ le_bytes 4 (File.pid e) ++ le_bytes 8 (File.fd e) ++
  le_bytes 8 (File.mnt e) ++ le_bytes 8 (File.log e).

(** Without the two bytes that pad the struct to its alignment. *)
Definition tcp_event_bytes (e : tcp_event) : bytes :=
  le_bytes 8 (t_fd e) ++ le_bytes 8 (t_timestamp e) ++ le_bytes 8 (t_duration e) ++
  le_bytes 4 (t_type e) ++ le_bytes 4 (t_pid e) ++
  le_bytes 8 (t_bytes_sent e) ++ le_bytes 8 (t_bytes_received e) ++
  le_bytes 2 (t_sport e) ++ le_bytes 2 (t_dport e) ++ le_bytes 2 (t_aport e) ++
  t_saddr e ++ t_daddr e ++ t_aaddr e.

Definition l7_event_bytes (e : l7_event) : bytes :=
  le_bytes 8 (e_fd e) ++ le_bytes 8 (e_connection_timestamp e) ++ le_bytes 4 (e_pid e) ++
  le_bytes 4 (e_status e) ++ le_bytes 8 (e_duration e) ++ le_bytes 1 (e_protocol e) ++
  le_bytes 1 (e_method e) ++ le_bytes 2 (e_padding e) ++ le_bytes 4 (e_statement_id e) ++
  le_bytes 8 (e_payload_size e) ++ e_payload e.

(** ** What arrives *)

(** The events the Go side sees of each kind of record. *)
Definition proc_view (e : Proc.proc_event) : Event :=
  MkEvent (u32 (Proc.type e)) (u32 (Proc.reason e)) (u32 (Proc.pid e))
    IPPort_zero IPPort_zero IPPort_zero 0 0 0 None None 0 false.

Definition file_view (e : File.file_event) : Event :=
  MkEvent (u32 (File.type e)) 0 (u32 (File.pid e)) IPPort_zero IPPort_zero IPPort_zero
    (u64 (File.fd e)) 0 0 None None (u64 (File.mnt e)) (negb (u64 (File.log e) =? 0)).

Definition tcp_view (e : tcp_event) : Event :=
  MkEvent (u32 (t_type e)) 0 (u32 (t_pid e))
    (ipPort_of (t_saddr e) (u16 (t_sport e))) (ipPort_of (t_daddr e) (u16 (t_dport e)))
    (ipPort_of (t_aaddr e) (u16 (t_aport e)))
    (u64 (t_fd e)) (u64 (t_timestamp e)) (s64 (u64 (t_duration e))) None
    (if u32 (t_type e) =? EventTypeConnectionClose
     then Some (MkTrafficStats (u64 (t_bytes_sent e)) (u64 (t_bytes_received e))) else None)
    0 false.

Definition l7_view (e : l7_event) : Event :=
  MkEvent EventTypeL7Request 0 (u32 (e_pid e)) IPPort_zero IPPort_zero IPPort_zero
    (u64 (e_fd e)) (u64 (e_connection_timestamp e)) 0
    (Some (MkRequestData (u8 (e_protocol e)) (s32 (e_status e)) (s64 (u64 (e_duration e)))
       (u8 (e_method e)) (u32 (e_statement_id e))
       (take (Z.to_nat (Z.min (u64 (e_payload_size e)) MaxPayloadSize)) (e_payload e))))
    None 0 false.

Lemma decode_record_lost typ n raw : 0 < n -> decode_record typ n raw = Val None.
Proof. intros Hn. unfold decode_record. destruct (Z.gtb_spec n 0); [done|lia]. Qed.

Lemma decode_proc e tail :
  decode_record perfMapTypeProcEvents 0 (proc_event_bytes e ++ tail) = Val (Some (proc_view e)).
Proof.
  unfold decode_record, proc_event_bytes, read_procEvent. rewrite <-!app_assoc. cbn [Z.gtb Z.compare].
  by repeat read_field.
Qed.

Lemma decode_file e tail :
  decode_record perfMapTypeFileEvents 0 (file_event_bytes e ++ tail) = Val (Some (file_view e)).
Proof.
  unfold decode_record, file_event_bytes, read_fileEvent. rewrite <-!app_assoc. cbn [Z.gtb Z.compare].
  repeat read_field. unfold ret, file_view. cbn [f_Log f_Type f_Pid f_Fd f_Mnt].
  pose proof (u64_range (File.log e)). do 3 f_equal.
  rewrite Z.gtb_ltb. destruct (Z.ltb_spec 0 (u64 (File.log e))), (Z.eqb_spec (u64 (File.log e)) 0);
    try done; lia.
Qed.

Lemma decode_tcp e tail :
  length (t_saddr e) = 16%nat -> length (t_daddr e) = 16%nat -> length (t_aaddr e) = 16%nat ->
  decode_record perfMapTypeTCPEvents 0 (tcp_event_bytes e ++ tail) = Val (Some (tcp_view e)).
Proof.
  intros Hs Hd Ha. unfold decode_record, tcp_event_bytes, read_tcpEvent. rewrite <-!app_assoc.
  cbn [Z.gtb Z.compare]. repeat read_field. done.
Qed.

Lemma decode_l7 e tail :
  length (e_payload e) = Z.to_nat MAX_PAYLOAD_SIZE ->
  decode_record perfMapTypeL7Events 0 (l7_event_bytes e ++ tail) = Val (Some (l7_view e)).
Proof.
  intros Hp. unfold decode_record, l7_event_bytes, read_l7Event. rewrite <-!app_assoc.
  cbn [Z.gtb Z.compare]. repeat read_field. unfold ret, l7_view. cbn [l_PayloadSize].
  set (n := u64 (e_payload_size e)). assert (0 <= n) by apply u64_range.
  destruct (Z.eqb_spec n 0) as [E|E]; [by rewrite E|].
  change (Z.to_nat MAX_PAYLOAD_SIZE) with 1024%nat in Hp. rewrite Z.gtb_ltb.
  assert ((if MaxPayloadSize <? n then MaxPayloadSize else n) = Z.min n MaxPayloadSize) as ->
    by (destruct (Z.ltb_spec MaxPayloadSize n); lia).
  unfold MaxPayloadSize. rewrite slice_prefix by (rewrite length_app; lia).
  rewrite take_app_le by lia. done.
Qed.

End decode.
End Decode.
