(* ===== verification/Typed.v ===== *)
(** * Types of the maps and events

    The programs compute with C integers of fixed width; the model computes with
    [Z].  Given contexts and clocks of the kernel's types, every integer the maps,
    buffers and events hold stays in the range of the field it is stored in, so
    no store truncates and the records the perf buffers carry are the model's
    events. *)

From S2P Require Import Prelude L7Base ProtoText ProtoSql ProtoBin Foundationdb Types.
From S2P Require Import Runtimes Proc File Tcp L7 L7Spec Tls Object ObjectSpec Invariant.

Module Typed.
Import L7Spec Invariant.

(** ** C types *)

Definition is_u8 (z : Z) : Prop := 0 <= z < 256.
Definition is_u16 (z : Z) : Prop := 0 <= z < 65536.
Definition is_u32 (z : Z) : Prop := 0 <= z < 4294967296.
Definition is_u64 (z : Z) : Prop := 0 <= z < 18446744073709551616.
Definition is_s16 (z : Z) : Prop := -32768 <= z < 32768.
Definition is_s32 (z : Z) : Prop := -2147483648 <= z < 2147483648.
Definition is_s64 (z : Z) : Prop := -9223372036854775808 <= z < 9223372036854775808.
(** A char array of [n] bytes. *)
Definition is_array (n : nat) (bs : list Z) : Prop := length bs = n /\ bytes_ok bs.

(** [struct connection_id], [struct connection], the L7 keys, requests and events. *)
Definition cid_typed (c : connection_id) : Prop := is_u64 (cid_fd c) /\ is_u32 (cid_pid c).
Definition connection_typed (c : connection) : Prop :=
  is_u64 (timestamp c) /\ is_u64 (bytes_sent c) /\ is_u64 (bytes_received c).
Definition key_typed (k : l7_request_key) : Prop :=
  is_u64 (k_fd k) /\ is_u32 (k_pid k) /\ is_u16 (k_is_tls k) /\ is_s16 (k_stream_id k).
Definition request_typed (r : l7_request) : Prop :=
  is_u64 (ns r) /\ is_u8 (protocol r) /\ is_u8 (partial r) /\ is_u8 (request_type r) /\
  is_s32 (request_id r) /\ is_u64 (payload_size r) /\ is_array 1024 (payload r).
Definition event_typed (e : l7_event) : Prop :=
  is_u64 (e_fd e) /\ is_u64 (e_connection_timestamp e) /\ is_u32 (e_pid e) /\
  is_s32 (e_status e) /\ is_u64 (e_duration e) /\ is_u8 (e_protocol e) /\ is_u8 (e_method e) /\
  is_u16 (e_padding e) /\ is_u32 (e_statement_id e) /\ is_u64 (e_payload_size e) /\
  is_array 1024 (e_payload e).
Definition read_typed (a : read_args) : Prop :=
  is_u64 (ra_fd a) /\ is_u64 (ra_buf a) /\ is_u64 (ra_ret a) /\ is_u64 (ra_iovlen a).
Definition addr_typed (a : ipPort) : Prop := is_array 16 (ip a) /\ is_u16 (port a).
Definition tcp_event_typed (e : tcp_event) : Prop :=
  is_u64 (t_fd e) /\ is_u64 (t_timestamp e) /\ is_u64 (t_duration e) /\ is_u32 (t_type e) /\
  is_u32 (t_pid e) /\ is_u64 (t_bytes_sent e) /\ is_u64 (t_bytes_received e) /\
  is_u16 (t_sport e) /\ is_u16 (t_dport e) /\ is_u16 (t_aport e) /\
  is_array 16 (t_saddr e) /\ is_array 16 (t_daddr e) /\ is_array 16 (t_aaddr e).
Definition proc_event_typed (e : Proc.proc_event) : Prop :=
  is_u32 (Proc.type e) /\ is_u32 (Proc.pid e) /\ is_u32 (Proc.reason e).
Definition file_event_typed (e : File.file_event) : Prop :=
  is_u32 (File.type e) /\ is_u32 (File.pid e) /\ is_u64 (File.fd e) /\ is_u64 (File.mnt e) /\
  is_u64 (File.log e).

(** ** Typed state *)

Record tcp_typed (s : Tcp.st) : Prop := {
  ty_destinations : map_Forall (fun _ => addr_typed) (Tcp.actual_destinations s);
  ty_fds : map_Forall (fun _ => is_u64) (Tcp.fd_by_pid_tgid s);
  ty_sockets : map_Forall (fun _ => cid_typed) (Tcp.connection_id_by_socket s);
  ty_connections : map_Forall (fun k c => cid_typed k /\ connection_typed c) (Tcp.active_connections s);
  ty_requests : map_Forall (fun k r => key_typed k /\ request_typed r) (Tcp.active_l7_requests s);
  ty_listen : Forall tcp_event_typed (Tcp.tcp_listen_events s);
  ty_connect : Forall tcp_event_typed (Tcp.tcp_connect_events s);
  ty_retransmit : Forall tcp_event_typed (Tcp.tcp_retransmit_events s)
}.

Record l7_typed (s : L7.st) : Prop := {
  ty_tcp : tcp_typed (L7.tcp s);
  ty_reads : map_Forall (fun _ => read_typed) (L7.active_reads s);
  ty_event_heap : map_Forall (fun _ => event_typed) (L7.l7_event_heap s);
  ty_request_heap : map_Forall (fun _ => request_typed) (L7.l7_request_heap s);
  ty_events : Forall event_typed (L7.l7_events s)
}.

Record files_typed (s : File.st) : Prop := {
  ty_info : map_Forall (fun _ i => is_u64 (File.i_mnt i) /\ is_u64 (File.i_log i)) (File.open_file_info s);
  ty_file_events : Forall file_event_typed (File.file_events s)
}.

(** ** What the kernel passes *)

Record env_typed (v : env) : Prop := {
  ty_pid_tgid : is_u64 (pid_tgid v);
  ty_ktime n : is_u64 (ktime v n)
}.
Definition state_args_typed (a : Tcp.set_state_args) : Prop :=
  is_u16 (Tcp.sport a) /\ is_u16 (Tcp.dport a) /\
  is_array 16 (Tcp.saddr_v6 a) /\ is_array 16 (Tcp.daddr_v6 a).
Definition retransmit_args_typed (a : Tcp.retransmit_args) : Prop :=
  is_u16 (Tcp.r_sport a) /\ is_u16 (Tcp.r_dport a) /\
  is_array 16 (Tcp.r_saddr_v6 a) /\ is_array 16 (Tcp.r_daddr_v6 a).
Definition rw_typed (a : L7.rw_args) : Prop :=
  is_u64 (L7.rw_fd a) /\ is_u64 (L7.rw_buf a) /\ is_u64 (L7.rw_size a).

(** ** Ranges *)

Lemma tgid_u32 v : is_u32 (tgid v).
Proof. apply u32_range. Qed.
Lemma u64_is z : is_u64 (u64 z).
Proof. apply u64_range. Qed.
Lemma u32_is z : is_u32 (u32 z).
Proof. apply u32_range. Qed.
Lemma s32_is z : is_s32 (s32 z).
Proof. apply s32_range. Qed.
Lemma s16_is z : is_s16 (s16 z).
Proof. apply s16_range. Qed.
Lemma u8_is z : is_u8 (u8 z).
Proof. apply u8_range. Qed.

Lemma bytes_ok_take n bs : bytes_ok bs -> bytes_ok (take n bs).
Proof. apply Forall_take. Qed.
Lemma bytes_ok_drop n bs : bytes_ok bs -> bytes_ok (drop n bs).
Proof. apply Forall_drop. Qed.
Lemma bytes_ok_zeros n : bytes_ok (zeros n).
Proof. apply Forall_replicate. lia. Qed.
Lemma bytes_ok_write_at off src dst : bytes_ok src -> bytes_ok dst -> bytes_ok (write_at off src dst).
Proof.
  intros. unfold write_at. apply Forall_app_2; [by apply Forall_take|].
  apply Forall_app_2; [done|by apply Forall_drop].
Qed.

Lemma read_u64_range m a z : read_u64 m a = Some z -> is_u64 z.
Proof.
  unfold read_u64. destruct (probe_read m a 8) as [bs|] eqn:R; intros [= <-].
  pose proof (probe_read_length _ _ _ _ R). apply probe_read_bytes, le_bound in R. by rewrite H in R.
Qed.
Lemma read_u32_range m a z : read_u32 m a = Some z -> is_u32 z.
Proof.
  unfold read_u32. destruct (probe_read m a 4) as [bs|] eqn:R; intros [= <-].
  pose proof (probe_read_length _ _ _ _ R). apply probe_read_bytes, le_bound in R. by rewrite H in R.
Qed.

Lemma field_u64 bs off : bytes_ok bs -> is_u64 (field bs off 8).
Proof.
  intros Hb. unfold field. assert (bytes_ok (take 8 (drop off bs))) as H8%le_bound by by apply Forall_take, Forall_drop.
  assert (256 ^ Z.of_nat (length (take 8 (drop off bs))) <= 256 ^ 8) as Hp
    by (apply Z.pow_le_mono_r; [lia|]; rewrite length_take; lia).
  unfold is_u64. change 18446744073709551616 with (256 ^ 8). lia.
Qed.
Lemma msghdr_u64 m a n bs : probe_read m a n = Some bs -> is_u64 (L7.msg_iov bs) /\ is_u64 (L7.msg_iovlen bs).
Proof. intros R%probe_read_bytes. split; by apply field_u64. Qed.

Create HintDb typed.
#[export] Hint Resolve tgid_u32 u64_is u32_is s32_is s16_is u8_is bytes_ok_take bytes_ok_drop
  bytes_ok_zeros bytes_ok_write_at read_u64_range read_u32_range : typed.

(** A constant is in range. *)
Ltac const_range :=
  lazymatch goal with
  | |- _ ?z => first [is_const z | lazymatch z with Z0 => idtac | Zpos _ => idtac | Zneg _ => idtac end];
      split; vm_compute; congruence
  end.
#[export] Hint Extern 1 (is_u8 _) => const_range : typed.
#[export] Hint Extern 1 (is_u16 _) => const_range : typed.
#[export] Hint Extern 1 (is_u32 _) => const_range : typed.
#[export] Hint Extern 1 (is_u64 _) => const_range : typed.
#[export] Hint Extern 1 (is_s16 _) => const_range : typed.
#[export] Hint Extern 1 (is_s32 _) => const_range : typed.

(** ** Results of the protocol tests *)

(** Every branch ends in a constant, a converted value or the argument. *)
Ltac results H := repeat case_step_in H; try discriminate H; simplify_eq; eauto with typed.

Lemma http_status m buf st r st' :
  Http.is_http_response m buf st = (r, st') -> is_s32 st -> is_s32 st'.
Proof.
  unfold Http.is_http_response. intros H Hst.
  repeat case_step_in H; injection H as <- <-; try done. split_bools.
  repeat match goal with H : (_ <? _) = false |- _ => apply Z.ltb_ge in H end.
  unfold is_s32. cbn in *. lia.
Qed.
Lemma redis_status m buf n st r st' :
  Redis.is_redis_response m buf n st = (r, st') -> is_s32 st -> is_s32 st'.
Proof. unfold Redis.is_redis_response. cbv zeta. intros H Hst. results H. Qed.
Lemma memcached_status m buf n st r st' :
  Memcached.is_memcached_response m buf n st = (r, st') -> is_s32 st -> is_s32 st'.
Proof. unfold Memcached.is_memcached_response. cbv zeta. intros H Hst. results H. Qed.
Lemma postgres_status m buf n st r st' :
  Postgres.is_postgres_response m buf n st = (r, st') -> is_s32 st -> is_s32 st'.
Proof. unfold Postgres.is_postgres_response. cbv zeta. intros H Hst. results H. Qed.
Lemma postgres_type m buf n t r t' :
  Postgres.is_postgres_query m buf n t = (r, t') -> is_u8 t -> is_u8 t'.
Proof. unfold Postgres.is_postgres_query. cbv zeta. intros H Hst. results H. Qed.
Lemma mysql_type m buf n t r t' :
  Mysql.is_mysql_query m buf n t = (r, t') -> is_u8 t -> is_u8 t'.
Proof. unfold Mysql.is_mysql_query. cbv zeta. intros H Hst. results H. Qed.
Lemma mysql_status m buf n t sid st r sid' st' :
  Mysql.is_mysql_response m buf n t sid st = (r, sid', st') ->
  is_u32 sid -> is_s32 st -> is_u32 sid' /\ is_s32 st'.
Proof. unfold Mysql.is_mysql_response. cbv zeta. intros H Hsid Hst. results H. Qed.
Lemma cassandra_stream m buf n st r st' :
  Cassandra.is_cassandra_request m buf n st = (r, st') -> is_s16 st -> is_s16 st'.
Proof.
  unfold Cassandra.is_cassandra_request, Cassandra.cassandra_header_of. cbv zeta. intros H Hst.
  results H.
Qed.
Lemma cassandra_status m buf n sid st r sid' st' :
  Cassandra.is_cassandra_response m buf n sid st = (r, sid', st') ->
  is_s16 sid -> is_s32 st -> is_s16 sid' /\ is_s32 st'.
Proof.
  unfold Cassandra.is_cassandra_response, Cassandra.cassandra_header_of. cbv zeta.
  intros H Hsid Hst. results H.
Qed.
Lemma clickhouse_status m buf st r st' :
  Clickhouse.is_clickhouse_response m buf st = (r, st') -> is_s32 st -> is_s32 st'.
Proof. unfold Clickhouse.is_clickhouse_response. intros H Hst. results H. Qed.
Lemma kafka_id m buf n i r i' :
  Kafka.is_kafka_request m buf n i = (r, i') -> is_s32 i -> is_s32 i'.
Proof. unfold Kafka.is_kafka_request. cbv zeta. intros H Hst. results H. Qed.
Lemma dubbo2_status m buf st r st' :
  Dubbo2.is_dubbo2_response m buf st = (r, st') -> is_s32 st -> is_s32 st'.
Proof. unfold Dubbo2.is_dubbo2_response. intros H Hst. results H. Qed.
Lemma dns_stream m buf n st r st' :
  Dns.is_dns_request m buf n st = (r, st') -> is_s16 st -> is_s16 st'.
Proof.
  unfold Dns.is_dns_request, Dns.dns_header_of. cbv zeta. intros H Hst. results H.
Qed.
Lemma dns_status m buf n sid st r sid' st' :
  Dns.is_dns_response m buf n sid st = (r, sid', st') ->
  is_s16 sid -> is_s32 st -> is_s16 sid' /\ is_s32 st'.
Proof.
  unfold Dns.is_dns_response, Dns.dns_header_of. cbv zeta. intros H Hsid Hst. results H.
  split; [apply s16_is|]. change Dns.DNS_RCODE with (Z.ones 4). rewrite Z.land_ones by lia.
  unfold is_s32. mod_lia.
Qed.
Lemma zk_status m buf n st p r st' :
  Zookeeper.is_zk_response m buf n st p = (r, st') -> is_s32 st -> is_s32 st'.
Proof. unfold Zookeeper.is_zk_response. cbv zeta. intros H Hst. results H. Qed.
Lemma fdb_status m buf n st r st' :
  Fdb.is_foundationdb_response m buf n st = (r, st') -> is_s32 st'.
Proof. unfold Fdb.is_foundationdb_response. cbv zeta. intros H. results H. Qed.

(** ** Maps *)

Lemma typed_lru {K A} `{Countable K} (P : K -> A -> Prop) policy flags (k : K) x (m : gmap K A) :
  P k x -> map_Forall P m -> map_Forall P (lru_update policy flags k x m).2.
Proof. intros Hx Hm k' x' [[-> ->]|Hk]%lru_update_lookup; [done|]. by eapply Hm. Qed.

Lemma typed_hash {K A} `{Countable K} (P : K -> A -> Prop) max flags (k : K) x (m : gmap K A) :
  P k x -> map_Forall P m -> map_Forall P (hash_update max flags k x m).2.
Proof.
  intros Hx Hm. unfold hash_update. repeat case_match; cbn; try done; by apply map_Forall_insert_2.
Qed.

Lemma typed_alter {K A} `{Countable K} (P : K -> A -> Prop) f (k : K) (m : gmap K A) :
  (forall x, P k x -> P k (f x)) -> map_Forall P m -> map_Forall P (alter f k m).
Proof.
  intros Hf Hm k' x'. rewrite lookup_alter_Some. intros [(<- & x & Hx & ->)|[_ Hx]].
  - by eapply Hf, Hm.
  - by eapply Hm.
Qed.

Lemma array_zeros n : is_array n (zeros n).
Proof. split; [apply length_replicate|apply bytes_ok_zeros]. Qed.

(** ** TCP programs *)

Lemma tcp_typed_init : tcp_typed Tcp.init.
Proof. split; first [apply map_Forall_empty | constructor]. Qed.

Section tcp.
Implicit Types s : Tcp.st.

Lemma typed_set_destinations f s :
  (map_Forall (fun _ => addr_typed) (Tcp.actual_destinations s) ->
   map_Forall (fun _ => addr_typed) (f (Tcp.actual_destinations s))) ->
  tcp_typed s -> tcp_typed (Tcp.set_destinations f s).
Proof. intros Hf []; split; auto. Qed.
Lemma typed_set_fds f s :
  (map_Forall (fun _ => is_u64) (Tcp.fd_by_pid_tgid s) ->
   map_Forall (fun _ => is_u64) (f (Tcp.fd_by_pid_tgid s))) ->
  tcp_typed s -> tcp_typed (Tcp.set_fds f s).
Proof. intros Hf []; split; auto. Qed.
Lemma typed_set_sockets f s :
  (map_Forall (fun _ => cid_typed) (Tcp.connection_id_by_socket s) ->
   map_Forall (fun _ => cid_typed) (f (Tcp.connection_id_by_socket s))) ->
  tcp_typed s -> tcp_typed (Tcp.set_sockets f s).
Proof. intros Hf []; split; auto. Qed.
Lemma typed_set_connections f s :
  (map_Forall (fun k c => cid_typed k /\ connection_typed c) (Tcp.active_connections s) ->
   map_Forall (fun k c => cid_typed k /\ connection_typed c) (f (Tcp.active_connections s))) ->
  tcp_typed s -> tcp_typed (Tcp.set_connections f s).
Proof. intros Hf []; split; auto. Qed.
Lemma typed_set_requests f s :
  (map_Forall (fun k r => key_typed k /\ request_typed r) (Tcp.active_l7_requests s) ->
   map_Forall (fun k r => key_typed k /\ request_typed r) (f (Tcp.active_l7_requests s))) ->
  tcp_typed s -> tcp_typed (Tcp.set_requests f s).
Proof. intros Hf []; split; auto. Qed.
Lemma typed_output ch e s : tcp_event_typed e -> tcp_typed s -> tcp_typed (Tcp.output ch e s).
Proof.
  intros He []; split; try done; cbn; destruct ch; try done;
    (apply Forall_app_2; [done|]; by constructor).
Qed.
End tcp.

Lemma typed_delete {K A} `{Countable K} (P : K -> A -> Prop) (k : K) (m : gmap K A) :
  map_Forall P m -> map_Forall P (delete k m).
Proof. apply map_Forall_delete. Qed.

#[export] Hint Resolve typed_lru typed_hash typed_delete typed_set_fds typed_set_sockets
  typed_set_connections typed_set_requests typed_output array_zeros : typed.

Lemma conn_fresh v n : env_typed v -> connection_typed (Connection (ktime v n) 0 0).
Proof. intros Hv. split_and!; cbn; [apply Hv|auto with typed..]. Qed.
#[export] Hint Resolve conn_fresh : typed.

Lemma tcp_typed_ct v x s : tcp_typed s -> tcp_typed (Tcp.nf_ct_deliver_cached_events v x s).
Proof.
  intros Hs. unfold Tcp.nf_ct_deliver_cached_events, Tcp.handle_ct.
  destruct (probe_read _ _ _) as [bs|] eqn:R; [|done]. case_match; [done|].
  assert (length bs = 128%nat) as Hl by (by apply probe_read_length in R).
  apply probe_read_bytes in R.
  destruct (if Tcp.src_l3num _ =? _ then _ else _) as [si di] eqn:E.
  apply typed_set_destinations; [|done]. apply typed_lru. split; [|apply u16_range].
  assert (forall b, is_array 16 b -> is_array 16 (Tcp.v4_mapped b)) as Hm.
  { intros b [Hb Hb']. unfold Tcp.v4_mapped. split.
    - unfold zeros. rewrite !length_app, length_take, length_replicate, Hb. done.
    - apply Forall_app_2; [apply bytes_ok_zeros|]. repeat (constructor; [lia|]). by apply Forall_take. }
  assert (is_array 16 (Tcp.src_addr (Tcp.repl (Tcp.nf_conn_of bs)))) as Ha.
  { cbn. split; [rewrite length_take, length_drop; lia|]. by apply bytes_ok_take, bytes_ok_drop. }
  cbn [ip]. repeat case_match; simplify_eq; auto with typed.
Qed.

Lemma tcp_typed_enter_connect v x s :
  (forall fd, x = Some fd -> is_u64 fd) -> tcp_typed s -> tcp_typed (Tcp.sys_enter_connect v x s).
Proof. intros Hx Hs. unfold Tcp.sys_enter_connect. destruct x; eauto 8 with typed. Qed.

Lemma tcp_typed_exit_connect v x s :
  env_typed v -> tcp_typed s -> tcp_typed (Tcp.sys_exit_connect v x s).
Proof.
  intros Hv Hs. unfold Tcp.sys_exit_connect.
  destruct (Tcp.fd_by_pid_tgid s !! _) as [fd|] eqn:E; [|done]. apply (ty_fds _ Hs) in E.
  repeat case_match; eauto 12 with typed.
  apply typed_set_fds; [auto with typed|]. do 2 (apply typed_set_requests; [auto with typed|]).
  apply typed_set_connections; [|done]. apply typed_lru. split; [|auto with typed].
  split; [done|apply tgid_u32].
Qed.

Lemma tcp_typed_close v x s : tcp_typed s -> tcp_typed (Tcp.sys_enter_close v x s).
Proof.
  intros Hs. unfold Tcp.sys_enter_close. destruct x as [fd|]; [|done].
  destruct (Tcp.active_connections s !! _) as [c|] eqn:E; [|done].
  apply (ty_connections _ Hs) in E as [[? ?] (? & ? & ?)].
  apply typed_set_connections; [auto with typed|]. apply typed_output; [|done].
  split_and!; cbn; auto with typed; apply array_zeros.
Qed.

Lemma tcp_typed_retransmit x s :
  retransmit_args_typed x -> tcp_typed s -> tcp_typed (Tcp.tcp_retransmit_skb x s).
Proof.
  intros (? & ? & ? & ?) Hs. apply typed_output; [|done].
  split_and!; cbn; auto with typed; apply array_zeros.
Qed.

Lemma tcp_typed_seed v cid now s :
  cid_typed cid /\ is_u64 now -> tcp_typed s -> tcp_typed (Tcp.seed_connection v cid now s).
Proof.
  intros [Hc Hn] Hs. apply typed_set_connections; [|done]. apply typed_lru. split; [done|].
  split_and!; cbn; auto with typed.
Qed.

(** The fields of an outcome. *)
Definition outcome_typed (o : Tcp.outcome) : Prop :=
  is_u32 (Tcp.o_type o) /\ is_u64 (Tcp.o_timestamp o) /\ is_u64 (Tcp.o_duration o) /\
  is_u32 (Tcp.o_pid o) /\ is_u64 (Tcp.o_fd o).

Lemma leave_syn_sent_typed v args s s' o :
  tcp_typed s -> Tcp.leave_syn_sent v args s = Some (s', o) -> tcp_typed s' /\ outcome_typed o.
Proof.
  intros Hs. unfold Tcp.leave_syn_sent. destruct (Tcp.connection_id_by_socket s !! _) as [c|] eqn:E; [|done].
  apply (ty_sockets _ Hs) in E as [? ?].
  destruct (Tcp.active_connections s !! _) as [cn|] eqn:E; [|done].
  apply (ty_connections _ Hs) in E as [_ (? & _ & _)].
  repeat case_match; intros; simplify_eq; (split; [eauto with typed|]);
    split_and!; cbn; auto with typed.
Qed.

Lemma sock_event_typed args o s :
  state_args_typed args -> outcome_typed o -> tcp_typed s -> tcp_event_typed (Tcp.sock_event args o s).
Proof.
  intros (? & ? & ? & ?) (? & ? & ? & ? & ?) Hs. unfold Tcp.sock_event.
  destruct (Tcp.actual_destinations s !! _) as [a|] eqn:E;
    [apply (ty_destinations _ Hs) in E as [? ?]|]; split_and!; cbn; auto with typed; apply array_zeros.
Qed.

Lemma tcp_typed_set_state v x s :
  env_typed v -> (forall a, x = Some a -> state_args_typed a) ->
  tcp_typed s -> tcp_typed (Tcp.inet_sock_set_state v x s).
Proof.
  intros Hv Hx Hs. unfold Tcp.inet_sock_set_state. destruct x as [args|]; [|done].
  specialize (Hx args eq_refl). case_match; [done|]. case_match.
  { destruct (Tcp.fd_by_pid_tgid s !! _) as [fd|] eqn:E; [|done]. apply (ty_fds _ Hs) in E.
    assert (cid_typed (ConnectionId fd (tgid v))) by (split; [done|apply tgid_u32]).
    apply typed_set_connections; [apply typed_lru; auto with typed|].
    apply typed_set_sockets; [by apply (typed_lru (fun _ => cid_typed))|].
    apply typed_set_fds; auto with typed. }
  cbv zeta.
  destruct (if Tcp.oldstate args =? Tcp.BPF_TCP_SYN_SENT then _ else _) as [[s1 o]|] eqn:Ho; [|done].
  assert (tcp_typed s1 /\ outcome_typed o) as [Hs1 Ho1].
  { destruct (Tcp.oldstate args =? Tcp.BPF_TCP_SYN_SENT); [by eapply leave_syn_sent_typed|].
    injection Ho as <- <-. split; [done|]. split_and!; cbn; auto with typed. }
  clear Ho. destruct Ho1 as (? & ? & ? & ? & ?).
  set (s2 := if (Tcp.oldstate args =? Tcp.BPF_TCP_ESTABLISHED) && _ then _ else s1).
  assert (tcp_typed s2) as Hs2 by (subst s2; apply if_both; eauto with typed). clearbody s2.
  repeat (case_match; try done); simplify_eq; (apply typed_output; [|done]);
    apply sock_event_typed; try done; split_and!; cbn; auto with typed.
Qed.
(** ** L7 programs *)

Section fields.
Implicit Types e : l7_event.
Implicit Types r : l7_request.

Lemma ty_protocol x e : is_u8 x -> event_typed e -> event_typed (L7.ev_set_protocol x e).
Proof. unfold event_typed. intuition. Qed.
Lemma ty_method x e : is_u8 x -> event_typed e -> event_typed (L7.ev_set_method x e).
Proof. unfold event_typed. intuition. Qed.
Lemma ty_status x e : is_s32 x -> event_typed e -> event_typed (L7.ev_set_status x e).
Proof. unfold event_typed. intuition. Qed.
Lemma ty_duration x e : is_u64 x -> event_typed e -> event_typed (L7.ev_set_duration x e).
Proof. unfold event_typed. intuition. Qed.
Lemma ty_statement_id x e : is_u32 x -> event_typed e -> event_typed (L7.ev_set_statement_id x e).
Proof. unfold event_typed. intuition. Qed.
Lemma ty_payload_size x e : is_u64 x -> event_typed e -> event_typed (L7.ev_set_payload_size x e).
Proof. unfold event_typed. intuition. Qed.
Lemma ty_payload x e : is_array 1024 x -> event_typed e -> event_typed (L7.ev_set_payload x e).
Proof. unfold event_typed. intuition. Qed.

Lemma ty_rq_ns x r : is_u64 x -> request_typed r -> request_typed (L7.rq_set_ns x r).
Proof. unfold request_typed. intuition. Qed.
Lemma ty_rq_protocol x r : is_u8 x -> request_typed r -> request_typed (L7.rq_set_protocol x r).
Proof. unfold request_typed. intuition. Qed.
Lemma ty_rq_partial x r : is_u8 x -> request_typed r -> request_typed (L7.rq_set_partial x r).
Proof. unfold request_typed. intuition. Qed.
Lemma ty_rq_type x r : is_u8 x -> request_typed r -> request_typed (L7.rq_set_type x r).
Proof. unfold request_typed. intuition. Qed.
Lemma ty_rq_id x r : is_s32 x -> request_typed r -> request_typed (L7.rq_set_id x r).
Proof. unfold request_typed. intuition. Qed.
Lemma ty_rq_payload_size x r : is_u64 x -> request_typed r -> request_typed (L7.rq_set_payload_size x r).
Proof. unfold request_typed. intuition. Qed.
Lemma ty_rq_payload x r : is_array 1024 x -> request_typed r -> request_typed (L7.rq_set_payload x r).
Proof. unfold request_typed. intuition. Qed.

Lemma ty_key_stream x k : is_s16 x -> key_typed k -> key_typed (L7RequestKey (k_fd k) (k_pid k) (k_is_tls k) x).
Proof. unfold key_typed. intuition. Qed.

Lemma event_status e : event_typed e -> is_s32 (e_status e).
Proof. unfold event_typed. intuition. Qed.
Lemma event_payload e : event_typed e -> is_array 1024 (e_payload e).
Proof. unfold event_typed. intuition. Qed.
Lemma request_payload r : request_typed r -> is_array 1024 (payload r).
Proof. unfold request_typed. intuition. Qed.
Lemma request_payload_size r : request_typed r -> is_u64 (payload_size r).
Proof. unfold request_typed. intuition. Qed.
Lemma request_protocol r : request_typed r -> is_u8 (protocol r).
Proof. unfold request_typed. intuition. Qed.

Lemma event_zero_typed : event_typed l7_event_zero.
Proof. split_and!; cbn -[zeros]; auto with typed. Qed.
Lemma request_zero_typed : request_typed l7_request_zero.
Proof. split_and!; cbn -[zeros]; auto with typed. Qed.

Lemma TRUNCATE_typed n : is_u64 (TRUNCATE_PAYLOAD_SIZE n).
Proof. pose proof (TRUNCATE_PAYLOAD_SIZE_range n). unfold is_u64. lia. Qed.

Lemma COPY_PAYLOAD_typed m dst n src ok buf :
  is_array 1024 dst -> L7.COPY_PAYLOAD m dst n src = (ok, buf) -> is_array 1024 buf.
Proof.
  intros [Hl Hb] E. split; [by eapply COPY_PAYLOAD_length|]. unfold L7.COPY_PAYLOAD in E.
  destruct (probe_read _ _ _) as [bs|] eqn:R; injection E as <- <-; [apply probe_read_bytes in R|];
    auto with typed.
Qed.
End fields.

#[export] Hint Resolve ty_protocol ty_method ty_status ty_duration ty_statement_id ty_payload_size
  ty_payload ty_rq_ns ty_rq_protocol ty_rq_partial ty_rq_type ty_rq_id ty_rq_payload_size
  ty_rq_payload ty_key_stream event_status event_payload request_payload request_payload_size
  request_protocol event_zero_typed request_zero_typed TRUNCATE_typed COPY_PAYLOAD_typed : typed.

Section l7.
Implicit Types s : L7.st.

Lemma l7_typed_put_event v e s : event_typed e -> l7_typed s -> l7_typed (L7.put_event v e s).
Proof. intros He []; split; try done. by apply map_Forall_insert_2. Qed.
Lemma l7_typed_put_req v r s : request_typed r -> l7_typed s -> l7_typed (L7.put_req v r s).
Proof. intros He []; split; try done. by apply map_Forall_insert_2. Qed.
Lemma l7_typed_put_iovec v b s : l7_typed s -> l7_typed (L7.put_iovec v b s).
Proof. by intros []; split. Qed.
Lemma l7_typed_set_tcp f s :
  (tcp_typed (L7.tcp s) -> tcp_typed (f (L7.tcp s))) -> l7_typed s -> l7_typed (L7.set_tcp f s).
Proof. intros Hf []; split; auto. Qed.
Lemma l7_typed_set_reads f s :
  (map_Forall (fun _ => read_typed) (L7.active_reads s) ->
   map_Forall (fun _ => read_typed) (f (L7.active_reads s))) ->
  l7_typed s -> l7_typed (L7.set_reads f s).
Proof. intros Hf []; split; auto. Qed.

Lemma l7_typed_send v e cid conn s :
  event_typed e -> cid_typed cid -> connection_typed conn -> l7_typed s ->
  l7_typed (L7.send_event v e cid conn s).
Proof.
  intros He [Hf Hp] (Ht & _ & _) Hs. unfold L7.send_event.
  set (e' := L7Event _ _ _ _ _ _ _ _ _ _ _).
  assert (event_typed e') as He' by (subst e'; unfold event_typed in *; cbn; intuition).
  destruct (l7_typed_put_event v e' s He' Hs). split; try done. cbn. apply Forall_app_2; [done|].
  by constructor.
Qed.

Lemma l7_typed_insert k r s :
  key_typed k -> request_typed r -> l7_typed s -> l7_typed (L7.set_requests (insert k r) s).
Proof.
  intros Hk Hr. apply l7_typed_set_tcp, typed_set_requests. intros. by apply map_Forall_insert_2.
Qed.
Lemma l7_typed_delete k s : l7_typed s -> l7_typed (L7.set_requests (delete k) s).
Proof. apply l7_typed_set_tcp, typed_set_requests. auto with typed. Qed.

Lemma event_slot_typed v s :
  l7_typed s -> event_typed (percpu l7_event_zero (cpu v) (L7.l7_event_heap s)).
Proof. intros Hs. apply (percpu_ok event_typed); [apply event_zero_typed|apply Hs]. Qed.
Lemma request_slot_typed v s :
  l7_typed s -> request_typed (percpu l7_request_zero (cpu v) (L7.l7_request_heap s)).
Proof. intros Hs. apply (percpu_ok request_typed); [apply request_zero_typed|apply Hs]. Qed.
Lemma request_lookup_typed s k r :
  l7_typed s -> L7.requests s !! k = Some r -> key_typed k /\ request_typed r.
Proof. intros Hs. apply (ty_requests _ (ty_tcp _ Hs)). Qed.
Lemma connection_lookup_typed s k c :
  l7_typed s -> L7.connections s !! k = Some c -> cid_typed k /\ connection_typed c.
Proof. intros Hs. apply (ty_connections _ (ty_tcp _ Hs)). Qed.
End l7.

#[export] Hint Resolve l7_typed_put_event l7_typed_put_req l7_typed_put_iovec l7_typed_send
  l7_typed_insert l7_typed_delete event_slot_typed request_slot_typed : typed.

(** [branch] that keeps how the pair was computed. *)
Lemma let_both_eq {A B C} (P : C -> Prop) (p : A * B) f :
  (forall a b, p = (a, b) -> P (f a b)) -> P (let '(a, b) := p in f a b).
Proof. destruct p; auto. Qed.
Ltac branch_eq P :=
  lazymatch goal with
  | |- P (let '(_, _) := ?p in _) => refine (let_both_eq P p _ _); intros ? ? ?; simplify_eq/=
  | _ => branch P
  end.

Section handlers.
Implicit Types s : L7.st.
Context (v : env) (Hv : env_typed v) (m : mem) (ptr : Z).
Context (cid : connection_id) (conn : connection).
Context (Hcid : cid_typed cid) (Hconn : connection_typed conn).

Lemma track_request_typed n k req s :
  key_typed k -> request_typed req -> l7_typed s ->
  l7_typed (L7.track_request v m ptr n k req s).
Proof.
  intros Hk Hr Hs. unfold L7.track_request. case_match; [by apply l7_typed_put_req|].
  assert (request_typed (if ns req =? 0 then L7.rq_set_ns (ktime v 0) req else req)) as Hr'.
  { case_match; [|done]. apply ty_rq_ns; [apply Hv|done]. }
  set (req' := if ns req =? 0 then _ else _) in *. clearbody req'.
  destruct (L7.COPY_PAYLOAD _ _ _ _) as [ok buf] eqn:E.
  apply COPY_PAYLOAD_typed in E; [|auto with typed].
  apply if_both; [|auto with typed]. apply l7_typed_set_tcp; [|auto with typed].
  apply typed_set_requests, typed_lru. auto with typed.
Qed.

Lemma statement_close_typed n p s :
  is_u64 n -> is_u8 p -> l7_typed s -> l7_typed (L7.statement_close v m ptr n p cid conn s).
Proof.
  intros Hn Hp Hs. unfold L7.statement_close. cbv zeta.
  destruct (L7.COPY_PAYLOAD _ _ _ _) as [ok buf] eqn:E.
  apply COPY_PAYLOAD_typed in E; [|auto 8 with typed]. apply if_both; auto 10 with typed.
Qed.

Lemma produce_typed p s : is_u8 p -> l7_typed s -> l7_typed (L7.produce v p cid conn s).
Proof. intros Hp Hs. unfold L7.produce. auto 8 with typed. Qed.

Lemma http2_frames_typed n method e s :
  is_u64 n -> is_u8 method -> event_typed e -> l7_typed s ->
  l7_typed (L7.http2_frames v m ptr n method e cid conn s).
Proof.
  intros Hn Hm He Hs. unfold L7.http2_frames. cbv zeta. pose proof (ty_ktime _ Hv 0).
  destruct (L7.COPY_PAYLOAD _ _ _ _) as [ok buf] eqn:E.
  apply COPY_PAYLOAD_typed in E; [|auto 10 with typed]. apply if_both; auto 12 with typed.
Qed.

Lemma classify_write_typed n total k req s :
  is_u64 n -> key_typed k -> request_typed req -> l7_typed s ->
  l7_typed (L7.classify_write v m ptr n total cid conn k req s).
Proof.
  intros Hn Hk Hr Hs. unfold L7.classify_write. cbv zeta.
  assert (is_u8 (request_type req)) as Ht by apply Hr.
  assert (is_s32 (request_id req)) as Hid by apply Hr.
  assert (is_s16 (k_stream_id k)) as Hst by apply Hk.
  repeat (branch_eq l7_typed;
    repeat match goal with
    | E : Postgres.is_postgres_query _ _ _ _ = _ |- _ => apply postgres_type in E; [|done]
    | E : Mysql.is_mysql_query _ _ _ _ = _ |- _ => apply mysql_type in E; [|done]
    | E : Cassandra.is_cassandra_request _ _ _ _ = _ |- _ => apply cassandra_stream in E; [|done]
    | E : Dns.is_dns_request _ _ _ _ = _ |- _ => apply dns_stream in E; [|done]
    | E : Kafka.is_kafka_request _ _ _ _ = _ |- _ => apply kafka_id in E; [|done]
    end);
    lazymatch goal with
    | |- l7_typed (L7.track_request _ _ _ _ _ _ _) => apply track_request_typed
    | |- l7_typed (L7.statement_close _ _ _ _ _ _ _ _) => apply statement_close_typed
    | |- l7_typed (L7.produce _ _ _ _ _) => apply produce_typed
    | |- l7_typed (L7.http2_frames _ _ _ _ _ _ _ _ _) => apply http2_frames_typed
    | |- _ => idtac
    end; try done; auto 12 with typed.
  apply ty_rq_protocol; [auto with typed|].
  destruct (L7.requests s !! _) as [prev|] eqn:E; [|auto 10 with typed].
  apply request_lookup_typed in E as [_ Hp]; [|done].
  assert (is_u64 (ns prev)) by apply Hp. apply if_both; auto 10 with typed.
Qed.

Lemma respond_typed b k req e s :
  event_typed e -> l7_typed s -> l7_typed (L7.respond v b cid conn k req e s).
Proof. intros He Hs. unfold L7.respond. apply if_both; auto 10 with typed. Qed.

Lemma keep_partial_typed k req e s :
  key_typed k -> request_typed req -> event_typed e -> l7_typed s ->
  l7_typed (L7.keep_partial v k req e s).
Proof. intros Hk Hr He Hs. unfold L7.keep_partial. auto 10 with typed. Qed.

Lemma answer_payload_typed req e :
  request_typed req -> event_typed e ->
  is_array 1024 (write_at 0 (take (Z.to_nat (TRUNCATE_PAYLOAD_SIZE (payload_size req))) (payload req))
                   (e_payload e)).
Proof.
  intros Hr He. destruct (request_payload _ Hr) as [Hl Hb], (event_payload _ He) as [Hl' Hb'].
  pose proof (TRUNCATE_PAYLOAD_SIZE_range (payload_size req)).
  split; [|auto with typed]. rewrite write_at_length; [done|]. rewrite length_take. lia.
Qed.

Lemma match_response_typed ret total k req resp e s :
  key_typed k -> request_typed req -> event_typed e -> l7_typed s ->
  l7_typed (L7.match_response v m ptr ret total cid conn k req resp e s).
Proof.
  intros Hk Hr He Hs. unfold L7.match_response. cbv zeta.
  pose proof (answer_payload_typed req e Hr He) as Hpay.
  set (e1 := L7.ev_set_payload _ _). assert (event_typed e1) as He1 by (subst e1; auto with typed).
  assert (is_s32 (e_status e1)) as Hst by auto with typed.
  assert (is_u32 (e_statement_id e1)) as Hsid by apply He1.
  set (r1 := L7.rq_set_payload_size _ req) in *.
  assert (request_typed r1) as Hr1 by (subst r1; auto with typed).
  set (s1 := L7.set_requests _ s). assert (l7_typed s1) as Hs1 by (subst s1; auto with typed).
  clearbody e1 r1 s1.
  repeat (branch_eq l7_typed;
    repeat match goal with
    | E : Http.is_http_response _ _ _ = _ |- _ => apply http_status in E; [|done]
    | E : Postgres.is_postgres_response _ _ _ _ = _ |- _ => apply postgres_status in E; [|done]
    | E : Redis.is_redis_response _ _ _ _ = _ |- _ => apply redis_status in E; [|done]
    | E : Memcached.is_memcached_response _ _ _ _ = _ |- _ => apply memcached_status in E; [|done]
    | E : Mysql.is_mysql_response _ _ _ _ _ _ = (_, _, _) |- _ => apply mysql_status in E as [? ?]; [|done..]
    | E : Clickhouse.is_clickhouse_response _ _ _ = _ |- _ => apply clickhouse_status in E; [|done]
    | E : Zookeeper.is_zk_response _ _ _ _ _ = _ |- _ => apply zk_status in E; [|done]
    | E : Dubbo2.is_dubbo2_response _ _ _ = _ |- _ => apply dubbo2_status in E; [|done]
    | E : Fdb.is_foundationdb_response _ _ _ _ = _ |- _ => apply fdb_status in E
    end);
    lazymatch goal with
    | |- l7_typed (L7.respond _ _ _ _ _ _ _ _) => apply respond_typed
    | |- l7_typed (L7.keep_partial _ _ _ _ _) => apply keep_partial_typed
    | |- _ => idtac
    end; try done; try apply (if_both event_typed); auto 12 with typed.
Qed.

Lemma unsolicited_typed ret total k e s :
  is_u64 ret -> key_typed k -> event_typed e -> l7_typed s ->
  l7_typed (L7.unsolicited v m ptr ret total cid conn k e s).
Proof.
  intros Hret Hk He Hs. unfold L7.unsolicited. cbv zeta.
  assert (is_s16 (k_stream_id k)) as Hst by apply Hk.
  destruct (Dns.is_dns_response _ _ _ _ _) as [[yes sid] st] eqn:E.
  apply dns_status in E as [Hsid Hst']; [|done|auto with typed]. destruct yes.
  - branch l7_typed; [|auto with typed].
    destruct (L7.COPY_PAYLOAD _ _ _ _) as [ok buf] eqn:E.
    apply COPY_PAYLOAD_typed in E; [|auto 10 with typed]. apply if_both; auto 12 with typed.
  - cbn [k_fd k_pid k_is_tls k_stream_id].
    destruct (Cassandra.is_cassandra_response _ _ _ _ _) as [[yes sid2] st2] eqn:E.
    apply cassandra_status in E as [Hsid2 Hst2]; [|done|auto with typed]. destruct yes.
    + branch l7_typed; [|auto with typed].
      match goal with E : L7.requests s !! _ = Some _ |- _ => apply request_lookup_typed in E as [? ?]; [|done] end.
      apply match_response_typed; auto with typed.
    + apply if_both; [|auto with typed]. apply http2_frames_typed; auto with typed.
Qed.

Lemma classify_read_typed ret total k s :
  is_u64 ret -> key_typed k -> l7_typed s ->
  l7_typed (L7.classify_read v m ptr ret total cid conn k s).
Proof.
  intros Hret Hk Hs. unfold L7.classify_read. cbv zeta.
  set (e := L7.ev_set_payload_size 0 _).
  assert (event_typed e) as He by (subst e; auto 12 with typed). clearbody e.
  repeat branch l7_typed; auto 12 with typed.
  - match goal with E : L7.requests s !! _ = Some _ |- _ => apply request_lookup_typed in E as [? ?]; [|done] end.
    by apply match_response_typed.
  - by apply unsolicited_typed.
Qed.
End handlers.

(** ** The hooks *)

#[local] Strategy 100 [L7.read_iovec_loop].

Lemma gathered_size m iovec iovlen ret buf n buf' total :
  0 <= ret -> L7.read_iovec m iovec iovlen ret buf 0 = (n, buf', total) -> is_u64 n.
Proof.
  intros Hret R. apply read_iovec_sizes in R. unfold iovec_sizes in R.
  destruct (L7.read_iovec m iovec iovlen ret iovec_buf_zero 0) as [[n0 b0] t0] eqn:E.
  injection R as -> ->. unfold L7.read_iovec in E.
  apply read_iovec_loop_bounds in E; [|unfold MAX_PAYLOAD_SIZE; case_step; lia..|done].
  unfold is_u64, MAX_PAYLOAD_SIZE in *. case_step_in E; lia.
Qed.

Lemma count_typed f cid s :
  (forall c, connection_typed c -> connection_typed (f c)) -> l7_typed s ->
  l7_typed (L7.set_connections (alter f cid) s).
Proof.
  intros Hf. apply l7_typed_set_tcp, typed_set_connections. apply typed_alter.
  intros c [Hk Hc]. by split; [|apply Hf].
Qed.
Lemma add_sent_typed n c : connection_typed c -> connection_typed (L7.add_sent n c).
Proof. intros (? & ? & ?). split_and!; cbn; auto with typed. Qed.
Lemma add_received_typed n c : connection_typed c -> connection_typed (L7.add_received n c).
Proof. intros (? & ? & ?). split_and!; cbn; auto with typed. Qed.

Lemma enter_write_typed v fd is_tls buf n iovlen s :
  env_typed v -> is_u16 is_tls -> is_u64 n -> l7_typed s ->
  l7_typed (L7.trace_enter_write v fd is_tls buf n iovlen s).
Proof.
  intros Hv Ht Hn Hs. unfold L7.trace_enter_write.
  destruct (L7.connections s !! _) as [conn|] eqn:C; [|done].
  apply connection_lookup_typed in C as [Hc Hconn]; [|done].
  set (g := if negb (iovlen =? 0) then _ else _).
  assert (exists m ptr n' total s', g = (m, ptr, n', total, s') /\ is_u64 n' /\ l7_typed s')
    as (m & ptr & n' & total & s' & -> & Hn' & Hs').
  { subst g. case_match; [|by eauto 10]. unfold L7.gather.
    destruct (L7.read_iovec _ _ _ _ _ _) as [[n0 h] total] eqn:R.
    apply gathered_size in R; [|lia]. do 5 eexists. split; [done|]. auto with typed. }
  case_match; [done|].
  match goal with |- l7_typed (L7.classify_write _ _ _ _ _ _ _ _ _ ?s0) => assert (l7_typed s0) as Hs0 end.
  { apply if_both; [|done]. by apply count_typed; [apply add_sent_typed|]. }
  apply classify_write_typed; try done.
  - split_and!; cbn; try apply Hc; auto with typed.
  - pose proof (request_slot_typed v _ Hs0) as Hr. unfold request_typed in *. cbn. intuition auto with typed.
Qed.

Lemma enter_read_typed v id pid fd buf ret iovlen s :
  is_u64 fd -> is_u64 buf -> is_u64 ret -> is_u64 iovlen -> l7_typed s ->
  l7_typed (L7.trace_enter_read v id pid fd buf ret iovlen s).
Proof.
  intros Hf Hb Hr Hi Hs. unfold L7.trace_enter_read. case_match; [|done].
  apply l7_typed_set_reads; [|done]. by apply (typed_lru (fun _ => read_typed)).
Qed.

Lemma exit_read_typed v id pid is_tls ret s :
  env_typed v -> is_u16 is_tls -> is_s64 ret -> l7_typed s ->
  l7_typed (L7.trace_exit_read v id pid is_tls ret s).
Proof.
  intros Hv Ht Hret Hs. unfold L7.trace_exit_read.
  destruct (L7.active_reads s !! id) as [args|] eqn:E; [|done].
  assert (l7_typed (L7.set_reads (delete id) s)) as Hs1
    by (apply l7_typed_set_reads; auto with typed).
  destruct (L7.connections s !! _) as [conn|] eqn:C; [|done].
  apply connection_lookup_typed in C as [Hc Hconn]; [|done]. cbv zeta.
  apply if_both; [done|].
  destruct (if negb (ra_ret args =? 0) then _ else Some ret) as [r|] eqn:Hr; [|done].
  assert (is_s64 r) as Hr'.
  { case_match; [|by simplify_eq]. destruct (read_u64 _ _); simplify_eq/=. unfold is_s64. mod_lia. }
  destruct (Z.leb_spec r 0); [done|].
  set (g := if negb (ra_iovlen args =? 0) then _ else _).
  assert (exists m ptr n' total s', g = (m, ptr, n', total, s') /\ is_u64 n' /\ l7_typed s')
    as (m & ptr & n' & total & s' & -> & Hn' & Hs').
  { subst g. destruct (negb (ra_iovlen args =? 0)).
    - unfold L7.gather. destruct (L7.read_iovec _ _ _ _ _ _) as [[n0 h] total] eqn:R.
      apply gathered_size in R; [|lia]. do 5 eexists. split; [done|]. auto with typed.
    - do 5 eexists. split; [done|]. split; [|done]. unfold is_u64, is_s64 in *. lia. }
  apply if_both; [done|].
  match goal with |- l7_typed (L7.classify_read _ _ _ _ _ _ _ _ ?s0) => assert (l7_typed s0) as Hs0 end.
  { apply if_both; [|done]. by apply count_typed; [apply add_received_typed|]. }
  apply classify_read_typed; try done. split_and!; cbn; try apply Hc; auto with typed.
Qed.

(** ** The object *)

Section object.
Context `{Arch}.

(** The contexts of the programs hold values of their C types; the registers that
    carry a length are 64-bit words. *)
Definition program_typed (p : Object.program) : Prop :=
  match p with
  | Object.task_newtask args => is_u32 (Proc.nt_pid args)
  | Object.sched_process_exit args => is_u32 (Proc.sp_pid args)
  | Object.inet_sock_set_state ctx => forall a, ctx = Some a -> state_args_typed a
  | Object.sys_enter_connect ctx => forall fd, ctx = Some fd -> is_u64 fd
  | Object.tcp_retransmit_skb args => retransmit_args_typed args
  | Object.sys_enter_write ctx | Object.sys_enter_writev ctx | Object.sys_enter_sendmsg ctx
  | Object.sys_enter_sendmmsg ctx | Object.sys_enter_sendto ctx | Object.sys_enter_read ctx
  | Object.sys_enter_readv ctx | Object.sys_enter_recvmsg ctx | Object.sys_enter_recvfrom ctx =>
      rw_typed ctx
  | Object.sys_exit_read ret | Object.sys_exit_readv ret | Object.sys_exit_recvmsg ret
  | Object.sys_exit_recvfrom ret => is_s64 ret
  | Object.go_crypto_tls_write_enter ctx => is_u64 (GO_PARAM3 ctx)
  | Object.go_crypto_tls_read_enter ctx => is_u64 (GO_PARAM2 ctx)
  | Object.openssl_SSL_write_enter _ ctx => is_u64 (PT_REGS_PARM3 ctx)
  | Object.openssl_SSL_read_enter _ ctx => is_u64 (PT_REGS_PARM2 ctx)
  | Object.openssl_SSL_read_ex_enter _ ctx => is_u64 (PT_REGS_PARM2 ctx) /\ is_u64 (PT_REGS_PARM4 ctx)
  | Object.seed_connection cid now => cid_typed cid /\ is_u64 now
  | _ => True
  end.

Record typed (s : Object.st) : Prop := {
  ty_proc : Forall proc_event_typed (Proc.proc_events (Object.proc s));
  ty_files : files_typed (Object.files s);
  ty_l7 : l7_typed (Object.l7 s)
}.

Lemma run_proc_typed v p s :
  program_typed p -> Forall proc_event_typed (Proc.proc_events (Object.proc s)) ->
  Forall proc_event_typed (Proc.proc_events (Object.proc (Object.run v p s))).
Proof.
  intros Hp Hs. destruct p; try destruct b; try exact Hs; cbn in Hp.
  - cbn. unfold Proc.task_newtask. case_match; [done|]. cbn. apply Forall_app_2; [done|].
    constructor; [|constructor]. split_and!; cbn; auto with typed.
  - cbn. unfold Proc.sched_process_exit. case_match; [done|].
    case_match; cbn; (apply Forall_app_2; [done|]; constructor; [|constructor]);
      split_and!; cbn; auto with typed.
Qed.

Lemma exit_open_typed v ret s : files_typed s -> files_typed (File.trace_exit_open v ret s).
Proof.
  intros [Hi He]. unfold File.trace_exit_open.
  destruct (File.open_file_info s !! _) as [i|] eqn:E; [|done]. apply Hi in E as [? ?].
  case_match; split; cbn; auto with typed. apply Forall_app_2; [done|].
  constructor; [|constructor]. split_and!; cbn; auto with typed.
Qed.

Lemma enter_open_typed v stack flags filename s :
  files_typed s -> files_typed (File.trace_enter_open v stack flags filename s).
Proof.
  intros Hs. unfold File.trace_enter_open. cbv zeta. repeat (apply if_both; [done|]).
  destruct Hs as [Hi He]. split; [|done]. cbn. apply typed_hash; [|done].
  split; cbn; [auto with typed|]. apply if_both; auto with typed.
Qed.

Lemma run_files_typed v p s :
  files_typed (Object.files s) -> files_typed (Object.files (Object.run v p s)).
Proof.
  intros Hs. destruct p; try destruct b; try exact Hs; cbn.
  - unfold File.path_get. case_match; [|done]. destruct (read_u64 _ _) as [mnt|] eqn:R; [|done].
    apply read_u64_range in R. destruct Hs as [Hi He]. split; [|done]. cbn.
    apply typed_alter; [|done]. intros i [? ?]. by split.
  - by apply enter_open_typed.
  - by apply exit_open_typed.
  - by apply enter_open_typed.
  - by apply exit_open_typed.
Qed.

Lemma later_typed n v : env_typed v -> env_typed (later n v).
Proof. intros []. split; [done|]. intros i. cbn. apply ty_ktime0. Qed.

Lemma sendmmsg_typed n i v ctx offset s :
  env_typed v -> l7_typed s -> l7_typed (L7.sendmmsg_loop n i v ctx offset s).
Proof.
  revert i v offset s. induction n as [|n IH]; intros i v offset s Hv Hs; [done|].
  cbn [L7.sendmmsg_loop]. apply if_both; [done|]. case_match; [|done]. cbv zeta.
  apply IH; [by apply later_typed|]. apply enter_write_typed; auto with typed.
Qed.

(** The descriptors the TLS probes find are 32-bit. *)
Lemma u32_u64 z : is_u32 z -> is_u64 z.
Proof. unfold is_u32, is_u64. lia. Qed.
Lemma s64_is z : is_s64 (s64 z).
Proof. unfold is_s64. mod_lia. Qed.
Lemma s32_s64 z : is_s64 (s32 z).
Proof. pose proof (s32_is z). unfold is_s32, is_s64 in *. lia. Qed.

Lemma go_fd_typed v ctx fd : GoTls.go_crypto_tls_get_fd_from_conn v ctx = Some fd -> is_u64 fd.
Proof.
  unfold GoTls.go_crypto_tls_get_fd_from_conn. intros Hf. repeat case_step_in Hf; try done.
  by eapply u32_u64, read_u32_range.
Qed.
Lemma ssl_fd_typed v ctx b rw fd : OpenSsl.GET_FD v ctx b rw = Some fd -> is_u64 fd.
Proof.
  unfold OpenSsl.GET_FD. cbv zeta. intros Hf. repeat case_step_in Hf; simplify_eq.
  apply u32_u64, u32_is.
Qed.

(** A program that ends in a call of a hook, or gives up before. *)
Ltac hook_typed :=
  lazymatch goal with
  | |- l7_typed (let? _ := GoTls.go_crypto_tls_get_fd_from_conn ?v ?ctx else _ in _) =>
      destruct (GoTls.go_crypto_tls_get_fd_from_conn v ctx) eqn:?;
      [match goal with E : _ = Some _ |- _ => apply go_fd_typed in E end; hook_typed|done]
  | |- l7_typed (let? _ := OpenSsl.GET_FD ?v ?ctx ?b ?rw else _ in _) =>
      destruct (OpenSsl.GET_FD v ctx b rw) eqn:?;
      [match goal with E : _ = Some _ |- _ => apply ssl_fd_typed in E end; hook_typed|done]
  | |- l7_typed (let? _ := probe_read ?m ?a ?n else _ in _) =>
      destruct (probe_read m a n) eqn:?;
      [match goal with E : probe_read _ _ _ = Some _ |- _ => apply msghdr_u64 in E as [? ?] end; hook_typed|done]
  | |- l7_typed (let? _ := _ else _ in _) => case_match; [hook_typed|done]
  | |- l7_typed (L7.trace_enter_write _ _ _ _ _ _ _) => apply enter_write_typed
  | |- l7_typed (L7.trace_enter_read _ _ _ _ _ _ _ _) => apply enter_read_typed
  | |- l7_typed (L7.trace_exit_read _ _ _ _ _ _) => apply exit_read_typed
  | |- l7_typed (L7.sys_enter_sendmmsg _ _ _) => apply sendmmsg_typed
  | |- l7_typed ?t => let h := get_head t in unfold h; cbv beta zeta; hook_typed
  end.

Lemma run_l7_typed v p s :
  env_typed v -> program_typed p -> l7_typed (Object.l7 s) -> l7_typed (Object.l7 (Object.run v p s)).
Proof.
  intros Hv Hp Hs.
  destruct p; try exact Hs; cbn in Hp; try destruct b;
    cbn [Object.run Object.set_l7 Object.set_tcp Object.l7];
    try (apply l7_typed_set_tcp; [|done]);
    auto using tcp_typed_ct, tcp_typed_set_state, tcp_typed_enter_connect, tcp_typed_exit_connect,
      tcp_typed_close, tcp_typed_retransmit, tcp_typed_seed;
    try lazymatch type of Hp with rw_typed _ => destruct Hp as (Hf & Hb & Hn) end;
    try lazymatch type of Hp with _ /\ _ => destruct Hp as [Hp2 Hp4] end; hook_typed; auto using s64_is, s32_s64 with typed.
Qed.

Lemma typed_init : typed Object.init.
Proof.
  split; [constructor|split; [apply map_Forall_empty|constructor]|].
  split; [apply tcp_typed_init|apply map_Forall_empty..|constructor].
Qed.

Lemma run_typed v p s : env_typed v -> program_typed p -> typed s -> typed (Object.run v p s).
Proof.
  intros Hv Hp []. split; [by apply run_proc_typed|by apply run_files_typed|by apply run_l7_typed].
Qed.

(** A trace whose contexts, clocks and pids have the kernel's types. *)
Definition trace_typed (tr : list (env * Object.program)) : Prop :=
  Forall (fun vp => env_typed vp.1 /\ program_typed vp.2) tr.

Lemma exec_keeps_typed s tr : typed s -> trace_typed tr -> typed (ObjectSpec.exec s tr).
Proof.
  intros Hs Htr. revert s Hs. induction Htr as [|[v p] tr [Hv Hp] _ IH]; intros s Hs; [done|].
  by apply IH, run_typed.
Qed.

(** Type soundness: in every run whose contexts, clocks and pids have the kernel's
    types, every connection, pending request, read, file and event the maps and
    perf buffers hold has values of its C types: 64-bit counters and times, 32-bit
    pids, 16-byte addresses, 1024-byte payloads. *)
Theorem exec_typed tr : trace_typed tr -> typed (ObjectSpec.exec Object.init tr).
Proof. apply exec_keeps_typed, typed_init. Qed.
End object.

Lemma exec_typed_witness :
  let v := env_at (77 * 2^32 + 78) 1000 mem_empty in
  typed (@ObjectSpec.exec X86.arch Object.init
    [(v, Object.sys_enter_connect (Some 9));
     (v, Object.inet_sock_set_state (Some Tcp.demo_socket));
     (v, Object.sys_enter_write (L7.RwArgs 9 4096 12))]).
Proof.
  intros v. apply (@exec_typed X86.arch).
  assert (env_typed v) as Hv by (by split; [|intros ?]; split; vm_compute).
  repeat (apply Forall_cons_2; [split; [exact Hv|]|]); [| | |by constructor].
  - intros fd [= <-]. split; vm_compute; congruence.
  - intros a [= <-]. split_and!; try (split; vm_compute; congruence);
      (split; [done|]); apply Forall_replicate; lia.
  - split_and!; split; vm_compute; congruence.
Defined.

End Typed.
