(* ===== verification/Parsers.v ===== *)
(** * Parsers of the reported payloads

    ebpftracer/l7/*.go: what the agent makes of the payload of an event.  The SQL
    parsers keep the statements the client prepared; the rest are functions of the
    payload.  Statements are byte strings; a run-time panic is [Panic]. *)

From S2P Require Import Prelude GoLib.

Module Parsers.

Definition space : bytes := [32].
Definition crlf : bytes := [13; 10].

(** ** l7.go *)

Definition ProtocolHTTP : Z := 1.
Definition ProtocolPostgres : Z := 2.
Definition ProtocolRedis : Z := 3.
Definition ProtocolMemcached : Z := 4.
Definition ProtocolMysql : Z := 5.
Definition ProtocolMongo : Z := 6.
Definition ProtocolKafka : Z := 7.
Definition ProtocolCassandra : Z := 8.
Definition ProtocolRabbitmq : Z := 9.
Definition ProtocolNats : Z := 10.
Definition ProtocolHTTP2 : Z := 11.
Definition ProtocolDubbo2 : Z := 12.
Definition ProtocolDNS : Z := 13.
Definition ProtocolClickhouse : Z := 14.
Definition ProtocolZookeeper : Z := 15.
Definition ProtocolFoundationDB : Z := 16.

Definition MethodUnknown : Z := 0.
Definition MethodProduce : Z := 1.
Definition MethodConsume : Z := 2.
Definition MethodStatementPrepare : Z := 3.
Definition MethodStatementClose : Z := 4.
Definition MethodHttp2ClientFrames : Z := 5.
Definition MethodHttp2ServerFrames : Z := 6.

(** [strconv.Itoa] *)
Definition Itoa (n : Z) : bytes := if n <? 0 then 45 :: FormatUint (- n) else FormatUint n.

Definition Method_String (m : Z) : bytes :=
  if m =? MethodUnknown then str "unknown"
  else if m =? MethodProduce then str "produce"
  else if m =? MethodConsume then str "consume"
  else if m =? MethodStatementPrepare then str "statement_prepare"
  else if m =? MethodStatementClose then str "statement_close"
  else if m =? MethodHttp2ClientFrames then str "http2_client_frames"
  else if m =? MethodHttp2ServerFrames then str "http2_server_frames"
  else str "UNKNOWN:" ++ Itoa m.

Definition StatusUnknown : Z := 0.
Definition StatusOk : Z := 200.
Definition StatusFailed : Z := 500.

Definition Status_String (s : Z) : bytes :=
  if s =? StatusUnknown then str "unknown"
  else if s =? StatusOk then str "ok"
  else if s =? StatusFailed then str "failed"
  else Itoa s.

Definition Status_Http (s : Z) : bytes :=
  if (100 <=? s) && (s <? 200) then str "1xx"
  else if (200 <=? s) && (s <? 300) then str "2xx"
  else if (300 <=? s) && (s <? 400) then str "3xx"
  else if (400 <=? s) && (s <? 500) then str "4xx"
  else if (500 <=? s) && (s <? 600) then str "5xx"
  else str "unknown".

Definition Status_DNS (s : Z) : bytes :=
  if s =? 0 then str "ok"
  else if s =? 1 then str "format_error"
  else if s =? 2 then str "servfail"
  else if s =? 3 then str "nxdomain"
  else if s =? 4 then str "not_implemented"
  else if s =? 5 then str "refused"
  else [].

Definition Status_Zookeeper (s : Z) : bytes :=
  if (s <=? -1) && (s >=? -9) then str "failed"
  else if s =? -123 then str "failed"
  else str "ok".

Definition grpc_names : list string :=
  ["OK"; "CANCELLED"; "UNKNOWN"; "INVALID_ARGUMENT"; "DEADLINE_EXCEEDED"; "NOT_FOUND";
   "ALREADY_EXISTS"; "PERMISSION_DENIED"; "RESOURCE_EXHAUSTED"; "FAILED_PRECONDITION"; "ABORTED";
   "OUT_OF_RANGE"; "UNIMPLEMENTED"; "INTERNAL"; "UNAVAILABLE"; "DATA_LOSS"; "UNAUTHENTICATED"]%string.

Definition Status_GRPC (s : Z) : bytes :=
  if s <? 0 then []
  else match grpc_names !! Z.to_nat s with
       | Some name => str "grpc:" ++ str name
       | None => []
       end.

Definition Status_Error (s : Z) : bool := s =? StatusFailed.

(** ** http.go *)

Definition httpMethods : list string :=
  ["GET"; "HEAD"; "POST"; "PUT"; "PATCH"; "DELETE"; "CONNECT"; "OPTIONS"; "TRACE"]%string.
Definition isHttpMethod (s : bytes) : bool := existsb (fun m => bytes_eqb s (str m)) httpMethods.

Definition ParseHttp (payload : bytes) : bytes * bytes :=
  let '(method, rest, ok) := Cut payload space in
  if negb ok then ([], [])
  else if negb (isHttpMethod method) then ([], [])
  else
  let '(uri, _, ok) := Cut rest space in
  let uri := if negb ok then uri ++ str "..." else uri in
  (method, uri).

(** ** postgres.go *)

Definition PostgresFrameQuery : Z := 81.
Definition PostgresFrameBind : Z := 66.
Definition PostgresFrameParse : Z := 80.
Definition PostgresFrameClose : Z := 67.

(** The prepared statements of a connection, by name. *)
Abbreviation statements := (gmap bytes bytes).

(** [PostgresParser.Parse]: the text, and the statements afterwards. *)
Definition Postgres_Parse (p : statements) (payload : bytes) : bytes * statements :=
  let l := length payload in
  if (l <? 5)%nat then ([], p)
  else
  let cmd := payload.[0] in
  if cmd =? PostgresFrameQuery then
    let '(q, _, ok) := Cut (drop 5 payload) [0] in
    ((if ok : bool then q else q ++ str "..."), p)
  else if cmd =? PostgresFrameBind then
    let '(_, rest, ok) := Cut (drop 5 payload) [0] in
    if negb ok then ([], p)
    else
    let '(preparedStatementName, _, ok) := Cut rest [0] in
    if negb ok then ([], p)
    else
    (match p !! preparedStatementName with
     | Some statement => statement
     | None => str "EXECUTE " ++ preparedStatementName ++ str " /* unknown */"
     end, p)
  else if cmd =? PostgresFrameParse then
    let '(preparedStatementName, rest, ok) := Cut (drop 5 payload) [0] in
    if negb ok then ([], p)
    else
    let '(q, _, ok) := Cut rest [0] in
    let query := if ok : bool then q else q ++ str "..." in
    (str "PREPARE " ++ preparedStatementName ++ str " AS " ++ query,
     <[preparedStatementName := query]> p)
  else if cmd =? PostgresFrameClose then
    if (l <? 7)%nat then ([], p)
    else if negb (payload.[5] =? 83) then ([], p)
    else
    let '(preparedStatementName, _, ok) := Cut (drop 6 payload) [0] in
    if negb ok then ([], p)
    else ([], delete preparedStatementName p)
  else ([], p).

(** ** mysql.go *)

Definition MysqlComQuery : Z := 3.
Definition MysqlComStmtPrepare : Z := 0x16.
Definition MysqlComStmtExecute : Z := 0x17.
Definition MysqlComStmtClose : Z := 0x19.
Definition mysqlMsgHeaderSize : Z := 4.

Definition mysql_msgSize (payload : bytes) : Z :=
  Z.lor (Z.lor payload.[0] (Z.shiftl payload.[1] 8)) (Z.shiftl payload.[2] 16).

(** The closure [readQuery]: [payload[5:to]] panics when the packet says it is empty. *)
Definition mysql_readQuery (payload : bytes) : go bytes :=
  let payloadSize := Z.of_nat (length payload) in
  let to := mysqlMsgHeaderSize + mysql_msgSize payload in
  let partial := to >? payloadSize in
  let to := if partial then payloadSize else to in
  match slice payload (mysqlMsgHeaderSize + 1) to with
  | Panic => Panic
  | Val query => Val (if partial then query ++ str "..." else query)
  end.

Definition mysql_readStatementId (payload : bytes) : bytes := FormatUint (field payload 5 4).

Definition Mysql_Parse (p : statements) (payload : bytes) (statementId : Z) : go (bytes * statements) :=
  if (length payload <? 9)%nat then Val ([], p)
  else
  let cmd := payload.[4] in
  if cmd =? MysqlComQuery then
    match mysql_readQuery payload with Panic => Panic | Val q => Val (q, p) end
  else if cmd =? MysqlComStmtExecute then
    let statementIdStr := mysql_readStatementId payload in
    Val (match p !! statementIdStr with
         | Some statement => statement
         | None => str "EXECUTE " ++ statementIdStr ++ str " /* unknown */"
         end, p)
  else if cmd =? MysqlComStmtPrepare then
    match mysql_readQuery payload with
    | Panic => Panic
    | Val query =>
        let statementIdStr := FormatUint statementId in
        Val (str "PREPARE " ++ statementIdStr ++ str " FROM " ++ query, <[statementIdStr := query]> p)
    end
  else if cmd =? MysqlComStmtClose then
    Val ([], delete (mysql_readStatementId payload) p)
  else Val ([], p).

(** ** redis.go *)

(** The closure [readString] over [rest]. *)
Definition redis_readString (rest : bytes) : bytes * bytes :=
  let '(v, rest, ok) := Cut rest crlf in
  if negb ok || negb (HasPrefix v (str "$")) then ([], rest)
  else
  let '(v, rest, ok) := Cut rest crlf in
  if ok then (v, rest) else ([], rest).

Definition ParseRedis (payload : bytes) : bytes * bytes :=
  let '(v, rest, ok) := Cut payload crlf in
  if negb ok || negb (HasPrefix v (str "*")) then ([], [])
  else
  let? arrayLen := ParseUint 32 (drop 1 v) else ([], []) in
  let '(cmd, rest) := redis_readString rest in
  if bytes_eqb cmd [] then (cmd, [])
  else if arrayLen >? 1 then
    let '(args, _) := redis_readString rest in
    (cmd, if arrayLen >? 2 then args ++ str " ..." else args)
  else (cmd, []).

(** ** memcached.go *)

Definition memcached_key_commands : list string :=
  ["set"; "add"; "cas"; "append"; "prepend"; "replace"; "delete"; "incr"; "decr"; "touch"]%string.

Definition ParseMemcached (payload : bytes) : bytes * list bytes :=
  let '(command, rest, ok) := Cut payload space in
  if negb ok then ([], [])
  else if existsb (fun c => bytes_eqb command (str c)) memcached_key_commands then
    let '(key, _, ok) := Cut rest space in
    if ok then (command, [key]) else ([], [])
  else if bytes_eqb command (str "gat") || bytes_eqb command (str "gats") then
    let '(_, rest, ok) := Cut rest space in
    if ok then
      let '(keys, _, ok) := Cut rest crlf in
      if ok then (command, Split keys 32) else ([], [])
    else ([], [])
  else if bytes_eqb command (str "get") || bytes_eqb command (str "gets") then
    let '(keys, _, ok) := Cut rest crlf in
    if ok then (command, Split keys 32) else ([], [])
  else ([], []).

(** ** zookeeper.go *)

Definition zkOpCreate : Z := 1.
Definition zkOpDelete : Z := 2.
Definition zkOpExists : Z := 3.
Definition zkOpGetData : Z := 4.
Definition zkOpSetData : Z := 5.
Definition zkOpGetAcl : Z := 6.
Definition zkOpSetAcl : Z := 7.
Definition zkOpGetChildren : Z := 8.
Definition zkOpSync : Z := 9.
Definition zkOpPing : Z := 11.
Definition zkOpGetChildren2 : Z := 12.
Definition zkOpCheck : Z := 13.
Definition zkOpMulti : Z := 14.
Definition zkOpReconfig : Z := 16.
Definition zkOpCreateContainer : Z := 19.
Definition zkOpCreateTTL : Z := 21.
Definition zkOpClose : Z := -11.
Definition zkOpSetAuth : Z := 100.
Definition zkOpSetWatches : Z := 101.

(** [r.Read(res)] of [l] bytes: an error at the end of the input only. *)
Definition zkReadString (r : bytes) : bytes :=
  let? (l, r) := be_uint32 r else [] in
  if l >? 1024 then []
  else if (length r =? 0)%nat then []
  else
  let res := take (Z.to_nat l) r in
  if Z.of_nat (length res) <? l then res ++ str "...<TRUNCATED>" else res.

#[local] Open Scope reader_scope.

(** [zkMultiHeader]: the type, a flag and an error code. *)
Definition zkMultiHeader : reader Z :=
  t <- be_uint32 ;; _ <- take_bytes 1 ;; _ <- be_uint32 ;; ret (s32 t).

(** The operations and, if they are followed by a path, that they are. *)
Definition zk_ops : list (Z * string * bool) :=
  [(zkOpCreate, "create", true); (zkOpDelete, "delete", true); (zkOpExists, "exists", true);
   (zkOpGetAcl, "getAcl", true); (zkOpSetAcl, "setAcl", true);
   (zkOpGetChildren, "getChildren", true); (zkOpSync, "sync", true); (zkOpPing, "ping", false);
   (zkOpGetChildren2, "getChildren2", true); (zkOpCheck, "check", true);
   (zkOpReconfig, "reconfig", false); (zkOpCreateContainer, "createContainer", true);
   (zkOpCreateTTL, "createTTL", true); (zkOpClose, "close", false);
   (zkOpSetAuth, "setAuth", false); (zkOpSetWatches, "setWatches", false);
   (zkOpGetData, "getData", true); (zkOpSetData, "setData", true)]%string.

(** [None]: out of fuel; every level of [multi] consumes a header. *)
Fixpoint zkParse (fuel : nat) (r : bytes) (opCode : Z) : option (bytes * bytes) :=
  match fuel with
  | O => None
  | S fuel =>
      match List.find (fun o => o.1.1 =? opCode) zk_ops with
      | Some (_, name, path) => Some (str name, if path then zkReadString r else [])
      | None =>
          if opCode =? zkOpMulti then
            match zkMultiHeader r with
            | None => Some ([], [])
            | Some (type, r) =>
                let? (op, arg) := zkParse fuel r type else None in
                Some (str "multi(" ++ op ++ str ", ...)", arg)
            end
          else Some ([], [])
      end
  end.

(** [zkRequestHeader]: length, xid and type; only the type is used. *)
Definition zkRequestHeader : reader Z :=
  _ <- be_uint32 ;; _ <- be_uint32 ;; t <- be_uint32 ;; ret (s32 t).

Definition ParseZookeeper (payload : bytes) : option (bytes * bytes) :=
  match zkRequestHeader payload with
  | None => Some ([], [])
  | Some (op, r) => zkParse (S (length r)) r op
  end.

(** ** mongo.go *)

Definition MongoOpMSG : Z := 2013.
Definition mongoHeaderLength : nat := 20.
Definition mongoOpCodeOffset : nat := 12.
Definition mongoSectionKindBody : Z := 0.

(** [bson_String] is [bson.Raw.String] of the MongoDB driver. *)
Definition ParseMongo (bson_String : bytes -> bytes) (payload : bytes) : bytes :=
  let res := str "<truncated>" in
  if (length payload <? mongoHeaderLength + 1 + 4)%nat then res
  else
  let opCode := field payload mongoOpCodeOffset 4 in
  if negb (opCode =? MongoOpMSG) then res
  else
  let sectionKind := payload.[mongoHeaderLength] in
  if negb (sectionKind =? mongoSectionKindBody) then res
  else
  let sectionData := drop (mongoHeaderLength + 1) payload in
  let sectionLength := field sectionData 0 4 in
  if (sectionLength <? 1) || (sectionLength >? Z.of_nat (length sectionData)) then res
  else bson_String sectionData.

End Parsers.
