(* ===== verification/ParsersSpec.v ===== *)
(** * Correctness of the payload parsers

    The parsers invert the encodings of the protocols; the SQL parsers name the
    statement a client executes by its history; ZooKeeper transactions of any
    depth are parsed to the end. *)

From S2P Require Import Prelude GoLib ProtoSql Parsers.

Module ParsersSpec.
Import Parsers.

(** No byte [c] occurs. *)
Definition free (c : Z) (s : bytes) : Prop := Forall (fun b => b <> c) s.

(** ** HTTP *)

Lemma isHttpMethod_free m : isHttpMethod m = true -> free 32 m.
Proof.
  unfold isHttpMethod. rewrite existsb_exists. intros (n & Hn & Hm).
  apply bool_decide_eq_true in Hm as ->.
  repeat (destruct Hn as [<-|Hn]; [repeat (constructor; [done|]); constructor|]). by destruct Hn.
Qed.

Lemma ParseHttp_line m uri rest :
  isHttpMethod m = true -> free 32 uri -> ParseHttp (m ++ 32 :: uri ++ 32 :: rest) = (m, uri).
Proof.
  intros Hm Hu. pose proof (isHttpMethod_free m Hm). unfold ParseHttp, space.
  rewrite !Cut_app by done. cbn [negb]. rewrite Hm. cbn [negb]. done.
Qed.

(** A request line gives the method and the target, and one that is cut off in the
    target gives what there is of it with an ellipsis. *)
Theorem ParseHttp_request_line m uri rest :
  isHttpMethod m = true -> free 32 uri ->
  ParseHttp (m ++ 32 :: uri ++ 32 :: rest) = (m, uri) /\
  ParseHttp (m ++ 32 :: uri) = (m, uri ++ str "...").
Proof.
  intros Hm Hu. split; [by apply ParseHttp_line|].
  pose proof (isHttpMethod_free m Hm). unfold ParseHttp, space.
  rewrite !Cut_app by done. cbn [negb]. rewrite Hm. cbn [negb]. by rewrite Cut_none.
Qed.

Lemma ParseHttp_request_line_witness :
  ParseHttp (str "HEAD /1 HTTP/1.1") = (str "HEAD", str "/1") /\
  ParseHttp (str "GET /too-long-uri") = (str "GET", str "/too-long-uri...").
Proof.
  split.
  - refine (proj1 (ParseHttp_request_line (str "HEAD") (str "/1") (str "HTTP/1.1") _ _)); [done|].
    repeat (constructor; [done|]). constructor.
  - refine (proj2 (ParseHttp_request_line (str "GET") (str "/too-long-uri") [] _ _)); [done|].
    repeat (constructor; [done|]). constructor.
Defined.

(** ** PostgreSQL *)

(** The messages of a client.  The text of a query is followed by its zero byte and the
    rest of the payload, or is cut off by the end of the capture ([None]). *)
Inductive pg_frame :=
| pg_query (q : bytes) (tail : option bytes)
| pg_parse (name q : bytes) (tail : option bytes)
| pg_bind (portal name tail : bytes)
| pg_close_statement (name tail : bytes)
| pg_close_portal (name tail : bytes).

Definition pg_rest (tail : option bytes) : bytes :=
  match tail with Some tail => 0 :: tail | None => [] end.

(** A message on the wire: its type, four bytes of length, its body. *)
Definition pg_bytes (m : bytes * pg_frame) : bytes :=
  let (len, f) := m in
  match f with
  | pg_query q tail => 81 :: len ++ q ++ pg_rest tail
  | pg_parse name q tail => 80 :: len ++ name ++ 0 :: q ++ pg_rest tail
  | pg_bind portal name tail => 66 :: len ++ portal ++ 0 :: name ++ 0 :: tail
  | pg_close_statement name tail => 67 :: len ++ 83 :: name ++ 0 :: tail
  | pg_close_portal name tail => 67 :: len ++ 80 :: name ++ 0 :: tail
  end.

Definition pg_ok (m : bytes * pg_frame) : Prop :=
  length m.1 = 4%nat /\
  match m.2 with
  | pg_query q _ => free 0 q
  | pg_parse name q _ => free 0 name /\ free 0 q
  | pg_bind portal name _ => free 0 portal /\ free 0 name
  | pg_close_statement name _ | pg_close_portal name _ => free 0 name
  end.

(** The text of a query as far as it was captured. *)
Definition pg_seen (q : bytes) (tail : option bytes) : bytes :=
  match tail with Some _ => q | None => q ++ str "..." end.

(** The query a name stands for after the messages [h], the latest first. *)
Fixpoint pg_prepared (h : list (bytes * pg_frame)) (name : bytes) : option bytes :=
  match h with
  | [] => None
  | (_, pg_parse n q tail) :: h =>
      if bool_decide (n = name) then Some (pg_seen q tail) else pg_prepared h name
  | (_, pg_close_statement n _) :: h =>
      if bool_decide (n = name) then None else pg_prepared h name
  | _ :: h => pg_prepared h name
  end.

(** What the agent should report of a message. *)
Definition pg_text (h : list (bytes * pg_frame)) (f : pg_frame) : bytes :=
  match f with
  | pg_query q tail => pg_seen q tail
  | pg_parse name q tail => str "PREPARE " ++ name ++ str " AS " ++ pg_seen q tail
  | pg_bind _ name _ =>
      match pg_prepared h name with
      | Some q => q
      | None => str "EXECUTE " ++ name ++ str " /* unknown */"
      end
  | pg_close_statement _ _ | pg_close_portal _ _ => []
  end.

(** The parser after a history, the latest message first. *)
Definition pg_run (h : list (bytes * pg_frame)) : statements :=
  foldr (fun m p => (Postgres_Parse p (pg_bytes m)).2) ∅ h.

Lemma Cut_pg_rest q tail :
  free 0 q -> exists rest, Cut (q ++ pg_rest tail) [0] = (q, rest, bool_decide (is_Some tail)).
Proof.
  intros Hq. destruct tail as [tail|]; cbn [pg_rest].
  - exists tail. rewrite bool_decide_eq_true_2 by eauto. by apply Cut_app.
  - exists []. rewrite bool_decide_eq_false_2 by apply is_Some_None. rewrite app_nil_r. by apply Cut_none.
Qed.

Lemma pg_seen_cut q (tail : option bytes) :
  (if bool_decide (is_Some tail) then q else q ++ str "...") = pg_seen q tail.
Proof. by destruct tail. Qed.

Lemma pg_step p m :
  pg_ok m ->
  Postgres_Parse p (pg_bytes m) =
  match m.2 with
  | pg_query q tail => (pg_seen q tail, p)
  | pg_parse name q tail =>
      (str "PREPARE " ++ name ++ str " AS " ++ pg_seen q tail, <[name := pg_seen q tail]> p)
  | pg_bind _ name _ =>
      (match p !! name with
       | Some q => q
       | None => str "EXECUTE " ++ name ++ str " /* unknown */"
       end, p)
  | pg_close_statement name _ => ([], delete name p)
  | pg_close_portal _ _ => ([], p)
  end.
Proof.
  destruct m as [len f]. intros [Hl Hok]. cbn [fst snd] in *.
  destruct len as [|l0 [|l1 [|l2 [|l3 [|]]]]]; try done.
  unfold Postgres_Parse.
  destruct f as [q tail|name q tail| | |]; cbn [pg_bytes app length Nat.ltb Nat.leb nth skipn];
    change (Z.eqb 81 PostgresFrameQuery) with true; cbn [Z.eqb Pos.eqb PostgresFrameQuery
      PostgresFrameBind PostgresFrameParse PostgresFrameClose]; rewrite ?drop_0.
  - destruct (Cut_pg_rest q tail Hok) as [rest ->]. by rewrite pg_seen_cut.
  - rewrite Cut_app by apply Hok. cbn [negb].
    destruct (Cut_pg_rest q tail (proj2 Hok)) as [rest ->]. by rewrite pg_seen_cut.
  - rewrite Cut_app by apply Hok. cbn [negb]. by rewrite Cut_app by apply Hok.
  - rewrite length_app. cbn [length]. rewrite Nat.add_succ_r. cbn [Nat.leb negb]. by rewrite Cut_app.
  - by rewrite length_app; cbn [length]; rewrite Nat.add_succ_r.
Qed.

Lemma pg_run_prepared h name : Forall pg_ok h -> pg_run h !! name = pg_prepared h name.
Proof.
  induction 1 as [|[len f] h Hf _ IH]; [done|].
  cbn [pg_run foldr]. fold (pg_run h). rewrite pg_step by done.
  destruct f as [| n q ? | | n ? |]; cbn [snd pg_prepared]; try done.
  - case_bool_decide; subst; [by rewrite lookup_insert_eq|by rewrite lookup_insert_ne].
  - case_bool_decide; subst; [by rewrite lookup_delete_eq|by rewrite lookup_delete_ne].
Qed.

(** C33: after any sequence of messages of a connection, each with a length of its own and
    its query complete or cut off by the end of the capture, the parser reports of the
    next one: the text of a simple query, the name and text of a statement that is
    prepared, and for an execution the text last prepared under its name and not
    closed since; an ellipsis marks a text that was cut off.  The names are within the
    capture and no text holds a zero byte, as in the protocol. *)
Theorem postgres_statements h m :
  Forall pg_ok h -> pg_ok m ->
  (Postgres_Parse (pg_run h) (pg_bytes m)).1 = pg_text h m.2.
Proof.
  intros Hh Hm. rewrite pg_step by done. destruct m as [len []]; cbn [fst snd pg_text]; try done.
  by rewrite pg_run_prepared.
Qed.

Ltac is_free := solve [unfold free; repeat (apply Forall_cons_2; [done|]); apply Forall_nil_2].

Lemma postgres_statements_witness :
  let h := [([0; 0; 0; 7], pg_close_statement (str "b") []);
            ([0; 0; 0; 16], pg_parse (str "a") (str "SELECT 1") (Some [0; 0]));
            ([0; 0; 16; 0], pg_parse (str "b") (str "SELECT 2") (Some []));
            ([0; 0; 16; 0], pg_parse (str "c") (str "SELECT long") None)] in
  let text := fun name => (Postgres_Parse (pg_run h) (pg_bytes ([0; 0; 0; 12], pg_bind [] name [0; 0]))).1 in
  text (str "a") = str "SELECT 1" /\ text (str "b") = str "EXECUTE b /* unknown */" /\
  text (str "c") = str "SELECT long...".
Proof.
  intros h text. assert (Forall pg_ok h) as Hh.
  { repeat (apply Forall_cons_2; [split; [done|]; cbn; first [is_free|split; is_free]|]). constructor. }
  unfold text. split_and!; apply (postgres_statements h); try done; split; try done; split; is_free.
Defined.

(** ** MySQL *)

Lemma msgSize_le_bytes n rest : 0 <= n < 2 ^ 24 -> mysql_msgSize (le_bytes 3 n ++ rest) = n.
Proof.
  intros Hn. unfold mysql_msgSize. cbn [le_bytes app nth].
  assert (n / 256 / 256 mod 256 = n / 65536) as ->.
  { rewrite Z.div_div by lia. change (256 * 256) with 65536. apply Z.mod_small.
    split; [apply Z.div_pos; lia|]. apply Z.div_lt_upper_bound; lia. }
  rewrite !lor_shiftl_add_r; [|lia|mod_lia|lia|].
  - change (2 ^ 8) with 256. change (2 ^ 16) with 65536. mod_lia.
  - rewrite lor_shiftl_add_r; [|lia|mod_lia]. change (2 ^ 8) with 256. change (2 ^ 16) with 65536. mod_lia.
Qed.

(** The commands of a client.  The id of a statement is known from the response to
    its preparation. *)
Inductive my_command :=
| my_query (q : bytes)
| my_prepare (id : Z) (q : bytes)
| my_execute (id : Z) (tail : bytes)
| my_close (id : Z).

Definition my_body (c : my_command) : bytes :=
  match c with
  | my_query q => MysqlComQuery :: q
  | my_prepare _ q => MysqlComStmtPrepare :: q
  | my_execute id tail => MysqlComStmtExecute :: le_bytes 4 id ++ tail
  | my_close id => MysqlComStmtClose :: le_bytes 4 id
  end.

(** The packet, and the part of it that fits a payload. *)
Definition my_packet (c : my_command) : bytes :=
  le_bytes 3 (Z.of_nat (length (my_body c))) ++ 0 :: my_body c.
Definition my_payload (c : my_command) : bytes := take 1024 (my_packet c).

(** Queries of four bytes or more; a packet holds less than 16 MiB. *)
Definition my_ok (c : my_command) : Prop :=
  Z.of_nat (length (my_body c)) < 2 ^ 24 /\
  match c with
  | my_query q => (4 <= length q)%nat
  | my_prepare id q => (4 <= length q)%nat /\ 0 <= id < 2 ^ 32
  | my_execute id _ | my_close id => 0 <= id < 2 ^ 32
  end.

Definition my_statement_id (c : my_command) : Z :=
  match c with my_prepare id _ => id | _ => 0 end.

Definition my_shown (q : bytes) : bytes :=
  if (length q <=? 1019)%nat then q else take 1019 q ++ str "...".

(** The text a statement id stands for after the commands [h], the latest first. *)
Fixpoint my_prepared (h : list my_command) (id : Z) : option bytes :=
  match h with
  | [] => None
  | my_prepare i q :: h => if i =? id then Some (my_shown q) else my_prepared h id
  | my_close i :: h => if i =? id then None else my_prepared h id
  | _ :: h => my_prepared h id
  end.

Definition my_text (h : list my_command) (c : my_command) : bytes :=
  match c with
  | my_query q => my_shown q
  | my_prepare id q => str "PREPARE " ++ FormatUint id ++ str " FROM " ++ my_shown q
  | my_execute id _ =>
      match my_prepared h id with
      | Some q => q
      | None => str "EXECUTE " ++ FormatUint id ++ str " /* unknown */"
      end
  | my_close _ => []
  end.

Definition my_run (h : list my_command) : statements :=
  foldr (fun c p => match Mysql_Parse p (my_payload c) (my_statement_id c) with
                    | Val (_, p) => p | Panic => p end) ∅ h.

Lemma my_payload_eq c :
  my_payload c = le_bytes 3 (Z.of_nat (length (my_body c))) ++ 0 :: take 1020 (my_body c).
Proof. done. Qed.

Lemma my_readQuery cmd q :
  Z.of_nat (length (cmd :: q)) < 2 ^ 24 -> (4 <= length q)%nat ->
  mysql_readQuery (le_bytes 3 (Z.of_nat (length (cmd :: q))) ++ 0 :: take 1020 (cmd :: q))
  = Val (my_shown q).
Proof.
  intros Hb Hq. unfold mysql_readQuery, my_shown. rewrite msgSize_le_bytes by lia.
  set (payload := le_bytes 3 _ ++ _).
  assert (length payload = (4 + Nat.min 1020 (S (length q)))%nat) as Hl.
  { subst payload. rewrite length_app, le_bytes_length. cbn [length]. rewrite length_take. cbn [length]. lia. }
  assert (forall n, take n (drop 5 payload) = take (Nat.min n 1019) q) as Ht.
  { intros n. subst payload. cbn [le_bytes app take drop]. by rewrite drop_0, take_take. }
  rewrite Hl, Z.gtb_ltb. unfold mysqlMsgHeaderSize. cbn [length]. unfold slice. rewrite Hl.
  destruct (Nat.leb_spec (length q) 1019) as [H|H].
  - destruct (Z.ltb_spec (Z.of_nat (4 + Nat.min 1020 (S (length q)))) (4 + Z.of_nat (S (length q)))); [lia|].
    destruct (Z.leb_spec (4 + 1) (4 + Z.of_nat (S (length q)))); [|lia].
    destruct (Z.leb_spec (4 + Z.of_nat (S (length q))) (Z.of_nat (4 + Nat.min 1020 (S (length q))))); [|lia].
    cbn [Z.leb andb Z.compare Z.add Pos.add Pos.succ]. change (Z.to_nat 5) with 5%nat. rewrite Ht.
    by rewrite take_ge by lia.
  - destruct (Z.ltb_spec (Z.of_nat (4 + Nat.min 1020 (S (length q)))) (4 + Z.of_nat (S (length q)))); [|lia].
    destruct (Z.leb_spec (4 + 1) (Z.of_nat (4 + Nat.min 1020 (S (length q))))); [|lia].
    rewrite Z.leb_refl. cbn [Z.leb andb Z.compare Z.add Pos.add Pos.succ].
    change (Z.to_nat 5) with 5%nat. rewrite Ht. do 3 f_equal. lia.
Qed.

Lemma FormatUint_inj a b :
  0 <= a < 2 ^ 32 -> 0 <= b < 2 ^ 32 -> FormatUint a = FormatUint b -> a = b.
Proof.
  intros Ha Hb E. apply (f_equal (ParseUint 32)) in E.
  rewrite !ParseUint_FormatUint in E by lia. congruence.
Qed.

Lemma my_readStatementId n cmd id rest :
  0 <= id < 2 ^ 32 ->
  mysql_readStatementId (le_bytes 3 n ++ 0 :: cmd :: le_bytes 4 id ++ rest) = FormatUint id.
Proof.
  intros Hid. unfold mysql_readStatementId, field.
  change (drop 5 (le_bytes 3 n ++ 0 :: cmd :: le_bytes 4 id ++ rest)) with (le_bytes 4 id ++ rest).
  rewrite take_app_length' by (by rewrite le_bytes_length). rewrite le_le_bytes.
  by rewrite Z.mod_small.
Qed.

Lemma my_step p c :
  my_ok c ->
  Mysql_Parse p (my_payload c) (my_statement_id c) =
  Val match c with
      | my_query q => (my_shown q, p)
      | my_prepare id q =>
          (str "PREPARE " ++ FormatUint id ++ str " FROM " ++ my_shown q, <[FormatUint id := my_shown q]> p)
      | my_execute id _ =>
          (match p !! FormatUint id with
           | Some q => q
           | None => str "EXECUTE " ++ FormatUint id ++ str " /* unknown */"
           end, p)
      | my_close id => ([], delete (FormatUint id) p)
      end.
Proof.
  intros [Hb Hc]. rewrite my_payload_eq. unfold Mysql_Parse.
  assert ((length (le_bytes 3 (Z.of_nat (length (my_body c))) ++ 0%Z :: take 1020 (my_body c)) <? 9)%nat
    = false) as ->.
  { apply Nat.ltb_ge. rewrite length_app, le_bytes_length. cbn [length]. rewrite length_take.
    destruct c; cbn [my_body length]; rewrite ?length_app, ?le_bytes_length; lia. }
  destruct c as [q|id q|id tail|id]; cbn [my_body my_statement_id].
  - change ((_ ++ _).[4]) with MysqlComQuery. cbn [Z.eqb Pos.eqb MysqlComQuery].
    by rewrite my_readQuery.
  - change ((_ ++ _).[4]) with MysqlComStmtPrepare.
    cbn [Z.eqb Pos.eqb MysqlComQuery MysqlComStmtPrepare MysqlComStmtExecute].
    by rewrite my_readQuery by tauto.
  - change ((_ ++ _).[4]) with MysqlComStmtExecute.
    cbn [Z.eqb Pos.eqb MysqlComQuery MysqlComStmtExecute].
    change (take 1020 (MysqlComStmtExecute :: le_bytes 4 id ++ tail))
      with (MysqlComStmtExecute :: le_bytes 4 id ++ take 1015 tail).
    by rewrite my_readStatementId.
  - change ((_ ++ _).[4]) with MysqlComStmtClose.
    cbn [Z.eqb Pos.eqb MysqlComQuery MysqlComStmtExecute MysqlComStmtPrepare MysqlComStmtClose].
    change (take 1020 (MysqlComStmtClose :: le_bytes 4 id)) with (MysqlComStmtClose :: le_bytes 4 id ++ []).
    by rewrite my_readStatementId.
Qed.

Lemma my_run_prepared h id :
  Forall my_ok h -> 0 <= id < 2 ^ 32 -> my_run h !! FormatUint id = my_prepared h id.
Proof.
  intros Hh Hid. induction Hh as [|c h Hc _ IH]; [done|].
  cbn [my_run foldr]. fold (my_run h). rewrite my_step by done.
  destruct c as [|i q| |i]; cbn [my_prepared]; try done; destruct Hc as [_ Hc].
  - destruct (Z.eqb_spec i id) as [->|Hne]; [by rewrite lookup_insert_eq|].
    rewrite lookup_insert_ne; [done|]. intros ?%FormatUint_inj; tauto.
  - destruct (Z.eqb_spec i id) as [->|Hne]; [by rewrite lookup_delete_eq|].
    rewrite lookup_delete_ne; [done|]. intros ?%FormatUint_inj; tauto.
Qed.

(** After any sequence of commands of a connection, cut at the 1024 bytes of a
    payload, the parser does not panic and reports of the next one: the text of a
    query, marked if cut; the id and text of a statement that is prepared; and for
    an execution the text last prepared under its id and not closed since. *)
Theorem mysql_statements h c :
  Forall my_ok h -> my_ok c ->
  exists p, Mysql_Parse (my_run h) (my_payload c) (my_statement_id c) = Val (my_text h c, p).
Proof.
  intros Hh Hc. rewrite my_step by done. destruct c; cbn [my_text]; eauto.
  rewrite my_run_prepared by (try apply Hc; done). eauto.
Qed.

Lemma mysql_statements_witness :
  let h := [my_close 8; my_prepare 7 (str "SELECT 1"); my_prepare 8 (str "SELECT 2")] in
  (exists p, Mysql_Parse (my_run h) (my_payload (my_execute 7 [1])) 0 = Val (str "SELECT 1", p)) /\
  (exists p, Mysql_Parse (my_run h) (my_payload (my_execute 8 [])) 0
     = Val (str "EXECUTE 8 /* unknown */", p)).
Proof.
  intros h. assert (Forall my_ok h) as Hh.
  { repeat (apply Forall_cons_2; [split; [done|cbn; lia]|]). constructor. }
  split; [refine (mysql_statements h (my_execute 7 [1]) Hh _)|refine (mysql_statements h (my_execute 8 []) Hh _)];
    (split; [done|cbn; lia]).
Defined.

(** The only payloads the parser panics on say they are empty. *)
Lemma Mysql_Parse_panics p payload id :
  bytes_ok payload -> mysql_msgSize payload <> 0 -> Mysql_Parse p payload id <> Panic.
Proof.
  intros Hb Hm.
  assert (0 <= mysql_msgSize payload) as Hp.
  { assert (forall i, 0 <= nth i payload 0) as Hn.
    { intros i. destruct (nth_in_or_default i payload 0) as [Hi| ->]; [|lia].
      apply list_elem_of_In in Hi. by eapply Forall_forall in Hb as [? _]. }
    unfold mysql_msgSize. rewrite !Z.lor_nonneg, !Z.shiftl_nonneg. auto. }
  unfold Mysql_Parse. destruct (Nat.ltb_spec (length payload) 9); [done|].
  assert (mysql_readQuery payload <> Panic) as Hr.
  { unfold mysql_readQuery, slice, mysqlMsgHeaderSize. rewrite Z.gtb_ltb.
    destruct (Z.ltb_spec (Z.of_nat (length payload)) (4 + mysql_msgSize payload));
      [rewrite Z.leb_refl|];
      repeat (case_match; [|]; split_bools; try done); lia. }
  repeat case_match; done.
Qed.

(** ** Redis *)

Definition bulk (s : bytes) : bytes := str "$" ++ FormatUint (Z.of_nat (length s)) ++ crlf ++ s ++ crlf.
Definition redis_command (args : list bytes) : bytes :=
  str "*" ++ FormatUint (Z.of_nat (length args)) ++ crlf ++ concat (map bulk args).

Lemma digits_free n : 0 <= n < 2 ^ 64 -> free 13 (FormatUint n).
Proof.
  intros Hn%FormatUint_digits. apply Forall_forall. intros b Hb%list_elem_of_In.
  rewrite forallb_forall in Hn. apply Hn in Hb. unfold is_digit in Hb. intros ->. done.
Qed.

Lemma readString_bulk s rest :
  Z.of_nat (length s) < 2 ^ 64 -> free 13 s -> redis_readString (bulk s ++ rest) = (s, rest).
Proof.
  intros Hl Hs. unfold redis_readString, bulk, crlf.
  replace ((str "$" ++ FormatUint (Z.of_nat (length s)) ++ [13; 10] ++ s ++ [13; 10]) ++ rest)
    with ((36 :: FormatUint (Z.of_nat (length s))) ++ 13 :: 10 :: (s ++ 13 :: 10 :: rest))
    by (rewrite <-!app_assoc; reflexivity).
  rewrite Cut_app2; [|constructor; [done|apply digits_free; lia]].
  change (HasPrefix _ (str "$")) with true. cbn [negb orb]. by rewrite Cut_app2.
Qed.

(** An array of strings is reported as its first string, the command, and its
    second, with an ellipsis if there are more. *)
Theorem ParseRedis_command cmd args :
  Z.of_nat (length (cmd :: args)) < 2 ^ 32 ->
  Forall (fun s => free 13 s /\ Z.of_nat (length s) < 2 ^ 64) (cmd :: args) -> cmd <> [] ->
  ParseRedis (redis_command (cmd :: args)) =
  (cmd, match args with [] => [] | [a] => a | a :: _ => a ++ str " ..." end).
Proof.
  intros Hn Hf Hc. unfold ParseRedis, redis_command, crlf.
  apply Forall_cons in Hf as [[Hcf Hcl] Hf].
  replace (str "*" ++ FormatUint (Z.of_nat (length (cmd :: args))) ++ [13; 10] ++ concat (map bulk (cmd :: args)))
    with ((42 :: FormatUint (Z.of_nat (length (cmd :: args)))) ++ 13 :: 10 :: concat (map bulk (cmd :: args)))
    by done.
  rewrite Cut_app2; [|constructor; [done|apply digits_free; lia]].
  change (HasPrefix _ (str "*")) with true. cbn [negb orb drop]. rewrite drop_0.
  cbn [map]. rewrite ParseUint_FormatUint by lia. cbn [concat]. rewrite readString_bulk by done.
  unfold bytes_eqb. rewrite bool_decide_false by done. cbn [length]. rewrite !Z.gtb_ltb.
  destruct args as [|a args]; cbn [length map concat]; [done|].
  apply Forall_cons in Hf as [[Haf Hal] _]. rewrite readString_bulk by done.
  destruct (Z.ltb_spec 1 (Z.of_nat (S (S (length args))))); [|lia].
  destruct args; cbn [length]; [done|]. by destruct (Z.ltb_spec 2 (Z.of_nat (S (S (S (length args)))))); [|lia].
Qed.

Lemma ParseRedis_command_witness :
  ParseRedis (redis_command [str "LLEN"; str "mylist"; str "xy"]) = (str "LLEN", str "mylist ...").
Proof.
  apply (ParseRedis_command (str "LLEN") [str "mylist"; str "xy"]); [done| |done].
  repeat (apply Forall_cons_2; [split; [is_free|done]|]). constructor.
Defined.

(** ** Memcached *)

Fixpoint join (sep : Z) (ws : list bytes) : bytes :=
  match ws with
  | [] => []
  | [w] => w
  | w :: ws => w ++ sep :: join sep ws
  end.

Lemma Split_join sep w ws : Forall (free sep) (w :: ws) -> Split (join sep (w :: ws)) sep = w :: ws.
Proof.
  revert w. induction ws as [|w' ws IH]; intros w [Hw Hws]%Forall_cons.
  - by apply Split_none.
  - change (join sep (w :: w' :: ws)) with (w ++ sep :: join sep (w' :: ws)).
    rewrite Split_app by done. by rewrite IH.
Qed.

Lemma join_free c sep ws : c <> sep -> Forall (free c) ws -> free c (join sep ws).
Proof.
  intros Hc. induction 1 as [|w ws Hw Hws IH]; [constructor|].
  destruct ws; [done|]. apply Forall_app_2; [done|]. by constructor.
Qed.

(** A storage command is reported with its key and a retrieval with all its keys,
    after the expiration time if it has one. *)
Theorem ParseMemcached_keys cmd key keys exptime rest :
  free 32 exptime -> Forall (free 32) (key :: keys) -> Forall (free 13) (key :: keys) ->
  (In cmd memcached_key_commands ->
     ParseMemcached (str cmd ++ 32 :: key ++ 32 :: rest) = (str cmd, [key])) /\
  (cmd = "get"%string \/ cmd = "gets"%string ->
     ParseMemcached (str cmd ++ 32 :: join 32 (key :: keys) ++ 13 :: 10 :: rest)
       = (str cmd, key :: keys)) /\
  (cmd = "gat"%string \/ cmd = "gats"%string ->
     ParseMemcached (str cmd ++ 32 :: exptime ++ 32 :: join 32 (key :: keys) ++ 13 :: 10 :: rest)
       = (str cmd, key :: keys)).
Proof.
  intros He Hk32 Hk13.
  pose proof (Split_join _ _ _ Hk32) as Hsplit.
  assert (free 13 (join 32 (key :: keys))) as Hj by (by apply join_free).
  apply Forall_cons in Hk32 as [Hk _]. unfold ParseMemcached, space, crlf.
  split_and!.
  - intros Hin. assert (free 32 (str cmd)) as Hc
      by (repeat (destruct Hin as [<-|Hin]; [is_free|]); by destruct Hin).
    rewrite Cut_app by done. cbn [negb].
    rewrite (proj2 (existsb_exists _ _)); [|exists cmd; split; [done|by apply bool_decide_eq_true]].
    by rewrite Cut_app.
  - intros [->| ->]; (rewrite Cut_app by is_free); (rewrite Cut_app2 by done);
      cbn -[join]; by rewrite Hsplit.
  - intros [->| ->]; (rewrite Cut_app by is_free); (rewrite (Cut_app exptime) by done);
      (rewrite Cut_app2 by done); cbn -[join]; by rewrite Hsplit.
Qed.

Lemma ParseMemcached_keys_witness :
  ParseMemcached (str "gets 1111 2222 3333" ++ crlf) = (str "gets", [str "1111"; str "2222"; str "3333"]).
Proof.
  refine (proj1 (proj2 (ParseMemcached_keys "gets" (str "1111") [str "2222"; str "3333"] [] [] _ _ _)) _);
    first [by right | is_free | repeat (apply Forall_cons_2; [is_free|]); by constructor].
Defined.

(** ** ZooKeeper *)

(** A string as the protocol writes it. *)
Definition zk_string (s : bytes) : bytes := be_bytes 4 (Z.of_nat (length s)) ++ s.

Lemma zkReadString_string s rest :
  (length s <= 1024)%nat -> zkReadString (zk_string s ++ rest) = s.
Proof.
  intros Hl. unfold zkReadString, zk_string. rewrite <-app_assoc, be_uint32_bytes.
  rewrite u32_small by lia. rewrite Z.gtb_ltb. destruct (Z.ltb_spec 1024 (Z.of_nat (length s))); [lia|].
  rewrite length_app. rewrite Nat2Z.id, take_app_length.
  destruct (Nat.eqb_spec (length s + length rest) 0); [by destruct s; [|cbn in *; lia]|].
  by rewrite Z.ltb_irrefl.
Qed.

(** A string that is cut off. *)
Lemma zkReadString_cut s t :
  (length (s ++ t) <= 1024)%nat -> s <> [] -> t <> [] ->
  zkReadString (be_bytes 4 (Z.of_nat (length (s ++ t))) ++ s) = s ++ str "...<TRUNCATED>".
Proof.
  intros Hl Hs Ht. unfold zkReadString. rewrite be_uint32_bytes.
  rewrite u32_small by lia. rewrite Z.gtb_ltb. destruct (Z.ltb_spec 1024 (Z.of_nat (length (s ++ t)))); [lia|].
  destruct (Nat.eqb_spec (length s) 0); [by destruct s|]. rewrite Nat2Z.id.
  rewrite length_app in *. rewrite take_ge by lia.
  destruct (Z.ltb_spec (Z.of_nat (length s)) (Z.of_nat (length s + length t))); [done|].
  destruct t; [done|]. cbn in *. lia.
Qed.

Lemma zkMultiHeader_shrinks r x r' : zkMultiHeader r = Some (x, r') -> (length r' < length r)%nat.
Proof.
  unfold zkMultiHeader, be_uint32. intros H.
  repeat match goal with
    | H : bind _ _ _ = Some _ |- _ => apply bind_Some in H as (? & ? & ? & H)
    | H : take_bytes _ _ = Some _ |- _ => apply take_bytes_shrinks in H
    | H : ret _ _ = Some _ |- _ => injection H as [= <- <-]
    end.
  lia.
Qed.

Lemma zkParse_total fuel r op : (length r < fuel)%nat -> is_Some (zkParse fuel r op).
Proof.
  revert r op. induction fuel as [|fuel IH]; intros r op Hf; [lia|]. cbn [zkParse].
  destruct (List.find _ _) as [[[? name] path]|]; [by eauto|].
  destruct (op =? zkOpMulti); [|by eauto].
  destruct (zkMultiHeader r) as [[type r']|] eqn:E; [|by eauto].
  apply zkMultiHeader_shrinks in E. destruct (IH r' type) as [[o a] ->]; [lia|]. by eauto.
Qed.

(** Parsing a ZooKeeper request ends on every payload, however deep its
    transactions nest: each level consumes nine bytes. *)
Lemma ParseZookeeper_total payload : is_Some (ParseZookeeper payload).
Proof.
  unfold ParseZookeeper. destruct (zkRequestHeader payload) as [[op r]|]; [|by eauto].
  apply zkParse_total. lia.
Qed.

(** A request inside [d] transactions. *)
Definition zk_type (d : nat) (op : Z) : Z := match d with O => op | S _ => zkOpMulti end.
Fixpoint zk_body (d : nat) (op : Z) (path tail : bytes) : bytes :=
  match d with
  | O => zk_string path ++ tail
  | S d => be_bytes 4 (zk_type d op) ++ [0] ++ be_bytes 4 (-1) ++ zk_body d op path tail
  end.
Definition zk_request (len xid : Z) (d : nat) (op : Z) (path tail : bytes) : bytes :=
  be_bytes 4 len ++ be_bytes 4 xid ++ be_bytes 4 (zk_type d op) ++ zk_body d op path tail.

Fixpoint zk_name (d : nat) (name : bytes) : bytes :=
  match d with O => name | S d => str "multi(" ++ zk_name d name ++ str ", ...)" end.

Lemma s32_u32 z : s32 (u32 z) = s32 z.
Proof. mod_lia. Qed.

Lemma zk_header op xid len r :
  zkRequestHeader (be_bytes 4 len ++ be_bytes 4 xid ++ be_bytes 4 op ++ r) = Some (s32 op, r).
Proof.
  unfold zkRequestHeader. do 3 (erewrite bind_eq by apply be_uint32_bytes).
  unfold ret. by rewrite s32_u32.
Qed.

Lemma zk_multi_header op r :
  zkMultiHeader (be_bytes 4 op ++ [0] ++ be_bytes 4 (-1) ++ r) = Some (s32 op, r).
Proof.
  unfold zkMultiHeader. erewrite bind_eq by apply be_uint32_bytes.
  erewrite bind_eq by (by apply take_bytes_app). erewrite bind_eq by apply be_uint32_bytes.
  unfold ret. by rewrite s32_u32.
Qed.

(** The names of the operations that take a path are unambiguous. *)
Lemma zk_ops_find o : In o zk_ops -> List.find (fun p => p.1.1 =? s32 o.1.1) zk_ops = Some o.
Proof. intros H. repeat (destruct H as [<-|H]; [by vm_compute|]). by destruct H. Qed.

Lemma zkParse_body d fuel op name path tail :
  In (op, name, true) zk_ops -> (length path <= 1024)%nat -> (d < fuel)%nat ->
  zkParse fuel (zk_body d op path tail) (s32 (zk_type d op)) = Some (zk_name d (str name), path).
Proof.
  intros Hin Hp. revert fuel. induction d as [|d IH]; intros [|fuel] Hd; try lia; cbn [zkParse].
  - pose proof (zk_ops_find _ Hin) as E. cbn [fst] in E. cbn [zk_type]. rewrite E. cbn [zk_body zk_name].
    by rewrite zkReadString_string.
  - cbn [zk_type zk_body]. change (List.find _ zk_ops) with (@None (Z * string * bool)).
    cbn [s32 Z.eqb]. change (s32 zkOpMulti =? zkOpMulti) with true. cbv iota.
    rewrite zk_multi_header, IH by lia. done.
Qed.

(** A ZooKeeper request is reported by its operation and path, also from inside
    any number of transactions; the operation then says how deep it was. *)
Theorem ParseZookeeper_request len xid d op name path tail :
  In (op, name, true) zk_ops -> (length path <= 1024)%nat ->
  ParseZookeeper (zk_request len xid d op path tail) = Some (zk_name d (str name), path).
Proof.
  intros Hin Hp. unfold ParseZookeeper, zk_request. rewrite zk_header.
  apply zkParse_body; [done..|]. clear. induction d as [|d IH]; [lia|].
  cbn [zk_body]. rewrite !length_app. unfold be_bytes. rewrite !length_rev, !le_bytes_length. cbn [length] in *. lia.
Qed.

Lemma ParseZookeeper_request_witness :
  ParseZookeeper (zk_request 40 7 2 zkOpSetData (str "/a") [1; 2]) =
  Some (str "multi(multi(setData, ...), ...)", str "/a").
Proof.
  apply (ParseZookeeper_request 40 7 2 zkOpSetData "setData" (str "/a") [1; 2]); [|cbn; lia].
  unfold zk_ops. cbn. tauto.
Defined.

End ParsersSpec.
