(* ===== verification/Http2Parser.v ===== *)
(** * HTTP/2 requests from frames

    ebpftracer/l7/http2.go: the frames both sides of a connection sent are decoded
    and the requests of its streams matched with their responses.  The header
    compression of golang.org/x/net/http2/hpack is not part of the repository: the
    class [Hpack] is what the parser uses of it. *)

From S2P Require Import Prelude GoLib Parsers.

(** ** Package hpack *)

(** [Write] feeds a decoder a header block: the decoder afterwards, the fields it
    emitted in order, and whether it succeeded. *)
Class Hpack := {
  Decoder : Type;
  NewDecoder : Decoder;
  Write_ : Decoder -> bytes -> Decoder * list (bytes * bytes) * bool;
  Close_ : Decoder -> Decoder
}.

Module Http2Parser.
Import Parsers.

Definition http2FrameHeaderLength : nat := 9.
Definition http2DecoderGcInterval : Z := 600000000000.

(** golang.org/x/net/http2: the preface and the type of a HEADERS frame. *)
Definition ClientPreface : bytes :=
  str "PRI * HTTP/2.0" ++ crlf ++ crlf ++ str "SM" ++ crlf ++ crlf.
Definition FrameHeaders : Z := 1.

Definition isHttpPath (s : bytes) : bool := HasPrefix s (str "/") || bytes_eqb s (str "*").
Definition isHttpScheme (s : bytes) : bool := bytes_eqb s (str "http") || bytes_eqb s (str "https").

(** [strconv.Atoi] with its error ignored: 0 on a syntax error, the nearest integer
    when out of range. *)
Definition Atoi (s : bytes) : Z :=
  let '(neg, digits) :=
    match s with
    | c :: s' => if c =? 45 then (true, s') else if c =? 43 then (false, s') else (false, s)
    | [] => (false, s)
    end in
  if (length digits =? 0)%nat || negb (forallb is_digit digits) then 0
  else
  let n := digits_value digits in
  if neg : bool then Z.max (- n) (- 2 ^ 63) else Z.min n (2 ^ 63 - 1).

Record Http2FrameHeader := FrameHeader {
  h_Length : Z; h_Type : Z; h_Flags : Z; h_StreamId : Z
}.

(** The header at the front of [rest]. *)
Definition frame_header (rest : bytes) : Http2FrameHeader :=
  FrameHeader (Z.shiftr (be (take 4 rest)) 8) rest.[3] rest.[4]
    (Z.land (be (take 4 (drop 5 rest))) (Z.ones 31)).

Record Http2Request := MkHttp2Request {
  q_Method : bytes; q_Path : bytes; q_Scheme : bytes; q_Status : Z; q_GrpcStatus : Z;
  q_Duration : Z; q_kernelTime : Z
}.

Definition fresh_request (kernelTime : Z) : Http2Request :=
  MkHttp2Request [] [] [] 0 0 0 kernelTime.

(** The emit function of the client's frames, on the request of the stream. *)
Definition emit_client (r : Http2Request) (hf : bytes * bytes) : Http2Request :=
  let (name, value) := hf in
  if bytes_eqb name (str ":method") then
    if bytes_eqb (q_Method r) [] && isHttpMethod value
    then MkHttp2Request value (q_Path r) (q_Scheme r) (q_Status r) (q_GrpcStatus r) (q_Duration r) (q_kernelTime r)
    else r
  else if bytes_eqb name (str ":path") then
    if bytes_eqb (q_Path r) [] && isHttpPath value
    then MkHttp2Request (q_Method r) value (q_Scheme r) (q_Status r) (q_GrpcStatus r) (q_Duration r) (q_kernelTime r)
    else r
  else if bytes_eqb name (str ":scheme") then
    if bytes_eqb (q_Scheme r) [] && isHttpScheme value
    then MkHttp2Request (q_Method r) (q_Path r) value (q_Status r) (q_GrpcStatus r) (q_Duration r) (q_kernelTime r)
    else r
  else r.

(** The emit function of the server's frames, on [statuses] and [grpcStatuses]. *)
Definition emit_server (id : Z) (st : gmap Z Z * gmap Z Z) (hf : bytes * bytes) : gmap Z Z * gmap Z Z :=
  let (name, value) := hf in
  if bytes_eqb name (str ":status") then (<[id := Atoi value]> st.1, st.2)
  else if bytes_eqb name (str "grpc-status") then (st.1, <[id := Atoi value]> st.2)
  else st.

Section parser.
Context `{Hpack}.

Record parser := MkParser {
  clientDecoder : Decoder; serverDecoder : Decoder;
  activeRequests : gmap Z Http2Request; lastGcTime : Z
}.

Definition NewHttp2Parser : parser := MkParser NewDecoder NewDecoder ∅ 0.

(** What the loop over the frames works on. *)
Record frames_st := FramesSt {
  fs_decoder : Decoder; fs_active : gmap Z Http2Request; fs_statuses : gmap Z Z; fs_grpc : gmap Z Z
}.

(** One HEADERS frame: the emitted fields go to the request or the statuses of its
    stream; whether the block was decoded. *)
Definition headers_frame (client : bool) (kernelTime : Z) (h : Http2FrameHeader) (block : bytes)
  (s : frames_st) : frames_st * bool :=
  let '(d, fields, ok) := Write_ (fs_decoder s) block in
  if client then
    let req := default (fresh_request kernelTime) (fs_active s !! h_StreamId h) in
    (FramesSt d (<[h_StreamId h := foldl emit_client req fields]> (fs_active s))
       (fs_statuses s) (fs_grpc s), ok)
  else
    let statuses := match fs_statuses s !! h_StreamId h with
                    | Some _ => fs_statuses s
                    | None => <[h_StreamId h := 0]> (fs_statuses s)
                    end in
    let st := foldl (emit_server (h_StreamId h)) (statuses, fs_grpc s) fields in
    (FramesSt d (fs_active s) st.1 st.2, ok).

(** The loop: [rest] is [payload[offset:]]; [None] is out of fuel.  After a block the
    decoder refuses, the loop goes on right behind the frame header. *)
Fixpoint frames_loop (fuel : nat) (client : bool) (kernelTime : Z) (rest : bytes) (s : frames_st)
  : option frames_st :=
  match fuel with
  | O => None
  | S fuel =>
      if (length rest <? http2FrameHeaderLength)%nat then Some s
      else
      let h := frame_header rest in
      let rest := drop http2FrameHeaderLength rest in
      if negb (h_Type h =? FrameHeaders) then
        if Z.of_nat (length rest) <? h_Length h then Some s
        else frames_loop fuel client kernelTime (drop (Z.to_nat (h_Length h)) rest) s
      else
      let block := take (Z.to_nat (h_Length h)) rest in
      let (s, ok) := headers_frame client kernelTime h block s in
      frames_loop fuel client kernelTime (if ok then drop (Z.to_nat (h_Length h)) rest else rest) s
  end.

(** A response on a stream: the request it answers is reported and forgotten. *)
Definition respond (kernelTime : Z) (grpc : gmap Z Z) (acc : list Http2Request * gmap Z Http2Request)
  (st : Z * Z) : list Http2Request * gmap Z Http2Request :=
  let (res, active) := acc in
  match active !! st.1 with
  | None => acc
  | Some r =>
      let r := MkHttp2Request (q_Method r) (q_Path r) (q_Scheme r) st.2
                 (default (-1) (grpc !! st.1)) (s64 (u64 (kernelTime - q_kernelTime r)))
                 (q_kernelTime r) in
      (res ++ [r], delete st.1 active)
  end.

(** The end of [Parse]: forget the requests that were never answered. *)
Definition gc (kernelTime : Z) (p : parser) : parser :=
  if u64 (kernelTime - lastGcTime p) >? http2DecoderGcInterval then
    MkParser (clientDecoder p) (serverDecoder p)
      (if lastGcTime p >? 0
       then filter (fun kr => negb (u64 (kernelTime - q_kernelTime kr.2) >? http2DecoderGcInterval))
              (activeRequests p)
       else activeRequests p)
      kernelTime
  else p.

(** [range] is the order in which the map of statuses is visited. *)
Definition Parse (range : gmap Z Z -> list (Z * Z)) (p : parser) (method : Z) (payload : bytes)
  (kernelTime : Z) : option (list Http2Request * parser) :=
  let payload :=
    if (method =? MethodHttp2ClientFrames) && HasPrefix payload ClientPreface
    then drop (length ClientPreface) payload else payload in
  if (length payload =? 0)%nat then Some ([], p)
  else if (method =? MethodHttp2ClientFrames) || (method =? MethodHttp2ServerFrames) then
    let client := method =? MethodHttp2ClientFrames in
    let decoder := if client then clientDecoder p else serverDecoder p in
    let? s := frames_loop (S (length payload)) client kernelTime payload
                (FramesSt decoder (activeRequests p) ∅ ∅) else None in
    let (res, active) := foldl (respond kernelTime (fs_grpc s)) ([], fs_active s) (range (fs_statuses s)) in
    let d := Close_ (fs_decoder s) in
    let p := if client then MkParser d (serverDecoder p) active (lastGcTime p)
             else MkParser (clientDecoder p) d active (lastGcTime p) in
    Some (res, gc kernelTime p)
  else Some ([], p).

(** ** Totality *)

Lemma frames_loop_total fuel client t rest s :
  (length rest < fuel)%nat -> is_Some (frames_loop fuel client t rest s).
Proof.
  revert rest s. induction fuel as [|fuel IH]; intros rest s Hf; [lia|]. cbn [frames_loop].
  destruct (Nat.ltb_spec (length rest) http2FrameHeaderLength) as [|Hl]; [by eauto|].
  unfold http2FrameHeaderLength in *.
  destruct (negb _).
  - case_match; [by eauto|]. apply IH. rewrite !length_drop. lia.
  - destruct (headers_frame _ _ _ _ _) as [s' []]; apply IH; rewrite ?length_drop; lia.
Qed.

Lemma Parse_total range p method payload t : is_Some (Parse range p method payload t).
Proof.
  unfold Parse. generalize (if (method =? MethodHttp2ClientFrames) && HasPrefix payload ClientPreface
    then drop (length ClientPreface) payload else payload) as pl. intros pl.
  case_match; [by eauto|]. case_match; [|by eauto].
  destruct (frames_loop_total (S (length pl)) (method =? MethodHttp2ClientFrames) t pl
    (FramesSt (if method =? MethodHttp2ClientFrames then clientDecoder p else serverDecoder p)
       (activeRequests p) ∅ ∅)) as [s ->]; [lia|].
  destruct (foldl _ _ _). by eauto.
Qed.

(** ** Responses *)

Definition answer (t : Z) (grpc : gmap Z Z) (r : Http2Request) (st : Z * Z) : Http2Request :=
  MkHttp2Request (q_Method r) (q_Path r) (q_Scheme r) st.2 (default (-1) (grpc !! st.1))
    (s64 (u64 (t - q_kernelTime r))) (q_kernelTime r).

(** The answered requests and the ones that stay, for statuses in any order. *)
Lemma respond_all t grpc l res (active : gmap Z Http2Request) :
  NoDup l.*1 ->
  foldl (respond t grpc) (res, active) l =
  (res ++ omap (fun st => (fun r => answer t grpc r st) <$> active !! st.1) l,
   filter (fun kr => kr.1 ∉ l.*1) active).
Proof.
  revert res active. induction l as [|[i st] l IH]; intros res active Hnd.
  { cbn. rewrite app_nil_r, map_filter_id; [done|]. intros. set_solver. }
  cbn [fmap list_fmap fst] in *. apply NoDup_cons in Hnd as [Hi Hnd].
  cbn [foldl]. unfold respond at 2. cbn [fst].
  destruct (active !! i) as [r|] eqn:E.
  - cbn [snd]. rewrite IH by done. cbn [omap list_omap fst]. rewrite E. cbn [fmap option_fmap option_map].
    rewrite <-app_assoc. apply f_equal2; [do 2 apply f_equal|].
    + apply list_omap_ext. apply Forall2_same_length_lookup_2; [done|].
      intros j x y Hx Hy. simplify_eq. rewrite lookup_delete_ne; [done|].
      intros ->. apply Hi. apply list_elem_of_fmap. exists x. split; [done|]. by eapply list_elem_of_lookup_2.
    + apply map_eq. intros k. rewrite !map_lookup_filter.
      destruct (decide (k = i)) as [->|Hk].
      * rewrite lookup_delete_eq, E. cbn. rewrite option_guard_False; [done|set_solver].
      * rewrite lookup_delete_ne by done. destruct (active !! k); cbn; [|done].
        apply option_guard_iff. rewrite not_elem_of_cons. tauto.
  - rewrite IH by done. cbn [omap list_omap fst]. rewrite E. cbn [fmap option_fmap option_map].
    f_equal. apply map_eq. intros k. rewrite !map_lookup_filter.
    destruct (active !! k) eqn:Ek; cbn; [|done]. apply option_guard_iff.
    assert (k <> i) by congruence. rewrite not_elem_of_cons. tauto.
Qed.

(** The server's frames leave the requests alone. *)
Lemma frames_loop_server fuel t rest s s' :
  frames_loop fuel false t rest s = Some s' -> fs_active s' = fs_active s.
Proof.
  revert rest s. induction fuel as [|fuel IH]; intros rest s E; [done|]. cbn [frames_loop] in E.
  case_match; [by simplify_eq|]. cbv zeta in E. case_match; [case_match; [by simplify_eq|by eapply IH]|].
  unfold headers_frame in E. destruct (Write_ _ _) as [[d fields] ok]. apply IH in E. done.
Qed.

(** The client's frames report nothing. *)
Lemma frames_loop_client fuel t rest s s' :
  frames_loop fuel true t rest s = Some s' ->
  fs_statuses s' = fs_statuses s /\ fs_grpc s' = fs_grpc s.
Proof.
  revert rest s. induction fuel as [|fuel IH]; intros rest s E; [done|]. cbn [frames_loop] in E.
  case_match; [by simplify_eq|]. cbv zeta in E. case_match; [case_match; [by simplify_eq|by eapply IH]|].
  unfold headers_frame in E. destruct (Write_ _ _) as [[d fields] ok]. apply IH in E. done.
Qed.

(** ** Garbage collection *)

Lemma gc_old t p i r :
  0 < lastGcTime p -> http2DecoderGcInterval < u64 (t - lastGcTime p) ->
  activeRequests (gc t p) !! i = Some r -> u64 (t - q_kernelTime r) <= http2DecoderGcInterval.
Proof.
  intros Hp Ht. unfold gc. rewrite !Z.gtb_ltb.
  destruct (Z.ltb_spec http2DecoderGcInterval (u64 (t - lastGcTime p))); [|lia].
  destruct (Z.ltb_spec 0 (lastGcTime p)); [|lia]. cbn [activeRequests].
  rewrite map_lookup_filter_Some. intros [_ Hr]. cbn in Hr. rewrite Z.gtb_ltb in Hr.
  destruct (Z.ltb_spec http2DecoderGcInterval (u64 (t - q_kernelTime r))); [done|lia].
Qed.

(** Requests that are never answered do not accumulate: a parser that has collected
    before, and runs again after the interval, holds no request that is older than
    the interval. *)
Theorem http2_unanswered_forgotten range p method payload t :
  (method = MethodHttp2ClientFrames \/ method = MethodHttp2ServerFrames) ->
  HasPrefix payload ClientPreface = false -> payload <> [] ->
  0 < lastGcTime p -> http2DecoderGcInterval < u64 (t - lastGcTime p) ->
  exists res p', Parse range p method payload t = Some (res, p') /\
    map_Forall (fun _ r => u64 (t - q_kernelTime r) <= http2DecoderGcInterval) (activeRequests p').
Proof.
  intros Hm Hpre Hne Hgc Ht. destruct (Parse_total range p method payload t) as [[res p'] E].
  exists res, p'. split; [done|]. revert E. unfold Parse. rewrite Hpre, andb_false_r.
  destruct payload as [|b payload]; [done|]. cbn [length Nat.eqb].
  assert ((method =? MethodHttp2ClientFrames) || (method =? MethodHttp2ServerFrames) = true) as ->
    by (destruct Hm as [-> | ->]; done).
  destruct (frames_loop _ _ _ _ _) as [s|]; [|done]. destruct (foldl _ _ _) as [res' active].
  intros [= <- <-] i r Hr. apply gc_old in Hr; [done|..]; by destruct (method =? MethodHttp2ClientFrames).
Qed.

(** ** Frames *)

Definition headers_bytes (id flags : Z) (block : bytes) : bytes :=
  be_bytes 3 (Z.of_nat (length block)) ++ [FrameHeaders; flags] ++ be_bytes 4 id ++ block.

Definition frame_ok (id : Z) (block : bytes) : Prop :=
  0 <= id < 2 ^ 31 /\ Z.of_nat (length block) < 2 ^ 24.

Lemma frame_header_bytes id flags block rest :
  frame_ok id block ->
  frame_header (headers_bytes id flags block ++ rest) =
  FrameHeader (Z.of_nat (length block)) FrameHeaders flags id /\
  drop 9 (headers_bytes id flags block ++ rest) = block ++ rest.
Proof.
  intros [Hid Hl]. unfold headers_bytes, frame_header. rewrite <-!app_assoc.
  set (n := Z.of_nat (length block)) in *.
  assert (length (be_bytes 3 n) = 3%nat) as H3 by apply be_bytes_length.
  assert (length (be_bytes 4 id) = 4%nat) as H4 by apply be_bytes_length.
  pose proof (be_be_bytes 3 n) as B3. pose proof (be_be_bytes 4 id) as B4.
  destruct (be_bytes 3 n) as [|a0 [|a1 [|a2 [|]]]]; try done.
  destruct (be_bytes 4 id) as [|b0 [|b1 [|b2 [|b3 [|]]]]]; try done.
  cbn [app take drop nth]. rewrite !drop_0. cbn [app take]. split; [|done].
  pose proof (be_snoc [a0; a1; a2] FrameHeaders) as B. cbn [app] in B. rewrite B, B3, ?take_0, B4.
  change (256 ^ Z.of_nat 3) with (2 ^ 24). change (256 ^ Z.of_nat 4) with (2 ^ 32).
  rewrite !Z.mod_small by lia. f_equal.
  - rewrite Z.shiftr_div_pow2 by lia. change (2 ^ 8) with 256. unfold FrameHeaders.
    rewrite Z.div_add_l by lia. change (1 / 256) with 0. lia.
  - rewrite Z.land_ones by lia. by apply Z.mod_small.
Qed.

Lemma frames_loop_headers fuel client t id flags block rest s :
  frame_ok id block ->
  frames_loop (S fuel) client t (headers_bytes id flags block ++ rest) s =
  (let (s, ok) := headers_frame client t (FrameHeader (Z.of_nat (length block)) FrameHeaders flags id)
                    block s in
   frames_loop fuel client t (if ok then rest else block ++ rest) s).
Proof.
  intros Hok. destruct (frame_header_bytes id flags block rest Hok) as [Hh Hd].
  cbn [frames_loop]. destruct (Nat.ltb_spec (length (headers_bytes id flags block ++ rest)) http2FrameHeaderLength) as [Hlt|_].
  { unfold headers_bytes, http2FrameHeaderLength in Hlt. rewrite !length_app, !be_bytes_length in Hlt. cbn in Hlt. lia. }
  unfold http2FrameHeaderLength. rewrite Hh, Hd. cbn [h_Type h_Length Z.eqb FrameHeaders negb Pos.eqb].
  rewrite Nat2Z.id, take_app_length, drop_app_length. done.
Qed.

(** A header block the decoder refuses is not skipped: the parser goes on with the
    bytes of the block as if frames began there, so what the block holds can open
    or answer requests of streams that have none. *)
Theorem http2_refused_block_reparsed fuel client t id flags block rest s d fields :
  frame_ok id block -> Write_ (fs_decoder s) block = (d, fields, false) ->
  exists s', fs_decoder s' = d /\
    frames_loop (S fuel) client t (headers_bytes id flags block ++ rest) s =
    frames_loop fuel client t (block ++ rest) s'.
Proof.
  intros Hok Hw. rewrite frames_loop_headers by done. unfold headers_frame. rewrite Hw.
  destruct client; eexists; (split; [|reflexivity]); done.
Qed.

(** ** An exchange *)

(** The values of the fields with a name, in order. *)
Definition values (name : bytes) (fields : list (bytes * bytes)) : list bytes :=
  (filter (fun hf => hf.1 = name) fields).*2.

(** What a request may carry (RFC 9110, RFC 5789; RFC 9113, 8.3.1). *)
Definition methods : list bytes :=
  [str "GET"; str "HEAD"; str "POST"; str "PUT"; str "PATCH"; str "DELETE"; str "CONNECT";
   str "OPTIONS"; str "TRACE"].
Definition a_method (v : bytes) : Prop := v ∈ methods.
Definition a_path (v : bytes) : Prop := head v = Some 47 \/ v = [42].
Definition a_scheme (v : bytes) : Prop := v = str "http" \/ v = str "https".

#[export] Instance a_method_dec v : Decision (a_method v).
Proof. unfold a_method. apply _. Defined.
#[export] Instance a_path_dec v : Decision (a_path v).
Proof. unfold a_path. apply _. Defined.
#[export] Instance a_scheme_dec v : Decision (a_scheme v).
Proof. unfold a_scheme. apply _. Defined.

(** The first value of a field that satisfies [P], empty if there is none. *)
Definition first_value (name : bytes) (P : bytes -> Prop) `{!forall v, Decision (P v)}
  (fields : list (bytes * bytes)) : bytes :=
  default [] (head (filter P (values name fields))).

(** The last value of a field as a number. *)
Definition last_number (name : bytes) (none : Z) (fields : list (bytes * bytes)) : Z :=
  default none (Atoi <$> last (values name fields)).

Lemma values_cons name n v fields :
  values name ((n, v) :: fields) = if decide (n = name) then v :: values name fields else values name fields.
Proof. unfold values. rewrite filter_cons. cbn [fst]. by case_decide. Qed.

Lemma isHttpMethod_iff v : isHttpMethod v = true <-> a_method v.
Proof.
  unfold isHttpMethod, a_method. rewrite existsb_exists.
  change methods with (str <$> httpMethods). rewrite list_elem_of_fmap. split.
  - intros (m & Hm & E%bool_decide_eq_true). exists m. by rewrite list_elem_of_In.
  - intros (m & E & Hm). exists m. rewrite <-list_elem_of_In. split; [done|]. by apply bool_decide_eq_true.
Qed.

Lemma isHttpPath_iff v : isHttpPath v = true <-> a_path v.
Proof.
  unfold isHttpPath, a_path. rewrite orb_true_iff.
  assert (bytes_eqb v (str "*") = true <-> v = [42]) as -> by apply bool_decide_eq_true.
  assert (HasPrefix v (str "/") = true <-> head v = Some 47) as ->; [|done].
  destruct v as [|c v]; [done|]. unfold HasPrefix. cbn. rewrite andb_true_r, Z.eqb_eq.
  split; [by intros ->|by intros [=]].
Qed.

Lemma isHttpScheme_iff v : isHttpScheme v = true <-> a_scheme v.
Proof. unfold isHttpScheme, a_scheme, bytes_eqb. by rewrite orb_true_iff, !bool_decide_eq_true. Qed.

(** A part of the request that takes the first value that fits. *)
Lemma emit_client_first (get : Http2Request -> bytes) name ok (P : bytes -> Prop)
  `{!forall v, Decision (P v)} fields r :
  (forall v, ok v = true <-> P v) -> ~ P [] ->
  (forall r n v, get (emit_client r (n, v)) =
     if decide (n = name) then if bytes_eqb (get r) [] && ok v then v else get r else get r) ->
  get (foldl emit_client r fields) =
  if decide (get r = []) then first_value name P fields else get r.
Proof.
  intros Hok Hnil Hget. revert r. induction fields as [|[n v] fields IH]; intros r.
  { cbn. by case_decide. }
  cbn [foldl]. rewrite IH, Hget. unfold first_value. rewrite values_cons. unfold bytes_eqb.
  destruct (decide (n = name)); [|done].
  destruct (decide (get r = [])) as [E|E].
  2: { rewrite bool_decide_eq_false_2 by done. cbn [andb]. by rewrite decide_False. }
  rewrite bool_decide_eq_true_2 by done. cbn [andb]. rewrite filter_cons. destruct (ok v) eqn:Hv.
  - apply Hok in Hv. rewrite decide_False by (intros ->; done). by rewrite decide_True.
  - rewrite decide_True by done. rewrite decide_False; [done|]. intros HP%Hok. congruence.
Qed.

Ltac emit_cases :=
  intros r n v; unfold emit_client, bytes_eqb; repeat (case_decide; subst); repeat case_match; try done;
  repeat match goal with H : bool_decide _ = true |- _ => apply bool_decide_eq_true in H
                       | H : bool_decide _ = false |- _ => apply bool_decide_eq_false in H end; by subst.

(** The request a block describes. *)
Lemma emit_client_request t fields :
  let r := foldl emit_client (fresh_request t) fields in
  q_Method r = first_value (str ":method") a_method fields /\
  q_Path r = first_value (str ":path") a_path fields /\
  q_Scheme r = first_value (str ":scheme") a_scheme fields /\ q_kernelTime r = t.
Proof.
  cbv zeta. split_and!.
  - rewrite (emit_client_first q_Method (str ":method") isHttpMethod a_method); [done|apply isHttpMethod_iff| |emit_cases].
    by apply (bool_decide_eq_false (a_method [])).
  - rewrite (emit_client_first q_Path (str ":path") isHttpPath a_path); [done|apply isHttpPath_iff| |emit_cases].
    by intros [].
  - rewrite (emit_client_first q_Scheme (str ":scheme") isHttpScheme a_scheme); [done|apply isHttpScheme_iff| |emit_cases].
    by intros [].
  - change t with (q_kernelTime (fresh_request t)) at 2. generalize (fresh_request t) as r.
    induction fields as [|[n v] fields IH]; intros r; [done|]. cbn [foldl]. rewrite IH.
    unfold emit_client. by repeat case_match.
Qed.

(** The statuses a block carries. *)
Lemma emit_server_statuses id a g fields :
  foldl (emit_server id) ({[id := a]}, g) fields =
  ({[id := last_number (str ":status") a fields]},
   match last (values (str "grpc-status") fields) with Some v => <[id := Atoi v]> g | None => g end).
Proof.
  revert a g. induction fields as [|[n v] fields IH]; intros a g; [done|].
  cbn [foldl]. unfold emit_server at 2, last_number, bytes_eqb. rewrite !values_cons.
  destruct (decide (n = str ":status")) as [->|N].
  - rewrite bool_decide_eq_true_2 by done. cbn [fst snd]. case_decide; [done|].
    rewrite insert_singleton_eq, IH, last_cons. unfold last_number.
    by destruct (last (values (str ":status") fields)).
  - rewrite bool_decide_eq_false_2 by done. destruct (decide (n = str "grpc-status")) as [->|N'].
    + rewrite bool_decide_eq_true_2 by done. cbn [fst snd]. rewrite IH, last_cons.
      destruct (last (values (str "grpc-status") fields)); [|done]. by rewrite insert_insert_eq.
    + rewrite bool_decide_eq_false_2 by done. by rewrite IH.
Qed.

Lemma gc_parts t p :
  clientDecoder (gc t p) = clientDecoder p /\ serverDecoder (gc t p) = serverDecoder p /\
  activeRequests (gc t p) ⊆ activeRequests p.
Proof.
  unfold gc. repeat case_match; split_and!; try done; cbn [activeRequests]; apply map_filter_subseteq.
Qed.

Lemma gc_keeps t p i r :
  activeRequests p !! i = Some r -> u64 (t - q_kernelTime r) <= http2DecoderGcInterval ->
  activeRequests (gc t p) !! i = Some r.
Proof.
  intros Hi Hr. unfold gc. repeat case_match; try done. cbn [activeRequests].
  apply map_lookup_filter_Some. split; [done|]. cbn [snd]. rewrite Z.gtb_ltb.
  by destruct (Z.ltb_spec http2DecoderGcInterval (u64 (t - q_kernelTime r))); [lia|].
Qed.

Lemma headers_not_preface id flags block : HasPrefix (headers_bytes id flags block) ClientPreface = false.
Proof.
  unfold headers_bytes. pose proof (be_bytes_length 3 (Z.of_nat (length block))) as H3.
  destruct (be_bytes 3 _) as [|a0 [|a1 [|a2 [|]]]]; try done.
  unfold HasPrefix. cbn. by rewrite !andb_false_r.
Qed.

(** A payload of one decodable HEADERS frame. *)
Lemma one_headers client t id flags block s :
  frame_ok id block ->
  let payload := headers_bytes id flags block in
  let r := headers_frame client t (FrameHeader (Z.of_nat (length block)) FrameHeaders flags id) block s in
  r.2 = true -> frames_loop (S (length payload)) client t payload s = Some r.1.
Proof.
  intros Hok payload r Hr. subst payload. rewrite <-(app_nil_r (headers_bytes _ _ _)) at 2.
  rewrite frames_loop_headers by done. fold r. destruct r as [s' ok]. cbn in Hr. subst ok.
  unfold headers_bytes. rewrite length_app, be_bytes_length. done.
Qed.

(** The parser after a payload of one HEADERS frame of the client: the request is
    entered on its stream, and nothing is reported. *)
Lemma Parse_client range p id flags block t d fields :
  range ∅ = [] -> frame_ok id block -> activeRequests p !! id = None ->
  Write_ (clientDecoder p) block = (d, fields, true) ->
  Parse range p MethodHttp2ClientFrames (headers_bytes id flags block) t =
  Some ([], gc t (MkParser (Close_ d) (serverDecoder p)
                    (<[id := foldl emit_client (fresh_request t) fields]> (activeRequests p)) (lastGcTime p))).
Proof.
  intros Hr Hok Hfree Hw. unfold Parse. rewrite headers_not_preface, andb_false_r.
  assert ((length (headers_bytes id flags block) =? 0)%nat = false) as ->
    by (unfold headers_bytes; rewrite length_app, be_bytes_length; done).
  change (MethodHttp2ClientFrames =? MethodHttp2ClientFrames) with true. cbn [orb].
  rewrite one_headers by (try done; unfold headers_frame; cbn [fs_decoder]; by rewrite Hw).
  unfold headers_frame. cbn [fs_decoder fs_active fs_statuses fs_grpc h_StreamId]. rewrite Hw, Hfree.
  cbn [fst fs_statuses fs_active fs_grpc fs_decoder default]. by rewrite Hr.
Qed.

(** The same for the server: the request of the stream is reported with its statuses. *)
Lemma Parse_server range p id flags block t d fields r :
  (forall m, range m ≡ₚ map_to_list m) -> frame_ok id block -> activeRequests p !! id = Some r ->
  Write_ (serverDecoder p) block = (d, fields, true) ->
  Parse range p MethodHttp2ServerFrames (headers_bytes id flags block) t =
  Some ([MkHttp2Request (q_Method r) (q_Path r) (q_Scheme r) (last_number (str ":status") 0 fields)
           (last_number (str "grpc-status") (-1) fields) (s64 (u64 (t - q_kernelTime r))) (q_kernelTime r)],
        gc t (MkParser (clientDecoder p) (Close_ d) (delete id (activeRequests p)) (lastGcTime p))).
Proof.
  intros Hrange Hok Hreq Hw. unfold Parse. rewrite headers_not_preface, andb_false_r.
  assert ((length (headers_bytes id flags block) =? 0)%nat = false) as ->
    by (unfold headers_bytes; rewrite length_app, be_bytes_length; done).
  change (MethodHttp2ServerFrames =? MethodHttp2ClientFrames) with false.
  change (MethodHttp2ServerFrames =? MethodHttp2ServerFrames) with true. cbn [orb].
  rewrite one_headers by (try done; unfold headers_frame; cbn [fs_decoder]; by rewrite Hw).
  unfold headers_frame. cbn [fs_decoder fs_active fs_statuses fs_grpc h_StreamId]. rewrite Hw, lookup_empty.
  change (<[id := 0]> ∅) with ({[id := 0]} : gmap Z Z). rewrite emit_server_statuses.
  cbn [fst snd fs_statuses fs_active fs_grpc fs_decoder].
  assert (range {[id := last_number (str ":status") 0 fields]} = [(id, last_number (str ":status") 0 fields)]) as ->.
  { apply Permutation_singleton_r. rewrite Hrange. by rewrite map_to_list_singleton. }
  cbn [foldl respond fst snd]. rewrite Hreq.
  assert (default (-1) (match last (values (str "grpc-status") fields) with
                        | Some v => <[id := Atoi v]> ∅ | None => ∅ end !! id) =
          last_number (str "grpc-status") (-1) fields) as ->; [|done].
  unfold last_number. destruct (last _); [by rewrite lookup_insert_eq|by rewrite lookup_empty].
Qed.

(** C34: the HEADERS frame of a request and the one of its response, each a payload of its
    own with a header block the decoder accepts, on a stream that is free, make one
    report whatever the times: with the first :method, :path and :scheme field of the
    request whose value is one, empty if there is none; the last :status field of the
    response (0 if none) and the last grpc-status field (-1 if none); and the time
    between the two as a signed 64-bit difference.  The stream is free again, no other
    request is added, and the collection of old requests, which runs when the last one
    is ten minutes ago or there was none, drops none that began within ten minutes. *)
Theorem http2_exchange range p id flags1 flags2 blk1 blk2 t1 t2 d1 f1 d2 f2 :
  (forall m, range m ≡ₚ map_to_list m) -> frame_ok id blk1 -> frame_ok id blk2 ->
  activeRequests p !! id = None ->
  Write_ (clientDecoder p) blk1 = (d1, f1, true) ->
  Write_ (serverDecoder p) blk2 = (d2, f2, true) ->
  exists p1 p2,
    Parse range p MethodHttp2ClientFrames (headers_bytes id flags1 blk1) t1 = Some ([], p1) /\
    Parse range p1 MethodHttp2ServerFrames (headers_bytes id flags2 blk2) t2 =
      Some ([MkHttp2Request
               (first_value (str ":method") a_method f1) (first_value (str ":path") a_path f1)
               (first_value (str ":scheme") a_scheme f1)
               (last_number (str ":status") 0 f2) (last_number (str "grpc-status") (-1) f2)
               (s64 (u64 (t2 - t1))) t1], p2) /\
    clientDecoder p2 = Close_ d1 /\ serverDecoder p2 = Close_ d2 /\
    activeRequests p2 ⊆ activeRequests p /\
    forall j r, activeRequests p !! j = Some r ->
      u64 (t1 - q_kernelTime r) <= 10 * 60 * 1000000000 ->
      u64 (t2 - q_kernelTime r) <= 10 * 60 * 1000000000 -> activeRequests p2 !! j = Some r.
Proof.
  intros Hrange Hok1 Hok2 Hfree Hw1 Hw2.
  set (r := foldl emit_client (fresh_request t1) f1).
  destruct (emit_client_request t1 f1) as (Em & Ep & Es & Et).
  set (q1 := MkParser (Close_ d1) (serverDecoder p) (<[id := r]> (activeRequests p)) (lastGcTime p)).
  destruct (gc_parts t1 q1) as (Dc1 & Ds1 & A1). set (p1 := gc t1 q1) in *.
  set (q2 := MkParser (clientDecoder p1) (Close_ d2) (delete id (activeRequests p1)) (lastGcTime p1)).
  destruct (gc_parts t2 q2) as (Dc2 & Ds2 & A2).
  exists p1, (gc t2 q2). split_and!.
  - apply Parse_client; try done. apply Permutation_nil_r. by rewrite Hrange, map_to_list_empty.
  - rewrite (Parse_server range p1 id flags2 blk2 t2 d2 f2 r); try done.
    + unfold r. by rewrite Em, Ep, Es, Et.
    + apply gc_keeps; [apply lookup_insert_eq|]. unfold r. rewrite Et, Z.sub_diag. done.
    + by rewrite Ds1.
  - by rewrite Dc2.
  - by rewrite Ds2.
  - etransitivity; [exact A2|]. cbn [q2 activeRequests]. etransitivity; [apply delete_mono, A1|].
    cbn [q1 activeRequests]. by rewrite delete_insert_id.
  - intros j r' Hj H1 H2. assert (j <> id) by congruence. apply gc_keeps; [|exact H2].
    cbn [q2 activeRequests]. rewrite lookup_delete_ne by done. apply gc_keeps; [|exact H1].
    cbn [q1 activeRequests]. by rewrite lookup_insert_ne.
Qed.

End parser.
(** ** A decoder without compression *)

(** Fields as length-prefixed names and values; anything else is refused. *)
Fixpoint plain_fields (fuel : nat) (b : bytes) : option (list (bytes * bytes)) :=
  match fuel, b with
  | _, [] => Some []
  | O, _ => None
  | S fuel, n :: b =>
      let name := take (Z.to_nat n) b in
      match drop (Z.to_nat n) b with
      | [] => None
      | m :: b =>
          let? fields := plain_fields fuel (drop (Z.to_nat m) b) else None in
          Some ((name, take (Z.to_nat m) b) :: fields)
      end
  end.

Definition plain_hpack : Hpack := {|
  Decoder := unit;
  NewDecoder := tt;
  Write_ d b := match plain_fields (length b) b with
                | Some fields => (d, fields, true) | None => (d, [], false) end;
  Close_ d := d
|}.

Definition plain_field (name value : bytes) : bytes :=
  Z.of_nat (length name) :: name ++ Z.of_nat (length value) :: value.

Definition demo_request : bytes :=
  plain_field (str ":method") (str "GET") ++ plain_field (str ":path") (str "/a") ++
  plain_field (str ":scheme") (str "https").
Definition demo_response : bytes :=
  plain_field (str ":status") (str "200") ++ plain_field (str "grpc-status") (str "5").

Lemma demo_frames_ok : frame_ok 3 demo_request /\ frame_ok 3 demo_response.
Proof. by vm_compute. Qed.

(** On a host that has been up for more than ten minutes. *)
Lemma http2_exchange_witness :
  let p := @NewHttp2Parser plain_hpack in
  let t := 700000000000 in
  exists p1 p2,
    @Parse plain_hpack map_to_list p MethodHttp2ClientFrames (headers_bytes 3 4 demo_request) t
      = Some ([], p1) /\
    @Parse plain_hpack map_to_list p1 MethodHttp2ServerFrames (headers_bytes 3 4 demo_response) (t + 500)
      = Some ([MkHttp2Request (str "GET") (str "/a") (str "https") 200 5 500 t], p2) /\
    activeRequests p2 ⊆ ∅.
Proof.
  intros p t. destruct demo_frames_ok as [H1 H2].
  destruct (@http2_exchange plain_hpack map_to_list p 3 4 4 demo_request demo_response t (t + 500)
    tt [(str ":method", str "GET"); (str ":path", str "/a"); (str ":scheme", str "https")]
    tt [(str ":status", str "200"); (str "grpc-status", str "5")])
    as (p1 & p2 & E1 & E2 & _ & _ & A & _); [done..|].
  exists p1, p2. split; [exact E1|]. split; [exact E2|exact A].
Defined.

Lemma http2_unanswered_forgotten_witness :
  let p := @MkParser plain_hpack tt tt {[5 := fresh_request 2]} 1 in
  (exists res p', @Parse plain_hpack map_to_list p MethodHttp2ServerFrames [0] 700000000000 = Some (res, p') /\
     map_Forall (fun _ r => u64 (700000000000 - q_kernelTime r) <= http2DecoderGcInterval) (activeRequests p')) /\
  activeRequests match @Parse plain_hpack map_to_list p MethodHttp2ServerFrames [0] 700000000000 with
                 | Some (_, p') => p' | None => p end = ∅.
Proof.
  intros p. split; [|by vm_compute].
  apply (@http2_unanswered_forgotten plain_hpack map_to_list p MethodHttp2ServerFrames [0] 700000000000);
    try done; by right.
Defined.

(** A refused block that holds a frame of stream 256 opens a request on it. *)
Lemma http2_refused_block_reparsed_witness :
  let s := @FramesSt plain_hpack tt ∅ ∅ ∅ in
  let inner := headers_bytes 256 4 [] in
  (exists s', @fs_decoder plain_hpack s' = tt /\
    frames_loop 4 true 1 (headers_bytes 3 4 inner ++ []) s = frames_loop 3 true 1 (inner ++ []) s') /\
  (fun s' => dom (fs_active s')) <$> frames_loop 4 true 1 (headers_bytes 3 4 inner ++ []) s = Some {[3; 256]}.
Proof.
  intros s inner. split; [|by vm_compute].
  apply (@http2_refused_block_reparsed plain_hpack 3 true 1 3 4 inner [] s tt []); by vm_compute.
Defined.

End Http2Parser.
