(* ===== verification/Tracing.v ===== *)
(** * Spans

    tracing/tracing.go: the spans a trace makes of the requests of a connection, as
    far as the sampler takes them.  Times of spans are left to the OpenTelemetry SDK:
    the model lists the spans that are started, with their duration. *)

From Stdlib Require QArith.QArith_base.
From S2P Require Import Prelude GoLib Net Parsers.

Module Tracing.
Import Parsers.

(** The attributes, by the conventions they follow. *)
Inductive attr :=
| DBSystem (s : string) | DBStatement (s : bytes) | DBOperation (s : bytes)
| HTTPMethod (s : bytes) | HTTPURL (s : bytes) | HTTPStatusCode (n : Z) | RPCGRPCStatusCode (n : Z)
| MemcacheDBItem (s : bytes) | MemcacheDBItems (l : list bytes) | ZookeeperStatusCode (n : Z)
| NetPeerName (s : bytes) | NetPeerPort (n : Z).

Record span := Span { sp_name : bytes; sp_duration : Z; sp_error : bool; sp_attrs : list attr }.

Section trace.
Context `{Netaddr}.

(** A tracer: whether an exporter is configured, the rate of sampling, and the random
    numbers in [0, 1) the calls draw. *)
Record Tracer := MkTracer {
  otel : bool; samplingRate : QArith_base.Q; Float64 : nat -> QArith_base.Q
}.

Definition shouldSample (samplingRate rand : QArith_base.Q) : bool :=
  if QArith_base.Qle_bool (QArith_base.inject_Z 1) samplingRate then true
  else if QArith_base.Qle_bool samplingRate (QArith_base.inject_Z 0) then false
  else negb (QArith_base.Qle_bool samplingRate rand).

(** A [Trace], and how many spans were tried before with the request that made it. *)
Record Trace := MkTrace { tr_tracer : Tracer; tr_destination : HostPort; tr_calls : nat }.

(** A [*Trace]: [None] is nil. *)
Definition trace : Type := option Trace.

Definition NewTrace (t : Tracer) (destination : HostPort) : trace := Some (MkTrace t destination 0).

(** The trace at the [n]-th span of a batch. *)
Definition nth_span (n : nat) (t : trace) : trace :=
  (fun t => MkTrace (tr_tracer t) (tr_destination t) n) <$> t.

Definition createSpan (t : Trace) (name : bytes) (duration : Z) (error : bool) (attrs : list attr) : list span :=
  if negb (otel (tr_tracer t)) then []
  else if negb (shouldSample (samplingRate (tr_tracer t)) (Float64 (tr_tracer t) (tr_calls t))) then []
  else [Span name duration error
          (attrs ++ [NetPeerName (Host (tr_destination t)); NetPeerPort (hp_port (tr_destination t))])].

Definition HttpRequest (t : trace) (method path : bytes) (status duration : Z) : list span :=
  let? t := t else [] in
  if bytes_eqb method [] then []
  else createSpan t method duration (status >=? 400)
         [HTTPURL (str "http://" ++ HostPort_String (tr_destination t) ++ path); HTTPMethod method; HTTPStatusCode status].

Definition Http2Request (t : trace) (method path scheme : bytes) (status grpcStatus duration : Z) : list span :=
  let? t := t else [] in
  let method := if bytes_eqb method [] then str "unknown" else method in
  let path := if bytes_eqb path [] then str "/unknown" else path in
  let scheme := if bytes_eqb scheme [] then str "unknown" else scheme in
  let attrs := [HTTPURL (scheme ++ str "://" ++ HostPort_String (tr_destination t) ++ path); HTTPMethod method;
                HTTPStatusCode status] in
  let attrs := if grpcStatus >=? 0 then attrs ++ [RPCGRPCStatusCode grpcStatus] else attrs in
  createSpan t method duration ((status >? 400) || (grpcStatus >? 0)) attrs.

(** PostgresQuery, MysqlQuery and MongoQuery. *)
Definition query_span (system : string) (t : trace) (query : bytes) (error : bool) (duration : Z) : list span :=
  let? t := t else [] in
  if bytes_eqb query [] then []
  else createSpan t (str "query") duration error [DBSystem system; DBStatement query].

Definition PostgresQuery := query_span "postgresql".
Definition MysqlQuery := query_span "mysql".
Definition MongoQuery := query_span "mongodb".

Definition MemcachedQuery (t : trace) (cmd : bytes) (items : list bytes) (error : bool) (duration : Z) : list span :=
  let? t := t else [] in
  if bytes_eqb cmd [] then []
  else
  let attrs := [DBSystem "memcached"; DBOperation cmd] in
  let attrs := match items with
               | [] => attrs
               | [i] => attrs ++ [MemcacheDBItem i]
               | _ => attrs ++ [MemcacheDBItems items]
               end in
  createSpan t cmd duration error attrs.

Definition RedisQuery (t : trace) (cmd args : bytes) (error : bool) (duration : Z) : list span :=
  let? t := t else [] in
  if bytes_eqb cmd [] then []
  else
  let statement := if bytes_eqb args [] then cmd else cmd ++ str " " ++ args in
  createSpan t cmd duration error [DBSystem "redis"; DBOperation cmd; DBStatement statement].

Definition ClickhouseQuery (t : trace) (query : bytes) (error : bool) (duration : Z) : list span :=
  let? t := t else [] in
  createSpan t (str "query") duration error [DBSystem "clickhouse"; DBStatement query].

Definition ZookeeperRequest (t : trace) (op args : bytes) (status duration : Z) : list span :=
  let? t := t else [] in
  if bytes_eqb op [] then []
  else
  let statement := if bytes_eqb args [] then op else op ++ str " " ++ args in
  createSpan t op duration (negb (bytes_eqb (Status_Zookeeper status) (str "ok")))
    [DBSystem "zookeeper"; DBOperation op; DBStatement statement; ZookeeperStatusCode status].

End trace.
End Tracing.
