(* ===== verification/ParsersLib.v ===== *)
(** * Parsers over decoders of other packages

    ebpftracer/l7/dns.go and clickhouse.go walk messages that packages outside the
    repository decode: [dnsmessage] of golang.org/x/net and [proto] of
    ClickHouse/ch-go.  The classes are what the parsers use of them. *)

From S2P Require Import Prelude GoLib GoText Net Parsers.

(** ** Package dnsmessage *)

(** The body of an answer, if its type and body are an A or AAAA record. *)
Inductive dns_answer := AResource (a : bytes) | AAAAResource (a : bytes) | OtherResource.

(** The questions (type and name as strings) and the answers of a message. *)
Record dns_message := DnsMessage {
  Questions : list (bytes * bytes); Answers : list dns_answer
}.

Class Dnsmessage := { Unpack : bytes -> option dns_message }.

(** ** Package proto *)

(** A [*proto.Reader] over a payload and what it reads; [None] is an error. *)
Class ChProto := {
  ch_reader : Type;
  NewReader : bytes -> ch_reader;
  ReadByte : ch_reader -> option ch_reader;
  ReadStr : ch_reader -> option ch_reader;
  ClientInfo_DecodeAware : ch_reader -> Z -> option (Z * ch_reader);
  Setting_Decode : ch_reader -> option (bytes * ch_reader);
  UVarInt : ch_reader -> option (Z * ch_reader);
  StrLen : ch_reader -> option (Z * ch_reader);
  ReadN : ch_reader -> Z -> bytes;
  FeatureServerQueryTimeInProgress : Z
}.

(** A reader has so many bytes left, those of the payload at first; reading never
    adds to them and a setting takes at least one. *)
Class ChProtoLaws `(ChProto) := {
  remaining : ch_reader -> nat;
  remaining_NewReader b : remaining (NewReader b) = length b;
  ReadByte_remaining r r' : ReadByte r = Some r' -> (remaining r' <= remaining r)%nat;
  ReadStr_remaining r r' : ReadStr r = Some r' -> (remaining r' <= remaining r)%nat;
  ClientInfo_remaining r v n r' :
    ClientInfo_DecodeAware r v = Some (n, r') -> (remaining r' <= remaining r)%nat;
  Setting_Decode_shrinks r k r' : Setting_Decode r = Some (k, r') -> (remaining r' < remaining r)%nat
}.

Module ParsersLib.
Import GoText Parsers.

(** ** dns.go *)

Definition TrimSuffix (s suffix : bytes) : bytes :=
  if HasSuffix s suffix then take (length s - length suffix) s else s.

Definition ParseDns `{Netaddr} `{Dnsmessage} (payload : bytes) : bytes * bytes * list IP :=
  let? msg := Unpack payload else ([], [], []) in
  match Questions msg with
  | [] => ([], [], [])
  | (type, name) :: _ =>
      let ips := omap (fun a => match a with
                                | AResource b => Some (IPFrom4 b)
                                | AAAAResource b => Some (IPFrom16 b)
                                | OtherResource => None
                                end) (Answers msg) in
      (type, TrimSuffix name (str "."), ips)
  end.

(** ** clickhouse.go *)

Section clickhouse.
Context `{ChProto}.

(** [for { s.Decode(r); if s.Key == "" { break } }]; [None] is out of fuel,
    [Some None] an error. *)
Fixpoint skip_settings (fuel : nat) (r : ch_reader) : option (option ch_reader) :=
  match fuel with
  | O => None
  | S fuel =>
      let? (key, r) := Setting_Decode r else Some None in
      if bytes_eqb key [] then Some (Some r) else skip_settings fuel r
  end.

(** The length of the payload bounds the settings; [None] is out of fuel. *)
Definition ParseClickhouse (payload : bytes) : option bytes :=
  let r := NewReader payload in
  let? r := ReadByte r else Some [] in
  let? r := ReadStr r else Some [] in
  let version := FeatureServerQueryTimeInProgress in
  let? (protocolVersion, r) := ClientInfo_DecodeAware r version else Some [] in
  if (protocolVersion >? 0) && (protocolVersion >? version) then Some []
  else
  let? o := skip_settings (S (length payload)) r else None in
  let? r := o else Some [] in
  let? r := ReadStr r else Some [] in
  let? (stage, r) := UVarInt r else Some [] in
  if stage >? 2 then Some []
  else
  let? (c, r) := UVarInt r else Some [] in
  if c >? 1 then Some []
  else
  let? (l, r) := StrLen r else Some [] in
  let read := ReadN r (Z.min l 1024) in
  let query := TrimSpace read in
  if (length query =? 0)%nat then Some []
  else if Z.of_nat (length read) <? l
  then Some (take (length query - 1) query ++ str "...<TRUNCATED>")
  else Some query.

Lemma skip_settings_total `{!ChProtoLaws H} fuel r : (remaining r < fuel)%nat -> is_Some (skip_settings fuel r).
Proof.
  revert r. induction fuel as [|fuel IH]; intros r Hf; [lia|]. cbn [skip_settings].
  destruct (Setting_Decode r) as [[key r']|] eqn:E; [|by eauto]. case_match; [by eauto|].
  apply IH. apply Setting_Decode_shrinks in E. lia.
Qed.

Lemma ParseClickhouse_total `{!ChProtoLaws H} payload : is_Some (ParseClickhouse payload).
Proof.
  unfold ParseClickhouse.
  destruct (ReadByte _) as [r1|] eqn:E1; [|by eauto]. destruct (ReadStr r1) as [r2|] eqn:E2; [|by eauto].
  destruct (ClientInfo_DecodeAware _ _) as [[v r3]|] eqn:E3; [|by eauto]. case_match; [by eauto|].
  apply ReadByte_remaining in E1. apply ReadStr_remaining in E2. apply ClientInfo_remaining in E3.
  rewrite remaining_NewReader in E1.
  destruct (skip_settings_total (S (length payload)) r3) as [o ->]; [lia|].
  repeat (case_match; try by eauto).
Qed.

End clickhouse.
End ParsersLib.
