(* ===== verification/Container.v ===== *)
(** * Containers

    containers/container.go and l7.go: the state the agent keeps of a container (its
    processes, listening sockets, connections and their statistics) and the handlers
    of the events of its processes.  [ActiveConnection]s are shared between two maps
    of the container, so they live in a heap and the maps hold locations; a
    [time.Time] is nanoseconds, with [None] for the zero time. *)

From S2P Require Import Prelude GoLib Attach Net Decode Parsers Http2Parser ParsersLib Tracing.

(** The packages outside the repository the handlers reach. *)
Class Libs := {
  libs_netaddr :: Netaddr;
  libs_hpack :: Hpack;
  libs_dns :: Dnsmessage;
  libs_ch :: ChProto;
  bson_String : bytes -> bytes
}.

Module Container.
Import Decode Parsers.
Section container.
Context `{Libs}.

Definition gcInterval : Z := 600000000000.

(** ** State *)

Record ConnectionKey := MkConnectionKey { ck_src : IPPort; ck_dst : IPPort }.
Record PidFd := MkPidFd { pf_pid : Z; pf_fd : Z }.

#[export] Instance ConnectionKey_eq_dec : EqDecision ConnectionKey.
Proof. solve_decision. Defined.
#[export] Instance ConnectionKey_countable : Countable ConnectionKey.
Proof.
  apply (inj_countable' (fun x => (ck_src x, ck_dst x)) (fun '(a, b) => MkConnectionKey a b)).
  by intros [].
Defined.
#[export] Instance PidFd_eq_dec : EqDecision PidFd.
Proof. solve_decision. Defined.
#[export] Instance PidFd_countable : Countable PidFd.
Proof.
  apply (inj_countable' (fun x => (pf_pid x, pf_fd x)) (fun '(a, b) => MkPidFd a b)).
  by intros [].
Defined.

Record ActiveConnection := MkActiveConnection {
  DestinationKey_ : DestinationKey; ac_Pid : Z; ac_Fd : Z; ac_Timestamp : Z; Closed : option Z;
  ac_BytesSent : Z; ac_BytesReceived : Z;
  http2Parser : option Http2Parser.parser;
  postgresParser : option statements; mysqlParser : option statements
}.

Record ListenDetails := MkListenDetails { ClosedAt : option Z; NsIPs : list IP }.

Record ConnectionStats := MkConnectionStats {
  Count : Z; TotalTime : Z; Retransmissions : Z; cs_BytesSent : Z; cs_BytesReceived : Z
}.
Definition ConnectionStats_zero : ConnectionStats := MkConnectionStats 0 0 0 0 0.

Record Process := MkProcess {
  StartedAt : Z; EbpfTracesDisabled : bool;
  nodejsPrevStats : option Z; pythonPrevStats : option Z;
  Probes : Attach.Process
}.

(** A counter per label values (of dnsStats: request type, domain, status; of the
    others: status and method), and the durations observed. *)
Record L7Metrics := MkL7Metrics { Requests : gmap (list bytes) Z; Latency : option (list Z) }.

Abbreviation L7Stats := (gmap (Z * DestinationKey) L7Metrics).

Record st := St {
  processes : gmap Z Process;
  startedAt : option Z; zombieAt : option Z; restarts : Z; oomKills : Z;
  listens : gmap IPPort (gmap Z ListenDetails);
  connectionStats : gmap DestinationKey ConnectionStats;
  failedConnectionAttempts : gmap HostPort Z;
  lastConnectionAttempts : gmap HostPort Z;
  heap : list ActiveConnection;
  activeConnections : gmap ConnectionKey nat;
  connectionsByPidFd : gmap PidFd nat;
  l7Stats : L7Stats; dnsStats : L7Metrics;
  nodejsStats : option Z; pythonStats : option Z;
  spans : list Tracing.span
}.

Definition init : st :=
  St ∅ None None 0 0 ∅ ∅ ∅ ∅ [] ∅ ∅ ∅ (MkL7Metrics ∅ None) None None [].

(** What a handler reads from outside: the clock (the n-th call it makes), the
    configured filters, the network namespaces, Cilium's tables, the domains the
    registry has seen and the tracer of the container. *)
Record cenv := CEnv {
  Now : nat -> Z;
  PortFilter_ : option portFilter;
  HttpFilter_ : httpFilter;
  isHostNs : Z -> bool;
  lookupCiliumConntrackTable : IPPort -> IPPort -> option IPPort;
  getDomain : IP -> option Domain;
  getNsIps : Z -> option (list IP);
  range_statuses : gmap Z Z -> list (Z * Z);
  tracer : Tracing.Tracer
}.

(** Assignments to a field of the container. *)
Definition set_processes f (c : st) : st :=
  St (f (processes c)) (startedAt c) (zombieAt c) (restarts c) (oomKills c) (listens c)
    (connectionStats c) (failedConnectionAttempts c) (lastConnectionAttempts c) (heap c)
    (activeConnections c) (connectionsByPidFd c) (l7Stats c) (dnsStats c) (nodejsStats c)
    (pythonStats c) (spans c).
Definition set_life sa za rs (c : st) : st :=
  St (processes c) sa za rs (oomKills c) (listens c)
    (connectionStats c) (failedConnectionAttempts c) (lastConnectionAttempts c) (heap c)
    (activeConnections c) (connectionsByPidFd c) (l7Stats c) (dnsStats c) (nodejsStats c)
    (pythonStats c) (spans c).
Definition set_oomKills x (c : st) : st :=
  St (processes c) (startedAt c) (zombieAt c) (restarts c) x (listens c)
    (connectionStats c) (failedConnectionAttempts c) (lastConnectionAttempts c) (heap c)
    (activeConnections c) (connectionsByPidFd c) (l7Stats c) (dnsStats c) (nodejsStats c)
    (pythonStats c) (spans c).
Definition set_listens f (c : st) : st :=
  St (processes c) (startedAt c) (zombieAt c) (restarts c) (oomKills c) (f (listens c))
    (connectionStats c) (failedConnectionAttempts c) (lastConnectionAttempts c) (heap c)
    (activeConnections c) (connectionsByPidFd c) (l7Stats c) (dnsStats c) (nodejsStats c)
    (pythonStats c) (spans c).
Definition set_stats f (c : st) : st :=
  St (processes c) (startedAt c) (zombieAt c) (restarts c) (oomKills c) (listens c)
    (f (connectionStats c)) (failedConnectionAttempts c) (lastConnectionAttempts c) (heap c)
    (activeConnections c) (connectionsByPidFd c) (l7Stats c) (dnsStats c) (nodejsStats c)
    (pythonStats c) (spans c).
Definition set_attempts f g (c : st) : st :=
  St (processes c) (startedAt c) (zombieAt c) (restarts c) (oomKills c) (listens c)
    (connectionStats c) (f (failedConnectionAttempts c)) (g (lastConnectionAttempts c)) (heap c)
    (activeConnections c) (connectionsByPidFd c) (l7Stats c) (dnsStats c) (nodejsStats c)
    (pythonStats c) (spans c).
Definition set_heap f (c : st) : st :=
  St (processes c) (startedAt c) (zombieAt c) (restarts c) (oomKills c) (listens c)
    (connectionStats c) (failedConnectionAttempts c) (lastConnectionAttempts c) (f (heap c))
    (activeConnections c) (connectionsByPidFd c) (l7Stats c) (dnsStats c) (nodejsStats c)
    (pythonStats c) (spans c).
Definition set_conns f g (c : st) : st :=
  St (processes c) (startedAt c) (zombieAt c) (restarts c) (oomKills c) (listens c)
    (connectionStats c) (failedConnectionAttempts c) (lastConnectionAttempts c) (heap c)
    (f (activeConnections c)) (g (connectionsByPidFd c)) (l7Stats c) (dnsStats c) (nodejsStats c)
    (pythonStats c) (spans c).
Definition set_l7 f (c : st) : st :=
  St (processes c) (startedAt c) (zombieAt c) (restarts c) (oomKills c) (listens c)
    (connectionStats c) (failedConnectionAttempts c) (lastConnectionAttempts c) (heap c)
    (activeConnections c) (connectionsByPidFd c) (f (l7Stats c)) (dnsStats c) (nodejsStats c)
    (pythonStats c) (spans c).
Definition set_dns x (c : st) : st :=
  St (processes c) (startedAt c) (zombieAt c) (restarts c) (oomKills c) (listens c)
    (connectionStats c) (failedConnectionAttempts c) (lastConnectionAttempts c) (heap c)
    (activeConnections c) (connectionsByPidFd c) (l7Stats c) x (nodejsStats c)
    (pythonStats c) (spans c).
Definition set_runtime n p (c : st) : st :=
  St (processes c) (startedAt c) (zombieAt c) (restarts c) (oomKills c) (listens c)
    (connectionStats c) (failedConnectionAttempts c) (lastConnectionAttempts c) (heap c)
    (activeConnections c) (connectionsByPidFd c) (l7Stats c) (dnsStats c) n p (spans c).
Definition emit (l : list Tracing.span) (c : st) : st :=
  St (processes c) (startedAt c) (zombieAt c) (restarts c) (oomKills c) (listens c)
    (connectionStats c) (failedConnectionAttempts c) (lastConnectionAttempts c) (heap c)
    (activeConnections c) (connectionsByPidFd c) (l7Stats c) (dnsStats c) (nodejsStats c)
    (pythonStats c) (spans c ++ l).

Definition ac_set_Closed x (a : ActiveConnection) : ActiveConnection :=
  MkActiveConnection (DestinationKey_ a) (ac_Pid a) (ac_Fd a) (ac_Timestamp a) x (ac_BytesSent a)
    (ac_BytesReceived a) (http2Parser a) (postgresParser a) (mysqlParser a).
Definition ac_set_bytes sent received (a : ActiveConnection) : ActiveConnection :=
  MkActiveConnection (DestinationKey_ a) (ac_Pid a) (ac_Fd a) (ac_Timestamp a) (Closed a) sent
    received (http2Parser a) (postgresParser a) (mysqlParser a).
Definition ac_set_parsers h p m (a : ActiveConnection) : ActiveConnection :=
  MkActiveConnection (DestinationKey_ a) (ac_Pid a) (ac_Fd a) (ac_Timestamp a) (Closed a)
    (ac_BytesSent a) (ac_BytesReceived a) h p m.

(** ** Processes *)

(** [stats] is the result of TaskstatsPID: the time the process began. *)
Definition onProcessStart (pid : Z) (stats : option Z) (tracesDisabled : bool) (c : st) : st :=
  let? BeginTime := stats else c in
  let c := set_life (startedAt c) None (restarts c) c in
  let c := set_processes (insert pid (MkProcess BeginTime tracesDisabled None None Attach.NewProcess)) c in
  match startedAt c with
  | None => set_life (Some BeginTime) (zombieAt c) (restarts c) c
  | Some started =>
      let min := map_fold (fun _ p m => Z.min (StartedAt p) m) BeginTime (processes c) in
      if min >? started then set_life (Some min) (zombieAt c) (restarts c + 1) c else c
  end.

Definition onProcessExit (v : cenv) (pid : Z) (oomKill : bool) (c : st) : st :=
  let c := set_processes (delete pid) c in
  let c := if decide (processes c = ∅) then set_life (startedAt c) (Some (Now v 0)) (restarts c) c else c in
  if oomKill then set_oomKills (oomKills c + 1) c else c.

Definition Dead (now : Z) (c : st) : bool :=
  match zombieAt c with
  | None => false
  | Some z => now - z >? gcInterval
  end.

(** ** Listening sockets *)

Definition onListenOpen (v : cenv) (pid : Z) (addr : IPPort) (c : st) : st :=
  if port_ShouldBeSkipped (PortFilter_ v) (addr_port addr) then c
  else
  let ips := if IsUnspecified (addr_ip addr) then default [] (getNsIps v pid) else [] in
  set_listens (fun m => <[addr := <[pid := MkListenDetails None ips]> (default ∅ (m !! addr))]> m) c.

Definition onListenClose (v : cenv) (pid : Z) (addr : IPPort) (c : st) : st :=
  set_listens (alter (alter (fun d => MkListenDetails (Some (Now v 0)) (NsIPs d)) pid) addr) c.

(** ** Connections *)

Definition bump_stats (key : DestinationKey) (f : ConnectionStats -> ConnectionStats) (c : st) : st :=
  set_stats (fun m => <[key := f (default ConnectionStats_zero (m !! key))]> m) c.

(** The branch of [onConnectionOpen] for an established connection: the connection
    its descriptor had before is closed. *)
Definition track_connection (v : cenv) (key : DestinationKey) (pid fd : Z) (src dst : IPPort)
  (timestamp duration : Z) (c : st) : st :=
  let c := bump_stats key (fun s => MkConnectionStats (u64 (Count s + 1)) (s64 (TotalTime s + duration))
                             (Retransmissions s) (cs_BytesSent s) (cs_BytesReceived s)) c in
  let l := length (heap c) in
  let c := set_heap (fun h => h ++ [MkActiveConnection key pid fd timestamp None 0 0 None None None]) c in
  let k := MkPidFd pid fd in
  let c := match connectionsByPidFd c !! k with
           | Some prev => set_heap (alter (ac_set_Closed (Some (Now v 0))) prev) c
           | None => c
           end in
  set_conns (insert (MkConnectionKey src dst) l) (insert k l) c.

(** The container and the connection filter afterwards. *)
Definition onConnectionOpen (v : cenv) (pid fd : Z) (src dst actualDst : IPPort) (timestamp : Z)
  (failed : bool) (duration : Z) (filter : gmap bytes IPPrefix) (c : st) : st * gmap bytes IPPrefix :=
  if port_ShouldBeSkipped (PortFilter_ v) (addr_port dst) then (c, filter)
  else
  let? p := processes c !! pid else (c, filter) in
  if IsLoopback (addr_ip dst) && negb (isHostNs v pid) then (c, filter)
  else
  let actualDst :=
    if addr_port actualDst =? 0
    then default dst (lookupCiliumConntrackTable v src dst) else actualDst in
  if IsLoopback (addr_ip actualDst) && negb (isHostNs v pid) then (c, filter)
  else
  let (skip, filter) := ShouldBeSkipped (addr_ip dst) (addr_ip actualDst) filter in
  if skip then (c, filter)
  else
  let key := NewDestinationKey dst actualDst (getDomain v (addr_ip dst)) in
  let c :=
    if failed then
      set_attempts (fun m => <[destination key := default 0 (m !! destination key) + 1]> m) id c
    else track_connection v key pid fd src dst timestamp duration c in
  (set_attempts id (insert (destination key) (Now v 1)) c, filter).

(** Counters that went up since the last update are added to the destination. *)
Definition updateConnectionTrafficStats (ac : option nat) (sent received : Z) (c : st) : st :=
  let? l := ac else c in
  let? a := heap c !! l else c in
  let c := bump_stats (DestinationKey_ a) (fun s =>
             MkConnectionStats (Count s) (TotalTime s) (Retransmissions s)
               (if sent >? ac_BytesSent a then u64 (cs_BytesSent s + (sent - ac_BytesSent a)) else cs_BytesSent s)
               (if received >? ac_BytesReceived a then u64 (cs_BytesReceived s + (received - ac_BytesReceived a))
                else cs_BytesReceived s)) c in
  set_heap (alter (ac_set_bytes sent received) l) c.

Definition updateTrafficStats (pid fd sent received : Z) (c : st) : st :=
  updateConnectionTrafficStats (connectionsByPidFd c !! MkPidFd pid fd) sent received c.

Definition onConnectionClose (v : cenv) (e : Event) (c : st) : st :=
  let? l := connectionsByPidFd c !! MkPidFd (Pid e) (Fd e) else c in
  let? conn := heap c !! l else c in
  if negb (ac_Timestamp conn =? 0) && negb (ac_Timestamp conn =? Timestamp e) then c
  else
  match Closed conn with
  | Some _ => c
  | None =>
      let c := match Traffic e with
               | Some t => updateConnectionTrafficStats (Some l) (BytesSent t) (BytesReceived t) c
               | None => c
               end in
      set_heap (alter (ac_set_Closed (Some (Now v 0))) l) c
  end.

Definition onRetransmission (src dst : IPPort) (c : st) : st * bool :=
  let? l := activeConnections c !! MkConnectionKey src dst else (c, false) in
  let? conn := heap c !! l else (c, false) in
  (bump_stats (DestinationKey_ conn) (fun s =>
     MkConnectionStats (Count s) (TotalTime s) (u64 (Retransmissions s + 1)) (cs_BytesSent s)
       (cs_BytesReceived s)) c, true).

(** ** Runtime statistics *)

Definition updateNodejsStats (pid blocked : Z) (c : st) : st :=
  let? p := processes c !! pid else c in
  let? prev := nodejsPrevStats p else c in
  let delta := s64 (blocked - prev) in
  let c := if delta >? 0
           then set_runtime (Some (s64 (default 0 (nodejsStats c) + delta))) (pythonStats c) c else c in
  set_processes (insert pid (MkProcess (StartedAt p) (EbpfTracesDisabled p) (Some blocked) (pythonPrevStats p) (Probes p))) c.

Definition updatePythonStats (pid wait : Z) (c : st) : st :=
  let? p := processes c !! pid else c in
  let? prev := pythonPrevStats p else c in
  let delta := s64 (wait - prev) in
  let c := if delta >? 0
           then set_runtime (nodejsStats c) (Some (s64 (default 0 (pythonStats c) + delta))) c else c in
  set_processes (insert pid (MkProcess (StartedAt p) (EbpfTracesDisabled p) (nodejsPrevStats p) (Some wait) (Probes p))) c.

(** What [instrument] leaves in the process: the statistics of an instrumented process
    count from zero. *)
Definition instrumented (pid : Z) (python nodejs : bool) (c : st) : st :=
  set_processes (alter (fun p =>
    MkProcess (StartedAt p) (EbpfTracesDisabled p) (if nodejs then Some 0 else nodejsPrevStats p)
      (if python then Some 0 else pythonPrevStats p) (Probes p)) pid) c.

(** Probes attached to a process, in the kernel [k]. *)
Definition attach_probes (attach : Attach.Process -> Attach.io Attach.Process) (pid : Z) (k : Attach.kernel) (c : st)
  : go st :=
  let? p := processes c !! pid else Val c in
  match attach (Probes p) k with
  | Panic => Panic
  | Val (probes, _) =>
      Val (set_processes (insert pid (MkProcess (StartedAt p) (EbpfTracesDisabled p) (nodejsPrevStats p)
             (pythonPrevStats p) probes)) c)
  end.

(** ** L7 statistics *)

(** L7Stats.get: HTTP/2 counts as HTTP; only queues have a method label and no
    latency. *)
Definition l7_protocol (protocol : Z) : Z :=
  if protocol =? ProtocolHTTP2 then ProtocolHTTP else protocol.

Definition l7_get (protocol : Z) (key : DestinationKey) (s : L7Stats) : L7Metrics :=
  default (MkL7Metrics ∅ (if (protocol =? ProtocolRabbitmq) || (protocol =? ProtocolNats)
                          then None else Some []))
    (s !! (l7_protocol protocol, key)).

Definition inc (labels : list bytes) (m : gmap (list bytes) Z) : gmap (list bytes) Z :=
  <[labels := default 0 (m !! labels) + 1]> m.

(** L7Metrics.observe *)
Definition l7_observe (status method : bytes) (duration : Z) (m : L7Metrics) : L7Metrics :=
  MkL7Metrics (inc (if bytes_eqb method [] then [status] else [status; method]) (Requests m))
    (if duration =? 0 then Latency m else (fun l => l ++ [duration]) <$> Latency m).

(** [stats.observe(...)] on the metrics [get] returned (and created). *)
Definition observe (protocol : Z) (key : DestinationKey) (status method : bytes) (duration : Z) (c : st) : st :=
  set_l7 (fun s => <[(l7_protocol protocol, key) := l7_observe status method duration (l7_get protocol key s)]> s) c.

(** ** DNS *)

Definition onDNSRequest (r : RequestData) (c : st) : st * gmap IP Domain :=
  let status := Status_DNS (r_Status r) in
  if bytes_eqb status [] then (c, ∅)
  else
  let '(t, fqdn, ips) := ParsersLib.ParseDns (r_Payload r) in
  if bytes_eqb t [] then (c, ∅)
  else
  let fqdn := NormalizeFQDN fqdn t in
  if bytes_eqb t (str "TypeAAAA") && (r_Status r =? 0) && (length ips =? 0)%nat then (c, ∅)
  else
  let d := dnsStats c in
  let d := MkL7Metrics (inc [t; fqdn; status] (Requests d))
             (if r_Duration r =? 0 then Latency d else Some (default [] (Latency d) ++ [r_Duration r])) in
  let dom := NewDomain fqdn ips in
  (set_dns d c,
   if bytes_eqb fqdn [] then ∅ else foldl (fun m ip => <[ip := dom]> m) ∅ ips).

(** ** Requests *)

(** A request of a batch of HTTP/2 frames, and its index. *)
Definition onHttp2Request (v : cenv) (key : DestinationKey) (trace : Tracing.trace) (c : st)
  (ireq : nat * Http2Parser.Http2Request) : st :=
  let (i, req) := ireq in
  if http_ShouldBeSkipped (HttpFilter_ v) (Http2Parser.q_Path req) then c
  else
  let status := if Http2Parser.q_GrpcStatus req >=? 0 then Status_GRPC (Http2Parser.q_GrpcStatus req)
                else Status_Http (Http2Parser.q_Status req) in
  let c := observe ProtocolHTTP2 key status [] (Http2Parser.q_Duration req) c in
  emit (Tracing.Http2Request (Tracing.nth_span i trace) (Http2Parser.q_Method req) (Http2Parser.q_Path req)
          (Http2Parser.q_Scheme req) (Http2Parser.q_Status req) (Http2Parser.q_GrpcStatus req)
          (Http2Parser.q_Duration req)) c.

(** The switch of [onL7Request] on a connection [conn] at [l]: [stats.get] has been
    called, so its metrics exist whatever branch is taken.  The parsers that count
    fuel always have enough; their [None] is unreachable. *)
Definition handle_request (v : cenv) (l : nat) (conn : ActiveConnection) (trace : Tracing.trace)
  (r : RequestData) (c : st) : go st :=
  let key := DestinationKey_ conn in
  let status := Status_String (r_Status r) in
  let error := Status_Error (r_Status r) in
  let d := r_Duration r in
  let p := r_Protocol r in
  let obs status method d c := observe p key status method d c in
  if p =? ProtocolHTTP then
    let (method, path) := ParseHttp (r_Payload r) in
    if http_ShouldBeSkipped (HttpFilter_ v) path then Val c
    else Val (emit (Tracing.HttpRequest trace method path (r_Status r) d)
                (obs (Status_Http (r_Status r)) [] d c))
  else if p =? ProtocolHTTP2 then
    let parser := default Http2Parser.NewHttp2Parser (http2Parser conn) in
    let? (requests, parser) :=
      Http2Parser.Parse (range_statuses v) parser (r_Method r) (r_Payload r) (u64 d) else Panic in
    let c := set_heap (alter (fun a => ac_set_parsers (Some parser) (postgresParser a) (mysqlParser a) a) l) c in
    Val (foldl (onHttp2Request v key trace) c (imap pair requests))
  else if p =? ProtocolPostgres then
    let c := if negb (r_Method r =? MethodStatementClose) then obs status [] d c else c in
    let (query, parser) := Postgres_Parse (default ∅ (postgresParser conn)) (r_Payload r) in
    let c := set_heap (alter (fun a => ac_set_parsers (http2Parser a) (Some parser) (mysqlParser a) a) l) c in
    Val (emit (Tracing.PostgresQuery trace query error d) c)
  else if p =? ProtocolMysql then
    let c := if negb (r_Method r =? MethodStatementClose) then obs status [] d c else c in
    match Mysql_Parse (default ∅ (mysqlParser conn)) (r_Payload r) (r_StatementId r) with
    | Panic => Panic
    | Val (query, parser) =>
        let c := set_heap (alter (fun a => ac_set_parsers (http2Parser a) (postgresParser a) (Some parser) a) l) c in
        Val (emit (Tracing.MysqlQuery trace query error d) c)
    end
  else if p =? ProtocolMemcached then
    let (cmd, items) := ParseMemcached (r_Payload r) in
    Val (emit (Tracing.MemcachedQuery trace cmd items error d) (obs status [] d c))
  else if p =? ProtocolRedis then
    let (cmd, args) := ParseRedis (r_Payload r) in
    Val (emit (Tracing.RedisQuery trace cmd args error d) (obs status [] d c))
  else if p =? ProtocolMongo then
    Val (emit (Tracing.MongoQuery trace (ParseMongo bson_String (r_Payload r)) error d) (obs status [] d c))
  else if (p =? ProtocolKafka) || (p =? ProtocolCassandra) then Val (obs status [] d c)
  else if (p =? ProtocolRabbitmq) || (p =? ProtocolNats) then
    Val (obs status (Method_String (r_Method r)) 0 c)
  else if p =? ProtocolDubbo2 then Val (obs status [] d c)
  else if p =? ProtocolClickhouse then
    let? query := ParsersLib.ParseClickhouse (r_Payload r) else Panic in
    Val (emit (Tracing.ClickhouseQuery trace query error d) (obs status [] d c))
  else if p =? ProtocolZookeeper then
    let? (op, arg) := ParseZookeeper (r_Payload r) else Panic in
    Val (emit (Tracing.ZookeeperRequest trace op arg (r_Status r) d)
           (obs (Status_Zookeeper (r_Status r)) [] d c))
  else if p =? ProtocolFoundationDB then Val (obs status [] d c)
  else Val c.

Definition touch_l7 (protocol : Z) (key : DestinationKey) (c : st) : st :=
  set_l7 (fun s => <[(l7_protocol protocol, key) := l7_get protocol key s]> s) c.

Definition onL7Request (v : cenv) (pid fd timestamp : Z) (r : RequestData) (c : st)
  : go (st * gmap IP Domain) :=
  if r_Protocol r =? ProtocolDNS then Val (onDNSRequest r c)
  else
  let? l := connectionsByPidFd c !! MkPidFd pid fd else Val (c, ∅) in
  let? conn := heap c !! l else Val (c, ∅) in
  if negb (timestamp =? 0) && negb (ac_Timestamp conn =? timestamp) then Val (c, ∅)
  else
  let c := touch_l7 (r_Protocol r) (DestinationKey_ conn) c in
  let ebpfTracesDisabled := existsb (fun kp => EbpfTracesDisabled kp.2) (map_to_list (processes c)) in
  let trace := if ebpfTracesDisabled then None
               else Tracing.NewTrace (tracer v) (ActualDestinationIfKnown (DestinationKey_ conn)) in
  match handle_request v l conn trace r c with
  | Panic => Panic
  | Val c => Val (c, ∅)
  end.

(** ** Garbage collection *)

(** A socket of /proc: its addresses, whether it listens, its inode. *)
Record socket := Socket { SAddr : IPPort; DAddr : IPPort; Listen : bool; Inode : bytes }.

(** What [gc] reads from /proc: the namespaces, the sockets and the socket inodes of
    the processes; [pids] is the order the processes are visited in. *)
Record genv := GEnv {
  g_now : Z; g_env : cenv; g_pids : list Z;
  NetNsId : Z -> bytes;
  GetSockets : Z -> option (list socket);
  ReadFds : Z -> option (list bytes)
}.

Record sockets := MkSockets {
  established : gset ConnectionKey; actualListens : gmap IPPort bytes; seenNamespaces : gset bytes
}.

Definition add_socket (s : sockets) (x : socket) : sockets :=
  if Listen x then MkSockets (established s) (<[SAddr x := Inode x]> (actualListens s)) (seenNamespaces s)
  else MkSockets ({[MkConnectionKey (SAddr x) (DAddr x)]} ∪ established s) (actualListens s) (seenNamespaces s).

Definition scan_process (g : genv) (s : sockets) (pid : Z) : sockets :=
  if decide (NetNsId g pid ∈ seenNamespaces s) then s
  else
  let? xs := GetSockets g pid else s in
  let s := foldl add_socket s xs in
  MkSockets (established s) (actualListens s) ({[NetNsId g pid]} ∪ seenNamespaces s).

Definition scan_sockets (g : genv) : sockets := foldl (scan_process g) (MkSockets ∅ ∅ ∅) (g_pids g).

(** The three loops of [revalidateListens]. *)
Definition close_details (now : Z) (byPid : gmap Z ListenDetails) : gmap Z ListenDetails :=
  (fun d => match ClosedAt d with
            | None => MkListenDetails (Some now) (NsIPs d)
            | Some _ => d
            end) <$> byPid.

Definition close_outdated (now : Z) (actual : gmap IPPort bytes) (m : gmap IPPort (gmap Z ListenDetails))
  : gmap IPPort (gmap Z ListenDetails) :=
  map_imap (fun addr byPid =>
    Some (match actual !! addr with
          | Some _ => byPid
          | None => close_details now byPid
          end)) m.

Definition is_open (d : ListenDetails) : bool := match ClosedAt d with None => true | Some _ => false end.

Definition not_listening (m : gmap IPPort (gmap Z ListenDetails)) (addr : IPPort) : bool :=
  match m !! addr with
  | None => true
  | Some byPids => negb (existsb (fun pd => is_open pd.2) (map_to_list byPids))
  end.

Definition missingListens (actual : gmap IPPort bytes) (m : gmap IPPort (gmap Z ListenDetails)) : gmap IPPort bytes :=
  filter (fun ai => not_listening m ai.1) actual.

Definition inodeToPid (g : genv) : gmap bytes Z :=
  foldl (fun m pid => match ReadFds g pid with
                      | None => m
                      | Some inodes => foldl (fun m i => if bytes_eqb i [] then m else <[i := pid]> m) m inodes
                      end) ∅ (g_pids g).

Definition open_missing (g : genv) (missing : gmap IPPort bytes) (c : st) : st :=
  map_fold (fun addr inode c => match inodeToPid g !! inode with
                                | None => c
                                | Some pid => onListenOpen (g_env g) pid addr c
                                end) c missing.

Definition recently_open (now : Z) (d : ListenDetails) : bool :=
  match ClosedAt d with None => true | Some t => negb (now - t >? gcInterval) end.

Definition drop_closed (now : Z) (m : gmap IPPort (gmap Z ListenDetails)) : gmap IPPort (gmap Z ListenDetails) :=
  omap (fun byPid => let byPid := filter (fun pd => recently_open now pd.2) byPid in
                     if decide (byPid = ∅) then None else Some byPid) m.

Definition revalidateListens (g : genv) (actual : gmap IPPort bytes) (c : st) : st :=
  let c := set_listens (close_outdated (g_now g) actual) c in
  let missing := missingListens actual (listens c) in
  let c := open_missing g missing c in
  set_listens (drop_closed (g_now g)) c.

(** One iteration of the loop over [activeConnections]: the connections and the
    destinations that are still established. *)
Definition gc_connection (now : Z) (est : gset ConnectionKey)
  (acc : gmap ConnectionKey nat * gmap PidFd nat * gset HostPort) (h : list ActiveConnection)
  (kl : ConnectionKey * nat) : gmap ConnectionKey nat * gmap PidFd nat * gset HostPort :=
  let '(active, byPidFd, dsts) := acc in
  let (k, l) := kl in
  let? conn := h !! l else acc in
  let pidFd := MkPidFd (ac_Pid conn) (ac_Fd conn) in
  let byPidFd' := if decide (byPidFd !! pidFd = Some l) then delete pidFd byPidFd else byPidFd in
  if decide (k ∈ est) then
    let dsts := {[destination (DestinationKey_ conn)]} ∪ dsts in
    match Closed conn with
    | Some t => if now - t >? gcInterval then (delete k active, byPidFd', dsts) else (active, byPidFd, dsts)
    | None => (active, byPidFd, dsts)
    end
  else (delete k active, byPidFd', dsts).

(** The loop over [lastConnectionAttempts]: a destination that is not connected and
    was not tried for an interval is forgotten with its statistics. *)
Definition expired (now : Z) (dsts : gset HostPort) (c : st) : gset HostPort :=
  dom (filter (fun da => bool_decide (da.1 ∉ dsts) && (now - da.2 >? gcInterval)) (lastConnectionAttempts c)).

Definition forget_destinations (gone : gset HostPort) (c : st) : st :=
  let c := set_attempts (filter (fun dn => bool_decide (dn.1 ∉ gone))) (filter (fun da => bool_decide (da.1 ∉ gone))) c in
  let c := set_stats (filter (fun ks => bool_decide (destination ks.1 ∉ gone))) c in
  set_l7 (filter (fun ks => bool_decide (destination ks.1.2 ∉ gone))) c.

(** [order]: how the map of connections is visited. *)
Definition gc (g : genv) (order : gmap ConnectionKey nat -> list (ConnectionKey * nat)) (c : st) : st :=
  let s := scan_sockets g in
  let c := revalidateListens g (actualListens s) c in
  let '(active, byPidFd, dsts) :=
    foldl (fun acc kl => gc_connection (g_now g) (established s) acc (heap c) kl)
      (activeConnections c, connectionsByPidFd c, ∅) (order (activeConnections c)) in
  let c := set_conns (fun _ => active) (fun _ => byPidFd) c in
  forget_destinations (expired (g_now g) dsts c) c.

End container.
End Container.
