(* ===== verification/ContainerSpec.v ===== *)
(** * Properties of a container

    The connection table of a container: an invariant of its two maps that every
    handler preserves, the collection of closed connections, the accounting of
    traffic per destination, and the attribution of requests. *)

From Stdlib Require QArith.QArith_base.
From S2P Require Import Prelude GoLib Net Decode Parsers ParsersSpec Http2Parser ParsersLib Tracing Container.

Create HintDb container.

Module ContainerSpec.
Import Decode Parsers Container.
Section spec.
Context `{Libs}.

Implicit Types c : st.

(** ** The connection table *)

Definition pidfd_of (a : ActiveConnection) : PidFd := MkPidFd (ac_Pid a) (ac_Fd a).

(** Both maps point into the heap; a descriptor is mapped to a connection of its
    own; no connection is active under two addresses; and an active connection that
    is open is the one its descriptor is mapped to. *)
Record table_ok (h : list ActiveConnection) (active : gmap ConnectionKey nat) (byPidFd : gmap PidFd nat) : Prop := {
  ok_active k l : active !! k = Some l -> is_Some (h !! l);
  ok_pidfd p l : byPidFd !! p = Some l -> exists a, h !! l = Some a /\ pidfd_of a = p;
  ok_inj k k' l : active !! k = Some l -> active !! k' = Some l -> k = k';
  ok_open k l a : active !! k = Some l -> h !! l = Some a -> Closed a = None ->
    byPidFd !! pidfd_of a = Some l
}.

Definition ok c : Prop := table_ok (heap c) (activeConnections c) (connectionsByPidFd c).

(** Updates of a connection that keep its descriptor and do not reopen it. *)
Definition tame (f : ActiveConnection -> ActiveConnection) : Prop :=
  forall a, pidfd_of (f a) = pidfd_of a /\ (Closed (f a) = None -> Closed a = None).

Lemma table_ok_alter f l h active byPidFd :
  tame f -> table_ok h active byPidFd -> table_ok (alter f l h) active byPidFd.
Proof.
  intros Hf Ht. assert (forall j a, alter f l h !! j = Some a ->
    exists a0, h !! j = Some a0 /\ pidfd_of a = pidfd_of a0 /\ (Closed a = None -> Closed a0 = None)) as Hl.
  { intros j a. destruct (decide (l = j)) as [<-|Hne].
    - rewrite list_lookup_alter_eq. intros (a0 & Ha & ->)%fmap_Some. exists a0. by split; [|apply Hf].
    - rewrite list_lookup_alter_ne by done. eauto. }
  split.
  - intros k j Hk. apply lookup_lt_is_Some. rewrite length_alter. by apply lookup_lt_is_Some, (ok_active _ _ _ Ht k).
  - intros p j Hp. destruct (ok_pidfd _ _ _ Ht p j Hp) as (a0 & Ha0 & <-).
    destruct (decide (l = j)) as [<-|Hne].
    + exists (f a0). rewrite list_lookup_alter_eq, Ha0. by split; [|apply Hf].
    + exists a0. by rewrite list_lookup_alter_ne.
  - apply (ok_inj _ _ _ Ht).
  - intros k j a Hk (a0 & Ha0 & -> & Hcl)%Hl Hc. by apply (ok_open _ _ _ Ht k j a0 Hk Ha0), Hcl.
Qed.

Lemma tame_Closed t : tame (ac_set_Closed (Some t)).
Proof. by intros a. Qed.
Lemma tame_bytes s r : tame (ac_set_bytes s r).
Proof. by intros a. Qed.
Lemma tame_parsers (h : ActiveConnection -> option Http2Parser.parser) p m :
  tame (fun a => ac_set_parsers (h a) (p a) (m a) a).
Proof. by intros a. Qed.

(** A new connection. *)
Lemma table_ok_open k p h active byPidFd now a :
  table_ok h active byPidFd -> pidfd_of a = p -> Closed a = None ->
  let h1 := h ++ [a] in
  let h2 := match byPidFd !! p with
            | Some prev => alter (ac_set_Closed (Some now)) prev h1 | None => h1 end in
  table_ok h2 (<[k := length h]> active) (<[p := length h]> byPidFd).
Proof.
  intros Ht Hp Ha h1 h2.
  assert (forall j b, h2 !! j = Some b -> (j = length h /\ b = a) \/
    (exists b0, h !! j = Some b0 /\ pidfd_of b = pidfd_of b0 /\
       (Closed b = None -> Closed b0 = None /\ byPidFd !! p <> Some j))) as Hinv.
  { intros j b Hj. unfold h2, h1 in Hj. destruct (byPidFd !! p) as [prev|] eqn:E.
    - destruct (ok_pidfd _ _ _ Ht p prev E) as (a0 & Hprev & _).
      pose proof (lookup_lt_Some _ _ _ Hprev) as Hlt. destruct (decide (prev = j)) as [<-|Hne].
      + rewrite list_lookup_alter_eq, lookup_app_l in Hj by done. rewrite Hprev in Hj. injection Hj as <-.
        right. exists a0. by split_and!.
      + rewrite list_lookup_alter_ne in Hj by done.
        apply lookup_app_Some in Hj as [Hj|[Hge Hj]].
        * right. exists b. split_and!; try done. intros. split; [done|]. congruence.
        * apply list_lookup_singleton_Some in Hj as [Hj <-]. left. split; [lia|done].
    - apply lookup_app_Some in Hj as [Hj|[Hge Hj]].
      + right. exists b. by split_and!.
      + apply list_lookup_singleton_Some in Hj as [Hj <-]. left. split; [lia|done]. }
  assert (h2 !! length h = Some a) as Hnew.
  { unfold h2, h1. destruct (byPidFd !! p) as [prev|] eqn:E; [|by apply list_lookup_middle].
    destruct (ok_pidfd _ _ _ Ht p prev E) as (a0 & Hprev & _). apply lookup_lt_Some in Hprev.
    rewrite list_lookup_alter_ne by lia. by apply list_lookup_middle. }
  assert (forall j, is_Some (h !! j) -> is_Some (h2 !! j)) as Hkeep.
  { intros j Hj. apply lookup_lt_is_Some in Hj. apply lookup_lt_is_Some. unfold h2, h1.
    destruct (byPidFd !! p); rewrite ?length_alter, length_app; cbn; lia. }
  assert (forall j, h !! j <> None -> j <> length h) as Hlt.
  { intros j Hj ->. by rewrite lookup_ge_None_2 in Hj by lia. }
  split.
  - intros k' j [[<- <-]|[_ Hk]]%lookup_insert_Some; [by eexists|]. by apply Hkeep, (ok_active _ _ _ Ht k').
  - intros p' j [[<- <-]|[Hne Hk]]%lookup_insert_Some; [by exists a|].
    destruct (ok_pidfd _ _ _ Ht p' j Hk) as (b & Hb & Hbp).
    destruct (Hkeep j (ex_intro _ b Hb)) as [b' Hb']. exists b'. split; [done|].
    destruct (Hinv _ _ Hb') as [[-> ->]|(b0 & Hb0 & -> & _)]; [|congruence].
    exfalso. by apply (Hlt (length h)); rewrite ?Hb.
  - intros k1 k2 j [[<- <-]|[Hn1 H1]]%lookup_insert_Some [[<- E]|[Hn2 H2]]%lookup_insert_Some; try done.
    + exfalso. apply (Hlt (length h)); [|done]. destruct (ok_active _ _ _ Ht k2 _ H2) as [? ->]. done.
    + subst. exfalso. apply (Hlt (length h)); [|done]. destruct (ok_active _ _ _ Ht k1 _ H1) as [? ->]. done.
    + by eapply ok_inj.
  - intros k' j b [[<- <-]|[_ Hk]]%lookup_insert_Some Hb Hc.
    + rewrite Hnew in Hb. injection Hb as <-. by rewrite Hp, lookup_insert_eq.
    + destruct (Hinv _ _ Hb) as [[-> ->]|(b0 & Hb0 & -> & Hcl)].
      { exfalso. apply (Hlt (length h)); [|done]. by destruct (ok_active _ _ _ Ht k' _ Hk) as [? ->]. }
      destruct (Hcl Hc) as [Hc0 Hnp]. pose proof (ok_open _ _ _ Ht k' j b0 Hk Hb0 Hc0) as Hby.
      rewrite lookup_insert_ne; [done|]. intros E. apply Hnp. by rewrite E.
Qed.

(** ** Handlers *)

Lemma table_ok_init : ok init.
Proof. split; cbn; intros *; by rewrite lookup_empty. Qed.

Lemma ok_alter f l c : tame f -> ok c -> ok (set_heap (alter f l) c).
Proof. apply table_ok_alter. Qed.

Lemma ok_traffic ac sent received c : ok c -> ok (updateConnectionTrafficStats ac sent received c).
Proof.
  intros Hc. unfold updateConnectionTrafficStats. destruct ac as [l|]; [|done].
  destruct (heap c !! l); [|done]. apply ok_alter; [apply tame_bytes|done].
Qed.

Lemma ok_onConnectionClose v e c : ok c -> ok (onConnectionClose v e c).
Proof.
  intros Hc. unfold onConnectionClose. repeat (case_match; try done);
    (apply ok_alter; [apply tame_Closed|]); [by apply ok_traffic|done].
Qed.

Lemma ok_track_connection v key pid fd src dst ts d c :
  ok c -> ok (track_connection v key pid fd src dst ts d c).
Proof.
  intros Hc. unfold ok, track_connection. cbv zeta.
  set (a := MkActiveConnection key pid fd ts None 0 0 None None None).
  pose proof (table_ok_open (MkConnectionKey src dst) (MkPidFd pid fd) _ _ _ (Now v 0) a Hc eq_refl eq_refl)
    as Ht. cbv zeta in Ht. cbn -[insert lookup alter].
  by destruct (connectionsByPidFd c !! MkPidFd pid fd).
Qed.

Lemma ok_onConnectionOpen v pid fd src dst actual ts failed d f c :
  ok c -> ok (onConnectionOpen v pid fd src dst actual ts failed d f c).1.
Proof.
  intros Hc. unfold onConnectionOpen. case_match; [done|]. case_match; [|done]. case_match; [done|].
  cbv zeta. set (act := if addr_port actual =? 0 then _ else _). clearbody act. case_match; [done|].
  destruct (ShouldBeSkipped _ _ _) as [[] f']; [done|]. cbn [fst].
  destruct failed; [done|]. by apply ok_track_connection.
Qed.

Lemma ok_handle_request v l conn t r c c' : ok c -> handle_request v l conn t r c = Val c' -> ok c'.
Proof.
  intros Hc. unfold handle_request. cbv zeta.
  assert (forall key reqs c, ok c -> ok (foldl (onHttp2Request v key t) c reqs)) as Hh.
  { intros key reqs. induction reqs as [|q reqs IH]; intros c0 Hc0; [done|]. cbn [foldl]. apply IH.
    destruct q. unfold onHttp2Request. by case_match. }
  repeat (case_match; try discriminate); intros [= <-]; try done.
  { apply Hh, ok_alter; [by intros a|done]. }
  all: refine (table_ok_alter (fun x => ac_set_parsers _ _ _ x) _ _ _ _ _ _); [by intros x|done].
Qed.

Lemma ok_onL7Request v pid fd ts r c c' m : ok c -> onL7Request v pid fd ts r c = Val (c', m) -> ok c'.
Proof.
  intros Hc. unfold onL7Request, onDNSRequest. cbv zeta. case_match.
  { destruct (ParsersLib.ParseDns _) as [[t q] ips]. repeat case_match; intros [= <- <-]; done. }
  destruct (connectionsByPidFd c !! _) as [l|]; [|by intros [= <- <-]].
  destruct (heap c !! l) as [conn|]; [|by intros [= <- <-]].
  case_match; [by intros [= <- <-]|].
  destruct (handle_request _ _ _ _ _ _) eqn:E; [done|]. intros [= <- <-].
  by eapply ok_handle_request; [|exact E].
Qed.

(** ** Garbage collection *)

(** A connection that no longer exists, or was closed more than an interval ago. *)
Definition stale (now : Z) (est : gset ConnectionKey) (h : list ActiveConnection) (kl : ConnectionKey * nat) : bool :=
  match h !! kl.2 with
  | None => false
  | Some a => bool_decide (kl.1 ∉ est) ||
              match Closed a with Some t => now - t >? gcInterval | None => false end
  end.

Definition hit_key now est h (k : ConnectionKey) (kl : ConnectionKey * nat) : bool :=
  bool_decide (kl.1 = k) && stale now est h kl.
Definition hit_loc now est h (l : nat) (kl : ConnectionKey * nat) : bool :=
  (kl.2 =? l)%nat && stale now est h kl.

(** The maps after one visit. *)
Lemma gc_connection_maps now est h active byPidFd dsts kl :
  (gc_connection now est (active, byPidFd, dsts) h kl).1 =
  (if stale now est h kl then delete kl.1 active else active,
   match h !! kl.2 with
   | Some a => if stale now est h kl && bool_decide (byPidFd !! pidfd_of a = Some kl.2)
               then delete (pidfd_of a) byPidFd else byPidFd
   | None => byPidFd
   end).
Proof.
  destruct kl as [k l]. unfold gc_connection, stale. cbn [fst snd].
  destruct (h !! l) as [a|] eqn:E; [|done]. fold (pidfd_of a).
  assert (forall (P : Prop) `{Decision P} (x y : gmap PidFd nat),
    (if decide P then x else y) = if bool_decide P then x else y) as Hd.
  { intros P ? x y. by destruct (decide P); [rewrite bool_decide_true|rewrite bool_decide_false]. }
  rewrite Hd. destruct (decide (k ∈ est)) as [Hk|Hk].
  - rewrite (bool_decide_false (k ∉ est)) by tauto. cbn [orb]. destruct (Closed a) as [t|]; [|done].
    by destruct (now - t >? gcInterval).
  - rewrite (bool_decide_true (k ∉ est)) by done. done.
Qed.

(** The maps after the loop, for any order of the visit. *)
Lemma gc_fold_lookup now est h L active byPidFd dsts :
  (forall p l, byPidFd !! p = Some l -> exists a, h !! l = Some a /\ pidfd_of a = p) ->
  let r := (foldl (fun acc kl => gc_connection now est acc h kl) (active, byPidFd, dsts) L).1 in
  (forall k, r.1 !! k = if existsb (hit_key now est h k) L then None else active !! k) /\
  (forall p, r.2 !! p = match byPidFd !! p with
                        | Some l => if existsb (hit_loc now est h l) L then None else Some l
                        | None => None
                        end).
Proof.
  revert active byPidFd dsts. induction L as [|kl L IH]; intros active byPidFd dsts Hp r.
  { split; [done|]. intros p. unfold r. cbn. by destruct (byPidFd !! p). }
  unfold r. clear r. cbn [foldl]. pose proof (gc_connection_maps now est h active byPidFd dsts kl) as E.
  destruct (gc_connection now est (active, byPidFd, dsts) h kl) as [[act2 by2] dsts2].
  cbn [fst] in E. injection E as -> ->.
  edestruct IH as [IH1 IH2]; [|split; [intros k; etrans; [apply IH1|]|intros p; etrans; [apply IH2|]]].
  - intros p l. destruct (h !! kl.2) as [a|] eqn:Ea; [|apply Hp]. case_match; [|apply Hp].
    intros [_ Hl]%lookup_delete_Some. by apply Hp.
  - cbn [existsb]. unfold hit_key at 2. destruct (stale now est h kl) eqn:Es.
    + case_bool_decide as Hk; cbn [andb orb].
      * subst k. rewrite lookup_delete_eq. by destruct (existsb _ L).
      * by rewrite lookup_delete_ne.
    + by rewrite andb_false_r.
  - cbn [existsb]. destruct (h !! kl.2) as [a|] eqn:Ea; cycle 1.
    { destruct (byPidFd !! p) as [l|] eqn:El; [|done]. unfold hit_loc at 2, stale. rewrite Ea. by rewrite andb_false_r. }
    destruct (stale now est h kl) eqn:Es; cbn [andb]; cycle 1.
    { destruct (byPidFd !! p) as [l|] eqn:El; [|done]. unfold hit_loc at 2. rewrite Es. by rewrite andb_false_r. }
    case_bool_decide as Hb.
    + destruct (decide (p = pidfd_of a)) as [->|Hne].
      * rewrite lookup_delete_eq, Hb. unfold hit_loc at 1. by rewrite Nat.eqb_refl, Es.
      * rewrite lookup_delete_ne by done. destruct (byPidFd !! p) as [l|] eqn:El; [|done].
        unfold hit_loc at 2. destruct (Nat.eqb_spec kl.2 l) as [<-|]; [|done].
        destruct (Hp _ _ El) as (a' & Ha' & Hpa). congruence.
    + destruct (byPidFd !! p) as [l|] eqn:El; [|done].
      unfold hit_loc at 2. destruct (Nat.eqb_spec kl.2 l) as [<-|]; [|done].
      destruct (Hp _ _ El) as (a' & Ha' & Hpa). congruence.
Qed.

(** The destinations found connected. *)
Lemma gc_fold_dsts now est h L acc d :
  d ∈ (foldl (fun acc kl => gc_connection now est acc h kl) acc L).2 <->
  d ∈ acc.2 \/ exists k l a, (k, l) ∈ L /\ k ∈ est /\ h !! l = Some a /\ destination (DestinationKey_ a) = d.
Proof.
  revert acc. induction L as [|[k l] L IH]; intros [[active byPidFd] dsts].
  { cbn. split; [by left|intros [?|(k & l & a & Hin & _)]; [done|inversion Hin]]. }
  cbn [foldl]. rewrite IH. clear IH.
  assert (d ∈ (gc_connection now est (active, byPidFd, dsts) h (k, l)).2 <->
          d ∈ dsts \/ (k ∈ est /\ exists a, h !! l = Some a /\ destination (DestinationKey_ a) = d)) as ->.
  { unfold gc_connection. destruct (h !! l) as [a|]; cycle 1.
    { cbn. split; [by left|intros [?|(_ & a & ? & _)]; done]. }
    destruct (decide (k ∈ est)) as [Hk|Hk]; cycle 1.
    { cbn. split; [by left|intros [?|(? & _)]; done]. }
    assert (forall x y, (match Closed a with
      | Some t => if now - t >? gcInterval then (x, {[destination (DestinationKey_ a)]} ∪ dsts)
                  else (y, {[destination (DestinationKey_ a)]} ∪ dsts)
      | None => (y, {[destination (DestinationKey_ a)]} ∪ dsts) end).2
      = ({[destination (DestinationKey_ a)]} ∪ dsts : gset HostPort)) as ->.
    { intros. destruct (Closed a); [|done]. by destruct (_ >? _). }
    rewrite elem_of_union, elem_of_singleton. split.
    - intros [->|?]; [right|by left]. eauto.
    - intros [?|(_ & a' & [= <-] & <-)]; auto. }
  cbn [snd]. split.
  - intros [[?|(Hk & a & Ha & Hd)]|(k' & l' & a & Hin & Hrest)]; [by left| |]; right.
    + exists k, l, a. split; [by left|done].
    + exists k', l', a. split; [by right|done].
  - intros [?|(k' & l' & a & Hin & Hk & Ha & Hd)]; [by do 2 left|].
    apply elem_of_cons in Hin as [[= -> ->]|Hin]; [left; right; eauto|right; eauto 10].
Qed.

(** [open_missing] and [revalidateListens] only touch the listening sockets. *)
Lemma open_missing_listens g missing c : exists f, open_missing g missing c = set_listens f c.
Proof.
  unfold open_missing. apply (map_fold_weak_ind (fun r _ => exists f, r = set_listens f c)).
  - exists id. by destruct c.
  - intros addr inode m r _ [f ->]. destruct (inodeToPid g !! inode); [|eauto].
    unfold onListenOpen. case_match; [eauto|]. by eexists (fun m => <[addr := _]> (f m)).
Qed.

Lemma revalidateListens_listens g actual c : exists f, revalidateListens g actual c = set_listens f c.
Proof.
  unfold revalidateListens.
  destruct (open_missing_listens g (missingListens actual (listens (set_listens (close_outdated (g_now g) actual) c)))
    (set_listens (close_outdated (g_now g) actual) c)) as [f ->].
  by eexists (fun m => drop_closed _ (f (close_outdated _ _ m))).
Qed.

Lemma existsb_hit_key now est h c order k :
  order (activeConnections c) ≡ₚ map_to_list (activeConnections c) ->
  existsb (hit_key now est h k) (order (activeConnections c)) =
  match activeConnections c !! k with Some l => stale now est h (k, l) | None => false end.
Proof.
  intros Hperm. apply eq_bool_prop_intro. rewrite !Is_true_true. rewrite existsb_exists. split.
  - intros ([k' l] & Hin & Hhit). apply list_elem_of_In in Hin. rewrite Hperm, elem_of_map_to_list in Hin.
    unfold hit_key in Hhit. cbn [fst] in Hhit. apply andb_true_iff in Hhit as [Hk Hs].
    apply bool_decide_eq_true in Hk as ->. by rewrite Hin.
  - destruct (activeConnections c !! k) as [l|] eqn:E; [|done]. intros Hs. exists (k, l). split.
    + apply list_elem_of_In. by rewrite Hperm, elem_of_map_to_list.
    + unfold hit_key. cbn [fst]. by rewrite bool_decide_true, Hs.
Qed.

Lemma existsb_hit_loc now est h c order l :
  order (activeConnections c) ≡ₚ map_to_list (activeConnections c) ->
  existsb (hit_loc now est h l) (order (activeConnections c)) = true <->
  exists k, activeConnections c !! k = Some l /\ stale now est h (k, l) = true.
Proof.
  intros Hperm. rewrite existsb_exists. split.
  - intros ([k l'] & Hin & Hhit). apply list_elem_of_In in Hin. rewrite Hperm, elem_of_map_to_list in Hin.
    unfold hit_loc in Hhit. cbn [snd] in Hhit. apply andb_true_iff in Hhit as [->%Nat.eqb_eq Hs]. eauto.
  - intros (k & Hk & Hs). exists (k, l). split.
    + apply list_elem_of_In. by rewrite Hperm, elem_of_map_to_list.
    + unfold hit_loc. cbn [snd]. by rewrite Nat.eqb_refl, Hs.
Qed.

(** An established connection towards the destination. *)
Definition connected (g : genv) c (d : HostPort) : Prop :=
  exists k l a, activeConnections c !! k = Some l /\ k ∈ established (scan_sockets g) /\
    heap c !! l = Some a /\ destination (DestinationKey_ a) = d.

(** The container after a collection. *)
Record collected (g : genv) c c' : Prop := {
  gc_heap : heap c' = heap c;
  gc_active k : activeConnections c' !! k =
    match activeConnections c !! k with
    | Some l => if stale (g_now g) (established (scan_sockets g)) (heap c) (k, l) then None else Some l
    | None => None
    end;
  gc_pidfd p l : connectionsByPidFd c' !! p = Some l <-> connectionsByPidFd c !! p = Some l /\
    forall k, activeConnections c !! k = Some l ->
      stale (g_now g) (established (scan_sockets g)) (heap c) (k, l) = false;
  gc_gone : exists gone : gset HostPort,
    (forall d, d ∈ gone <-> ~ connected g c d /\
       exists t, lastConnectionAttempts c !! d = Some t /\ g_now g - t > gcInterval) /\
    failedConnectionAttempts c' = filter (fun dn => bool_decide (dn.1 ∉ gone)) (failedConnectionAttempts c) /\
    lastConnectionAttempts c' = filter (fun da => bool_decide (da.1 ∉ gone)) (lastConnectionAttempts c) /\
    connectionStats c' = filter (fun ks => bool_decide (destination ks.1 ∉ gone)) (connectionStats c) /\
    l7Stats c' = filter (fun ks => bool_decide (destination ks.1.2 ∉ gone)) (l7Stats c)
}.

Lemma gc_collected g order c :
  ok c -> order (activeConnections c) ≡ₚ map_to_list (activeConnections c) -> collected g c (gc g order c).
Proof.
  intros Hok Hperm. unfold gc. cbv zeta. destruct (revalidateListens_listens g (actualListens (scan_sockets g)) c) as [f ->].
  set (est := established (scan_sockets g)).
  change (heap (set_listens f c)) with (heap c). change (activeConnections (set_listens f c)) with (activeConnections c).
  change (connectionsByPidFd (set_listens f c)) with (connectionsByPidFd c).
  set (L := order (activeConnections c)) in *. set (acc := (activeConnections c, connectionsByPidFd c, ∅)).
  destruct (gc_fold_lookup (g_now g) est (heap c) L (activeConnections c) (connectionsByPidFd c) ∅ (ok_pidfd _ _ _ Hok))
    as [Hactive Hpidfd]. fold acc in Hactive, Hpidfd.
  pose proof (fun d => gc_fold_dsts (g_now g) est (heap c) L acc d) as Hdsts.
  destruct (foldl _ acc L) as [[active byPidFd] dsts]. cbn [fst snd] in Hactive, Hpidfd, Hdsts.
  split.
  - done.
  - intros k. cbn [activeConnections forget_destinations set_l7 set_stats set_attempts set_conns].
    rewrite Hactive. unfold L. rewrite existsb_hit_key by done. by destruct (activeConnections c !! k).
  - intros p l. cbn [connectionsByPidFd forget_destinations set_l7 set_stats set_attempts set_conns].
    rewrite Hpidfd. destruct (connectionsByPidFd c !! p) as [l'|]; [|by split; [|intros []]].
    pose proof (existsb_hit_loc (g_now g) est (heap c) c order l' Hperm) as He. fold L in He.
    destruct (existsb _ L); split; try done.
    + intros [[= <-] Hk]. destruct He as [(k & Hk1 & Hk2) _]; [done|]. by rewrite Hk in Hk2.
    + intros [= <-]. split; [done|]. intros k Hk.
      destruct (stale _ _ _ (k, l')) eqn:Es; [|done]. destruct He as [_ He]. by discriminate He; exists k.
    + by intros [? _].
  - eexists. split; [|split_and!; reflexivity]. intros d. unfold expired.
    rewrite elem_of_dom. unfold is_Some. setoid_rewrite map_lookup_filter_Some. cbn [fst snd].
    change (lastConnectionAttempts (set_conns _ _ (set_listens f c))) with (lastConnectionAttempts c).
    assert (d ∈ dsts <-> connected g c d) as Hd.
    { rewrite Hdsts. unfold connected. setoid_rewrite Hperm. setoid_rewrite elem_of_map_to_list.
      split; [intros [?%elem_of_empty|?]; done|by right]. }
    split.
    + intros (t & Ht & Hb). apply Is_true_true, andb_true_iff in Hb as [Hn%bool_decide_eq_true Ho].
      split; [by rewrite <-Hd|]. exists t. split; [done|lia].
    + intros (Hn & t & Ht & Ho). exists t. split; [done|]. rewrite <-Hd in Hn.
      apply Is_true_true, andb_true_iff. split; [by apply bool_decide_eq_true|lia].
Qed.

Lemma ok_collected g c c' : ok c -> collected g c c' -> ok c'.
Proof.
  intros Hok Hc. unfold ok. rewrite (gc_heap _ _ _ Hc).
  assert (forall k l, activeConnections c' !! k = Some l -> activeConnections c !! k = Some l /\
    stale (g_now g) (established (scan_sockets g)) (heap c) (k, l) = false) as Ha.
  { intros k l. rewrite (gc_active _ _ _ Hc). destruct (activeConnections c !! k); [|done].
    destruct (stale _ _ _ _) eqn:E; [done|]. by intros [= ->]. }
  split.
  - intros k l [Hk _]%Ha. by eapply ok_active.
  - intros p l [Hp _]%(gc_pidfd _ _ _ Hc). by eapply ok_pidfd.
  - intros k k' l [Hk _]%Ha [Hk' _]%Ha. by eapply ok_inj.
  - intros k l a [Hk Hs]%Ha Hl Hcl. apply (gc_pidfd _ _ _ Hc). split; [by eapply ok_open|].
    intros k' Hk'. by rewrite (ok_inj _ _ _ Hok _ _ _ Hk' Hk).
Qed.

(** ** Runs of a container *)

(** A call of a handler; [GC] carries the order its map of connections is visited in. *)
Inductive op :=
  | ProcessStart (pid : Z) (stats : option Z) (tracesDisabled : bool)
  | ProcessExit (v : cenv) (pid : Z) (oomKill : bool)
  | ListenOpen (v : cenv) (pid : Z) (addr : IPPort)
  | ListenClose (v : cenv) (pid : Z) (addr : IPPort)
  | ConnectionOpen (v : cenv) (pid fd : Z) (src dst actualDst : IPPort) (timestamp : Z) (failed : bool)
      (duration : Z) (filter : gmap bytes IPPrefix)
  | ConnectionClose (v : cenv) (e : Event)
  | TrafficUpdate (pid fd sent received : Z)
  | Retransmission (src dst : IPPort)
  | NodejsUpdate (pid blocked : Z)
  | PythonUpdate (pid wait : Z)
  | Instrumented (pid : Z) (python nodejs : bool)
  | L7Request (v : cenv) (pid fd timestamp : Z) (r : RequestData)
  | GC (g : genv) (order : gmap ConnectionKey nat -> list (ConnectionKey * nat)).

Definition apply_op (o : op) c : go st :=
  match o with
  | ProcessStart pid stats td => Val (onProcessStart pid stats td c)
  | ProcessExit v pid oomKill => Val (onProcessExit v pid oomKill c)
  | ListenOpen v pid addr => Val (onListenOpen v pid addr c)
  | ListenClose v pid addr => Val (onListenClose v pid addr c)
  | ConnectionOpen v pid fd src dst actual ts failed d f =>
      Val (onConnectionOpen v pid fd src dst actual ts failed d f c).1
  | ConnectionClose v e => Val (onConnectionClose v e c)
  | TrafficUpdate pid fd sent received => Val (updateTrafficStats pid fd sent received c)
  | Retransmission src dst => Val (onRetransmission src dst c).1
  | NodejsUpdate pid blocked => Val (updateNodejsStats pid blocked c)
  | PythonUpdate pid wait => Val (updatePythonStats pid wait c)
  | Instrumented pid python nodejs => Val (instrumented pid python nodejs c)
  | L7Request v pid fd ts r => match onL7Request v pid fd ts r c with Panic => Panic | Val (c, _) => Val c end
  | GC g order => Val (gc g order c)
  end.

Fixpoint run (ops : list op) c : go st :=
  match ops with
  | [] => Val c
  | o :: ops => match apply_op o c with Panic => Panic | Val c => run ops c end
  end.

(** A map is visited in some order. *)
Definition op_ok (o : op) : Prop :=
  match o with
  | GC g order => forall m, order m ≡ₚ map_to_list m
  | _ => True
  end.

(** What does not touch the connections. *)
Definition conns c := (heap c, activeConnections c, connectionsByPidFd c).

Lemma ok_conns c c' : conns c' = conns c -> ok c -> ok c'.
Proof. unfold conns, ok. by intros [= -> -> ->]. Qed.

Lemma conns_onProcessStart pid stats td c : conns (onProcessStart pid stats td c) = conns c.
Proof. unfold onProcessStart. by repeat case_match. Qed.
Lemma conns_onProcessExit v pid k c : conns (onProcessExit v pid k c) = conns c.
Proof. unfold onProcessExit. by destruct k, (decide _). Qed.
Lemma conns_onListenOpen v pid addr c : conns (onListenOpen v pid addr c) = conns c.
Proof. unfold onListenOpen. by repeat case_match. Qed.
Lemma conns_onRetransmission src dst c : conns (onRetransmission src dst c).1 = conns c.
Proof. unfold onRetransmission. by repeat case_match. Qed.
Lemma conns_updateNodejsStats pid b c : conns (updateNodejsStats pid b c) = conns c.
Proof. unfold updateNodejsStats. by repeat case_match. Qed.
Lemma conns_updatePythonStats pid b c : conns (updatePythonStats pid b c) = conns c.
Proof. unfold updatePythonStats. by repeat case_match. Qed.
#[local] Hint Resolve conns_onProcessStart conns_onProcessExit conns_onListenOpen conns_onRetransmission
  conns_updateNodejsStats conns_updatePythonStats : container.

Lemma ok_apply o c c' : ok c -> op_ok o -> apply_op o c = Val c' -> ok c'.
Proof.
  intros Hc Ho E.
  destruct o; cbn [apply_op] in E;
    try (injection E as <-; first
      [ by apply ok_onConnectionOpen
      | by apply ok_onConnectionClose
      | by apply ok_traffic
      | by eapply ok_collected, gc_collected, Ho
      | by eapply ok_conns; [|exact Hc]; auto with container ]).
  destruct (onL7Request v pid fd timestamp r c) as [|[c1 m]] eqn:E1; [done|]. injection E as <-.
  by eapply ok_onL7Request.
Qed.

Lemma ok_run ops c c' : ok c -> Forall op_ok ops -> run ops c = Val c' -> ok c'.
Proof.
  intros Hc Hops. revert c Hc. induction Hops as [|o ops Ho _ IH]; intros c0 Hc0 E.
  - by injection E as <-.
  - cbn [run] in E. destruct (apply_op o c0) as [|c1] eqn:E1; [done|].
    by eapply IH; [eapply ok_apply|].
Qed.

(** The connection table of a container stays consistent through every sequence
    of handler calls: both maps hold connections that exist, a descriptor maps to a
    connection of that process and descriptor, no connection is active under two
    pairs of addresses, and an active connection that is not closed is the one found
    under its descriptor. *)
Theorem container_table_ok ops c : Forall op_ok ops -> run ops init = Val c -> ok c.
Proof. apply ok_run, table_ok_init. Qed.

(** ** Attribution of requests *)

(** The series of another protocol or destination, and the statistics of the
    connections, are left alone. *)
Definition only_series (k : Z * DestinationKey) c c' : Prop :=
  (forall k', k' <> k -> l7Stats c' !! k' = l7Stats c !! k') /\ connectionStats c' = connectionStats c /\
  dnsStats c' = dnsStats c.

Lemma only_series_refl k c c' :
  l7Stats c' = l7Stats c -> connectionStats c' = connectionStats c -> dnsStats c' = dnsStats c -> only_series k c c'.
Proof. unfold only_series. by intros -> -> ->. Qed.

Lemma only_series_trans k c1 c2 c3 : only_series k c1 c2 -> only_series k c2 c3 -> only_series k c1 c3.
Proof.
  intros (H1 & E1 & F1) (H2 & E2 & F2). split_and!; [|congruence|congruence]. intros k' Hk. by rewrite H2, H1.
Qed.

Lemma only_series_observe p key status method d c :
  only_series (l7_protocol p, key) c (observe p key status method d c).
Proof. split_and!; [|done|done]. intros k' Hk. cbn. by rewrite lookup_insert_ne. Qed.

Lemma only_series_http2 v key t reqs c :
  only_series (l7_protocol ProtocolHTTP2, key) c (foldl (onHttp2Request v key t) c reqs).
Proof.
  revert c. induction reqs as [|q reqs IH]; intros c; [by apply only_series_refl|]. cbn [foldl].
  eapply only_series_trans; [|apply IH]. destruct q. unfold onHttp2Request. case_match; [by apply only_series_refl|].
  apply only_series_observe.
Qed.

Lemma handle_request_series v l conn t r c c' :
  handle_request v l conn t r c = Val c' -> only_series (l7_protocol (r_Protocol r), DestinationKey_ conn) c c'.
Proof.
  intros E. unfold handle_request in E. cbv zeta in E.
  destruct (r_Protocol r =? ProtocolHTTP2) eqn:E2.
  { apply Z.eqb_eq in E2. rewrite E2 in E. cbn [Z.eqb ProtocolHTTP ProtocolHTTP2 Pos.eqb] in E.
    destruct (Http2Parser.Parse _ _ _ _ _) as [[reqs parser]|]; [|done]. injection E as <-.
    rewrite E2. eapply only_series_trans; [|apply only_series_http2]. by apply only_series_refl. }
  assert (forall status method d, only_series (l7_protocol (r_Protocol r), DestinationKey_ conn) c
    (observe (r_Protocol r) (DestinationKey_ conn) status method d c)) as Ho by (intros; apply only_series_observe).
  repeat (case_match; try discriminate E); injection E as <-;
    first [by apply only_series_refl|apply Ho].
Qed.


(** ** No panic *)

(** Handling a request never panics, whatever state the container is in: every parser
    returns on every payload, and the one slice that could be out of range, of a MySQL
    packet of at least nine bytes that says it is empty, is the only exclusion. *)
Lemma onL7Request_total `{!ChProtoLaws libs_ch} v pid fd timestamp r c :
  bytes_ok (r_Payload r) ->
  (r_Protocol r = ProtocolMysql -> (9 <= length (r_Payload r))%nat -> mysql_msgSize (r_Payload r) <> 0) ->
  onL7Request v pid fd timestamp r c <> Panic.
Proof.
  intros Hb Hm. unfold onL7Request. case_match; [done|].
  destruct (connectionsByPidFd c !! _) as [l|]; [|done]. destruct (heap c !! l) as [conn|]; [|done].
  case_match; [done|]. cbv zeta.
  assert (forall t c, handle_request v l conn t r c <> Panic) as Hh; cycle 1.
  { destruct (handle_request _ _ _ _ _ _) eqn:E; [by destruct (Hh _ _ E)|done]. }
  intros t c0. unfold handle_request. cbv zeta.
  destruct (Http2Parser.Parse_total (range_statuses v) (default Http2Parser.NewHttp2Parser (http2Parser conn))
    (r_Method r) (r_Payload r) (u64 (r_Duration r))) as [[reqs parser] ->].
  destruct (ParsersSpec.ParseZookeeper_total (r_Payload r)) as [[zop zarg] ->].
  destruct (ParsersLib.ParseClickhouse_total (r_Payload r)) as [query ->].
  destruct (Z.eqb_spec (r_Protocol r) ProtocolMysql) as [Ep|Ep].
  - rewrite Ep. cbn [Z.eqb ProtocolHTTP ProtocolHTTP2 ProtocolPostgres ProtocolMysql Pos.eqb].
    destruct (Mysql_Parse _ _ _) as [|[q ps]] eqn:Eq; [|done].
    destruct (le_lt_dec 9 (length (r_Payload r))) as [Hl|Hl]; cycle 1.
    { unfold Mysql_Parse in Eq. by rewrite (proj2 (Nat.ltb_lt _ _) Hl) in Eq. }
    by destruct (ParsersSpec.Mysql_Parse_panics (default ∅ (mysqlParser conn)) (r_Payload r) (r_StatementId r) Hb (Hm Ep Hl)).
  - repeat (case_match; try discriminate).
Qed.

(** ** Accounting of traffic *)

(** What the statistics of a destination should hold: over its connections, how many
    there are and what was last seen sent and received on them. *)
Definition book (a : ActiveConnection) : DestinationKey * (Z * Z) :=
  (DestinationKey_ a, (ac_BytesSent a, ac_BytesReceived a)).

Fixpoint total (f : Z * Z -> Z) (key : DestinationKey) (L : list (DestinationKey * (Z * Z))) : Z :=
  match L with
  | [] => 0
  | (k, x) :: L => (if decide (k = key) then f x else 0) + total f key L
  end.

Definition stats_of (key : DestinationKey) c : ConnectionStats :=
  default ConnectionStats_zero (connectionStats c !! key).

Record accounted c : Prop := {
  acc_count key : Count (stats_of key c) = u64 (total (fun _ => 1) key (map book (heap c)));
  acc_sent key : cs_BytesSent (stats_of key c) = u64 (total fst key (map book (heap c)));
  acc_received key : cs_BytesReceived (stats_of key c) = u64 (total snd key (map book (heap c)))
}.

Lemma total_app f key L L' : total f key (L ++ L') = total f key L + total f key L'.
Proof. induction L as [|[k x] L IH]; cbn [app total]; [lia|]. rewrite IH. lia. Qed.

Lemma map_book_alter f l h : (forall a, book (f a) = book a) -> map book (alter f l h) = map book h.
Proof.
  intros Hf. revert l. induction h as [|a h IH]; intros [|l]; cbn [alter list_alter map]; try done.
  - by rewrite Hf.
  - by rewrite IH.
Qed.

Lemma total_alter f key g l h a :
  h !! l = Some a -> DestinationKey_ (g a) = DestinationKey_ a ->
  total f key (map book (alter g l h)) = total f key (map book h) +
    (if decide (DestinationKey_ a = key) then f (book (g a)).2 - f (book a).2 else 0).
Proof.
  revert l. induction h as [|b h IH]; intros [|l] Hl Hg; cbn in Hl; try done.
  - injection Hl as ->. cbn [alter list_alter map total]. unfold book at 1 3. cbn [total]. rewrite Hg.
    destruct (decide (DestinationKey_ a = key)); cbn; lia.
  - cbn [alter list_alter map total]. specialize (IH l Hl Hg). unfold book at 1 3. cbn [total].
    rewrite IH. lia.
Qed.

Lemma accounted_same c c' :
  connectionStats c' = connectionStats c -> map book (heap c') = map book (heap c) -> accounted c -> accounted c'.
Proof.
  intros Hs Hh Hc. split; intros key; unfold stats_of; rewrite Hs, Hh;
    [apply (acc_count _ Hc)|apply (acc_sent _ Hc)|apply (acc_received _ Hc)].
Qed.

Lemma stats_of_bump key key' f c :
  stats_of key (bump_stats key' f c) = if decide (key' = key) then f (stats_of key c) else stats_of key c.
Proof.
  unfold stats_of, bump_stats. cbn. destruct (decide (key' = key)) as [->|Hne].
  - by rewrite lookup_insert_eq.
  - by rewrite lookup_insert_ne.
Qed.

(** Counters that do not go back. *)
Definition up_to_date c (l : nat) (sent received : Z) : Prop :=
  forall a, heap c !! l = Some a -> ac_BytesSent a <= sent /\ ac_BytesReceived a <= received.

Lemma accounted_traffic l sent received c :
  accounted c -> up_to_date c l sent received ->
  accounted (updateConnectionTrafficStats (Some l) sent received c).
Proof.
  intros Hc Hup. unfold updateConnectionTrafficStats. destruct (heap c !! l) as [a|] eqn:Ea; [|done].
  destruct (Hup a Ea) as [Hs Hr].
  split; intros key; cbn [heap set_heap bump_stats set_stats];
    rewrite (total_alter _ _ (ac_set_bytes sent received) _ _ a Ea eq_refl); cbn [book snd fst ac_BytesSent ac_BytesReceived ac_set_bytes];
    match goal with |- _ (stats_of _ (set_heap _ ?b)) = _ =>
      change (stats_of key (set_heap _ b)) with (stats_of key b) end; rewrite stats_of_bump;
    (destruct (decide (DestinationKey_ a = key)) as [_|_];
      [|rewrite Z.add_0_r; first [apply (acc_count _ Hc)|apply (acc_sent _ Hc)|apply (acc_received _ Hc)]]).
  - cbn. rewrite (acc_count _ Hc). f_equal. lia.
  - cbn. rewrite (acc_sent _ Hc), u64_add_l. destruct (Z.gtb_spec sent (ac_BytesSent a)); [done|]. f_equal. lia.
  - cbn. rewrite (acc_received _ Hc), u64_add_l.
    destruct (Z.gtb_spec received (ac_BytesReceived a)); [done|]. f_equal. lia.
Qed.

Lemma accounted_track_connection v key pid fd src dst ts d c :
  accounted c -> accounted (track_connection v key pid fd src dst ts d c).
Proof.
  intros Hc. set (c' := track_connection _ _ _ _ _ _ _ _ _).
  assert (map book (heap c') = map book (heap c) ++ [(key, (0, 0))]) as Hh.
  { subst c'. unfold track_connection. cbn -[insert lookup alter app].
    destruct (connectionsByPidFd c !! _); cbn -[insert lookup alter app]; rewrite ?map_book_alter by done;
      by rewrite map_app. }
  assert (forall k, stats_of k c' = stats_of k (bump_stats key (fun s =>
    MkConnectionStats (u64 (Count s + 1)) (s64 (TotalTime s + d)) (Retransmissions s) (cs_BytesSent s)
      (cs_BytesReceived s)) c)) as Hs.
  { subst c'. intros k. unfold track_connection, stats_of. cbn -[insert lookup alter app].
    by destruct (connectionsByPidFd c !! _). }
  split; intros k; rewrite Hs, Hh, total_app, stats_of_bump; cbn [total fst snd];
    destruct (decide (key = k)); rewrite ?Z.add_0_r; cbn [Count cs_BytesSent cs_BytesReceived];
    rewrite ?(acc_count _ Hc), ?(acc_sent _ Hc), ?(acc_received _ Hc), ?u64_add_l; done.
Qed.

Lemma heap_gc g order c : heap (gc g order c) = heap c.
Proof.
  unfold gc. cbv zeta. destruct (revalidateListens_listens g (actualListens (scan_sockets g)) c) as [f ->].
  by destruct (foldl _ _ _) as [[active byPidFd] dsts].
Qed.

Lemma handle_request_book v l conn t r c c' :
  handle_request v l conn t r c = Val c' -> map book (heap c') = map book (heap c).
Proof.
  assert (forall key reqs c, heap (foldl (onHttp2Request v key t) c reqs) = heap c) as Hh.
  { intros key reqs. induction reqs as [|q reqs IH]; intros c0; [done|]. cbn [foldl]. rewrite IH.
    destruct q. unfold onHttp2Request. by case_match. }
  unfold handle_request. cbv zeta. repeat (case_match; try discriminate); intros [= <-];
    rewrite ?Hh; cbn [heap emit set_heap observe set_l7]; rewrite ?map_book_alter by done; done.
Qed.

(** The counters a step brings for a connection are not below those it had, and a
    collection forgets no destination. *)
Definition fresh (o : op) c : Prop :=
  match o with
  | ConnectionClose v e => forall l a t, connectionsByPidFd c !! MkPidFd (Pid e) (Fd e) = Some l ->
      heap c !! l = Some a -> ac_Timestamp a = 0 \/ ac_Timestamp a = Timestamp e -> Closed a = None ->
      Traffic e = Some t -> up_to_date c l (BytesSent t) (BytesReceived t)
  | TrafficUpdate pid fd sent received => forall l,
      connectionsByPidFd c !! MkPidFd pid fd = Some l -> up_to_date c l sent received
  | GC g order => connectionStats (gc g order c) = connectionStats c
  | _ => True
  end.

Fixpoint run_fresh (ops : list op) c : Prop :=
  match ops with
  | [] => True
  | o :: ops => fresh o c /\ match apply_op o c with Panic => True | Val c => run_fresh ops c end
  end.

Lemma accounted_onConnectionOpen v pid fd src dst actual ts failed d f c :
  accounted c -> accounted (onConnectionOpen v pid fd src dst actual ts failed d f c).1.
Proof.
  intros Hc. unfold onConnectionOpen. case_match; [done|]. case_match; [|done]. case_match; [done|].
  cbv zeta. set (act := if addr_port actual =? 0 then _ else _). clearbody act. case_match; [done|].
  destruct (ShouldBeSkipped _ _ _) as [[] f']; [done|]. cbn [fst].
  destruct failed; [by eapply accounted_same, Hc|].
  by eapply accounted_same, (accounted_track_connection v).
Qed.

Lemma accounted_onConnectionClose v e c :
  accounted c -> fresh (ConnectionClose v e) c -> accounted (onConnectionClose v e c).
Proof.
  intros Hc Hf. cbn [fresh] in Hf. unfold onConnectionClose.
  destruct (connectionsByPidFd c !! _) as [l|]; [|done]. destruct (heap c !! l) as [conn|] eqn:El; [|done].
  destruct (_ && _) eqn:Et; [done|]. destruct (Closed conn) eqn:Ecl; [done|].
  assert (ac_Timestamp conn = 0 \/ ac_Timestamp conn = Timestamp e) as Hts.
  { apply andb_false_iff in Et as [Et|Et]; apply negb_false_iff, Z.eqb_eq in Et; auto. }
  assert (forall c0, accounted c0 -> accounted (set_heap (alter (ac_set_Closed (Some (Now v 0))) l) c0)) as Hcl.
  { intros c0. apply accounted_same; [done|]. cbn [heap set_heap]. by rewrite map_book_alter. }
  apply Hcl. destruct (Traffic e) as [t|] eqn:Ett; [|done].
  by apply accounted_traffic, (Hf l conn t).
Qed.

Lemma accounted_onRetransmission src dst c : accounted c -> accounted (onRetransmission src dst c).1.
Proof.
  intros Hc. unfold onRetransmission. destruct (activeConnections c !! _) as [l|]; [|done].
  destruct (heap c !! l) as [conn|]; [|done]. cbn [fst].
  split; intros key; rewrite stats_of_bump; cbn [heap bump_stats set_stats]; case_match; cbn;
    first [apply (acc_count _ Hc)|apply (acc_sent _ Hc)|apply (acc_received _ Hc)].
Qed.

Lemma accounted_onL7Request v pid fd ts r c c' m :
  accounted c -> onL7Request v pid fd ts r c = Val (c', m) -> accounted c'.
Proof.
  intros Hc. unfold onL7Request, onDNSRequest. cbv zeta. case_match.
  { destruct (ParsersLib.ParseDns _) as [[t q] ips]. repeat case_match; intros [= <- <-]; try done;
      by eapply accounted_same, Hc. }
  destruct (connectionsByPidFd c !! _) as [l|]; [|by intros [= <- <-]].
  destruct (heap c !! l) as [conn|]; [|by intros [= <- <-]]. case_match; [by intros [= <- <-]|].
  destruct (handle_request _ _ _ _ _ _) as [|c1] eqn:E; [done|]. intros [= -> <-].
  eapply accounted_same, Hc; [by apply handle_request_series in E as (_ & -> & _)|].
  by rewrite (handle_request_book _ _ _ _ _ _ _ E).
Qed.

Ltac same_books := eapply accounted_same; [..|eassumption]; repeat case_match; done.

Lemma accounted_apply o c c' : accounted c -> fresh o c -> apply_op o c = Val c' -> accounted c'.
Proof.
  intros Hc Hf E. destruct o; cbn [apply_op fresh] in E, Hf; try (injection E as <-).
  - unfold onProcessStart. same_books.
  - unfold onProcessExit. eapply accounted_same; [..|exact Hc]; by destruct oomKill, (decide _).
  - unfold onListenOpen. same_books.
  - by eapply accounted_same, Hc.
  - by apply accounted_onConnectionOpen.
  - by apply accounted_onConnectionClose.
  - unfold updateTrafficStats. destruct (connectionsByPidFd c !! _) as [l|] eqn:El; [|done].
    by apply accounted_traffic, Hf.
  - by apply accounted_onRetransmission.
  - unfold updateNodejsStats. same_books.
  - unfold updatePythonStats. same_books.
  - by eapply accounted_same, Hc.
  - destruct (onL7Request v pid fd timestamp r c) as [|[c1 m]] eqn:E1; [done|]. injection E as <-.
    by eapply accounted_onL7Request.
  - eapply accounted_same, Hc; [done|]. by rewrite heap_gc.
Qed.


(** ** What a collection leaves *)

(** Nothing is connected to the destination, which was tried, but not lately. *)
(** *** The sockets of a container *)

Lemma add_sockets_established xs s k :
  k ∈ established (foldl add_socket s xs) <->
  k ∈ established s \/ exists x, x ∈ xs /\ Listen x = false /\ k = MkConnectionKey (SAddr x) (DAddr x).
Proof.
  revert s. induction xs as [|x xs IH]; intros s; cbn [foldl].
  - split; [by left|]. intros [?|(x & ?%elem_of_nil & _)]; done.
  - rewrite IH. unfold add_socket. setoid_rewrite elem_of_cons. destruct (Listen x) eqn:E; cbn [established].
    + split; [intros [?|(y & ? & ?)]; [by left|right; eauto]|].
      intros [?|(y & [->|?] & ? & ?)]; [by left|congruence|right; eauto].
    + rewrite elem_of_union, elem_of_singleton. split.
      * intros [[->|?]|(y & ? & ?)]; [right; eauto|by left|right; eauto].
      * intros [?|(y & [->|?] & ? & ->)]; [by left; right|by left; left|right; eauto].
Qed.

Lemma add_sockets_seen xs s : seenNamespaces (foldl add_socket s xs) = seenNamespaces s.
Proof. revert s. induction xs as [|x xs IH]; intros s; [done|]. cbn [foldl]. rewrite IH. unfold add_socket. by case_match. Qed.

(** The connection is that of a socket which is not listening in the table of a process, the
    first of the processes that report its network namespace whose table can be read. *)
Definition in_tables (g : genv) (k : ConnectionKey) : Prop :=
  exists pre pid post xs x, g_pids g = pre ++ pid :: post /\ GetSockets g pid = Some xs /\
    (forall q, q ∈ pre -> NetNsId g q = NetNsId g pid -> GetSockets g q = None) /\
    x ∈ xs /\ Listen x = false /\ k = MkConnectionKey (SAddr x) (DAddr x).

(** What the loop over the processes [pids] finds. *)
Definition scan_found (g : genv) (pids : list Z) (s : sockets) : Prop :=
  (forall n, n ∈ seenNamespaces s <-> exists q, q ∈ pids /\ NetNsId g q = n /\ is_Some (GetSockets g q)) /\
  (forall k, k ∈ established s <->
     exists pre pid post xs x, pids = pre ++ pid :: post /\ GetSockets g pid = Some xs /\
       (forall q, q ∈ pre -> NetNsId g q = NetNsId g pid -> GetSockets g q = None) /\
       x ∈ xs /\ Listen x = false /\ k = MkConnectionKey (SAddr x) (DAddr x)).

Lemma snoc_split {A} (l : list A) x pre y post :
  l ++ [x] = pre ++ y :: post <-> (l = pre /\ x = y /\ post = []) \/ exists post', post = post' ++ [x] /\ l = pre ++ y :: post'.
Proof.
  split.
  - destruct post as [|z post _] using rev_ind; intros E; [left; by apply app_inj_tail in E as [-> ->]|right].
    rewrite app_comm_cons, app_assoc in E. apply app_inj_tail in E as [-> ->]. by exists post.
  - intros [(-> & -> & ->)|(post' & -> & ->)]; [done|]. by rewrite app_comm_cons, app_assoc.
Qed.

Lemma scan_process_found g pids s pid : scan_found g pids s -> scan_found g (pids ++ [pid]) (scan_process g s pid).
Proof.
  intros [Hn He]. unfold scan_process.
  assert (forall s', seenNamespaces s' = seenNamespaces s -> established s' = established s ->
    (forall xs, GetSockets g pid = Some xs -> NetNsId g pid ∈ seenNamespaces s) -> scan_found g (pids ++ [pid]) s') as Hsame.
  { intros s' E1 E2 Hin. split.
    - intros n. rewrite E1, Hn. split; intros (q & Hq & Hx); [exists q; split; [apply elem_of_app; by left|done]|].
      apply elem_of_app in Hq as [Hq| ->%list_elem_of_singleton]; [by exists q|].
      destruct Hx as [<- [xs Hxs]]. apply Hn. by eapply Hin.
    - intros k. rewrite E2, He. split; intros (pre & p & post & xs & x & E & Hg & Hpre & Hx).
      + exists pre, p, (post ++ [pid]), xs, x. split; [by rewrite E, <-app_assoc|]. by split.
      + apply snoc_split in E as [(-> & <- & ->)|(post' & -> & ->)]; [|by exists pre, p, post', xs, x].
        apply Hin, Hn in Hg as Hs. destruct Hs as (q & Hq & En & [ys Hys]). by rewrite (Hpre q Hq En) in Hys. }
  destruct (decide (NetNsId g pid ∈ seenNamespaces s)) as [Hin|Hout]; [by apply Hsame|].
  destruct (GetSockets g pid) as [xs|] eqn:Eg; [|by apply Hsame]. clear Hsame.
  split; cbn [established seenNamespaces].
  - intros n. rewrite elem_of_union, elem_of_singleton, add_sockets_seen, Hn. setoid_rewrite elem_of_app.
    setoid_rewrite list_elem_of_singleton. split.
    + intros [->|(q & Hq & Hx)]; [exists pid; rewrite Eg; eauto|exists q; eauto].
    + intros (q & [Hq| ->] & <- & Hx); [right; by exists q|by left].
  - intros k. rewrite add_sockets_established, He. split.
    + intros [(pre & p & post & ys & y & -> & Hx)|(y & Hy)].
      * exists pre, p, (post ++ [pid]), ys, y. split; [by rewrite <-app_assoc|done].
      * exists pids, pid, [], xs, y. split; [done|]. split; [done|]. split; [|done]. intros q Hq En.
        destruct (GetSockets g q) eqn:Eq; [|done]. destruct Hout. apply Hn. exists q. by rewrite Eq.
    + intros (pre & p & post & ys & y & E & Hx). apply snoc_split in E as [(-> & <- & ->)|(post' & -> & ->)].
      * right. destruct Hx as (Ey & _ & Hy). rewrite Eg in Ey. injection Ey as <-. by exists y.
      * left. by exists pre, p, post', ys, y.
Qed.

Lemma scan_in_tables g k : k ∈ established (scan_sockets g) <-> in_tables g k.
Proof.
  assert (scan_found g (g_pids g) (scan_sockets g)) as [_ Hf]; [|apply Hf]. unfold scan_sockets.
  induction (g_pids g) as [|pid l IH] using rev_ind; [|rewrite foldl_app; cbn [foldl]; by apply scan_process_found].
  split; cbn; intros x; (split; [by intros ?%elem_of_empty|]); [by intros (? & ?%elem_of_nil & _)|].
  by intros (pre & p & post & xs & y & E & _); destruct pre.
Qed.

(** Nothing in the tables is connected to the destination, and it was last tried more than ten
    minutes ago. *)
Definition forgotten (g : genv) c (d : HostPort) : Prop :=
  ~ (exists k l a, activeConnections c !! k = Some l /\ in_tables g k /\ heap c !! l = Some a /\
       destination (DestinationKey_ a) = d) /\
  exists t, lastConnectionAttempts c !! d = Some t /\ t + 10 * 60 * 1000000000 < g_now g.

Lemma forgotten_iff g c d :
  forgotten g c d <-> ~ connected g c d /\ exists t, lastConnectionAttempts c !! d = Some t /\ g_now g - t > gcInterval.
Proof.
  unfold forgotten, connected, gcInterval. setoid_rewrite scan_in_tables. do 2 f_equiv. intros t. f_equiv. lia.
Qed.

Lemma filter_kept {K A} `{Countable K} (f : K -> HostPort) (gone : gset HostPort) (m : gmap K A) k :
  f k ∉ gone -> filter (fun kx => bool_decide (f kx.1 ∉ gone)) m !! k = m !! k.
Proof.
  intros Hk. destruct (m !! k) as [x|] eqn:E.
  - apply map_lookup_filter_Some. split; [done|]. cbn. by rewrite bool_decide_true.
  - apply map_lookup_filter_None. by left.
Qed.

Lemma filter_gone {K A} `{Countable K} (f : K -> HostPort) (gone : gset HostPort) (m : gmap K A) k :
  f k ∈ gone -> filter (fun kx => bool_decide (f kx.1 ∉ gone)) m !! k = None.
Proof.
  intros Hk. apply map_lookup_filter_None. right. intros x _. cbn. rewrite bool_decide_false; [by intros []|]. intros Hn. by apply Hn.
Qed.

(** The connections a collection leaves. *)
Lemma gc_active_iff g order c k l a :
  ok c -> order (activeConnections c) ≡ₚ map_to_list (activeConnections c) -> heap c !! l = Some a ->
  activeConnections (gc g order c) !! k = Some l <->
  activeConnections c !! k = Some l /\ k ∈ established (scan_sockets g) /\
    (forall t, Closed a = Some t -> g_now g - t <= gcInterval).
Proof.
  intros Hok Hperm Hla. rewrite (gc_active _ _ _ (gc_collected g order c Hok Hperm)).
  destruct (activeConnections c !! k) as [l'|]; [|by split; [|intros []]].
  unfold stale. cbn [fst snd].
  destruct (decide (l' = l)) as [->|Hne]; cycle 1.
  { split; [|by intros [[= ->] _]]. by destruct (heap c !! l'); repeat case_match; intros [= ->]. }
  rewrite Hla. case_bool_decide as He; cbn [orb]; [by split; [|intros (_ & ? & _)]|].
  destruct (Closed a) as [t|]; [|by split].
  destruct (Z.gtb_spec (g_now g - t) gcInterval) as [Ht|Ht].
  - split; [done|]. intros (_ & _ & Hle). specialize (Hle t eq_refl). lia.
  - split; [|done]. intros _. split_and!; try done. by intros t' [= <-].
Qed.

(** C31: After a collection, in whatever order it visits the connections: those left are
    those that were there, that a table of sockets has, and that were not closed more than ten
    minutes ago.  (Of the processes that report the same network namespace the first whose
    table can be read is read; connections of processes that are left out so are dropped
    as if they were not established.)  A descriptor maps to no connection the collection
    dropped; and the failed attempts, the traffic and the requests of a destination are
    forgotten exactly when no connection of the tables leads to it and it was last tried more
    than ten minutes ago. *)
Theorem gc_collects g order c :
  ok c -> order (activeConnections c) ≡ₚ map_to_list (activeConnections c) ->
  let c' := gc g order c in
  (forall k l a, heap c !! l = Some a ->
     activeConnections c' !! k = Some l <->
     activeConnections c !! k = Some l /\ in_tables g k /\
       (forall t, Closed a = Some t -> g_now g <= t + 10 * 60 * 1000000000)) /\
  (forall k l, activeConnections c !! k = Some l -> activeConnections c' !! k = None ->
     forall p, connectionsByPidFd c' !! p <> Some l) /\
  (forall d, ~ forgotten g c d ->
     lastConnectionAttempts c' !! d = lastConnectionAttempts c !! d /\
     failedConnectionAttempts c' !! d = failedConnectionAttempts c !! d /\
     forall key, destination key = d -> connectionStats c' !! key = connectionStats c !! key /\
       forall p, l7Stats c' !! (p, key) = l7Stats c !! (p, key)) /\
  (forall d, forgotten g c d ->
     lastConnectionAttempts c' !! d = None /\ failedConnectionAttempts c' !! d = None /\
     forall key, destination key = d -> connectionStats c' !! key = None /\
       forall p, l7Stats c' !! (p, key) = None).
Proof.
  intros Hok Hperm c'. destruct (gc_collected g order c Hok Hperm) as [Hh Ha Hp (gone & Hg & Hf & Hl & Hs & Hl7)].
  fold c' in Hh, Ha, Hp, Hf, Hl, Hs, Hl7. split_and!.
  - intros k l a Hla. unfold c'. rewrite (gc_active_iff g order c k l a Hok Hperm Hla), scan_in_tables. do 2 f_equiv.
    split; intros Ht t Et; specialize (Ht t Et); unfold gcInterval in *; lia.
  - intros k l Hk Hn p [_ Hst]%Hp. rewrite Ha, Hk, (Hst k Hk) in Hn. done.
  - intros d Hd. assert (d ∉ gone) as Hng by (by intros ?%Hg%forgotten_iff).
    rewrite Hl, Hf, Hs, Hl7. split; [by apply (filter_kept (fun x => x))|].
    split; [by apply (filter_kept (fun x => x))|]. intros key <-.
    split; [by apply (filter_kept destination)|]. intros p. by apply (filter_kept (fun k => destination k.2)).
  - intros d Hd. assert (d ∈ gone) as Hin by by apply Hg, forgotten_iff.
    rewrite Hl, Hf, Hs, Hl7. split; [by apply (filter_gone (fun x => x))|].
    split; [by apply (filter_gone (fun x => x))|]. intros key <-.
    split; [by apply (filter_gone destination)|]. intros p. by apply (filter_gone (fun k => destination k.2)).
Qed.

(** A connection whose addresses were taken over by a later one before it was
    collected is never collected: while its descriptor is not opened again, it stays
    in connectionsByPidFd through any number of collections, whatever they find. *)
Theorem replaced_connection_kept gcs c c' p l :
  ok c -> connectionsByPidFd c !! p = Some l -> (forall k, activeConnections c !! k <> Some l) ->
  Forall (fun o => op_ok o /\ exists g order, o = GC g order) gcs -> run gcs c = Val c' ->
  connectionsByPidFd c' !! p = Some l.
Proof.
  intros Hok Hp Hk Hgcs. revert c Hok Hp Hk. induction Hgcs as [|o gcs [Ho (g & order & ->)] _ IH]; intros c Hok Hp Hk E.
  - by injection E as <-.
  - cbn [run apply_op] in E. cbn [op_ok] in Ho. pose proof (gc_collected g order c Hok (Ho _)) as Hc.
    apply (IH (gc g order c)); [by eapply ok_collected| | |done].
    + apply (gc_pidfd _ _ _ Hc). split; [done|]. by intros k ?%Hk.
    + intros k. rewrite (gc_active _ _ _ Hc). specialize (Hk k).
      destruct (activeConnections c !! k); [|done]. by destruct (stale _ _ _ _).
Qed.

End spec.

(** ** A concrete container *)

(** Readers that take bytes from the front of the payload. *)
#[local] Instance plain_ch : ChProto := {|
  ch_reader := bytes;
  NewReader b := b;
  ReadByte r := match r with [] => None | _ :: r => Some r end;
  ReadStr r := match r with [] => None | n :: r => Some (drop (Z.to_nat n) r) end;
  ClientInfo_DecodeAware r _ := Some (0, r);
  Setting_Decode r := match r with [] => None | n :: r => Some (take (Z.to_nat n) r, drop (Z.to_nat n) r) end;
  UVarInt r := match r with [] => None | n :: r => Some (n, r) end;
  StrLen r := match r with [] => None | n :: r => Some (n, r) end;
  ReadN r n := take (Z.to_nat n) r;
  FeatureServerQueryTimeInProgress := 54460
|}.

#[local] Instance plain_ch_laws : ChProtoLaws plain_ch.
Proof.
  refine {| remaining := (length : @ch_reader plain_ch -> nat) |}; cbn.
  - done.
  - intros [|n r] r' [= <-]. cbn. lia.
  - intros [|n r] r' [= <-]. rewrite length_drop. cbn. lia.
  - by intros r v n r' [= <- <-].
  - intros [|n r] k r' [= <- <-]. rewrite length_drop. cbn. lia.
Defined.

Definition plain_libs : Libs := {|
  libs_netaddr := StdNetaddr.std; libs_hpack := Http2Parser.plain_hpack;
  libs_dns := {| Unpack _ := None |}; libs_ch := plain_ch; bson_String b := b
|}.
#[local] Existing Instance plain_libs.

Definition demo_env (t : Z) : cenv :=
  CEnv (fun _ => t) None [] (fun _ => true) (fun _ _ => None) (fun _ => None) (fun _ => None) map_to_list
    (Tracing.MkTracer true (QArith_base.inject_Z 1) (fun _ => QArith_base.inject_Z 0)).
Definition demo_addr (d port : Z) : IPPort := IPPortFrom (StdNetaddr.v4 [10; 0; 0; d] : IP) port.
Definition demo_key : DestinationKey := NewDestinationKey (demo_addr 9 80) (demo_addr 9 80) None.

Definition demo_open (t fd port : Z) : op :=
  ConnectionOpen (demo_env t) 7 fd (demo_addr 1 port) (demo_addr 9 80) (demo_addr 9 80) t false 10 ∅.
Definition demo_close (t fd opened sent received : Z) : op :=
  ConnectionClose (demo_env t) (MkEvent EventTypeConnectionClose 0 7 (demo_addr 1 0) (demo_addr 9 80)
    (demo_addr 9 80) fd opened 0 None (Some (MkTrafficStats sent received)) 0 false).
Definition demo_http : RequestData := MkRequestData ProtocolHTTP 200 5 0 0 (str "GET /a HTTP/1.1").
Definition demo_gc (t : Z) (est : list socket) : op :=
  GC (GEnv t (demo_env t) [7] (fun _ => []) (fun _ => Some est) (fun _ => None)) map_to_list.

(** Two connections, the second of which takes over the descriptor. *)
Definition demo_ops : list op :=
  [ProcessStart 7 (Some 5) false; demo_open 100 3 4000; TrafficUpdate 7 3 10 20;
   L7Request (demo_env 110) 7 3 100 demo_http; demo_close 120 3 100 15 20;
   demo_open 130 3 4001; TrafficUpdate 7 3 7 0;
   demo_gc 140 [Socket (demo_addr 1 4001) (demo_addr 9 80) false []]].

Definition demo_container (ops : list op) : st := match run ops init with Val c => c | Panic => init end.

Definition is_val {A} (r : go A) : bool := match r with Val _ => true | Panic => false end.

Lemma demo_runs : run demo_ops init = Val (demo_container demo_ops).
Proof.
  assert (is_val (run demo_ops init) = true) as E by by vm_compute.
  unfold demo_container. by destruct (run demo_ops init).
Qed.

Lemma demo_ops_ok : Forall op_ok demo_ops.
Proof. repeat (apply Forall_cons_2; [first [exact I|by intros m]|]). constructor. Qed.

Lemma demo_ok n : ok (demo_container (take n demo_ops)).
Proof.
  unfold demo_container. destruct (run (take n demo_ops) init) as [|c] eqn:E; [apply table_ok_init|].
  eapply (ok_run _ _ _ table_ok_init), E. apply Forall_take, demo_ops_ok.
Qed.

Lemma container_table_ok_witness : ok (demo_container demo_ops) /\ length (heap (demo_container demo_ops)) = 2%nat.
Proof.
  split; [|by vm_compute]. eapply container_table_ok, demo_runs. apply demo_ops_ok.
Defined.

Lemma go_case {A} (r : go A) (d : A) (P : A -> Prop) :
  P (match r with Val x => x | Panic => d end) -> match r with Panic => True | Val x => P x end.
Proof. by destruct r. Qed.

#[local] Instance ConnectionStats_eq_dec : EqDecision ConnectionStats.
Proof. solve_decision. Defined.

Lemma demo_up_to_date c l sent received s0 r0 :
  snd ∘ book <$> heap c !! l = Some (s0, r0) -> s0 <= sent -> r0 <= received -> up_to_date c l sent received.
Proof. intros E Hs Hr a Ea. rewrite Ea in E. by injection E as -> ->. Qed.



Lemma gc_collects_witness :
  let c := demo_container (take 7 demo_ops) in
  let g := GEnv 140 (demo_env 140) [7] (fun _ => []) (fun _ => Some []) (fun _ => None) in
  activeConnections c !! MkConnectionKey (demo_addr 1 4001) (demo_addr 9 80) = Some 1%nat /\
  (forall p, connectionsByPidFd (gc g map_to_list c) !! p <> Some 1%nat).
Proof.
  intros c g. split; [by vm_compute|].
  destruct (@gc_collects plain_libs g map_to_list c (demo_ok 7)) as (_ & Hp & _); [done|].
  apply (Hp (MkConnectionKey (demo_addr 1 4001) (demo_addr 9 80))); by vm_compute.
Defined.

(** The descriptor 3 is closed and its addresses used again by the descriptor 5. *)
Definition leak_ops : list op :=
  [ProcessStart 7 (Some 5) false; demo_open 100 3 4000; demo_close 120 3 100 15 20; demo_open 130 5 4000].

Lemma replaced_connection_kept_witness :
  let c := demo_container leak_ops in
  let years := 100 * 365 * 24 * 3600 * 1000000000 in
  match run [demo_gc 1000000000000 []; demo_gc years []] c with
  | Panic => False
  | Val c' => connectionsByPidFd c' !! MkPidFd 7 3 = Some 0%nat
  end.
Proof.
  intros c years. assert (is_val (run [demo_gc 1000000000000 []; demo_gc years []] c) = true) as E by by vm_compute.
  destruct (run _ c) as [|c'] eqn:Ec; [done|]. refine (replaced_connection_kept _ _ _ _ _ _ _ _ _ Ec).
  - assert (is_val (run leak_ops init) = true) as Ev by by vm_compute. subst c. unfold demo_container.
    destruct (run leak_ops init) eqn:El; [done|]. eapply (ok_run _ _ _ table_ok_init), El.
    repeat (apply Forall_cons_2; [exact I|]). constructor.
  - by vm_compute.
  - intros k Hk. assert (bool_decide (map_Forall (fun _ l => l <> 0%nat) (activeConnections c)) = true) as Hn by by vm_compute.
    apply bool_decide_eq_true in Hn. by apply (Hn k 0%nat Hk).
  - repeat (apply Forall_cons_2; [split; [by intros m|do 2 eexists; reflexivity]|]). constructor.
Defined.

End ContainerSpec.
