(* ===== verification/Registry.v ===== *)
(** * The registry

    containers/registry.go: which container a process belongs to, and the loop that
    hands the events of the tracer, the counters read from the maps of the kernel and
    the ticks of the collector to the containers.  Containers are shared between
    three maps of the registry, so they live in a heap and the maps hold locations. *)

From S2P Require Import Prelude GoLib GoText Attach Apps Cgroup Net Decode Parsers Http2Parser ParsersLib Tracing Container.

Module Registry.
Import GoText Cgroup Decode Container.
Section registry.
Context `{Libs} `{Asm}.

Definition IgnoredContainersCacheTTL : Z := 15000000000.
Definition cronjobPodScheduleWindow : Z := 7 * 24 * 3600000000000.

(** ** Container ids *)

Definition containerIdRegexp : list item := [Times lower_digit 64].
Definition cronjobPodName : list item :=
  group 1 [Plus (in_ranges [(97, 122); (48, 57); (45, 45)])] ++ [Lit (str "-")] ++
  group 2 [Times is_digit 8] ++ [Lit (str "-");
  Times (fun c => existsb (Z.eqb c) (str "bcdfghjklmnpqrstvwxz2456789")) 5].

(** ContainerMetadata: what the ids depend on. *)
Record ContainerMetadata := MkMetadata { md_name : bytes; labels : gmap bytes bytes; md_env : gmap bytes bytes }.
Definition metadata_zero : ContainerMetadata := MkMetadata [] ∅ ∅.

Definition slashed (l : list bytes) : bytes := concat (map (fun s => str "/" ++ s) l).

(** The id of a pod's container, which a cron job gives to all its pods. *)
Definition pod_id (now : Z) (namespace pod name : bytes) : bytes :=
  let plain := slashed [str "k8s"; namespace; pod; name] in
  let? g := FindStringSubmatch cronjobPodName pod else plain in
  let tsMinutes := default 0 (ParseUint 64 (g 2%nat)) in
  let scheduledAt := tsMinutes * 60 * 1000000000 in
  if (scheduledAt >? now - cronjobPodScheduleWindow) && (scheduledAt <? now + cronjobPodScheduleWindow)
  then slashed [str "k8s-cronjob"; namespace; g 1%nat; name]
  else plain.

(** The empty id is that of no container. *)
Definition calcId (now : Z) (cg : Cgroup) (md : ContainerMetadata) : bytes :=
  let label k := sub (str k) (labels md) in
  let var k := sub (str k) (md_env md) in
  let by_metadata :=
    if bytes_eqb (ContainerId cg) [] then []
    else if negb (bytes_eqb (label "io.kubernetes.pod.name") []) then
      let name := if decide (ContainerType_ cg = ContainerTypeSandbox) then str "sandbox"
                  else label "io.kubernetes.container.name" in
      if bytes_eqb name [] || bytes_eqb name (str "POD") then []
      else pod_id now (label "io.kubernetes.pod.namespace") (label "io.kubernetes.pod.name") name
    else
    match SplitN 3 (label "com.docker.swarm.task.name") 46 with
    | [_; replica; _] =>
        let namespace := label "com.docker.stack.namespace" in
        let service := label "com.docker.swarm.service.name" in
        let service := if negb (bytes_eqb namespace []) then TrimPrefix service (namespace ++ str "_") else service in
        let namespace := if bytes_eqb namespace [] then str "_" else namespace in
        slashed [str "swarm"; namespace; service; replica]
    | _ =>
        let allocId := var "NOMAD_ALLOC_ID" in
        let group := var "NOMAD_GROUP_NAME" in
        let job := var "NOMAD_JOB_NAME" in
        let namespace := var "NOMAD_NAMESPACE" in
        let task := var "NOMAD_TASK_NAME" in
        if forallb (fun s => negb (bytes_eqb s [])) [allocId; group; job; namespace; task]
        then slashed [str "nomad"; namespace; job; group; allocId; task]
        else if bytes_eqb (md_name md) [] then []
        else str "/docker/" ++ md_name md
    end in
  match ContainerType_ cg with
  | ContainerTypeSystemdService =>
      if HasPrefix (ContainerId cg) (str "/system.slice/crio-conmon-") then [] else ContainerId cg
  | ContainerTypeTalosRuntime => ContainerId cg
  | ContainerTypeDocker | ContainerTypeContainerd | ContainerTypeSandbox | ContainerTypeCrio => by_metadata
  | _ => []
  end.

(** ** State *)

Record container := MkContainer { c_id : bytes; c_cgroup : Cgroup; c_state : st }.

Record registry := MkRegistry {
  containers : list container;
  containersById : gmap bytes nat;
  containersByCgroupId : gmap bytes nat;
  containersByPid : gmap Z nat;
  containersByPidIgnored : gmap Z Z;
  ip2fqdn : gmap IP Domain;
  connection_filter : gmap bytes IPPrefix
}.

Definition NewRegistry (filter : gmap bytes IPPrefix) : registry := MkRegistry [] ∅ ∅ ∅ ∅ ∅ filter.

(** What the registry reads from outside while it handles one input. *)
Record renv := REnv {
  r_now : Z;
  r_cenv : cenv;
  baseCgroupPath : bytes;
  cgroup_file : Z -> option bytes;
  GetCmdline : Z -> bytes;
  CrioInspect : bytes -> option ContainerMetadata;
  DockerdInspect : option (bytes -> option ContainerMetadata);
  ContainerdInspect : option (bytes -> option ContainerMetadata);
  allowList : list (bytes -> bool); denyList : list (bytes -> bool);
  CreatedAt : Cgroup -> Z;
  GetNetNs : Z -> bool;
  Register_ : bytes -> bool;
  TaskstatsPID : Z -> option Z;
  TracesDisabled : Z -> bool;
  tls_of : Z -> Attach.tls_env;
  kernel_now : nat -> Attach.kernel;
  range_pids : gmap Z nat -> list (Z * nat);
  range_ids : gmap bytes nat -> list (bytes * nat)
}.

Definition set_containers f (r : registry) : registry :=
  MkRegistry (f (containers r)) (containersById r) (containersByCgroupId r) (containersByPid r)
    (containersByPidIgnored r) (ip2fqdn r) (connection_filter r).
Definition set_pids f (r : registry) : registry :=
  MkRegistry (containers r) (containersById r) (containersByCgroupId r) (f (containersByPid r))
    (containersByPidIgnored r) (ip2fqdn r) (connection_filter r).
Definition set_index f g h (r : registry) : registry :=
  MkRegistry (containers r) (f (containersById r)) (g (containersByCgroupId r)) (h (containersByPid r))
    (containersByPidIgnored r) (ip2fqdn r) (connection_filter r).
Definition set_ignored f (r : registry) : registry :=
  MkRegistry (containers r) (containersById r) (containersByCgroupId r) (containersByPid r)
    (f (containersByPidIgnored r)) (ip2fqdn r) (connection_filter r).
Definition set_domains f (r : registry) : registry :=
  MkRegistry (containers r) (containersById r) (containersByCgroupId r) (containersByPid r)
    (containersByPidIgnored r) (f (ip2fqdn r)) (connection_filter r).
Definition set_filter x (r : registry) : registry :=
  MkRegistry (containers r) (containersById r) (containersByCgroupId r) (containersByPid r)
    (containersByPidIgnored r) (ip2fqdn r) x.

(** A handler of the container at [l]. *)
Definition on_container (l : nat) (f : st -> st) (r : registry) : registry :=
  set_containers (alter (fun c => MkContainer (c_id c) (c_cgroup c) (f (c_state c))) l) r.

(** Containers look domains up in the registry. *)
Definition container_env (v : renv) (r : registry) : cenv :=
  let e := r_cenv v in
  CEnv (Now e) (PortFilter_ e) (HttpFilter_ e) (isHostNs e) (lookupCiliumConntrackTable e)
    (fun ip => ip2fqdn r !! ip) (getNsIps e) (range_statuses e) (tracer e).

(** ** Processes and containers *)

Definition ReadCgroup (v : renv) (pid : Z) : option Cgroup :=
  let? data := cgroup_file v pid else None in
  NewFromProcessCgroupFile (baseCgroupPath v) data.

Definition getContainerMetadata (v : renv) (cg : Cgroup) : option ContainerMetadata :=
  match ContainerType_ cg with
  | ContainerTypeDocker | ContainerTypeContainerd | ContainerTypeSandbox | ContainerTypeCrio =>
      if bytes_eqb (ContainerId cg) [] then Some metadata_zero
      else if decide (ContainerType_ cg = ContainerTypeCrio) then CrioInspect v (ContainerId cg)
      else
      match (let? f := DockerdInspect v else None in f (ContainerId cg)) with
      | Some md => Some md
      | None => let? f := ContainerdInspect v else None in f (ContainerId cg)
      end
  | _ => Some metadata_zero
  end.

Definition container_ShouldBeSkipped (v : renv) (id : bytes) : bool :=
  existsb (fun f => f id) (denyList v) ||
  negb (length (allowList v) =? 0)%nat && negb (existsb (fun f => f id) (allowList v)).

(** A gVisor sandbox names its container in its last argument. *)
Definition sandbox_id (v : renv) (pid : Z) (cg : Cgroup) : Cgroup :=
  if decide (ContainerType_ cg = ContainerTypeSandbox) then
    let parts := Split (GetCmdline v pid) 0 in
    match parts with
    | [] => cg
    | cmd :: _ =>
        let lastArg := List.last parts [] in
        if (HasSuffix cmd (str "runsc-sandbox") || HasSuffix cmd (str "runsc")) &&
           MatchString containerIdRegexp lastArg
        then MkCgroup (Id cg) (ContainerType_ cg) lastArg (subsystems cg)
        else cg
    end
  else cg.

(** A container that is known by its id, or a new one. *)
Definition find_or_new (v : renv) (pid : Z) (cg : Cgroup) (id : bytes) (r : registry) : option nat * registry :=
  match containersById r !! id with
  | Some l =>
      let r := match containers r !! l with
               | Some c => if CreatedAt v cg >? CreatedAt v (c_cgroup c)
                           then set_containers (alter (fun c => MkContainer (c_id c) cg (c_state c)) l) r else r
               | None => r
               end in
      (Some l, set_index (fun m => m) (insert (Id cg) l) (insert pid l) r)
  | None =>
      if negb (GetNetNs v pid) then (None, r)
      else if negb (Register_ v id) then (None, r)
      else
      let l := length (containers r) in
      let r := set_containers (fun cs => cs ++ [MkContainer id cg init]) r in
      (Some l, set_index (insert id l) (insert (Id cg) l) (insert pid l) r)
  end.

Definition getOrCreateContainer (v : renv) (pid : Z) (r : registry) : option nat * registry :=
  match containersByPid r !! pid with
  | Some l => (Some l, r)
  | None =>
      let ignored := match containersByPidIgnored r !! pid with
                     | Some t => r_now v - t <? IgnoredContainersCacheTTL
                     | None => false
                     end in
      if ignored then (None, r)
      else
      let r := set_ignored (delete pid) r in
      let? cg := ReadCgroup v pid else (None, r) in
      match containersByCgroupId r !! Id cg with
      | Some l => (Some l, set_pids (insert pid l) r)
      | None =>
          let cg := sandbox_id v pid cg in
          let? md := getContainerMetadata v cg else (None, r) in
          let id := calcId (r_now v) cg md in
          if bytes_eqb id [] then
            (None, if bytes_eqb (Id cg) (str "/init.scope") && negb (pid =? 1) then r
                   else set_ignored (insert pid (r_now v)) r)
          else if container_ShouldBeSkipped v id then (None, set_ignored (insert pid (r_now v)) r)
          else find_or_new v pid cg id r
      end
  end.

(** ** The events of the tracer *)

(** The process left its container. *)
Definition forget_process (v : renv) (pid : Z) (l : nat) (r : registry) : registry :=
  on_container l (onProcessExit (container_env v r) pid false) (set_pids (delete pid) r).

(** A pid that is still mapped when its process starts, because its exit was missed,
    is checked against the control group it is in now. *)
Definition revalidate (v : renv) (pid : Z) (r : registry) : registry :=
  let? l := containersByPid r !! pid else r in
  let? c := containers r !! l else r in
  match ReadCgroup v pid with
  | Some cg => if bytes_eqb (Id cg) (Id (c_cgroup c)) then r else forget_process v pid l r
  | None => forget_process v pid l r
  end.

Definition on_process_start (v : renv) (pid : Z) (r : registry) : registry :=
  let r := revalidate v pid r in
  let (o, r) := getOrCreateContainer v pid r in
  let? l := o else r in
  on_container l (onProcessStart pid (TaskstatsPID v pid) (TracesDisabled v pid)) r.

Definition on_process_exit (v : renv) (pid : Z) (oom : bool) (r : registry) : registry :=
  let r := match containersByPid r !! pid with
           | Some l => on_container l (onProcessExit (container_env v r) pid oom) r
           | None => r
           end in
  set_pids (delete pid) r.

Definition on_listen_open (v : renv) (pid : Z) (addr : IPPort) (r : registry) : registry :=
  let (o, r) := getOrCreateContainer v pid r in
  let? l := o else r in
  on_container l (onListenOpen (container_env v r) pid addr) r.

(** The filter of connections is shared by the containers. *)
Definition on_connection_open (v : renv) (e : Event) (timestamp : Z) (failed : bool) (r : registry) : registry :=
  let (o, r) := getOrCreateContainer v (Pid e) r in
  let? l := o else r in
  let? c := containers r !! l else r in
  let (c', filter) := onConnectionOpen (container_env v r) (Pid e) (Fd e) (SrcAddr e) (DstAddr e) (ActualDstAddr e)
                        timestamp failed (Duration e) (connection_filter r) (c_state c) in
  set_filter filter (on_container l (fun _ => c') r).

(** The first container that knows the connection counts the retransmission. *)
Fixpoint on_retransmission (src dst : IPPort) (ids : list (bytes * nat)) (r : registry) : registry :=
  match ids with
  | [] => r
  | (_, l) :: ids =>
      let? c := containers r !! l else on_retransmission src dst ids r in
      let (c', found) := onRetransmission src dst (c_state c) in
      if found : bool then on_container l (fun _ => c') r else on_retransmission src dst ids r
  end.

Definition on_l7_request (v : renv) (e : Event) (r : registry) : go registry :=
  let? q := L7Request_ e else Val r in
  let? l := containersByPid r !! Pid e else Val r in
  let? c := containers r !! l else Val r in
  match onL7Request (container_env v r) (Pid e) (Fd e) (Timestamp e) q (c_state c) with
  | Panic => Panic
  | Val (c', domains) => Val (set_domains (fun m => domains ∪ m) (on_container l (fun _ => c') r))
  end.

(** A handler of the container of a process that is known. *)
Definition on_pid (pid : Z) (f : st -> st) (r : registry) : registry :=
  let? l := containersByPid r !! pid else r in
  on_container l f r.

(** [attachTlsUprobes] and the instrumentation of the container of a process. *)
Definition on_probes (attach : Attach.Process -> Attach.io Attach.Process) (k : Attach.kernel) (pid : Z) (r : registry)
  : go registry :=
  let? l := containersByPid r !! pid else Val r in
  let? c := containers r !! l else Val r in
  match attach_probes attach pid k (c_state c) with
  | Panic => Panic
  | Val c' => Val (on_container l (fun _ => c') r)
  end.

(** The switch on [e.Type].  A container that is found or made for a pid is that of the
    pid.  What a file that is opened changes (mounts, log parsers) is not part of the
    state. *)
Definition handle_event (v : renv) (e : Event) (r : registry) : go registry :=
  let t := Type_ e in
  if t =? EventTypeProcessStart then Val (on_process_start v (Pid e) r)
  else if t =? EventTypeProcessExit then Val (on_process_exit v (Pid e) (Reason e =? EventReasonOOMKill) r)
  else if t =? EventTypeFileOpen then Val (getOrCreateContainer v (Pid e) r).2
  else if t =? EventTypeListenOpen then Val (on_listen_open v (Pid e) (SrcAddr e) r)
  else if t =? EventTypeListenClose then
    Val (on_pid (Pid e) (onListenClose (container_env v r) (Pid e) (SrcAddr e)) r)
  else if t =? EventTypeConnectionOpen then
    on_probes (Attach.attach_tls (tls_of v (Pid e))) (kernel_now v 0) (Pid e) (on_connection_open v e (Timestamp e) false r)
  else if t =? EventTypeConnectionError then Val (on_connection_open v e 0 true r)
  else if t =? EventTypeConnectionClose then Val (on_pid (Pid e) (onConnectionClose (container_env v r) e) r)
  else if t =? EventTypeTCPRetransmit then
    Val (on_retransmission (SrcAddr e) (DstAddr e) (range_ids v (containersById r)) r)
  else if t =? EventTypeL7Request then on_l7_request v e r
  else Val r.

(** ** The collector *)

Definition gc_pid (v : renv) (r : registry) (pl : Z * nat) : registry :=
  let (pid, l) := pl in
  let? c := containers r !! l else r in
  match ReadCgroup v pid with
  | None => forget_process v pid l r
  | Some cg => if bytes_eqb (Id cg) (Id (c_cgroup c)) then r else forget_process v pid l r
  end.

(** The addresses tried lately, and the registry without a dead container. *)
Definition gc_container (now : Z) (acc : registry * gset IP) (il : bytes * nat) : registry * gset IP :=
  let '(r, active) := acc in
  let (id, l) := il in
  let? c := containers r !! l else acc in
  let active := set_map hp_ip (dom (lastConnectionAttempts (c_state c))) ∪ active in
  if Dead now (c_state c) then
    (set_index (delete id) (filter (fun kl => kl.2 <> l)) (filter (fun kl => kl.2 <> l)) r, active)
  else (r, active).

Definition tick (v : renv) (now : Z) (r : registry) : registry :=
  let r := foldl (gc_pid v) r (range_pids v (containersByPid r)) in
  let r := set_ignored (fun _ => ∅) r in
  let '(r, active) := foldl (gc_container now) (r, ∅) (range_ids v (containersById r)) in
  set_domains (filter (fun kd => kd.1 ∈ active)) r.

(** ** The loop *)

(** What the loop selects: a tick, the counters of the maps of the kernel, an event;
    a collection by the goroutine of a container; and what the goroutine of a process
    reads to instrument it. *)
Inductive input :=
  | Tick (now : Z)
  | TrafficStatsUpdate (pid fd sent received : Z)
  | NodejsStatsUpdate (pid blocked : Z)
  | PythonStatsUpdate (pid wait : Z)
  | TracerEvent (e : Event)
  | Instrument (pid : Z) (reads : list (option bytes * bytes)) (python_libs nodejs_libs : list (option Attach.ELFFile))
  | ContainerGC (l : nat) (g : genv) (order : gmap ConnectionKey nat -> list (ConnectionKey * nat)).

Definition handle (v : renv) (i : input) (r : registry) : go registry :=
  match i with
  | Tick now => Val (tick v now r)
  | TrafficStatsUpdate pid fd sent received => Val (on_pid pid (updateTrafficStats pid fd sent received) r)
  | NodejsStatsUpdate pid blocked => Val (on_pid pid (updateNodejsStats pid blocked) r)
  | PythonStatsUpdate pid wait => Val (on_pid pid (updatePythonStats pid wait) r)
  | TracerEvent e => handle_event v e r
  | Instrument pid reads python_libs nodejs_libs =>
      match Apps.instrument reads with
      | Panic => Panic
      | Val (python, nodejs) =>
          match on_probes (Attach.instrumentPython python python_libs) (kernel_now v 0) pid r with
          | Panic => Panic
          | Val r => on_probes (Attach.instrumentNodejs nodejs nodejs_libs) (kernel_now v 1) pid
                       (on_pid pid (instrumented pid python nodejs) r)
          end
      end
  | ContainerGC l g order => Val (on_container l (gc g order) r)
  end.

Fixpoint handleEvents (inputs : list (renv * input)) (r : registry) : go registry :=
  match inputs with
  | [] => Val r
  | (v, i) :: inputs => match handle v i r with Panic => Panic | Val r => handleEvents inputs r end
  end.

End registry.
End Registry.
