(* ===== verification/RegistrySpec.v ===== *)
(** * Properties of the registry

    An invariant of the maps of the registry and of its containers that every input
    preserves, and what a tick of the collector leaves. *)

From S2P Require Import Prelude GoLib GoText Attach Apps Cgroup Net Decode Parsers Http2Parser ParsersLib Tracing Container.
From S2P Require Import ContainerSpec Registry.

Module RegistrySpec.
Import GoText Cgroup Decode Container Registry.
Section spec.
Context `{Libs} `{Asm}.

Implicit Types r : registry.

(** ** The invariant *)

Definition live r (l : nat) : Prop := exists id, containersById r !! id = Some l.

(** Each id maps to the container of that id; control groups and pids map to
    containers that have an id; a process of a container is mapped to it; a zombie has
    no processes; and the connection table of every container is consistent. *)
Record registry_ok r : Prop := {
  ro_id id l : containersById r !! id = Some l -> exists c, containers r !! l = Some c /\ c_id c = id;
  ro_cgroup k l : containersByCgroupId r !! k = Some l -> live r l;
  ro_pid pid l : containersByPid r !! pid = Some l -> live r l;
  ro_process l c pid : containers r !! l = Some c -> is_Some (processes (c_state c) !! pid) ->
    containersByPid r !! pid = Some l;
  ro_zombie l c : containers r !! l = Some c -> zombieAt (c_state c) <> None -> processes (c_state c) = ∅;
  ro_table l c : containers r !! l = Some c -> ContainerSpec.ok (c_state c)
}.

Lemma registry_ok_init f : registry_ok (NewRegistry f).
Proof. split; cbn; intros *; rewrite ?lookup_empty, ?lookup_nil; done. Qed.

(** What a state of the container at [l] has to satisfy. *)
Record fits r (l : nat) (s : st) : Prop := {
  fit_process pid : is_Some (processes s !! pid) -> containersByPid r !! pid = Some l;
  fit_zombie : zombieAt s <> None -> processes s = ∅;
  fit_table : ContainerSpec.ok s
}.

Lemma ok_fits r l c : registry_ok r -> containers r !! l = Some c -> fits r l (c_state c).
Proof. intros Hr Hc. split; [intros pid; by apply (ro_process _ Hr)|by apply (ro_zombie _ Hr l)|by apply (ro_table _ Hr l)]. Qed.

Lemma ok_set_containers f l r :
  registry_ok r ->
  (forall c, containers r !! l = Some c -> c_id (f c) = c_id c /\ fits r l (c_state (f c))) ->
  registry_ok (set_containers (alter f l) r).
Proof.
  intros Hr Hf.
  assert (forall j c, alter f l (containers r) !! j = Some c -> exists c0, containers r !! j = Some c0 /\
    c_id c = c_id c0 /\ fits r j (c_state c)) as Hl.
  { intros j c. destruct (decide (l = j)) as [<-|Hne].
    - rewrite list_lookup_alter_eq. intros (c0 & Hc & ->)%fmap_Some. exists c0. by destruct (Hf c0 Hc).
    - rewrite list_lookup_alter_ne by done. intros Hc. exists c. split_and!; [done|done|by apply ok_fits]. }
  split; cbn -[alter].
  - intros id j Hid. destruct (ro_id _ Hr id j Hid) as (c & Hc & <-).
    destruct (decide (l = j)) as [<-|Hne].
    + exists (f c). rewrite list_lookup_alter_eq, Hc. split; [done|]. by apply Hf.
    + exists c. by rewrite list_lookup_alter_ne.
  - apply (ro_cgroup _ Hr).
  - apply (ro_pid _ Hr).
  - intros j c pid (c0 & _ & _ & [Hp _ _])%Hl. apply Hp.
  - intros j c (c0 & _ & _ & [_ Hz _])%Hl. apply Hz.
  - intros j c (c0 & _ & _ & [_ _ Ht])%Hl. apply Ht.
Qed.

Lemma ok_on_container l f r :
  registry_ok r -> (forall c, containers r !! l = Some c -> fits r l (f (c_state c))) ->
  registry_ok (on_container l f r).
Proof. intros Hr Hf. apply ok_set_containers; [done|]. intros c Hc. split; [done|by apply Hf]. Qed.

(** ** Handlers that start and stop no process *)

Definition quiet (s s' : st) : Prop :=
  dom (processes s') = dom (processes s) /\ zombieAt s' = zombieAt s /\
  (ContainerSpec.ok s -> ContainerSpec.ok s').

Lemma quiet_same s s' :
  processes s' = processes s -> zombieAt s' = zombieAt s ->
  (ContainerSpec.ok s -> ContainerSpec.ok s') -> quiet s s'.
Proof. intros Hp Hz Hok. split_and!; [by rewrite Hp|done|done]. Qed.

Lemma fits_quiet r l s s' : quiet s s' -> fits r l s -> fits r l s'.
Proof.
  intros (Hd & Hz & Hok) [Hp Hzo Ht]. split; [|rewrite Hz|by apply Hok].
  - intros pid Hpid. apply Hp. apply elem_of_dom. rewrite <-Hd. by apply elem_of_dom.
  - intros Hn%Hzo. apply dom_empty_inv_L. rewrite Hd, Hn. apply dom_empty_L.
Qed.

Lemma ok_quiet l f r : registry_ok r -> (forall s, quiet s (f s)) -> registry_ok (on_container l f r).
Proof.
  intros Hr Hf. apply ok_on_container; [done|]. intros c Hc. eapply fits_quiet, ok_fits; done.
Qed.

Lemma ok_on_pid pid f r : registry_ok r -> (forall s, quiet s (f s)) -> registry_ok (on_pid pid f r).
Proof. intros Hr Hf. unfold on_pid. case_match; [by apply ok_quiet|done]. Qed.

Lemma quiet_refl s : quiet s s.
Proof. by apply quiet_same. Qed.

Lemma quiet_onListenOpen v pid addr s : quiet s (onListenOpen v pid addr s).
Proof. unfold onListenOpen. case_match; by apply quiet_same. Qed.

Lemma quiet_onListenClose v pid addr s : quiet s (onListenClose v pid addr s).
Proof. by apply quiet_same. Qed.

Lemma traffic_processes ac sent received s :
  processes (updateConnectionTrafficStats ac sent received s) = processes s /\
  zombieAt (updateConnectionTrafficStats ac sent received s) = zombieAt s.
Proof. unfold updateConnectionTrafficStats. destruct ac as [l|]; [|done]. by destruct (heap s !! l). Qed.

Lemma quiet_traffic ac sent received s : quiet s (updateConnectionTrafficStats ac sent received s).
Proof. apply quiet_same; [apply traffic_processes..|apply ContainerSpec.ok_traffic]. Qed.

Lemma quiet_onConnectionClose v e s : quiet s (onConnectionClose v e s).
Proof.
  apply quiet_same; [..|apply ContainerSpec.ok_onConnectionClose]; unfold onConnectionClose;
    (destruct (connectionsByPidFd s !! _) as [l|]; [|done]);
    (destruct (heap s !! l) as [conn|]; [|done]); (case_match; [done|]); (destruct (Closed conn); [done|]);
    (destruct (Traffic e) as [t|]; [|done]); apply (traffic_processes (Some l)).
Qed.

Lemma quiet_onConnectionOpen v pid fd src dst actual ts failed d f s :
  quiet s (onConnectionOpen v pid fd src dst actual ts failed d f s).1.
Proof.
  apply quiet_same; [..|apply ContainerSpec.ok_onConnectionOpen]; unfold onConnectionOpen;
    (case_match; [done|]); (case_match; [|done]); (case_match; [done|]); cbv zeta;
    set (act := if addr_port actual =? 0 then _ else _); clearbody act; (case_match; [done|]);
    (destruct (ShouldBeSkipped _ _ _) as [[] f']; [done|]); cbn [fst]; (destruct failed; [done|]);
    unfold track_connection; cbn -[insert lookup alter];
    by destruct (connectionsByPidFd s !! MkPidFd pid fd).
Qed.

Lemma quiet_onRetransmission src dst s : quiet s (onRetransmission src dst s).1.
Proof.
  apply quiet_same; [..|apply ContainerSpec.ok_conns, ContainerSpec.conns_onRetransmission];
    unfold onRetransmission; (destruct (activeConnections s !! _) as [l|]; [|done]);
    by destruct (heap s !! l).
Qed.

Lemma quiet_runtime (g : Process -> Process) pid p n py s :
  processes s !! pid = Some p -> quiet s (set_processes (insert pid (g p)) (set_runtime n py s)).
Proof.
  intros Hp. split_and!; [|done|done]. cbn. rewrite dom_insert_lookup_L; [done|]. by eexists.
Qed.

Lemma quiet_updateNodejsStats pid b s : quiet s (updateNodejsStats pid b s).
Proof.
  unfold updateNodejsStats. destruct (processes s !! pid) as [p|] eqn:E; [|apply quiet_refl].
  destruct (nodejsPrevStats p); [|apply quiet_refl]. cbv zeta.
  set (g := fun p => MkProcess (StartedAt p) (EbpfTracesDisabled p) (Some b) (pythonPrevStats p) (Probes p)).
  case_match; [by apply (quiet_runtime g)|].
  pose proof (quiet_runtime g pid p (nodejsStats s) (pythonStats s) s E) as Hq. by destruct s.
Qed.

Lemma quiet_updatePythonStats pid b s : quiet s (updatePythonStats pid b s).
Proof.
  unfold updatePythonStats. destruct (processes s !! pid) as [p|] eqn:E; [|apply quiet_refl].
  destruct (pythonPrevStats p); [|apply quiet_refl]. cbv zeta.
  set (g := fun p => MkProcess (StartedAt p) (EbpfTracesDisabled p) (nodejsPrevStats p) (Some b) (Probes p)).
  case_match; [by apply (quiet_runtime g)|].
  pose proof (quiet_runtime g pid p (nodejsStats s) (pythonStats s) s E) as Hq. by destruct s.
Qed.

Lemma quiet_instrumented pid python nodejs s : quiet s (instrumented pid python nodejs s).
Proof. split_and!; [|done|done]. cbn. by rewrite dom_alter_L. Qed.

Lemma quiet_attach_probes attach pid k s s' : attach_probes attach pid k s = Val s' -> quiet s s'.
Proof.
  unfold attach_probes. destruct (processes s !! pid) as [p|] eqn:E; [|intros [= <-]; apply quiet_refl].
  destruct (attach (Probes p) k) as [|[probes k']]; [done|]. intros [= <-].
  split_and!; [|done|done]. cbn. rewrite dom_insert_lookup_L; [done|]. by eexists.
Qed.

Lemma quiet_gc g order s : (forall m, order m ≡ₚ map_to_list m) -> quiet s (gc g order s).
Proof.
  intros Ho. apply quiet_same; [..|intros Hok; by eapply ContainerSpec.ok_collected, ContainerSpec.gc_collected];
    unfold gc; cbv zeta;
    destruct (ContainerSpec.revalidateListens_listens g (actualListens (scan_sockets g)) s) as [f ->];
    by destruct (foldl _ _ _) as [[active byPidFd] dsts].
Qed.

Lemma handle_request_processes v l conn t q s s' :
  handle_request v l conn t q s = Val s' -> processes s' = processes s /\ zombieAt s' = zombieAt s.
Proof.
  assert (forall key (reqs : list (nat * Http2Parser.Http2Request)) s, processes (foldl (onHttp2Request v key t) s reqs) = processes s /\
    zombieAt (foldl (onHttp2Request v key t) s reqs) = zombieAt s) as Hh.
  { intros key reqs. induction reqs as [|x reqs IH]; intros s0; [done|]. cbn [foldl].
    destruct (IH (onHttp2Request v key t s0 x)) as [-> ->]. destruct x. unfold onHttp2Request. by case_match. }
  unfold handle_request. cbv zeta. repeat (case_match; try discriminate); intros [= <-]; try done.
  match goal with |- context [foldl (onHttp2Request v ?key t) ?s0 ?reqs] => by destruct (Hh key reqs s0) as [-> ->] end.
Qed.

Lemma quiet_onL7Request v pid fd ts q s s' m : onL7Request v pid fd ts q s = Val (s', m) -> quiet s s'.
Proof.
  intros E. assert (processes s' = processes s /\ zombieAt s' = zombieAt s) as [Hp Hz]; cycle 1.
  { apply quiet_same; [done|done|]. intros Hok. by eapply ContainerSpec.ok_onL7Request. }
  revert E. unfold onL7Request, onDNSRequest. cbv zeta. case_match.
  { destruct (ParsersLib.ParseDns _) as [[t x] ips]. repeat case_match; intros [= <- <-]; done. }
  destruct (connectionsByPidFd s !! _) as [l|]; [|by intros [= <- <-]].
  destruct (heap s !! l) as [conn|]; [|by intros [= <- <-]]. case_match; [by intros [= <- <-]|].
  destruct (handle_request _ _ _ _ _ _) as [|s1] eqn:E; [done|]. intros [= -> <-].
  by apply handle_request_processes in E.
Qed.

(** ** Processes *)

Lemma ok_set_ignored f r : registry_ok r -> registry_ok (set_ignored f r).
Proof. by intros []; split. Qed.
Lemma ok_set_domains f r : registry_ok r -> registry_ok (set_domains f r).
Proof. by intros []; split. Qed.
Lemma ok_set_filter x r : registry_ok r -> registry_ok (set_filter x r).
Proof. by intros []; split. Qed.

Lemma onProcessExit_processes v pid oom s :
  processes (onProcessExit v pid oom s) = delete pid (processes s) /\
  (zombieAt (onProcessExit v pid oom s) <> None -> zombieAt s <> None \/ delete pid (processes s) = ∅).
Proof.
  unfold onProcessExit. cbv zeta. change (processes (set_processes (delete pid) s)) with (delete pid (processes s)).
  destruct (decide (delete pid (processes s) = ∅)) as [E|E]; destruct oom; cbn; auto.
Qed.

(** A process that is mapped to [l] leaves. *)
Lemma ok_process_exit v pid oom l r :
  registry_ok r -> containersByPid r !! pid = Some l ->
  registry_ok (on_container l (onProcessExit v pid oom) (set_pids (delete pid) r)).
Proof.
  intros Hr Hp. apply (ok_on_container l (onProcessExit v pid oom)) in Hr as Hr1; cycle 1.
  { intros c Hc. destruct (onProcessExit_processes v pid oom (c_state c)) as [Hd Hz]. split.
    - intros p' Hp'. apply (ro_process _ Hr l c p' Hc). rewrite Hd in Hp'.
      destruct Hp' as [x [_ Hx]%lookup_delete_Some]. by eexists.
    - rewrite Hd. intros [Hzo|Ho]%Hz; [|done]. by rewrite (ro_zombie _ Hr l c Hc Hzo), delete_empty.
    - eapply ContainerSpec.ok_conns, (ro_table _ Hr l c Hc). apply ContainerSpec.conns_onProcessExit. }
  assert (forall j c, containers (on_container l (onProcessExit v pid oom) r) !! j = Some c ->
    processes (c_state c) !! pid = None) as Hnone.
  { intros j c Hc. destruct (processes (c_state c) !! pid) eqn:E; [|done].
    assert (containersByPid r !! pid = Some j) as Hj by (apply (ro_process _ Hr1 j c pid Hc); by eexists).
    rewrite Hp in Hj. injection Hj as <-. cbn in Hc. rewrite list_lookup_alter_eq in Hc.
    apply fmap_Some in Hc as (c0 & _ & ->). cbn in E.
    by rewrite (proj1 (onProcessExit_processes v pid oom (c_state c0))), lookup_delete_eq in E. }
  destruct Hr1 as [H1 H2 H3 H4 H5 H6]. split; try done.
  - cbn. intros p' j [_ Hj]%lookup_delete_Some. by apply (H3 p').
  - intros j c p' Hc Hp'. cbn. destruct (decide (pid = p')) as [<-|Hne].
    + destruct Hp' as [x Hx]. by rewrite (Hnone j c Hc) in Hx.
    + rewrite lookup_delete_ne by done. by apply (H4 j c p').
Qed.

Lemma ok_forget_process v pid l r :
  registry_ok r -> containersByPid r !! pid = Some l -> registry_ok (forget_process v pid l r).
Proof. apply ok_process_exit. Qed.

Lemma ok_revalidate v pid r : registry_ok r -> registry_ok (revalidate v pid r).
Proof.
  intros Hr. unfold revalidate. destruct (containersByPid r !! pid) as [l|] eqn:E; [|done].
  destruct (containers r !! l) as [c|]; [|done].
  destruct (ReadCgroup v pid); [case_match; [done|]|]; by apply ok_forget_process.
Qed.

(** A pid that was not mapped gets a container that has an id. *)
Lemma ok_insert_pid k pid l f r :
  registry_ok r -> containersByPid r !! pid = None -> live r l ->
  (f = id \/ f = insert k l) ->
  registry_ok (set_index (fun m => m) f (insert pid l) r).
Proof.
  intros Hr Hp Hl Hf. destruct Hr as [H1 H2 H3 H4 H5 H6]. split; try done; cbn.
  - intros k' j Hj. destruct Hf as [-> | ->]; [by apply (H2 k')|].
    apply lookup_insert_Some in Hj as [[_ <-]|[_ Hj]]; [done|by apply (H2 k')].
  - intros p' j [[_ <-]|[_ Hj]]%lookup_insert_Some; [done|by apply (H3 p')].
  - intros j c p' Hc Hp'. apply (H4 j c p' Hc) in Hp'. rewrite lookup_insert_ne; [done|]. intros <-. congruence.
Qed.

Lemma ok_find_or_new v pid cg id r o r' :
  registry_ok r -> containersByPid r !! pid = None -> find_or_new v pid cg id r = (o, r') ->
  registry_ok r' /\ (forall l, o = Some l -> containersByPid r' !! pid = Some l).
Proof.
  intros Hr Hp. unfold find_or_new. destruct (containersById r !! id) as [l|] eqn:El.
  - intros [= <- <-]. split; [|intros l' [= <-]; apply lookup_insert_eq].
    assert (forall r1, registry_ok r1 -> containersById r1 = containersById r -> containersByPid r1 = containersByPid r ->
      registry_ok (set_index (fun m => m) (insert (Id cg) l) (insert pid l) r1)) as Hidx.
    { intros r1 Hr1 E1 E2. apply (ok_insert_pid (Id cg)); [done|by rewrite E2|by exists id; rewrite E1|by right]. }
    destruct (containers r !! l) as [c|] eqn:Ec; [|by apply Hidx].
    case_match; [|by apply Hidx]. apply Hidx; [|done..]. apply ok_set_containers; [done|].
    intros c' Hc'. split; [done|]. by apply (ok_fits r l c').
  - destruct (GetNetNs v pid); [|by intros [= <- <-]]. destruct (Register_ v id); [|by intros [= <- <-]]. intros [= <- <-].
    split; [|intros l [= <-]; apply lookup_insert_eq].
    destruct Hr as [H1 H2 H3 H4 H5 H6]. set (l := length (containers r)).
    assert (forall j c, (containers r ++ [MkContainer id cg init]) !! j = Some c ->
      containers r !! j = Some c \/ (j = l /\ c = MkContainer id cg init)) as Hl.
    { intros j c [Hj|[Hge Hj]]%lookup_app_Some; [by left|].
      apply list_lookup_singleton_Some in Hj as [Hj <-]. right. subst l. split; [lia|done]. }
    assert (forall j, live r j -> exists id', <[id := l]> (containersById r) !! id' = Some j) as Hlive.
    { intros j [id' Hid]. exists id'. rewrite lookup_insert_ne; [done|]. intros <-. congruence. }
    split; cbn; unfold live; cbn.
    + intros id' j [[<- <-]|[_ Hj]]%lookup_insert_Some.
      * eexists. split; [by apply list_lookup_middle|done].
      * destruct (H1 id' j Hj) as (c & Hc & <-). exists c. split; [by apply lookup_app_l_Some|done].
    + intros k j [[<- <-]|[_ Hj]]%lookup_insert_Some; [exists id; apply lookup_insert_eq|by apply Hlive, (H2 k)].
    + intros p' j [[<- <-]|[_ Hj]]%lookup_insert_Some; [exists id; apply lookup_insert_eq|by apply Hlive, (H3 p')].
    + intros j c p' [Hc|[-> ->]]%Hl Hp'; [|cbn in Hp'; rewrite lookup_empty in Hp'; by destruct Hp'].
      apply (H4 j c p' Hc) in Hp'. rewrite lookup_insert_ne; [done|]. intros <-. congruence.
    + intros j c [Hc|[-> ->]]%Hl; [by apply (H5 j)|done].
    + intros j c [Hc|[-> ->]]%Hl; [by apply (H6 j)|apply ContainerSpec.table_ok_init].
Qed.

Lemma ok_getOrCreateContainer v pid r o r' :
  registry_ok r -> getOrCreateContainer v pid r = (o, r') ->
  registry_ok r' /\ (forall l, o = Some l -> containersByPid r' !! pid = Some l).
Proof.
  intros Hr. unfold getOrCreateContainer. destruct (containersByPid r !! pid) as [l|] eqn:Ep.
  { intros [= <- <-]. split; [done|]. by intros l' [= <-]. }
  cbv zeta. case_match; [by intros [= <- <-]|].
  pose proof (ok_set_ignored (delete pid) r Hr) as Hr1. set (r1 := set_ignored (delete pid) r) in *.
  assert (containersByPid r1 !! pid = None) as Ep1 by done. clearbody r1.
  destruct (ReadCgroup v pid) as [cg|]; [|by intros [= <- <-]].
  destruct (containersByCgroupId r1 !! Id cg) as [l|] eqn:Ec.
  { intros [= <- <-]. split; [|intros l' [= <-]; apply lookup_insert_eq].
    apply (ok_insert_pid [] pid l id); [done|done|by apply (ro_cgroup _ Hr1 (Id cg))|by left]. }
  destruct (getContainerMetadata _ _) as [md|]; [|by intros [= <- <-]].
  destruct (bytes_eqb (calcId _ _ _) []).
  { intros [= <- <-]. split; [|done]. apply if_both; [done|by apply ok_set_ignored]. }
  destruct (container_ShouldBeSkipped _ _); [intros [= <- <-]; split; [by apply ok_set_ignored|done]|].
  by apply ok_find_or_new.
Qed.

Lemma ok_on_process_start v pid r : registry_ok r -> registry_ok (on_process_start v pid r).
Proof.
  intros Hr%(ok_revalidate v pid). unfold on_process_start. cbv zeta.
  destruct (getOrCreateContainer _ _ _) as [[l|] r'] eqn:E; cbn beta iota;
    apply ok_getOrCreateContainer in E as [Hr' Hl]; [|done..]. specialize (Hl l eq_refl).
  apply ok_on_container; [done|]. intros c Hc. pose proof (ok_fits r' l c Hr' Hc) as Hf.
  unfold onProcessStart. destruct (TaskstatsPID v pid) as [t|]; [|done]. cbv zeta.
  destruct Hf as [Hp Hz Ht]. set (p := MkProcess _ _ _ _ _).
  assert (forall s, processes s = <[pid := p]> (processes (c_state c)) -> zombieAt s = None ->
    ContainerSpec.conns s = ContainerSpec.conns (c_state c) -> fits r' l s) as Hfit.
  { intros s Es Ezs Ecs. split; [|by rewrite Ezs|by eapply ContainerSpec.ok_conns].
    intros p' [x Hx]. rewrite Es in Hx. apply lookup_insert_Some in Hx as [[<- _]|[_ Hx]]; [done|].
    apply Hp. by eexists. }
  repeat case_match; by apply Hfit.
Qed.

Lemma ok_on_process_exit v pid oom r : registry_ok r -> registry_ok (on_process_exit v pid oom r).
Proof.
  intros Hr. unfold on_process_exit. cbv zeta. destruct (containersByPid r !! pid) as [l|] eqn:E.
  - by apply (ok_process_exit (container_env v r) pid oom l r).
  - assert (set_pids (delete pid) r = r) as ->; [|done]. destruct r. unfold set_pids. cbn in *. by rewrite delete_id.
Qed.

Lemma ok_on_connection_open v e ts failed r : registry_ok r -> registry_ok (on_connection_open v e ts failed r).
Proof.
  intros Hr. unfold on_connection_open. destruct (getOrCreateContainer _ _ _) as [[l|] r'] eqn:E; cbn beta iota;
    apply ok_getOrCreateContainer in E as [Hr' Hl]; [|done..].
  destruct (containers r' !! l) as [c|] eqn:Ec; [|done].
  destruct (onConnectionOpen _ _ _ _ _ _ _ _ _ _ _) as [c' f] eqn:Eo. apply ok_set_filter.
  apply ok_on_container; [done|]. intros c1 Hc1. rewrite Ec in Hc1. injection Hc1 as <-.
  eapply fits_quiet, ok_fits; [|done|done]. assert (c' = (c', f).1) as -> by done. rewrite <-Eo.
  apply quiet_onConnectionOpen.
Qed.

Lemma ok_on_retransmission src dst ids r : registry_ok r -> registry_ok (on_retransmission src dst ids r).
Proof.
  intros Hr. induction ids as [|[id l] ids IH]; [done|]. cbn [on_retransmission].
  destruct (containers r !! l) as [c|] eqn:Ec; [|done].
  destruct (onRetransmission src dst (c_state c)) as [c' found] eqn:E. destruct found; [|done].
  apply ok_on_container; [done|]. intros c1 Hc1. rewrite Ec in Hc1. injection Hc1 as <-.
  eapply fits_quiet, ok_fits; [|done|done]. assert (c' = (c', true).1) as -> by done. rewrite <-E.
  apply quiet_onRetransmission.
Qed.

Lemma ok_on_l7_request v e r r' : registry_ok r -> on_l7_request v e r = Val r' -> registry_ok r'.
Proof.
  intros Hr. unfold on_l7_request. destruct (L7Request_ e) as [q|]; [|by intros [= <-]].
  destruct (containersByPid r !! Pid e) as [l|]; [|by intros [= <-]].
  destruct (containers r !! l) as [c|] eqn:Ec; [|by intros [= <-]].
  destruct (onL7Request _ _ _ _ _ _) as [|[c' m]] eqn:E; [done|]. intros [= <-]. apply ok_set_domains.
  apply ok_on_container; [done|]. intros c1 Hc1. rewrite Ec in Hc1. injection Hc1 as <-.
  eapply fits_quiet, ok_fits; [|done|done]. by eapply quiet_onL7Request.
Qed.

Lemma ok_on_probes attach k pid r r' : registry_ok r -> on_probes attach k pid r = Val r' -> registry_ok r'.
Proof.
  intros Hr. unfold on_probes. destruct (containersByPid r !! pid) as [l|]; [|by intros [= <-]].
  destruct (containers r !! l) as [c|] eqn:Ec; [|by intros [= <-]].
  destruct (attach_probes attach pid k (c_state c)) as [|c'] eqn:E; [done|]. intros [= <-].
  apply ok_on_container; [done|]. intros c1 Hc1. rewrite Ec in Hc1. injection Hc1 as <-.
  eapply fits_quiet, ok_fits; [|done|done]. by eapply quiet_attach_probes.
Qed.

Lemma ok_handle_event v e r r' : registry_ok r -> handle_event v e r = Val r' -> registry_ok r'.
Proof.
  intros Hr. unfold handle_event. cbv zeta. case_match; [intros [= <-]; by apply ok_on_process_start|].
  case_match; [intros [= <-]; by apply ok_on_process_exit|].
  case_match.
  { intros [= <-]. destruct (getOrCreateContainer v (Pid e) r) eqn:E. by apply ok_getOrCreateContainer in E as [? _]. }
  case_match.
  { intros [= <-]. unfold on_listen_open. destruct (getOrCreateContainer _ _ _) as [[l|] r1] eqn:E; cbn beta iota;
      apply ok_getOrCreateContainer in E as [Hr1 _]; [|done..]. apply ok_quiet; [done|]. intros s. apply quiet_onListenOpen. }
  case_match; [intros [= <-]; apply ok_on_pid; [done|intros s; apply quiet_onListenClose]|].
  case_match; [intros E; by eapply ok_on_probes, E; apply ok_on_connection_open|].
  case_match; [intros [= <-]; by apply ok_on_connection_open|].
  case_match; [intros [= <-]; apply ok_on_pid; [done|intros s; apply quiet_onConnectionClose]|].
  case_match; [intros [= <-]; by apply ok_on_retransmission|].
  case_match; [by apply ok_on_l7_request|]. by intros [= <-].
Qed.

(** ** The collector *)

Lemma gc_pid_other v r pid l pid' :
  pid <> pid' -> containersByPid (gc_pid v r (pid, l)) !! pid' = containersByPid r !! pid'.
Proof.
  intros Hne. unfold gc_pid. destruct (containers r !! l) as [c|]; [|done].
  assert (containersByPid (forget_process v pid l r) !! pid' = containersByPid r !! pid') as Hf
    by (cbn; by rewrite lookup_delete_ne).
  destruct (ReadCgroup v pid); [by case_match|done].
Qed.

Lemma ok_gc_pids v L r :
  registry_ok r -> NoDup L.*1 -> (forall pid l, (pid, l) ∈ L -> containersByPid r !! pid = Some l) ->
  registry_ok (foldl (gc_pid v) r L).
Proof.
  revert r. induction L as [|[pid l] L IH]; intros r Hr Hnd Hin; [done|]. cbn [foldl].
  apply NoDup_cons in Hnd as [Hn Hnd]. apply IH; [|done|].
  - unfold gc_pid. destruct (containers r !! l) as [c|]; [|done].
    assert (registry_ok (forget_process v pid l r)) as Hf by (apply ok_forget_process, Hin; [done|left]).
    destruct (ReadCgroup v pid); [by case_match|done].
  - intros pid' l' Hin'. rewrite gc_pid_other; [apply Hin; by right|].
    intros <-. apply Hn. apply (list_elem_of_fmap_2 fst _ _ Hin').
Qed.

Lemma ok_remove id l r :
  registry_ok r -> containersById r !! id = Some l ->
  (forall c, containers r !! l = Some c -> processes (c_state c) = ∅) ->
  registry_ok (set_index (delete id) (filter (fun kl => kl.2 <> l)) (filter (fun kl => kl.2 <> l)) r).
Proof.
  intros Hr Hid Hdead.
  assert (forall j, live r j -> j <> l -> exists id', delete id (containersById r) !! id' = Some j) as Hlive.
  { intros j [id' Hj] Hne. exists id'. rewrite lookup_delete_ne; [done|]. intros ->. congruence. }
  destruct Hr as [H1 H2 H3 H4 H5 H6]. split; try done; cbn.
  - intros id' j [_ Hj]%lookup_delete_Some. by apply H1.
  - intros k j [Hj Hne]%map_lookup_filter_Some. by apply Hlive; [apply (H2 k)|].
  - intros p j [Hj Hne]%map_lookup_filter_Some. by apply Hlive; [apply (H3 p)|].
  - intros j c p Hc Hp. apply map_lookup_filter_Some. split; [by apply (H4 j c)|]. cbn. intros ->.
    rewrite (Hdead c Hc), lookup_empty in Hp. by destruct Hp.
Qed.

Lemma gc_container_ok now r active id l :
  registry_ok r -> containersById r !! id = Some l -> registry_ok (gc_container now (r, active) (id, l)).1.
Proof.
  intros Hr Hid. unfold gc_container. destruct (containers r !! l) as [c|] eqn:Ec; [|done].
  destruct (Dead now (c_state c)) eqn:Ed; [|done]. apply ok_remove; [done|done|].
  intros c' Hc'. rewrite Ec in Hc'. injection Hc' as <-. apply (ro_zombie _ Hr l c Ec).
  unfold Dead in Ed. by destruct (zombieAt (c_state c)).
Qed.

(** The containers and the ids after a visit. *)
Lemma gc_container_ids now r active id l :
  containers (gc_container now (r, active) (id, l)).1 = containers r /\
  containersById (gc_container now (r, active) (id, l)).1 =
    match containers r !! l with
    | Some c => if Dead now (c_state c) then delete id (containersById r) else containersById r
    | None => containersById r
    end.
Proof. unfold gc_container. destruct (containers r !! l) as [c|]; [|done]. by destruct (Dead now (c_state c)). Qed.

Lemma gc_containers now L acc :
  registry_ok acc.1 -> NoDup L.*1 -> (forall id l, (id, l) ∈ L -> containersById acc.1 !! id = Some l) ->
  let r' := (foldl (gc_container now) acc L).1 in
  registry_ok r' /\ containers r' = containers acc.1 /\
  forall id l, containersById r' !! id = Some l <-> containersById acc.1 !! id = Some l /\
    ((id, l) ∈ L -> exists c, containers acc.1 !! l = Some c /\ Dead now (c_state c) = false).
Proof.
  revert acc. induction L as [|[id l] L IH]; intros [r active] Hr Hnd Hin.
  { cbn. split_and!; try done. intros id l. split; [|by intros []]. intros Hid. split; [done|].
    intros Hl. by apply elem_of_nil in Hl. }
  apply NoDup_cons in Hnd as [Hn Hnd]. cbn [fst] in Hr, Hin.
  assert (containersById r !! id = Some l) as Hid by (apply Hin; left).
  pose proof (gc_container_ok now r active id l Hr Hid) as Hr1.
  destruct (gc_container_ids now r active id l) as [Hcs Hids].
  destruct (ro_id _ Hr id l Hid) as (c & Hc & _). rewrite Hc in Hids.
  cbv zeta. cbn [foldl]. set (acc1 := gc_container now (r, active) (id, l)) in *. clearbody acc1.
  assert (forall id' l', id' <> id -> containersById acc1.1 !! id' = Some l' <-> containersById r !! id' = Some l') as Hother.
  { intros id' l' Hne. rewrite Hids. case_match; [|done]. by rewrite lookup_delete_ne. }
  assert (forall id' l', (id', l') ∈ L -> id' <> id) as HneL.
  { intros id' l' Hin' ->. apply Hn. apply (list_elem_of_fmap_2 fst _ _ Hin'). }
  destruct (IH acc1 Hr1 Hnd) as (Hok & Hcs' & Hiff).
  { intros id' l' Hin'. apply Hother; [by eapply HneL|]. apply Hin. by right. }
  split_and!; [done|by rewrite Hcs', Hcs|]. cbn [fst]. intros id' l'. rewrite Hiff, Hcs.
  destruct (decide (id' = id)) as [->|Hne].
  - split.
    + intros [Hid' _]. rewrite Hids in Hid'. destruct (Dead now (c_state c)) eqn:Ed; [by rewrite lookup_delete_eq in Hid'|].
      split; [done|]. intros _. rewrite Hid in Hid'. injection Hid' as <-. eauto.
    + intros [Hid' Hd]. rewrite Hid in Hid'. injection Hid' as <-. destruct Hd as (c' & Hc' & Hd); [by left|].
      rewrite Hc in Hc'. injection Hc' as <-. rewrite Hids, Hd. split; [done|]. by intros ?%HneL.
  - rewrite Hother by done. split; intros [Hid' Hd]; (split; [done|]); intros Hin'; apply Hd.
    + apply elem_of_cons in Hin' as [[= -> _]|]; done.
    + by right.
Qed.

Definition ranges_ok (v : renv) : Prop :=
  (forall m, range_pids v m ≡ₚ map_to_list m) /\ (forall m, range_ids v m ≡ₚ map_to_list m).

Lemma NoDup_range {K} `{Countable K} (m : gmap K nat) L : L ≡ₚ map_to_list m -> NoDup L.*1.
Proof. intros HL. rewrite HL. apply NoDup_fst_map_to_list. Qed.

Lemma gc_pids_index v L r :
  containersById (foldl (gc_pid v) r L) = containersById r.
Proof.
  revert r. induction L as [|[pid l] L IH]; intros r; [done|]. cbn [foldl]. rewrite IH. unfold gc_pid.
  destruct (containers r !! l); [|done]. destruct (ReadCgroup v pid); [by case_match|done].
Qed.

Lemma tick_spec v now r :
  registry_ok r -> ranges_ok v ->
  let r' := tick v now r in
  registry_ok r' /\
  forall id l, containersById r' !! id = Some l <->
    containersById r !! id = Some l /\ exists c, containers r' !! l = Some c /\ Dead now (c_state c) = false.
Proof.
  intros Hr [Hpids Hids] r'. unfold r', tick. cbv zeta.
  assert (registry_ok (foldl (gc_pid v) r (range_pids v (containersByPid r)))) as Hr1.
  { apply ok_gc_pids; [done|by eapply NoDup_range|]. intros pid l. by rewrite Hpids, elem_of_map_to_list. }
  pose proof (gc_pids_index v (range_pids v (containersByPid r)) r) as Hx.
  set (r1 := foldl (gc_pid v) r _) in *. clearbody r1. apply (ok_set_ignored (fun _ => ∅)) in Hr1.
  destruct (gc_containers now (range_ids v (containersById r1)) (set_ignored (fun _ => ∅) r1, ∅)) as (Hok & Hcs & Hiff).
  { done. }
  { by eapply NoDup_range. }
  { intros id l. by rewrite Hids, elem_of_map_to_list. }
  cbn [fst] in Hok, Hcs, Hiff. change (containersById (set_ignored (fun _ => ∅) r1)) with (containersById r1) in *.
  destruct (foldl _ _ _) as [r2 active]. cbn [fst] in *. split; [by apply ok_set_domains|].
  intros id l. cbn [containersById containers set_domains]. rewrite Hiff, Hids, elem_of_map_to_list, Hx, Hcs.
  split; [|by intros [? ?]]. intros [Hid Hd]. split; [done|]. by apply Hd.
Qed.

(** A container has been without a process for more than ten minutes: it has none and the
    last one was gone at a time that long ago. *)
Definition long_empty (now : Z) (s : st) : Prop :=
  processes s = ∅ /\ exists z, zombieAt s = Some z /\ z + 10 * 60 * 1000000000 < now.

Lemma Dead_long_empty now s :
  (zombieAt s <> None -> processes s = ∅) -> Dead now s = true <-> long_empty now s.
Proof.
  intros Hz. unfold Dead, long_empty. destruct (zombieAt s) as [z|].
  - destruct (Z.gtb_spec (now - z) gcInterval); unfold gcInterval in *; split; try done.
    + intros _. split; [by apply Hz|]. exists z. split; [done|lia].
    + intros (_ & z' & [= <-] & ?). lia.
  - split; [done|]. by intros (_ & z & ? & _).
Qed.


(** ** Runs *)

Definition input_ok (vi : renv * input) : Prop :=
  ranges_ok vi.1 /\ match vi.2 with ContainerGC _ _ order => forall m, order m ≡ₚ map_to_list m | _ => True end.

Lemma ok_handle v i r r' : registry_ok r -> input_ok (v, i) -> handle v i r = Val r' -> registry_ok r'.
Proof.
  intros Hr [Hv Hi] E. cbn [fst snd] in Hv, Hi. destruct i; cbn [handle] in E; try injection E as <-.
  - by apply tick_spec.
  - apply ok_on_pid; [done|]. intros s. apply quiet_traffic.
  - apply ok_on_pid; [done|]. intros s. apply quiet_updateNodejsStats.
  - apply ok_on_pid; [done|]. intros s. apply quiet_updatePythonStats.
  - by eapply ok_handle_event.
  - destruct (Apps.instrument reads) as [|[python nodejs]]; [done|].
    destruct (on_probes _ _ _ _) as [|r1] eqn:E1 in E; [done|]. eapply ok_on_probes, E.
    apply ok_on_pid; [by eapply ok_on_probes|]. intros s. apply quiet_instrumented.
  - apply ok_quiet; [done|]. intros s. by apply quiet_gc.
Qed.

Lemma ok_handleEvents inputs r r' :
  registry_ok r -> Forall input_ok inputs -> handleEvents inputs r = Val r' -> registry_ok r'.
Proof.
  intros Hr Hin. revert r Hr. induction Hin as [|[v i] inputs Hi _ IH]; intros r Hr E.
  - by injection E as <-.
  - cbn [handleEvents] in E. destruct (handle v i r) as [|r1] eqn:E1; [done|].
    by eapply IH; [eapply ok_handle|].
Qed.

(** C14: Every process belongs to one container.  Through every sequence of events, counter
    updates, instrumentations, ticks and collections, each id maps to the container of that id, control
    groups and pids map to containers that have an id, a process of a container is
    mapped to that container and so to no other, a container that is marked as a zombie
    has no process left, and the connection table of every container is consistent. *)
Theorem registry_consistent filter inputs r :
  Forall input_ok inputs -> handleEvents inputs (NewRegistry filter) = Val r ->
  registry_ok r /\
  (forall pid l l' c c', containers r !! l = Some c -> containers r !! l' = Some c' ->
     is_Some (processes (c_state c) !! pid) -> is_Some (processes (c_state c') !! pid) -> l = l').
Proof.
  intros Hin E. pose proof (ok_handleEvents _ _ _ (registry_ok_init filter) Hin E) as Hr. split; [done|].
  intros pid l l' c c' Hc Hc' Hp Hp'.
  pose proof (ro_process _ Hr l c pid Hc Hp). pose proof (ro_process _ Hr l' c' pid Hc' Hp'). congruence.
Qed.

End spec.

(** ** A concrete registry *)

#[local] Existing Instance ContainerSpec.plain_libs.
#[local] Existing Instance Attach.byte_asm.

(** Two Docker containers: that of the even pids and that of the odd ones. *)
Definition demo_cgroup_file (pid : Z) : option bytes :=
  let c := if Z.even pid then 97 else 98 in
  Some (str "0::/docker/" ++ replicate 64 c).
Definition demo_renv (now : Z) (files : Z -> option bytes) : renv :=
  REnv now (ContainerSpec.demo_env now) [] files (fun _ => []) (fun _ => None)
    (Some (fun id => Some (MkMetadata (take 3 id) ∅ ∅))) None [] [] (fun _ => 0) (fun _ => true) (fun _ => true)
    (fun _ => Some now) (fun _ => false)
    (fun _ => Attach.TlsEnv false ([], []) false None None false false None) (fun _ => Attach.Kernel [] 0 [])
    map_to_list map_to_list.

Definition demo_start (now pid : Z) : renv * input :=
  (demo_renv now demo_cgroup_file, TracerEvent (event_of EventTypeProcessStart pid)).
Definition demo_exit (now pid : Z) : renv * input :=
  (demo_renv now demo_cgroup_file, TracerEvent (event_of EventTypeProcessExit pid)).
Definition demo_inputs : list (renv * input) :=
  [demo_start 100 2; demo_start 110 3; demo_start 120 4; demo_exit 130 3].

Definition demo_registry : registry :=
  match handleEvents demo_inputs (NewRegistry ∅) with Val r => r | Panic => NewRegistry ∅ end.

Lemma demo_registry_runs : handleEvents demo_inputs (NewRegistry ∅) = Val demo_registry.
Proof.
  assert (ContainerSpec.is_val (handleEvents demo_inputs (NewRegistry ∅)) = true) as E by by vm_compute.
  unfold demo_registry. by destruct (handleEvents _ _).
Qed.

Lemma demo_ranges_ok now files : ranges_ok (demo_renv now files).
Proof. by split; intros m. Qed.

Lemma demo_inputs_ok : Forall input_ok demo_inputs.
Proof. repeat (apply Forall_cons_2; [split; [apply demo_ranges_ok|exact I]|]). constructor. Qed.

Lemma registry_consistent_witness :
  registry_ok demo_registry /\
  containersById demo_registry !! str "/docker/aaa" = Some 0%nat /\
  containersById demo_registry !! str "/docker/bbb" = Some 1%nat.
Proof.
  split; [|split; by vm_compute].
  exact (proj1 (registry_consistent ∅ demo_inputs demo_registry demo_inputs_ok demo_registry_runs)).
Defined.


End RegistrySpec.
