(* ===== verification/Delivery.v ===== *)
(** * From the kernel to the containers

    The components composed: what the programs of the object report, laid out as the
    C structs in the records of the perf buffers, decoded by the readers of tracer.go
    and handled by a container. *)

From S2P Require Import Prelude L7Base ProtoText ProtoSql ProtoBin Types Proc File Tcp L7 L7Spec L7Pairing Tls Object ObjectSpec.
From S2P Require Import Invariant Typed GoLib Attach Net Decode Parsers ParsersSpec Http2Parser ParsersLib Tracing Container ContainerSpec Cgroup Apps Registry RegistrySpec.

Module Delivery.
Import Typed Decode Parsers ParsersSpec Container Registry.

Section delivery.
Context `{Arch} `{Libs} `{Asm}.

(** ** Decoding *)

(** What is sent for an event of the kernel: its fields, as they are. *)
Definition proc_delivered (e : Proc.proc_event) : Event :=
  MkEvent (Proc.type e) (Proc.reason e) (Proc.pid e) IPPort_zero IPPort_zero IPPort_zero 0 0 0 None None 0 false.

Definition file_delivered (e : File.file_event) : Event :=
  MkEvent (File.type e) 0 (File.pid e) IPPort_zero IPPort_zero IPPort_zero (File.fd e) 0 0 None None
    (File.mnt e) (negb (File.log e =? 0)).

Definition tcp_delivered (e : tcp_event) : Event :=
  MkEvent (t_type e) 0 (t_pid e) (ipPort_of (t_saddr e) (t_sport e)) (ipPort_of (t_daddr e) (t_dport e))
    (ipPort_of (t_aaddr e) (t_aport e)) (t_fd e) (t_timestamp e) (s64 (t_duration e)) None
    (if t_type e =? EventTypeConnectionClose
     then Some (MkTrafficStats (t_bytes_sent e) (t_bytes_received e)) else None) 0 false.

Definition request_delivered (e : l7_event) : RequestData :=
  MkRequestData (e_protocol e) (e_status e) (s64 (e_duration e)) (e_method e) (e_statement_id e)
    (take (Z.to_nat (Z.min (e_payload_size e) MAX_PAYLOAD_SIZE)) (e_payload e)).

Definition l7_delivered (e : l7_event) : Event :=
  MkEvent EventTypeL7Request 0 (e_pid e) IPPort_zero IPPort_zero IPPort_zero (e_fd e)
    (e_connection_timestamp e) 0 (Some (request_delivered e)) None 0 false.

Lemma proc_view_typed e : proc_event_typed e -> proc_view e = proc_delivered e.
Proof. intros (? & ? & ?). unfold proc_view, proc_delivered. by rewrite !u32_small. Qed.

Lemma file_view_typed e : file_event_typed e -> file_view e = file_delivered e.
Proof. intros (? & ? & ? & ? & ?). unfold file_view, file_delivered. by rewrite !u32_small, !u64_small. Qed.

Lemma tcp_view_typed e : tcp_event_typed e -> tcp_view e = tcp_delivered e.
Proof.
  intros (? & ? & ? & ? & ? & ? & ? & ? & ? & ? & _). unfold tcp_view, tcp_delivered.
  by rewrite !u32_small, !u64_small, !u16_small.
Qed.

Lemma l7_view_typed e : event_typed e -> l7_view e = l7_delivered e.
Proof.
  intros (? & ? & ? & ? & ? & ? & ? & ? & ? & ? & _). unfold l7_view, l7_delivered, request_delivered.
  by rewrite !u32_small, !u64_small, !u8_small, !s32_small.
Qed.

(** *** The rings of a perf buffer

    A perf buffer has a ring for each CPU.  The events of a buffer are split over the
    rings in the order each CPU reported them, the reader takes records from the rings
    in any order, and a ring that was full drops samples: the kernel then writes the
    number dropped since the last sample as a record of its own. *)

(** [es] is an interleaving of the lists of [rings]. *)
Inductive interleaves {A} : list (list A) -> list A -> Prop :=
  | interleaves_nil rings : Forall (eq []) rings -> interleaves rings []
  | interleaves_cons rings es c r e :
      rings !! c = Some r -> interleaves rings es -> interleaves (<[c := e :: r]> rings) (e :: es).

(** What the reader of a perf buffer gets from its rings ([LostSamples] and
    [RawSample] of each record), until it has left [rings']: a sample is the event in
    memory order and whatever the ring pads it with; a record of lost samples stands
    for the events [gone] of a ring. *)
Inductive reads {A} (encode : A -> bytes) : list (list A) -> list (Z * bytes) -> list (list A) -> Prop :=
  | reads_stop rings : reads encode rings [] rings
  | reads_sample rings recs rings' c e r pad :
      rings !! c = Some (e :: r) -> reads encode (<[c := r]> rings) recs rings' ->
      reads encode rings ((0, encode e ++ pad) :: recs) rings'
  | reads_lost rings recs rings' c gone r raw :
      rings !! c = Some (gone ++ r) -> gone <> [] -> reads encode (<[c := r]> rings) recs rings' ->
      reads encode rings ((Z.of_nat (length gone), raw) :: recs) rings'.

(** How many samples the records say were lost. *)
Definition lost (recs : list (Z * bytes)) : Z := foldr (fun rec n => rec.1 + n) 0 recs.

Lemma concat_ring {A} (rings : list (list A)) c es r :
  rings !! c = Some (es ++ r) -> concat rings ≡ₚ es ++ concat (<[c := r]> rings).
Proof.
  intros Hc. rewrite <-(take_drop_middle _ _ _ Hc) at 1. rewrite insert_take_drop by by eapply lookup_lt_Some.
  rewrite !concat_app. cbn [concat]. rewrite <-!app_assoc, !app_assoc. do 2 f_equiv. apply Permutation_app_comm.
Qed.

Lemma interleaves_concat {A} (rings : list (list A)) es : interleaves rings es -> es ≡ₚ concat rings.
Proof.
  induction 1 as [rings Hr|rings es c r e Hc _ IH]; [by induction Hr as [|? ? <-]|].
  rewrite (concat_ring _ c [e] r) by (rewrite list_lookup_insert_eq by (by eapply lookup_lt_Some); done).
  by rewrite list_insert_insert_eq, list_insert_id, <-IH by done.
Qed.

Lemma sublists_concat {A} (xs ys : list (list A)) : Forall2 sublist xs ys -> concat xs `sublist_of` concat ys.
Proof. induction 1; [done|]. by apply sublist_app. Qed.

(** What the reader of a buffer sends, whatever order it reads the rings in. *)
Lemma reads_kept {A} typ (encode : A -> bytes) (view : A -> Event) rings recs rings' :
  reads encode rings recs rings' ->
  (forall e pad, e ∈ concat rings -> decode_record typ 0 (encode e ++ pad) = Val (Some (view e))) ->
  exists kept kepts, interleaves kepts kept /\ Forall2 sublist kepts rings /\
    runEventsReader typ recs = (map view kept, false) /\
    Z.of_nat (length (concat rings)) = Z.of_nat (length kept) + lost recs + Z.of_nat (length (concat rings')).
Proof.
  induction 1 as [rings|rings recs rings' c e r pad Hc _ IH|rings recs rings' c gone r raw Hc Hg _ IH]; intros Hd.
  - exists [], (replicate (length rings) []). split_and!; [|by apply Forall2_replicate_l, Forall_true; auto using sublist_nil_l|done|cbn; lia].
    constructor. by apply Forall_replicate.
  - pose proof (concat_ring rings c [e] r Hc) as Hp.
    destruct IH as (kept & kepts & Hi & Hs & Hrun & Hlen).
    { intros e' pad' He'. apply Hd. rewrite Hp. by right. }
    destruct (Forall2_lookup_r _ _ _ c r Hs) as (k & Hk & Hkr);
      [apply list_lookup_insert_eq; by eapply lookup_lt_Some|].
    exists (e :: kept), (<[c := e :: k]> kepts). split_and!.
    + by constructor.
    + rewrite <-(list_insert_id _ _ _ Hc), <-(list_insert_insert_eq rings c (e :: r) r).
      apply Forall2_insert; [done|by constructor].
    + cbn [runEventsReader]. rewrite Hd by (rewrite Hp; by left). by rewrite Hrun.
    + rewrite Hp, length_app. cbn [length lost foldr fst]. fold (lost recs). lia.
  - pose proof (concat_ring rings c gone r Hc) as Hp.
    destruct IH as (kept & kepts & Hi & Hs & Hrun & Hlen).
    { intros e' pad' He'. apply Hd. rewrite Hp. apply elem_of_app. by right. }
    destruct (Forall2_lookup_r _ _ _ c r Hs) as (k & Hk & Hkr);
      [apply list_lookup_insert_eq; by eapply lookup_lt_Some|].
    exists kept, kepts. split_and!; [done| | |].
    + rewrite <-(list_insert_id _ _ _ Hc), <-(list_insert_insert_eq rings c (gone ++ r) r), <-(list_insert_id _ _ _ Hk).
      apply Forall2_insert; [done|by apply sublist_inserts_l].
    + cbn [runEventsReader]. rewrite (decode_record_lost typ); [exact Hrun|].
      destruct gone; [done|]. cbn [length]. lia.
    + rewrite Hp, length_app. cbn [lost foldr fst]. fold (lost recs). lia.
Qed.

(** The contract of a reader for the events [es] of its buffer: however they are split
    over the rings, and whatever is lost or not read yet, it does not panic and sends
    the decoded [kept] ones, which keep the order of each CPU; each event is sent once,
    counted in a record of lost samples or not read; and when there are neither of
    the last, all are sent. *)
Definition delivers {A} (typ : perfMapType) (encode : A -> bytes) (view : A -> Event) (es : list A) : Prop :=
  forall rings recs rings', interleaves rings es -> reads encode rings recs rings' ->
  exists kept kepts, runEventsReader typ recs = (map view kept, false) /\
    interleaves kepts kept /\ Forall2 sublist kepts rings /\
    Z.of_nat (length es) = Z.of_nat (length kept) + lost recs + Z.of_nat (length (concat rings')) /\
    (lost recs = 0 -> concat rings' = [] -> kept ≡ₚ es).

Lemma delivers_decoded {A} typ (encode : A -> bytes) (view : A -> Event) es :
  (forall e pad, e ∈ es -> decode_record typ 0 (encode e ++ pad) = Val (Some (view e))) ->
  delivers typ encode view es.
Proof.
  intros Hd rings recs rings' Hi Hr. pose proof (interleaves_concat _ _ Hi) as Hp.
  destruct (reads_kept typ encode view _ _ _ Hr) as (kept & kepts & Hk & Hs & Hrun & Hlen).
  { intros e pad He. apply Hd. by rewrite Hp. }
  rewrite <-Hp in Hlen. exists kept, kepts. split_and!; try done. intros Hz Hnil.
  rewrite Hz, Hnil in Hlen. cbn in Hlen. rewrite Hp. rewrite Hp in Hlen.
  pose proof (interleaves_concat _ _ Hk) as Hkp. rewrite Hkp in Hlen |- *.
  apply submseteq_length_Permutation; [by apply sublist_submseteq, sublists_concat|lia].
Qed.

Lemma tcp_delivers es : Forall tcp_event_typed es -> delivers perfMapTypeTCPEvents tcp_event_bytes tcp_delivered es.
Proof.
  intros Hes. apply delivers_decoded. intros e pad He. eapply Forall_forall in Hes; [|exact He].
  rewrite <-tcp_view_typed by done.
  destruct Hes as (_ & _ & _ & _ & _ & _ & _ & _ & _ & _ & [? _] & [? _] & [? _]). by apply decode_tcp.
Qed.

(** C5: From the programs to the readers: through every run whose contexts, clocks and
    pids have the kernel's types, whichever CPUs the events of a perf buffer are
    reported on, in whatever order its rings are read, and whatever samples full rings
    lose, the reader of each of the six buffers never panics and sends the fields the
    programs wrote (a duration is read as a signed number, and the payload of a request
    cut at its size).  It sends a subsequence of the events of each CPU, in their order,
    and every event is sent once, counted by a record of lost samples, or still in a
    ring; so when nothing is lost and the rings are empty it has sent all. *)
Theorem kernel_events_delivered tr :
  trace_typed tr ->
  let s := ObjectSpec.exec Object.init tr in
  let t := L7.tcp (Object.l7 s) in
  delivers perfMapTypeProcEvents proc_event_bytes proc_delivered (Proc.proc_events (Object.proc s)) /\
  delivers perfMapTypeFileEvents file_event_bytes file_delivered (File.file_events (Object.files s)) /\
  delivers perfMapTypeTCPEvents tcp_event_bytes tcp_delivered (Tcp.tcp_listen_events t) /\
  delivers perfMapTypeTCPEvents tcp_event_bytes tcp_delivered (Tcp.tcp_connect_events t) /\
  delivers perfMapTypeTCPEvents tcp_event_bytes tcp_delivered (Tcp.tcp_retransmit_events t) /\
  delivers perfMapTypeL7Events l7_event_bytes l7_delivered (L7.l7_events (Object.l7 s)).
Proof.
  intros Htr s t. destruct (exec_keeps_typed Object.init tr typed_init Htr) as [Hp [_ Hf] [[_ _ _ _ _ Hl Hc Hr] _ _ _ He]].
  fold s in Hp, Hf, Hl, Hc, Hr, He. fold t in Hl, Hc, Hr.
  split_and!; try by apply tcp_delivers.
  - apply delivers_decoded. intros e pad Hin. rewrite <-proc_view_typed; [apply decode_proc|].
    by eapply Forall_forall in Hp.
  - apply delivers_decoded. intros e pad Hin. rewrite <-file_view_typed; [apply decode_file|].
    by eapply Forall_forall in Hf.
  - apply delivers_decoded. intros e pad Hin. eapply Forall_forall in He; [|exact Hin].
    rewrite <-l7_view_typed by done. apply decode_l7.
    by destruct He as (_ & _ & _ & _ & _ & _ & _ & _ & _ & _ & ? & _).
Qed.

(** ** Requests handled by a container *)

Lemma packet_length_msgSize b n :
  (3 <= n)%nat -> mysql_msgSize (take n b) = Mysql.packet_length b.
Proof.
  intros Hn. unfold mysql_msgSize, Mysql.packet_length.
  assert (forall i, (i < 3)%nat -> nth i (take n b) 0 = nth i b 0) as Hi.
  { intros i Hi. rewrite !nth_lookup, lookup_take_lt by lia. done. }
  by rewrite !Hi by lia.
Qed.

(** For every event in the perf buffer, a container handles the request it decodes to
    without a panic, whatever state it is in: the one payload a parser would panic on,
    a MySQL packet that says it is empty, is never reported. *)
Lemma kernel_request_handled `{!ChProtoLaws libs_ch} tr e v c :
  trace_typed tr -> e ∈ L7.l7_events (Object.l7 (ObjectSpec.exec Object.init tr)) ->
  onL7Request v (e_pid e) (e_fd e) (e_connection_timestamp e) (request_delivered e) c <> Panic.
Proof.
  intros Htr Hin.
  destruct (exec_keeps_typed Object.init tr typed_init Htr) as [_ _ [_ _ _ _ He]].
  destruct (Invariant.exec_ok Object.init tr Invariant.ok_init) as [_ _ [_ _ _ _ Hok]].
  eapply Forall_forall in He; [|exact Hin]. eapply Forall_forall in Hok; [|exact Hin].
  destruct He as (_ & _ & _ & _ & _ & _ & _ & _ & _ & Hsize & _ & Hb). destruct Hok as (_ & _ & Hfr).
  apply ContainerSpec.onL7Request_total.
  - by apply Forall_take.
  - cbn. intros Hmy Hlen. specialize (Hfr Hmy). rewrite length_take in Hlen.
    rewrite packet_length_msgSize by lia. lia.
Qed.

(** What the readers of all perf buffers send. *)
Definition kernel_events (s : Object.st) : list Event :=
  map proc_delivered (Proc.proc_events (Object.proc s)) ++
  map file_delivered (File.file_events (Object.files s)) ++
  map tcp_delivered (Tcp.tcp_listen_events (L7.tcp (Object.l7 s))) ++
  map tcp_delivered (Tcp.tcp_connect_events (L7.tcp (Object.l7 s))) ++
  map tcp_delivered (Tcp.tcp_retransmit_events (L7.tcp (Object.l7 s))) ++
  map l7_delivered (L7.l7_events (Object.l7 s)).

Lemma kernel_events_l7 s e :
  e ∈ kernel_events s ->
  L7Request_ e = None \/ exists x, x ∈ L7.l7_events (Object.l7 s) /\ e = l7_delivered x.
Proof.
  unfold kernel_events. rewrite !elem_of_app.
  intros [Hx|[Hx|[Hx|[Hx|[Hx|Hx]]]]]; apply list_elem_of_fmap in Hx as (x & -> & Hx); [by left..|eauto].
Qed.

(** The files an input makes the agent look for functions in: none has one whose size
    cannot be allocated. *)
Definition input_files_ok (vi : renv * input) : Prop :=
  match vi.2 with
  | TracerEvent e => Attach.tls_ok (tls_of vi.1 (Pid e))
  | Instrument _ _ python nodejs => Forall Attach.file_ok python /\ Forall Attach.file_ok nodejs
  | _ => True
  end.

Lemma on_probes_total attach k pid r : (forall p, Attach.total (attach p)) -> on_probes attach k pid r <> Panic.
Proof.
  intros Ha. unfold on_probes, attach_probes.
  destruct (containersByPid r !! pid) as [l|]; [|done]. destruct (containers r !! l) as [c|]; [|done].
  destruct (processes (c_state c) !! pid) as [p|]; [|done]. by destruct (Ha (Probes p) k) as [[q k'] ->].
Qed.

Lemma handle_event_total `{!ChProtoLaws libs_ch} `{!AsmLaws _} tr v e r :
  trace_typed tr -> e ∈ kernel_events (ObjectSpec.exec Object.init tr) -> Attach.tls_ok (tls_of v (Pid e)) ->
  handle_event v e r <> Panic.
Proof.
  intros Htr Hin Hf. unfold handle_event. cbv zeta. repeat (case_match; try done).
  - apply on_probes_total. intros p. by apply Attach.total_attach_tls.
  - unfold on_l7_request.
    destruct (kernel_events_l7 _ e Hin) as [->|(x & Hx & ->)]; [done|]. cbn [L7Request_ l7_delivered].
    destruct (containersByPid r !! _) as [l|]; [|done]. destruct (containers r !! l) as [c|]; [|done].
    destruct (onL7Request _ _ _ _ _ _) as [|[c' m]] eqn:E; [|done].
    by destruct (kernel_request_handled tr x (container_env v r) (c_state c) Htr Hx).
Qed.

Lemma handle_total `{!ChProtoLaws libs_ch} `{!AsmLaws _} tr v i r :
  trace_typed tr -> input_files_ok (v, i) ->
  (forall e, i = TracerEvent e -> e ∈ kernel_events (ObjectSpec.exec Object.init tr)) ->
  handle v i r = Panic <-> exists pid reads python nodejs, i = Instrument pid reads python nodejs /\ Apps.sees_nameless reads.
Proof.
  intros Htr Hf Hin. split.
  - destruct i as [| | | |e|pid reads python nodejs|]; try done; cbn [handle input_files_ok snd fst] in *.
    + intros Hp. by destruct (handle_event_total tr v e r Htr (Hin e eq_refl) Hf).
    + intros Hp. exists pid, reads, python, nodejs. split; [done|]. apply Apps.instrument_panics.
      destruct (Apps.instrument reads) as [|[py nd]]; [done|]. exfalso. destruct Hf as [Hpy Hnd].
      destruct (on_probes (Attach.instrumentPython py python) _ _ _) as [|r1] eqn:E.
      * eapply on_probes_total, E. intros p. by apply Attach.total_instrumentPython.
      * eapply on_probes_total, Hp. intros p. by apply Attach.total_instrumentNodejs.
  - intros (pid & reads & python & nodejs & -> & Hn%Apps.instrument_panics). cbn [handle]. by rewrite Hn.
Qed.

(** C6: Nothing the kernel reports crashes the loop of the agent: for every run of the
    object with typed contexts, whichever of its events arrive, in whatever order,
    interleaved with counter updates, ticks, collections and the instrumentation of
    processes, and from whatever state, if no executable and library that is searched
    for functions to probe has a symbol of a size that cannot be allocated, the loop
    and the goroutines that instrument panic exactly when one of these comes to a
    command line whose first argument is not empty but all white space.  The probes on
    TLS libraries that a new connection attaches are part of it; what opening a file
    starts, and the race on the map of connection attempts, which the tick reads without
    the lock of the container, are not. *)
Theorem agent_panics_only_on_blank `{!ChProtoLaws libs_ch} `{!AsmLaws _} tr inputs r :
  trace_typed tr ->
  (forall v e, (v, TracerEvent e) ∈ inputs -> e ∈ kernel_events (ObjectSpec.exec Object.init tr)) ->
  Forall input_files_ok inputs ->
  handleEvents inputs r = Panic <->
  exists v pid reads python nodejs, (v, Instrument pid reads python nodejs) ∈ inputs /\ Apps.sees_nameless reads.
Proof.
  intros Htr. revert r. induction inputs as [|[v i] inputs IH]; intros r Hin Hf; cbn [handleEvents].
  { split; [done|]. intros (? & ? & ? & ? & ? & []%not_elem_of_nil & _). }
  apply Forall_cons in Hf as [Hf Hfs].
  assert (forall e, i = TracerEvent e -> e ∈ kernel_events (ObjectSpec.exec Object.init tr)) as Hi
    by (intros e ->; apply (Hin v e); by left).
  pose proof (handle_total tr v i r Htr Hf Hi) as Hh. destruct (handle v i r) as [|r'].
  - split; [|done]. intros _. destruct Hh as [(pid & reads & python & nodejs & -> & Hp) _]; [done|].
    exists v, pid, reads, python, nodejs. split; [by left|done].
  - rewrite IH by (try done; intros v' e He; apply (Hin v' e); by right).
    split; intros (v' & pid & reads & python & nodejs & Hx & Hp); exists v', pid, reads, python, nodejs; (split; [|done]); [by right|].
    apply elem_of_cons in Hx as [[= -> <-]|Hx]; [|done]. destruct Hh as [_ Hh]. by discriminate Hh; eauto 10.
Qed.

(** ** An HTTP request, end to end *)

(** The payload of a request the kernel kept [bs] of, as the agent gets it. *)
Lemma delivered_payload e bs :
  take (length bs) (e_payload e) = bs -> Z.of_nat (length bs) <= e_payload_size e ->
  (length bs <= 1023)%nat -> exists rest, r_Payload (request_delivered e) = bs ++ rest.
Proof.
  intros Hbs Hl Hm. cbn. change MAX_PAYLOAD_SIZE with 1024.
  exists (drop (length bs) (take (Z.to_nat (Z.min (e_payload_size e) 1024)) (e_payload e))).
  etrans; [symmetry; apply take_drop|]. f_equal. rewrite take_take, Nat.min_l by lia. exact Hbs.
Qed.

(** The span of a container, unless one of its processes opted out of tracing. *)
Definition trace_of (v : cenv) (a : ActiveConnection) (c : st) : Tracing.trace :=
  if existsb (fun kp => EbpfTracesDisabled kp.2) (map_to_list (processes c)) then None
  else Tracing.NewTrace (tracer v) (ActualDestinationIfKnown (DestinationKey_ a)).

(** The HTTP requests a container has counted to a destination, by labels, and the
    durations it has observed. *)
Definition requests_of (key : DestinationKey) (labels : list bytes) (c : st) : Z :=
  match l7Stats c !! (ProtocolHTTP, key) with Some m => default 0 (Requests m !! labels) | None => 0 end.
Definition latencies_of (key : DestinationKey) (c : st) : list Z :=
  match l7Stats c !! (ProtocolHTTP, key) with Some m => default [] (Latency m) | None => [] end.

(** The histogram of durations is there for every destination of HTTP requests. *)
Definition http_histograms (c : st) : Prop :=
  forall key m, l7Stats c !! (ProtocolHTTP, key) = Some m -> is_Some (Latency m).

(** The class of a status: its first digit. *)
Definition class_of (status : Z) : bytes :=
  if (100 <=? status) && (status <=? 599) then (48 + status / 100) :: str "xx" else str "unknown".

(** [c'] is [c] with one more request of a class and a duration, unless that is zero. *)
Definition request_added (key : DestinationKey) (class : bytes) (d : Z) (c c' : st) : Prop :=
  (forall k labels, requests_of k labels c' =
     requests_of k labels c + if decide (k = key /\ labels = [class]) then 1 else 0) /\
  (forall k, latencies_of k c' = latencies_of k c ++ if decide (k = key /\ d <> 0) then [d] else []) /\
  (forall protocol k, protocol <> ProtocolHTTP -> l7Stats c' !! (protocol, k) = l7Stats c !! (protocol, k)).

(** Whether a span is recorded: no process of the container opted out, there is an
    exporter, and the number drawn is below the rate of sampling. *)
Definition traced (v : cenv) (c : st) : bool :=
  let rate := Tracing.samplingRate (tracer v) in
  forallb (fun kp => negb (EbpfTracesDisabled kp.2)) (map_to_list (processes c)) && Tracing.otel (tracer v) &&
  (QArith_base.Qle_bool (QArith_base.inject_Z 1) rate ||
   negb (QArith_base.Qle_bool rate (QArith_base.inject_Z 0)) && negb (QArith_base.Qle_bool rate (Tracing.Float64 (tracer v) 0))).

Lemma Status_Http_class status : Status_Http status = class_of status.
Proof.
  unfold Status_Http, class_of.
  assert (forall k, 100 * k <= status < 100 * k + 100 -> status / 100 = k) as Hdiv
    by (intros k Hk; symmetry; apply (Z.div_unique _ _ _ (status - 100 * k)); lia).
  destruct (Z.leb_spec 100 status), (Z.ltb_spec status 200), (Z.leb_spec 200 status), (Z.ltb_spec status 300),
    (Z.leb_spec 300 status), (Z.ltb_spec status 400), (Z.leb_spec 400 status), (Z.ltb_spec status 500),
    (Z.leb_spec 500 status), (Z.ltb_spec status 600), (Z.leb_spec status 599); cbn [andb]; try lia; try done.
  all: first [rewrite (Hdiv 1) by lia|rewrite (Hdiv 2) by lia|rewrite (Hdiv 3) by lia|rewrite (Hdiv 4) by lia
             |rewrite (Hdiv 5) by lia]; reflexivity.
Qed.

Lemma forallb_negb_existsb {A} (f : A -> bool) l : forallb (fun x => negb (f x)) l = negb (existsb f l).
Proof. induction l as [|x l IH]; cbn; [done|]. rewrite IH. by destruct (f x). Qed.

Lemma traced_spans v a c method uri status d :
  method <> [] ->
  Tracing.HttpRequest (trace_of v a c) method uri status d =
  if traced v c then
    let dst := ActualDestinationIfKnown (DestinationKey_ a) in
    [Tracing.Span method d (400 <=? status)
       [Tracing.HTTPURL (str "http://" ++ HostPort_String dst ++ uri); Tracing.HTTPMethod method;
        Tracing.HTTPStatusCode status; Tracing.NetPeerName (Host dst); Tracing.NetPeerPort (hp_port dst)]]
  else [].
Proof.
  intros Hm. unfold trace_of, traced.
  rewrite (forallb_negb_existsb (fun kp : Z * Process => EbpfTracesDisabled kp.2)).
  destruct (existsb _ _); cbn [negb andb]; [done|]. cbn [Tracing.NewTrace Tracing.HttpRequest].
  unfold bytes_eqb. rewrite bool_decide_eq_false_2 by done. unfold Tracing.createSpan, Tracing.shouldSample.
  cbn [Tracing.tr_tracer Tracing.tr_destination Tracing.tr_calls]. rewrite Z.geb_leb.
  destruct (Tracing.otel (tracer v)); cbn [negb andb]; [|done].
  destruct (QArith_base.Qle_bool _ (Tracing.samplingRate _)); cbn [orb]; [done|].
  destruct (QArith_base.Qle_bool _ (QArith_base.inject_Z 0)); cbn [negb andb]; [done|].
  by destruct (QArith_base.Qle_bool _ _).
Qed.

(** What [observe] does to the metrics of HTTP. *)
Lemma observe_request_added key status d c c' :
  http_histograms c ->
  l7Stats c' = <[(ProtocolHTTP, key) := l7_observe (Status_Http status) [] d (l7_get ProtocolHTTP key (l7Stats c))]> (l7Stats c) ->
  request_added key (class_of status) d c c'.
Proof.
  intros Hh E. rewrite Status_Http_class in E. unfold request_added, requests_of, latencies_of. rewrite E. split_and!.
  - intros k labels. destruct (decide (k = key)) as [->|Hne].
    + rewrite lookup_insert_eq. unfold l7_get. cbn [l7_observe Requests]. unfold inc. cbn [bytes_eqb bool_decide].
      change (l7_protocol ProtocolHTTP) with ProtocolHTTP. change (bytes_eqb [] []) with true. cbn beta iota.
      destruct (decide (labels = [class_of status])) as [->|Hl].
      * rewrite lookup_insert_eq. destruct (l7Stats c !! _); by rewrite decide_True by done.
      * rewrite lookup_insert_ne by done. rewrite (decide_False (P := _ /\ _)) by (by intros [_ ?]).
        rewrite Z.add_0_r. by destruct (l7Stats c !! _).
    + rewrite lookup_insert_ne by congruence. rewrite decide_False by (by intros [? _]). lia.
  - intros k. destruct (decide (k = key)) as [->|Hne].
    + rewrite lookup_insert_eq. unfold l7_get. change (l7_protocol ProtocolHTTP) with ProtocolHTTP. cbn [l7_observe Latency].
      destruct (Z.eqb_spec d 0) as [->|Hd].
      * rewrite decide_False by (by intros [_ ?]). rewrite app_nil_r. by destruct (l7Stats c !! _).
      * rewrite decide_True by done. destruct (l7Stats c !! _) as [m|] eqn:Em; [|done].
        destruct (Hh _ _ Em) as [ls El]. cbn. by rewrite El.
    + rewrite lookup_insert_ne by congruence. rewrite decide_False by (by intros [? _]). by rewrite app_nil_r.
  - intros protocol k Hp. rewrite lookup_insert_ne; [done|]. congruence.
Qed.

(** A decoded HTTP request on a connection of the container. *)
Lemma onL7Request_http v pid fd timestamp r c l a method uri :
  connectionsByPidFd c !! MkPidFd pid fd = Some l -> heap c !! l = Some a -> ac_Timestamp a = timestamp ->
  r_Protocol r = ProtocolHTTP -> ParseHttp (r_Payload r) = (method, uri) ->
  http_ShouldBeSkipped (HttpFilter_ v) uri = false ->
  exists c', onL7Request v pid fd timestamp r c = Val (c', ∅) /\
    l7Stats c' = <[(ProtocolHTTP, DestinationKey_ a) :=
      l7_observe (Status_Http (r_Status r)) [] (r_Duration r) (l7_get ProtocolHTTP (DestinationKey_ a) (l7Stats c))]>
      (l7Stats c) /\
    spans c' = spans c ++ Tracing.HttpRequest (trace_of v a c) method uri (r_Status r) (r_Duration r).
Proof.
  intros Hl Ha Ht Hp Hparse Hskip. unfold onL7Request. rewrite Hp. cbn [Z.eqb ProtocolHTTP ProtocolDNS Pos.eqb].
  rewrite Hl, Ha, Ht, Z.eqb_refl, andb_false_r. cbv zeta. unfold handle_request. rewrite Hp.
  cbn [Z.eqb ProtocolHTTP Pos.eqb]. rewrite Hparse, Hskip. eexists. split; [reflexivity|]. split; [|done].
  cbn. unfold l7_get. cbn [l7_protocol Z.eqb ProtocolHTTP ProtocolHTTP2 Pos.eqb].
  rewrite lookup_insert_eq. cbn. by rewrite insert_insert_eq.
Qed.


(** ** A query cut off without a mark *)

(** The kernel copies at most 1023 bytes of a payload but the agent takes 1024, so
    the last byte of a longer one is always zero: a Postgres query that was cut off
    ends for the parser, and is reported without the ellipsis that marks one that
    was. *)
Theorem truncated_query_unmarked tr e p :
  e ∈ L7.l7_events (Object.l7 (ObjectSpec.exec Object.init tr)) ->
  MAX_PAYLOAD_SIZE <= e_payload_size e -> (e_payload e).[0] = PostgresFrameQuery ->
  let query := take 1018 (drop 5 (e_payload e)) in
  free 0 query -> (Postgres_Parse p (r_Payload (request_delivered e))).1 = query.
Proof.
  intros Hin Hsize Hcmd query Hfree. change MAX_PAYLOAD_SIZE with 1024 in *.
  destruct (Invariant.exec_ok Object.init tr Invariant.ok_init) as [_ _ [_ _ _ _ Hok]].
  eapply Forall_forall in Hok; [|exact Hin]. destruct Hok as ([Hl Hz] & _).
  change (Z.to_nat MAX_PAYLOAD_SIZE) with 1024%nat in Hl.
  cbn [r_Payload request_delivered]. change MAX_PAYLOAD_SIZE with 1024.
  rewrite Z.min_r by lia. change (Z.to_nat 1024) with 1024%nat. rewrite <-Hl, firstn_all.
  unfold Postgres_Parse. rewrite Hl, Hcmd. cbn [Nat.ltb Nat.leb Z.eqb PostgresFrameQuery Pos.eqb].
  assert (drop 5 (e_payload e) = query ++ 0 :: []) as ->.
  { unfold query. rewrite <-(take_S_r _ 1018 0); [by rewrite take_ge by (rewrite length_drop; lia)|].
    rewrite lookup_drop. destruct (e_payload e !! (5 + 1018)%nat) eqn:E.
    - rewrite nth_lookup in Hz. cbn [plus] in E. rewrite E in Hz. cbn in Hz. by subst.
    - apply lookup_ge_None in E. lia. }
  by rewrite Cut_app.
Qed.

End delivery.

(** ** A concrete run *)

#[local] Existing Instance X86.arch.
#[local] Existing Instance ContainerSpec.plain_libs.
#[local] Existing Instance Attach.byte_asm.

(** A process connects its descriptor 5; its memory holds a request and a response. *)
Definition demo_memory (request response : list Z) : mem :=
  overlay (overlay mem_empty 4096 request) 8192 response.
Definition demo_at (m : mem) (t : Z) : env := env_at (77 * 2^32 + 78) t m.
Definition demo_connect (m : mem) : ObjectSpec.trace :=
  [(demo_at m 90, Object.sys_enter_connect (Some 5));
   (demo_at m 100, Object.inet_sock_set_state
      (Some (Tcp.transition Tcp.demo_socket Tcp.BPF_TCP_CLOSE Tcp.BPF_TCP_SYN_SENT)));
   (env_at 0 150 m, Object.inet_sock_set_state
      (Some (Tcp.transition Tcp.demo_socket Tcp.BPF_TCP_SYN_SENT Tcp.BPF_TCP_ESTABLISHED)))].
Definition demo_exchange (m : mem) (wsize ret : Z) : ObjectSpec.trace :=
  [(demo_at m 200, Object.sys_enter_write (L7.RwArgs 5 4096 wsize));
   (demo_at m 300, Object.sys_enter_read (L7.RwArgs 5 8192 512)); (demo_at m 450, Object.sys_exit_read ret)].

Lemma demo_trace_typed m wsize ret :
  is_u64 wsize -> is_s64 ret -> trace_typed (demo_connect m ++ demo_exchange m wsize ret).
Proof.
  intros Hw Hr. assert (forall t, is_u64 t -> env_typed (demo_at m t)) as Hv by (by split; [|intros ?]).
  assert (forall x y, state_args_typed (Tcp.transition Tcp.demo_socket x y)) as Hs.
  { intros x y. split_and!; try done; (split; [done|]); apply Forall_replicate; lia. }
  assert (env_typed (env_at 0 150 m)) as H0 by (by split; [|intros ?]).
  unfold demo_connect, demo_exchange. cbn [app].
  repeat (apply Forall_cons_2; [split; [first [exact H0|by apply Hv]|]|]); [..|by apply Forall_nil_2]; cbn.
  - by intros ? [= <-].
  - intros ? [= <-]. apply Hs.
  - intros ? [= <-]. apply Hs.
  - by split_and!.
  - by split_and!.
  - done.
Qed.

Definition demo_http_memory : mem := demo_memory L7Pairing.http_get L7Pairing.http_no_content.

Definition demo_http_trace : ObjectSpec.trace :=
  demo_connect demo_http_memory ++ demo_exchange demo_http_memory 18 27.

Lemma demo_http_trace_typed : trace_typed demo_http_trace.
Proof. apply demo_trace_typed; split; lia. Qed.

(** Two requests, reported on two CPUs; the reader gets the second one first, and that the
    ring of the other lost one sample. *)
Definition demo_two_trace : ObjectSpec.trace := demo_http_trace ++ demo_exchange demo_http_memory 18 27.

Lemma demo_two_trace_typed : trace_typed demo_two_trace.
Proof.
  apply Forall_app. split; [exact demo_http_trace_typed|].
  pose proof (demo_trace_typed demo_http_memory 18 27) as Ht. apply Forall_app in Ht as [_ Ht]; [exact Ht|split; lia|split; lia].
Qed.

Lemma kernel_events_delivered_witness :
  match L7.l7_events (Object.l7 (ObjectSpec.exec Object.init demo_two_trace)) with
  | [e1; e2] => exists kept,
      runEventsReader perfMapTypeL7Events [(0, l7_event_bytes e2 ++ [0; 0; 0; 0]); (1, [])] = (map l7_delivered kept, false) /\
      length kept = 1%nat
  | _ => False
  end.
Proof.
  assert (length (L7.l7_events (Object.l7 (ObjectSpec.exec Object.init demo_two_trace))) = 2%nat) as El by by vm_compute.
  pose proof (kernel_events_delivered demo_two_trace demo_two_trace_typed) as (_ & _ & _ & _ & _ & Hd).
  destruct (L7.l7_events _) as [|e1 [|e2 [|]]]; try done. clear El.
  destruct (Hd [[e1]; [e2]] [(0, l7_event_bytes e2 ++ [0; 0; 0; 0]); (1, [])] [[]; []]) as (kept & kepts & Hrun & _ & _ & Hl & _).
  - apply (interleaves_cons [[]; [e2]] _ 0 [] e1); [done|]. apply (interleaves_cons [[]; []] _ 1 [] e2); [done|].
    apply interleaves_nil. repeat constructor.
  - apply (reads_sample _ [[e1]; [e2]] _ _ 1 e2 [] [0; 0; 0; 0]); [done|].
    apply (reads_lost _ [[e1]; []] _ _ 0 [e1] []); [done|done|]. apply reads_stop.
  - exists kept. split; [exact Hrun|]. cbn in Hl. lia.
Defined.

Lemma agent_panics_only_on_blank_witness :
  let s := ObjectSpec.exec Object.init demo_http_trace in
  let v := RegistrySpec.demo_renv 500 RegistrySpec.demo_cgroup_file in
  let r := on_process_start v 77 (NewRegistry ∅) in
  let inputs reads := (v, Tick 400) :: (v, Instrument 77 reads [None] []) ::
                        map (fun e => (v, TracerEvent e)) (kernel_events s) in
  length (kernel_events s) = 2%nat /\
  handleEvents (inputs [(Some (str "/bin/sh"), str "sh")]) r <> Panic /\
  handleEvents (inputs [(Some (str "/bin/sh"), [32])]) r = Panic.
Proof.
  intros s v r inputs. split; [by vm_compute|].
  assert (forall reads v' e, (v', TracerEvent e) ∈ inputs reads ->
            e ∈ kernel_events (ObjectSpec.exec Object.init demo_http_trace)) as Hin.
  { intros reads v' e [[= ]|[[= ]|He]%elem_of_cons]%elem_of_cons. fold s.
    apply list_elem_of_fmap in He as (e' & [= _ ->] & He). exact He. }
  assert (forall reads, Forall input_files_ok (inputs reads)) as Hf.
  { intros reads. apply Forall_cons_2; [exact I|]. apply Forall_cons_2.
    - split; [|constructor]. apply Forall_cons_2; [by intros f|constructor].
    - apply Forall_map, Forall_true. intros e. by split; intros f. }
  pose proof (fun reads => @agent_panics_only_on_blank X86.arch ContainerSpec.plain_libs Attach.byte_asm
    ContainerSpec.plain_ch_laws Attach.byte_asm_laws demo_http_trace (inputs reads) r demo_http_trace_typed (Hin reads) (Hf reads)) as Hp.
  split.
  - intros (v' & pid & reads & python & nodejs & [[= ]|[[= _ _ -> _ _]|He]%elem_of_cons]%elem_of_cons & E)%Hp.
    + apply Apps.instrument_panics in E. by vm_compute in E.
    + by apply list_elem_of_fmap in He as (e' & [= ] & _).
  - apply Hp. exists v, 77, [(Some (str "/bin/sh"), [32])], [None], []. split.
    + apply elem_of_cons. right. apply elem_of_cons. by left.
    + by apply Apps.instrument_panics; vm_compute.
Defined.

(** The container of that process. *)
Definition demo_ops : list ContainerSpec.op :=
  [ContainerSpec.ProcessStart 77 (Some 5) false;
   ContainerSpec.ConnectionOpen (ContainerSpec.demo_env 150) 77 5 (ContainerSpec.demo_addr 1 40000)
     (ContainerSpec.demo_addr 9 80) (ContainerSpec.demo_addr 9 80) 100 false 50 ∅].


(** A query of 2000 bytes, answered. *)
Definition demo_query_memory : mem :=
  demo_memory ([81; 0; 0; 7; 207] ++ replicate 1994 120 ++ [0]) [67; 0; 0; 0; 4].
Definition demo_query_trace : ObjectSpec.trace :=
  demo_connect demo_query_memory ++ demo_exchange demo_query_memory 2000 5.

Lemma truncated_query_unmarked_witness :
  match L7.l7_events (Object.l7 (ObjectSpec.exec Object.init demo_query_trace)) with
  | [e] => e_payload_size e = 2000 /\
           (Postgres_Parse ∅ (r_Payload (request_delivered e))).1 = take 1018 (drop 5 (e_payload e))
  | _ => False
  end.
Proof.
  assert (map (fun e => (e_payload_size e, (e_payload e).[0],
      forallb (fun b => negb (b =? 0)) (take 1018 (drop 5 (e_payload e)))))
    (L7.l7_events (Object.l7 (ObjectSpec.exec Object.init demo_query_trace))) = [(2000, 81, true)]) as E
    by by vm_compute.
  pose proof (fun e => truncated_query_unmarked demo_query_trace e ∅) as Hq.
  destruct (L7.l7_events _) as [|e [|]]; [done| |done].
  injection E as Es Ec Ef. split; [done|]. apply Hq; [by left|by rewrite Es|done|].
  apply Forall_forall. intros b Hb%list_elem_of_In. rewrite forallb_forall in Ef.
  apply Ef, negb_true_iff, Z.eqb_neq in Hb. done.
Defined.

End Delivery.
