(* ===== verification/ProcNet.v ===== *)
(** * Sockets of a process

    proc/net.go: the reader of the tables /proc/PID/net/tcp and tcp6, whose rows the
    collector of a container compares with the connections it knows.  A table as the
    kernel prints it is read back; the collection of a container is composed with the
    reader. *)

From S2P Require Import Prelude GoLib GoText GoLines Net Decode Container ContainerSpec.

Module ProcNet.
Import GoText GoLines Container ContainerSpec.

(** ** Files *)

(** What opening and reading a file gives. *)
Inductive file := NotExist | OpenError | Content (data : bytes).

(** [hex.Decode(dst, src)] with [room] bytes left in [dst], which holds zeros: panics
    when there are more, [None] is an error. *)
Definition fromHexChar (c : Z) : option Z :=
  if (48 <=? c) && (c <=? 57) then Some (c - 48)
  else if (97 <=? c) && (c <=? 102) then Some (c - 87)
  else if (65 <=? c) && (c <=? 70) then Some (c - 55)
  else None.

Fixpoint hex_Decode (room : nat) (src : bytes) : go (option bytes) :=
  match src with
  | p :: q :: src =>
      match fromHexChar p, fromHexChar q with
      | Some a, Some b =>
          match room with
          | O => Panic
          | S room => let! dst := hex_Decode room src in Val (cons (a * 16 + b) <$> dst)
          end
      | _, _ => Val None
      end
  | [_] => Val None
  | [] => Val (Some (replicate room 0))
  end.

(** ** The reader *)

Section reader.
Context `{Libs}.

Definition space : Z := 32.

(** The first loop: a slice of spaces only is left as it is. *)
Fixpoint skip_spaces (s0 s : bytes) : bytes :=
  match s with
  | [] => s0
  | b :: s' => if b =? space then skip_spaces s0 s' else s
  end.

Fixpoint split_space (s : bytes) : option (bytes * bytes) :=
  match s with
  | [] => None
  | b :: s' => if b =? space then Some ([], s)
               else let? (f, rest) := split_space s' else None in Some (b :: f, rest)
  end.

Definition nextField (s : bytes) : bytes * bytes :=
  default ([], []) (split_space (skip_spaces s s)).

(** The loop over the words of an address: each is read in one byte order and written
    in the other. *)
Fixpoint swap_words (ip : bytes) : bytes :=
  match ip with
  | a :: b :: c :: d :: ip => d :: c :: b :: a :: swap_words ip
  | _ => ip
  end.

Definition decodeAddr (src : bytes) : go IPPort :=
  let? col := Index src [58] else Val IPPort_zero in
  if negb (col =? 8)%nat && negb (col =? 32)%nat then Val IPPort_zero
  else
  let! ip := hex_Decode (col / 2) (take col src) in
  let? ip := ip else Val IPPort_zero in
  let! port := hex_Decode 2 (drop (col + 1) src) in
  let? port := port else Val IPPort_zero in
  let? ipp := FromStdIP (swap_words ip) else Val IPPort_zero in
  Val (IPPortFrom ipp (be port)).

Definition stateEstablished : bytes := str "01".
Definition stateListen : bytes := str "0A".

(** One line of a table; [None] if it is passed over. *)
Definition read_line (b : bytes) : go (option socket) :=
  let '(_, b) := nextField b in
  let '(local, b) := nextField b in
  let '(remote, b) := nextField b in
  let '(state, b) := nextField b in
  if negb (bytes_eqb state stateEstablished) && negb (bytes_eqb state stateListen) then Val None
  else
  let '(_, b) := nextField b in
  let '(_, b) := nextField b in
  let '(_, b) := nextField b in
  let '(_, b) := nextField b in
  let '(_, b) := nextField b in
  let '(inode, _) := nextField b in
  let! saddr := decodeAddr local in
  let! daddr := decodeAddr remote in
  Val (Some (Socket saddr daddr (bytes_eqb state stateListen) inode)).

Fixpoint read_lines (lines : list bytes) : go (list socket) :=
  match lines with
  | [] => Val []
  | b :: lines =>
      let! s := read_line b in
      let! res := read_lines lines in
      Val (match s with Some s => s :: res | None => res end)
  end.

(** The sockets and whether there was an error. *)
Definition readSockets (f : file) : go (list socket * bool) :=
  match f with
  | NotExist => Val ([], false)
  | OpenError => Val ([], true)
  | Content data => let! res := read_lines (tail (ScanLines data)) in Val (res, false)
  end.

Definition GetSockets (tcp tcp6 : file) : go (list socket * bool) :=
  let! (res, e) := readSockets tcp in
  let! (res6, e6) := readSockets tcp6 in
  Val (res ++ res6, e || e6).

(** ** The tables of the kernel *)

(** A row: a column is a number of spaces and a text; [tcp4_seq_show] and
    [tcp6_seq_show] print the words of an address in host order, which is little-endian. *)
Record row := Row {
  sl : nat * bytes;
  local : nat * (bytes * Z);
  remote : nat * (bytes * Z);
  state : nat * Z;
  middle : list (nat * bytes);
  inode : nat * bytes;
  rest : bytes
}.

Definition hex_digit (n : Z) : Z := if n <? 10 then 48 + n else 55 + n.
Definition hex2 (b : Z) : bytes := [hex_digit (b / 16); hex_digit (b mod 16)].

(** An address of 4 or of 16 bytes, each word of it as a little-endian machine holds it. *)
Definition host_order (ip : bytes) : bytes :=
  rev (take 4 ip) ++ rev (take 4 (drop 4 ip)) ++ rev (take 4 (drop 8 ip)) ++ rev (take 4 (drop 12 ip)).

Definition print_addr (a : bytes * Z) : bytes :=
  concat (map hex2 (host_order a.1)) ++ [58] ++ concat (map hex2 (be_bytes 2 a.2)).

Definition column (n : nat) (s : bytes) : bytes := replicate n space ++ s ++ [space].

Definition print_row (r : row) : bytes :=
  column (sl r).1 (sl r).2 ++ column (local r).1 (print_addr (local r).2) ++
  column (remote r).1 (print_addr (remote r).2) ++ column (state r).1 (hex2 (state r).2) ++
  concat (map (fun c => column c.1 c.2) (middle r)) ++ column (inode r).1 (inode r).2 ++ rest r.

Definition print_table (header : bytes) (rows : list row) : bytes :=
  concat (map (fun line => line ++ [10]) (header :: map print_row rows)).

(** Text without spaces, and without the end of a line. *)
Definition word (s : bytes) : Prop := s <> [] /\ Forall (fun b => b <> space) s.
Definition addr_ok (a : bytes * Z) : Prop :=
  (length a.1 = 4%nat \/ length a.1 = 16%nat) /\ bytes_ok a.1 /\ 0 <= a.2 < 65536.

Record row_ok (r : row) : Prop := {
  ok_sl : word (sl r).2;
  ok_local : addr_ok (local r).2;
  ok_remote : addr_ok (remote r).2;
  ok_state : 0 <= (state r).2 < 256;
  ok_middle : length (middle r) = 5%nat /\ Forall (fun c => word c.2) (middle r);
  ok_inode : word (inode r).2;
  ok_line : short_line (print_row r)
}.

(** What a row says. *)
Definition sock_addr (a : bytes * Z) : IPPort :=
  match FromStdIP a.1 with Some ip => IPPortFrom ip a.2 | None => IPPort_zero end.

Definition row_socket (r : row) : option socket :=
  if ((state r).2 =? 1) || ((state r).2 =? 10)
  then Some (Socket (sock_addr (local r).2) (sock_addr (remote r).2) ((state r).2 =? 10) (inode r).2)
  else None.

(** ** Reading what was printed *)

Lemma split_space_word s t : Forall (fun b => b <> space) s -> split_space (s ++ space :: t) = Some (s, space :: t).
Proof.
  induction 1 as [|b s Hb _ IH]; [done|]. cbn [app split_space]. rewrite IH. by destruct (Z.eqb_spec b space).
Qed.

Lemma skip_spaces_app n s t : word s -> skip_spaces (replicate n space ++ s ++ t) (replicate n space ++ s ++ t) = s ++ t.
Proof.
  intros [Hs Hw]. generalize (replicate n space ++ s ++ t) at 1 as s0. intros s0.
  induction n as [|n IH]; cbn [replicate app skip_spaces]; [|by rewrite Z.eqb_refl].
  destruct Hw as [|b s Hb _]; [done|]. cbn. by destruct (Z.eqb_spec b space).
Qed.

(** The space that ends a column stays in front of the next. *)
Lemma nextField_column n s t : word s -> nextField (column n s ++ t) = (s, space :: t).
Proof.
  intros Hs. replace (column n s ++ t) with (replicate n space ++ s ++ space :: t)
    by (unfold column; by rewrite <-!app_assoc).
  unfold nextField. by rewrite (skip_spaces_app n s (space :: t)), split_space_word by apply Hs.
Qed.

Lemma nextField_space n s t : word s -> nextField (space :: column n s ++ t) = (s, space :: t).
Proof. apply (nextField_column (S n)). Qed.

(** *** Hexadecimal numbers *)

Lemma fromHexChar_digit n : 0 <= n < 16 -> fromHexChar (hex_digit n) = Some n.
Proof.
  intros Hn. unfold fromHexChar, hex_digit. destruct (Z.ltb_spec n 10); repeat case_match; try lia; f_equal; lia.
Qed.

Lemma hex_digit_plain n : 0 <= n < 16 -> hex_digit n <> space /\ hex_digit n <> 58.
Proof. intros Hn. unfold hex_digit, space. case_match; lia. Qed.

Lemma hex2_plain b : 0 <= b < 256 -> Forall (fun c => c <> space /\ c <> 58) (hex2 b).
Proof. intros Hb. unfold hex2. repeat constructor; apply hex_digit_plain; mod_lia. Qed.

Lemma hexes_plain s : bytes_ok s -> Forall (fun c => c <> space /\ c <> 58) (concat (map hex2 s)).
Proof. intros Hs. apply Forall_concat, Forall_map. eapply Forall_impl; [exact Hs|]. intros b Hb. by apply hex2_plain. Qed.

Lemma hexes_length s : length (concat (map hex2 s)) = (2 * length s)%nat.
Proof. induction s as [|b s IH]; [done|]. cbn [map concat hex2 app length]. rewrite IH. lia. Qed.

Lemma hex_Decode_hexes s : bytes_ok s -> hex_Decode (length s) (concat (map hex2 s)) = Val (Some s).
Proof.
  induction 1 as [|b s Hb _ IH]; [done|]. cbn [map concat hex2 app length hex_Decode].
  rewrite !fromHexChar_digit by mod_lia. cbn [hex_Decode]. rewrite IH. cbn [fmap option_fmap option_map].
  do 3 f_equal. mod_lia.
Qed.

Lemma swap_words_ok s : (length s = 4 \/ length s = 16)%nat -> bytes_ok s ->
  swap_words (host_order s) = s /\ length (host_order s) = length s /\ bytes_ok (host_order s).
Proof.
  intros [Hs|Hs] Hb; [do 4 (destruct s as [|? s]; [done|])|do 16 (destruct s as [|? s]; [done|])];
    (destruct s; [|done]); (split_and!; [done..|]);
    unfold host_order; cbn [take drop rev app];
    repeat (apply Forall_cons in Hb as [? Hb]); repeat (apply Forall_cons_2; [done|]); constructor.
Qed.

Lemma decodeAddr_print a : addr_ok a -> decodeAddr (print_addr a) = Val (sock_addr a).
Proof.
  destruct a as [ip port]. intros (Hlen & Hb & Hp). cbn [fst snd] in *.
  destruct (swap_words_ok ip Hlen Hb) as (Einv & El & Hs). unfold decodeAddr, print_addr. cbn [fst snd].
  set (h := concat (map hex2 (host_order ip))).
  assert (length h = (2 * length ip)%nat) as Eh by (unfold h; by rewrite hexes_length, El).
  assert (Forall (fun b => b <> 58) h) as Hh.
  { eapply Forall_impl; [by apply hexes_plain|]. by intros ? []. }
  change (h ++ [58] ++ ?k) with (h ++ 58 :: k). rewrite Index_first by done.
  rewrite take_app_length, (cons_middle 58 h), (app_assoc h [58]), drop_app_length' by (rewrite length_app; done).
  replace (length h / 2)%nat with (length (host_order ip)) by (rewrite El, Eh, Nat.mul_comm; by rewrite Nat.div_mul).
  unfold h at 3. rewrite hex_Decode_hexes by done.
  pose proof (hex_Decode_hexes (be_bytes 2 port)) as Ep. rewrite be_bytes_length in Ep.
  rewrite Ep, be_be_bytes by apply Forall_rev, le_bytes_ok. rewrite Einv, Z.mod_small by done. unfold sock_addr. cbn [fst snd].
  destruct Hlen as [Hl|Hl]; rewrite Eh, Hl; cbn; by destruct (FromStdIP ip).
Qed.

Lemma print_addr_word a : addr_ok a -> word (print_addr a).
Proof.
  destruct a as [ip port]. intros (Hlen & Hb & Hp). cbn [fst snd] in *.
  destruct (swap_words_ok ip Hlen Hb) as (_ & _ & Hs). unfold print_addr. cbn [fst snd]. split; [by destruct (concat _)|].
  apply Forall_app. split; [|constructor; [done|]];
    (eapply Forall_impl; [apply hexes_plain|by intros ? []]); [done|apply Forall_rev, le_bytes_ok].
Qed.

Lemma state_word b : 0 <= b < 256 -> word (hex2 b).
Proof. intros Hb. split; [done|]. eapply Forall_impl; [by apply hex2_plain|]. by intros ? []. Qed.

Lemma state_eqb b n : 0 <= b < 256 -> 0 <= n < 256 -> bytes_eqb (hex2 b) (hex2 n) = (b =? n).
Proof.
  intros Hb Hn. unfold bytes_eqb. destruct (Z.eqb_spec b n) as [->|Hne]; [by apply bool_decide_eq_true|].
  apply bool_decide_eq_false. intros E.
  assert (forall x, 0 <= x < 256 -> hex_Decode 1 (hex2 x) = Val (Some [x])) as Hx.
  { intros x Hx. apply (hex_Decode_hexes [x]). by apply Forall_singleton. }
  pose proof (Hx b Hb) as Eb. rewrite E, Hx in Eb by done. congruence.
Qed.

Lemma read_line_print r : row_ok r -> read_line (print_row r) = Val (row_socket r).
Proof.
  intros [Hsl Hl Hr Hst [Hm Hw] Hi _]. unfold read_line, print_row.
  rewrite nextField_column, !nextField_space by (try done; by first [apply print_addr_word|apply state_word]).
  change stateEstablished with (hex2 1). change stateListen with (hex2 10). rewrite !state_eqb by (done || lia).
  unfold row_socket. rewrite <-negb_orb. destruct (_ || _); [cbn [negb]|done].
  destruct (middle r) as [|c1 [|c2 [|c3 [|c4 [|c5 [|]]]]]]; [done..| |done].
  rewrite !Forall_cons in Hw. destruct Hw as (H1 & H2 & H3 & H4 & H5 & _).
  cbn [map concat]. rewrite app_nil_r, <-!app_assoc, !nextField_space by done.
  by rewrite !decodeAddr_print by done.
Qed.

(** *** Tables *)

Lemma read_lines_printed rows :
  Forall row_ok rows -> read_lines (map print_row rows) = Val (omap row_socket rows).
Proof.
  induction 1 as [|r rows Hr _ IH]; [done|]. cbn [map read_lines]. rewrite read_line_print, IH by done.
  cbn [omap list_omap]. by destruct (row_socket r).
Qed.

Lemma readSockets_table header rows :
  short_line header -> Forall row_ok rows ->
  readSockets (Content (print_table header rows)) = Val (omap row_socket rows, false).
Proof.
  intros Hh Hr. unfold readSockets, print_table. rewrite ScanLines_printed; cbn [tail].
  - by rewrite read_lines_printed.
  - constructor; [done|]. apply Forall_map. eapply Forall_impl; [exact Hr|]. by intros r []. 
Qed.

(** ** The collection of a container *)

(** The tables of a process as the kernel prints those of its network namespace. *)
Record namespace := Namespace { header4 : bytes; rows4 : list row; header6 : bytes; rows6 : list row }.

Definition namespace_ok (n : namespace) : Prop :=
  short_line (header4 n) /\ Forall row_ok (rows4 n) /\ short_line (header6 n) /\ Forall row_ok (rows6 n).

Definition rows (n : namespace) : list row := rows4 n ++ rows6 n.

Definition alive (n : namespace) : file * file :=
  (Content (print_table (header4 n) (rows4 n)), Content (print_table (header6 n) (rows6 n))).

(** The collector reads the sockets of its processes from their [tables]. *)
Definition reads (g : genv) (tables : Z -> file * file) : Prop :=
  forall pid, pid ∈ g_pids g -> exists res e,
    GetSockets (tables pid).1 (tables pid).2 = Val (res, e) /\
    Container.GetSockets g pid = if (e : bool) then None else Some res.

Definition row_key (r : row) : ConnectionKey := MkConnectionKey (sock_addr (local r).2) (sock_addr (remote r).2).

(** The connection is established in a namespace of the container. *)
Definition listed (g : genv) (ns : bytes -> namespace) (k : ConnectionKey) : Prop :=
  exists pid r, pid ∈ g_pids g /\ r ∈ rows (ns (NetNsId g pid)) /\ (state r).2 = 1 /\ k = row_key r.

Lemma GetSockets_alive n : namespace_ok n ->
  GetSockets (alive n).1 (alive n).2 = Val (omap row_socket (rows n), false).
Proof.
  intros (H4 & R4 & H6 & R6). unfold GetSockets, alive, rows. cbn [fst snd].
  rewrite !readSockets_table by done. by rewrite omap_app.
Qed.

Lemma row_established (l : list row) k :
  (exists x, x ∈ omap row_socket l /\ Listen x = false /\ k = MkConnectionKey (SAddr x) (DAddr x)) <->
  exists r, r ∈ l /\ (state r).2 = 1 /\ k = row_key r.
Proof.
  setoid_rewrite list_elem_of_omap. unfold row_socket. split.
  - intros (x & (r & Hr & Ex) & Hx & ->). destruct (Z.eqb_spec (state r).2 1); [|destruct (Z.eqb_spec (state r).2 10)];
      cbn [orb] in Ex; [..|done]; injection Ex as <-; cbn in *; [eauto|done].
  - intros (r & Hr & Es & ->). exists (Socket (sock_addr (local r).2) (sock_addr (remote r).2) false (inode r).2).
    split; [exists r; split; [done|]; by rewrite Es|done].
Qed.

(** What the loop over the processes has found so far. *)
Definition scanned (g : genv) (ns : bytes -> namespace) (pids : list Z) (s : sockets) : Prop :=
  (forall n, n ∈ seenNamespaces s <-> exists pid, pid ∈ pids /\ n = NetNsId g pid) /\
  (forall k, k ∈ established s <->
     exists n r, n ∈ seenNamespaces s /\ r ∈ rows (ns n) /\ (state r).2 = 1 /\ k = row_key r).

Lemma scan_process_alive g ns pids s pid :
  (forall n, namespace_ok (ns n)) -> Container.GetSockets g pid = Some (omap row_socket (rows (ns (NetNsId g pid)))) ->
  scanned g ns pids s -> scanned g ns (pids ++ [pid]) (scan_process g s pid).
Proof.
  intros Hns Hg [Hn He]. unfold scan_process. destruct (decide (NetNsId g pid ∈ seenNamespaces s)) as [Hin|Hout].
  - split; [|done]. intros n. rewrite Hn. split.
    + intros (q & Hq & ->). exists q. split; [|done]. apply elem_of_app. by left.
    + intros (q & [Hq| ->%list_elem_of_singleton]%elem_of_app & ->); [eauto|]. by apply Hn.
  - rewrite Hg. cbn [established seenNamespaces]. split; cbn [established seenNamespaces].
    + intros n. rewrite elem_of_union, elem_of_singleton, add_sockets_seen, Hn. split.
      * intros [->|(q & Hq & ->)]; [exists pid|exists q]; (split; [|done]); apply elem_of_app; [right|by left].
        by apply list_elem_of_singleton.
      * intros (q & [Hq| ->%list_elem_of_singleton]%elem_of_app & ->); [right; eauto|by left].
    + intros k. rewrite add_sockets_established, add_sockets_seen, He, row_established. split.
      * intros [(n & r & Hin & Hr)|(r & Hr)]; [exists n, r|exists (NetNsId g pid), r]; (split; [|done]).
        -- apply elem_of_union. by right.
        -- apply elem_of_union. left. by apply elem_of_singleton.
      * intros (n & r & [->%elem_of_singleton|Hin]%elem_of_union & Hr); [right|left]; eauto.
Qed.

Lemma scan_sockets_alive g ns tables k :
  reads g tables -> (forall n, namespace_ok (ns n)) ->
  (forall pid, pid ∈ g_pids g -> tables pid = alive (ns (NetNsId g pid))) ->
  k ∈ established (scan_sockets g) <-> listed g ns k.
Proof.
  intros Hr Hns Ht.
  assert (scanned g ns (g_pids g) (scan_sockets g)) as [Hn ->].
  { unfold scan_sockets.
    assert (forall pid, pid ∈ g_pids g ->
      Container.GetSockets g pid = Some (omap row_socket (rows (ns (NetNsId g pid))))) as Hg.
    { intros pid Hp. destruct (Hr pid Hp) as (res & e & E & ->). rewrite (Ht pid Hp), GetSockets_alive in E by done.
      by injection E as <- <-. }
    revert Hg. generalize (g_pids g). intros l. induction l as [|pid l IH] using rev_ind; intros Hg.
    - split; cbn; intros x; split; [by intros ?%elem_of_empty|by intros (? & ?%elem_of_nil & _)|by intros ?%elem_of_empty|].
      by intros (? & ? & ?%elem_of_empty & _).
    - rewrite foldl_app. cbn [foldl]. apply scan_process_alive; [done| |].
      + apply Hg, elem_of_app. right. by apply list_elem_of_singleton.
      + apply IH. intros q Hq. apply Hg, elem_of_app. by left. }
  unfold listed. setoid_rewrite Hn. split.
  - intros (n & r & (pid & Hp & ->) & Hx). eauto.
  - intros (pid & r & Hp & Hx). eauto 6.
Qed.

(** C16: The collector believes the kernel.  When the processes of a container are alive, so
    that their socket tables are those that the kernel prints for their namespaces, the
    connections that a collection leaves are those that were known, that a table lists as
    established between the same two addresses and ports, IPv4 or IPv6, and that were not
    closed more than an interval ago. *)
Theorem collection_follows_kernel g ns tables order c :
  ok c -> order (activeConnections c) ≡ₚ map_to_list (activeConnections c) ->
  reads g tables -> (forall n, namespace_ok (ns n)) ->
  (forall pid, pid ∈ g_pids g -> tables pid = alive (ns (NetNsId g pid))) ->
  forall k l a, heap c !! l = Some a ->
    activeConnections (gc g order c) !! k = Some l <->
    activeConnections c !! k = Some l /\ listed g ns k /\
      (forall t, Closed a = Some t -> g_now g - t <= gcInterval).
Proof.
  intros Hok Ho Hr Hns Ht k l a Ha. rewrite gc_active_iff by done. by rewrite (scan_sockets_alive g ns tables).
Qed.

Lemma scan_seen g n pids s :
  Forall (fun pid => NetNsId g pid = n) pids -> n ∈ seenNamespaces s -> foldl (scan_process g) s pids = s.
Proof.
  induction 1 as [|pid pids E _ IH]; intros Hn; [done|]. cbn [foldl]. unfold scan_process at 2.
  rewrite E, decide_True by done. by apply IH.
Qed.

(** A process that has just exited hides the connections of the others.  Its tables do not
    exist, which the reader reports as no sockets and no error, and the collector does not
    read the same namespace again: if such a process comes first among those of the only
    namespace of a container, the collection forgets all connections, whatever the tables
    of the other processes say. *)
Theorem exited_process_hides_connections g tables order c pid pids :
  ok c -> order (activeConnections c) ≡ₚ map_to_list (activeConnections c) ->
  g_pids g = pid :: pids -> Forall (fun q => NetNsId g q = NetNsId g pid) pids ->
  reads g tables -> tables pid = (NotExist, NotExist) ->
  activeConnections (gc g order c) = ∅.
Proof.
  intros Hok Ho Hp Hns Hr Ht. apply map_empty. intros k.
  destruct (activeConnections (gc g order c) !! k) as [l|] eqn:Ek; [|done].
  assert (activeConnections c !! k = Some l) as Hk.
  { revert Ek. rewrite (gc_active _ _ _ (gc_collected g order c Hok Ho)). destruct (activeConnections c !! k); [|done].
    by case_match. }
  destruct (ok_active _ _ _ Hok k l Hk) as [a Ha].
  apply (gc_active_iff g order c k l a Hok Ho Ha) in Ek as (_ & He & _).
  unfold scan_sockets in He. rewrite Hp in He. cbn [foldl] in He. unfold scan_process at 2 in He.
  destruct (Hr pid) as (res & e & E & Eg); [rewrite Hp; by left|]. rewrite Ht in E. injection E as <- <-.
  rewrite decide_False, Eg in He by apply not_elem_of_empty. cbn [foldl established actualListens seenNamespaces] in He.
  rewrite (scan_seen g (NetNsId g pid)) in He; [by apply elem_of_empty in He|done|].
  cbn [seenNamespaces]. apply elem_of_union. left. by apply elem_of_singleton.
Qed.

End reader.

(** ** Concrete tables *)

#[local] Existing Instance plain_libs.

Ltac by_computing := refine (bool_decide_unpack _ _); vm_compute; exact I.

(** 10.0.0.1:4001 is connected to 10.0.0.9:80. *)
Definition demo_row : row :=
  Row (3%nat, str "0:") (0%nat, ([10; 0; 0; 1], 4001)) (0%nat, ([10; 0; 0; 9], 80)) (0%nat, 1)
    [(0%nat, str "00000000:00000000"); (0%nat, str "00:00000000"); (0%nat, str "00000000");
     (4%nat, str "0"); (8%nat, str "0")] (0%nat, str "12345") (str "1 0000000000000000 20 4 24 10 -1").

Definition demo_namespace : namespace :=
  Namespace (str "  sl  local_address rem_address   st") [demo_row] (str "  sl  local_address") [].

Definition demo_genv (pids : list Z) (tables : Z -> file * file) : genv :=
  GEnv 140 (demo_env 140) pids (fun _ => [])
    (fun pid => match GetSockets (tables pid).1 (tables pid).2 with Val (res, false) => Some res | _ => None end)
    (fun _ => None).

Example demo_row_printed :
  print_row demo_row =
  str "   0: 0100000A:0FA1 0900000A:0050 01 00000000:00000000 00:00000000 00000000     0         0 12345 1 0000000000000000 20 4 24 10 -1".
Proof. by vm_compute. Qed.

Lemma demo_namespace_ok : namespace_ok demo_namespace.
Proof.
  split_and!; [split_and!; by_computing| |split_and!; by_computing|constructor].
  apply Forall_singleton. split; [split; by_computing|split_and!; [left; done|by_computing|done|done]..|done| |split; by_computing|split_and!; by_computing].
  split; [done|]. by_computing.
Qed.

Lemma collection_follows_kernel_witness :
  let c := demo_container (take 7 demo_ops) in
  let k := MkConnectionKey (demo_addr 1 4001) (demo_addr 9 80) in
  let g := demo_genv [7] (fun _ => alive demo_namespace) in
  activeConnections (gc g map_to_list c) !! k = Some 1%nat.
Proof.
  intros c k g. destruct (heap c !! 1%nat) as [a|] eqn:Ea; [|by vm_compute in Ea].
  apply (collection_follows_kernel g (fun _ => demo_namespace) (fun _ => alive demo_namespace) map_to_list c (demo_ok 7)
    (reflexivity _)) with (a := a).
  - intros pid _. rewrite GetSockets_alive by exact demo_namespace_ok. eexists _, _. split; [done|].
    cbn [Container.GetSockets g demo_genv]. by rewrite GetSockets_alive by exact demo_namespace_ok.
  - intros _. exact demo_namespace_ok.
  - done.
  - done.
  - split_and!; [by vm_compute| |].
    + exists 7, demo_row. split_and!; [by left|by left|done|by vm_compute].
    + assert (Closed <$> heap c !! 1%nat = Some None) as Ec by by vm_compute. rewrite Ea in Ec. by injection Ec as ->.
Defined.

Lemma exited_process_hides_connections_witness :
  let c := demo_container (take 7 demo_ops) in
  let tables pid := if pid =? 7 then alive demo_namespace else (NotExist, NotExist) in
  let g := demo_genv [8; 7] tables in
  activeConnections (gc g map_to_list c) = ∅ /\
  activeConnections c !! MkConnectionKey (demo_addr 1 4001) (demo_addr 9 80) = Some 1%nat.
Proof.
  intros c tables g. split; [|by vm_compute].
  apply (exited_process_hides_connections g tables map_to_list c 8 [7] (demo_ok 7)); [done|done|by repeat constructor| |done].
  intros pid Hp. unfold g, demo_genv. cbn [Container.GetSockets]. unfold tables. destruct (pid =? 7).
  - rewrite GetSockets_alive by exact demo_namespace_ok. by eexists _, _.
  - by eexists [], false.
Defined.

End ProcNet.
