(* ===== verification/TailReader.v ===== *)
(** * Following a log file

    logs/tail_reader.go: the goroutine of [TailReader] reads lines from the end of a file
    on, waits when there are none, and notices when the file is truncated or another file
    takes its name.  The disk changes under it: its steps and those of the processes that
    write and rotate the log are the actions of one system. *)

From S2P Require Import Prelude GoLib.

Module TailReader.

Definition newline : Z := 10.

(** ** The disk *)

(** The file that has the name of the log, if any, and the contents of all files: a file
    that is open can be read when it no longer has a name. *)
Record disk := Disk { path : option nat; contents : list bytes }.

(** [os.FileInfo]: the file and its size. *)
Record FileInfo := MkFileInfo { Ino : nat; Size : nat }.

Definition Stat (d : disk) : option FileInfo :=
  let? i := path d else None in
  let? data := contents d !! i else None in Some (MkFileInfo i (length data)).

(** ** The reader *)

(** [file] is the open file with its offset; [buf] what the bufio.Reader has read and not
    handed out; [polling] says that the goroutine is in [poll]; [ch] what was sent to the
    channel, the content of the entries only. *)
Record TailReader := MkTailReader {
  file : option (nat * nat); info : FileInfo; buf : bytes; prefix : bytes; polling : bool; ch : list bytes
}.

(** The reader is created at the end of the file; the size may be older than the end. *)
Definition NewTailReader (i : nat) (size off : nat) : TailReader :=
  MkTailReader (Some (i, off)) (MkFileInfo i size) [] [] false [].

Definition set_file (f : option (nat * nat)) (r : TailReader) : TailReader :=
  MkTailReader f (info r) (buf r) (prefix r) (polling r) (ch r).

(** A new bufio.Reader on the beginning of a file. *)
Definition reopen (i : nat) (r : TailReader) : TailReader :=
  MkTailReader (Some (i, O)) (info r) [] (prefix r) (polling r) (ch r).

(** [ReadString] fills the buffer with what is in the file, in parts of any size, *)
Definition fill (n : nat) (d : disk) (r : TailReader) : option TailReader :=
  let? (i, off) := file r else None in
  let? data := contents d !! i else None in
  let part := take n (drop off data) in
  if polling r || bool_decide (newline ∈ buf r) || bytes_eqb part [] then None
  else Some (MkTailReader (Some (i, (off + length part)%nat)) (info r) (buf r ++ part) (prefix r) false (ch r)).

(** until it has a line, which is sent with what was read of it before, *)
Definition read_line (r : TailReader) : option TailReader :=
  if polling r then None
  else match Cut (buf r) [newline] with
       | (line, rest, true) => Some (MkTailReader (file r) (info r) rest [] false (ch r ++ [prefix r ++ line]))
       | (_, _, false) => None
       end.

(** or until there is an error: what was read is kept for later. *)
Definition read_error (r : TailReader) : option TailReader :=
  if polling r || bool_decide (newline ∈ buf r) then None
  else Some (MkTailReader (file r) (info r) [] (buf r) true (ch r)).

Definition read_eof (d : disk) (r : TailReader) : option TailReader :=
  let? (i, off) := file r else None in
  let? data := contents d !! i else None in
  if bytes_eqb (drop off data) [] then read_error r else None.

(** [opened] is the file that opening the name gives, [None] an error. *)
Definition moved (inf : FileInfo) (opened : option nat) (r : TailReader) : bool * TailReader :=
  if (Ino inf =? Ino (info r))%nat then (false, r)
  else match opened with
       | None => (false, set_file None r)
       | Some i => (true, reopen i r)
       end.

(** Seeking in a regular file does not fail. *)
Definition truncated (inf : FileInfo) (r : TailReader) : bool * TailReader :=
  match file r with
  | None => (false, r)
  | Some (i, _) => if (Size inf <? Size (info r))%nat then (true, set_file (Some (i, O)) r) else (false, r)
  end.

Definition appended (inf : FileInfo) (r : TailReader) : bool :=
  match file r with
  | None => false
  | Some _ => (Size (info r) <? Size inf)%nat
  end.

(** [poll] returns. *)
Definition resume (inf : FileInfo) (r : TailReader) : TailReader :=
  MkTailReader (file r) inf (buf r) (prefix r) false (ch r).

(** A tick of the ticker of [poll]. *)
Definition poll (stat : option FileInfo) (opened : option nat) (r : TailReader) : TailReader :=
  match stat with
  | None => set_file None r
  | Some inf =>
      match file r with
      | None => match opened with
                | None => r
                | Some i => resume inf (reopen i r)
                end
      | Some _ =>
          let '(m, r) := moved inf opened r in
          if m then resume inf r
          else let '(t, r) := truncated inf r in
               if t || appended inf r then resume inf r else r
      end
  end.

(** ** The system *)

(** [Append], [Truncate], [Rotate] and [Unlink] are the actions of others: [Rotate] puts a
    new file in the place of the log.  [Tick] gives whether opening a file succeeds. *)
Inductive action :=
  | Append (i : nat) (data : bytes) | Truncate (i : nat) | Rotate (data : bytes) | Unlink
  | Fill (n : nat) | Line | Eof | ReadError | Tick (open_ok : bool).

Abbreviation system := (disk * TailReader)%type.

Definition step (a : action) (s : system) : option system :=
  let (d, r) := s in
  match a with
  | Append i data => Some (Disk (path d) (alter (fun old : bytes => old ++ data : bytes) i (contents d)), r)
  | Truncate i => Some (Disk (path d) (alter (fun _ : bytes => [] : bytes) i (contents d)), r)
  | Rotate data => Some (Disk (Some (length (contents d))) (contents d ++ [data]), r)
  | Unlink => Some (Disk None (contents d), r)
  | Fill n => pair d <$> fill n d r
  | Line => pair d <$> read_line r
  | Eof => pair d <$> read_eof d r
  | ReadError => pair d <$> read_error r
  | Tick open_ok =>
      if polling r then Some (d, poll (Stat d) (if open_ok then path d else None) r) else None
  end.

Fixpoint run (actions : list action) (s : system) : option system :=
  match actions with
  | [] => Some s
  | a :: actions => let? s := step a s else None in run actions s
  end.

(** ** Whole lines *)

Definition text (lines : list bytes) : bytes := concat (map (fun l => l ++ [newline]) lines).
Arguments text : simpl never.

Definition line_ok (l : bytes) : Prop := Forall (fun b => b <> newline) l.

(** The actions of a run in which whole lines are appended to file [i], which keeps its
    name and is never cut; anything may happen to other files.  The lines come with it. *)
Inductive appends (i : nat) : list action -> list bytes -> Prop :=
  | appends_nil : appends i [] []
  | appends_lines ls actions lines : Forall line_ok ls -> appends i actions lines ->
      appends i (Append i (text ls) :: actions) (ls ++ lines)
  | appends_other j data actions lines : j <> i -> appends i actions lines ->
      appends i (Append j data :: actions) lines
  | appends_truncate j actions lines : j <> i -> appends i actions lines ->
      appends i (Truncate j :: actions) lines
  | appends_fill n actions lines : appends i actions lines -> appends i (Fill n :: actions) lines
  | appends_line actions lines : appends i actions lines -> appends i (Line :: actions) lines
  | appends_eof actions lines : appends i actions lines -> appends i (Eof :: actions) lines
  | appends_tick b actions lines : appends i actions lines -> appends i (Tick b :: actions) lines.

(** The steps of the reader itself. *)
Definition own (a : action) : Prop := match a with Fill _ | Line | Eof | Tick _ => True | _ => False end.

(** What holds between the steps: of the lines behind [old], those that were sent come
    first; the others are in the buffer and in what was not read; when the reader waits it
    had read to the end, at which the file was at least as long as when its size was last
    seen. *)
Record following (i : nat) (old : bytes) (lines pending : list bytes) (unread : bytes) (s : system) : Prop := {
  f_path : path s.1 = Some i;
  f_contents : contents s.1 !! i = Some (old ++ text lines);
  f_lines : lines = ch s.2 ++ pending;
  f_ok : Forall line_ok lines;
  f_pending : text pending = buf s.2 ++ unread;
  f_file : file s.2 = Some (i, (length old + length (text (ch s.2)) + length (buf s.2))%nat);
  f_prefix : prefix s.2 = [];
  f_ino : Ino (info s.2) = i;
  f_size : (Size (info s.2) <= length (old ++ text lines))%nat;
  f_polling : polling s.2 = true ->
    buf s.2 = [] /\ (Size (info s.2) <= length old + length (text (ch s.2)))%nat
}.

Lemma Index_found s c : c ∈ s -> is_Some (Index s [c]).
Proof.
  induction s as [|b s IH]; [by intros ?%elem_of_nil|]. cbn [Index starts_with]. rewrite andb_true_r.
  destruct (Z.eqb_spec b c) as [->|Hne]; [by eexists|]. intros [?|Hin]%elem_of_cons; [congruence|].
  destruct (IH Hin) as [k ->]. by eexists.
Qed.

Lemma text_app l k : text (l ++ k) = text l ++ text k.
Proof. unfold text. by rewrite map_app, concat_app. Qed.

Lemma text_one l : length (text [l]) = S (length l).
Proof. unfold text. cbn. rewrite app_nil_r, length_app. cbn. lia. Qed.

Lemma text_first pending l rest :
  Forall line_ok pending -> line_ok l -> text pending = l ++ newline :: rest ->
  exists pending', pending = l :: pending' /\ text pending' = rest.
Proof.
  intros Hp Hl E. destruct Hp as [|p pending Hp _]; [by destruct l|].
  change (text (p :: pending)) with ((p ++ [newline]) ++ text pending) in E. rewrite <-app_assoc in E. cbn [app] in E.
  apply (f_equal (fun s => Cut s [newline])) in E. rewrite !Cut_app in E by done. injection E as -> Er. by exists pending.
Qed.

Lemma text_no_newline pending : newline ∉ text pending -> pending = [].
Proof.
  destruct pending as [|p pending]; [done|]. intros []. change (text (p :: pending)) with ((p ++ [newline]) ++ text pending).
  apply elem_of_app. left. apply elem_of_app. right. by apply list_elem_of_singleton.
Qed.

Section follow.
Context (i : nat) (old : bytes).

(** The offset is where the unread data begin. *)
Lemma following_unread lines pending unread s off :
  following i old lines pending unread s -> off = (length old + length (text (ch s.2)) + length (buf s.2))%nat ->
  drop off (old ++ text lines) = unread.
Proof.
  intros F ->. rewrite (f_lines _ _ _ _ _ _ F), text_app, (f_pending _ _ _ _ _ _ F), !app_assoc.
  apply drop_app_length'. rewrite !length_app. lia.
Qed.

Lemma following_fill n lines pending unread d r r' :
  following i old lines pending unread (d, r) -> fill n d r = Some r' ->
  following i old lines pending (drop n unread) (d, r').
Proof.
  intros F E. pose proof (following_unread _ _ _ _ _ F eq_refl) as Eu. destruct F as [Hp Hc Hl Ho Hu Hf Hx Hi Hs Hw].
  cbn [fst snd] in *. unfold fill in E. rewrite Hf, Hc, Eu in E.
  destruct (polling r || _ || _); [done|]. injection E as <-. split; cbn; try done.
  - by rewrite <-app_assoc, take_drop.
  - rewrite length_app. do 2 f_equal. lia.
Qed.

Lemma following_line lines pending unread d r r' :
  following i old lines pending unread (d, r) -> read_line r = Some r' ->
  exists pending', following i old lines pending' unread (d, r').
Proof.
  intros [Hp Hc Hl Ho Hu Hf Hx Hi Hs Hw] E. cbn [fst snd] in *. unfold read_line in E.
  destruct (polling r); [done|]. destruct (Cut (buf r) [newline]) as [[l rest] [|]] eqn:Ec; [|done]. injection E as <-.
  destruct (Cut_true _ _ _ _ Ec) as [Eb Hnl]. rewrite Eb, <-app_assoc in Hu. cbn [app] in Hu.
  destruct (text_first pending l (rest ++ unread)) as (pending' & -> & Ep); [|done|done|].
  { rewrite Hl in Ho. by apply Forall_app in Ho as [_ ?]. }
  exists pending'. split; cbn; try done.
  - rewrite Hl, Hx. by rewrite <-app_assoc.
  - rewrite Hf, Hx, Eb, text_app, !length_app, text_one. cbn. do 2 f_equal. lia.
Qed.

Lemma following_eof lines pending unread d r r' :
  following i old lines pending unread (d, r) -> read_eof d r = Some r' -> following i old lines [] [] (d, r').
Proof.
  intros F E. pose proof (following_unread _ _ _ _ _ F eq_refl) as Eu. destruct F as [Hp Hc Hl Ho Hu Hf Hx Hi Hs Hw].
  cbn [fst snd] in *. unfold read_eof in E. rewrite Hf, Hc, Eu in E. unfold bytes_eqb in E.
  case_bool_decide as Hun; [|done]. rewrite Hun, app_nil_r in Hu.
  unfold read_error in E. destruct (polling r); [done|]. cbn [orb] in E. case_bool_decide as Hn; [done|].
  injection E as <-. assert (pending = []) as -> by (apply text_no_newline; by rewrite Hu).
  assert (buf r = []) as Hb by by rewrite <-Hu. rewrite Hb in *. rewrite app_nil_r in Hl. split; cbn; try done.
  - by rewrite app_nil_r.
  - intros _. split; [done|]. by rewrite length_app, Hl in Hs.
Qed.

Lemma following_tick lines pending unread d r (b : bool) :
  following i old lines pending unread (d, r) -> polling r = true ->
  following i old lines pending unread (d, poll (Stat d) (if b then path d else None) r) /\
  (unread <> [] -> polling (poll (Stat d) (if b then path d else None) r) = false) /\
  ch (poll (Stat d) (if b then path d else None) r) = ch r.
Proof.
  intros [Hp Hc Hl Ho Hu Hf Hx Hi Hs Hw] Hpoll. cbn [fst snd] in *. unfold Stat. rewrite Hp, Hc.
  set (opened := if b then Some i else None). unfold poll. rewrite Hf.
  unfold moved. cbn [Ino]. rewrite Hi, Nat.eqb_refl. unfold truncated. rewrite Hf. cbn [Size].
  rewrite (proj2 (Nat.ltb_ge _ _) Hs). cbn [orb]. unfold appended. rewrite Hf. cbn [Size].
  destruct (Hw Hpoll) as [Hb Hsize]. destruct (Nat.ltb_spec (Size (info r)) (length (old ++ text lines))) as [Hlt|Hge].
  - split; [|done]. by split.
  - split; [by split|]. split; [|done]. intros Hun. exfalso. apply Hun, length_zero_iff_nil.
    rewrite length_app, Hl, text_app, Hu, Hb, !length_app in Hge. cbn in Hge. lia.
Qed.

Lemma following_start d size :
  path d = Some i -> contents d !! i = Some old -> (size <= length old)%nat ->
  following i old [] [] [] (d, NewTailReader i size (length old)).
Proof. intros Hp Hc Hs. split; cbn; rewrite ?app_nil_r; try done. by rewrite !Nat.add_0_r. Qed.

Lemma following_step a actions lines lines' pending unread s s' :
  following i old lines pending unread s -> appends i (a :: actions) lines' -> step a s = Some s' ->
  exists new lines'' pending' unread', lines' = new ++ lines'' /\ appends i actions lines'' /\
    following i old (lines ++ new) pending' unread' s'.
Proof.
  intros F Ha E. destruct s as [d r].
  assert (forall pending' unread', following i old lines pending' unread' s' -> appends i actions lines' ->
    exists new lines'' pending' unread', lines' = new ++ lines'' /\ appends i actions lines'' /\
      following i old (lines ++ new) pending' unread' s') as Hno.
  { intros pending' unread' F' Ha'. exists [], lines', pending', unread'. by rewrite app_nil_r. }
  inversion Ha; subst; cbn [step] in E.
  - injection E as <-. exists ls, lines0, (pending ++ ls), (unread ++ text ls). split_and!; [done..|].
    destruct F as [Hp Hc Hl Ho Hu Hf Hx Hi Hs Hw]. cbn [fst snd] in *. split; cbn [fst snd path contents]; try done.
    + rewrite list_lookup_alter_eq. unfold bytes in *. rewrite Hc. cbn. by rewrite text_app, app_assoc.
    + by rewrite Hl, app_assoc.
    + by apply Forall_app.
    + by rewrite text_app, Hu, app_assoc.
    + rewrite text_app, app_assoc, length_app. lia.
  - injection E as <-. apply (Hno pending unread); [|done]. destruct F. split; cbn [fst snd path contents] in *; try done.
    by rewrite list_lookup_alter_ne.
  - injection E as <-. apply (Hno pending unread); [|done]. destruct F. split; cbn [fst snd path contents] in *; try done.
    by rewrite list_lookup_alter_ne.
  - destruct (fill n d r) as [r'|] eqn:Ef; [|done]. injection E as <-. eapply Hno; [by eapply following_fill|done].
  - destruct (read_line r) as [r'|] eqn:Ef; [|done]. injection E as <-.
    destruct (following_line _ _ _ _ _ _ F Ef) as [pending' F']. by eapply Hno.
  - destruct (read_eof d r) as [r'|] eqn:Ef; [|done]. injection E as <-. eapply Hno; [by eapply following_eof|done].
  - destruct (polling r) eqn:Ep; [|done]. injection E as <-. eapply Hno; [by eapply following_tick|done].
Qed.

Lemma following_run actions lines lines' pending unread s s' :
  following i old lines pending unread s -> appends i actions lines' -> run actions s = Some s' ->
  exists pending' unread', following i old (lines ++ lines') pending' unread' s'.
Proof.
  revert lines lines' pending unread s. induction actions as [|a actions IH]; intros lines lines' pending unread s F Ha E.
  - injection E as <-. inversion Ha. rewrite app_nil_r. eauto.
  - cbn [run] in E. destruct (step a s) as [s1|] eqn:Es; [|done].
    destruct (following_step _ _ _ _ _ _ _ _ F Ha Es) as (new & rest & p & u & -> & Ha' & F').
    rewrite app_assoc. by eapply IH.
Qed.

(** With a line in the buffer it is sent; *)
Lemma drain_line lines pending unread d r :
  following i old lines pending unread (d, r) -> polling r = false -> newline ∈ buf r ->
  exists r' pending', step Line (d, r) = Some (d, r') /\ following i old lines pending' unread (d, r') /\
    length pending = S (length pending').
Proof.
  intros F Hp Hn. destruct (read_line r) as [r'|] eqn:E.
  - destruct (following_line _ _ _ _ _ _ F E) as [pending' F']. exists r', pending'. cbn [step]. rewrite E.
    split_and!; [done|done|]. pose proof (f_lines _ _ _ _ _ _ F) as El. rewrite (f_lines _ _ _ _ _ _ F') in El.
    cbn [fst snd] in El. apply (f_equal length) in El. rewrite !length_app in El.
    unfold read_line in E. rewrite Hp in E. destruct (Cut _ _) as [[? ?] [|]]; [|done]. injection E as <-. cbn in El.
    rewrite length_app in El. cbn in El. lia.
  - unfold read_line in E. rewrite Hp in E. destruct (Cut (buf r) [newline]) as [[x y] [|]] eqn:Ec; [done|].
    unfold Cut in Ec. by destruct (Index_found _ _ Hn) as [k Ek]; rewrite Ek in Ec.
Qed.

(** without one, and with one to come, the rest of the file is read first; *)
Lemma drain_fill lines pending unread d r :
  following i old lines pending unread (d, r) -> polling r = false -> newline ∉ buf r -> pending <> [] ->
  exists r', step (Fill (length unread)) (d, r) = Some (d, r') /\
    following i old lines pending [] (d, r') /\ polling r' = false /\ newline ∈ buf r'.
Proof.
  intros F Hp Hn Hpend. pose proof (following_unread _ _ _ _ _ F eq_refl) as Eu.
  assert (newline ∈ text pending) as Hin by (destruct (decide (newline ∈ text pending)); [done|by destruct Hpend; apply text_no_newline]).
  rewrite (f_pending _ _ _ _ _ _ F) in Hin. cbn [fst snd] in *.
  destruct (fill (length unread) d r) as [r'|] eqn:E.
  - exists r'. cbn [step]. rewrite E. pose proof (following_fill _ _ _ _ _ _ _ F E) as F'.
    rewrite drop_all in F'. split_and!; [done|done|..].
    + unfold fill in E. repeat case_match; try done. by injection E as <-.
    + assert (buf r' = buf r ++ unread) as ->; [|done].
      pose proof (f_pending _ _ _ _ _ _ F') as E'. rewrite (f_pending _ _ _ _ _ _ F), app_nil_r in E'. done.
  - exfalso. pose proof (f_file _ _ _ _ _ _ F) as Ef. pose proof (f_contents _ _ _ _ _ _ F) as Ec.
    cbn [fst snd] in Ef, Ec. unfold fill in E. rewrite Ef, Ec, Eu, Hp, take_ge, bool_decide_eq_false_2 in E by done. cbn [orb] in E. unfold bytes_eqb in E.
    case_bool_decide as Eun; [|done]. rewrite Eun, app_nil_r in Hin. done.
Qed.

Lemma run_app l k s : run (l ++ k) s = (let? s := run l s else None in run k s).
Proof. revert s. induction l as [|a l IH]; intros s; [done|]. cbn [app run]. by destruct (step a s). Qed.

(** so the reader can always send the next line that is written. *)
Lemma drain_next lines pending unread s :
  following i old lines pending unread s -> pending <> [] ->
  exists actions s' pending' unread', Forall own actions /\ run actions s = Some s' /\
    following i old lines pending' unread' s' /\ length pending = S (length pending').
Proof.
  destruct s as [d r]. intros F Hpend.
  assert (exists actions r1, Forall own actions /\ run actions (d, r) = Some (d, r1) /\
    following i old lines pending unread (d, r1) /\ polling r1 = false) as (l1 & r1 & O1 & R1 & F1 & P1).
  { destruct (polling r) eqn:Ep; [|by exists [], r].
    destruct (following_tick _ _ _ _ _ true F Ep) as (F1 & P1 & _).
    exists [Tick true], (poll (Stat d) (path d) r). split_and!; [by constructor|cbn; by rewrite Ep|done|].
    apply P1. intros ->. pose proof (f_pending _ _ _ _ _ _ F) as Et. destruct (f_polling _ _ _ _ _ _ F Ep) as [Eb _].
    rewrite Eb in Et. destruct Hpend. apply text_no_newline. rewrite Et. apply not_elem_of_nil. }
  assert (exists actions r2 u, Forall own actions /\ run actions (d, r1) = Some (d, r2) /\
    following i old lines pending u (d, r2) /\ polling r2 = false /\ newline ∈ buf r2) as (l2 & r2 & u & O2 & R2 & F2 & P2 & N2).
  { destruct (decide (newline ∈ buf r1)) as [Hn|Hn]; [by exists [], r1, unread|].
    destruct (drain_fill _ _ _ _ _ F1 P1 Hn Hpend) as (r2 & E2 & F2 & P2 & N2).
    exists [Fill (length unread)], r2, []. split_and!; [by constructor|cbn [run]; by rewrite E2|done..]. }
  destruct (drain_line _ _ _ _ _ F2 P2 N2) as (r3 & pending' & E3 & F3 & L3).
  exists (l1 ++ l2 ++ [Line]), (d, r3), pending', u. split_and!; [|by rewrite run_app, R1, run_app, R2; cbn [run]; rewrite E3|done|done].
  apply Forall_app; split; [done|]. apply Forall_app; split; [done|]. by constructor.
Qed.

Lemma drain lines pending unread s :
  following i old lines pending unread s ->
  exists actions s', Forall own actions /\ run actions s = Some s' /\ ch s'.2 = lines.
Proof.
  intros F. remember (length pending) as n eqn:En. revert pending unread s F En.
  induction n as [|n IH]; intros pending unread s F En.
  - exists [], s. split_and!; [done|done|]. rewrite (f_lines _ _ _ _ _ _ F). destruct pending; [|done]. by rewrite app_nil_r.
  - destruct (drain_next _ _ _ _ F) as (l1 & s1 & p1 & u1 & O1 & R1 & F1 & L1); [by intros ->|].
    destruct (IH p1 u1 s1 F1) as (l2 & s2 & O2 & R2 & E2); [lia|].
    exists (l1 ++ l2), s2. split_and!; [by apply Forall_app|by rewrite run_app, R1|done].
Qed.

(** C20: A log of whole lines is followed.  The reader starts at the end of the file, which may
    have grown since its size was read; other processes append whole lines, to this file and
    to others, while the goroutine reads in parts of any size, waits and looks at the file,
    in any order: what it has sent are the lines appended since, in order, each once and
    complete, up to some line; and from every state it can go on by itself until it has sent
    all of them. *)
Theorem lines_followed d size actions lines s :
  path d = Some i -> contents d !! i = Some old -> (size <= length old)%nat ->
  appends i actions lines -> run actions (d, NewTailReader i size (length old)) = Some s ->
  (exists rest, lines = ch s.2 ++ rest) /\
  exists more s', Forall own more /\ run more s = Some s' /\ ch s'.2 = lines.
Proof.
  intros Hp Hc Hs Ha Hr. pose proof (following_start d size Hp Hc Hs) as F0.
  destruct (following_run _ _ _ _ _ _ _ F0 Ha Hr) as (p & u & F). split.
  - exists p. exact (f_lines _ _ _ _ _ _ F).
  - exact (drain _ _ _ _ F).
Qed.

End follow.
(** ** Lines that arrive in pieces *)

(** The log of one file, all of it read, and the reader waiting. *)
Definition waiting (data prefix : bytes) (ch : list bytes) : system :=
  (Disk (Some O) [data], MkTailReader (Some (O, length data)) (MkFileInfo O (length data)) [] prefix true ch).

(** The reader wakes up for [data] and reads all of it. *)
Definition arrive (data : bytes) : list action := [Append O data; Tick true; Fill (length data)].

Lemma poll_appended i off m n opened p ch :
  (m < n)%nat ->
  poll (Some (MkFileInfo i n)) opened (MkTailReader (Some (i, off)) (MkFileInfo i m) [] p true ch) =
  MkTailReader (Some (i, off)) (MkFileInfo i n) [] p false ch.
Proof.
  intros Hmn. unfold poll, moved. cbn [file Ino info]. rewrite Nat.eqb_refl. unfold truncated. cbn [file info Size].
  rewrite (proj2 (Nat.ltb_ge n m)) by lia. unfold appended. cbn [file info Size]. by rewrite (proj2 (Nat.ltb_lt m n)).
Qed.

Lemma fill_rest old data inf p ch :
  data <> [] ->
  fill (length data) (Disk (Some O) [old ++ data]) (MkTailReader (Some (O, length old)) inf [] p false ch) =
  Some (MkTailReader (Some (O, length (old ++ data))) inf data p false ch).
Proof.
  intros Hd. unfold fill. cbn [file contents polling buf info prefix TailReader.ch].
  change ([old ++ data] !! O) with (Some (old ++ data)). cbv beta iota zeta.
  rewrite drop_app_length, firstn_all, length_app. unfold bytes_eqb.
  by rewrite bool_decide_eq_false_2, bool_decide_eq_false_2 by (done || apply not_elem_of_nil).
Qed.

Lemma arrive_run data old p ch :
  data <> [] ->
  run (arrive data) (waiting old p ch) =
  Some (Disk (Some O) [old ++ data],
        MkTailReader (Some (O, length (old ++ data))) (MkFileInfo O (length (old ++ data))) data p false ch).
Proof.
  intros Hd. unfold arrive, waiting. cbn [run step polling path contents].
  change (alter _ O [old]) with [old ++ data]. change (Stat _) with (Some (MkFileInfo O (length (old ++ data)))).
  rewrite poll_appended by (rewrite length_app; destruct data; [done|cbn; lia]). by rewrite fill_rest.
Qed.

Lemma arrive_piece data old p ch :
  data <> [] -> line_ok data -> run (arrive data ++ [Eof]) (waiting old p ch) = Some (waiting (old ++ data) data ch).
Proof.
  intros Hd Hn. rewrite run_app, arrive_run by done. cbn [run step]. unfold read_eof, read_error.
  cbn [file contents lookup list_lookup polling buf orb info prefix TailReader.ch].
  rewrite drop_all, bool_decide_eq_false_2; [done|]. intros Hin. by apply (Forall_forall _ _) with (x := newline) in Hn.
Qed.

Lemma arrive_end data old p ch :
  line_ok data ->
  exists s, run (arrive (data ++ [newline]) ++ [Line]) (waiting old p ch) = Some s /\ TailReader.ch s.2 = ch ++ [p ++ data].
Proof.
  intros Hn. rewrite run_app, arrive_run by by destruct data. cbn [run step]. unfold read_line. cbn [polling buf].
  rewrite Cut_app by done. cbn. by eexists.
Qed.

(** Of a line that is written in pieces, between which the reader comes to the end of the
    file, the entry that is sent has the last two only: what was read of the line at the end
    of the file replaces what was read of it before, instead of being added to it. *)
Theorem line_in_pieces_cut pieces piece last :
  Forall (fun p => p <> [] /\ line_ok p) (pieces ++ [piece]) -> line_ok last ->
  exists s, run (concat (map (fun p => arrive p ++ [Eof]) (pieces ++ [piece])) ++ arrive (last ++ [newline]) ++ [Line])
              (waiting [] [] []) = Some s /\
    contents s.1 = [concat pieces ++ piece ++ last ++ [newline]] /\ ch s.2 = [piece ++ last].
Proof.
  intros Hp Hl.
  assert (forall old p, run (concat (map (fun p => arrive p ++ [Eof]) (pieces ++ [piece]))) (waiting old p []) =
    Some (waiting (old ++ concat pieces ++ piece) piece [])) as Hrun.
  { induction pieces as [|q pieces IH]; intros old p; cbn [map concat app] in *; apply Forall_cons in Hp as [[Hq Hn] Hp].
    - by rewrite app_nil_r, arrive_piece.
    - rewrite run_app, arrive_piece by done. rewrite (IH Hp). by rewrite <-!app_assoc. }
  rewrite run_app, Hrun. cbn [app]. rewrite run_app, arrive_run by by destruct last. cbn [run step]. unfold read_line.
  cbn [polling buf]. rewrite Cut_app by done. eexists. split; [done|]. cbn. by rewrite <-!app_assoc.
Qed.

Lemma line_in_pieces_cut_witness :
  exists s, run (arrive (str "abc") ++ [Eof] ++ arrive (str "def") ++ [Eof] ++ arrive (str "g" ++ [newline]) ++ [Line])
              (waiting [] [] []) = Some s /\ ch s.2 = [str "defg"].
Proof.
  destruct (line_in_pieces_cut [str "abc"] (str "def") (str "g")) as (s & Hr & _ & Hc).
  - by repeat constructor.
  - by repeat constructor.
  - exists s. split; [exact Hr|exact Hc].
Defined.

Lemma lines_followed_witness :
  let old := str "old" in
  let actions := [Eof; Append O (text [str "a"; str "b"]); Append 1%nat (str "x"); Tick true; Fill 1%nat; Fill 4%nat; Line] in
  let s := (Disk (Some O) [str "old" ++ text [str "a"; str "b"]; str "x"],
            MkTailReader (Some (O, 7%nat)) (MkFileInfo O 7%nat) (str "b" ++ [newline]) [] false [str "a"]) in
  run actions (Disk (Some O) [old; []], NewTailReader O 3%nat (length old)) = Some s /\
  exists more s', Forall own more /\ run more s = Some s' /\ ch s'.2 = [str "a"; str "b"].
Proof.
  intros old actions s. assert (run actions (Disk (Some O) [old; []], NewTailReader O 3%nat (length old)) = Some s) as Hr
    by by vm_compute.
  split; [exact Hr|].
  apply (lines_followed O old (Disk (Some O) [old; []]) 3 actions [str "a"; str "b"] s eq_refl eq_refl); [done| |exact Hr].
  apply appends_eof, (appends_lines O [str "a"; str "b"] _ []); [by repeat constructor|].
  by apply appends_other; [|apply appends_tick, appends_fill, appends_fill, appends_line, appends_nil].
Defined.

(** Lines that are written between the last look at the file and its rotation are lost. *)
Example rotated_lines_lost :
  ch <$> (snd <$> run ([Append O (text [str "last"]); Rotate (text [str "first"]); Tick true; Fill 6%nat; Line])
    (waiting [] [] [])) = Some [str "first"].
Proof. by vm_compute. Qed.

End TailReader.
