(* ===== verification/CgroupStats.v ===== *)
(** * Statistics of control groups

    cgroup/cpu.go, memory.go, io.go, psi.go and utils.go: the statistics of a container are
    read from the files of its control groups, of version 1 or of version 2.  Files the
    kernel prints are read back to the numbers in them. *)

From S2P Require Import Prelude GoLib GoText GoFloat GoLines Common Cgroup.

Module CgroupStats.
Import GoText GoFloat GoLines Common Cgroup.

(** ** Files *)

(** [os.ReadFile]; [None] is an error.  The roots are variables of the package. *)
Section stats.
Context (fs : bytes -> option bytes) (cgRoot cg2Root : bytes).

(** The line is passed over unless it has two fields and the second is a number. *)
Definition variable (line : bytes) : option (bytes * Z) :=
  match Fields line with
  | [name; value] => let? v := ParseUint 64 value else None in Some (name, v)
  | _ => None
  end.

Definition readVariablesFromFile (filePath : bytes) : option (gmap bytes Z) :=
  let? data := fs filePath else None in
  Some (fold_left (fun res line => match variable line with Some (k, v) => <[k := v]> res | None => res end)
          (Split data 10) ∅).

(** The value of a key, zero if it is absent. *)
Definition var (vars : gmap bytes Z) (k : bytes) : Z := default 0 (vars !! k).

(** ** CPU *)

Record CPUStat := MkCPUStat { UsageSeconds : float64; ThrottledTimeSeconds : float64; LimitCores : float64 }.

Definition per (n d : Z) : float64 := fdiv (of_int n) (of_int d).
Definition e9 : Z := 1000000000.
Definition e6 : Z := 1000000.

Definition cpuStatV1 (cg : Cgroup) : option CPUStat :=
  let cpu := sub (str "cpu") (subsystems cg) in
  let cpuacct := sub (str "cpuacct") (subsystems cg) in
  if bytes_eqb cpu [] || bytes_eqb cpuacct [] then None
  else
  let? throttling := readVariablesFromFile (path_join [cgRoot; str "cpu"; cpu; str "cpu.stat"]) else None in
  let? usageNs := ReadIntFromFile (fs (path_join [cgRoot; str "cpuacct"; cpuacct; str "cpuacct.usage"])) else None in
  let? periodUs := ReadIntFromFile (fs (path_join [cgRoot; str "cpu"; cpu; str "cpu.cfs_period_us"])) else None in
  let? quotaUs := ReadIntFromFile (fs (path_join [cgRoot; str "cpu"; cpu; str "cpu.cfs_quota_us"])) else None in
  Some (MkCPUStat (per usageNs e9) (per (var throttling (str "throttled_time")) e9)
          (if quotaUs >? 0 then per quotaUs periodUs else zero)).

(** The limit of cpu.max: [None] if it is malformed. *)
Definition cpu_max (payload : bytes) : option float64 :=
  match Fields (TrimSpace payload) with
  | [quota; period] =>
      if bytes_eqb quota (str "max") then Some zero
      else let? quotaUs := ParseUint 64 quota else None in
           let? periodUs := ParseUint 64 period else None in
           Some (if periodUs >? 0 then per quotaUs periodUs else zero)
  | _ => None
  end.

Definition cpuStatV2 (cg : Cgroup) : option CPUStat :=
  let path := sub [] (subsystems cg) in
  if bytes_eqb path [] then None
  else
  let? vars := readVariablesFromFile (path_join [cg2Root; path; str "cpu.stat"]) else None in
  let res limit := MkCPUStat (per (var vars (str "usage_usec")) e6) (per (var vars (str "throttled_usec")) e6) limit in
  match fs (path_join [cg2Root; path; str "cpu.max"]) with
  | None => Some (res zero)
  | Some payload => let? limit := cpu_max payload else None in Some (res limit)
  end.

Definition CpuStat (cg : Cgroup) : option CPUStat :=
  if bytes_eqb (sub (str "cpu") (subsystems cg)) [] || bytes_eqb (sub (str "cpuacct") (subsystems cg)) []
  then cpuStatV2 cg else cpuStatV1 cg.

(** ** Memory *)

Definition maxMemory : Z := Z.shiftl 1 62.

Record MemoryStat := MkMemoryStat { RSS : Z; Cache : Z; Limit : Z }.

Definition memoryStatV1 (cg : Cgroup) : option MemoryStat :=
  let mem := sub (str "memory") (subsystems cg) in
  if bytes_eqb mem [] then None
  else
  let? vars := readVariablesFromFile (path_join [cgRoot; str "memory"; mem; str "memory.stat"]) else None in
  let? limit := ReadUintFromFile (fs (path_join [cgRoot; str "memory"; mem; str "memory.limit_in_bytes"])) else None in
  let limit := if limit >? maxMemory then 0 else limit in
  Some (MkMemoryStat (u64 (var vars (str "total_rss") + var vars (str "total_mapped_file"))) (var vars (str "total_cache")) limit).

(** The number that is returned beside an error: the greatest for digits out of range, else 0. *)
Definition uint_or_error (data : option bytes) : Z :=
  match data with
  | None => 0
  | Some data =>
      let s := TrimSpace data in
      match ParseUint 64 s with
      | Some n => n
      | None => if negb (length s =? 0)%nat && forallb is_digit s then 2 ^ 64 - 1 else 0
      end
  end.

Definition memoryStatV2 (cg : Cgroup) : option MemoryStat :=
  let path := sub [] (subsystems cg) in
  if bytes_eqb path [] then None
  else
  let? vars := readVariablesFromFile (path_join [cg2Root; path; str "memory.stat"]) else None in
  let limit := uint_or_error (fs (path_join [cg2Root; path; str "memory.max"])) in
  Some (MkMemoryStat (u64 (var vars (str "anon") + var vars (str "file_mapped"))) (var vars (str "file")) limit).

Definition MemoryStat_ (cg : Cgroup) : option MemoryStat :=
  if bytes_eqb (sub (str "memory") (subsystems cg)) [] then memoryStatV2 cg else memoryStatV1 cg.

(** ** Input and output *)

Record IOStat := MkIOStat { ReadOps : Z; WriteOps : Z; ReadBytes : Z; WrittenBytes : Z }.
Definition IOStat_zero : IOStat := MkIOStat 0 0 0 0.

Record blkioVariable := BlkioVariable { majorMinor : bytes; bname : bytes; bvalue : Z }.

Definition readBlkioStatFile (filePath : bytes) : option (list blkioVariable) :=
  let? data := fs filePath else None in
  Some (omap (fun line => match Fields line with
                          | [mm; name; value] => let? v := ParseUint 64 value else None in Some (BlkioVariable mm name v)
                          | _ => None
                          end) (Split data 10)).

Definition add_ops (res : gmap bytes IOStat) (v : blkioVariable) : gmap bytes IOStat :=
  let s := default IOStat_zero (res !! majorMinor v) in
  <[majorMinor v :=
      if bytes_eqb (bname v) (str "Read") then MkIOStat (bvalue v) (WriteOps s) (ReadBytes s) (WrittenBytes s)
      else if bytes_eqb (bname v) (str "Write") then MkIOStat (ReadOps s) (bvalue v) (ReadBytes s) (WrittenBytes s)
      else s]> res.

Definition add_bytes (res : gmap bytes IOStat) (v : blkioVariable) : gmap bytes IOStat :=
  let s := default IOStat_zero (res !! majorMinor v) in
  <[majorMinor v :=
      if bytes_eqb (bname v) (str "Read") then MkIOStat (ReadOps s) (WriteOps s) (bvalue v) (WrittenBytes s)
      else if bytes_eqb (bname v) (str "Write") then MkIOStat (ReadOps s) (WriteOps s) (ReadBytes s) (bvalue v)
      else s]> res.

Definition ioStatV1 (cg : Cgroup) : option (gmap bytes IOStat) :=
  let blkio := sub (str "blkio") (subsystems cg) in
  if bytes_eqb blkio [] then None
  else
  let? ops := readBlkioStatFile (path_join [cgRoot; str "blkio"; blkio; str "blkio.throttle.io_serviced"]) else None in
  let? bytes := readBlkioStatFile (path_join [cgRoot; str "blkio"; blkio; str "blkio.throttle.io_service_bytes"]) else None in
  Some (fold_left add_bytes bytes (fold_left add_ops ops ∅)).

(** One [key=value] of a line of io.stat. *)
Definition io_value (s : IOStat) (value : bytes) : IOStat :=
  match SplitN 2 value 61 with
  | [key; value] =>
      match ParseUint 64 value with
      | None => s
      | Some v =>
          if bytes_eqb key (str "rbytes") then MkIOStat (ReadOps s) (WriteOps s) v (WrittenBytes s)
          else if bytes_eqb key (str "wbytes") then MkIOStat (ReadOps s) (WriteOps s) (ReadBytes s) v
          else if bytes_eqb key (str "rios") then MkIOStat v (WriteOps s) (ReadBytes s) (WrittenBytes s)
          else if bytes_eqb key (str "wios") then MkIOStat (ReadOps s) v (ReadBytes s) (WrittenBytes s)
          else s
      end
  | _ => s
  end.

Definition ioStatV2 (cg : Cgroup) : option (gmap bytes IOStat) :=
  let path := sub [] (subsystems cg) in
  if bytes_eqb path [] then None
  else
  let? payload := fs (path_join [cg2Root; path; str "io.stat"]) else None in
  Some (fold_left (fun res line =>
          match Fields line with
          | dev :: values => if (length values <? 4)%nat then res else <[dev := fold_left io_value values IOStat_zero]> res
          | [] => res
          end) (Split payload 10) ∅).

Definition IOStat_ (cg : Cgroup) : option (gmap bytes IOStat) :=
  if bytes_eqb (sub (str "blkio") (subsystems cg)) [] then ioStatV2 cg else ioStatV1 cg.

(** ** Pressure *)

Record PressureTotals := MkPressureTotals { SomeSecondsTotal : float64; FullSecondsTotal : float64 }.

(** The first total of a line; [Some None] if there is none, [None] an error. *)
Fixpoint total_of (parts : list bytes) : option (option Z) :=
  match parts with
  | [] => Some None
  | p :: parts =>
      if HasPrefix p (str "total=") then let? v := ParseUint 64 (TrimPrefix p (str "total=")) else None in Some (Some v)
      else total_of parts
  end.

Definition pressure_line (line : bytes) (p : PressureTotals) : option PressureTotals :=
  match Fields line with
  | [] => Some p
  | kind :: parts =>
      let? total := total_of parts else None in
      Some (match total with
            | None => p
            | Some v => if bytes_eqb kind (str "some") then MkPressureTotals (per v e6) (FullSecondsTotal p)
                        else if bytes_eqb kind (str "full") then MkPressureTotals (SomeSecondsTotal p) (per v e6)
                        else p
            end)
  end.

Fixpoint pressure_lines (lines : list bytes) (p : PressureTotals) : option PressureTotals :=
  match lines with
  | [] => Some p
  | line :: lines => let? p := pressure_line line p else None in pressure_lines lines p
  end.

Definition readPressure (cg : Cgroup) (controller : bytes) : option PressureTotals :=
  let? data := fs (path_join [cg2Root; sub [] (subsystems cg); controller ++ str ".pressure"]) else None in
  pressure_lines (Split (TrimSpace data) 10) (MkPressureTotals zero zero).

Record PSIStats := MkPSIStats { psi_cpu : PressureTotals; psi_memory : PressureTotals; psi_io : PressureTotals }.

Definition PSI (cg : Cgroup) : option PSIStats :=
  if bytes_eqb (sub [] (subsystems cg)) [] then None
  else
  let? cpu := readPressure cg (str "cpu") else None in
  let? memory := readPressure cg (str "memory") else None in
  let? io := readPressure cg (str "io") else None in
  Some (MkPSIStats cpu memory io).

(** ** Files as the kernel prints them *)

Definition number (n : Z) : Prop := 0 <= n < 2 ^ 64.

Definition print_var (kv : bytes * Z) : bytes := Join [kv.1; FormatUint kv.2] [32].
Definition print_vars (kvs : list (bytes * Z)) : bytes := unlines (map print_var kvs).
Definition vars_ok (kvs : list (bytes * Z)) : Prop := NoDup kvs.*1 /\ Forall (fun kv => word kv.1 /\ number kv.2) kvs.

(** The value of a key in a printed file. *)
Definition value (kvs : list (bytes * Z)) (k : bytes) : Z := default 0 ((list_to_map kvs : gmap bytes Z) !! k).

Lemma print_var_words kv : word kv.1 /\ number kv.2 -> Forall word [kv.1; FormatUint kv.2].
Proof. intros [Hk Hv]. apply Forall_cons_2; [done|]. apply Forall_singleton. by apply FormatUint_word. Qed.

Lemma variable_printed kv : word kv.1 /\ number kv.2 -> variable (print_var kv) = Some kv.
Proof.
  intros Hkv. unfold variable, print_var. rewrite Fields_words by by apply print_var_words.
  destruct kv as [k v]. destruct Hkv as [_ Hv]. by rewrite ParseUint_FormatUint by (lia || done).
Qed.

Lemma readVariables_printed file kvs :
  fs file = Some (print_vars kvs) -> vars_ok kvs -> readVariablesFromFile file = Some (list_to_map kvs).
Proof.
  intros Hf [Hd Hkvs]. unfold readVariablesFromFile. rewrite Hf. f_equal. unfold print_vars.
  rewrite Split_unlines.
  2: { apply Forall_map. eapply Forall_impl; [exact Hkvs|]. intros kv Hkv. by apply words_no_newline, print_var_words. }
  rewrite fold_left_app. cbn [fold_left]. change (variable []) with (@None (bytes * Z)). cbv iota.
  transitivity (list_to_map kvs ∪ ∅ : gmap bytes Z); [|by rewrite (right_id_L ∅ (∪))]. generalize (∅ : gmap bytes Z) as m. clear Hf.
  induction Hkvs as [|kv kvs Hkv _ IH]; intros m; cbn [map fold_left]; [by rewrite list_to_map_nil, (left_id_L ∅ (∪))|].
  apply NoDup_cons in Hd as [Hnot Hd]. rewrite variable_printed by done. destruct kv as [k v]. rewrite (IH Hd).
  rewrite list_to_map_cons, <-insert_union_l. symmetry. apply insert_union_r. by apply not_elem_of_list_to_map_1.
Qed.

(** *** Version 2 *)

(** A device of io.stat; what follows its four numbers are other [key=value] pairs. *)
Definition print_io (d : bytes * IOStat * list bytes) : bytes :=
  let '(dev, s, rest) := d in
  Join ([dev; str "rbytes=" ++ FormatUint (ReadBytes s); str "wbytes=" ++ FormatUint (WrittenBytes s);
         str "rios=" ++ FormatUint (ReadOps s); str "wios=" ++ FormatUint (WriteOps s)] ++ rest) [32].

(** A pair that is none of the four. *)
Definition other_pair (p : bytes) : Prop :=
  word p /\ exists key v, p = key ++ 61 :: v /\ Forall (fun c => c <> 61) key /\
    key ∉ [str "rbytes"; str "wbytes"; str "rios"; str "wios"].

Definition io_ok (d : bytes * IOStat * list bytes) : Prop :=
  word d.1.1 /\ number (ReadBytes d.1.2) /\ number (WrittenBytes d.1.2) /\ number (ReadOps d.1.2) /\
  number (WriteOps d.1.2) /\ Forall other_pair d.2.

(** A pressure file: the averages and the total in microseconds of each of its lines.  The
    kernels before 5.13 print no full line for the CPU. *)
Record pressure := MkPressure { p_some : list bytes * Z; p_full : option (list bytes * Z) }.

Definition print_totals (kind : bytes) (l : list bytes * Z) : bytes :=
  Join ([kind] ++ l.1 ++ [str "total=" ++ FormatUint l.2]) [32].

Definition print_pressure (p : pressure) : bytes :=
  unlines (print_totals (str "some") (p_some p) ::
           match p_full p with Some l => [print_totals (str "full") l] | None => [] end).

Definition avg_ok (p : bytes) : Prop := word p /\ HasPrefix p (str "total=") = false.
Definition totals_ok (l : list bytes * Z) : Prop := Forall avg_ok l.1 /\ number l.2.
Definition pressure_ok (p : pressure) : Prop := totals_ok (p_some p) /\ from_option totals_ok True (p_full p).

Lemma other_pair_ignored p : other_pair p -> forall s, io_value s p = s.
Proof.
  intros (_ & key & v & -> & Hk & Hne) s. unfold io_value. cbn [SplitN]. rewrite Cut_app by exact Hk.
  rewrite !not_elem_of_cons in Hne. destruct Hne as (N1 & N2 & N3 & N4 & _).
  destruct (ParseUint 64 v); [|done]. unfold bytes_eqb. by rewrite !bool_decide_eq_false_2.
Qed.

Lemma pair_word k n : word k -> number n -> word (k ++ FormatUint n).
Proof.
  intros [Hk Hg] Hn. pose proof (FormatUint_word n Hn) as [_ Hd]. split; [by destruct k|]. by apply Forall_app.
Qed.

Lemma io_words d : io_ok d -> Forall word (match d with (dev, s, rest) => 
  [dev; str "rbytes=" ++ FormatUint (ReadBytes s); str "wbytes=" ++ FormatUint (WrittenBytes s);
   str "rios=" ++ FormatUint (ReadOps s); str "wios=" ++ FormatUint (WriteOps s)] ++ rest end).
Proof.
  destruct d as [[dev s] rest]. intros (Hd & Hr & Hw & Hro & Hwo & Hrest). cbn [fst snd] in *.
  apply Forall_app. split; [|eapply Forall_impl; [exact Hrest|by intros p []]].
  apply Forall_cons_2; [done|]. repeat (apply Forall_cons_2; [apply pair_word; [by apply word_check; vm_compute|done]|]). constructor.
Qed.

Lemma io_pair key n s :
  number n -> Forall (fun c => c <> 61) key ->
  io_value s ((key ++ [61]) ++ FormatUint n) =
  (if bytes_eqb key (str "rbytes") then MkIOStat (ReadOps s) (WriteOps s) n (WrittenBytes s)
   else if bytes_eqb key (str "wbytes") then MkIOStat (ReadOps s) (WriteOps s) (ReadBytes s) n
   else if bytes_eqb key (str "rios") then MkIOStat n (WriteOps s) (ReadBytes s) (WrittenBytes s)
   else if bytes_eqb key (str "wios") then MkIOStat (ReadOps s) n (ReadBytes s) (WrittenBytes s)
   else s).
Proof.
  intros Hn Hk. unfold io_value. rewrite <-app_assoc. cbn [app SplitN]. rewrite Cut_app by exact Hk.
  by rewrite ParseUint_FormatUint by (lia || exact Hn).
Qed.

Lemma io_pairs s0 s :
  number (ReadBytes s) -> number (WrittenBytes s) -> number (ReadOps s) -> number (WriteOps s) ->
  fold_left io_value [str "rbytes=" ++ FormatUint (ReadBytes s); str "wbytes=" ++ FormatUint (WrittenBytes s);
                      str "rios=" ++ FormatUint (ReadOps s); str "wios=" ++ FormatUint (WriteOps s)] s0 = s.
Proof.
  intros Hr Hw Hro Hwo. destruct s as [ro wo r w]. cbn [ReadBytes WrittenBytes ReadOps WriteOps] in *. cbn [fold_left].
  change (str "rbytes=") with (str "rbytes" ++ [61]). change (str "wbytes=") with (str "wbytes" ++ [61]).
  change (str "rios=") with (str "rios" ++ [61]). change (str "wios=") with (str "wios" ++ [61]).
  rewrite (io_pair (str "rbytes") r), (io_pair (str "wbytes") w), (io_pair (str "rios") ro), (io_pair (str "wios") wo)
    by first [exact Hr|exact Hw|exact Hro|exact Hwo|by repeat constructor].
  reflexivity.
Qed.

Lemma io_line_printed d res :
  io_ok d ->
  match Fields (print_io d) with
  | dev :: values => if (length values <? 4)%nat then res else <[dev := fold_left io_value values IOStat_zero]> res
  | [] => res
  end = <[d.1.1 := d.1.2]> (res : gmap bytes IOStat).
Proof.
  intros Hd. pose proof (io_words d Hd) as Hw. destruct d as [[dev s] rest]. unfold print_io. rewrite (Fields_words _ Hw).
  destruct Hd as (_ & Hr & Hwr & Hro & Hwo & Hrest). cbn [fst snd] in *. clear Hw.
  change ([dev; ?a; ?b; ?c; ?e] ++ rest) with (dev :: [a; b; c; e] ++ rest). cbv iota.
  rewrite (proj2 (Nat.ltb_ge _ _)) by (rewrite length_app; cbn [length]; lia).
  rewrite fold_left_app.
  match goal with |- context [fold_left io_value rest ?x] =>
    replace x with s by (symmetry; exact (io_pairs IOStat_zero s Hr Hwr Hro Hwo)) end.
  f_equal.
  induction Hrest as [|p rest Hp _ IH]; [done|]. cbn [fold_left]. by rewrite (other_pair_ignored p Hp).
Qed.

Lemma total_of_printed avgs n :
  Forall avg_ok avgs -> number n -> total_of (avgs ++ [str "total=" ++ FormatUint n]) = Some (Some n).
Proof.
  intros Ha Hn. induction Ha as [|p avgs [_ Hp] _ IH]; cbn [app total_of]; [|by rewrite Hp].
  unfold HasPrefix, TrimPrefix, HasPrefix. rewrite starts_with_app, drop_app_length.
  by rewrite ParseUint_FormatUint by (lia || exact Hn).
Qed.

Lemma Join_last (ws : list bytes) (w : bytes) : exists p, Join (ws ++ [w]) [32] = p ++ w.
Proof.
  induction ws as [|v ws [p IH]]; [by exists []|].
  destruct ws as [|u ws]; [by exists (v ++ [32]); rewrite <-app_assoc|].
  exists (v ++ [32] ++ p). cbn [app] in *. change (Join (v :: u :: ws ++ [w]) [32]) with (v ++ [32] ++ Join (u :: ws ++ [w]) [32]).
  by rewrite IH, <-!app_assoc.
Qed.

Lemma pressure_words kind l :
  word kind -> totals_ok l -> Forall word ([kind] ++ l.1 ++ [str "total=" ++ FormatUint l.2]).
Proof.
  intros Hk [Ha Hn]. apply Forall_app. split; [by apply Forall_singleton|]. apply Forall_app. split.
  - eapply Forall_impl; [exact Ha|]. by intros p [].
  - apply Forall_singleton, pair_word; [by apply word_check; vm_compute|exact Hn].
Qed.

Lemma pressure_line_printed kind l p :
  word kind -> totals_ok l ->
  pressure_line (print_totals kind l) p =
  Some (if bytes_eqb kind (str "some") then MkPressureTotals (per l.2 e6) (FullSecondsTotal p)
        else if bytes_eqb kind (str "full") then MkPressureTotals (SomeSecondsTotal p) (per l.2 e6) else p).
Proof.
  intros Hk Hl. unfold pressure_line, print_totals. rewrite (Fields_words _ (pressure_words kind l Hk Hl)).
  cbn [app]. destruct Hl as [Ha Hn]. by rewrite (total_of_printed l.1 l.2 Ha Hn).
Qed.

(** A text that ends in a line of totals ends in no space. *)
Lemma TrimSpace_totals pre kind l :
  match pre ++ print_totals kind l with c :: _ => graphic c | [] => False end -> totals_ok l ->
  TrimSpace ((pre ++ print_totals kind l) ++ [10]) = pre ++ print_totals kind l.
Proof.
  intros Hhd [_ Hn]. apply TrimSpace_newline; [exact Hhd|].
  destruct (Join_last ([kind] ++ l.1) (str "total=" ++ FormatUint l.2)) as [q Eq]. rewrite <-app_assoc in Eq.
  unfold print_totals. replace (Join _ _) with (q ++ str "total=" ++ FormatUint l.2) by exact (eq_sym Eq).
  rewrite !rev_app_distr, <-!app_assoc. pose proof (proj2 (word_ends _ (FormatUint_word l.2 Hn))) as Hw.
  destruct (rev (FormatUint l.2)); [done|]. exact Hw.
Qed.

Lemma readPressure_printed cg controller p :
  fs (path_join [cg2Root; sub [] (subsystems cg); controller ++ str ".pressure"]) = Some (print_pressure p) ->
  pressure_ok p ->
  readPressure cg controller =
  Some (MkPressureTotals (per (p_some p).2 e6) (match p_full p with Some l => per l.2 e6 | None => zero end)).
Proof.
  intros Hf [Hs Hfu]. unfold readPressure. rewrite Hf.
  assert (word (str "some")) as Ws by by apply word_check; vm_compute.
  assert (word (str "full")) as Wf by by apply word_check; vm_compute.
  assert (Forall (fun c => c <> 10) (print_totals (str "some") (p_some p))) as Ns
    by by apply words_no_newline, pressure_words.
  assert (forall rest, match print_totals (str "some") (p_some p) ++ rest with
                       | c :: _ => graphic c | [] => False end) as Hhd
    by (intros rest; unfold print_totals; by destruct (p_some p) as [[|] ?]).
  unfold print_pressure, unlines. destruct (p_full p) as [l|]; cbn [map concat from_option] in *; rewrite app_nil_r.
  - rewrite app_assoc. rewrite (TrimSpace_totals (print_totals (str "some") (p_some p) ++ [10]) (str "full") l);
      [|rewrite <-app_assoc; apply Hhd|exact Hfu].
    rewrite <-app_assoc. cbn [app]. rewrite Split_app by exact Ns.
    rewrite Split_none by by apply words_no_newline, pressure_words.
    cbn [pressure_lines]. rewrite (pressure_line_printed _ _ _ Ws Hs).
    by rewrite (pressure_line_printed _ _ _ Wf Hfu).
  - pose proof (TrimSpace_totals [] (str "some") (p_some p)) as ET. cbn [app] in ET.
    rewrite ET by (done || (rewrite <-(app_nil_r (print_totals _ _)); apply Hhd)).
    rewrite Split_none by exact Ns. cbn [pressure_lines]. by rewrite (pressure_line_printed _ _ _ Ws Hs).
Qed.

Lemma io_printed (devs : list (bytes * IOStat * list bytes)) (res : gmap bytes IOStat) :
  Forall io_ok devs ->
  fold_left (fun res line =>
    match Fields line with
    | dev :: values => if (length values <? 4)%nat then res else <[dev := fold_left io_value values IOStat_zero]> res
    | [] => res
    end) (map print_io devs) res =
  fold_left (fun res d => <[d.1.1 := d.1.2]> res) devs res.
Proof.
  intros Hd. revert res. induction Hd as [|d devs Hd _ IH]; intros res; [done|]. cbn [map fold_left].
  by rewrite io_line_printed, IH.
Qed.

(** The files of a group of version 2; a kernel without pressure accounting has no
    pressure files. *)
Record group2 := MkGroup2 {
  g_cpu : list (bytes * Z); g_cpu_max : option Z * Z;
  g_memory : list (bytes * Z); g_memory_max : option Z;
  g_io : list (bytes * IOStat * list bytes);
  g_pressure : option (bytes -> pressure)
}.

(** The quota, or max, and the period. *)
Definition print_limit (limit : option Z) : bytes :=
  match limit with None => str "max" | Some n => FormatUint n end.

Definition print_cpu_max (limit : option Z * Z) : bytes :=
  (print_limit limit.1 ++ [32] ++ FormatUint limit.2) ++ [10].

Definition print_memory_max (limit : option Z) : bytes :=
  print_limit limit ++ [10].

Definition printed (g : group2) (path : bytes) : Prop :=
  fs (path_join [cg2Root; path; str "cpu.stat"]) = Some (print_vars (g_cpu g)) /\
  fs (path_join [cg2Root; path; str "cpu.max"]) = Some (print_cpu_max (g_cpu_max g)) /\
  fs (path_join [cg2Root; path; str "memory.stat"]) = Some (print_vars (g_memory g)) /\
  fs (path_join [cg2Root; path; str "memory.max"]) = Some (print_memory_max (g_memory_max g)) /\
  fs (path_join [cg2Root; path; str "io.stat"]) = Some (unlines (map print_io (g_io g))) /\
  forall c, c ∈ [str "cpu"; str "memory"; str "io"] ->
    fs (path_join [cg2Root; path; c ++ str ".pressure"]) =
    (fun pressures => print_pressure (pressures c)) <$> g_pressure g.

Definition group2_ok (g : group2) : Prop :=
  vars_ok (g_cpu g) /\ vars_ok (g_memory g) /\ Forall io_ok (g_io g) /\
  from_option number True (g_cpu_max g).1 /\ number (g_cpu_max g).2 /\ from_option number True (g_memory_max g) /\
  from_option (fun pressures => forall c, pressure_ok (pressures c)) True (g_pressure g).

Lemma cpu_max_printed limit :
  from_option number True limit.1 -> number limit.2 ->
  cpu_max (print_cpu_max limit) =
  Some (match limit.1 with Some q => if limit.2 >? 0 then per q limit.2 else zero | None => zero end).
Proof.
  destruct limit as [quota p]. cbn [fst snd]. intros Hq Hp. unfold cpu_max, print_cpu_max. cbn [fst snd].
  pose proof (FormatUint_word p Hp) as Wp.
  assert (word (print_limit quota)) as Wq
    by (destruct quota; [by apply FormatUint_word|by apply word_check; vm_compute]).
  rewrite (TrimSpace_two _ _ Wq Wp). change (print_limit quota ++ [32] ++ FormatUint p) with (Join [print_limit quota; FormatUint p] [32]).
  rewrite Fields_words by (apply Forall_cons_2; [exact Wq|apply Forall_singleton; exact Wp]).
  destruct quota as [q|]; [|done]. cbn [print_limit].
  replace (bytes_eqb (FormatUint q) (str "max")) with false.
  - by rewrite !ParseUint_FormatUint by (lia || exact Hq || exact Hp).
  - symmetry. apply bool_decide_eq_false. intros E. pose proof (FormatUint_digits q Hq) as Hd. by rewrite E in Hd.
Qed.

Lemma memory_max_printed limit :
  from_option number True limit ->
  uint_or_error (Some (print_memory_max limit)) = default 0 limit.
Proof.
  intros Hl. unfold uint_or_error, print_memory_max. destruct limit as [n|]; [|by vm_compute]. cbn [print_limit].
  rewrite (TrimSpace_word _ (FormatUint_word n Hl)). by rewrite ParseUint_FormatUint by (lia || exact Hl).
Qed.

(** C37: the statistics of a container in a group of version 2 are the numbers that the kernel
    prints in its files: the CPU time and the time it was throttled in seconds, the quota over
    the period as the limit in cores and none for max whatever the period, anonymous and mapped
    memory (added modulo 2^64), the page cache and the limit (0 for max), the operations and bytes of
    each device, and the seconds lost to pressure, each controller and each line with averages and
    a total of its own (zero for a full line that is not printed, nothing at all on a kernel without pressure
    accounting); keys that are not asked for do not matter.  The files hold 64-bit numbers, variables
    are not repeated, and io.stat gives the four numbers of a device before other pairs. *)
Theorem cgroup2_stats_read g cg path :
  printed g path -> group2_ok g -> path <> [] -> sub [] (subsystems cg) = path ->
  (forall c, c ∈ [str "cpu"; str "cpuacct"; str "memory"; str "blkio"] -> sub c (subsystems cg) = []) ->
  CpuStat cg = Some (MkCPUStat (per (value (g_cpu g) (str "usage_usec")) e6) (per (value (g_cpu g) (str "throttled_usec")) e6)
    (match (g_cpu_max g).1 with
     | Some q => if (g_cpu_max g).2 >? 0 then per q (g_cpu_max g).2 else zero
     | None => zero
     end)) /\
  MemoryStat_ cg = Some (MkMemoryStat (u64 (value (g_memory g) (str "anon") + value (g_memory g) (str "file_mapped")))
    (value (g_memory g) (str "file")) (default 0 (g_memory_max g))) /\
  IOStat_ cg = Some (fold_left (fun res d => <[d.1.1 := d.1.2]> res) (g_io g) ∅) /\
  PSI cg = (fun pressures =>
    let totals c := MkPressureTotals (per (p_some (pressures c)).2 e6)
      (match p_full (pressures c) with Some l => per l.2 e6 | None => zero end) in
    MkPSIStats (totals (str "cpu")) (totals (str "memory")) (totals (str "io"))) <$> g_pressure g.
Proof.
  intros (Hc & Hcm & Hm & Hmm & Hi & Hp) (Oc & Om & Oi & Ocq & Ocp & Omm & Op) Hpath Es Hv1.
  assert (bytes_eqb path [] = false) as Ep by by apply bool_decide_eq_false.
  rewrite <-Es in *. split_and!.
  - unfold CpuStat. rewrite (Hv1 (str "cpu")) by by left. cbn [orb]. unfold cpuStatV2. rewrite Ep.
    change (bytes_eqb [] []) with true. cbn [orb]. rewrite (readVariables_printed _ _ Hc Oc), Hcm, cpu_max_printed by (exact Ocq || exact Ocp). done.
  - unfold MemoryStat_. rewrite (Hv1 (str "memory")) by by do 2 right; left. change (bytes_eqb [] []) with true. cbv iota.
    unfold memoryStatV2. rewrite Ep, (readVariables_printed _ _ Hm Om), Hmm, memory_max_printed by exact Omm. done.
  - unfold IOStat_. rewrite (Hv1 (str "blkio")) by by do 3 right; left. change (bytes_eqb [] []) with true. cbv iota.
    unfold ioStatV2. rewrite Ep, Hi, Split_unlines, fold_left_app, io_printed by (exact Oi || (apply Forall_map; eapply Forall_impl;
      [exact Oi|]; intros [[dev s] rest] Hd; exact (words_no_newline _ (io_words _ Hd)))). done.
  - unfold PSI. rewrite Ep. destruct (g_pressure g) as [pressures|]; cbn [fmap option_fmap option_map from_option] in *.
    + assert (forall c, c ∈ [str "cpu"; str "memory"; str "io"] -> readPressure cg c =
        Some (MkPressureTotals (per (p_some (pressures c)).2 e6)
          (match p_full (pressures c) with Some l => per l.2 e6 | None => zero end))) as Hr
        by (intros c Hin; exact (readPressure_printed cg c _ (Hp c Hin) (Op c))).
      by rewrite (Hr (str "cpu")), (Hr (str "memory")), (Hr (str "io")) by repeat first [left; done|right].
    + unfold readPressure. by rewrite (Hp (str "cpu")) by by left.
Qed.

End stats.

(** *** A group *)

(** The CPU and the memory are under pressure, at different times. *)
Definition demo_pressure (c : bytes) : pressure :=
  if bytes_eqb c (str "cpu") then MkPressure ([str "avg10=1.50"; str "avg60=0.40"], 3000000) None
  else MkPressure ([str "avg10=0.25"], 2000000) (Some ([str "avg10=0.10"], 1000000)).

Definition demo_group : group2 :=
  MkGroup2 [(str "usage_usec", 2500000); (str "user_usec", 2000000); (str "throttled_usec", 1000000)] (Some 150000, 50000)
    [(str "anon", 4096); (str "file", 8192); (str "file_mapped", 1024)] None
    [(str "8:0", MkIOStat 3 4 1200 4800, [str "dbytes=0"])] (Some demo_pressure).

Definition demo_files (file : bytes) : option bytes :=
  let name := Join (drop 4 (Split file slash)) [slash] in
  if bytes_eqb name (str "cpu.stat") then Some (print_vars (g_cpu demo_group))
  else if bytes_eqb name (str "cpu.max") then Some (print_cpu_max (g_cpu_max demo_group))
  else if bytes_eqb name (str "memory.stat") then Some (print_vars (g_memory demo_group))
  else if bytes_eqb name (str "memory.max") then Some (print_memory_max (g_memory_max demo_group))
  else if bytes_eqb name (str "io.stat") then Some (unlines (map print_io (g_io demo_group)))
  else if existsb (bytes_eqb name) [str "cpu.pressure"; str "memory.pressure"; str "io.pressure"]
  then Some (print_pressure (demo_pressure (take (length name - 9) name))) else None.

Lemma demo_pressure_ok c : pressure_ok (demo_pressure c).
Proof.
  unfold demo_pressure. destruct (bytes_eqb c _); unfold pressure_ok, totals_ok, number; cbn [p_some p_full from_option fst snd];
    split_and!; try lia; try done; repeat apply Forall_cons_2; try apply Forall_nil_2;
    (split; [by apply word_check; vm_compute|by vm_compute]).
Qed.

Lemma demo_group_ok : group2_ok demo_group.
Proof.
  unfold group2_ok, vars_ok, number.
  cbn [demo_group g_cpu g_memory g_io g_cpu_max g_memory_max g_pressure fst snd from_option].
  split_and!; try lia; try done.
  - by apply (bool_decide_eq_true_1 _); vm_compute.
  - repeat apply Forall_cons_2; try apply Forall_nil_2; (split; [by apply word_check; vm_compute|by cbn; lia]).
  - by apply (bool_decide_eq_true_1 _); vm_compute.
  - repeat apply Forall_cons_2; try apply Forall_nil_2; (split; [by apply word_check; vm_compute|by cbn; lia]).
  - apply Forall_singleton. unfold io_ok, number. cbn [fst snd ReadBytes WrittenBytes ReadOps WriteOps].
    split_and!; try lia; [by apply word_check; vm_compute|]. apply Forall_singleton. split; [by apply word_check; vm_compute|].
    exists (str "dbytes"), (str "0"). split; [done|]. split; [by repeat constructor|].
    by apply (bool_decide_eq_true_1 _); vm_compute.
  - apply demo_pressure_ok.
Qed.

Definition demo_cgroup : Cgroup :=
  MkCgroup (str "/pod") ContainerTypeStandaloneProcess [] {[ [] := str "/pod" ]}.

Lemma demo_printed : printed demo_files (str "/cg2/x") demo_group (str "/pod").
Proof.
  unfold printed. split_and!; [by vm_compute..|]. intros c Hc. rewrite !elem_of_cons in Hc.
  by destruct Hc as [->|[->|[->|Hc%not_elem_of_nil]]]; [vm_compute..|].
Qed.

Lemma cgroup2_stats_read_witness :
  CpuStat demo_files (str "/cg") (str "/cg2/x") demo_cgroup = Some (MkCPUStat (per 2500000 e6) (per 1000000 e6) (per 150000 50000)) /\
  IOStat_ demo_files (str "/cg") (str "/cg2/x") demo_cgroup = Some {[ str "8:0" := MkIOStat 3 4 1200 4800 ]} /\
  PSI demo_files (str "/cg2/x") demo_cgroup =
    Some (MkPSIStats (MkPressureTotals (per 3000000 e6) zero) (MkPressureTotals (per 2000000 e6) (per 1000000 e6))
            (MkPressureTotals (per 2000000 e6) (per 1000000 e6))).
Proof.
  destruct (cgroup2_stats_read demo_files (str "/cg") (str "/cg2/x") demo_group demo_cgroup (str "/pod") demo_printed demo_group_ok)
    as (E1 & _ & E2 & E3); [done|by vm_compute| |].
  - intros c Hc. rewrite !elem_of_cons in Hc. by destruct Hc as [->|[->|[->|[->|Hc%not_elem_of_nil]]]]; [vm_compute..|].
  - split_and!; [rewrite E1; by vm_compute|rewrite E2; by vm_compute|rewrite E3; by vm_compute].
Defined.

End CgroupStats.
