(* ===== verification/Symbols.v ===== *)
(** * Symbol tables

    internal/pyroscope-ebpf/symtab: the profiler turns the addresses of a stack into names.
    gosym/pcindex.go holds sorted addresses in 32 bits as long as they fit, table.go and
    kallsyms.go the symbols of the kernel, perfmap.go those that a just-in-time compiler
    writes to a file.  All of them search by bisection. *)

From stdpp Require Import sorting.
From S2P Require Import Prelude GoLib GoText GoLines.

Module Symbols.
Import GoText GoLines.

(** ** Bisection *)

(** The loop of [slices.BinarySearchFunc] and [sort.Search]: the interval is halved until it is
    empty, so the fuel is its length. *)
Fixpoint bisect {A} (before : A -> bool) (l : list A) (fuel i j : nat) : nat :=
  match fuel with
  | O => i
  | S fuel =>
      if (i <? j)%nat then
        let h := ((i + j) / 2)%nat in
        match l !! h with
        | Some x => if before x then bisect before l fuel (S h) j else bisect before l fuel i h
        | None => i
        end
      else i
  end.

(** [slices.BinarySearchFunc]; [cmp] compares an element with the target. *)
Definition BinarySearchFunc {A} (cmp : A -> Z) (l : list A) : nat * bool :=
  let i := bisect (fun x => cmp x <? 0) l (length l) 0 (length l) in
  (i, match l !! i with Some x => cmp x =? 0 | None => false end).

Definition BinarySearch (l : list Z) (target : Z) : nat * bool := BinarySearchFunc (fun x => x - target) l.

(** [sort.Search] over the indices of a slice. *)
Definition Search {A} (f : A -> bool) (l : list A) : nat := bisect (fun x => negb (f x)) l (length l) 0 (length l).

(** [sort.Slice] and [slices.SortFunc] are not stable: all they promise is a sorted permutation. *)
Class Sort {A} (key : A -> Z) (sort : list A -> list A) : Prop := {
  sort_perm l : sort l ≡ₚ l;
  sort_sorted l : StronglySorted (fun a b => key a <= key b) (sort l)
}.

Definition key_le {A} (key : A -> Z) (a b : A) : Prop := key a <= key b.

#[export] Instance key_le_dec {A} (key : A -> Z) a b : Decision (key_le key a b) := Z_le_dec (key a) (key b).

#[export] Instance key_le_total {A} (key : A -> Z) : Total (key_le key).
Proof. intros a b. unfold key_le. lia. Qed.

#[export] Instance key_le_trans {A} (key : A -> Z) : Transitive (key_le key).
Proof. intros a b c. unfold key_le. lia. Qed.

#[export] Instance merge_sort_Sort {A} (key : A -> Z) : Sort key (merge_sort (key_le key)).
Proof. split; intros l; [apply merge_sort_Permutation|apply (StronglySorted_merge_sort (key_le key))]. Qed.

(** ** Indices of addresses *)

(** [l[i]] and [l[i] = v] *)
Definition get_at (l : list Z) (i : Z) : go Z :=
  if i <? 0 then Panic else match l !! Z.to_nat i with Some v => Val v | None => Panic end.

Definition set_at (l : list Z) (i : nat) (v : Z) : go (list Z) :=
  if (i <? length l)%nat then Val (<[i := v]> l) else Panic.

(** A slice is [None] when it is nil. *)
Record PCIndex := MkPCIndex { i32 : option (list Z); i64 : option (list Z) }.

Definition MaxUint32 : Z := 2 ^ 32 - 1.

Definition NewPCIndex (sz : nat) : PCIndex := MkPCIndex (Some (replicate sz 0)) None.

Definition setImpl (it : PCIndex) (idx : nat) (value : Z) : go PCIndex :=
  match i32 it with
  | Some l =>
      if value >=? MaxUint32 then
        if (idx <? length l)%nat
        then Val (MkPCIndex None (Some (<[idx := value]> (take idx l ++ replicate (length l - idx) 0))))
        else Panic
      else let! l := set_at l idx (u32 value) in Val (MkPCIndex (Some l) (i64 it))
  | None => let! l := set_at (default [] (i64 it)) idx value in Val (MkPCIndex None (Some l))
  end.

Definition Set_ (it : PCIndex) (idx : nat) (value : Z) : go PCIndex :=
  match i32 it with
  | Some l =>
      if value <? MaxUint32 then let! l := set_at l idx (u32 value) in Val (MkPCIndex (Some l) (i64 it))
      else setImpl it idx value
  | None => setImpl it idx value
  end.

Definition values (it : PCIndex) : list Z := match i32 it with Some l => l | None => default [] (i64 it) end.

Definition Length (it : PCIndex) : nat := length (values it).
Definition Get (it : PCIndex) (idx : Z) : go Z := get_at (values it) idx.

(** The loop that goes back to the first of a run of equal addresses. *)
Fixpoint run_start (l : list Z) (v : Z) (i : nat) : nat :=
  match i with
  | O => O
  | S k => match l !! k with Some w => if w =? v then run_start l v k else i | None => i end
  end.

(** What both halves of [FindIndex] do when the address is not below the first. *)
Definition find_in (l : list Z) (addr : Z) : go Z :=
  let '(i, found) := BinarySearch l addr in
  if found then Val (Z.of_nat i)
  else let! v := get_at l (Z.of_nat i - 1) in Val (Z.of_nat (run_start l v (i - 1))).

Definition FindIndex (it : PCIndex) (addr : Z) : go Z :=
  match i32 it with
  | Some l => let! first := get_at l 0 in if addr <? first then Val (-1) else find_in l (u32 addr)
  | None => let l := default [] (i64 it) in
            let! first := get_at l 0 in if addr <? first then Val (-1) else find_in l addr
  end.

(** [for i := range vs { it.Set(i, vs[i]) }] *)
Fixpoint fill (it : PCIndex) (idx : nat) (vs : list Z) : go PCIndex :=
  match vs with
  | [] => Val it
  | v :: vs => let! it := Set_ it idx v in fill it (S idx) vs
  end.

(** *** The reference: the first of the greatest addresses that are not above *)

Fixpoint index_of (v : Z) (vs : list Z) : Z :=
  match vs with [] => 0 | w :: vs => if w =? v then 0 else 1 + index_of v vs end.

Definition scan (vs : list Z) (addr : Z) : Z :=
  match last (filter (fun v => v <= addr) vs) with Some v => index_of v vs | None => -1 end.

(** ** Tables of symbols *)

Record Symbol := MkSymbol { Start : Z; Name : bytes; Module_ : bytes; generation : nat; size : Z }.

Definition no_symbol : Symbol := MkSymbol 0 [] [] 0 0.

Record SymbolTab := NewSymbolTab { symbols : list Symbol; base : Z }.

Definition Resolve (t : SymbolTab) (addr : Z) : go Symbol :=
  match symbols t with
  | [] => Val no_symbol
  | s :: _ =>
      let addr := u64 (addr - base t) in
      if addr <? Start s then Val no_symbol
      else let i := Search (fun x => addr <? Start x) (symbols t) in
           match i with
           | O => Panic
           | S k => match symbols t !! k with Some s => Val s | None => Panic end
           end
  end.

(** ** Bisection finds the border *)

Lemma bisect_spec {A} (before : A -> bool) (a b : list A) fuel i j :
  Forall (fun x => before x = true) a -> Forall (fun x => before x = false) b ->
  (i <= length a <= j)%nat -> (j <= length (a ++ b))%nat -> (j - i <= fuel)%nat ->
  bisect before (a ++ b) fuel i j = length a.
Proof.
  intros Ha Hb. revert i j. induction fuel as [|fuel IH]; intros i j Hi Hj Hf; cbn [bisect]; [lia|].
  destruct (Nat.ltb_spec i j); [|lia]. set (h := ((i + j) / 2)%nat).
  assert (i <= h < j)%nat as Hh by (unfold h; split; [apply Nat.div_le_lower_bound|apply Nat.Div0.div_lt_upper_bound]; lia).
  destruct (lookup_lt_is_Some_2 (a ++ b) h) as [x Ex]; [lia|]. rewrite Ex.
  apply lookup_app_Some in Ex as [Ex|[Hl Ex]].
  - rewrite (Forall_lookup_1 _ _ _ _ Ha Ex). apply lookup_lt_Some in Ex. apply IH; lia.
  - rewrite (Forall_lookup_1 _ _ _ _ Hb Ex). apply IH; lia.
Qed.

(** A sorted list has a border at each key. *)
Lemma sorted_split {A} (key : A -> Z) (l : list A) t :
  StronglySorted (fun a b => key a <= key b) l ->
  exists a b, l = a ++ b /\ Forall (fun x => key x < t) a /\ Forall (fun x => t <= key x) b.
Proof.
  induction 1 as [|x l Hl (a & b & -> & Ha & Hb) Hx]; [by exists [], []|].
  destruct (Z.lt_decidable (key x) t) as [Hlt|Hge].
  - exists (x :: a), b. split; [done|]. by split; [constructor|].
  - exists [], (x :: a ++ b). split; [done|]. split; [constructor|].
    constructor; [lia|]. eapply Forall_impl; [exact Hx|]. cbn. lia.
Qed.

Lemma BinarySearch_split a b t :
  Forall (fun x => x < t) a -> Forall (fun x => t <= x) b ->
  BinarySearch (a ++ b) t = (length a, match b with x :: _ => x =? t | [] => false end).
Proof.
  intros Ha Hb. unfold BinarySearch, BinarySearchFunc. rewrite bisect_spec; [|..]; rewrite ?length_app; try lia.
  - f_equal. rewrite lookup_app_r, Nat.sub_diag by lia. destruct b as [|x b]; [done|]. cbn. lia.
  - eapply Forall_impl; [exact Ha|]. cbn. lia.
  - eapply Forall_impl; [exact Hb|]. cbn. lia.
Qed.

(** ** The index is filled as it should *)

(** After the addresses [vs] of [n] have been set: in 32 bits, or in 64 once one did not fit. *)
Definition holds (it : PCIndex) (n : nat) (vs : list Z) : Prop :=
  (length vs <= n)%nat /\
  if forallb (fun v => v <? MaxUint32) vs
  then it = MkPCIndex (Some (vs ++ replicate (n - length vs) 0)) None
  else it = MkPCIndex None (Some (vs ++ replicate (n - length vs) 0)).

Lemma insert_next (vs : list Z) v k : (0 < k)%nat -> <[length vs := v]> (vs ++ replicate k 0) = (vs ++ [v]) ++ replicate (k - 1) 0.
Proof.
  intros Hk. destruct k as [|k]; [lia|]. rewrite insert_app_r_alt, Nat.sub_diag by lia. cbn.
  by rewrite Nat.sub_0_r, <-app_assoc.
Qed.

Lemma Set_holds it n vs v :
  0 <= v < 2 ^ 64 -> (length vs < n)%nat -> holds it n vs ->
  exists it', Set_ it (length vs) v = Val it' /\ holds it' n (vs ++ [v]).
Proof.
  intros Hv Hn [_ Hit]. unfold holds. rewrite length_app, forallb_app. cbn [forallb length]. rewrite andb_true_r.
  replace (n - (length vs + 1))%nat with (n - length vs - 1)%nat by lia.
  assert (length (vs ++ replicate (n - length vs) 0) = n) as El by (rewrite length_app, length_replicate; lia).
  unfold MaxUint32 in *. destruct (forallb _ vs); subst it; unfold Set_, setImpl, set_at; cbn [i32 i64 andb]; unfold MaxUint32.
  - destruct (Z.ltb_spec v (2 ^ 32 - 1)).
    + rewrite El. destruct (Nat.ltb_spec (length vs) n); [|lia]. eexists. split; [done|]. split; [lia|].
      rewrite insert_next by lia. by rewrite u32_small by lia.
    + destruct (Z.geb_spec v (2 ^ 32 - 1)); [|lia]. rewrite El. destruct (Nat.ltb_spec (length vs) n); [|lia].
      eexists. split; [done|]. split; [lia|]. rewrite take_app_length, insert_next by lia. done.
  - cbn [from_option id]. rewrite El. destruct (Nat.ltb_spec (length vs) n); [|lia]. eexists. split; [done|]. split; [lia|].
    by rewrite insert_next by lia.
Qed.

Lemma fill_holds ws it n vs :
  Forall (fun v => 0 <= v < 2 ^ 64) ws -> (length vs + length ws <= n)%nat -> holds it n vs ->
  exists it', fill it (length vs) ws = Val it' /\ holds it' n (vs ++ ws).
Proof.
  intros Hws. revert it vs. induction Hws as [|w ws Hw _ IH]; intros it vs Hn Hit; cbn [fill length] in *.
  - exists it. by rewrite app_nil_r.
  - destruct (Set_holds it n vs w Hw ltac:(lia) Hit) as (it' & -> & Hit'). 
    destruct (IH it' (vs ++ [w])) as (it'' & Ef & H''); [rewrite length_app; cbn; lia|done|].
    exists it''. rewrite length_app, Nat.add_1_r in Ef. rewrite <-app_assoc in H''. done.
Qed.

Lemma index_filled vs :
  Forall (fun v => 0 <= v < 2 ^ 64) vs ->
  fill (NewPCIndex (length vs)) 0 vs =
  Val (if forallb (fun v => v <? MaxUint32) vs then MkPCIndex (Some vs) None else MkPCIndex None (Some vs)).
Proof.
  intros Hvs. destruct (fill_holds vs (NewPCIndex (length vs)) (length vs) []) as (it & Ef & _ & Hit); [done|cbn; lia| |].
  - split; [cbn; lia|]. cbn. by rewrite Nat.sub_0_r.
  - cbn [length] in Ef. rewrite Ef. cbn [app] in Hit. rewrite Nat.sub_diag, app_nil_r in Hit. by destruct (forallb _ _); rewrite Hit.
Qed.

(** ** The search is the scan *)

Lemma index_of_split v p q : v ∉ p -> index_of v (p ++ v :: q) = Z.of_nat (length p).
Proof.
  induction p as [|w p IH]; intros Hv; cbn [app index_of]; [by rewrite Z.eqb_refl|].
  rewrite not_elem_of_cons in Hv. destruct (Z.eqb_spec w v); [naive_solver|]. rewrite IH by naive_solver. cbn [length]. lia.
Qed.

Lemma run_start_spec l v k :
  l !! k = Some v -> l !! run_start l v k = Some v /\ forall j, run_start l v k = S j -> l !! j <> Some v.
Proof.
  induction k as [|k IH]; intros Hk; cbn [run_start]; [done|].
  destruct (lookup_lt_is_Some_2 l k) as [w Ew]; [apply lookup_lt_Some in Hk; lia|]. rewrite Ew.
  destruct (Z.eqb_spec w v) as [->|Hne]; [by apply IH|]. split; [done|]. intros j [= <-]. rewrite Ew. congruence.
Qed.

Lemma sorted_lookup l i j x y :
  StronglySorted (fun a b : Z => a <= b) l -> l !! i = Some x -> l !! j = Some y -> (i <= j)%nat -> x <= y.
Proof.
  intros Hs. revert i j. induction Hs as [|z l _ IH Hz]; intros i j Hi Hj Hij; [done|].
  destruct i as [|i], j as [|j]; cbn in *; simplify_eq; [lia| |lia|by eapply IH; [done..|lia]].
  by apply (Forall_lookup_1 _ _ _ _ Hz Hj).
Qed.

Lemma run_start_index l v k :
  StronglySorted (fun a b => a <= b) l -> l !! k = Some v -> Z.of_nat (run_start l v k) = index_of v l.
Proof.
  intros Hs Hk. destruct (run_start_spec l v k Hk) as [Hr Hbefore]. set (r := run_start l v k) in *.
  rewrite <-(take_drop_middle l r v Hr) at 1. rewrite index_of_split; [by rewrite length_take_le by (apply lookup_lt_Some in Hr; lia)|].
  intros [i Hi]%list_elem_of_lookup. apply lookup_take_Some in Hi as [Hi Hlt]. destruct r as [|j] eqn:Er; [lia|].
  destruct (lookup_lt_is_Some_2 l j) as [w Hw]; [apply lookup_lt_Some in Hr; lia|].
  apply (Hbefore j eq_refl). rewrite Hw. f_equal.
  assert (v <= w) by (eapply sorted_lookup; [exact Hs|exact Hi|exact Hw|lia]).
  assert (w <= v) by (eapply sorted_lookup; [exact Hs|exact Hw|exact Hr|lia]). lia.
Qed.

Lemma index_of_nonneg v l : 0 <= index_of v l.
Proof. induction l as [|w l IH]; cbn [index_of]; [done|]. case_match; lia. Qed.

(** The scan stops at the greatest address that is not above. *)
Lemma scan_floor l addr v :
  StronglySorted (fun a b => a <= b) l -> v ∈ l -> v <= addr -> (forall x, x ∈ l -> x <= addr -> x <= v) ->
  scan l addr = index_of v l.
Proof.
  intros Hs Hin Hv Hmax. unfold scan. destruct (last _) as [w|] eqn:E.
  - assert (w <= addr) as Hw by by apply last_Some_elem_of, list_elem_of_filter in E as [].
    apply last_filter_Some in E as (l1 & l2 & -> & Hl2). f_equal.
    assert (w <= v) by (apply Hmax; [set_solver|done]).
    rewrite elem_of_app, elem_of_cons in Hin. destruct Hin as [Hin|[->|Hin]]; [|done|].
    + apply list_elem_of_lookup in Hin as [i Hi]. assert (v <= w); [|lia].
      apply (sorted_lookup _ i (length l1) _ _ Hs); [by apply lookup_app_l_Some|by rewrite lookup_app_r, Nat.sub_diag by lia|].
      apply lookup_lt_Some in Hi. lia.
    + rewrite Forall_forall in Hl2. by apply Hl2 in Hin.
  - apply last_None in E. by destruct (filter_nil_not_elem_of _ _ v E Hv).
Qed.

Lemma scan_below l addr : (forall x, x ∈ l -> addr < x) -> scan l addr = -1.
Proof.
  intros Hl. unfold scan. destruct (last _) as [w|] eqn:E; [|done].
  apply last_Some_elem_of, list_elem_of_filter in E as [Hw Hin]. apply Hl in Hin. lia.
Qed.

Lemma find_in_scan l addr :
  StronglySorted (fun a b => a <= b) l ->
  find_in l addr = if scan l addr =? -1 then Panic else Val (scan l addr).
Proof.
  intros Hs. destruct (sorted_split (fun x => x) l addr Hs) as (a & b & El & Ha & Hb).
  unfold find_in. rewrite El at 1. rewrite (BinarySearch_split a b addr Ha Hb).
  assert (forall w, scan l addr = index_of w l -> Val (index_of w l) = if scan l addr =? -1 then Panic else Val (scan l addr)) as Hval.
  { intros w ->. pose proof (index_of_nonneg w l). by destruct (Z.eqb_spec (index_of w l) (-1)); [lia|]. }
  rewrite Forall_forall in Ha, Hb.
  destruct (match b with x :: _ => x =? addr | [] => false end) eqn:Ef.
  - destruct b as [|x b]; [done|]. apply Z.eqb_eq in Ef as ->.
    rewrite <-Hval with (w := addr).
    + f_equal. rewrite El, index_of_split; [done|]. intros Hin%Ha. lia.
    + apply scan_floor; [done|subst l; set_solver|lia|by intros].
  - assert (forall x, x ∈ b -> addr < x) as Hb'.
    { intros x Hx. destruct b as [|y b]; [by apply not_elem_of_nil in Hx|]. apply Z.eqb_neq in Ef.
      assert (addr < y) by (pose proof (Hb y ltac:(by left)); lia).
      apply list_elem_of_lookup in Hx as [i Hi]. subst l. apply (Z.lt_le_trans _ y); [done|].
      apply (sorted_lookup _ (length a) (length a + i) _ _ Hs); [by rewrite lookup_app_r, Nat.sub_diag by lia| |lia].
      rewrite lookup_app_r by lia. by replace (length a + i - length a)%nat with i by lia. }
    destruct (decide (a = [])) as [->|Hne].
    + cbn [app] in El. subst l. by rewrite scan_below by exact Hb'.
    + assert (exists a0 w, a = a0 ++ [w]) as (a0 & w & ->) by (destruct a using rev_ind; [done|by eauto]).
      assert (l !! (length a0) = Some w) as Hw by (subst l; by rewrite <-app_assoc, lookup_app_r, Nat.sub_diag by lia).
      rewrite length_app, Nat.add_sub. cbn [length]. unfold get_at.
      destruct (Z.ltb_spec (Z.of_nat (length a0 + 1) - 1) 0); [lia|].
      replace (Z.to_nat (Z.of_nat (length a0 + 1) - 1)) with (length a0) by lia. rewrite Hw, run_start_index by done.
      apply Hval, scan_floor; [done|by eapply list_elem_of_lookup_2|pose proof (Ha w ltac:(set_solver)); lia|].
      intros x Hx Hle. subst l. rewrite elem_of_app in Hx. destruct Hx as [Hx|Hx%Hb']; [|lia].
      rewrite elem_of_app, list_elem_of_singleton in Hx. destruct Hx as [Hx| ->]; [|done].
      apply list_elem_of_lookup in Hx as [i Hi]. pose proof (lookup_lt_Some _ _ _ Hi).
      apply (sorted_lookup _ i (length a0) _ _ Hs); [|done|lia]. by rewrite <-app_assoc; apply lookup_app_l_Some.
Qed.

Lemma head_floor v vs addr :
  StronglySorted (fun a b => a <= b) (v :: vs) -> (scan (v :: vs) addr =? -1) = (addr <? v).
Proof.
  intros Hs. destruct (Z.ltb_spec addr v) as [Hlt|Hge].
  - rewrite scan_below; [done|]. intros x Hx. apply StronglySorted_inv in Hs as [_ Hs]. rewrite Forall_forall in Hs.
    rewrite elem_of_cons in Hx. destruct Hx as [->|Hx%Hs]; lia.
  - unfold scan. rewrite filter_cons_True by lia. destruct (last _) as [w|] eqn:E; [|by apply last_None in E].
    pose proof (index_of_nonneg w (v :: vs)). by apply Z.eqb_neq; lia.
Qed.

Definition filled (vs : list Z) : PCIndex :=
  if forallb (fun v => v <? MaxUint32) vs then MkPCIndex (Some vs) None else MkPCIndex None (Some vs).

Lemma filled_scan vs addr :
  vs <> [] -> StronglySorted (fun a b => a <= b) vs -> 0 <= addr < 2 ^ 64 ->
  addr < 2 ^ 32 \/ Exists (fun v => MaxUint32 <= v) vs -> FindIndex (filled vs) addr = Val (scan vs addr).
Proof.
  intros Hne Hs Haddr Hwide. destruct vs as [|v vs]; [done|].
  assert (forall a, 0 <= a -> (if a <? v then Val (-1) else find_in (v :: vs) a) = Val (scan (v :: vs) a)) as Hfind.
  { intros a Ha. rewrite find_in_scan, <-(head_floor v vs a) by done. destruct (Z.eqb_spec (scan (v :: vs) a) (-1)) as [->|]; done. }
  unfold filled. destruct (forallb _ _) eqn:E; unfold FindIndex; cbn [i32 i64 from_option id].
  - rewrite forallb_forall in E. change (get_at (v :: vs) 0) with (Val v). cbv iota.
    destruct Hwide as [Hsmall|(w & Hin & Hw)%Exists_exists].
    + rewrite u32_small by lia. apply Hfind. lia.
    + apply list_elem_of_In, E in Hin. lia.
  - apply Hfind. lia.
Qed.

(** C25: The index of sorted addresses, kept in 32 bits while they fit, finds by bisection what a
    scan of the addresses finds: the first of the greatest that are not above the one
    looked for, or -1; for addresses of 32 bits, and for all if one of the index does not
    fit into 32 bits. *)
Theorem FindIndex_scan vs addr :
  vs <> [] -> StronglySorted (fun a b => a <= b) vs -> Forall (fun v => 0 <= v < 2 ^ 64) vs -> 0 <= addr < 2 ^ 64 ->
  addr < 2 ^ 32 \/ Exists (fun v => MaxUint32 <= v) vs ->
  exists it, fill (NewPCIndex (length vs)) 0 vs = Val it /\ FindIndex it addr = Val (scan vs addr).
Proof.
  intros Hne Hs Hvs Haddr Hwide. exists (filled vs). by rewrite index_filled, filled_scan.
Qed.

Lemma FindIndex_scan_witness :
  exists it, fill (NewPCIndex 4) 0 [4096; 8192; 8192; 5000000000] = Val it /\ FindIndex it 9000 = Val 1.
Proof.
  destruct (FindIndex_scan [4096; 8192; 8192; 5000000000] 9000) as (it & E1 & E2); [done| | | | |].
  - repeat constructor; lia.
  - repeat (apply Forall_cons_2; [lia|]). constructor.
  - lia.
  - left. lia.
  - by exists it.
Defined.

(** An address of more than 32 bits that is looked for in an index of 32 bits is cut to its
    low half after it was compared with the first: the search panics when the low half is
    below all addresses of the index, and gives the index of an unrelated one else. *)
Theorem wide_address_panics v vs addr :
  StronglySorted (fun a b => a <= b) (v :: vs) -> Forall (fun v => 0 <= v < MaxUint32) (v :: vs) -> 2 ^ 32 <= addr < 2 ^ 64 ->
  exists it, fill (NewPCIndex (length (v :: vs))) 0 (v :: vs) = Val it /\
    FindIndex it addr = if u32 addr <? v then Panic else Val (scan (v :: vs) (u32 addr)).
Proof.
  intros Hs Hvs Haddr. rewrite index_filled by (eapply Forall_impl; [exact Hvs|]; unfold MaxUint32; cbn; lia).
  eexists. split; [done|].
  replace (forallb _ _) with true.
  - unfold FindIndex. cbn [i32]. change (get_at (v :: vs) 0) with (Val v). cbv iota.
    apply Forall_cons_1 in Hvs as [Hv _]. unfold MaxUint32 in Hv. destruct (Z.ltb_spec addr v); [lia|].
    by rewrite find_in_scan, head_floor by done.
  - symmetry. apply forallb_forall. intros x Hx. rewrite Forall_forall in Hvs. apply list_elem_of_In, Hvs in Hx. lia.
Qed.

Lemma wide_address_panics_witness :
  exists it, fill (NewPCIndex 2) 0 [4096; 8192] = Val it /\ FindIndex it (2 ^ 32 + 64) = Panic.
Proof.
  destruct (wide_address_panics 4096 [8192] (2 ^ 32 + 64)) as (it & E1 & E2).
  - repeat constructor; lia.
  - unfold MaxUint32. repeat (apply Forall_cons_2; [lia|]). constructor.
  - lia.
  - exists it. split; [done|]. rewrite E2. by vm_compute.
Defined.

(** ** The symbol of an address *)

(** A table is sorted; its symbol of an address is the last of those that start at the
    greatest address which is not above. *)
Lemma Resolve_spec syms b addr :
  StronglySorted (fun x y => Start x <= Start y) syms -> Forall (fun x => 0 <= Start x < 2 ^ 64) syms ->
  let a := u64 (addr - b) in
  (Forall (fun x => a < Start x) syms /\ Resolve (NewSymbolTab syms b) addr = Val no_symbol) \/
  (exists s, s ∈ syms /\ Resolve (NewSymbolTab syms b) addr = Val s /\ Start s <= a /\
     forall x, x ∈ syms -> Start x <= a -> Start x <= Start s).
Proof.
  intros Hs Hr a. destruct (sorted_split Start syms (a + 1) Hs) as (p & q & E & Hp & Hq).
  rewrite Forall_forall in Hp. destruct (decide (p = [])) as [->|Hne].
  - left. cbn [app] in E. subst q. split; [eapply Forall_impl; [exact Hq|]; cbn; lia|].
    unfold Resolve. cbn [symbols base]. destruct syms as [|x syms]; [done|]. fold a.
    apply Forall_cons_1 in Hq as [Hx _]. by destruct (Z.ltb_spec a (Start x)); [|lia].
  - right. assert (exists p0 s, p = p0 ++ [s]) as (p0 & s & ->) by (destruct p using rev_ind; [done|by eauto]).
    assert (syms !! length p0 = Some s) as Hk by (subst syms; by rewrite <-app_assoc, lookup_app_r, Nat.sub_diag by lia).
    pose proof (Hp s ltac:(set_solver)) as Hsa. exists s. split_and!; [by eapply list_elem_of_lookup_2| |lia|].
    + unfold Resolve. cbn [symbols base]. fold a.
      assert (Search (fun x => a <? Start x) syms = S (length p0)) as ->.
      { unfold Search. rewrite E at 1. rewrite bisect_spec; rewrite ?length_app; cbn [length]; try lia.
        - apply Forall_forall. intros x Hx%Hp. by apply negb_true_iff, Z.ltb_ge; lia.
        - eapply Forall_impl; [exact Hq|]. cbn. intros x Hx. by apply negb_false_iff, Z.ltb_lt; lia.
        - subst syms. rewrite !length_app. cbn [length]. lia.
        - subst syms. rewrite !length_app. cbn [length]. lia. }
      rewrite Hk. destruct syms as [|x syms]; [done|].
      assert (Start x <= a); [|by destruct (Z.ltb_spec a (Start x)); [lia|]].
      assert (x ∈ p0 ++ [s]) as Hx%Hp by (destruct p0; cbn in E; injection E as -> _; by left). lia.
    + intros x Hx Hxa. subst syms. rewrite elem_of_app in Hx. rewrite Forall_forall in Hq.
      destruct Hx as [Hx|Hx%Hq]; [|lia]. rewrite elem_of_app, list_elem_of_singleton in Hx.
      destruct Hx as [Hx| ->]; [|done]. apply list_elem_of_lookup in Hx as [i Hi].
      rewrite <-app_assoc in Hs. apply (StronglySorted_app_1_elem_of _ _ _ x s Hs); [by eapply list_elem_of_lookup_2|by left].
Qed.

End Symbols.
