(* ===== verification/SymbolFiles.v ===== *)
(** * Files of symbols

    internal/pyroscope-ebpf/symtab/kallsyms.go reads /proc/kallsyms, the symbols of the
    kernel, and perfmap.go the file that a just-in-time compiler appends the code it
    generates to.  The files are read back, and addresses resolved to the symbols in them. *)

From stdpp Require Import sorting.
From S2P Require Import Prelude GoLib GoText GoLines Symbols.

Module SymbolFiles.
Import GoText GoLines Symbols.

(** ** Hexadecimal numbers *)

Definition hex_digit (c : Z) : option Z :=
  if (48 <=? c) && (c <=? 57) then Some (c - 48)
  else if (97 <=? c) && (c <=? 102) then Some (c - 87)
  else if (65 <=? c) && (c <=? 70) then Some (c - 55)
  else None.

Fixpoint hex_value (acc : Z) (s : bytes) : option Z :=
  match s with
  | [] => Some acc
  | c :: s => let? d := hex_digit c else None in hex_value (acc * 16 + d) s
  end.

(** [strconv.ParseUint(s, 16, 64)]; [None] is an error. *)
Definition ParseHex (s : bytes) : option Z :=
  match s with
  | [] => None
  | _ => let? n := hex_value 0 s else None in if n <? 2 ^ 64 then Some n else None
  end.

(** ** Symbols of the kernel *)

Section kallsyms.
Context (amd64 : bool) (sort : list Symbol -> list Symbol).

Definition kernelAddrSpace : Z := if amd64 then 0x00ffffffffffffff else 0.

(** Data: not the addresses of code. *)
Definition data_type (c : Z) : bool := existsb (Z.eqb c) (str "bBdDrR").

Definition kallsymsModule : bytes := str "kernel".

(** One line: [Some None] if it is passed over, [None] an error. *)
Definition kallsyms_line (line : bytes) : go (option (option Symbol)) :=
  if bytes_eqb line [] then Val (Some None)
  else
  let '(addr, line, found) := Cut line (str " ") in
  if negb found then Val None
  else
  let '(typ, line, found) := Cut line (str " ") in
  if negb found then Val None
  else
  let '(name, modl, found) := Cut line [9] in
  let modl := if found then modl else kallsymsModule in
  match typ with
  | [] => Panic
  | c :: _ =>
      if data_type c then Val (Some None)
      else match ParseHex addr with
           | None => Val None
           | Some istart =>
               if istart <? kernelAddrSpace then Val (Some None)
               else let modl := if HasPrefix modl (str "[") && HasSuffix modl (str "]") then take (length modl - 2) (drop 1 modl) else modl in
                    Val (Some (Some (MkSymbol istart name modl 0 0)))
           end
  end.

Fixpoint kallsyms_lines (lines : list bytes) : go (option (list Symbol)) :=
  match lines with
  | [] => Val (Some [])
  | line :: lines =>
      let! s := kallsyms_line line in
      match s with
      | None => Val None
      | Some s => let! rest := kallsyms_lines lines in
                  Val (let? rest := rest else None in Some (match s with Some s => s :: rest | None => rest end))
      end
  end.

Definition NewKallsymsFromData (kallsyms : bytes) : go (option SymbolTab) :=
  let! syms := kallsyms_lines (Split kallsyms 10) in
  Val (let? syms := syms else None in
       if forallb (fun s => Start s =? 0) syms then Some (NewSymbolTab [] 0)
       else Some (NewSymbolTab (sort syms) 0)).

End kallsyms.

(** ** Symbols of generated code *)

(** [prev.Start+prev.size], in 64 bits. *)
Definition End_ (s : Symbol) : Z := u64 (Start s + size s).

(** The loop of [removeOverlaps]: [prev] is the last that is still valid; of two that overlap
    the one that was written later stays. *)
Fixpoint remove_from (prev : Symbol) (syms : list Symbol) : list Symbol :=
  match syms with
  | [] => [prev]
  | curr :: syms =>
      if End_ prev >? Start curr then
        if (generation curr <? generation prev)%nat then remove_from prev syms else remove_from curr syms
      else prev :: remove_from curr syms
  end.

Definition removeOverlaps (syms : list Symbol) : list Symbol :=
  match syms with [] => [] | s :: syms => remove_from s syms end.

Definition perf_line (i : nat) (line : bytes) : option Symbol :=
  match SplitN 3 line 32 with
  | [start; len; name] =>
      let? start := ParseHex (TrimPrefix start (str "0x")) else None in
      let? len := ParseHex (TrimPrefix len (str "0x")) else None in
      Some (MkSymbol start name [] i len)
  | _ => None
  end.

Fixpoint perf_lines (i : nat) (lines : list bytes) : option (list Symbol) :=
  match lines with
  | [] => Some []
  | line :: lines =>
      let? s := perf_line i line else None in
      let? rest := perf_lines (S i) lines else None in Some (s :: rest)
  end.

Section perf.
Context (sort : list Symbol -> list Symbol).

Definition parsePerfMap (data : bytes) : option (list Symbol) :=
  let? syms := perf_lines 0 (ScanLines data) else None in
  if ScanErr data then None else Some (removeOverlaps (sort syms)).

End perf.

Definition perf_cmp (pc : Z) (s : Symbol) : Z := if Start s <=? pc then if pc <? End_ s then 0 else -1 else 1.

Definition PerfMap_Resolve (syms : list Symbol) (pc : Z) : Symbol :=
  let '(i, ok) := BinarySearchFunc (perf_cmp pc) syms in
  if ok then default no_symbol (syms !! i) else no_symbol.

(** ** The numbers in the files *)

Definition hex_char (d : Z) : Z := if d <? 10 then 48 + d else 87 + d.

(** The [k] low digits of a number. *)
Fixpoint hex_fixed (k : nat) (n : Z) : bytes :=
  match k with O => [] | S k => hex_fixed k (n / 16) ++ [hex_char (n mod 16)] end.

Lemma hex_digit_char d : 0 <= d < 16 -> hex_digit (hex_char d) = Some d.
Proof. intros Hd. unfold hex_digit, hex_char. repeat case_match; f_equal; lia. Qed.

Lemma hex_value_snoc acc s c :
  hex_value acc (s ++ [c]) = let? v := hex_value acc s else None in let? d := hex_digit c else None in Some (v * 16 + d).
Proof. revert acc. induction s as [|b s IH]; intros acc; cbn [app hex_value]; [done|]. by destruct (hex_digit b). Qed.

Lemma hex_value_fixed acc k n : 0 <= n < 16 ^ Z.of_nat k -> hex_value acc (hex_fixed k n) = Some (acc * 16 ^ Z.of_nat k + n).
Proof.
  revert n. induction k as [|k IH]; intros n Hn; cbn [hex_fixed].
  - cbn [hex_value]. change (16 ^ Z.of_nat 0) with 1 in *. f_equal. lia.
  - rewrite Nat2Z.inj_succ, Z.pow_succ_r in * by lia.
    pose proof (Z.mod_pos_bound n 16). pose proof (Z.div_mod n 16).
    rewrite hex_value_snoc, IH, hex_digit_char by (split; [apply Z.div_pos|apply Z.div_lt_upper_bound]; lia) || lia.
    f_equal. lia.
Qed.

Lemma hex_fixed_chars k n : Forall (fun c => 48 <= c <= 57 \/ 97 <= c <= 102) (hex_fixed k n).
Proof.
  revert n. induction k as [|k IH]; intros n; cbn [hex_fixed]; [constructor|]. apply Forall_app. split; [done|].
  apply Forall_singleton. pose proof (Z.mod_pos_bound n 16). unfold hex_char. case_match; lia.
Qed.

Lemma ParseHex_fixed k n : (0 < k <= 16)%nat -> 0 <= n < 16 ^ Z.of_nat k -> ParseHex (hex_fixed k n) = Some n.
Proof.
  intros Hk Hn. unfold ParseHex. destruct (hex_fixed k n) as [|c s] eqn:E.
  - destruct k; [lia|]. cbn [hex_fixed] in E. by apply app_nil in E as [].
  - rewrite <-E, hex_value_fixed, Z.mul_0_l, Z.add_0_l by done. cbv iota beta.
    assert (16 ^ Z.of_nat k <= 16 ^ 16) by (apply Z.pow_le_mono_r; lia). change (16 ^ 16) with (2 ^ 64) in *.
    by destruct (Z.ltb_spec n (2 ^ 64)); [|lia].
Qed.

(** ** The kernel's table is read back *)

Record krow := Krow { k_addr : Z; k_type : Z; k_name : bytes; k_module : option bytes }.

Definition print_krow (r : krow) : bytes :=
  hex_fixed 16 (k_addr r) ++ [32] ++ [k_type r] ++ [32] ++ k_name r ++
  match k_module r with Some m => [9] ++ str "[" ++ m ++ str "]" | None => [] end.

Definition krow_ok (r : krow) : Prop :=
  0 <= k_addr r < 2 ^ 64 /\ k_type r <> 32 /\ k_type r <> 10 /\ Forall (fun c => c <> 9 /\ c <> 10) (k_name r) /\
  Forall (fun c => c <> 10) (default [] (k_module r)).

Definition krow_symbol (r : krow) : Symbol := MkSymbol (k_addr r) (k_name r) (default kallsymsModule (k_module r)) 0 0.

Definition code (amd64 : bool) (r : krow) : bool := negb (data_type (k_type r)) && (kernelAddrSpace amd64 <=? k_addr r).

Lemma kallsyms_line_printed amd64 r :
  krow_ok r -> kallsyms_line amd64 (print_krow r) = Val (Some (if code amd64 r then Some (krow_symbol r) else None)).
Proof.
  intros (Ha & Ht & _ & Hn & _). unfold kallsyms_line, print_krow.
  assert (Forall (fun c => c <> 32) (hex_fixed 16 (k_addr r))) as Hh by (eapply Forall_impl; [apply hex_fixed_chars|]; cbn; lia).
  replace (bytes_eqb _ []) with false.
  2: { symmetry. apply bool_decide_eq_false. cbn [app]. by intros [_ ?]%app_nil. }
  cbn [app]. change (str " ") with [32]. rewrite Cut_app by exact Hh. cbn [negb].
  change (k_type r :: 32 :: ?s) with ([k_type r] ++ 32 :: s). rewrite Cut_app by by apply Forall_singleton. cbn [negb].
  assert (Cut (k_name r ++ match k_module r with Some m => 9 :: str "[" ++ m ++ str "]" | None => [] end) [9] =
    match k_module r with Some m => (k_name r, str "[" ++ m ++ str "]", true) | None => (k_name r, [], false) end) as Ec.
  { assert (Forall (fun c => c <> 9) (k_name r)) as Hn9 by (eapply Forall_impl; [exact Hn|]; cbn; tauto).
    destruct (k_module r); [by apply Cut_app|]. rewrite app_nil_r. by apply Cut_none. }
  cbn [app] in Ec. rewrite Ec. unfold code, krow_symbol.
  assert (ParseHex (hex_fixed 16 (k_addr r)) = Some (k_addr r)) as Ep by (apply ParseHex_fixed; [lia|exact Ha]).
  rewrite Ep. rewrite Z.leb_antisym.
  destruct (k_module r) as [m|]; destruct (data_type (k_type r)); cbn [negb andb]; try done; destruct (_ <? _); cbn [negb]; try done.
  unfold HasPrefix. rewrite starts_with_app, app_assoc, HasSuffix_app. cbn [andb]. do 4 f_equal.
  rewrite <-app_assoc. change (str "[") with [91]. cbn [app length drop from_option id].
  apply take_app_length'. rewrite length_app. cbn. lia.
Qed.

Lemma kallsyms_lines_printed amd64 rows rest :
  Forall krow_ok rows -> kallsyms_lines amd64 rest = Val (Some []) ->
  kallsyms_lines amd64 (map print_krow rows ++ rest) = Val (Some (map krow_symbol (List.filter (code amd64) rows))).
Proof.
  intros Hr Hrest. induction Hr as [|r rows Hr _ IH]; [done|]. cbn [map app kallsyms_lines List.filter].
  rewrite kallsyms_line_printed, IH by done. by destruct (code amd64 r).
Qed.

Lemma print_krow_line r : krow_ok r -> no_newline (print_krow r).
Proof.
  intros (_ & _ & Ht & Hn & Hm). unfold no_newline, print_krow. pose proof (hex_fixed_chars 16 (k_addr r)) as Hh.
  generalize dependent (hex_fixed 16 (k_addr r)). intros h Hh.
  repeat (apply Forall_app; split); try by apply Forall_singleton.
  - eapply Forall_impl; [exact Hh|]. cbn. lia.
  - eapply Forall_impl; [exact Hn|]. cbn. tauto.
  - destruct (k_module r); [|constructor]. repeat (apply Forall_app; split); try done; by apply Forall_singleton.
Qed.

Section kernel.
Context (amd64 : bool) (sort : list Symbol -> list Symbol) `{HS : !Sort Start sort}.

(** The kernel's symbols are resolved: an address below all code of the table has no symbol;
    any other has the name and the module of a row of code that starts at the greatest
    address which is not above, whatever the order of the rows and of the ones that
    start at one address. *)
Theorem kernel_symbol_resolved rows addr :
  Forall krow_ok rows -> (exists r, r ∈ rows /\ code amd64 r = true /\ k_addr r <> 0) -> 0 <= addr < 2 ^ 64 ->
  exists t, NewKallsymsFromData amd64 sort (unlines (map print_krow rows)) = Val (Some t) /\
    ((Resolve t addr = Val no_symbol /\ forall r, r ∈ rows -> code amd64 r = true -> addr < k_addr r) \/
     (exists r, r ∈ rows /\ code amd64 r = true /\ Resolve t addr = Val (krow_symbol r) /\ k_addr r <= addr /\
        forall r', r' ∈ rows -> code amd64 r' = true -> k_addr r' <= addr -> k_addr r' <= k_addr r)).
Proof.
  intros Hrows (r0 & Hin0 & Hc0 & Hne) Haddr. unfold NewKallsymsFromData. rewrite Split_unlines.
  2: { apply Forall_map. eapply Forall_impl; [exact Hrows|]. apply print_krow_line. }
  rewrite kallsyms_lines_printed by done. set (syms := map krow_symbol (List.filter (code amd64) rows)).
  assert (forall s, s ∈ syms <-> exists r, s = krow_symbol r /\ r ∈ rows /\ code amd64 r = true) as Hsyms.
  { intros s. unfold syms. rewrite list_elem_of_fmap. by setoid_rewrite list_elem_of_In; setoid_rewrite filter_In. }
  destruct (forallb _ syms) eqn:E.
  { rewrite forallb_forall in E. assert (krow_symbol r0 ∈ syms) as Hs%list_elem_of_In%E by (apply Hsyms; by eauto). cbn in Hs. lia. }
  eexists. split; [done|]. pose proof (sort_perm (key := Start) syms) as Hp.
  destruct (Resolve_spec (sort syms) 0 addr) as [[Hall Hres]|(s & Hs & Hres & Hle & Hmax)];
    rewrite ?Z.sub_0_r in *; [apply sort_sorted| | |].
  - rewrite Hp. apply Forall_forall. intros s (r & -> & Hr & _)%Hsyms. rewrite Forall_forall in Hrows. apply Hrows in Hr as [Hr _]. exact Hr.
  - left. split; [exact Hres|]. intros r Hr Hc. rewrite Hp, Forall_forall in Hall.
    specialize (Hall (krow_symbol r) ltac:(apply Hsyms; by eauto)). unfold u64 in Hall. by rewrite Z.mod_small in Hall by lia.
  - right. rewrite Hp in Hs. apply Hsyms in Hs as (r & -> & Hr & Hc). exists r. unfold u64 in *. rewrite Z.mod_small in * by lia.
    split_and!; [done..|]. intros r' Hr' Hc' Hle'. apply (Hmax (krow_symbol r')); [rewrite Hp; apply Hsyms; by eauto|done].
Qed.

End kernel.

Definition sort_symbols : list Symbol -> list Symbol := merge_sort (key_le Start).

#[export] Instance sort_symbols_Sort : Sort Start sort_symbols := merge_sort_Sort Start.

Definition demo_kernel : list krow :=
  [Krow 0xffffffff81000000 84 (str "_text") None; Krow 0xffffffffc0000000 116 (str "nf_init") (Some (str "nf_tables"));
   Krow 0xffffffff82000000 68 (str "init_task") None; Krow 0xffffffff81000100 84 (str "do_fork") None].

Lemma kernel_symbol_resolved_witness :
  exists t, NewKallsymsFromData true sort_symbols (unlines (map print_krow demo_kernel)) = Val (Some t) /\
    Resolve t 0xffffffff82000010 = Val (MkSymbol 0xffffffff81000100 (str "do_fork") (str "kernel") 0 0).
Proof.
  destruct (kernel_symbol_resolved true sort_symbols demo_kernel 0xffffffff82000010) as (t & E & H).
  - unfold demo_kernel. repeat apply Forall_cons_2; try apply Forall_nil_2;
      (unfold krow_ok; cbn [k_addr k_type k_name k_module]; split_and!; [lia..|by repeat constructor|by repeat constructor]).
  - exists (Krow 0xffffffff81000000 84 (str "_text") None). by split; [left|].
  - lia.
  - exists t. split; [exact E|].
    assert (NewKallsymsFromData true sort_symbols (unlines (map print_krow demo_kernel)) =
      Val (Some (NewSymbolTab [krow_symbol (Krow 0xffffffff81000000 84 (str "_text") None);
        krow_symbol (Krow 0xffffffff81000100 84 (str "do_fork") None);
        krow_symbol (Krow 0xffffffffc0000000 116 (str "nf_init") (Some (str "nf_tables")))] 0))) as E' by by vm_compute.
    rewrite E in E'. injection E' as ->. by vm_compute.
Defined.

(** ** Generated code *)

(** One starts within the other. *)
Definition touches (a b : Symbol) : Prop :=
  (Start a <= Start b < Start a + size a) \/ (Start b <= Start a < Start b + size b).

Definition plain (s : Symbol) : Prop := 0 <= Start s /\ 0 <= size s /\ Start s + size s < 2 ^ 64.

Lemma End_plain s : plain s -> End_ s = Start s + size s.
Proof. intros (? & ? & ?). unfold End_, u64. apply Z.mod_small. lia. Qed.

Definition apart (a b : Symbol) : Prop := Start a + size a <= Start b.

Lemma remove_from_in prev syms s : s ∈ remove_from prev syms -> s ∈ prev :: syms.
Proof.
  revert prev. induction syms as [|curr syms IH]; intros prev Hs; cbn [remove_from] in Hs; [done|].
  repeat case_match; [apply IH in Hs; set_solver..|]. rewrite elem_of_cons in Hs. destruct Hs as [->|Hs%IH]; set_solver.
Qed.

Definition by_start (a b : Symbol) : Prop := Start a <= Start b.

Lemma sorted_skip prev curr syms : StronglySorted by_start (prev :: curr :: syms) -> StronglySorted by_start (prev :: syms).
Proof. intros [[Hs _]%StronglySorted_inv [_ Hf]%Forall_cons_1]%StronglySorted_inv. by constructor. Qed.

Lemma remove_from_apart prev syms :
  Forall plain (prev :: syms) -> StronglySorted by_start (prev :: syms) -> StronglySorted apart (remove_from prev syms).
Proof.
  revert prev. induction syms as [|curr syms IH]; intros prev Hp Hs; cbn [remove_from]; [by repeat constructor|].
  pose proof Hp as [Hprev [Hcurr Hp']%Forall_cons_1]%Forall_cons_1. pose proof Hs as [Hs' _]%StronglySorted_inv.
  rewrite End_plain by done. destruct (Z.gtb_spec (Start prev + size prev) (Start curr)).
  - case_match; apply IH; try done; [by constructor|by eapply sorted_skip|by constructor].
  - constructor; [apply IH; [by constructor|done]|]. apply Forall_forall. intros s Hin%remove_from_in. unfold apart.
    apply StronglySorted_inv in Hs' as [_ Hf]. rewrite Forall_forall in Hf. rewrite elem_of_cons in Hin.
    destruct Hin as [->|Hin%Hf]; [done|]. unfold by_start in Hin. lia.
Qed.

(** A symbol stays that none written later touches. *)
Lemma remove_from_keeps prev syms s :
  Forall plain (prev :: syms) -> StronglySorted by_start (prev :: syms) -> NoDup (map generation (prev :: syms)) ->
  s ∈ prev :: syms -> (forall x, x ∈ prev :: syms -> (generation s < generation x)%nat -> ~ touches s x) ->
  s ∈ remove_from prev syms.
Proof.
  revert prev. induction syms as [|curr syms IH]; intros prev Hp Hs Hd Hin Hlate; cbn [remove_from]; [done|].
  pose proof Hp as [Hprev [Hcurr Hp']%Forall_cons_1]%Forall_cons_1. pose proof Hs as [Hs' [Hpc _]%Forall_cons_1]%StronglySorted_inv.
  cbn [map] in Hd. pose proof Hd as [Hgen Hd']%NoDup_cons. rewrite not_elem_of_cons in Hgen. destruct Hgen as [Hgen Hgen'].
  rewrite End_plain by done. unfold by_start in Hpc. destruct (Z.gtb_spec (Start prev + size prev) (Start curr)) as [Hov|Hov].
  - destruct (Nat.ltb_spec (generation curr) (generation prev)) as [Hg|Hg].
    + apply IH; [by constructor|by eapply sorted_skip|cbn [map]; apply NoDup_cons; split; [done|by apply NoDup_cons in Hd' as []]| |].
      * rewrite !elem_of_cons in *. destruct Hin as [->|[->|Hin]]; [by left| |by right].
        destruct (Hlate prev); [by left|done|]. right. lia.
      * intros x Hx. apply Hlate. rewrite !elem_of_cons in *. tauto.
    + apply IH; [by constructor|done|done| |].
      * rewrite elem_of_cons in Hin. destruct Hin as [->|Hin]; [|done].
        destruct (Hlate curr); [by right; left|lia|]. left. lia.
      * intros x Hx. apply Hlate. by right.
  - rewrite elem_of_cons in Hin |- *. destruct Hin as [->|Hin]; [by left|]. right.
    apply IH; [by constructor|done|done|done|]. intros x Hx. apply Hlate. by right.
Qed.

Lemma perf_cmp_spec pc s : plain s ->
  perf_cmp pc s = if Start s <=? pc then if pc <? Start s + size s then 0 else -1 else 1.
Proof. intros Hs. unfold perf_cmp. by rewrite End_plain. Qed.

Lemma PerfMap_Resolve_covers syms pc s :
  Forall plain syms -> StronglySorted apart syms -> s ∈ syms -> Start s <= pc < Start s + size s ->
  PerfMap_Resolve syms pc = s.
Proof.
  intros Hp Hs (a & b & ->)%list_elem_of_split Hpc. apply Forall_app in Hp as [Ha [Hps Hb]%Forall_cons_1].
  rewrite Forall_forall in Ha, Hb. unfold PerfMap_Resolve, BinarySearchFunc. rewrite bisect_spec; rewrite ?length_app; try lia.
  - rewrite lookup_app_r, Nat.sub_diag by lia. cbn [lookup list_lookup]. rewrite perf_cmp_spec by done.
    destruct (Z.leb_spec (Start s) pc); [|lia]. destruct (Z.ltb_spec pc (Start s + size s)); [|lia]. done.
  - apply Forall_forall. intros x Hx. rewrite perf_cmp_spec by by apply Ha.
    pose proof (StronglySorted_app_1_elem_of _ _ _ x s Hs Hx ltac:(by left)) as Hxs. unfold apart in Hxs.
    destruct (Ha x Hx) as (? & ? & _). repeat case_match; lia.
  - apply StronglySorted_app_1_r, StronglySorted_inv in Hs as [_ Hf]. rewrite Forall_forall in Hf.
    apply Forall_forall. intros x Hx. rewrite elem_of_cons in Hx. destruct Hx as [->|Hx].
    + rewrite perf_cmp_spec by done. repeat case_match; lia.
    + rewrite perf_cmp_spec by by apply Hb. apply Hf in Hx. unfold apart in Hx. repeat case_match; lia.
Qed.

Lemma PerfMap_Resolve_sound syms pc :
  Forall plain syms ->
  PerfMap_Resolve syms pc = no_symbol \/
  exists s, s ∈ syms /\ PerfMap_Resolve syms pc = s /\ Start s <= pc < Start s + size s.
Proof.
  intros Hp. unfold PerfMap_Resolve, BinarySearchFunc. set (i := bisect _ _ _ _ _).
  destruct (syms !! i) as [s|] eqn:E; [|by left]. destruct (Z.eqb_spec (perf_cmp pc s) 0) as [Hc|]; [|by left].
  right. exists s. split; [by eapply list_elem_of_lookup_2|]. cbn [from_option id]. split; [done|].
  rewrite perf_cmp_spec in Hc by by apply (Forall_lookup_1 _ _ _ _ Hp E). repeat case_match; lia.
Qed.

(** *** The file *)

Record prow := Prow { p_prefix : bool; p_widths : nat * nat; p_start : Z; p_size : Z; p_name : bytes }.

Definition print_hex (prefix : bool) (k : nat) (n : Z) : bytes := (if prefix then str "0x" else []) ++ hex_fixed k n.

Definition print_prow (r : prow) : bytes :=
  print_hex (p_prefix r) (p_widths r).1 (p_start r) ++ [32] ++ print_hex (p_prefix r) (p_widths r).2 (p_size r) ++ [32] ++ p_name r.

Definition prow_ok (r : prow) : Prop :=
  (0 < (p_widths r).1 <= 16)%nat /\ (0 < (p_widths r).2 <= 16)%nat /\
  0 <= p_start r < 16 ^ Z.of_nat (p_widths r).1 /\ 0 <= p_size r < 16 ^ Z.of_nat (p_widths r).2 /\
  p_start r + p_size r < 2 ^ 64 /\ short_line (print_prow r).

Definition prow_symbol (i : nat) (r : prow) : Symbol := MkSymbol (p_start r) (p_name r) [] i (p_size r).

Lemma TrimPrefix_hex prefix k n : TrimPrefix (print_hex prefix k n) (str "0x") = hex_fixed k n.
Proof.
  unfold TrimPrefix, HasPrefix, print_hex. destruct prefix.
  - by rewrite starts_with_app, drop_app_length.
  - cbn [app]. destruct (starts_with _ _) eqn:E; [|done]. apply starts_with_true in E as [t E].
    pose proof (hex_fixed_chars k n) as Hc. rewrite E in Hc. change (str "0x") with [48; 120] in Hc. apply Forall_cons_1 in Hc as [_ Hc]. apply Forall_cons_1 in Hc as [Hc _]. lia.
Qed.

Lemma print_hex_no_space prefix k n : Forall (fun c => c <> 32) (print_hex prefix k n).
Proof.
  unfold print_hex. apply Forall_app. split; [by destruct prefix; repeat constructor|].
  eapply Forall_impl; [apply hex_fixed_chars|]. cbn. lia.
Qed.

Lemma perf_line_printed i r : prow_ok r -> perf_line i (print_prow r) = Some (prow_symbol i r).
Proof.
  intros (Hw1 & Hw2 & Hs & Hz & _ & _). unfold perf_line, print_prow. cbn [app SplitN].
  rewrite Cut_app by apply print_hex_no_space. rewrite Cut_app by apply print_hex_no_space.
  rewrite !TrimPrefix_hex, !ParseHex_fixed by done. done.
Qed.

Lemma perf_lines_printed rows i : Forall prow_ok rows -> perf_lines i (map print_prow rows) = Some (imap (fun j => prow_symbol (i + j)) rows).
Proof.
  intros Hr. revert i. induction Hr as [|r rows Hr _ IH]; intros i; cbn [map perf_lines imap]; [done|].
  rewrite perf_line_printed, IH by done. rewrite Nat.add_0_r. do 2 f_equal. apply imap_ext. intros j x _. cbn. f_equal. lia.
Qed.

Lemma generations rows i : map generation (imap (fun j => prow_symbol (i + j)) rows) = seq i (length rows).
Proof.
  revert i. induction rows as [|r rows IH]; intros i; cbn [imap map length seq]; [done|]. cbn [generation prow_symbol]. f_equal; [lia|].
  rewrite <-IH. f_equal. apply imap_ext. intros j x _. cbn. f_equal. lia.
Qed.

Lemma elem_of_rows rows s : s ∈ imap (fun j => prow_symbol (0 + j)) rows <-> exists j r, rows !! j = Some r /\ s = prow_symbol j r.
Proof.
  rewrite list_elem_of_lookup. setoid_rewrite list_lookup_imap_Some. split.
  - intros (j & r & Hj & ->). by eauto.
  - intros (j & r & Hj & ->). by eauto.
Qed.

Lemma prow_plain i r : prow_ok r -> plain (prow_symbol i r).
Proof. intros (_ & _ & ? & ? & ? & _). unfold plain. cbn [Start size prow_symbol]. lia. Qed.

Section perf_spec.
Context (sort : list Symbol -> list Symbol) `{HS : !Sort Start sort}.

Lemma perf_map_read rows :
  Forall prow_ok rows ->
  parsePerfMap sort (unlines (map print_prow rows)) = Some (removeOverlaps (sort (imap (fun j => prow_symbol (0 + j)) rows))).
Proof.
  intros Hr. assert (Forall short_line (map print_prow rows)) as Hshort.
  { apply Forall_map. eapply Forall_impl; [exact Hr|]. by intros r (_ & _ & _ & _ & _ & Hs). }
  unfold parsePerfMap. unfold unlines at 1. rewrite ScanLines_printed, perf_lines_printed by done.
  replace (ScanErr _) with false; [done|]. symmetry. unfold ScanErr.
  rewrite Split_unlines by (eapply Forall_impl; [exact Hshort|]; by intros l (_ & Hn & _)).
  apply not_true_iff_false. intros (l & Hin & Hl)%existsb_exists. apply list_elem_of_In in Hin.
  rewrite elem_of_app, list_elem_of_singleton in Hin. rewrite Forall_forall in Hshort.
  destruct Hin as [[Hlt _]%Hshort| ->]; [|done]. apply Nat.leb_le in Hl. lia.
Qed.

(** C26: Generated code is resolved: an address within a symbol of the file has this symbol, if no
    symbol that was written later starts within it or contains its start; and whatever
    symbol an address has, it is one of the file and the address is within it. *)
Theorem generated_code_resolved rows i r :
  Forall prow_ok rows -> rows !! i = Some r ->
  (forall j r', (i < j)%nat -> rows !! j = Some r' -> ~ touches (prow_symbol i r) (prow_symbol j r')) ->
  exists syms, parsePerfMap sort (unlines (map print_prow rows)) = Some syms /\
    (forall pc, p_start r <= pc < p_start r + p_size r -> PerfMap_Resolve syms pc = prow_symbol i r) /\
    (forall pc, PerfMap_Resolve syms pc = no_symbol \/
       exists j r', rows !! j = Some r' /\ PerfMap_Resolve syms pc = prow_symbol j r' /\ p_start r' <= pc < p_start r' + p_size r').
Proof.
  intros Hrows Hi Hlate. rewrite perf_map_read by done. eexists. split; [done|].
  set (all := imap (fun j => prow_symbol (0 + j)) rows). pose proof (sort_perm (key := Start) all) as Hp.
  assert (Forall plain (sort all)) as Hplain.
  { rewrite Hp. apply Forall_forall. intros s (j & x & Hj & ->)%elem_of_rows. apply prow_plain. by apply (Forall_lookup_1 _ _ _ _ Hrows Hj). }
  assert (NoDup (map generation (sort all))) as Hnd.
  { assert (map generation (sort all) ≡ₚ seq 0 (length rows)) as -> by (rewrite <-generations; by apply fmap_Permutation). apply NoDup_seq. }
  pose proof (sort_sorted (key := Start) all) as Hsorted.
  assert (prow_symbol i r ∈ sort all) as Hin by (rewrite Hp; apply elem_of_rows; by eauto).
  assert (forall s, s ∈ sort all -> exists j x, rows !! j = Some x /\ s = prow_symbol j x) as Hall.
  { intros s Hs. rewrite Hp in Hs. by apply elem_of_rows. }
  destruct (sort all) as [|prev syms]; [by apply not_elem_of_nil in Hin|]. cbn [removeOverlaps].
  assert (Forall plain (remove_from prev syms)) as Hplain'.
  { apply Forall_forall. intros s Hs%remove_from_in. rewrite Forall_forall in Hplain. by apply Hplain. }
  split.
  - intros pc Hpc. apply PerfMap_Resolve_covers; [done|by apply remove_from_apart| |done].
    apply remove_from_keeps; [done..|]. intros x (j & y & Hj & ->)%Hall Hg. by apply (Hlate j y).
  - intros pc. destruct (PerfMap_Resolve_sound _ pc Hplain') as [->|(s & Hs%remove_from_in & -> & Hpc)]; [by left|]. right.
    apply Hall in Hs as (j & y & Hj & ->). by exists j, y.
Qed.

End perf_spec.

Definition demo_perf : list prow :=
  [Prow false (4%nat, 2%nat) 0x1000 0x20 (str "LazyCompile:~f a.js"); Prow true (12%nat, 3%nat) 0x1010 0x100 (str "LazyCompile:*g a.js");
   Prow false (4%nat, 2%nat) 0x2000 0x10 (str "h")].

Lemma generated_code_resolved_witness :
  exists syms, parsePerfMap sort_symbols (unlines (map print_prow demo_perf)) = Some syms /\
    PerfMap_Resolve syms 0x1011 = prow_symbol 1 (Prow true (12%nat, 3%nat) 0x1010 0x100 (str "LazyCompile:*g a.js")).
Proof.
  destruct (generated_code_resolved sort_symbols demo_perf 1 (Prow true (12%nat, 3%nat) 0x1010 0x100 (str "LazyCompile:*g a.js")))
    as (syms & E & Hr & _).
  - unfold demo_perf. repeat apply Forall_cons_2; try apply Forall_nil_2;
      (unfold prow_ok; cbn [p_widths p_start p_size fst snd]; split_and!; [lia..|cbn; lia|cbn; lia|cbn; lia|cbn; lia|lia|
       unfold short_line; split_and!; [apply Nat.ltb_lt; by vm_compute|by repeat constructor|by vm_compute]]).
  - done.
  - intros [|[|[|j]]] r' Hj Hl; [lia|lia| |done]. injection Hl as <-. unfold touches. cbn [Start size prow_symbol p_start p_size]. lia.
  - exists syms. split; [exact E|]. apply Hr. cbn [p_start p_size]. lia.
Defined.

(** A line that is not yet complete makes the whole file unreadable. *)
Example unfinished_line : parsePerfMap sort_symbols (unlines (map print_prow demo_perf) ++ str "20a0 1") = None.
Proof. by vm_compute. Qed.

End SymbolFiles.
