(* ===== verification/ElfSymbols.v ===== *)
(** * Symbols of ELF files

    internal/pyroscope-ebpf/symtab/elf: the functions of the symbol sections of a file are read
    (elf_sym.go), sorted into an index (symbol_table.go), and their names read from the
    string table when an address is resolved (elfinmem.go).  The memo of names that were
    read before is left out. *)

From stdpp Require Import sorting.
From S2P Require Import Prelude GoLib Symbols.

Module ElfSymbols.
Import Symbols.

(** ** Files *)

Record SectionHeader := MkSectionHeader { Type_ : Z; Link : Z; Offset : Z; Size : Z }.

Record elf_file := MkElfFile { Class64 : bool; LittleEndian : bool; Sections : list SectionHeader; content : bytes }.

Definition SHT_SYMTAB : Z := 2.
Definition SHT_DYNSYM : Z := 11.
Definition STT_FUNC : Z := 2.

(** [ReadAt] of a buffer of [n] bytes; [None] is an error, the end of the file included. *)
Definition ReadAt (data : bytes) (off n : Z) : option bytes :=
  if off <? 0 then None
  else if (n =? 0) then Some []
  else if off + n <=? Z.of_nat (length data) then Some (take (Z.to_nat n) (drop (Z.to_nat off) data)) else None.

Definition maxAlloc : Z := 2 ^ 48.

Definition SectionData (f : elf_file) (s : SectionHeader) : go (option bytes) :=
  if Size s >? maxAlloc then Panic else Val (ReadAt (content f) (s64 (Offset s)) (Size s)).

Definition sectionByType (f : elf_file) (typ : Z) : option SectionHeader := List.find (fun s => Type_ s =? typ) (Sections f).

Definition number (le_ : bool) (s : bytes) : Z := if le_ then le s else be s.

(** [rawSym[i:j]] *)
Definition field (raw : bytes) (i j : nat) : bytes := take (j - i) (drop i raw).

(** ** Reading the sections *)

Record SymbolsOptions := MkSymbolsOptions { FilterFrom : Z; FilterTo : Z }.

Record SymbolIndex := MkSymbolIndex { SName : Z; Value : Z }.

Definition NewName (NameIndex linkIndex : Z) : Z := Z.lor (Z.land NameIndex 0x7fffffff) (Z.shiftl linkIndex 31).
Definition NameIndex (n : Z) : Z := Z.land n 0x7fffffff.
Definition LinkIndex (n : Z) : Z := Z.shiftr n 31.

(** The entries of a section, [size] bytes each; a round consumes one. *)
Fixpoint entries (fuel size : nat) (data : bytes) : list bytes :=
  match fuel, data with
  | S fuel, _ :: _ => take size data :: entries fuel size (drop size data)
  | _, _ => []
  end.

(** One entry of 64 bits: [Some None] if it is passed over, [None] an error. *)
Definition symbol64 (le_ : bool) (linkIndex : Z) (opt : SymbolsOptions) (raw : bytes) : option (option SymbolIndex) :=
  let name := number le_ (field raw 0 4) in
  let info := number le_ (field raw 4 5) in
  let value := number le_ (field raw 8 16) in
  if negb (value =? 0) && (Z.land info 0xf =? STT_FUNC) then
    if name >=? 0x7fffffff then None
    else if (value >=? FilterFrom opt) && (value <? FilterTo opt) then Some None
    else Some (Some (MkSymbolIndex (NewName name linkIndex) value))
  else Some None.

(** One entry of 32 bits: the value is read but not stored. *)
Definition symbol32 (le_ : bool) (linkIndex : Z) (opt : SymbolsOptions) (raw : bytes) : option (option SymbolIndex) :=
  let name := number le_ (field raw 0 4) in
  let value := number le_ (field raw 4 8) in
  let info := number le_ (field raw 12 13) in
  if negb (value =? 0) && (Z.land info 0xf =? STT_FUNC) then
    if name >=? 0x7fffffff then None
    else if (value >=? FilterFrom opt) && (value <? FilterTo opt) then Some None
    else Some (Some (MkSymbolIndex (NewName name linkIndex) 0))
  else Some None.

Fixpoint symbols_of (symbol : bytes -> option (option SymbolIndex)) (raws : list bytes) : option (list SymbolIndex) :=
  match raws with
  | [] => Some []
  | raw :: raws =>
      let? s := symbol raw else None in
      let? rest := symbols_of symbol raws else None in
      Some (match s with Some s => s :: rest | None => rest end)
  end.

Inductive getsyms := ErrNoSymbols | ErrSymbols | Symbols_ (l : list SymbolIndex) (link : Z).

(** [getSymbols64] and [getSymbols32]; the first entry is cut off without looking for it. *)
Definition getSymbols (f : elf_file) (typ : Z) (opt : SymbolsOptions) : go getsyms :=
  match sectionByType f typ with
  | None => Val ErrNoSymbols
  | Some s =>
      let linkIndex := if typ =? SHT_DYNSYM then 1 else 0 in
      let size := if Class64 f then 24%nat else 16%nat in
      let! data := SectionData f s in
      match data with
      | None => Val ErrSymbols
      | Some data =>
          if negb (Nat.modulo (length data) size =? 0)%nat then Val ErrSymbols
          else if (length data <? size)%nat then Panic
          else
          let data := drop size data in
          Val (match symbols_of (if Class64 f then symbol64 (LittleEndian f) linkIndex opt else symbol32 (LittleEndian f) linkIndex opt)
                       (entries (length data) size data) with
               | None => ErrSymbols
               | Some l => Symbols_ l (Link s)
               end)
      end
  end.

(** ** The table *)

(** By value, then by name. *)
Definition sym_le (a b : SymbolIndex) : Prop := Value a < Value b \/ (Value a = Value b /\ SName a <= SName b).

#[export] Instance sym_le_dec a b : Decision (sym_le a b).
Proof. unfold sym_le. apply _. Defined.

#[export] Instance sym_le_total : Total sym_le.
Proof. intros a b. unfold sym_le. lia. Qed.

#[export] Instance sym_le_trans : Transitive sym_le.
Proof. intros a b c. unfold sym_le. lia. Qed.

Record SymbolTable := MkSymbolTable { Links : SectionHeader * SectionHeader; Names : list Z; Values : PCIndex }.

Definition NewSymbolTable (f : elf_file) (opt : SymbolsOptions) : go (option SymbolTable) :=
  let! sym := getSymbols f SHT_SYMTAB opt in
  match sym with
  | ErrSymbols => Val None
  | _ =>
      let! dynsym := getSymbols f SHT_DYNSYM opt in
      match dynsym with
      | ErrSymbols => Val None
      | _ =>
          let parts g := match g with Symbols_ l link => (l, link) | _ => ([], 0) end in
          let '(sym, sectionSym) := parts sym in
          let '(dynsym, sectionDynSym) := parts dynsym in
          match sym ++ dynsym with
          | [] => Val None
          | all =>
              let all := merge_sort sym_le all in
              match Sections f !! Z.to_nat sectionSym, Sections f !! Z.to_nat sectionDynSym with
              | Some l0, Some l1 =>
                  let! values := fill (NewPCIndex (length all)) 0 (map Value all) in
                  Val (Some (MkSymbolTable (l0, l1) (map SName all) values))
              | _, _ => Panic
              end
          end
      end
  end.

(** ** Names *)

(** [getString]: at most ten pieces of 128 bytes. *)
Fixpoint get_string (pieces : nat) (data : bytes) (pos : Z) (acc : bytes) : option bytes :=
  match pieces with
  | O => None
  | S pieces =>
      let? buf := ReadAt data pos 128 else None in
      match Index buf [0] with
      | Some idx => Some (acc ++ take idx buf)
      | None => get_string pieces data (pos + 128) (acc ++ buf)
      end
  end.

Definition getString (f : elf_file) (start : Z) : option bytes := get_string 10 (content f) start [].

Section resolve.
(** [demangle.Filter] with the options of the table. *)
Context (demangle : bytes -> bytes).

Definition symbolName (f : elf_file) (st : SymbolTable) (idx : Z) : go bytes :=
  let! n := get_at (Names st) idx in
  let link := if LinkIndex n =? 0 then (Links st).1 else (Links st).2 in
  Val (match getString f (NameIndex n + s64 (Offset link)) with Some s => demangle s | None => [] end).

Definition SymbolTable_Resolve (f : elf_file) (st : SymbolTable) (addr : Z) : go bytes :=
  match Names st with
  | [] => Val []
  | _ => let! i := FindIndex (Values st) addr in
         if i =? -1 then Val [] else symbolName f st i
  end.

End resolve.

(** ** Strings are read *)

Lemma Index_nul s t : Forall (fun b => b <> 0) s -> Index (s ++ 0 :: t) [0] = Some (length s).
Proof. apply Index_first. Qed.

Lemma ReadAt_inside data off n :
  0 <= off -> 0 < n -> off + n <= Z.of_nat (length data) -> ReadAt data off n = Some (take (Z.to_nat n) (drop (Z.to_nat off) data)).
Proof.
  intros Ho Hn Hl. unfold ReadAt. destruct (Z.ltb_spec off 0); [lia|]. destruct (Z.eqb_spec n 0); [lia|].
  by destruct (Z.leb_spec (off + n) (Z.of_nat (length data))); [|lia].
Qed.

(** A name and what follows it in its last piece are within the file. *)
Lemma get_string_reads pieces data pos name rest acc :
  0 <= pos -> drop (Z.to_nat pos) data = name ++ 0 :: rest -> Forall (fun b => b <> 0) name ->
  (length name < 128 * pieces)%nat -> pos + 128 * (Z.of_nat (length name) / 128 + 1) <= Z.of_nat (length data) ->
  get_string pieces data pos acc = Some (acc ++ name).
Proof.
  revert pos name acc. induction pieces as [|pieces IH]; intros pos name acc Hpos Hd Hn Hp Hl; [lia|].
  assert (0 <= Z.of_nat (length name) / 128) by (apply Z.div_pos; lia). cbn [get_string]. rewrite ReadAt_inside by lia.
  change (Z.to_nat 128) with 128%nat. rewrite Hd. destruct (decide (length name < 128)%nat) as [Hs|Hs].
  - rewrite take_app_ge by lia. destruct (128 - length name)%nat as [|k] eqn:Ek; [lia|]. cbn [take]. rewrite Index_nul by done.
    by rewrite take_app_length.
  - assert (length (take 128 name) = 128)%nat as Ht by (rewrite length_take; lia).
    rewrite take_app_le, Index_none by (lia || by apply Forall_take). 
    rewrite IH with (name := drop 128 name).
    + by rewrite <-app_assoc, take_drop.
    + lia.
    + replace (Z.to_nat (pos + 128)) with (Z.to_nat pos + 128)%nat by lia. rewrite <-drop_drop, Hd, drop_app_le by lia. done.
    + by apply Forall_drop.
    + rewrite length_drop. lia.
    + rewrite length_drop. replace (Z.of_nat (length name - 128)) with (Z.of_nat (length name) + (-1) * 128) by lia.
      rewrite Z.div_add by lia. lia.
Qed.

(** ** Sections are read *)

(** A symbol of 64 bits. *)
Record sym64 := MkSym64 { y_name : Z; y_info : Z; y_other : Z; y_shndx : Z; y_value : Z; y_size : Z }.

Definition put (le_ : bool) (n : nat) (z : Z) : bytes := if le_ then le_bytes n z else be_bytes n z.

Definition encode64 (le_ : bool) (y : sym64) : bytes :=
  put le_ 4 (y_name y) ++ put le_ 1 (y_info y) ++ put le_ 1 (y_other y) ++ put le_ 2 (y_shndx y) ++ put le_ 8 (y_value y) ++ put le_ 8 (y_size y).

Definition sym64_ok (y : sym64) : Prop := 0 <= y_name y < 0x7fffffff /\ 0 <= y_info y < 2 ^ 8 /\ 0 <= y_value y < 2 ^ 64.

Definition null64 : sym64 := MkSym64 0 0 0 0 0 0.

(** A function of the table, outside the range that is left to the Go table. *)
Definition is_func (opt : SymbolsOptions) (y : sym64) : bool :=
  negb (y_value y =? 0) && (Z.land (y_info y) 0xf =? STT_FUNC) && negb ((y_value y >=? FilterFrom opt) && (y_value y <? FilterTo opt)).

Lemma put_length le_ n z : length (put le_ n z) = n.
Proof. destruct le_; cbn; [apply le_bytes_length|apply be_bytes_length]. Qed.

Lemma number_put le_ n z : number le_ (put le_ n z) = z mod 256 ^ Z.of_nat n.
Proof. destruct le_; cbn; [apply le_le_bytes|apply be_be_bytes]. Qed.

Lemma encode64_length le_ y : length (encode64 le_ y) = 24%nat.
Proof. unfold encode64. by rewrite !length_app, !put_length. Qed.

Lemma field_skip a b i j : (length a <= i)%nat -> field (a ++ b) i j = field b (i - length a) (j - length a).
Proof. intros Hi. unfold field. rewrite drop_app_ge by done. f_equal. lia. Qed.

Lemma field_here a b n : length a = n -> field (a ++ b) 0 n = a.
Proof. intros <-. unfold field. rewrite drop_0, Nat.sub_0_r. apply take_app_length. Qed.

Lemma symbol64_encoded le_ link opt y :
  sym64_ok y ->
  symbol64 le_ link opt (encode64 le_ y) = Some (if is_func opt y then Some (MkSymbolIndex (NewName (y_name y) link) (y_value y)) else None).
Proof.
  intros (Hn & Hi & Hv). unfold symbol64, encode64.
  rewrite (field_here (put le_ 4 (y_name y))) by apply put_length.
  rewrite (field_skip (put le_ 4 (y_name y)) _ 4 5), (field_skip (put le_ 4 (y_name y)) _ 8 16) by (rewrite put_length; lia).
  rewrite put_length. cbn [Nat.sub]. rewrite (field_here (put le_ 1 (y_info y))) by apply put_length.
  do 3 rewrite field_skip by (rewrite !put_length; lia). rewrite !put_length. cbn [Nat.sub].
  rewrite field_here by apply put_length. rewrite !number_put.
  rewrite !Z.mod_small by (cbn; lia). unfold is_func.
  destruct (negb (y_value y =? 0) && (Z.land (y_info y) 15 =? STT_FUNC)); cbn [andb]; [|done].
  destruct (Z.geb_spec (y_name y) 0x7fffffff); [lia|]. by destruct (_ && _).
Qed.

Lemma entries_concat {A} (enc : A -> bytes) size (l : list A) fuel :
  (0 < size)%nat -> (forall a, length (enc a) = size) -> (length (concat (map enc l)) <= fuel)%nat ->
  entries fuel size (concat (map enc l)) = map enc l.
Proof.
  intros Hs Hl. revert fuel. induction l as [|a l IH]; intros fuel Hf; cbn [map concat] in *; [by destruct fuel|].
  rewrite length_app, Hl in Hf. destruct fuel as [|fuel]; [lia|].
  destruct (enc a ++ concat (map enc l)) as [|b s] eqn:E.
  { apply (f_equal length) in E. rewrite length_app, Hl in E. cbn in E. lia. }
  cbn [entries]. rewrite <-E. rewrite take_app_length', drop_app_length' by by rewrite Hl. f_equal. apply IH. lia.
Qed.

Lemma symbols_of_encoded le_ link opt ys :
  Forall sym64_ok ys ->
  symbols_of (symbol64 le_ link opt) (map (encode64 le_) ys) =
  Some (map (fun y => MkSymbolIndex (NewName (y_name y) link) (y_value y)) (List.filter (is_func opt) ys)).
Proof.
  induction 1 as [|y ys Hy _ IH]; [done|]. cbn [map symbols_of List.filter]. rewrite symbol64_encoded, IH by done.
  by destruct (is_func opt y).
Qed.

Lemma getSymbols_encoded f s typ opt ys :
  Class64 f = true -> sectionByType f typ = Some s ->
  SectionData f s = Val (Some (concat (map (encode64 (LittleEndian f)) (null64 :: ys)))) -> Forall sym64_ok ys ->
  getSymbols f typ opt =
  Val (Symbols_ (map (fun y => MkSymbolIndex (NewName (y_name y) (if typ =? SHT_DYNSYM then 1 else 0)) (y_value y)) (List.filter (is_func opt) ys)) (Link s)).
Proof.
  intros H64 Hs Hdata Hok. unfold getSymbols. rewrite Hs, H64, Hdata. cbn [map concat].
  assert (length (concat (map (encode64 (LittleEndian f)) ys)) = 24 * length ys)%nat as El.
  { clear. induction ys as [|y ys IH]; [done|]. cbn [map concat]. rewrite length_app, encode64_length, IH. cbn [length]. lia. }
  rewrite length_app, encode64_length, El. replace (24 + 24 * length ys)%nat with ((1 + length ys) * 24)%nat by lia.
  rewrite Nat.Div0.mod_mul. cbn [Nat.eqb negb]. destruct (Nat.ltb_spec ((1 + length ys) * 24) 24); [lia|].
  rewrite drop_app_length' by by rewrite encode64_length.
  rewrite entries_concat by (lia || apply encode64_length). by rewrite symbols_of_encoded.
Qed.

(** ** Addresses are resolved *)

(** A name carries the section it is of. *)
Lemma NewName_parts n link :
  0 <= n < 0x7fffffff -> 0 <= link -> NewName n link = n + 2 ^ 31 * link /\ NameIndex (NewName n link) = n /\ LinkIndex (NewName n link) = link.
Proof.
  intros Hn Hl. assert (NewName n link = n + 2 ^ 31 * link) as E.
  { unfold NewName. change 0x7fffffff with (Z.ones 31). rewrite Z.land_ones, Z.mod_small by lia.
    rewrite lor_shiftl_add_r by lia. lia. }
  split; [done|]. rewrite E. unfold NameIndex, LinkIndex. change 0x7fffffff with (Z.ones 31).
  rewrite Z.land_ones, Z.shiftr_div_pow2 by lia. rewrite (Z.mul_comm (2 ^ 31)), Z.mod_add, Z.div_add by lia.
  rewrite Z.mod_small, Z.div_small by lia. lia.
Qed.

Lemma sorted_values all : StronglySorted sym_le all -> StronglySorted (fun a b => a <= b) (map Value all).
Proof.
  induction 1 as [|x all _ IH Hx]; cbn [map]; constructor; [done|]. apply Forall_map. eapply Forall_impl; [exact Hx|].
  unfold sym_le. cbn. lia.
Qed.

(** The first symbol of a value has the smallest name. *)
Lemma first_symbol all v :
  StronglySorted sym_le all -> v ∈ map Value all ->
  exists a, all !! Z.to_nat (index_of v (map Value all)) = Some a /\ Value a = v /\ forall b, b ∈ all -> Value b = v -> SName a <= SName b.
Proof.
  induction 1 as [|x all Hs IH Hx]; intros Hin; [by apply not_elem_of_nil in Hin|]. cbn [map index_of].
  rewrite Forall_forall in Hx. destruct (Z.eqb_spec (Value x) v) as [Ev|Hne].
  - exists x. split; [done|]. split; [done|]. intros b Hb Hbv. rewrite elem_of_cons in Hb.
    destruct Hb as [->|Hb%Hx]; [done|]. unfold sym_le in Hb. lia.
  - cbn [map] in Hin. rewrite elem_of_cons in Hin. destruct Hin as [->|Hin]; [done|].
    destruct (IH Hin) as (a & Ha & Hv & Hmin). exists a. pose proof (index_of_nonneg v (map Value all)).
    replace (Z.to_nat (1 + index_of v (map Value all))) with (S (Z.to_nat (index_of v (map Value all)))) by lia.
    split; [done|]. split; [done|]. intros b Hb Hbv. rewrite elem_of_cons in Hb. destruct Hb as [->|Hb]; [done|]. by apply Hmin.
Qed.

(** The scan stops at the greatest value that is not above, if there is one. *)
Lemma scan_value vs addr :
  StronglySorted (fun a b => a <= b) vs ->
  (scan vs addr = -1 /\ forall x, x ∈ vs -> addr < x) \/
  (exists v, v ∈ vs /\ scan vs addr = index_of v vs /\ v <= addr /\ forall x, x ∈ vs -> x <= addr -> x <= v).
Proof.
  intros Hs. destruct (last (filter (fun v => v <= addr) vs)) as [v|] eqn:E.
  - right. exists v. pose proof E as [Hv Hin]%last_Some_elem_of%list_elem_of_filter.
    assert (forall x, x ∈ vs -> x <= addr -> x <= v) as Hmax.
    { intros x Hx Hle. apply last_filter_Some in E as (l1 & l2 & -> & Hl2).
      rewrite elem_of_app, elem_of_cons in Hx. rewrite Forall_forall in Hl2. destruct Hx as [Hx|[->|Hx]]; [|done|by destruct (Hl2 x Hx)].
      by apply (StronglySorted_app_1_elem_of _ _ _ x v Hs Hx ltac:(by left)). }
    split_and!; try done. by apply scan_floor.
  - left. apply last_None in E. assert (forall x, x ∈ vs -> addr < x) as Hall.
    { intros x Hx. destruct (Z.lt_decidable addr x) as [|Hge]; [done|].
      assert (x <= addr) as Hle by lia. by destruct (filter_nil_not_elem_of _ _ x E Hle). }
    split; [by apply scan_below|done].
Qed.

Definition string_at (f : elf_file) (off : Z) (name : bytes) : Prop :=
  0 <= off /\ (exists rest, drop (Z.to_nat off) (content f) = name ++ 0 :: rest) /\ Forall (fun b => b <> 0) name /\
  (length name < 1280)%nat /\ off + 128 * (Z.of_nat (length name) / 128 + 1) <= Z.of_nat (length (content f)).

Lemma getString_at f off name : string_at f off name -> getString f off = Some name.
Proof. intros (Ho & [rest Hd] & Hn & Hl & Hin). unfold getString. by apply (get_string_reads 10 _ off name rest). Qed.

(** The bytes of a section. *)
Definition stored (f : elf_file) (s : SectionHeader) (data : bytes) : Prop :=
  0 < Size s <= maxAlloc /\ exists pre post, content f = pre ++ data ++ post /\ Offset s = Z.of_nat (length pre) /\ Offset s < 2 ^ 63 /\
    Size s = Z.of_nat (length data).

Lemma stored_read f s data : stored f s data -> SectionData f s = Val (Some data).
Proof.
  intros ([H0 Hmax] & pre & post & Hc & Ho & Hlt & Hs). unfold SectionData, ReadAt.
  destruct (Z.gtb_spec (Size s) maxAlloc); [lia|].
  assert (s64 (Offset s) = Offset s) as -> by (unfold s64; rewrite Z.mod_small; lia).
  destruct (Z.ltb_spec (Offset s) 0); [lia|]. destruct (Z.eqb_spec (Size s) 0); [lia|].
  rewrite Hc, !length_app. destruct (Z.leb_spec (Offset s + Size s) (Z.of_nat (length pre + (length data + length post)))); [|lia].
  rewrite Ho, Hs, !Nat2Z.id, drop_app_length, take_app_length. done.
Qed.

(** The symbols of a section of a type, behind the first entry, and its string table; [None] if the file
    has no such section. *)
Definition has_symbols (f : elf_file) (typ : Z) (o : option (SectionHeader * list sym64)) : Prop :=
  match o with
  | None => sectionByType f typ = None
  | Some (strtab, ys) => Forall sym64_ok ys /\ exists s, sectionByType f typ = Some s /\
      stored f s (concat (map (encode64 (LittleEndian f)) (null64 :: ys))) /\ Sections f !! Z.to_nat (Link s) = Some strtab
  end.

(** The symbols of both sections, those of the second with link 1. *)
Definition syms (o : option (SectionHeader * list sym64)) : list sym64 := match o with Some (_, ys) => ys | None => [] end.
Definition all_syms (o1 o2 : option (SectionHeader * list sym64)) : list (Z * sym64) :=
  map (pair 0) (syms o1) ++ map (pair 1) (syms o2).
Definition strings_of (o1 o2 : option (SectionHeader * list sym64)) (link : Z) : option SectionHeader :=
  fst <$> (if link =? 0 then o1 else o2).

(** Their functions in the order of the table. *)
Definition func_index (ly : Z * sym64) : SymbolIndex := MkSymbolIndex (NewName (y_name ly.2) ly.1) (y_value ly.2).
Definition funcs (opt : SymbolsOptions) (ys : list (Z * sym64)) : list (Z * sym64) := List.filter (fun ly => is_func opt ly.2) ys.
Definition func_table (opt : SymbolsOptions) (ys : list (Z * sym64)) : list SymbolIndex :=
  merge_sort sym_le (map func_index (funcs opt ys)).

Lemma func_table_sorted opt ys : StronglySorted sym_le (func_table opt ys).
Proof. apply (StronglySorted_merge_sort sym_le). Qed.

Lemma elem_of_func_table opt ys a :
  a ∈ func_table opt ys <-> exists ly, a = func_index ly /\ ly ∈ ys /\ is_func opt ly.2 = true.
Proof.
  unfold func_table, funcs. rewrite merge_sort_Permutation, list_elem_of_fmap. by setoid_rewrite list_elem_of_In; setoid_rewrite filter_In.
Qed.

Lemma all_syms_ok f o1 o2 ly :
  has_symbols f SHT_SYMTAB o1 -> has_symbols f SHT_DYNSYM o2 -> ly ∈ all_syms o1 o2 ->
  sym64_ok ly.2 /\ (ly.1 = 0 \/ ly.1 = 1) /\ is_Some (strings_of o1 o2 ly.1).
Proof.
  intros H1 H2. unfold all_syms. rewrite elem_of_app, !list_elem_of_fmap. unfold strings_of.
  intros [(y & -> & Hy)|(y & -> & Hy)]; cbn [fst snd].
  - destruct o1 as [[st ys]|]; [|by apply not_elem_of_nil in Hy]. destruct H1 as [Hok _]. rewrite Forall_forall in Hok.
    split_and!; [by apply Hok|by left|by eexists].
  - destruct o2 as [[st ys]|]; [|by apply not_elem_of_nil in Hy]. destruct H2 as [Hok _]. rewrite Forall_forall in Hok.
    split_and!; [by apply Hok|by right|by eexists].
Qed.

Definition symbols_part (g : getsyms) : list SymbolIndex * Z := match g with Symbols_ l link => (l, link) | _ => ([], 0) end.

Lemma getSymbols_has f typ o opt :
  Class64 f = true -> has_symbols f typ o ->
  exists g, getSymbols f typ opt = Val g /\ g <> ErrSymbols /\
    (symbols_part g).1 = map func_index (funcs opt (map (pair (if typ =? SHT_DYNSYM then 1 else 0)) (syms o))) /\
    (forall strtab ys, o = Some (strtab, ys) -> Sections f !! Z.to_nat (symbols_part g).2 = Some strtab) /\
    (o = None -> (symbols_part g).2 = 0).
Proof.
  intros H64. destruct o as [[strtab ys]|]; cbn [has_symbols syms].
  - intros (Hok & s & Hs & Hst & Hlink). rewrite (getSymbols_encoded f s typ opt ys) by (done || by apply stored_read).
    eexists. split; [done|]. split; [done|]. cbn [symbols_part fst snd]. split_and!; [|by intros ? ? [= <- _]|done].
    generalize (if typ =? SHT_DYNSYM then 1 else 0) as link. intros link. clear. unfold funcs.
    induction ys as [|y ys IH]; [done|]. cbn [map List.filter snd]. destruct (is_func opt y); cbn [map]; by rewrite IH.
  - intros Hn. unfold getSymbols. rewrite Hn. by eexists.
Qed.

Lemma some_section f typ strtab ys : has_symbols f typ (Some (strtab, ys)) -> exists l, Sections f !! 0%nat = Some l.
Proof.
  intros (_ & s & Hs & _). unfold sectionByType in Hs. destruct (Sections f) as [|l secs]; [done|]. by exists l.
Qed.

Lemma table_built f opt o1 o2 :
  Class64 f = true -> has_symbols f SHT_SYMTAB o1 -> has_symbols f SHT_DYNSYM o2 ->
  (exists ly, ly ∈ all_syms o1 o2 /\ is_func opt ly.2 = true) ->
  exists l0 l1, NewSymbolTable f opt =
      Val (Some (MkSymbolTable (l0, l1) (map SName (func_table opt (all_syms o1 o2)))
                   (filled (map Value (func_table opt (all_syms o1 o2)))))) /\
    forall link strtab, strings_of o1 o2 link = Some strtab -> (if link =? 0 then l0 else l1) = strtab.
Proof.
  intros H64 H1 H2 (ly0 & Hly0 & Hf0).
  destruct (getSymbols_has f SHT_SYMTAB o1 opt H64 H1) as (g1 & E1 & N1 & L1 & S1 & Z1).
  destruct (getSymbols_has f SHT_DYNSYM o2 opt H64 H2) as (g2 & E2 & N2 & L2 & S2 & Z2).
  change (SHT_SYMTAB =? SHT_DYNSYM) with false in L1. change (SHT_DYNSYM =? SHT_DYNSYM) with true in L2. cbv iota in L1, L2.
  assert ((symbols_part g1).1 ++ (symbols_part g2).1 = map func_index (funcs opt (all_syms o1 o2))) as Eall.
  { rewrite L1, L2. unfold funcs, all_syms. by rewrite List.filter_app, map_app. }
  assert (exists l, Sections f !! 0%nat = Some l) as [l Hl].
  { destruct o1 as [[]|]; [by eapply some_section|]. destruct o2 as [[]|]; [by eapply some_section|]. by apply not_elem_of_nil in Hly0. }
  assert (exists l0, Sections f !! Z.to_nat (symbols_part g1).2 = Some l0 /\ forall strtab, fst <$> o1 = Some strtab -> l0 = strtab) as (l0 & Hl0 & El0).
  { destruct o1 as [[st ys]|]; [exists st; split; [by eapply S1|by intros ? [= ->]]|]. exists l. rewrite Z1 by done. done. }
  assert (exists l1, Sections f !! Z.to_nat (symbols_part g2).2 = Some l1 /\ forall strtab, fst <$> o2 = Some strtab -> l1 = strtab) as (l1 & Hl1 & El1).
  { destruct o2 as [[st ys]|]; [exists st; split; [by eapply S2|by intros ? [= ->]]|]. exists l. rewrite Z2 by done. done. }
  exists l0, l1. split; [|intros link strtab; unfold strings_of; destruct (link =? 0); auto].
  assert (func_table opt (all_syms o1 o2) <> []) as Hne.
  { intros E. assert (func_index ly0 ∈ func_table opt (all_syms o1 o2)) as Hin by (apply elem_of_func_table; by eauto).
    rewrite E in Hin. by apply not_elem_of_nil in Hin. }
  unfold NewSymbolTable. rewrite E1, E2.
  transitivity (let '(sym, sectionSym) := symbols_part g1 in let '(dynsym, sectionDynSym) := symbols_part g2 in
    match sym ++ dynsym with
    | [] => Val None
    | all => let all := merge_sort sym_le all in
        match Sections f !! Z.to_nat sectionSym, Sections f !! Z.to_nat sectionDynSym with
        | Some l0, Some l1 => let! values := fill (NewPCIndex (length all)) 0 (map Value all) in
            Val (Some (MkSymbolTable (l0, l1) (map SName all) values))
        | _, _ => Panic
        end
    end); [by destruct g1, g2|].
  destruct (symbols_part g1) as [sym sectionSym], (symbols_part g2) as [dynsym sectionDynSym]. cbn [fst snd] in *.
  rewrite Eall. unfold func_table in *. destruct (map func_index (funcs opt (all_syms o1 o2))) as [|a t] eqn:E; [done|].
  rewrite <-E in *. clear a t E. cbv zeta. rewrite Hl0, Hl1. fold (func_table opt (all_syms o1 o2)).
  rewrite <-(length_map Value), index_filled; [done|]. apply Forall_map, Forall_forall.
  intros b (ly & -> & Hy & _)%elem_of_func_table. by apply (all_syms_ok f o1 o2 ly H1 H2 Hy).
Qed.

Section resolved.
Context (demangle : bytes -> bytes).

(** C24: an address is resolved by the symbols of both symbol sections of a file of 64 bits, the static
    and the dynamic one, of which either may be missing: the functions (type STT_FUNC, value not zero and
    outside the range left to the Go table) are read and sorted, and the name given is that of
    the function with the greatest value which is not above the address, as the string table of its section
    has it; of several with that value the static ones come first and then the smallest
    offset of the name.  The sizes of the functions are not looked at, so that an address behind
    the end of a function is given its name too; below all functions there is no name.  The
    symbols are behind the first entry of their section, names are shorter than 1280 bytes and the
    pieces of 128 bytes they are read in lie in the file, and the address has 32 bits unless
    some function has a value that has not. *)
Theorem elf_symbol_resolved f opt o1 o2 (name_of : Z * sym64 -> bytes) addr :
  Class64 f = true -> has_symbols f SHT_SYMTAB o1 -> has_symbols f SHT_DYNSYM o2 ->
  let func ly := ly ∈ all_syms o1 o2 /\ is_func opt ly.2 = true in
  (forall ly strtab, func ly -> strings_of o1 o2 ly.1 = Some strtab ->
     string_at f (y_name ly.2 + s64 (Offset strtab)) (name_of ly)) ->
  (exists ly, func ly) -> 0 <= addr < 2 ^ 64 ->
  (addr < 2 ^ 32 \/ exists ly, func ly /\ MaxUint32 <= y_value ly.2) ->
  exists st, NewSymbolTable f opt = Val (Some st) /\
    ((SymbolTable_Resolve demangle f st addr = Val [] /\ forall ly, func ly -> addr < y_value ly.2) \/
     (exists ly, func ly /\ SymbolTable_Resolve demangle f st addr = Val (demangle (name_of ly)) /\
        y_value ly.2 <= addr /\ forall ly', func ly' -> y_value ly'.2 <= addr ->
          y_value ly'.2 < y_value ly.2 \/
          (y_value ly'.2 = y_value ly.2 /\ (ly.1 < ly'.1 \/ ly.1 = ly'.1 /\ y_name ly.2 <= y_name ly'.2)))).
Proof.
  intros H64 H1 H2 func Hstr Hex Haddr Hwide.
  destruct (table_built f opt o1 o2 H64 H1 H2 Hex) as (l0 & l1 & -> & Hlinks). eexists. split; [done|].
  pose proof (func_table_sorted opt (all_syms o1 o2)) as Hsorted. pose proof (elem_of_func_table opt (all_syms o1 o2)) as Hel.
  set (all := func_table opt (all_syms o1 o2)) in *.
  assert (forall ly, func ly -> func_index ly ∈ all) as Hin_all by (intros ly [Hy Hf]; apply Hel; by eauto).
  assert (forall ly, func ly -> y_value ly.2 ∈ map Value all) as Hval
    by (intros ly Hly; apply list_elem_of_fmap; exists (func_index ly); split; [done|by apply Hin_all]).
  assert (forall ly, func ly -> SName (func_index ly) = y_name ly.2 + 2 ^ 31 * ly.1 /\ NameIndex (SName (func_index ly)) = y_name ly.2 /\
    LinkIndex (SName (func_index ly)) = ly.1 /\ 0 <= y_name ly.2 < 2 ^ 31 /\ is_Some (strings_of o1 o2 ly.1)) as Hparts.
  { intros ly [Hy _]. destruct (all_syms_ok f o1 o2 ly H1 H2 Hy) as ((Hn & _) & Hl & Hs).
    destruct (NewName_parts (y_name ly.2) ly.1) as (? & ? & ?); [lia|lia|]. cbn [func_index SName]. by split_and!; try lia. }
  assert (map Value all <> []) as Hne.
  { destruct Hex as [ly Hly]. intros E. apply Hval in Hly. rewrite E in Hly. by apply not_elem_of_nil in Hly. }
  assert (FindIndex (filled (map Value all)) addr = Val (scan (map Value all) addr)) as Hfind.
  { apply filled_scan; [done|by apply sorted_values|done|]. destruct Hwide as [|(ly & Hly & Hv)]; [by left|]. right.
    apply Exists_exists. eauto. }
  unfold SymbolTable_Resolve. cbn [Names Values Links].
  replace (match map SName all with [] => Val [] | _ => _ end) with
    (let! i := FindIndex (filled (map Value all)) addr in
     if i =? -1 then Val [] else symbolName demangle f (MkSymbolTable (l0, l1) (map SName all) (filled (map Value all))) i) by by destruct all.
  rewrite Hfind. destruct (scan_value (map Value all) addr (sorted_values _ Hsorted)) as [[Hs Hall]|(v & Hin & Hs & Hv & Hmax)]; rewrite Hs.
  - left. split; [done|]. intros ly Hly. by apply Hall, Hval.
  - right. destruct (first_symbol all v Hsorted Hin) as (a & Ha & Hav & Hmin). pose proof (index_of_nonneg v (map Value all)).
    pose proof (list_elem_of_lookup_2 _ _ _ Ha) as (ly & -> & Hy & Hf)%Hel. assert (func ly) as Hly by done.
    destruct (Hparts ly Hly) as (E1 & E2 & E3 & Hn & [strtab Hst]). exists ly. split; [done|].
    destruct (Z.eqb_spec (index_of v (map Value all)) (-1)); [lia|]. split; [|split; [cbn in Hav; lia|]].
    + unfold symbolName, get_at. cbn [Names Links]. destruct (Z.ltb_spec (index_of v (map Value all)) 0); [lia|].
      rewrite list_lookup_fmap, Ha. cbn [fmap option_fmap option_map fst snd]. rewrite E2, E3, (Hlinks _ _ Hst).
      by rewrite (getString_at _ _ _ (Hstr ly strtab Hly Hst)).
    + intros ly' Hly' Hle. pose proof (Hmax _ (Hval _ Hly') Hle). cbn in Hav.
      destruct (Z.eq_decidable (y_value ly'.2) v) as [Ev|]; [right|left; lia]. split; [lia|].
      specialize (Hmin _ (Hin_all _ Hly') Ev). destruct (Hparts ly' Hly') as (E1' & _ & _ & Hn' & _). rewrite E1, E1' in Hmin. lia.
Qed.

(** ** 32 bits *)

Lemma symbols32_zero le_ link opt raws l : symbols_of (symbol32 le_ link opt) raws = Some l -> Forall (fun s => Value s = 0) l.
Proof.
  revert l. induction raws as [|raw raws IH]; intros l; cbn [symbols_of]; [intros [= <-]; constructor|].
  destruct (symbol32 le_ link opt raw) as [s|] eqn:Es; [|done]. destruct (symbols_of _ raws) as [rest|]; [|done].
  intros [= <-]. specialize (IH rest eq_refl). destruct s as [s|]; [|done]. constructor; [|done].
  unfold symbol32 in Es. repeat (case_match; try done). by injection Es as <-.
Qed.

Lemma getSymbols32_zero f typ opt g : Class64 f = false -> getSymbols f typ opt = Val g ->
  Forall (fun s => Value s = 0) (match g with Symbols_ l _ => l | _ => [] end).
Proof.
  intros H32. unfold getSymbols. rewrite H32. destruct (sectionByType f typ); [|intros [= <-]; constructor].
  destruct (SectionData f s) as [|[data|]]; [done| |intros [= <-]; constructor].
  destruct (negb _); [intros [= <-]; constructor|]. destruct (_ <? _)%nat; [done|]. intros [= <-].
  destruct (symbols_of _ _) as [l|] eqn:E; [|constructor]. by apply symbols32_zero in E.
Qed.

Lemma zeros_first n a : 0 <= a -> FindIndex (filled (replicate (S n) 0)) a = Val 0.
Proof.
  intros Ha. unfold filled. replace (forallb _ (replicate (S n) 0)) with true.
  2: { symmetry. apply forallb_forall. intros x Hx. apply list_elem_of_In, elem_of_replicate in Hx as [-> _]. done. }
  unfold FindIndex. cbn [i32]. change (get_at (replicate (S n) 0) 0) with (Val 0). cbv iota. destruct (Z.ltb_spec a 0); [lia|].
  assert (StronglySorted (fun a b => a <= b) (replicate (S n) 0)) as Hs.
  { generalize (S n) as k. induction k as [|k IH]; cbn [replicate]; constructor; [done|]. by apply Forall_replicate. }
  pose proof (u32_range a). rewrite find_in_scan, (scan_floor (replicate (S n) 0) (u32 a) 0) by (done || (by left) || lia ||
    (intros x [-> _]%elem_of_replicate; done)). done.
Qed.

(** The symbols of a file of 32 bits lose their values: every address of the process that lies in the
    file is resolved to one and the same function. *)
Theorem elf32_one_name f opt st addr :
  Class64 f = false -> NewSymbolTable f opt = Val (Some st) -> 0 <= addr < 2 ^ 64 ->
  SymbolTable_Resolve demangle f st addr = symbolName demangle f st 0.
Proof.
  intros H32 Hst Haddr. unfold NewSymbolTable in Hst.
  destruct (getSymbols f SHT_SYMTAB opt) as [|g1] eqn:E1; [done|]. destruct (getSymbols f SHT_DYNSYM opt) as [|g2] eqn:E2; [by destruct g1|].
  apply (getSymbols32_zero _ _ _ _ H32) in E1, E2.
  assert (forall l1 l2 link1 link2, Forall (fun s => Value s = 0) l1 -> Forall (fun s => Value s = 0) l2 ->
    (match l1 ++ l2 with
     | [] => Val None
     | all => let all := merge_sort sym_le all in
         match Sections f !! Z.to_nat link1, Sections f !! Z.to_nat link2 with
         | Some l0, Some l1 => let! values := fill (NewPCIndex (length all)) 0 (map Value all) in
                               Val (Some (MkSymbolTable (l0, l1) (map SName all) values))
         | _, _ => Panic
         end
     end) = Val (Some st) -> SymbolTable_Resolve demangle f st addr = symbolName demangle f st 0) as Hmain.
  { intros l1 l2 link1 link2 H1 H2 Hs. destruct (l1 ++ l2) as [|x l] eqn:El; [done|].
    destruct (Sections f !! Z.to_nat link1), (Sections f !! Z.to_nat link2); try done.
    assert (Forall (fun s => Value s = 0) (merge_sort sym_le (x :: l))) as Hz
      by (rewrite merge_sort_Permutation, <-El; by apply Forall_app).
    assert (length (merge_sort sym_le (x :: l)) = S (length l)) as Hlen by by rewrite merge_sort_Permutation.
    set (all := merge_sort sym_le (x :: l)) in *. cbv zeta in Hs.
    assert (map Value all = replicate (S (length l)) 0) as Ev.
    { rewrite <-Hlen. clear -Hz. induction Hz as [|a all Ha _ IH]; [done|]. cbn [map length replicate]. by rewrite Ha, IH. }
    rewrite <-(length_map Value), index_filled in Hs by (rewrite Ev; by apply Forall_replicate). fold (filled (map Value all)) in Hs.
    injection Hs as <-. unfold SymbolTable_Resolve. cbn [Names Values]. rewrite Ev, zeros_first by lia.
    destruct (map SName all) eqn:En; [|done]. apply (f_equal length) in En. rewrite length_map, Hlen in En. done. }
  destruct g1, g2; try done; (eapply Hmain; [exact E1|exact E2|exact Hst]).
Qed.

(** A symbol section of no bytes is not expected. *)
Lemma empty_section_panics f s opt :
  sectionByType f SHT_SYMTAB = Some s -> Size s = 0 -> 0 <= Offset s < 2 ^ 63 -> NewSymbolTable f opt = Panic.
Proof.
  intros Hs Hz Ho. unfold NewSymbolTable, getSymbols. rewrite Hs. unfold SectionData. rewrite Hz. cbn [Z.gtb Z.compare maxAlloc].
  assert (ReadAt (content f) (s64 (Offset s)) 0 = Some []) as ->.
  { unfold ReadAt. replace (s64 (Offset s)) with (Offset s); [by destruct (Z.ltb_spec (Offset s) 0); [lia|]|].
    unfold s64. rewrite Z.mod_small; lia. }
  destruct (Class64 f); done.
Qed.

End resolved.

(** *** Files *)

Definition demo_strings : bytes := [0] ++ str "foo" ++ [0] ++ str "bar" ++ [0] ++ replicate 140 0.

Definition demo_syms : list sym64 := [MkSym64 5 0x12 0 1 0x2000 16; MkSym64 1 0x12 0 1 0x1000 16; MkSym64 1 0x11 0 1 0x1800 8].

(** The function bar is in the dynamic symbols only. *)
Definition demo_dynamic : list sym64 := [MkSym64 5 0x12 0 1 0x3000 16; MkSym64 5 0x12 0 1 0x1000 16].

Definition demo_elf64 : elf_file :=
  MkElfFile true true
    [MkSectionHeader 0 0 0 0; MkSectionHeader SHT_SYMTAB 2 0 96; MkSectionHeader 3 0 168 9; MkSectionHeader SHT_DYNSYM 2 96 72]
    (concat (map (encode64 true) (null64 :: demo_syms)) ++ concat (map (encode64 true) (null64 :: demo_dynamic)) ++ demo_strings).

Definition demo_name (ly : Z * sym64) : bytes := if y_name ly.2 =? 1 then str "foo" else str "bar".

Definition demo_static := Some (MkSectionHeader 3 0 168 9, demo_syms).
Definition demo_dyn := Some (MkSectionHeader 3 0 168 9, demo_dynamic).

Lemma demo_elf64_symbols : has_symbols demo_elf64 SHT_SYMTAB demo_static /\ has_symbols demo_elf64 SHT_DYNSYM demo_dyn.
Proof.
  assert (Forall sym64_ok (demo_syms ++ demo_dynamic)) as [H1 H2]%Forall_app.
  { repeat apply Forall_cons_2; try apply Forall_nil_2; (unfold sym64_ok; cbn [y_name y_info y_value]; lia). }
  split; (split; [done|]); eexists; (split; [done|]); (split; [|done]); (split; [done|]).
  - exists [], (concat (map (encode64 true) (null64 :: demo_dynamic)) ++ demo_strings). by split_and!; vm_compute.
  - exists (concat (map (encode64 true) (null64 :: demo_syms))), demo_strings. by split_and!; vm_compute.
Qed.

Lemma elf_symbol_resolved_witness :
  exists st, NewSymbolTable demo_elf64 (MkSymbolsOptions 0 0) = Val (Some st) /\
    exists ly, SymbolTable_Resolve (fun s => s) demo_elf64 st 0x3900 = Val (demo_name ly) /\ y_value ly.2 = 0x3000.
Proof.
  destruct demo_elf64_symbols as [H1 H2].
  assert (forall ly, ly ∈ all_syms demo_static demo_dyn -> y_name ly.2 = 1 \/ y_name ly.2 = 5) as Hnames.
  { intros ly Hly. unfold all_syms in Hly. cbn [demo_static demo_dyn syms demo_syms demo_dynamic map app] in Hly. rewrite !elem_of_cons in Hly.
    repeat (destruct Hly as [->|Hly]; [by cbn; auto|]). by apply not_elem_of_nil in Hly. }
  assert ((1, MkSym64 5 0x12 0 1 0x3000 16) ∈ all_syms demo_static demo_dyn) as Hbar by (apply (list_elem_of_lookup_2 _ 3); done).
  destruct (elf_symbol_resolved (fun s => s) demo_elf64 (MkSymbolsOptions 0 0) demo_static demo_dyn demo_name 0x3900)
    as (st & E & [[_ Hnone]|(ly & [Hly Hf] & Hr & Hle & Hmax)]).
  - done.
  - exact H1.
  - exact H2.
  - intros ly strtab [Hly _] Hst. assert (strtab = MkSectionHeader 3 0 168 9) as ->.
    { unfold strings_of in Hst. destruct (ly.1 =? 0); by injection Hst as <-. }
    unfold demo_name. destruct (Hnames ly Hly) as [-> | ->]; (unfold string_at;
      split_and!; [by vm_compute|by eexists; vm_compute|by repeat constructor|apply Nat.ltb_lt; by vm_compute|by vm_compute]).
  - by exists (1, MkSym64 5 0x12 0 1 0x3000 16).
  - lia.
  - left. lia.
  - specialize (Hnone _ (conj Hbar eq_refl)). cbn in Hnone. lia.
  - exists st. split; [exact E|]. exists ly. split; [exact Hr|].
    specialize (Hmax _ (conj Hbar eq_refl) ltac:(cbn; lia)). cbn [snd y_value] in Hmax.
    assert (y_value ly.2 <= 0x3000); [|lia]. unfold all_syms in Hly. cbn [demo_static demo_dyn syms demo_syms demo_dynamic map app] in Hly.
    rewrite !elem_of_cons in Hly. repeat (destruct Hly as [->|Hly]; [by cbn; lia|]). by apply not_elem_of_nil in Hly.
Defined.

(** A symbol of 32 bits: name, value, size, info, other and section. *)
Definition encode32 (le_ : bool) (y : sym64) : bytes :=
  put le_ 4 (y_name y) ++ put le_ 4 (y_value y) ++ put le_ 4 (y_size y) ++ put le_ 1 (y_info y) ++ put le_ 1 (y_other y) ++ put le_ 2 (y_shndx y).

Definition demo_elf32 : elf_file :=
  MkElfFile false true [MkSectionHeader 0 0 0 0; MkSectionHeader SHT_SYMTAB 2 0 64; MkSectionHeader 3 0 64 9]
    (concat (map (encode32 true) (null64 :: demo_syms)) ++ demo_strings).

Definition demo_table32 : SymbolTable :=
  MkSymbolTable (MkSectionHeader 3 0 64 9, MkSectionHeader 0 0 0 0) [1; 5] (MkPCIndex (Some [0; 0]) None).

Lemma elf32_one_name_witness :
  NewSymbolTable demo_elf32 (MkSymbolsOptions 0 0) = Val (Some demo_table32) /\
  SymbolTable_Resolve (fun s => s) demo_elf32 demo_table32 0x2008 = Val (str "foo").
Proof.
  split; [by vm_compute|].
  rewrite (elf32_one_name (fun s => s) demo_elf32 (MkSymbolsOptions 0 0) demo_table32 0x2008); [by vm_compute|done|by vm_compute|lia].
Defined.

End ElfSymbols.
