(* ===== verification/ProcMaps.v ===== *)
(** * Mappings of a process

    internal/pyroscope-ebpf/symtab/procmap.go reads /proc/PID/maps, proc.go keeps the
    executable mappings of a process with the tables of their files, and elf.go finds where
    a file was loaded.  An address of the process becomes an address of the file. *)

From stdpp Require Import sorting.
From S2P Require Import Prelude GoLib GoText GoLines Symbols SymbolFiles.

Module ProcMaps.
Import GoText GoLines Symbols SymbolFiles.

(** ** Lines *)

Record ProcMapPermissions := MkPerms { Read : bool; Write_ : bool; Execute : bool; Shared : bool; Private : bool }.

Record ProcMap := MkProcMap {
  StartAddr : Z; EndAddr : Z; Perms : ProcMapPermissions; Offset : Z; Dev : Z; Inode : Z; Pathname : bytes
}.

(** The string shares the bytes of the token; there is no first byte of an empty one. *)
Definition tokenToStringUnsafe (tok : bytes) : go bytes := match tok with [] => Panic | _ => Val tok end.

(** [strconv.ParseUint(tokenToStringUnsafe(s), 16, 0)] *)
Definition parseAddress (s : bytes) : go (option Z) := let! s := tokenToStringUnsafe s in Val (ParseHex s).

Definition parseAddresses (s : bytes) : go (option (Z * Z)) :=
  let '(saddr, eaddr, found) := Cut s (str "-") in
  if negb found then Val None
  else
  let! saddr := parseAddress saddr in
  match saddr with
  | None => Val None
  | Some saddr => let! eaddr := parseAddress eaddr in Val (let? eaddr := eaddr else None in Some (saddr, eaddr))
  end.

Definition mkdev (major minor : Z) : Z :=
  Z.lor (Z.lor (Z.lor (Z.shiftl (Z.land major 0x00000fff) 8) (Z.shiftl (Z.land major 0xfffff000) 32))
           (Z.shiftl (Z.land minor 0x000000ff) 0))
        (Z.shiftl (Z.land minor 0xffffff00) 12).

Definition parseDevice (s : bytes) : go (option Z) :=
  let '(major, minor, found) := Cut s (str ":") in
  if negb found then Val None
  else
  let! major := parseAddress major in
  match major with
  | None => Val None
  | Some major => let! minor := parseAddress minor in Val (let? minor := minor else None in Some (mkdev (u32 major) (u32 minor)))
  end.

Definition perm (p : ProcMapPermissions) (ch : Z) : ProcMapPermissions :=
  let 'MkPerms r w x s p' := p in
  if ch =? 114 then MkPerms true w x s p' else if ch =? 119 then MkPerms r true x s p' else if ch =? 120 then MkPerms r w true s p'
  else if ch =? 112 then MkPerms r w x s true else if ch =? 115 then MkPerms r w x true p' else p.

Definition parsePermissions (s : bytes) : option ProcMapPermissions :=
  if (length s <? 4)%nat then None else Some (fold_left perm s (MkPerms false false false false false)).

Definition parseInode (s : bytes) : go (option Z) := let! s := tokenToStringUnsafe s in Val (ParseUint 64 s).

(** [None] is an error, [Some None] a mapping that is not executable. *)
Definition ParseProcMapLine (line : bytes) (executableOnly : bool) : go (option (option ProcMap)) :=
  let '(addresses, line, found) := Cut line (str " ") in
  if negb found then Val None else
  let '(perms, line, found) := Cut line (str " ") in
  if negb found then Val None else
  let '(offset, line, found) := Cut line (str " ") in
  if negb found then Val None else
  let '(device, line, found) := Cut line (str " ") in
  if negb found then Val None else
  let '(inode, line, _) := Cut line (str " ") in
  match parsePermissions perms with
  | None => Val None
  | Some perms =>
      if executableOnly && negb (Execute perms) then Val (Some None)
      else
      let! addresses := parseAddresses addresses in
      match addresses with None => Val None | Some (saddr, eaddr) =>
      let! offset := parseAddress offset in
      match offset with None => Val None | Some offset =>
      let! device := parseDevice device in
      match device with None => Val None | Some device =>
      let! inode := parseInode inode in
      match inode with None => Val None | Some inode =>
        Val (Some (Some (MkProcMap saddr eaddr perms offset device inode (TrimLeft line 32))))
      end end end end
  end.

Fixpoint parse_lines (lines : list bytes) (executableOnly : bool) : go (option (list ProcMap)) :=
  match lines with
  | [] => Val (Some [])
  | line :: lines =>
      if bytes_eqb line [] then parse_lines lines executableOnly
      else
      let! m := ParseProcMapLine line executableOnly in
      match m with
      | None => Val None
      | Some m => let! rest := parse_lines lines executableOnly in
                  Val (let? rest := rest else None in Some (match m with Some m => m :: rest | None => rest end))
      end
  end.

Definition ParseProcMapsExecutableModules (procMaps : bytes) (executableOnly : bool) : go (option (list ProcMap)) :=
  parse_lines (Split procMaps 10) executableOnly.

(** ** Where a file was loaded *)

Record prog := MkProg { p_load : bool; p_exec : bool; Off : Z; Vaddr : Z }.

#[export] Instance prog_eq_dec : EqDecision prog.
Proof. solve_decision. Defined.

(** What the agent reads of an ELF file: whether its type is ET_EXEC, its segments, and the
    symbol table it makes of it, a [SymbolNameResolver]. *)
Record image := MkImage { et_exec : bool; Progs : list prog; names : Z -> go bytes }.

Definition page_mask : Z := 0xfffffffffffff000.

Definition segment_base (m : ProcMap) (p : prog) : option Z :=
  if p_load p && p_exec p then
    if Offset m =? Off p then Some (u64 (StartAddr m - Vaddr p))
    else let alignedProgOffset := Z.land (Off p) page_mask in
         if Offset m =? alignedProgOffset then Some (u64 (StartAddr m + (Off p - alignedProgOffset) - Vaddr p)) else None
  else None.

Fixpoint first_base (m : ProcMap) (ps : list prog) : option Z :=
  match ps with
  | [] => None
  | p :: ps => match segment_base m p with Some b => Some b | None => first_base m ps end
  end.

Definition findBase (m : ProcMap) (e : image) : option Z := if et_exec e then Some 0 else first_base m (Progs e).

(** ** The table of a process *)

(** The key of a file: device, inode and path. *)
Definition file_key : Type := Z * Z * bytes.
Definition file (m : ProcMap) : file_key := (Dev m, Inode m, Pathname m).

(** The table of a file holds the mapping it was made for, the first. *)
Record ProcTable := MkProcTable {
  ranges : list (ProcMap * bool); file2Table : gmap file_key ProcMap; err : bool; perfMap : option (list Symbol)
}.

Definition NewProcTable : ProcTable := MkProcTable [] ∅ false None.

(** [getElfTable]: files that are no paths have no table. *)
Definition getElfTable (tables : gmap file_key ProcMap) (m : ProcMap) : gmap file_key ProcMap * bool :=
  match tables !! file m with
  | Some _ => (tables, true)
  | None => if HasPrefix (Pathname m) (str "/") then (<[file m := m]> tables, true) else (tables, false)
  end.

Fixpoint add_ranges (tables : gmap file_key ProcMap) (maps : list ProcMap) : gmap file_key ProcMap * list (ProcMap * bool) :=
  match maps with
  | [] => (tables, [])
  | m :: maps =>
      let '(tables, has) := getElfTable tables m in
      let '(tables, rest) := add_ranges tables maps in (tables, (m, has) :: rest)
  end.

(** Tables of files that are no longer mapped are dropped. *)
Definition refreshProcMap (p : ProcTable) (procMaps : bytes) : go ProcTable :=
  let! maps := ParseProcMapsExecutableModules procMaps true in
  match maps with
  | None => Val (MkProcTable [] (file2Table p) true (perfMap p))
  | Some maps =>
      let '(tables, rs) := add_ranges (file2Table p) maps in
      let keep := list_to_set (map (fun r => file r.1) (List.filter snd rs)) : gset file_key in
      Val (MkProcTable rs (filter (fun kv => kv.1 ∈ keep) tables) false (perfMap p))
  end.

(** The files of a process: its maps, [None] if they cannot be read; its perf map, [None] if it
    cannot be read and [Some None] if there is none. *)
Record proc_files := MkProcFiles { f_maps : option bytes; f_perf : option (option bytes) }.

Section table.
Context (sort : list Symbol -> list Symbol).

Definition NewPerfMap (f : option (option bytes)) : option (option (list Symbol)) :=
  match f with
  | None => None
  | Some None => Some None
  | Some (Some data) => let? syms := parsePerfMap sort data else None in Some (Some syms)
  end.

Definition Refresh (p : ProcTable) (f : proc_files) : go ProcTable :=
  if err p then Val p
  else
  match f_maps f with
  | None => Val (MkProcTable (ranges p) (file2Table p) true (perfMap p))
  | Some procMaps =>
      let! p := refreshProcMap p procMaps in
      match NewPerfMap (f_perf f) with
      | Some pm => Val (MkProcTable (ranges p) (file2Table p) (err p) pm)
      | None => Val (MkProcTable (ranges p) (file2Table p) true None)
      end
  end.

(** The file at a path of the process; [None] if it cannot be opened or decoded. *)
Context (open_elf : bytes -> option image).

(** [ElfTable.load] of the table of a mapping: its base and its names; a file that fails to load
    has neither. *)
Definition load (m : ProcMap) : Z * (Z -> go bytes) :=
  match open_elf (Pathname m) with
  | None => (0, fun _ => Val [])
  | Some e => match findBase m e with
              | None => (0, fun _ => Val [])
              | Some b => (b, names e)
              end
  end.

Definition binarySearchElfRange (pc : Z) (r : ProcMap * bool) : Z :=
  if pc <? StartAddr r.1 then 1 else if pc >=? EndAddr r.1 then -1 else 0.

Definition end_of_stack (pc : Z) : bool := (pc =? 0xcccccccccccccccc) || (pc =? 0x9090909090909090).

Definition resolve_range (p : ProcTable) (pc : Z) : go Symbol :=
  let '(i, found) := BinarySearchFunc (binarySearchElfRange pc) (ranges p) in
  if negb found then Val no_symbol
  else
  match ranges p !! i with
  | Some (m, true) =>
      match file2Table p !! file m with
      | Some first =>
          let '(b, names) := load first in
          let moduleOffset := u64 (pc - b) in
          let! s := names moduleOffset in
          Val (MkSymbol moduleOffset s (Pathname m) 0 0)
      | None => Val no_symbol
      end
  | _ => Val no_symbol
  end.

Definition ProcTable_Resolve (p : ProcTable) (pc : Z) : go Symbol :=
  if end_of_stack pc then Val (MkSymbol 0 (str "end_of_stack") (str "[unknown]") 0 0)
  else
  match perfMap p with
  | Some syms => let s := PerfMap_Resolve syms pc in
                 if bytes_eqb (Name s) [] then resolve_range p pc else Val s
  | None => resolve_range p pc
  end.

End table.

(** ** The kernel's maps are read back *)

Record mrow := Mrow {
  m_widths : nat * nat * nat; m_start : Z; m_end : Z; m_read : bool; m_write : bool; m_exec : bool; m_shared : bool;
  m_off : Z; m_major : Z; m_minor : Z; m_inode : Z; m_pad : nat; m_name : bytes
}.

Definition print_perms (r : mrow) : bytes :=
  [if m_read r then 114 else 45; if m_write r then 119 else 45; if m_exec r then 120 else 45; if m_shared r then 115 else 112].

(** Addresses, offsets and devices have at least eight, eight and two digits. *)
Definition print_map (r : mrow) : bytes :=
  let '(wa, wo, wd) := m_widths r in
  (hex_fixed wa (m_start r) ++ [45] ++ hex_fixed wa (m_end r)) ++ [32] ++ print_perms r ++ [32] ++ hex_fixed wo (m_off r) ++ [32] ++
  (hex_fixed wd (m_major r) ++ [58] ++ hex_fixed wd (m_minor r)) ++ [32] ++ FormatUint (m_inode r) ++ [32] ++
  replicate (m_pad r) 32 ++ m_name r.

Definition mrow_map (r : mrow) : ProcMap :=
  MkProcMap (m_start r) (m_end r) (MkPerms (m_read r) (m_write r) (m_exec r) (m_shared r) (negb (m_shared r)))
    (m_off r) (mkdev (m_major r) (m_minor r)) (m_inode r) (m_name r).

Definition fits (k : nat) (n : Z) : Prop := (0 < k <= 16)%nat /\ 0 <= n < 16 ^ Z.of_nat k.

Definition mrow_ok (r : mrow) : Prop :=
  fits (m_widths r).1.1 (m_start r) /\ fits (m_widths r).1.1 (m_end r) /\ fits (m_widths r).1.2 (m_off r) /\
  fits (m_widths r).2 (m_major r) /\ fits (m_widths r).2 (m_minor r) /\ m_major r < 2 ^ 32 /\ m_minor r < 2 ^ 32 /\
  0 <= m_inode r < 2 ^ 64 /\ no_newline (m_name r) /\ (match m_name r with c :: _ => c <> 32 | [] => True end).

Lemma hex_fixed_nil k n : (0 < k)%nat -> hex_fixed k n <> [].
Proof. destruct k; [lia|]. cbn [hex_fixed]. intros _ E. by apply app_nil in E as []. Qed.

Lemma parseAddress_fixed k n : fits k n -> parseAddress (hex_fixed k n) = Val (Some n).
Proof.
  intros [Hk Hn]. unfold parseAddress, tokenToStringUnsafe. pose proof (hex_fixed_nil k n ltac:(lia)).
  destruct (hex_fixed k n) eqn:E; [done|]. by rewrite <-E, ParseHex_fixed.
Qed.

Lemma hex_fixed_not k n c : (c < 48 \/ 57 < c < 97) -> Forall (fun b => b <> c) (hex_fixed k n).
Proof. intros Hc. eapply Forall_impl; [apply hex_fixed_chars|]. cbn. lia. Qed.

Lemma parseAddresses_fixed k m n : fits k m -> fits k n -> parseAddresses (hex_fixed k m ++ [45] ++ hex_fixed k n) = Val (Some (m, n)).
Proof.
  intros Hm Hn. unfold parseAddresses. cbn [app]. change (str "-") with [45]. rewrite Cut_app by (apply hex_fixed_not; lia).
  cbn [negb]. by rewrite !parseAddress_fixed.
Qed.

Lemma parseDevice_fixed k m n :
  fits k m -> fits k n -> m < 2 ^ 32 -> n < 2 ^ 32 -> parseDevice (hex_fixed k m ++ [58] ++ hex_fixed k n) = Val (Some (mkdev m n)).
Proof.
  intros Hm Hn Hm' Hn'. unfold parseDevice. cbn [app]. change (str ":") with [58]. rewrite Cut_app by (apply hex_fixed_not; lia).
  cbn [negb]. rewrite !parseAddress_fixed by done. destruct Hm as [_ ?], Hn as [_ ?]. by rewrite !u32_small by lia.
Qed.

Lemma parsePermissions_printed r :
  parsePermissions (print_perms r) = Some (MkPerms (m_read r) (m_write r) (m_exec r) (m_shared r) (negb (m_shared r))).
Proof. unfold print_perms. by destruct (m_read r), (m_write r), (m_exec r), (m_shared r). Qed.

Lemma print_perms_no_space r : Forall (fun b => b <> 32) (print_perms r).
Proof. unfold print_perms. by destruct (m_read r), (m_write r), (m_exec r), (m_shared r); repeat constructor. Qed.

Lemma TrimLeft_spaces n s : (match s with c :: _ => c <> 32 | [] => True end) -> TrimLeft (replicate n 32 ++ s) 32 = s.
Proof.
  intros Hs. induction n as [|n IH]; cbn [replicate app TrimLeft]; [|by rewrite Z.eqb_refl].
  destruct s as [|c s]; [done|]. cbn [TrimLeft]. by destruct (Z.eqb_spec c 32).
Qed.

Lemma range_no_space k m n c : c = 45 \/ c = 58 -> Forall (fun b => b <> 32) (hex_fixed k m ++ [c] ++ hex_fixed k n).
Proof.
  intros Hc. apply Forall_app. split; [apply hex_fixed_not; lia|]. apply Forall_app. split; [apply Forall_singleton; lia|].
  apply hex_fixed_not. lia.
Qed.

Lemma Cut_space s t : Forall (fun b => b <> 32) s -> Cut (s ++ [32] ++ t) (str " ") = (s, t, true).
Proof. apply Cut_app. Qed.

Lemma ParseProcMapLine_printed r :
  mrow_ok r -> ParseProcMapLine (print_map r) true = Val (Some (if m_exec r then Some (mrow_map r) else None)).
Proof.
  intros (H1 & H2 & H3 & H4 & H5 & H6 & H7 & H8 & _ & H9). unfold ParseProcMapLine, print_map.
  destruct (m_widths r) as [[wa wo] wd]. cbn [fst snd] in *.
  pose proof (FormatUint_word _ H8) as [Hi Hg].
  rewrite Cut_space by (apply range_no_space; lia). rewrite Cut_space by apply print_perms_no_space.
  rewrite Cut_space by (apply hex_fixed_not; lia). rewrite Cut_space by (apply range_no_space; lia).
  rewrite Cut_space by (eapply Forall_impl; [exact Hg|]; unfold graphic; cbn; lia). cbn [negb].
  rewrite parsePermissions_printed. cbn [Execute andb]. destruct (m_exec r) eqn:Ex; cbn [negb]; [|done].
  rewrite parseAddresses_fixed, parseAddress_fixed, parseDevice_fixed by done.
  unfold parseInode, tokenToStringUnsafe. destruct (FormatUint (m_inode r)) as [|c s] eqn:E; [done|]. rewrite <-E.
  rewrite ParseUint_FormatUint by (lia || exact H8). rewrite TrimLeft_spaces by exact H9. unfold mrow_map. by rewrite Ex.
Qed.

Lemma print_map_line r : mrow_ok r -> no_newline (print_map r).
Proof.
  intros (_ & _ & _ & _ & _ & _ & _ & H8 & Hn & _). unfold no_newline, print_map. destruct (m_widths r) as [[wa wo] wd].
  assert (forall k n, Forall (fun b => b <> 10) (hex_fixed k n)) as Hh by (intros; apply hex_fixed_not; lia).
  assert (Forall (fun b => b <> 10) (FormatUint (m_inode r))) as Hi by by apply word_no_newline, FormatUint_word.
  assert (Forall (fun b => b <> 10) (print_perms r)) as Hp
    by (unfold print_perms; by destruct (m_read r), (m_write r), (m_exec r), (m_shared r); repeat constructor).
  rewrite !Forall_app. split_and!; try apply Hh; try done; try (by apply Forall_singleton). by apply Forall_replicate.
Qed.

Lemma maps_parsed rows :
  Forall mrow_ok rows ->
  ParseProcMapsExecutableModules (unlines (map print_map rows)) true = Val (Some (map mrow_map (List.filter m_exec rows))).
Proof.
  intros Hr. unfold ParseProcMapsExecutableModules. rewrite Split_unlines.
  2: { apply Forall_map. eapply Forall_impl; [exact Hr|]. apply print_map_line. }
  induction Hr as [|r rows Hr _ IH]; [done|]. cbn [map app parse_lines List.filter].
  replace (bytes_eqb (print_map r) []) with false.
  - rewrite ParseProcMapLine_printed, IH by done. by destruct (m_exec r).
  - symmetry. apply bool_decide_eq_false. unfold print_map. destruct (m_widths r) as [[wa wo] wd]. by intros [_ ?]%app_nil.
Qed.

(** ** The base is the load bias *)

(** The kernel maps the pages of a segment at the load bias. *)
Definition maps_segment (m : ProcMap) (p : prog) (bias : Z) : Prop :=
  Vaddr p mod 4096 = Off p mod 4096 /\ Offset m = Off p - Off p mod 4096 /\ StartAddr m = bias + (Vaddr p - Vaddr p mod 4096).

Lemma page_start n : 0 <= n < 2 ^ 64 -> Z.land n page_mask = n - n mod 4096.
Proof.
  intros Hn. change page_mask with (Z.shiftl (Z.ones 52) 12).
  assert (Z.land n (Z.shiftl (Z.ones 52) 12) = Z.shiftl (Z.shiftr n 12) 12) as ->.
  { apply Z.bits_inj'. intros i Hi. rewrite Z.land_spec. destruct (Z.lt_decidable i 12) as [Hlt|Hge].
    - rewrite !Z.shiftl_spec_low by lia. by rewrite andb_false_r.
    - rewrite !Z.shiftl_spec_high by lia. rewrite Z.shiftr_spec, Z.testbit_ones by lia. replace (i - 12 + 12) with i by lia.
      destruct (Z.lt_decidable i 64).
      + by rewrite (proj2 (Z.leb_le 0 (i - 12))), (proj2 (Z.ltb_lt (i - 12) 52)), andb_true_r by lia.
      + rewrite (Z.bits_above_log2 n i), ?andb_false_l; [done|lia|]. destruct (Z.eq_decidable n 0) as [->|]; [cbn; lia|].
        assert (Z.log2 n < 64) by (apply Z.log2_lt_pow2; lia). lia. }
  rewrite Z.shiftl_mul_pow2, Z.shiftr_div_pow2 by lia. change (2 ^ 12) with 4096. pose proof (Z.div_mod n 4096). lia.
Qed.

Lemma segment_base_bias m p bias :
  p_load p = true -> p_exec p = true -> 0 <= Off p < 2 ^ 64 -> maps_segment m p bias -> segment_base m p = Some (u64 bias).
Proof.
  intros Hl Hx Hoff (Hmod & Ho & Hs). unfold segment_base. rewrite Hl, Hx. cbn [andb]. rewrite page_start by done.
  pose proof (Z.mod_pos_bound (Off p) 4096). destruct (Z.eqb_spec (Offset m) (Off p)).
  - do 2 f_equal. lia.
  - destruct (Z.eqb_spec (Offset m) (Off p - Off p mod 4096)); [|lia]. do 2 f_equal. lia.
Qed.

(** A file whose only executable segment at this page is [p]. *)
Lemma findBase_bias m e p bias :
  et_exec e = false -> p ∈ Progs e -> p_load p = true -> p_exec p = true -> 0 <= Off p < 2 ^ 64 -> maps_segment m p bias ->
  (forall q, q ∈ Progs e -> q <> p -> segment_base m q = None) -> findBase m e = Some (u64 bias).
Proof.
  intros He Hin Hl Hx Hoff Hm Hothers. unfold findBase. rewrite He. clear He.
  induction (Progs e) as [|q ps IH]; [by apply not_elem_of_nil in Hin|]. cbn [first_base].
  destruct (decide (q = p)) as [->|Hne]; [by rewrite (segment_base_bias m p bias)|].
  rewrite Hothers by (done || by left). rewrite elem_of_cons in Hin. destruct Hin as [->|Hin]; [done|].
  apply IH; [done|]. intros q' Hq'. apply Hothers. by right.
Qed.

(** ** The table of a process is made of its first mappings *)

Definition has_path (m : ProcMap) : bool := HasPrefix (Pathname m) (str "/").
Definition of_file (k : file_key) (m : ProcMap) : bool := bool_decide (file m = k) && has_path m.

Definition tables_ok (tables : gmap file_key ProcMap) : Prop := forall k m, tables !! k = Some m -> HasPrefix k.2 (str "/") = true.

Lemma getElfTable_spec tables m :
  tables_ok tables ->
  getElfTable tables m = (match tables !! file m with
                          | Some _ => tables
                          | None => if has_path m then <[file m := m]> tables else tables
                          end, has_path m).
Proof.
  intros Hok. unfold getElfTable, has_path. destruct (tables !! file m) as [m'|] eqn:E; [|by case_match].
  apply Hok in E. cbn [file snd] in E. by rewrite E.
Qed.

Lemma getElfTable_ok tables m : tables_ok tables -> tables_ok (getElfTable tables m).1.
Proof.
  intros Hok. rewrite getElfTable_spec by done. cbn [fst]. destruct (tables !! file m); [done|].
  destruct (has_path m) eqn:Hp; [|done]. intros k m' Hk. rewrite lookup_insert_Some in Hk.
  destruct Hk as [[<- <-]|[_ Hk]]; [exact Hp|by eapply Hok].
Qed.

Lemma add_ranges_spec maps tables :
  tables_ok tables ->
  (add_ranges tables maps).2 = map (fun m => (m, has_path m)) maps /\
  forall k, (add_ranges tables maps).1 !! k = match tables !! k with Some m => Some m | None => List.find (of_file k) maps end.
Proof.
  revert tables. induction maps as [|m maps IH]; intros tables Hok; cbn [add_ranges map].
  - split; [done|]. intros k. cbn. by destruct (tables !! k).
  - pose proof (getElfTable_ok tables m Hok) as Hok'. rewrite getElfTable_spec in * by done. cbn [fst] in Hok'.
    set (tables' := match tables !! file m with Some _ => _ | None => _ end) in *.
    specialize (IH tables' Hok'). destruct (add_ranges tables' maps) as [t rs]. cbn [fst snd] in *.
    destruct IH as [-> IH]. split; [done|]. intros k. rewrite IH. unfold tables'. cbn [List.find]. change (of_file k m) with (bool_decide (file m = k) && has_path m).
    destruct (decide (file m = k)) as [<-|Hne].
    + destruct (tables !! file m) as [m0|] eqn:E; [by rewrite E|]. rewrite bool_decide_eq_true_2 by done. cbn [andb].
      destruct (has_path m) eqn:Hp; [by rewrite lookup_insert_eq|by rewrite E].
    + rewrite bool_decide_eq_false_2 by done. cbn [andb].
      destruct (tables !! file m); [done|]. destruct (has_path m); [by rewrite lookup_insert_ne|done].
Qed.

(** ** Addresses *)

Section addresses.
Context (sort : list Symbol -> list Symbol) (open_elf : bytes -> option image).

(** Mappings in the order of their addresses, as the kernel prints them. *)
Definition mrow_before (a b : mrow) : Prop := m_end a <= m_start b.

Definition process (rows : list mrow) : proc_files := MkProcFiles (Some (unlines (map print_map rows))) (Some None).

Lemma range_found rows r pc :
  StronglySorted mrow_before rows -> Forall (fun r => m_start r < m_end r) rows ->
  r ∈ rows -> m_start r <= pc < m_end r ->
  exists i, BinarySearchFunc (binarySearchElfRange pc) (map (fun m => (m, has_path m)) (map mrow_map rows)) = (i, true) /\
    map (fun m => (m, has_path m)) (map mrow_map rows) !! i = Some (mrow_map r, has_path (mrow_map r)).
Proof.
  intros Hs Hne (a & b & ->)%list_elem_of_split Hpc. rewrite Forall_app, Forall_cons in Hne. destruct Hne as (Ha & _ & Hb).
  rewrite Forall_forall in Ha, Hb. rewrite !map_app. set (f := fun m => (m, has_path m)).
  exists (length (map f (map mrow_map a))). rewrite lookup_app_r, Nat.sub_diag by lia. split; [|done].
  unfold BinarySearchFunc. rewrite bisect_spec; rewrite ?length_app; try lia.
  - rewrite lookup_app_r, Nat.sub_diag by lia. cbn [map lookup list_lookup]. unfold f at 1 2, binarySearchElfRange. cbn [fst mrow_map StartAddr EndAddr].
    f_equal. destruct (Z.ltb_spec pc (m_start r)); [lia|]. by destruct (Z.geb_spec pc (m_end r)); [lia|].
  - apply Forall_map, Forall_map, Forall_forall. intros x Hx.
    pose proof (StronglySorted_app_1_elem_of _ _ _ x r Hs Hx ltac:(by left)) as Hxr. unfold mrow_before in Hxr. apply Ha in Hx.
    unfold f, binarySearchElfRange. cbn [fst mrow_map StartAddr EndAddr]. repeat case_match; lia.
  - change (f (mrow_map r) :: map f (map mrow_map b)) with (map f (map mrow_map (r :: b))).
    apply Forall_map, Forall_map, Forall_forall. intros x Hx. unfold f, binarySearchElfRange. cbn [fst mrow_map StartAddr EndAddr].
    apply StronglySorted_app_1_r, StronglySorted_inv in Hs as [_ Hf]. rewrite Forall_forall in Hf. rewrite elem_of_cons in Hx.
    destruct Hx as [->|Hx].
    + repeat case_match; lia.
    + pose proof (Hb x Hx). apply Hf in Hx. unfold mrow_before in Hx. repeat case_match; lia.
Qed.

(** The mappings of code, and the first of a file. *)
Definition code_rows (rows : list mrow) : list mrow := List.filter m_exec rows.
Definition first_of (rows : list mrow) (r : mrow) : option ProcMap :=
  List.find (of_file (file (mrow_map r))) (map mrow_map (code_rows rows)).

Lemma resolve_first rows r pc first :
  Forall mrow_ok rows -> StronglySorted mrow_before (code_rows rows) -> Forall (fun r => m_start r < m_end r) (code_rows rows) ->
  r ∈ code_rows rows -> HasPrefix (m_name r) (str "/") = true -> m_start r <= pc < m_end r -> end_of_stack pc = false ->
  first_of rows r = Some first ->
  exists p, Refresh sort NewProcTable (process rows) = Val p /\ err p = false /\
    ProcTable_Resolve open_elf p pc =
    (let! s := (load open_elf first).2 (u64 (pc - (load open_elf first).1)) in
     Val (MkSymbol (u64 (pc - (load open_elf first).1)) s (m_name r) 0 0)).
Proof.
  intros Hok Hs Hne Hin Hpath Hpc Hend Hfirst. unfold Refresh, process, refreshProcMap, NewProcTable. cbn [f_maps f_perf err NewProcTable].
  rewrite maps_parsed by done. fold (code_rows rows). cbn [file2Table NewPerfMap perfMap].
  destruct (add_ranges_spec (map mrow_map (code_rows rows)) ∅) as [Ers Etab]; [intros k m Hk; by rewrite lookup_empty in Hk|].
  destruct (add_ranges ∅ _) as [tables rs]. cbn [fst snd] in *. subst rs. eexists. split; [done|]. split; [done|].
  unfold ProcTable_Resolve. cbn [perfMap ranges file2Table err]. rewrite Hend. unfold resolve_range. cbn [ranges file2Table].
  destruct (range_found (code_rows rows) r pc Hs Hne Hin Hpc) as (i & -> & Ei). cbn [negb]. rewrite Ei.
  change (has_path (mrow_map r)) with (HasPrefix (m_name r) (str "/")). rewrite Hpath.
  assert (tables !! file (mrow_map r) = Some first) as Et by (rewrite Etab; exact Hfirst).
  match goal with |- context [?m !! file (mrow_map r)] => assert (m !! file (mrow_map r) = Some first) as -> end.
  - apply map_lookup_filter_Some. split; [exact Et|]. apply elem_of_list_to_set, list_elem_of_In, in_map_iff.
    exists (mrow_map r, true). split; [done|]. apply filter_In. split; [|done]. apply in_map_iff. exists (mrow_map r).
    split; [by unfold has_path; cbn [Pathname mrow_map]; rewrite Hpath|]. apply in_map. by apply list_elem_of_In.
  - by destruct (load open_elf first).
Qed.

(** A mapping of a file that was loaded with this bias: of one executable segment, and no other
    executable segment starts in the same page; files of type ET_EXEC are not moved. *)
Definition loaded_at (e : image) (bias : Z) (m : ProcMap) : Prop :=
  (et_exec e = true /\ bias = 0) \/
  (et_exec e = false /\ exists p, p ∈ Progs e /\ p_load p = true /\ p_exec p = true /\ 0 <= Off p < 2 ^ 64 /\
     maps_segment m p bias /\ forall q, q ∈ Progs e -> q <> p -> segment_base m q = None).

Lemma load_loaded e bias m :
  open_elf (Pathname m) = Some e -> loaded_at e bias m -> load open_elf m = (u64 bias, names e).
Proof.
  intros Ho Hl. unfold load. rewrite Ho. destruct Hl as [[He ->]|(He & p & Hp & Hl & Hx & Hoff & Hm & Hq)].
  - unfold findBase. by rewrite He.
  - by rewrite (findBase_bias m e p bias).
Qed.

Lemma u64_sub_base pc bias : u64 (pc - u64 bias) = u64 (pc - bias).
Proof. unfold u64. by rewrite Zminus_mod_idemp_r. Qed.

Lemma first_of_file rows r first :
  first_of rows r = Some first -> exists r', r' ∈ code_rows rows /\ first = mrow_map r' /\ file first = file (mrow_map r).
Proof.
  intros [Hin Hf]%find_some. apply in_map_iff in Hin as (r' & <- & Hin). exists r'. split; [by apply list_elem_of_In|]. split; [done|].
  unfold of_file in Hf. apply andb_true_iff in Hf as [Hf _]. by apply bool_decide_eq_true_1 in Hf.
Qed.

Lemma first_of_exists rows r : r ∈ code_rows rows -> HasPrefix (m_name r) (str "/") = true -> is_Some (first_of rows r).
Proof.
  intros Hin Hp. destruct (first_of rows r) eqn:E; [done|]. exfalso.
  pose proof (find_none _ _ E (mrow_map r)) as Hno. apply list_elem_of_In, (in_map mrow_map) in Hin. apply Hno in Hin.
  unfold of_file, has_path in Hin. cbn [mrow_map Pathname] in Hin. by rewrite bool_decide_eq_true_2, Hp in Hin.
Qed.

(** An address in the code of a mapped file is named as the file names it: the maps of the process are
    read, the mapping found by bisection, and the load bias of the file, the same for all
    its mappings, is taken off the address before it is looked up. *)
Lemma address_in_module rows r pc e bias :
  Forall mrow_ok rows -> StronglySorted mrow_before (code_rows rows) -> Forall (fun r => m_start r < m_end r) (code_rows rows) ->
  r ∈ code_rows rows -> HasPrefix (m_name r) (str "/") = true -> m_start r <= pc < m_end r -> end_of_stack pc = false ->
  open_elf (m_name r) = Some e ->
  (forall r', r' ∈ code_rows rows -> file (mrow_map r') = file (mrow_map r) -> loaded_at e bias (mrow_map r')) ->
  exists p, Refresh sort NewProcTable (process rows) = Val p /\ err p = false /\
    ProcTable_Resolve open_elf p pc =
    (let! s := names e (u64 (pc - bias)) in Val (MkSymbol (u64 (pc - bias)) s (m_name r) 0 0)).
Proof.
  intros Hok Hs Hne Hin Hpath Hpc Hend Ho Hl. destruct (first_of_exists rows r Hin Hpath) as [first Hf].
  destruct (resolve_first rows r pc first Hok Hs Hne Hin Hpath Hpc Hend Hf) as (p & Hp & He & Hres).
  destruct (first_of_file rows r first Hf) as (r' & Hin' & -> & Hfile).
  assert (load open_elf (mrow_map r') = (u64 bias, names e)) as Eload.
  { apply load_loaded; [|by apply Hl]. injection Hfile as _ _ En. cbn [Pathname mrow_map]. rewrite En. exact Ho. }
  rewrite Eload in Hres. cbn [fst snd] in Hres. rewrite u64_sub_base in Hres. by exists p.
Qed.

(** A file that is mapped twice, as a second link map loads it, has one table with the base of
    the first copy: addresses of the second copy are looked up at the wrong place of the
    file. *)
Theorem second_copy_misresolved rows r1 r2 pc e b1 b2 :
  Forall mrow_ok rows -> StronglySorted mrow_before (code_rows rows) -> Forall (fun r => m_start r < m_end r) (code_rows rows) ->
  r2 ∈ code_rows rows -> HasPrefix (m_name r2) (str "/") = true -> m_start r2 <= pc < m_end r2 -> end_of_stack pc = false ->
  open_elf (m_name r2) = Some e -> first_of rows r2 = Some (mrow_map r1) ->
  loaded_at e b1 (mrow_map r1) -> loaded_at e b2 (mrow_map r2) -> b1 <> b2 -> 0 <= b1 < 2 ^ 64 -> 0 <= b2 < 2 ^ 64 ->
  u64 (pc - b1) <> u64 (pc - b2) /\
  exists p, Refresh sort NewProcTable (process rows) = Val p /\ err p = false /\
    ProcTable_Resolve open_elf p pc =
    (let! s := names e (u64 (pc - b1)) in Val (MkSymbol (u64 (pc - b1)) s (m_name r2) 0 0)).
Proof.
  intros Hok Hs Hne Hin Hpath Hpc Hend Ho Hf H1 _ Hb Hr1 Hr2. split.
  - unfold u64. intros E. rewrite !Z.mod_eq in E by lia. lia.
  - destruct (resolve_first rows r2 pc _ Hok Hs Hne Hin Hpath Hpc Hend Hf) as (p & Hp & He & Hres).
    destruct (first_of_file rows r2 _ Hf) as (_ & _ & _ & Hfile).
    assert (load open_elf (mrow_map r1) = (u64 b1, names e)) as Eload.
    { apply load_loaded; [|done]. injection Hfile as _ _ En. cbn [Pathname mrow_map]. rewrite En. exact Ho. }
    rewrite Eload in Hres. cbn [fst snd] in Hres. rewrite u64_sub_base in Hres. by exists p.
Qed.

End addresses.

(** *** A process *)

Definition demo_lib (base : Z) : mrow :=
  Mrow (12%nat, 8%nat, 2%nat) (base + 0x1000) (base + 0x3000) true false true false 0x1000 8 1 533429 20 (str "/usr/lib/libssl.so.3").
Definition demo_data (base : Z) : mrow :=
  Mrow (12%nat, 8%nat, 2%nat) (base + 0x3000) (base + 0x4000) true true false false 0x3000 8 1 533429 20 (str "/usr/lib/libssl.so.3").

Definition demo_image : image :=
  MkImage false [MkProg true false 0 0; MkProg true true 0x1040 0x1040; MkProg true false 0x3000 0x3000]
    (fun a => Val (if a <? 0x2000 then str "SSL_read" else str "SSL_write")).

Definition demo_open (path : bytes) : option image := if bytes_eqb path (str "/usr/lib/libssl.so.3") then Some demo_image else None.

Lemma demo_lib_ok base : 0 <= base < 2 ^ 40 -> mrow_ok (demo_lib base) /\ mrow_ok (demo_data base).
Proof.
  intros Hb. split; (unfold mrow_ok, fits, demo_lib, demo_data;
    cbn [m_widths m_start m_end m_off m_major m_minor m_inode m_name fst snd];
    change (16 ^ Z.of_nat 12) with (2 ^ 48); change (16 ^ Z.of_nat 8) with (2 ^ 32); change (16 ^ Z.of_nat 2) with 256;
    split_and!; try lia; [by repeat constructor|done]).
Qed.

Lemma demo_loaded base : loaded_at demo_image base (mrow_map (demo_lib base)).
Proof.
  right. split; [done|]. exists (MkProg true true 0x1040 0x1040). split_and!; [by right; left|done|done|cbn; lia|cbn; lia| |].
  - unfold maps_segment. cbn [mrow_map demo_lib StartAddr Offset Off Vaddr m_start m_off].
    change (0x1040 mod 4096) with 0x40. lia.
  - intros q Hq Hne. unfold demo_image in Hq. cbn [Progs] in Hq. rewrite !elem_of_cons in Hq.
    destruct Hq as [->|[->|[->|Hq%not_elem_of_nil]]]; done.
Qed.

Lemma demo_process base : 0 <= base < 2 ^ 40 ->
  Forall mrow_ok [demo_lib base; demo_data base].
Proof. intros Hb. destruct (demo_lib_ok base Hb). apply Forall_cons_2; [done|]. by apply Forall_singleton. Qed.

Lemma second_copy_misresolved_witness :
  exists p, Refresh sort_symbols NewProcTable (process [demo_lib 0x7f0000; demo_lib 0x7f8000]) = Val p /\ err p = false /\
    ProcTable_Resolve demo_open p 0x7f9010 = Val (MkSymbol 0x9010 (str "SSL_write") (str "/usr/lib/libssl.so.3") 0 0).
Proof.
  destruct (second_copy_misresolved sort_symbols demo_open [demo_lib 0x7f0000; demo_lib 0x7f8000] (demo_lib 0x7f0000) (demo_lib 0x7f8000)
    0x7f9010 demo_image 0x7f0000 0x7f8000) as (_ & p & E1 & E2 & E3).
  - apply Forall_cons_2; [by apply demo_lib_ok|]. apply Forall_singleton. by apply demo_lib_ok.
  - cbn [code_rows List.filter m_exec demo_lib]. constructor; [by repeat constructor|]. apply Forall_singleton. unfold mrow_before. cbn. lia.
  - cbn [code_rows List.filter m_exec demo_lib]. apply Forall_cons_2; [cbn; lia|]. apply Forall_singleton. cbn. lia.
  - by right; left.
  - done.
  - cbn. lia.
  - done.
  - done.
  - done.
  - apply demo_loaded.
  - apply demo_loaded.
  - done.
  - lia.
  - lia.
  - exists p. split; [exact E1|]. split; [exact E2|]. rewrite E3. by vm_compute.
Defined.

End ProcMaps.
