(* ===== verification/GCache.v ===== *)
(** * The cache of symbol tables

    internal/pyroscope-ebpf/symtab/gcache.go: tables are kept in a bounded cache and, beside it,
    as long as they were used in one of the last rounds.  The bounded cache is a library,
    given by an interface.  Entries are shared between the two: they live in a heap. *)

From S2P Require Import Prelude GoLib.

Module GCache.

(** ** The bounded cache *)

(** github.com/hashicorp/golang-lru: what it holds; adding an entry may evict others, reading one
    changes only the order. *)
Class LRU (K : Type) `{Countable K} := {
  lru : Type;
  lru_new : nat -> lru;
  contents : lru -> gmap K nat;
  lru_add : K -> nat -> lru -> lru;
  lru_get : K -> lru -> lru;
  lru_remove : K -> lru -> lru;
  lru_resize : nat -> lru -> lru
}.

Class LRULaws (K : Type) `{LRU K} : Prop := {
  new_empty n : contents (lru_new n) = ∅;
  add_evicts k l c : contents (lru_add k l c) ⊆ <[k := l]> (contents c);
  get_contents k c : contents (lru_get k c) = contents c;
  remove_contents k c : contents (lru_remove k c) = delete k (contents c);
  resize_evicts n c : contents (lru_resize n c) ⊆ contents c
}.

(** ** The cache *)

Section gcache.
Context {K : Type} `{EqDecision K, !Countable K, !LRU K} (zeroKey : K) {V : Type}.

(** [v.Cleanup()] *)
Context (cleanup : V -> V).

Record entry := MkEntry { v : V; e_round : Z }.

Record GCacheOptions := MkGCacheOptions { Size : nat; KeepRounds : Z }.

Record GCache := MkGCache {
  options : GCacheOptions; roundCache : gmap K nat; lruCache : lru; round : Z; heap : gmap nat entry; next : nat
}.

Definition NewGCache (o : GCacheOptions) : GCache := MkGCache o ∅ (lru_new (Size o)) 0 ∅ 0.

Definition set_heap (g : GCache) (h : gmap nat entry) : GCache :=
  MkGCache (options g) (roundCache g) (lruCache g) (round g) h (next g).
Definition set_lru (g : GCache) (c : lru) : GCache :=
  MkGCache (options g) (roundCache g) c (round g) (heap g) (next g).

Definition NextRound (g : GCache) : GCache :=
  MkGCache (options g) (roundCache g) (lruCache g) (round g + 1) (heap g) (next g).

(** The entry at a place: it is refreshed when it is used for the first time in a round. *)
Definition use (refresh : V -> go V) (l : nat) (g : GCache) : go (GCache * option V) :=
  match heap g !! l with
  | None => Val (g, None)
  | Some e =>
      if e_round e =? round g then Val (g, Some (v e))
      else let! v := refresh (v e) in Val (set_heap g (<[l := MkEntry v (round g)]> (heap g)), Some v)
  end.

Definition Get (refresh : V -> go V) (k : K) (g : GCache) : go (GCache * option V) :=
  if decide (k = zeroKey) then Val (g, None)
  else
  let g := set_lru g (lru_get k (lruCache g)) in
  match contents (lruCache g) !! k with
  | Some l => use refresh l g
  | None => match roundCache g !! k with Some l => use refresh l g | None => Val (g, None) end
  end.

(** The callback of the bounded cache for what it drops. *)
Definition cleanup_at (ls : list nat) (h : gmap nat entry) : gmap nat entry :=
  fold_left (fun h l => alter (fun e => MkEntry (cleanup (v e)) (e_round e)) l h) ls h.

Definition dropped (before after : gmap K nat) : list nat := (map_to_list (before ∖ after)).*2.

Definition Cache (refresh : V -> go V) (k : K) (x : V) (g : GCache) : go GCache :=
  if decide (k = zeroKey) then Val g
  else
  let! x := refresh x in
  let l := next g in
  let h := <[l := MkEntry x (round g)]> (heap g) in
  let c := lru_add k l (lruCache g) in
  let h := cleanup_at (dropped (contents (lruCache g)) (<[k := l]> (contents c))) h in
  Val (MkGCache (options g) (<[k := l]> (roundCache g)) c (round g) h (S l)).

Definition Update (o : GCacheOptions) (g : GCache) : GCache :=
  let c := lru_resize (Size o) (lruCache g) in
  MkGCache o (roundCache g) c (round g) (cleanup_at (dropped (contents (lruCache g)) (contents c)) (heap g)) (next g).

(** Is the entry at a place of one of the rounds to keep? *)
Definition recent (g : GCache) (l : nat) : bool :=
  match heap g !! l with Some e => e_round e >=? round g - KeepRounds (options g) | None => false end.

Definition Cleanup (g : GCache) : GCache :=
  let h := cleanup_at (map_to_list (contents (lruCache g))).*2 (heap g) in
  let h := cleanup_at (map_to_list (roundCache g)).*2 h in
  MkGCache (options g) (filter (fun kl => recent g kl.2 = true) (roundCache g)) (lruCache g) (round g) h (next g).

Definition Remove (k : K) (g : GCache) : GCache :=
  let c := lru_remove k (lruCache g) in
  MkGCache (options g) (delete k (roundCache g)) c (round g)
    (cleanup_at (dropped (contents (lruCache g)) (contents c)) (heap g)) (next g).

(** ** Entries stay while they are used *)

(** Keys have places of their own, the same in both parts. *)
Record gcache_ok (g : GCache) : Prop := MkOk {
  ok_next l : l ∈ dom (heap g) -> (l < next g)%nat;
  ok_round k l : roundCache g !! k = Some l -> l ∈ dom (heap g);
  ok_lru k l : contents (lruCache g) !! k = Some l -> l ∈ dom (heap g);
  ok_same k l l' : roundCache g !! k = Some l -> contents (lruCache g) !! k = Some l' -> l = l';
  ok_apart k k' l : roundCache g !! k = Some l -> (roundCache g !! k' = Some l \/ contents (lruCache g) !! k' = Some l) -> k = k'
}.

(** What the session does with the cache in a round. *)
Inductive access := AGet (refresh : V -> go V) (k : K) | ACache (refresh : V -> go V) (k : K) (x : V).

Definition run_access (a : access) (g : GCache) : go GCache :=
  match a with
  | AGet refresh k => let! r := Get refresh k g in Val r.1
  | ACache refresh k x => Cache refresh k x g
  end.

Fixpoint run_accesses (as_ : list access) (g : GCache) : go GCache :=
  match as_ with
  | [] => Val g
  | a :: as_ => let! g := run_access a g in run_accesses as_ g
  end.

(** A round: the accesses between the begin of the round and its cleanup. *)
Definition run_round (as_ : list access) (g : GCache) : go GCache :=
  let! g := run_accesses as_ (NextRound g) in Val (Cleanup g).

Fixpoint run_rounds (rounds : list (list access)) (g : GCache) : go GCache :=
  match rounds with
  | [] => Val g
  | as_ :: rounds => let! g := run_round as_ g in run_rounds rounds g
  end.

Definition total (refresh : V -> go V) : Prop := forall x, exists y, refresh x = Val y.

Definition harmless (k : K) (a : access) : Prop :=
  match a with AGet refresh _ => total refresh | ACache refresh k' _ => total refresh /\ k' <> k end.

Definition uses (k : K) (a : access) : bool := match a with AGet _ k' => bool_decide (k' = k) | ACache _ _ _ => false end.

(** Never unused for more rounds than are kept; [idle] counts them. *)
Fixpoint active (keep : Z) (k : K) (idle : Z) (rounds : list (list access)) : Prop :=
  match rounds with
  | [] => True
  | as_ :: rounds =>
      let idle := if existsb (uses k) as_ then 0 else idle + 1 in
      idle <= keep /\ active keep k idle rounds
  end.

Lemma cleanup_at_round ls h l : e_round <$> (cleanup_at ls h !! l) = e_round <$> (h !! l).
Proof.
  revert h. induction ls as [|x ls IH]; intros h; cbn [cleanup_at fold_left]; [done|]. fold (cleanup_at ls).
  unfold cleanup_at in IH. rewrite IH. destruct (decide (x = l)) as [->|]; [rewrite lookup_alter_eq|by rewrite lookup_alter_ne].
  by destruct (h !! l).
Qed.

Lemma cleanup_at_dom ls h : dom (cleanup_at ls h) = dom h.
Proof.
  apply set_eq. intros l. rewrite !elem_of_dom. pose proof (cleanup_at_round ls h l) as E.
  destruct (cleanup_at ls h !! l), (h !! l); try done; split; by eauto.
Qed.

Lemma ok_heap g h : gcache_ok g -> dom h = dom (heap g) -> gcache_ok (set_heap g h).
Proof. intros [H1 H2 H3 H4 H5] Hd. split; cbn; rewrite ?Hd; eauto. Qed.

Context `{!LRULaws K}.

Lemma ok_touch g k : gcache_ok g -> gcache_ok (set_lru g (lru_get k (lruCache g))).
Proof. intros [H1 H2 H3 H4 H5]. split; cbn; rewrite ?get_contents; eauto. Qed.

Lemma use_spec refresh l g :
  total refresh -> gcache_ok g -> l ∈ dom (heap g) ->
  exists x h, use refresh l g = Val (set_heap g h, Some x) /\ dom h = dom (heap g) /\
    (e_round <$> (h !! l)) = Some (round g) /\ forall l', l' <> l -> h !! l' = heap g !! l'.
Proof.
  intros Ht Hok [e He]%elem_of_dom. unfold use. rewrite He. destruct (Z.eqb_spec (e_round e) (round g)) as [Er|].
  - exists (v e), (heap g). split; [by destruct g|]. split; [done|]. rewrite He. cbn. by rewrite Er.
  - destruct (Ht (v e)) as [y ->]. exists y, (<[l := MkEntry y (round g)]> (heap g)). split; [done|].
    split; [apply dom_insert_lookup_L; by rewrite He|]. rewrite lookup_insert_eq. split; [done|]. intros l' Hl. by rewrite lookup_insert_ne.
Qed.

(** Where [Get] finds a key. *)
Definition place (g : GCache) (k : K) : option nat :=
  if decide (k = zeroKey) then None
  else match contents (lruCache g) !! k with Some l => Some l | None => roundCache g !! k end.

Lemma Get_spec refresh k g :
  total refresh -> gcache_ok g ->
  match place g k with
  | None => exists c, Get refresh k g = Val (set_lru g c, None) /\ contents c = contents (lruCache g)
  | Some l => exists x c h, Get refresh k g = Val (set_heap (set_lru g c) h, Some x) /\ contents c = contents (lruCache g) /\
      dom h = dom (heap g) /\ (e_round <$> (h !! l)) = Some (round g) /\ forall l', l' <> l -> h !! l' = heap g !! l'
  end.
Proof.
  intros Ht Hok. unfold place, Get. destruct (decide (k = zeroKey)); [exists (lruCache g); by destruct g|].
  cbn [lruCache set_lru roundCache]. pose proof (ok_touch g k Hok) as Hok'.
  destruct (contents (lru_get k (lruCache g)) !! k) as [l|] eqn:El; rewrite get_contents in El; rewrite El.
  - destruct (use_spec refresh l _ Ht Hok') as (x & h & -> & Hd & Hr & Ho); [by apply (ok_lru g Hok k)|].
    exists x, (lru_get k (lruCache g)), h. split; [done|]. by rewrite get_contents.
  - destruct (roundCache g !! k) as [l|] eqn:Er.
    + destruct (use_spec refresh l _ Ht Hok') as (x & h & -> & Hd & Hr & Ho); [by apply (ok_round g Hok k)|].
      exists x, (lru_get k (lruCache g)), h. split; [done|]. by rewrite get_contents.
    + exists (lru_get k (lruCache g)). by rewrite get_contents.
Qed.

(** The entry of a key: it is among those of the last rounds and was used this round or [idle]
    rounds ago. *)
Definition entry_at (g : GCache) (k : K) (l : nat) (used : Z) : Prop :=
  roundCache g !! k = Some l /\ (e_round <$> (heap g !! l)) = Some used.

Lemma ok_Get g c h : gcache_ok g -> contents c = contents (lruCache g) -> dom h = dom (heap g) -> gcache_ok (set_heap (set_lru g c) h).
Proof. intros [H1 H2 H3 H4 H5] Hc Hd. split; cbn; rewrite ?Hc, ?Hd; eauto. Qed.

Lemma ok_Cache g k x ls c :
  gcache_ok g -> contents c ⊆ <[k := next g]> (contents (lruCache g)) ->
  gcache_ok (MkGCache (options g) (<[k := next g]> (roundCache g)) c (round g) (cleanup_at ls (<[next g := x]> (heap g))) (S (next g))).
Proof.
  intros [H1 H2 H3 H4 H5] Hc.
  assert (forall k' l, contents c !! k' = Some l -> (k' = k /\ l = next g) \/ (k' <> k /\ contents (lruCache g) !! k' = Some l)) as Hin.
  { intros k' l Hl. apply (lookup_weaken _ _ _ _ Hl) in Hc. rewrite lookup_insert_Some in Hc. naive_solver. }
  assert (forall l, l ∈ dom (heap g) -> l <> next g) as Hnew by (intros l Hl%H1; lia).
  split; cbn; rewrite ?cleanup_at_dom, ?dom_insert_L.
  - intros l. rewrite elem_of_union, elem_of_singleton. intros [->|Hl%H1]; lia.
  - intros k' l. rewrite lookup_insert_Some. intros [[_ <-]|[_ Hl%H2]]; set_solver.
  - intros k' l [[_ ->]|[_ Hl%H3]]%Hin; set_solver.
  - intros k' l l'. rewrite lookup_insert_Some. intros [[Ek El]|[Hne Hl]] [[Ek' El']|[Hne' Hl']]%Hin; try congruence. by eapply H4.
  - intros k1 k2 l. rewrite !lookup_insert_Some. intros [[Ek El]|[Hne Hl]] [[[Ek' El']|[Hne' Hl']]|[[Ek' El']|[Hne' Hl']]%Hin]; try congruence.
    + apply H2, Hnew in Hl'. congruence.
    + apply H3, Hnew in Hl'. congruence.
    + apply H2, Hnew in Hl. congruence.
    + eapply H5; [exact Hl|]. by left.
    + apply H2, Hnew in Hl. congruence.
    + eapply H5; [exact Hl|]. by right.
Qed.

Lemma NewGCache_ok o : gcache_ok (NewGCache o).
Proof. split; cbn; rewrite ?new_empty; intros *; rewrite ?dom_empty_L, ?lookup_empty; done. Qed.

Lemma access_kept a g k l used :
  harmless k a -> k <> zeroKey -> gcache_ok g -> entry_at g k l used ->
  exists g', run_access a g = Val g' /\ gcache_ok g' /\ round g' = round g /\ options g' = options g /\
    entry_at g' k l (if uses k a then round g else used).
Proof.
  intros Ha Hk Hok [Hrc Hused]. destruct a as [refresh k'|refresh k' x]; cbn [run_access uses harmless] in *.
  - pose proof (Get_spec refresh k' g Ha Hok) as Hget. destruct (place g k') as [l'|] eqn:Ep.
    + destruct Hget as (x & c & h & -> & Hc & Hd & Hr & Ho). exists (set_heap (set_lru g c) h). split; [done|].
      split; [by apply ok_Get|]. do 2 (split; [done|]). split; [done|]. cbn [heap set_heap].
      unfold place in Ep. destruct (decide (k' = zeroKey)); [done|].
      case_bool_decide as E; [subst k'|].
      * replace l with l'; [done|]. destruct (contents (lruCache g) !! k) eqn:El; [|congruence].
        injection Ep as ->. symmetry. by eapply (ok_same g Hok).
      * rewrite Ho; [done|]. intros <-. apply E. symmetry. apply (ok_apart g Hok k k' l Hrc).
        destruct (contents (lruCache g) !! k'); [by right|by left].
    + destruct Hget as (c & -> & Hc). exists (set_lru g c). split; [done|]. split.
      { destruct Hok as [H1 H2 H3 H4 H5]. split; cbn; rewrite ?Hc; eauto. }
      do 2 (split; [done|]). split; [done|]. cbn [heap set_lru].
      case_bool_decide as E; [subst k'|done]. unfold place in Ep. destruct (decide (k = zeroKey)); [done|].
      destruct (contents _ !! k); [done|]. congruence.
  - destruct Ha as [Ht Hne]. unfold Cache. destruct (decide (k' = zeroKey)); [by exists g|].
    destruct (Ht x) as [y ->]. eexists. split; [done|]. split; [apply ok_Cache; [done|apply add_evicts]|].
    do 2 (split; [done|]). split; cbn [roundCache heap]; [by rewrite lookup_insert_ne|].
    rewrite cleanup_at_round, lookup_insert_ne; [done|]. intros <-.
    pose proof (ok_next g Hok (next g) (ok_round g Hok k _ Hrc)). lia.
Qed.

Lemma accesses_kept as_ g k l used :
  Forall (harmless k) as_ -> k <> zeroKey -> gcache_ok g -> entry_at g k l used ->
  exists g', run_accesses as_ g = Val g' /\ gcache_ok g' /\ round g' = round g /\ options g' = options g /\
    entry_at g' k l (if existsb (uses k) as_ then round g else used).
Proof.
  intros Has Hk. revert g used. induction Has as [|a as_ Ha _ IH]; intros g used Hok He; cbn [run_accesses existsb]; [by exists g|].
  destruct (access_kept a g k l used Ha Hk Hok He) as (g1 & -> & Hok1 & Hr1 & Ho1 & He1).
  destruct (IH g1 _ Hok1 He1) as (g2 & -> & Hok2 & Hr2 & Ho2 & He2). exists g2. split; [done|]. split; [done|].
  rewrite Hr1 in *. do 2 (split; [congruence|]). by destruct (uses k a), (existsb (uses k) as_).
Qed.

Lemma Cleanup_kept g k l used :
  gcache_ok g -> entry_at g k l used -> round g - KeepRounds (options g) <= used ->
  gcache_ok (Cleanup g) /\ entry_at (Cleanup g) k l used.
Proof.
  intros Hok [Hrc Hu] Hkeep. split.
  - destruct Hok as [H1 H2 H3 H4 H5]. split; cbn; rewrite ?cleanup_at_dom; eauto; setoid_rewrite map_lookup_filter_Some; naive_solver.
  - split; cbn [Cleanup roundCache heap]; [|by rewrite !cleanup_at_round]. apply map_lookup_filter_Some. split; [done|].
    cbn [snd]. unfold recent. destruct (heap g !! l) as [e|]; [|done]. injection Hu as <-. by destruct (Z.geb_spec (e_round e) (round g - KeepRounds (options g))); [|lia].
Qed.

(** A table that is used at least once in every number of rounds that are kept is never lost: whatever
    else is cached, and whatever the bounded cache evicts, the cache still has it, at the
    same place. *)
Theorem active_entry_kept rounds g k l idle :
  gcache_ok g -> k <> zeroKey -> entry_at g k l (round g - idle) ->
  Forall (Forall (harmless k)) rounds -> active (KeepRounds (options g)) k idle rounds ->
  exists g', run_rounds rounds g = Val g' /\ roundCache g' !! k = Some l /\
    forall refresh, total refresh -> exists g'' x, Get refresh k g' = Val (g'', Some x).
Proof.
  intros Hok Hk He Hr. revert g idle Hok He.
  induction Hr as [|as_ rounds Has _ IH]; intros g idle Hok He Hact; cbn [run_rounds active] in *.
  - exists g. split; [done|]. split; [by apply He|]. intros refresh Ht. pose proof (Get_spec refresh k g Ht Hok) as Hget.
    destruct (place g k) as [l'|] eqn:Ep; [destruct Hget as (x & c & h & -> & _); by eauto|]. exfalso.
    unfold place in Ep. destruct (decide (k = zeroKey)); [done|]. destruct He as [He _]. by destruct (contents _ !! k); [|congruence].
  - destruct Hact as [Hidle Hact]. unfold run_round.
    assert (gcache_ok (NextRound g) /\ entry_at (NextRound g) k l (round g - idle)) as [Hok1 He1]
      by (split; [by destruct Hok as [H1 H2 H3 H4 H5]|done]).
    destruct (accesses_kept as_ (NextRound g) k l _ Has Hk Hok1 He1) as (g1 & -> & Hok2 & Hr2 & Ho2 & He2).
    set (idle' := if existsb (uses k) as_ then 0 else idle + 1) in *.
    assert (entry_at g1 k l (round g1 - idle')) as He3.
    { rewrite Hr2. unfold idle'. cbn [round NextRound] in *. destruct (existsb (uses k) as_).
      - by replace (round g + 1 - 0) with (round g + 1) by lia.
      - by replace (round g + 1 - (idle + 1)) with (round g - idle) by lia. }
    assert (options g1 = options g) as Ho by by rewrite Ho2.
    destruct (Cleanup_kept g1 k l (round g1 - idle') Hok2 He3) as [Hok4 He4]; [rewrite Ho; lia|].
    apply (IH (Cleanup g1) idle' Hok4); [exact He4|]. cbn [options Cleanup]. by rewrite Ho.
Qed.

End gcache.
(** *** A bounded cache of one entry *)

#[export] Instance one_LRU : LRU Z := {|
  lru := gmap Z nat;
  lru_new _ := ∅;
  contents c := c;
  lru_add k l _ := {[ k := l ]};
  lru_get _ c := c;
  lru_remove k c := delete k c;
  lru_resize _ c := c
|}.

#[export] Instance one_LRU_laws : LRULaws Z.
Proof.
  split; cbn; try done. intros k l c. apply map_singleton_subseteq_l. apply lookup_insert_eq.
Qed.

Definition demo_cache : GCache (V := Z) := NewGCache (MkGCacheOptions 1 1).

Definition demo_cached : GCache (V := Z) :=
  MkGCache (MkGCacheOptions 1 1) {[ 7 := 0%nat ]} ({[ 7 := 0%nat ]} : lru) 0 {[ 0%nat := MkEntry 100 0 ]} 1.

Lemma demo_cached_ok : gcache_ok demo_cached.
Proof.
  pose proof (ok_Cache (fun x => x) demo_cache 7 (MkEntry 100 0) [] {[ 7 := 0%nat ]} (NewGCache_ok _)) as H.
  exact (H (add_evicts 7 0%nat (∅ : lru))).
Qed.

Lemma active_entry_kept_witness :
  exists g', run_rounds 0 (fun x => x) [[ACache Val 9 200]; [AGet Val 7]; []] demo_cached = Val g' /\ roundCache g' !! 7 = Some 0%nat /\
    exists g'' x, Get 0 Val 7 g' = Val (g'', Some x).
Proof.
  destruct (active_entry_kept 0 (fun x => x) [[ACache Val 9 200]; [AGet Val 7]; []] demo_cached 7 0 0) as (g' & E & Hr & Hget).
  - apply demo_cached_ok.
  - done.
  - by split.
  - assert (total (V := Z) Val) by (intros x; by exists x). repeat constructor; done.
  - vm_compute. by split_and!.
  - exists g'. split; [exact E|]. split; [exact Hr|]. apply Hget. intros x. by exists x.
Defined.

End GCache.
