(* ===== verification/Session.v ===== *)
(** * The profiling session

    internal/pyroscope-ebpf/session.go and profiling/profiling.go: the processes that are
    profiled, the samples that the programs of the kernel counted, and the stacks they are
    reported with.  The session reads /proc at the time of each event: a [world].  Python
    stacks are not modelled: keys carry no flags.  The operations on the maps of the kernel
    succeed, as they do for keys that were just read, and the labels of the targets, which
    [TargetFinder] makes with a service name only, change no option. *)

From stdpp Require Import sorting.
From S2P Require Import Prelude GoLib GoText GoLines Symbols SymbolFiles ProcMaps GCache.

Module Session.
Import GoText GoLines Symbols SymbolFiles ProcMaps GCache.

(** ** Targets *)

Record processInfo := MkProcessInfo { startedAt : Z; target : bytes; EbpfProfilingDisabled : bool }.

Definition CollectInterval : Z := 60 * 1000000000.

(** A process is profiled once it is older than the interval; the dump of a JVM's perf map that
    [FindTarget] asks for shows in the files of the process. *)
Definition FindTarget (processes : gmap Z processInfo) (now pid : Z) : option bytes :=
  match processes !! pid with
  | None => None
  | Some pi =>
      if now - startedAt pi <? CollectInterval then None
      else if EbpfProfilingDisabled pi then None else Some (target pi)
  end.

(** ** The world *)

Record world := MkWorld {
  w_files : Z -> proc_files; w_open : Z -> bytes -> option image;
  w_exe : Z -> option bytes; w_comm : Z -> option bytes; w_alive : Z -> bool
}.

(** ** State *)

Record SessionOptions := MkSessionOptions {
  CollectUser : bool; CollectKernel : bool; UnknownSymbolModuleOffset : bool; UnknownSymbolAddress : bool; PythonEnabled : bool
}.

Inductive ProfilingType := ProfilingTypeFramepointers | ProfilingTypePython | ProfilingTypeError.

Record procInfoLite := MkProcInfoLite { comm : bytes; typ : ProfilingType }.

(** An entry of the map that the kernel's program reads: type, and what is to be collected. *)
Definition pid_config : Type := ProfilingType * bool * bool.

(** The key of a counter: the process and the places of its stacks, negative for none. *)
Definition sample_key : Type := Z * Z * Z.
Definition k_pid (k : sample_key) : Z := k.1.1.
Definition k_user (k : sample_key) : Z := k.1.2.
Definition k_kern (k : sample_key) : Z := k.2.

Section session.
Context (opts : SessionOptions) (sort : list Symbol -> list Symbol) (kallsyms : SymbolTab) `{!LRU Z}.

Record session := MkSession {
  unknown : gset Z; dead : gset Z; all : gmap Z procInfoLite; bpf_pids : gmap Z pid_config;
  symCache : GCache (K := Z) (V := ProcTable); counts : gmap sample_key Z; stacks : gmap Z (list Z);
  processes : gmap Z processInfo; now : Z; roundNumber : Z; started : bool
}.

Definition set_pids (s : session) (u d : gset Z) (a : gmap Z procInfoLite) (b : gmap Z pid_config) : session :=
  MkSession u d a b (symCache s) (counts s) (stacks s) (processes s) (now s) (roundNumber s) (started s).
Definition set_cache (s : session) (c : GCache) : session :=
  MkSession (unknown s) (dead s) (all s) (bpf_pids s) c (counts s) (stacks s) (processes s) (now s) (roundNumber s) (started s).

(** ** The start of profiling *)

(** [filepath.Base] *)
Definition Base (path : bytes) : bytes :=
  match path with
  | [] => str "."
  | _ => match rev (TrimLeft (rev path) slash) with
         | [] => [slash]
         | p => List.last (Split p slash) []
         end
  end.

Definition selectProfilingType (w : world) (pid : Z) : go procInfoLite :=
  match w_exe w pid, w_comm w pid with
  | Some exePath, Some comm =>
      match rev comm with
      | [] => Panic
      | c :: rest =>
          let comm := if c =? 10 then rev rest else comm in
          let exe := Base exePath in
          Val (MkProcInfoLite comm
            (if PythonEnabled opts && HasPrefix exe (str "python") || bytes_eqb exe (str "uwsgi")
             then ProfilingTypePython else ProfilingTypeFramepointers))
      end
  | _, _ => Val (MkProcInfoLite [] ProfilingTypeError)
  end.

Definition setPidConfig (s : session) (pid : Z) (pi : procInfoLite) (collectUser collectKernel : bool) : session :=
  set_pids s (unknown s) (dead s) (<[pid := pi]> (all s)) (<[pid := (typ pi, collectUser, collectKernel)]> (bpf_pids s)).

(** Python processes are started by a goroutine of their own. *)
Definition startProfilingLocked (w : world) (s : session) (pid : Z) : go session :=
  if negb (started s) then Val s
  else
  let! pi := selectProfilingType w pid in
  match typ pi with
  | ProfilingTypePython => Val s
  | _ => Val (setPidConfig s pid pi (CollectUser opts) (CollectKernel opts))
  end.

(** [processPidInfoRequests] and [processPIDExecRequests], one request. *)
Definition process_request (w : world) (s : session) (pid : Z) : go session :=
  if decide (pid ∈ dead s) then Val s
  else match FindTarget (processes s) (now s) pid with
       | None => Val (set_pids s ({[ pid ]} ∪ unknown s) (dead s) (all s) (bpf_pids s))
       | Some _ => startProfilingLocked w s pid
       end.

(** [processDeadPIDsEvents], one event. *)
Definition process_dead (s : session) (pid : Z) : session :=
  set_pids s (unknown s) ({[ pid ]} ∪ dead s) (all s) (bpf_pids s).

Fixpoint update_targets (w : world) (pids : list Z) (s : session) : go session :=
  match pids with
  | [] => Val s
  | pid :: pids =>
      match FindTarget (processes s) (now s) pid with
      | None => update_targets w pids s
      | Some _ =>
          let! s := startProfilingLocked w s pid in
          update_targets w pids (set_pids s (unknown s ∖ {[ pid ]}) (dead s) (all s) (bpf_pids s))
      end
  end.

Definition UpdateTargets (w : world) (time : Z) (s : session) : go session :=
  let s := MkSession (unknown s) (dead s) (all s) (bpf_pids s) (symCache s) (counts s) (stacks s) (processes s) time (roundNumber s) (started s) in
  update_targets w (elements (unknown s)) s.

(** ** Stacks *)

(** [fmt.Sprintf("%x", n)] *)
Fixpoint hex_digits (fuel : nat) (n : Z) (acc : bytes) : bytes :=
  match fuel with
  | O => acc
  | S fuel => let acc := hex_char (n mod 16) :: acc in if n / 16 =? 0 then acc else hex_digits fuel (n / 16) acc
  end.
Definition FormatHex (n : Z) : bytes := hex_digits 16 n [].

Definition frame_name (ip : Z) (sym : Symbol) : bytes :=
  if negb (bytes_eqb (Name sym) []) then Name sym
  else if negb (bytes_eqb (Module_ sym) []) then
    if UnknownSymbolModuleOffset opts then Module_ sym ++ str "+" ++ FormatHex (Start sym) else Module_ sym
  else if UnknownSymbolAddress opts then FormatHex ip else str "[unknown]".

(** The addresses of a stack end at the first zero; their names come in the opposite order. *)
Fixpoint walk (resolve : Z -> go Symbol) (stack : list Z) : go (list bytes) :=
  match stack with
  | [] => Val []
  | ip :: stack =>
      if ip =? 0 then Val []
      else let! sym := resolve ip in
           let! rest := walk resolve stack in Val (frame_name ip sym :: rest)
  end.

(** A value of the map of stacks has 127 words. *)
Definition WalkStack (sb : list bytes) (resolve : Z -> go Symbol) (stack : list Z) : go (list bytes) :=
  let! names := walk resolve (take 127 stack) in Val (sb ++ rev names).

Definition GetStack (s : session) (stackId : Z) : list Z :=
  if stackId <? 0 then [] else default [] (stacks s !! stackId).

Definition comm_of (s : session) (pid : Z) : bytes :=
  match all s !! pid with
  | Some pi => if bytes_eqb (comm pi) [] then str "pid_unknown" else comm pi
  | None => str "pid_unknown"
  end.

Record ProfileSample := MkProfileSample { s_target : bytes; s_pid : Z; s_stack : list bytes; s_value : Z }.

(** ** Collection *)

(** The table of a process: the cached one, or a new one. *)
Definition proc_table (w : world) (s : session) (pid : Z) : go (session * ProcTable) :=
  let refresh p := Refresh sort p (w_files w pid) in
  let! r := Get 0 refresh pid (symCache s) in
  match r with
  | (c, Some p) => Val (set_cache s c, p)
  | (c, None) =>
      let! c := Cache 0 (fun p => p) refresh pid NewProcTable c in
      Val (set_cache s c, match roundCache c !! pid with
                          | Some l => match heap c !! l with Some e => v e | None => NewProcTable end
                          | None => NewProcTable
                          end)
  end.

Definition collect_sample (w : world) (s : session) (k : sample_key) (value : Z) : go (session * list ProfileSample) :=
  let pid := k_pid k in
  match FindTarget (processes s) (now s) pid with
  | None => Val (s, [])
  | Some target =>
      if decide (pid ∈ dead s) then Val (s, [])
      else
      let sb := [comm_of s pid] in
      let! r := (if CollectUser opts then
                   let! sp := proc_table w s pid in
                   let '(s, p) := sp in
                   if err p then Val (process_dead s pid, None)
                   else let! sb := WalkStack sb (ProcTable_Resolve (w_open w pid) p) (GetStack s (k_user k)) in Val (s, Some sb)
                 else Val (s, Some sb)) in
      match r with
      | (s, None) => Val (s, [])
      | (s, Some sb) =>
          let! sb := (if CollectKernel opts then WalkStack sb (Resolve kallsyms) (GetStack s (k_kern k)) else Val sb) in
          if (length sb =? 1)%nat then Val (s, []) else Val (s, [MkProfileSample target pid (rev sb) value])
      end
  end.

Fixpoint collect_samples (w : world) (kvs : list (sample_key * Z)) (s : session) : go (session * list ProfileSample) :=
  match kvs with
  | [] => Val (s, [])
  | (k, value) :: kvs =>
      let! r := collect_sample w s k value in
      let! r' := collect_samples w kvs r.1 in Val (r'.1, r.2 ++ r'.2)
  end.

(** The stacks that the keys name; user stacks with the number zero are not counted. *)
Definition knownStacks (kvs : list (sample_key * Z)) : gset Z :=
  list_to_set (concat (map (fun kv => (if k_user kv.1 >? 0 then [k_user kv.1] else []) ++
                                      (if k_kern kv.1 >=? 0 then [k_kern kv.1] else [])) kvs)).

Definition clearStacksMap (s : session) (known : gset Z) : session :=
  MkSession (unknown s) (dead s) (all s) (bpf_pids s) (symCache s) (counts s)
    (if roundNumber s mod 10 =? 0 then ∅ else filter (fun kv => kv.1 ∉ known) (stacks s))
    (processes s) (now s) (roundNumber s) (started s).

(** The counters are read and deleted in a batch. *)
Definition collectRegularProfile (w : world) (s : session) : go (session * list ProfileSample) :=
  let kvs := map_to_list (counts s) in
  let s := MkSession (unknown s) (dead s) (all s) (bpf_pids s) (symCache s) ∅ (stacks s) (processes s) (now s) (roundNumber s) (started s) in
  let! r := collect_samples w kvs s in
  Val (clearStacksMap r.1 (knownStacks kvs), r.2).

(** What is dropped of a process that died. *)
Definition forget (s : session) (pid : Z) : session :=
  MkSession (unknown s ∖ {[ pid ]}) (dead s ∖ {[ pid ]}) (delete pid (all s)) (bpf_pids s) (Remove (fun p => p) pid (symCache s))
    (counts s) (stacks s) (delete pid (processes s)) (now s) (roundNumber s) (started s).

Definition forget_unknown (w : world) (s : session) (pid : Z) : session :=
  if w_alive w pid then s else set_pids s (unknown s ∖ {[ pid ]}) (dead s) (delete pid (all s)) (bpf_pids s).

Definition checkStalePids (w : world) (s : session) : session :=
  set_pids s (unknown s) (dead s) (all s) (filter (fun kv => w_alive w kv.1 = true) (bpf_pids s)).

Definition cleanup (w : world) (s : session) : session :=
  let s := set_cache s (Cleanup (fun p => p) (symCache s)) in
  let s := fold_left forget (elements (dead s)) s in
  let s := fold_left (forget_unknown w) (elements (unknown s)) s in
  if roundNumber s mod 10 =? 0 then checkStalePids w s else s.

Definition CollectProfiles (w : world) (s : session) : go (session * list ProfileSample) :=
  let s := MkSession (unknown s) (dead s) (all s) (bpf_pids s) (NextRound (symCache s)) (counts s) (stacks s) (processes s) (now s)
             (roundNumber s + 1) (started s) in
  let! r := collectRegularProfile w s in
  Val (cleanup w r.1, r.2).

(** ** Events *)

(** What happens to a session, in the order of its lock: a process is found, the programs of the kernel
    ask for one, report its end, and count a sample with its stack; the targets are updated;
    the profiles collected. *)
Inductive event :=
  | EProcess (pid : Z) (pi : processInfo)
  | ERequest (w : world) (pid : Z)
  | EDead (pid : Z)
  | ECount (k : sample_key) (n : Z)
  | EStack (id : Z) (stack : list Z)
  | EUpdate (w : world) (time : Z)
  | ECollect (w : world).

Definition set_kernel (s : session) (c : gmap sample_key Z) (st : gmap Z (list Z)) : session :=
  MkSession (unknown s) (dead s) (all s) (bpf_pids s) (symCache s) c st (processes s) (now s) (roundNumber s) (started s).

Definition step (s : session) (e : event) : go (session * list ProfileSample) :=
  match e with
  | EProcess pid pi =>
      Val (MkSession (unknown s) (dead s) (all s) (bpf_pids s) (symCache s) (counts s) (stacks s) (<[pid := pi]> (processes s))
             (now s) (roundNumber s) (started s), [])
  | ERequest w pid => let! s := process_request w s pid in Val (s, [])
  | EDead pid => Val (process_dead s pid, [])
  | ECount k n => Val (set_kernel s (<[k := n]> (counts s)) (stacks s), [])
  | EStack id stack => Val (set_kernel s (counts s) (<[id := stack]> (stacks s)), [])
  | EUpdate w time => let! s := UpdateTargets w time s in Val (s, [])
  | ECollect w => CollectProfiles w s
  end.

Fixpoint run (es : list event) (s : session) : go (session * list ProfileSample) :=
  match es with
  | [] => Val (s, [])
  | e :: es => let! r := step s e in let! r' := run es r.1 in Val (r'.1, r.2 ++ r'.2)
  end.

(** ** A process that is not known has no samples *)

Definition strange (pid : Z) (s : session) : Prop := processes s !! pid = None.

Lemma start_processes w s pid' s' : startProfilingLocked w s pid' = Val s' -> processes s' = processes s.
Proof.
  unfold startProfilingLocked. destruct (negb (started s)); [by intros [= <-]|].
  destruct (selectProfilingType w pid') as [|pi]; [done|]. destruct (typ pi); by intros [= <-].
Qed.

Lemma update_targets_processes w pids s s' : update_targets w pids s = Val s' -> processes s' = processes s.
Proof.
  revert s. induction pids as [|pid pids IH]; intros s; cbn [update_targets]; [by intros [= <-]|].
  destruct (FindTarget _ _ pid); [|apply IH]. destruct (startProfilingLocked w s pid) as [|s1] eqn:E; [done|].
  intros Hs. apply IH in Hs. cbn in Hs. rewrite Hs. by apply (start_processes w s pid).
Qed.

Lemma proc_table_processes w s pid s' p : proc_table w s pid = Val (s', p) -> exists c, s' = set_cache s c.
Proof.
  unfold proc_table. destruct (Get _ _ _ _) as [|[c [q|]]]; [done| |].
  - intros [= <- <-]. by exists c.
  - destruct (Cache _ _ _ _ _ _) as [|c']; [done|]. intros [= <- _]. by exists c'.
Qed.

(** Collecting a sample changes the cache and the dead. *)
Lemma collect_sample_frame w s k n s' out :
  collect_sample w s k n = Val (s', out) ->
  exists c, (s' = set_cache s c \/ s' = process_dead (set_cache s c) (k_pid k)) /\
    Forall (fun x => s_pid x = k_pid k /\ s_value x = n /\ (k_pid k ∉ dead s) /\ FindTarget (processes s) (now s) (k_pid k) = Some (s_target x)) out.
Proof.
  assert (forall s : session, s = set_cache s (symCache s)) as Hid by by intros [].
  unfold collect_sample. destruct (FindTarget _ _ _) as [t|] eqn:Et; [|intros [= <- <-]; exists (symCache s); split; [by left|constructor]].
  destruct (decide _) as [Hd|Hd]; [intros [= <- <-]; exists (symCache s); split; [by left|constructor]|].
  match goal with |- (let! r := ?e in _) = _ -> _ => destruct e as [|[s1 [sb|]]] eqn:Er; [done| |] end.
  - intros H. assert (exists c, s1 = set_cache s c) as [c ->].
    { destruct (CollectUser opts); [|injection Er as <- _; by exists (symCache s)].
      destruct (proc_table w s (k_pid k)) as [|[s2 p]] eqn:Ep; [done|]. apply proc_table_processes in Ep as [c ->].
      destruct (err p); [done|]. destruct (WalkStack _ _ _); [done|]. injection Er as <- _. by exists c. }
    exists c. destruct (if CollectKernel opts then _ else _) as [|sb']; [done|].
    destruct (length sb' =? 1)%nat; injection H as <- <-; (split; [by left|]); [constructor|]. by repeat constructor.
  - intros [= <- <-]. destruct (CollectUser opts); [|done].
    destruct (proc_table w s (k_pid k)) as [|[s2 p]] eqn:Ep; [done|]. apply proc_table_processes in Ep as [c ->].
    destruct (err p); [|by destruct (WalkStack _ _ _)]. injection Er as <-. exists c. split; [by right|constructor].
Qed.

Lemma collect_samples_frame w kvs s s' out :
  collect_samples w kvs s = Val (s', out) ->
  processes s' = processes s /\ now s' = now s /\ dead s ⊆ dead s' /\ unknown s' = unknown s /\ all s' = all s /\
  Forall (fun x => (s_pid x ∉ dead s) /\ FindTarget (processes s) (now s) (s_pid x) = Some (s_target x)) out.
Proof.
  revert s s' out. induction kvs as [|[k n] kvs IH]; intros s s' out; cbn [collect_samples].
  - intros [= <- <-]. split_and!; done.
  - destruct (collect_sample w s k n) as [|[s1 out1]] eqn:E1; [done|]. cbn [fst snd].
    destruct (collect_samples w kvs s1) as [|[s2 out2]] eqn:E2; [done|]. intros [= <- <-].
    apply collect_sample_frame in E1 as (c & Hs1 & Hout1). apply IH in E2 as (Hp & Hn & Hd & Hu & Ha & Hout2).
    assert (processes s1 = processes s /\ now s1 = now s /\ dead s ⊆ dead s1 /\ unknown s1 = unknown s /\ all s1 = all s) as (Hp1 & Hn1 & Hd1 & Hu1 & Ha1)
      by (destruct Hs1 as [->| ->]; cbn; split_and!; try done; set_solver).
    rewrite Hp1, Hn1 in *. cbn [fst snd]. split_and!; try congruence; [set_solver|]. apply Forall_app. split.
    + eapply Forall_impl; [exact Hout1|]. intros x (-> & _ & Hx & Ht). done.
    + eapply Forall_impl; [exact Hout2|]. intros x [Hx Ht]. split; [set_solver|done].
Qed.

(** Nothing of a process is left. *)
Definition gone (pid : Z) (s : session) : Prop :=
  (pid ∉ unknown s) /\ all s !! pid = None /\ processes s !! pid = None /\
  roundCache (symCache s) !! pid = None /\ contents (lruCache (symCache s)) !! pid = None.

Context `{!LRULaws Z}.

Lemma forget_gone pid s : gone pid (forget s pid).
Proof. unfold gone, forget. cbn. rewrite remove_contents, !lookup_delete_eq. set_solver. Qed.

Lemma forget_mono pid pid' s : gone pid s -> gone pid (forget s pid').
Proof.
  intros (Hu & Ha & Hp & Hr & Hl). unfold gone, forget. cbn. rewrite remove_contents. rewrite !lookup_delete_None.
  split_and!; [set_solver|by right..].
Qed.

Lemma forget_list pids s :
  dead (fold_left forget pids s) = dead s ∖ list_to_set pids /\
  (forall pid, pid ∈ pids \/ gone pid s -> gone pid (fold_left forget pids s)).
Proof.
  revert s. induction pids as [|pid pids IH]; intros s; cbn [fold_left].
  - split; [set_solver|]. intros pid [Hin|Hg]; [by apply not_elem_of_nil in Hin|done].
  - destruct (IH (forget s pid)) as [-> Hg]. split; [cbn; set_solver|]. intros pid' Hpid. apply Hg.
    destruct (decide (pid' = pid)) as [->|Hne]; [right; apply forget_gone|].
    destruct Hpid as [Hin|Hgone]; [left; set_solver|right; by apply forget_mono].
Qed.

Lemma forget_unknown_list w pids s :
  dead (fold_left (forget_unknown w) pids s) = dead s /\
  (forall pid, gone pid s -> gone pid (fold_left (forget_unknown w) pids s)).
Proof.
  revert s. induction pids as [|pid pids IH]; intros s; cbn [fold_left]; [done|].
  destruct (IH (forget_unknown w s pid)) as [-> Hg]. unfold forget_unknown in *. destruct (w_alive w pid); [done|].
  split; [done|]. intros pid' (Hu & Ha & Hp & Hr & Hl). apply Hg. unfold gone. cbn. rewrite lookup_delete_None.
  split_and!; try done; [set_solver|by right].
Qed.

Lemma cleanup_spec w s : dead (cleanup w s) = ∅ /\ forall pid, pid ∈ dead s -> gone pid (cleanup w s).
Proof.
  unfold cleanup. set (s0 := set_cache s _). destruct (forget_list (elements (dead s0)) s0) as [Hd Hg].
  set (s1 := fold_left forget _ s0) in *. destruct (forget_unknown_list w (elements (unknown s1)) s1) as [Hd' Hg'].
  set (s2 := fold_left _ _ s1) in *.
  assert (dead s2 = ∅ /\ forall pid, pid ∈ dead s -> gone pid s2) as H.
  { rewrite Hd', Hd. split; [set_solver|]. intros pid Hpid. apply Hg', Hg. left. by apply elem_of_elements. }
  destruct (roundNumber s2 mod 10 =? 0); [|done]. destruct H as [H1 H2]. split; [done|]. exact H2.
Qed.

Lemma cleanup_processes w s pid : processes s !! pid = None -> processes (cleanup w s) !! pid = None.
Proof.
  intros Hp. unfold cleanup. set (s0 := set_cache s _).
  assert (forall pids s', processes s' !! pid = None -> processes (fold_left forget pids s') !! pid = None) as H1.
  { induction pids as [|q pids IH]; intros s' Hs'; [done|]. apply IH. cbn. rewrite lookup_delete_None. by right. }
  assert (forall pids s', processes s' !! pid = None -> processes (fold_left (forget_unknown w) pids s') !! pid = None) as H2.
  { induction pids as [|q pids IH]; intros s' Hs'; [done|]. apply IH. unfold forget_unknown. by destruct (w_alive w q). }
  specialize (H1 (elements (dead s0)) s0 Hp). specialize (H2 (elements (unknown (fold_left forget (elements (dead s0)) s0))) _ H1).
  by destruct (_ =? 0).
Qed.

Lemma CollectProfiles_frame w s s' out :
  CollectProfiles w s = Val (s', out) ->
  exists s1, s' = cleanup w s1 /\ processes s1 = processes s /\ dead s ⊆ dead s1 /\
    Forall (fun x => (s_pid x ∉ dead s) /\ FindTarget (processes s) (now s) (s_pid x) = Some (s_target x)) out.
Proof.
  unfold CollectProfiles, collectRegularProfile. destruct (collect_samples _ _ _) as [|[s1 out1]] eqn:E; [done|].
  apply collect_samples_frame in E as (Hp & Hn & Hd & _ & _ & Hout). intros [= <- <-]. eexists. split; [done|]. done.
Qed.

Lemma step_strange s e s' out pid :
  step s e = Val (s', out) -> (forall pi, e <> EProcess pid pi) -> strange pid s -> strange pid s' /\ Forall (fun x => s_pid x <> pid) out.
Proof.
  unfold strange. intros Hstep He Hs. destruct e as [pid' pi|w pid'|pid'|k n|id st|w time|w]; cbn [step] in Hstep.
  - injection Hstep as <- <-. cbn. rewrite lookup_insert_ne; [by split; [|constructor]|]. intros ->. by apply (He pi).
  - destruct (process_request w s pid') as [|s1] eqn:E; [done|]. injection Hstep as <- <-. split; [|constructor].
    unfold process_request in E. destruct (decide _); [by injection E as <-|]. destruct (FindTarget _ _ _); [|by injection E as <-].
    by rewrite (start_processes w s pid' s1 E).
  - injection Hstep as <- <-. by split; [|constructor].
  - injection Hstep as <- <-. by split; [|constructor].
  - injection Hstep as <- <-. by split; [|constructor].
  - destruct (UpdateTargets w time s) as [|s1] eqn:E; [done|]. injection Hstep as <- <-. split; [|constructor].
    unfold UpdateTargets in E. by rewrite (update_targets_processes _ _ _ _ E).
  - apply CollectProfiles_frame in Hstep as (s1 & -> & Hp & _ & Hout). split; [apply cleanup_processes; by rewrite Hp|].
    eapply Forall_impl; [exact Hout|]. intros x [_ Ht] E. rewrite E in Ht. unfold FindTarget in Ht. by rewrite Hs in Ht.
Qed.

Lemma run_strange es s s' out pid :
  run es s = Val (s', out) -> (forall pi, EProcess pid pi ∉ es) -> strange pid s -> Forall (fun x => s_pid x <> pid) out.
Proof.
  revert s s' out. induction es as [|e es IH]; intros s s' out; cbn [run]; [intros [= _ <-]; constructor|].
  destruct (step s e) as [|[s1 out1]] eqn:E1; [done|]. cbn [fst snd]. destruct (run es s1) as [|[s2 out2]] eqn:E2; [done|].
  intros [= _ <-] He Hs. destruct (step_strange s e s1 out1 pid E1) as [Hs1 Ho1]; [|done|].
  - intros pi ->. apply (He pi). by left.
  - apply Forall_app. split; [done|]. apply (IH _ _ _ E2); [|done]. intros pi Hin. apply (He pi). by right.
Qed.

(** ** Collection returns *)

(** The maps of all processes can be parsed, and the tables of all files answer. *)
Record calm (w : world) : Prop := {
  calm_refresh pid : total (fun p => Refresh sort p (w_files w pid));
  calm_names pid path e a : w_open w pid path = Some e -> exists n, names e a = Val n;
  calm_kernel a : exists x, Resolve kallsyms a = Val x
}.

Lemma Get_total refresh k (g : GCache (V := ProcTable)) : total refresh -> exists r, Get 0 refresh k g = Val r.
Proof.
  intros Ht. unfold Get. destruct (decide (k = 0)); [by eexists|].
  assert (forall l g', exists r : GCache (V := ProcTable) * option ProcTable, use refresh l g' = Val r) as Huse.
  { intros l g'. unfold use. destruct (heap g' !! l) as [e|]; [|by eexists]. destruct (_ =? _); [by eexists|].
    destruct (Ht (v e)) as [y ->]. by eexists. }
  destruct (contents _ !! k); [apply Huse|]. destruct (roundCache _ !! k); [apply Huse|by eexists].
Qed.

Lemma proc_table_total w s pid : calm w -> exists r, proc_table w s pid = Val r.
Proof.
  intros Hw. pose proof (calm_refresh w Hw pid) as Ht. unfold proc_table.
  destruct (Get_total _ pid (symCache s) Ht) as [[c [p|]] ->]; [by eexists|]. unfold Cache.
  destruct (decide (pid = 0)); [by eexists|]. destruct (Ht NewProcTable) as [y ->]. by eexists.
Qed.

Lemma resolve_total w pid p pc : calm w -> exists x, ProcTable_Resolve (w_open w pid) p pc = Val x.
Proof.
  intros Hw. assert (exists x, resolve_range (w_open w pid) p pc = Val x) as Hr.
  { unfold resolve_range. destruct (BinarySearchFunc _ _) as [i found]. destruct (negb found); [by eexists|].
    destruct (ranges p !! i) as [[m []]|]; [|by eexists..]. destruct (file2Table p !! file m) as [m'|]; [|by eexists].
    unfold load. destruct (w_open w pid (Pathname m')) as [e|] eqn:E; [|by eexists].
    destruct (findBase m' e); [|by eexists]. destruct (calm_names w Hw pid _ e (u64 (pc - z)) E) as [n ->]. by eexists. }
  unfold ProcTable_Resolve. destruct (end_of_stack pc); [by eexists|]. destruct (perfMap p); [|done]. destruct (bytes_eqb _ _); [done|by eexists].
Qed.

Lemma walk_total resolve stack : (forall a, exists x, resolve a = Val x) -> exists ns, walk resolve stack = Val ns.
Proof.
  intros Hr. induction stack as [|ip stack [ns IH]]; cbn [walk]; [by eexists|]. destruct (ip =? 0); [by eexists|].
  destruct (Hr ip) as [x ->]. rewrite IH. by eexists.
Qed.

Lemma WalkStack_total sb resolve stack : (forall a, exists x, resolve a = Val x) -> exists ns, WalkStack sb resolve stack = Val ns.
Proof. intros Hr. unfold WalkStack. destruct (walk_total resolve (take 127 stack) Hr) as [ns ->]. by eexists. Qed.

Lemma collect_sample_total w s k n : calm w -> exists r, collect_sample w s k n = Val r.
Proof.
  intros Hw. unfold collect_sample. destruct (FindTarget _ _ _) as [t|]; [|by eexists]. destruct (decide _); [by eexists|].
  assert (forall (s1 : session) sb, exists r, (let! sb := (if CollectKernel opts then WalkStack sb (Resolve kallsyms) (GetStack s1 (k_kern k)) else Val sb) in
    if (length sb =? 1)%nat then Val (s1, []) else Val (s1, [MkProfileSample t (k_pid k) (rev sb) n])) = Val r) as Hk.
  { intros s1 sb. destruct (CollectKernel opts); [|case_match; by eexists].
    destruct (WalkStack_total sb (Resolve kallsyms) (GetStack s1 (k_kern k)) (calm_kernel w Hw)) as [ns ->]. case_match; by eexists. }
  destruct (CollectUser opts); [|apply Hk]. destruct (proc_table_total w s (k_pid k) Hw) as [[s1 p] ->].
  destruct (err p); [by eexists|].
  destruct (WalkStack_total [comm_of s (k_pid k)] (ProcTable_Resolve (w_open w (k_pid k)) p) (GetStack s1 (k_user k))
    (fun a => resolve_total w (k_pid k) p a Hw)) as [ns ->]. apply Hk.
Qed.

Lemma CollectProfiles_total w s : calm w -> exists s' out, CollectProfiles w s = Val (s', out).
Proof.
  intros Hw. assert (forall kvs s, exists r, collect_samples w kvs s = Val r) as Hc.
  { induction kvs as [|[k n] kvs IH]; intros s0; cbn [collect_samples]; [by eexists|].
    destruct (collect_sample_total w s0 k n Hw) as [[s1 o1] ->]. destruct (IH s1) as [[s2 o2] E]. cbn [fst]. rewrite E. by eexists. }
  unfold CollectProfiles, collectRegularProfile.
  match goal with |- context [collect_samples w ?kvs ?s] => destruct (Hc kvs s) as [[s1 out] ->] end. by do 2 eexists.
Qed.

(** C28: profiles are collected, and then no process that was reported dead is left in the session: it is
    not waited for, its name, target and cached symbols are dropped, and none of its samples is
    reported in that round, whatever else is counted.  No file of the world makes the parsers panic. *)
Theorem dead_process_forgotten w s :
  calm w ->
  exists s' out, CollectProfiles w s = Val (s', out) /\ dead s' = ∅ /\
    forall pid, pid ∈ dead s -> gone pid s' /\ Forall (fun x => s_pid x <> pid) out.
Proof.
  intros Hw. destruct (CollectProfiles_total w s Hw) as (s' & out & E). exists s', out. split; [done|].
  apply CollectProfiles_frame in E as (s1 & -> & _ & Hd & Hout). destruct (cleanup_spec w s1) as [Hdead Hg]. split; [done|].
  intros pid Hpid. split; [apply Hg; set_solver|]. eapply Forall_impl; [exact Hout|]. intros x [Hx _] Ex. by rewrite Ex in Hx.
Qed.

(** ** The table of a process is read again in each round *)

(** No entry was used later than now. *)
Definition settled (g : GCache (K := Z) (V := ProcTable)) : Prop := map_Forall (fun _ e => e_round e <= round g) (heap g).

Lemma cleanup_at_id ls (h : gmap nat (entry (V := ProcTable))) : cleanup_at (fun p => p) ls h = h.
Proof.
  revert h. induction ls as [|l ls IH]; intros h; [done|]. unfold cleanup_at in *. cbn [fold_left]. rewrite IH.
  apply map_eq. intros i. destruct (decide (l = i)) as [->|]; [rewrite lookup_alter_eq|by rewrite lookup_alter_ne].
  by destruct (h !! i) as [[]|].
Qed.

Lemma proc_table_refreshed w s pid :
  pid <> 0 -> total (fun p => Refresh sort p (w_files w pid)) ->
  map_Forall (fun _ e => e_round e < round (symCache s)) (heap (symCache s)) ->
  exists c p0 p, proc_table w s pid = Val (set_cache s c, p) /\ Refresh sort p0 (w_files w pid) = Val p /\
    (place 0 (symCache s) pid = None -> p0 = NewProcTable).
Proof.
  intros Hpid Ht Hlt. unfold proc_table, Get, place. destruct (decide (pid = 0)); [done|].
  assert (forall c, exists c' p, Cache 0 (fun p => p) (fun p => Refresh sort p (w_files w pid)) pid NewProcTable c = Val c' /\
    match roundCache c' !! pid with Some l => match heap c' !! l with Some e => v e | None => NewProcTable end | None => NewProcTable end = p /\
    Refresh sort NewProcTable (w_files w pid) = Val p) as Hnew.
  { intros c. unfold Cache. destruct (decide (pid = 0)); [done|]. destruct (Ht NewProcTable) as [p Hp]. cbv beta in Hp. rewrite Hp.
    eexists _, p. split; [done|]. cbn [roundCache heap]. rewrite lookup_insert_eq, cleanup_at_id, lookup_insert_eq. done. }
  assert (forall l c, heap c = heap (symCache s) -> round c = round (symCache s) ->
    (exists e p, use (fun p => Refresh sort p (w_files w pid)) l c = Val (set_heap c (<[l := MkEntry p (round c)]> (heap c)), Some p) /\
       Refresh sort (v e) (w_files w pid) = Val p) \/ use (fun p => Refresh sort p (w_files w pid)) l c = Val (c, None)) as Huse.
  { intros l c Hh Hr. unfold use. destruct (heap c !! l) as [e|] eqn:El; [left|by right].
    rewrite Hh in El. apply Hlt in El. destruct (Z.eqb_spec (e_round e) (round c)); [rewrite Hr in *; lia|].
    destruct (Ht (v e)) as [p Hp]. exists e, p. cbv beta in Hp. by rewrite Hp. }
  cbn [lruCache set_lru]. rewrite get_contents.
  set (c0 := set_lru (symCache s) (lru_get pid (lruCache (symCache s)))).
  assert (forall l, exists c p0 p, (let! r := use (fun p => Refresh sort p (w_files w pid)) l c0 in
     match r with
     | (c, Some p) => Val (set_cache s c, p)
     | (c, None) => let! c := Cache 0 (fun p => p) (fun p => Refresh sort p (w_files w pid)) pid NewProcTable c in
         Val (set_cache s c, match roundCache c !! pid with Some l => match heap c !! l with Some e => v e | None => NewProcTable end | None => NewProcTable end)
     end) = Val (set_cache s c, p) /\ Refresh sort p0 (w_files w pid) = Val p) as Hl.
  { intros l. destruct (Huse l c0 eq_refl eq_refl) as [(e & p & -> & Hp)| ->].
    - by eexists _, (v e), p.
    - destruct (Hnew c0) as (c' & p & -> & -> & Hp). by exists c', NewProcTable, p. }
  destruct (contents (lruCache (symCache s)) !! pid) as [l|]; [destruct (Hl l) as (c & p0 & p & E & Hp); by exists c, p0, p|].
  destruct (roundCache c0 !! pid) as [l|] eqn:Er; [|].
  - destruct (Hl l) as (c & p0 & p & E & Hp). exists c, p0, p. do 2 (split; [done|]). change (roundCache (symCache s) !! pid = Some l) in Er. by rewrite Er.
  - destruct (Hnew c0) as (c' & p & -> & -> & Hp). by exists c', NewProcTable, p.
Qed.

Lemma Refresh_bad_perf p f p' : NewPerfMap sort (f_perf f) = None -> Refresh sort p f = Val p' -> err p' = true.
Proof.
  intros Hbad. unfold Refresh. destruct (err p) eqn:E; [by intros [= <-]|]. destruct (f_maps f); [|by intros [= <-]].
  destruct (refreshProcMap p b) as [|q]; [done|]. rewrite Hbad. by intros [= <-].
Qed.

(** The state in which the samples of a round are collected. *)
Lemma next_round_settled g : settled g -> map_Forall (fun _ e => e_round e < round (NextRound g)) (heap (NextRound g)).
Proof. intros Hs l e He. apply Hs in He. cbn. lia. Qed.

(** C39: A process whose perf map cannot be parsed when its sample is collected, for instance because
    its last line is not yet complete, is taken for dead though it lives: no later sample
    of it is ever reported, unless the process is announced again. *)
Theorem perf_error_ends_profiling w s key n t :
  CollectUser opts = true -> settled (symCache s) -> counts s = {[ key := n ]} -> k_pid key <> 0 -> (k_pid key ∉ dead s) ->
  FindTarget (processes s) (now s) (k_pid key) = Some t -> w_alive w (k_pid key) = true ->
  total (fun p => Refresh sort p (w_files w (k_pid key))) -> NewPerfMap sort (f_perf (w_files w (k_pid key))) = None ->
  exists s', CollectProfiles w s = Val (s', []) /\ gone (k_pid key) s' /\
    forall es s'' out, (forall pi, EProcess (k_pid key) pi ∉ es) -> run es s' = Val (s'', out) ->
      Forall (fun x => s_pid x <> k_pid key) out.
Proof.
  intros Hu Hset Hc Hpid Hdead Ht _ Hr Hbad. unfold CollectProfiles, collectRegularProfile. cbn [counts]. rewrite Hc, map_to_list_singleton.
  cbn [collect_samples]. unfold collect_sample. cbn [processes now dead]. rewrite Ht. destruct (decide (k_pid key ∈ dead s)); [done|].
  rewrite Hu. match goal with |- context [proc_table w ?s (k_pid key)] => set (s1 := s) end.
  destruct (proc_table_refreshed w s1 (k_pid key) Hpid Hr (next_round_settled _ Hset)) as (c & p0 & p & -> & Hp & _).
  rewrite (Refresh_bad_perf p0 _ p Hbad Hp). cbn [fst snd app]. eexists. split; [done|].
  match goal with |- gone _ (cleanup w ?s) /\ _ => set (s2 := s) end.
  assert (gone (k_pid key) (cleanup w s2)) as Hgone by (apply cleanup_spec; cbn; set_solver).
  split; [done|]. intros es s'' out Hes Hrun. apply (run_strange _ _ _ _ _ Hrun Hes). apply Hgone.
Qed.

(** ** Stacks are named *)

(** A frame of a stack: an address in the code of a file that is loaded with a bias, and the name of the
    address in the file, empty if it has none. *)
Record frame := MkFrame { f_pc : Z; f_row : mrow; f_image : image; f_bias : Z; f_name : bytes }.

Definition frame_ok (w : world) (pid : Z) (rows : list mrow) (f : frame) : Prop :=
  f_pc f <> 0 /\ end_of_stack (f_pc f) = false /\ f_row f ∈ code_rows rows /\ HasPrefix (m_name (f_row f)) (str "/") = true /\
  m_start (f_row f) <= f_pc f < m_end (f_row f) /\ w_open w pid (m_name (f_row f)) = Some (f_image f) /\
  (forall r', r' ∈ code_rows rows -> file (mrow_map r') = file (mrow_map (f_row f)) -> loaded_at (f_image f) (f_bias f) (mrow_map r')) /\
  names (f_image f) (u64 (f_pc f - f_bias f)) = Val (f_name f).

(** What is shown for it: its name, or the file, with the address in the file if the options ask for it. *)
Definition frame_text (f : frame) : bytes :=
  match f_name f with
  | [] => m_name (f_row f) ++ (if UnknownSymbolModuleOffset opts then str "+" ++ FormatHex (u64 (f_pc f - f_bias f)) else [])
  | _ => f_name f
  end.

Definition maps_ok (rows : list mrow) : Prop :=
  Forall mrow_ok rows /\ StronglySorted mrow_before (code_rows rows) /\ Forall (fun r => m_start r < m_end r) (code_rows rows).

Lemma process_total rows perf :
  Forall mrow_ok rows -> total (fun p => Refresh sort p (MkProcFiles (f_maps (process rows)) perf)).
Proof.
  intros Hok p. unfold Refresh, refreshProcMap. cbn [f_maps f_perf process]. destruct (err p); [by eexists|].
  rewrite maps_parsed by done. destruct (add_ranges _ _). destruct (NewPerfMap sort perf); by eexists.
Qed.

Lemma walk_frames w pid rows p frames rest :
  maps_ok rows -> Refresh sort NewProcTable (process rows) = Val p -> Forall (frame_ok w pid rows) frames ->
  (rest = [] \/ exists r, rest = 0 :: r) ->
  walk (ProcTable_Resolve (w_open w pid) p) (map f_pc frames ++ rest) = Val (map frame_text frames).
Proof.
  intros (Hok & Hs & Hne) Hp Hf Hrest. induction Hf as [|f frames Hf _ IH]; cbn [map app].
  - destruct Hrest as [->|[r ->]]; done.
  - destruct Hf as (H0 & Hend & Hin & Hpath & Hpc & Ho & Hl & Hn). cbn [walk]. destruct (Z.eqb_spec (f_pc f) 0); [done|].
    destruct (address_in_module sort (w_open w pid) rows (f_row f) (f_pc f) (f_image f) (f_bias f) Hok Hs Hne Hin Hpath Hpc Hend Ho Hl)
      as (p' & Hp' & _ & Hres).
    rewrite Hp in Hp'. injection Hp' as <-. rewrite Hres, Hn, IH. do 2 f_equal. unfold frame_name, frame_text. cbn [Name Module_ Start].
    destruct (f_name f); [|done]. change (bytes_eqb [] []) with true. cbn [negb]. destruct (m_name (f_row f)) as [|c path]; [done|].
    change (bytes_eqb (c :: path) []) with false. cbn [negb]. destruct (UnknownSymbolModuleOffset opts); [done|]. by rewrite app_nil_r.
Qed.

(** *** Within a round *)

(** The cache has no table of the process, or the one that was read in this round. *)
Definition fresh_table (pid : Z) (p : ProcTable) (g : GCache (K := Z) (V := ProcTable)) : Prop :=
  gcache_ok g /\ (place 0 g pid = None \/ exists l, roundCache g !! pid = Some l /\ heap g !! l = Some (MkEntry p (round g))).

Lemma place_None (g : GCache (K := Z) (V := ProcTable)) pid :
  pid <> 0 -> place 0 g pid = None <-> contents (lruCache g) !! pid = None /\ roundCache g !! pid = None.
Proof.
  intros Hpid. unfold place. destruct (decide (pid = 0)); [done|]. destruct (contents _ !! pid); naive_solver.
Qed.

(** [Cache] of a process. *)
Lemma Cache_spec refresh pid x (g : GCache (K := Z) (V := ProcTable)) y :
  pid <> 0 -> refresh x = Val y -> gcache_ok g ->
  exists g', Cache 0 (fun p => p) refresh pid x g = Val g' /\ gcache_ok g' /\ round g' = round g /\
    roundCache g' = <[pid := next g]> (roundCache g) /\ heap g' = <[next g := MkEntry y (round g)]> (heap g) /\
    contents (lruCache g') ⊆ <[pid := next g]> (contents (lruCache g)).
Proof.
  intros Hpid Hy Hok. unfold Cache. destruct (decide (pid = 0)); [done|]. rewrite Hy. eexists. split; [done|].
  split; [apply ok_Cache; first [exact Hok|apply add_evicts|apply _]|]. cbn [round roundCache heap lruCache]. rewrite cleanup_at_id.
  do 3 (split; [done|]). apply add_evicts.
Qed.

(** The table of the process itself. *)
Lemma proc_table_fresh w s pid p :
  pid <> 0 -> total (fun p => Refresh sort p (w_files w pid)) -> Refresh sort NewProcTable (w_files w pid) = Val p ->
  fresh_table pid p (symCache s) -> exists c, proc_table w s pid = Val (set_cache s c, p) /\ fresh_table pid p c.
Proof.
  intros Hpid Ht Hp [Hok Hg]. unfold proc_table. set (refresh := fun p => Refresh sort p (w_files w pid)) in *.
  destruct Hg as [Hn|(l & Hl & He)].
  - pose proof (Get_spec 0 refresh pid (symCache s) Ht Hok) as HG. rewrite Hn in HG. destruct HG as (c & -> & Hc).
    assert (gcache_ok (set_lru (symCache s) c)) as Hok1.
    { destruct Hok as [H1 H2 H3 H4 H5]. split; cbn; rewrite ?Hc; eauto. }
    destruct (Cache_spec refresh pid NewProcTable (set_lru (symCache s) c) p Hpid Hp Hok1) as (g' & -> & Hok' & Hr & Hrc & Hh & _).
    exists g'. rewrite Hrc, lookup_insert_eq, Hh, lookup_insert_eq. split; [done|]. split; [done|]. right.
    exists (next (symCache s)). rewrite Hrc, Hh, Hr. by rewrite !lookup_insert_eq.
  - unfold Get. destruct (decide (pid = 0)); [done|]. cbn [lruCache set_lru roundCache].
    assert (match contents (lru_get pid (lruCache (symCache s))) !! pid with
            | Some l => use refresh l (set_lru (symCache s) (lru_get pid (lruCache (symCache s))))
            | None => match roundCache (symCache s) !! pid with
                      | Some l => use refresh l (set_lru (symCache s) (lru_get pid (lruCache (symCache s))))
                      | None => Val (set_lru (symCache s) (lru_get pid (lruCache (symCache s))), None)
                      end
            end = use refresh l (set_lru (symCache s) (lru_get pid (lruCache (symCache s))))) as ->.
    { rewrite get_contents. destruct (contents (lruCache (symCache s)) !! pid) as [l'|] eqn:E; [|by rewrite Hl].
      by rewrite (ok_same _ Hok pid l l' Hl E). }
    unfold use. cbn [heap set_lru round]. rewrite He. cbn [e_round v]. rewrite Z.eqb_refl. eexists. split; [done|].
    split; [by apply ok_touch|]. right. by exists l.
Qed.

(** The table of another process. *)
Lemma proc_table_other w s pid pid' p s' q :
  pid <> 0 -> pid' <> pid -> total (fun p => Refresh sort p (w_files w pid')) ->
  fresh_table pid p (symCache s) -> proc_table w s pid' = Val (s', q) -> fresh_table pid p (symCache s').
Proof.
  intros Hpid Hne Ht [Hok Hg]. unfold proc_table. set (refresh := fun p => Refresh sort p (w_files w pid')) in *.
  pose proof (Get_spec 0 refresh pid' (symCache s) Ht Hok) as HG. destruct (place 0 (symCache s) pid') as [l'|] eqn:Ep.
  - destruct HG as (x & c & h & -> & Hc & Hd & _ & Ho). intros [= <- _]. cbn [symCache set_cache]. split; [by apply ok_Get|].
    destruct Hg as [Hn|(l & Hl & He)].
    + left. apply place_None; [done|]. apply place_None in Hn; [|done]. cbn. by rewrite Hc.
    + right. exists l. cbn. split; [done|]. rewrite Ho; [done|]. intros ->. apply Hne. symmetry. apply (ok_apart _ Hok pid pid' l' Hl).
      unfold place in Ep. destruct (decide (pid' = 0)); [done|]. destruct (contents _ !! pid'); [by right|by left].
  - destruct HG as (c & -> & Hc).
    assert (fresh_table pid p (set_lru (symCache s) c)) as Hg1.
    { split; [destruct Hok as [H1 H2 H3 H4 H5]; split; cbn; rewrite ?Hc; eauto|].
      destruct Hg as [Hn|Hg]; [left|by right]. apply place_None; [done|]. apply place_None in Hn; [|done]. cbn. by rewrite Hc. }
    clear Hg Hok Ep. set (g := set_lru (symCache s) c) in *. clearbody g. destruct Hg1 as [Hok Hg].
    destruct (decide (pid' = 0)) as [->|H0].
    { unfold Cache. destruct (decide (0 = 0)); [|done]. intros [= <- _]. by split. }
    destruct (Ht NewProcTable) as [y Hy]. destruct (Cache_spec refresh pid' NewProcTable g y H0 Hy Hok) as (g' & -> & Hok' & Hr & Hrc & Hh & Hlru).
    intros [= <- _]. cbn [symCache set_cache]. split; [done|]. destruct Hg as [Hn|(l & Hl & He)].
    + left. apply place_None; [done|]. apply place_None in Hn as [Hn1 Hn2]; [|done]. rewrite Hrc, lookup_insert_ne by done. split; [|done].
      destruct (contents (lruCache g') !! pid) eqn:E; [|done]. apply (lookup_weaken _ _ _ _ E) in Hlru.
      rewrite lookup_insert_ne in Hlru by done. congruence.
    + right. exists l. rewrite Hrc, Hh, Hr, lookup_insert_ne by done. split; [done|]. rewrite lookup_insert_ne; [done|].
      intros <-. pose proof (ok_next g Hok (next g) (ok_round g Hok pid _ Hl)). lia.
Qed.

(** The samples of a process whose table can be read, while others are collected. *)
Definition readable (w : world) (pid : Z) (p : ProcTable) (s : session) : Prop :=
  pid <> 0 /\ Refresh sort NewProcTable (w_files w pid) = Val p /\ err p = false /\ fresh_table pid p (symCache s) /\ pid ∉ dead s.

Lemma collect_sample_readable w s k n s' out pid p :
  calm w -> readable w pid p s -> collect_sample w s k n = Val (s', out) ->
  readable w pid p s' /\ (length out <= 1)%nat /\
  processes s' = processes s /\ now s' = now s /\ stacks s' = stacks s /\ all s' = all s.
Proof.
  intros Hw (H0 & Hp & He & Hg & Hd) E. unfold collect_sample in E.
  assert (readable w pid p s) as Hr by done.
  destruct (FindTarget _ _ _) as [t|]; [|injection E as <- <-; split; [exact Hr|split_and!; cbn; (done || lia)]].
  destruct (decide _); [injection E as <- <-; split; [exact Hr|split_and!; cbn; (done || lia)]|].
  assert (exists c s1, (s1 = set_cache s c \/ s1 = process_dead (set_cache s c) (k_pid k)) /\ s' = s1 /\ (length out <= 1)%nat /\
    readable w pid p s1) as (c & s1 & Hs1 & -> & Hlen & Hr1).
  2: { split; [done|]. split; [done|]. by destruct Hs1 as [->| ->]. }
  destruct (CollectUser opts).
  - destruct (proc_table w s (k_pid k)) as [|[s1 q]] eqn:Ep; [done|].
    assert (fresh_table pid p (symCache s1) /\ (k_pid k = pid -> q = p)) as [Hg1 Hq].
    { destruct (decide (k_pid k = pid)) as [<-|Hne]; [|split; [|done]].
      - destruct (proc_table_fresh w s (k_pid k) p H0 (calm_refresh w Hw _) Hp Hg) as (c & E' & Hc). rewrite Ep in E'. by injection E' as -> ->.
      - by eapply (proc_table_other w s pid (k_pid k)); [| |apply (calm_refresh w Hw)| |]. }
    apply proc_table_processes in Ep as [c ->]. cbn [symCache set_cache] in Hg1.
    destruct (err q) eqn:Eq.
    + injection E as <- <-. exists c, (process_dead (set_cache s c) (k_pid k)). split; [by right|]. split; [done|]. split; [cbn; lia|].
      unfold readable. cbn. split_and!; try done. assert (k_pid k <> pid) by (intros Ek; rewrite (Hq Ek) in Eq; congruence). set_solver.
    + destruct (WalkStack _ _ _) as [|sb]; [done|]. destruct (if CollectKernel opts then _ else _) as [|sb']; [done|].
      exists c, (set_cache s c). split; [by left|].
      destruct (length sb' =? 1)%nat; injection E as <- <-; (split; [done|]); (split; [cbn; lia|done]).
  - destruct (if CollectKernel opts then _ else _) as [|sb']; [done|]. exists (symCache s), s. split; [left; by destruct s|].
    destruct (length sb' =? 1)%nat; injection E as <- <-; (split; [done|]); (split; [cbn; lia|exact Hr]).
Qed.

(** The sample of one key. *)
Lemma collect_sample_named w s key n t rows frames p :
  calm w -> CollectUser opts = true -> CollectKernel opts = false -> readable w (k_pid key) p s ->
  FindTarget (processes s) (now s) (k_pid key) = Some t -> w_files w (k_pid key) = process rows -> maps_ok rows ->
  Forall (frame_ok w (k_pid key) rows) frames -> frames <> [] -> (length frames <= 127)%nat -> 0 <= k_user key ->
  stacks s !! k_user key = Some (map f_pc frames ++ replicate (127 - length frames) 0) ->
  exists s', collect_sample w s key n =
    Val (s', [MkProfileSample t (k_pid key) (map frame_text frames ++ [comm_of s (k_pid key)]) n]).
Proof.
  intros Hw Hu Hk (H0 & Hp & He & Hg & Hd) Ht Hfiles Hmaps Hf Hne Hlen Hid Hst.
  unfold collect_sample. rewrite Ht. destruct (decide (k_pid key ∈ dead s)); [done|]. rewrite Hu, Hk.
  destruct (proc_table_fresh w s (k_pid key) p H0 (calm_refresh w Hw _) Hp Hg) as (c & -> & _). rewrite He.
  unfold WalkStack, GetStack. cbn [stacks set_cache]. destruct (Z.ltb_spec (k_user key) 0); [lia|]. rewrite Hst. cbn [from_option id].
  rewrite take_ge by (rewrite length_app, length_map, length_replicate; lia). rewrite Hfiles in Hp.
  rewrite (walk_frames w (k_pid key) rows p frames _ Hmaps Hp Hf).
  2: { destruct (127 - length frames)%nat; [by left|right; by eexists]. }
  replace (length _ =? 1)%nat with false.
  - eexists. cbn [app rev]. by rewrite rev_involutive.
  - symmetry. apply Nat.eqb_neq. rewrite length_app, length_rev, length_map. destruct frames; [done|]. cbn [length]. lia.
Qed.

(** It is among the samples of the round. *)
Lemma collect_samples_named w kvs s s' out key n t rows frames p :
  calm w -> CollectUser opts = true -> CollectKernel opts = false -> readable w (k_pid key) p s -> (key, n) ∈ kvs ->
  FindTarget (processes s) (now s) (k_pid key) = Some t -> w_files w (k_pid key) = process rows -> maps_ok rows ->
  Forall (frame_ok w (k_pid key) rows) frames -> frames <> [] -> (length frames <= 127)%nat -> 0 <= k_user key ->
  stacks s !! k_user key = Some (map f_pc frames ++ replicate (127 - length frames) 0) ->
  collect_samples w kvs s = Val (s', out) ->
  MkProfileSample t (k_pid key) (map frame_text frames ++ [comm_of s (k_pid key)]) n ∈ out.
Proof.
  intros Hw Hu Hk Hr Hin Ht Hfiles Hmaps Hf Hne Hlen Hid Hst. revert s s' out Hr Hin Ht Hst.
  induction kvs as [|[k m] kvs IH]; intros s s' out Hr Hin Ht Hst; [by apply not_elem_of_nil in Hin|]. cbn [collect_samples].
  destruct (collect_sample w s k m) as [|[s1 out1]] eqn:E1; [done|]. cbn [fst snd].
  destruct (collect_samples w kvs s1) as [|[s2 out2]] eqn:E2; [done|]. intros [= <- <-]. apply elem_of_app.
  apply elem_of_cons in Hin as [[= -> ->]|Hin].
  - left. destruct (collect_sample_named w s k m t rows frames p Hw Hu Hk Hr Ht Hfiles Hmaps Hf Hne Hlen Hid Hst) as [s3 E3].
    rewrite E1 in E3. injection E3 as _ ->. by left.
  - right. destruct (collect_sample_readable w s k m s1 out1 _ p Hw Hr E1) as (Hr1 & _ & Hp & Hn & Hs & Ha).
    assert (comm_of s (k_pid key) = comm_of s1 (k_pid key)) as -> by (unfold comm_of; by rewrite Ha).
    apply (IH s1 s2 out2 Hr1 Hin); [by rewrite Hp, Hn|by rewrite Hs|done].
Qed.

Lemma collect_samples_length w kvs s s' out : collect_samples w kvs s = Val (s', out) -> (length out <= length kvs)%nat.
Proof.
  revert s s' out. induction kvs as [|[k m] kvs IH]; intros s s' out; cbn [collect_samples]; [by intros [= _ <-]|].
  destruct (collect_sample w s k m) as [|[s1 out1]] eqn:E1; [done|]. cbn [fst snd].
  destruct (collect_samples w kvs s1) as [|[s2 out2]] eqn:E2; [done|]. intros [= _ <-]. apply IH in E2.
  assert (length out1 <= 1)%nat; [|rewrite length_app; cbn [length]; lia].
  unfold collect_sample in E1. destruct (FindTarget _ _ _); [|injection E1 as _ <-; cbn; lia].
  destruct (decide _); [injection E1 as _ <-; cbn; lia|].
  match type of E1 with (let! r := ?e in _) = _ => destruct e as [|[s3 [sb|]]]; [done| |injection E1 as _ <-; cbn; lia] end.
  destruct (if CollectKernel opts then _ else _) as [|sb']; [done|].
  destruct (length sb' =? 1)%nat; injection E1 as _ <-; cbn; lia.
Qed.

(** C8: samples are reported with the names of their stacks: a round that collects any number of counters
    reports, for each counter of a process that is new to the session, one of its samples with the
    count and the target, the names of the addresses of the stack in their files, from the leaf
    to the root, and then the name of the process; an address without a name is shown as its file
    (and the address in it, as the options have it); there are no more samples than counters.  This is
    for user stacks only, as the agent asks for, that are still in the map of the kernel, and for
    frames in files mapped as the kernel prints /proc/PID/maps: all mappings of a file have one load bias (a second copy
    of a library is misresolved, proc.go:137), the process has no perf map, and no
    table of symbols panics. *)
Theorem profile_stack_named w s :
  calm w -> CollectUser opts = true -> CollectKernel opts = false -> gcache_ok (symCache s) ->
  exists s' out, CollectProfiles w s = Val (s', out) /\ (length out <= base.size (counts s))%nat /\
    forall key n t rows frames, counts s !! key = Some n ->
      k_pid key <> 0 -> (k_pid key ∉ dead s) -> FindTarget (processes s) (now s) (k_pid key) = Some t ->
      place 0 (symCache s) (k_pid key) = None -> w_files w (k_pid key) = process rows -> maps_ok rows ->
      Forall (frame_ok w (k_pid key) rows) frames -> frames <> [] -> (length frames <= 127)%nat -> 0 <= k_user key ->
      stacks s !! k_user key = Some (map f_pc frames ++ replicate (127 - length frames) 0) ->
      MkProfileSample t (k_pid key) (map frame_text frames ++ [comm_of s (k_pid key)]) n ∈ out.
Proof.
  intros Hw Hu Hk Hok. destruct (CollectProfiles_total w s Hw) as (s' & out & E). exists s', out. split; [done|].
  unfold CollectProfiles, collectRegularProfile in E. cbn [counts] in E.
  match type of E with context [collect_samples w ?kvs ?s] => set (s1 := s) in E end.
  destruct (collect_samples w (map_to_list (counts s)) s1) as [|[s2 out2]] eqn:E2; [done|]. injection E as _ <-. cbn [snd].
  split; [rewrite <-length_map_to_list; exact (collect_samples_length _ _ _ _ _ E2)|].
  intros key n t rows frames Hc Hpid Hdead Ht Hplace Hfiles Hmaps Hf Hne Hlen Hid Hst.
  destruct frames as [|f frames]; [done|]. pose proof Hf as [(_ & Hend & Hin & Hpath & Hpc & Ho & Hl & _) _]%Forall_cons_1.
  destruct Hmaps as (Hrows & Hsorted & Hlt).
  destruct (address_in_module sort (w_open w (k_pid key)) rows (f_row f) (f_pc f) (f_image f) (f_bias f) Hrows Hsorted Hlt Hin Hpath Hpc Hend Ho Hl)
    as (p & Hp & He & _).
  apply (collect_samples_named w (map_to_list (counts s)) s1 s2 out2 key n t rows (f :: frames) p); try done.
  - unfold readable. rewrite Hfiles. split_and!; try done. split; [by destruct Hok as [H1 H2 H3 H4 H5]|by left].
  - by apply elem_of_map_to_list.
Qed.

End session.
(** *** A session *)

Definition demo_opts : SessionOptions := MkSessionOptions true false true false true.

Definition demo_world (perf : option bytes) : world :=
  MkWorld (fun _ => MkProcFiles (f_maps (process [demo_lib 0x7f0000; demo_data 0x7f0000])) (Some perf)) (fun _ => demo_open)
    (fun _ => Some (str "/usr/bin/nginx")) (fun _ => Some (str "nginx" ++ [10])) (fun _ => true).

Definition demo_frames : list frame :=
  [MkFrame 0x7f1050 (demo_lib 0x7f0000) demo_image 0x7f0000 (str "SSL_read");
   MkFrame 0x7f2010 (demo_lib 0x7f0000) demo_image 0x7f0000 (str "SSL_write")].

(** Two counters of one process. *)
Definition demo_counts : gmap sample_key Z := {[ ((42, 5), -1) := 7; ((42, 6), -1) := 3 ]}.

Definition demo_session (d : gset Z) : session :=
  MkSession ∅ d {[ 42 := MkProcInfoLite (str "nginx") ProfilingTypeFramepointers ]} ∅ (NewGCache (MkGCacheOptions 1 8))
    {[ ((42, 5), -1) := 7 ]} {[ 5 := map f_pc demo_frames ++ replicate 125 0; 6 := map f_pc (take 1 demo_frames) ++ replicate 126 0 ]}
    {[ 42 := MkProcessInfo 0 (str "web") false ]} (2 * CollectInterval) 0 true.

Lemma demo_code : code_rows [demo_lib 0x7f0000; demo_data 0x7f0000] = [demo_lib 0x7f0000].
Proof. done. Qed.

Lemma demo_maps_ok : maps_ok [demo_lib 0x7f0000; demo_data 0x7f0000].
Proof.
  unfold maps_ok. rewrite demo_code. split; [apply demo_process; lia|]. split; [by repeat constructor|].
  apply Forall_singleton. cbn. lia.
Qed.

Lemma demo_calm perf : (forall p, exists p', Refresh sort_symbols p (MkProcFiles (f_maps (process [demo_lib 0x7f0000; demo_data 0x7f0000])) (Some perf)) = Val p') ->
  calm sort_symbols (NewSymbolTab [] 0) (demo_world perf).
Proof.
  intros Hr. split.
  - intros pid. exact Hr.
  - intros pid path e a He. cbn [w_open demo_world] in He. unfold demo_open in He. case_match; [|done]. injection He as <-. by eexists.
  - intros a. by eexists.
Qed.

Lemma demo_stack_ok : Forall (frame_ok (demo_world None) 42 [demo_lib 0x7f0000; demo_data 0x7f0000]) demo_frames.
Proof.
  unfold demo_frames. repeat apply Forall_cons_2; try apply Forall_nil_2;
    (unfold frame_ok; cbn [f_pc f_row f_image f_bias f_name]; rewrite demo_code; split_and!;
     [done|done|by left|done|by cbn|by cbn|done|
      intros r' Hr' _; apply list_elem_of_singleton in Hr' as ->; apply demo_loaded|by vm_compute]).
Qed.

Lemma profile_stack_named_witness :
  let s := set_kernel (demo_session ∅) demo_counts (stacks (demo_session ∅)) in
  exists s' out, CollectProfiles demo_opts sort_symbols (NewSymbolTab [] 0) (demo_world None) s = Val (s', out) /\ (length out <= 2)%nat /\
    MkProfileSample (str "web") 42 [str "SSL_read"; str "SSL_write"; str "nginx"] 7 ∈ out /\
    MkProfileSample (str "web") 42 [str "SSL_read"; str "nginx"] 3 ∈ out.
Proof.
  intros s. destruct (profile_stack_named demo_opts sort_symbols (NewSymbolTab [] 0) (demo_world None) s) as (s' & out & E & Hlen & Hout).
  - apply demo_calm. apply process_total. apply demo_process. lia.
  - done.
  - done.
  - apply NewGCache_ok.
  - exists s', out. split; [exact E|]. split; [exact Hlen|].
    assert (forall k : Z, k <> 0 -> k ∉ dead s) as Hdead by (intros k _; apply not_elem_of_empty).
    split.
    + apply (Hout ((42, 5), -1) 7 (str "web") [demo_lib 0x7f0000; demo_data 0x7f0000] demo_frames);
        [done|done|by apply Hdead|by vm_compute|done|done|apply demo_maps_ok|apply demo_stack_ok|done|cbn; lia|done|done].
    + apply (Hout ((42, 6), -1) 3 (str "web") [demo_lib 0x7f0000; demo_data 0x7f0000] (take 1 demo_frames));
        [done|done|by apply Hdead|by vm_compute|done|done|apply demo_maps_ok|apply Forall_take, demo_stack_ok|done|cbn; lia|done|done].
Defined.

Lemma perf_error_ends_profiling_witness :
  exists s', CollectProfiles demo_opts sort_symbols (NewSymbolTab [] 0) (demo_world (Some (str "20a0 1"))) (demo_session ∅) = Val (s', []) /\
    gone 42 s'.
Proof.
  destruct (perf_error_ends_profiling demo_opts sort_symbols (NewSymbolTab [] 0) (demo_world (Some (str "20a0 1"))) (demo_session ∅)
    ((42, 5), -1) 7 (str "web")) as (s' & E & Hg & _).
  - done.
  - apply map_Forall_empty.
  - done.
  - done.
  - apply not_elem_of_empty.
  - by vm_compute.
  - done.
  - apply process_total. apply demo_process. lia.
  - by vm_compute.
  - exists s'. split; [exact E|exact Hg].
Defined.

Lemma dead_process_forgotten_witness :
  exists s' out, CollectProfiles demo_opts sort_symbols (NewSymbolTab [] 0) (demo_world None) (demo_session {[ 42 ]}) = Val (s', out) /\
    dead s' = ∅ /\ gone 42 s'.
Proof.
  destruct (dead_process_forgotten demo_opts sort_symbols (NewSymbolTab [] 0) (demo_world None) (demo_session {[ 42 ]})) as (s' & out & E & Hd & Hg).
  - apply demo_calm. apply process_total. apply demo_process. lia.
  - exists s', out. split; [exact E|]. split; [exact Hd|]. apply Hg. cbn [dead demo_session]. set_solver.
Defined.

End Session.
