(* ===== verification/Pprof.v ===== *)
(** * Profiles

    internal/pyroscope-ebpf/pprof/pprof.go: samples are collected into one profile per target,
    in which the names of frames are shared.  A profile holds the stacks it was made of. *)

From S2P Require Import Prelude GoLib Session.

Module Pprof.
Import Session.

(** ** The builder of a profile *)

(** A location refers to a function; both are numbered from one. *)
Record ProfileBuilder := MkProfileBuilder {
  locations : gmap bytes nat; Location : list nat; functions : gmap bytes nat; Function_ : list bytes;
  Samples : list (list nat * Z); Period : Z
}.

Definition new_builder (period : Z) : ProfileBuilder := MkProfileBuilder ∅ [] ∅ [] [] period.

Definition addFunction (b : ProfileBuilder) (f : bytes) : ProfileBuilder * nat :=
  match functions b !! f with
  | Some id => (b, id)
  | None =>
      let id := S (length (Function_ b)) in
      (MkProfileBuilder (locations b) (Location b) (<[f := id]> (functions b)) (Function_ b ++ [f]) (Samples b) (Period b), id)
  end.

Definition addLocation (b : ProfileBuilder) (f : bytes) : ProfileBuilder * nat :=
  match locations b !! f with
  | Some id => (b, id)
  | None =>
      let id := S (length (Location b)) in
      let '(b, fid) := addFunction b f in
      (MkProfileBuilder (<[f := id]> (locations b)) (Location b ++ [fid]) (functions b) (Function_ b) (Samples b) (Period b), id)
  end.

Fixpoint add_stack (b : ProfileBuilder) (stack : list bytes) : ProfileBuilder * list nat :=
  match stack with
  | [] => (b, [])
  | f :: stack =>
      let '(b, id) := addLocation b f in
      let '(b, ids) := add_stack b stack in (b, id :: ids)
  end.

(** A sample of CPU time: the count is scaled by the period, in 64 bits. *)
Definition CreateSample (b : ProfileBuilder) (x : ProfileSample) : ProfileBuilder :=
  let '(b, ids) := add_stack b (s_stack x) in
  MkProfileBuilder (locations b) (Location b) (functions b) (Function_ b)
    (Samples b ++ [(ids, s64 (s64 (s_value x) * Period b))]) (Period b).

(** ** The profiles of all targets *)

Section builders.
(** The hash of the labels of a target. *)
Context (labelsHash : bytes -> Z) (SampleRate : Z).

Definition period : Z := Z.quot 1000000000 SampleRate.

Definition AddSample (bs : gmap Z ProfileBuilder) (x : ProfileSample) : gmap Z ProfileBuilder :=
  let k := labelsHash (s_target x) in
  let b := match bs !! k with Some b => b | None => new_builder period end in
  <[k := CreateSample b x]> bs.

(** [pprof.Collect] *)
Definition Collect (xs : list ProfileSample) : gmap Z ProfileBuilder := fold_left AddSample xs ∅.

(** ** What a profile says *)

Definition location_name (b : ProfileBuilder) (id : nat) : option bytes :=
  match id with
  | O => None
  | S i => match Location b !! i with
           | Some (S j) => Function_ b !! j
           | _ => None
           end
  end.

Definition decode (b : ProfileBuilder) : list (option (list bytes) * Z) :=
  map (fun s => (mapM (location_name b) s.1, s.2)) (Samples b).

Record builder_ok (b : ProfileBuilder) : Prop := {
  ok_locations f id : locations b !! f = Some id -> location_name b id = Some f;
  ok_functions f id : functions b !! f = Some id -> exists j, id = S j /\ Function_ b !! j = Some f
}.

(** What was named stays named. *)
Definition extends (b b' : ProfileBuilder) : Prop :=
  Location b `prefix_of` Location b' /\ Function_ b `prefix_of` Function_ b' /\ Samples b' = Samples b /\ Period b' = Period b.

#[export] Instance extends_preorder : PreOrder extends.
Proof.
  split; [by intros b|]. intros b1 b2 b3 (H1 & H2 & H3 & H4) (H5 & H6 & H7 & H8). unfold extends. split_and!; try congruence; by etrans.
Qed.

Lemma extends_name b b' id f : extends b b' -> location_name b id = Some f -> location_name b' id = Some f.
Proof.
  intros (Hl & Hf & _). destruct id as [|i]; [done|]. cbn [location_name]. destruct (Location b !! i) as [[|j]|] eqn:E; try done.
  rewrite (prefix_lookup_Some _ _ _ _ E Hl). intros Hj. by apply (prefix_lookup_Some _ _ _ _ Hj Hf).
Qed.

Lemma addFunction_spec b f :
  builder_ok b ->
  let '(b', id) := addFunction b f in
  builder_ok b' /\ extends b b' /\ locations b' = locations b /\ Location b' = Location b /\ exists j, id = S j /\ Function_ b' !! j = Some f.
Proof.
  intros Hok. unfold addFunction. destruct (functions b !! f) as [id|] eqn:E.
  - split_and!; try done. by apply (ok_functions b Hok).
  - assert (extends b (MkProfileBuilder (locations b) (Location b) (<[f := S (length (Function_ b))]> (functions b)) (Function_ b ++ [f]) (Samples b) (Period b)))
      as Hext by (unfold extends; cbn; split_and!; try done; by exists [f]).
    assert ((Function_ b ++ [f]) !! length (Function_ b) = Some f) as Hf by by rewrite lookup_app_r, Nat.sub_diag by lia.
    split_and!; try done; [|by exists (length (Function_ b))]. split; cbn [locations functions Function_].
    + intros g id Hg. apply (ok_locations b Hok) in Hg. exact (extends_name _ _ _ _ Hext Hg).
    + intros g id. rewrite lookup_insert_Some. intros [[<- <-]|[_ Hg]]; [by exists (length (Function_ b))|].
      apply (ok_functions b Hok) in Hg as (j & -> & Hj). exists j. split; [done|]. by apply lookup_app_l_Some.
Qed.

Lemma addLocation_spec b f :
  builder_ok b -> let '(b', id) := addLocation b f in builder_ok b' /\ extends b b' /\ location_name b' id = Some f.
Proof.
  intros Hok. unfold addLocation. destruct (locations b !! f) as [id|] eqn:E; [split_and!; try done; by apply (ok_locations b Hok)|].
  pose proof (addFunction_spec b f Hok) as Hf. destruct (addFunction b f) as [b1 fid]. destruct Hf as (Hok1 & Hext & Hlocs & Hloc & j & -> & Hj).
  set (b2 := MkProfileBuilder _ _ _ _ _ _).
  assert (extends b1 b2) as Hext2 by (unfold extends, b2; cbn; split_and!; try done; by exists [S j]).
  assert (location_name b2 (S (length (Location b))) = Some f) as Hname.
  { cbn. rewrite Hloc, lookup_app_r, Nat.sub_diag by lia. cbn. exact Hj. }
  split_and!; [|by etrans|done]. split.
  - intros g id. cbn [locations b2]. rewrite lookup_insert_Some. intros [[<- <-]|[_ Hg]]; [done|].
    apply (ok_locations b1 Hok1) in Hg. exact (extends_name _ _ _ _ Hext2 Hg).
  - exact (ok_functions b1 Hok1).
Qed.

Lemma add_stack_spec stack b :
  builder_ok b -> let '(b', ids) := add_stack b stack in builder_ok b' /\ extends b b' /\ mapM (location_name b') ids = Some stack.
Proof.
  revert b. induction stack as [|f stack IH]; intros b Hok; cbn [add_stack]; [done|].
  pose proof (addLocation_spec b f Hok) as H1. destruct (addLocation b f) as [b1 id]. destruct H1 as (Hok1 & Hext1 & Hn).
  pose proof (IH b1 Hok1) as H2. destruct (add_stack b1 stack) as [b2 ids]. destruct H2 as (Hok2 & Hext2 & Hm).
  split_and!; [done|by etrans|]. cbn [mapM]. rewrite (extends_name _ _ _ _ Hext2 Hn). cbn. by rewrite Hm.
Qed.

Lemma extends_decode b b' : extends b b' -> (forall s, s ∈ Samples b -> is_Some (mapM (location_name b) s.1)) -> decode b' = decode b.
Proof.
  intros Hext Hs. unfold decode. destruct Hext as (Hl & Hf & HS & HP). rewrite HS. apply map_ext_in. intros s Hin.
  apply list_elem_of_In in Hin. destruct (Hs s Hin) as [names Hn]. f_equal. rewrite Hn. apply mapM_Some. apply mapM_Some in Hn.
  eapply Forall2_impl; [exact Hn|]. intros id f. apply extends_name. done.
Qed.

(** A sample as a profile says it. *)
Definition said (x : ProfileSample) : option (list bytes) * Z := (Some (s_stack x), s64 (s64 (s_value x) * period)).

Lemma decode_Some b l : decode b = map said l -> forall s, s ∈ Samples b -> is_Some (mapM (location_name b) s.1).
Proof.
  intros E s Hs. assert ((mapM (location_name b) s.1, s.2) ∈ decode b) as Hin by (apply list_elem_of_fmap; by exists s).
  rewrite E in Hin. apply list_elem_of_fmap in Hin as (x & [= -> _] & _). done.
Qed.

Lemma CreateSample_spec b x l :
  builder_ok b -> Period b = period -> decode b = map said l ->
  builder_ok (CreateSample b x) /\ Period (CreateSample b x) = period /\ decode (CreateSample b x) = map said (l ++ [x]).
Proof.
  intros Hok HP Hd. unfold CreateSample. pose proof (add_stack_spec (s_stack x) b Hok) as Hs.
  destruct (add_stack b (s_stack x)) as [b' ids]. destruct Hs as (Hok' & Hext & Hm).
  pose proof (extends_decode b b' Hext (decode_Some b l Hd)) as Hd'. pose proof Hext as (_ & _ & _ & HP').
  split; [|split; [cbn; congruence|]].
  - split; [exact (ok_locations b' Hok')|exact (ok_functions b' Hok')].
  - unfold decode. cbn [Samples]. rewrite !map_app. f_equal; [|cbn [map fst snd]; unfold said; rewrite HP', HP; do 2 f_equal; exact Hm].
    rewrite <-Hd, <-Hd'. done.
Qed.

(** C27: The profiles hold exactly the samples they were made of: each target with samples has one
    profile, and its stacks, read back through the tables of locations and functions that
    they share, are the stacks of the samples in their order, with the count times the
    period of the sampling as CPU time. *)
Theorem profiles_hold_samples xs k :
  match Collect xs !! k with
  | Some b => decode b = map said (List.filter (fun x => labelsHash (s_target x) =? k) xs)
  | None => List.filter (fun x => labelsHash (s_target x) =? k) xs = []
  end.
Proof.
  assert (forall xs k, match Collect xs !! k with
    | Some b => builder_ok b /\ Period b = period /\ decode b = map said (List.filter (fun x => labelsHash (s_target x) =? k) xs)
    | None => List.filter (fun x => labelsHash (s_target x) =? k) xs = []
    end) as H; [|specialize (H xs k); by destruct (Collect xs !! k) as [b|]; [apply H|]].
  clear. intros xs. unfold Collect. induction xs as [|x xs IH] using rev_ind; intros k; [cbn [fold_left]; by rewrite lookup_empty|].
  rewrite fold_left_app, List.filter_app. cbn [fold_left List.filter]. unfold AddSample at 1.
  destruct (Z.eqb_spec (labelsHash (s_target x)) k) as [<-|Hne].
  - rewrite lookup_insert_eq. specialize (IH (labelsHash (s_target x))).
    destruct (fold_left AddSample xs ∅ !! labelsHash (s_target x)) as [b|].
    + destruct IH as (Hok & HP & Hd). by apply CreateSample_spec.
    + rewrite IH. apply (CreateSample_spec (new_builder period) x []); [|done..]. split; intros f id Hf; change ((∅ : gmap bytes nat) !! f = Some id) in Hf; by rewrite lookup_empty in Hf.
  - rewrite lookup_insert_ne by done. rewrite app_nil_r. apply IH.
Qed.

End builders.
End Pprof.
