(* ===== verification/Statsd.v ===== *)
(** * DogStatsD: metrics, their names and their parser

    dogstatsd/types.go, normalize.go, parser.go and mapping.go: the line protocol, the
    normalisation of names and labels, and the series a metric stands for. *)

From Stdlib Require Floats.SpecFloat.
From S2P Require Import Prelude GoLib GoText GoFloat GoUtf8.

Module Statsd.
Import GoText GoFloat GoUtf8.

(** ** types.go *)

Inductive MetricType :=
  | MetricTypeCounter | MetricTypeGauge | MetricTypeTimer | MetricTypeHistogram | MetricTypeSet
  | MetricTypeOther (s : bytes).

#[global] Instance MetricType_eq_dec : EqDecision MetricType.
Proof. solve_decision. Defined.

(** [MetricType(token)] and [string(t)] *)
Definition MetricType_of (token : bytes) : MetricType :=
  if bytes_eqb token (str "c") then MetricTypeCounter
  else if bytes_eqb token (str "g") then MetricTypeGauge
  else if bytes_eqb token (str "ms") then MetricTypeTimer
  else if bytes_eqb token (str "h") then MetricTypeHistogram
  else if bytes_eqb token (str "s") then MetricTypeSet
  else MetricTypeOther token.

Definition MetricType_string (t : MetricType) : bytes :=
  match t with
  | MetricTypeCounter => str "c"
  | MetricTypeGauge => str "g"
  | MetricTypeTimer => str "ms"
  | MetricTypeHistogram => str "h"
  | MetricTypeSet => str "s"
  | MetricTypeOther s => s
  end.

(** A nil map of tags is an empty one; [None] is the zero time. *)
Record Metric := MkMetric {
  Name : bytes; Type_ : MetricType; Value : float64; SetValue : bytes; Relative : bool;
  SampleRate : float64; Tags : gmap bytes bytes; ReceivedAt : option Z
}.

(** Of package prompb *)
Record Label := MkLabel { LabelName : bytes; LabelValue : bytes }.
Record Sample := MkSample { SampleValue : float64; Timestamp : Z }.
Record TimeSeries := MkTimeSeries { Labels : list Label; Samples : list Sample }.

#[global] Instance Label_eq_dec : EqDecision Label.
Proof. solve_decision. Defined.

(** ** normalize.go *)

Definition underscore : Z := 95.
Definition lower_ascii (r : Z) : bool := between 97 r 122 || between 48 r 57 || (r =? underscore).

(** What the loops write for a rune of a text in lower case.  [unicode.ToLower] gives an
    ASCII letter for those in upper case, for U+0130 and for U+212A only. *)
Definition normalize_rune (colon : bool) (r : Z) : Z :=
  let r := if between 65 r 90 then r + 32
           else if r =? 0x130 then 105 else if r =? 0x212a then 107 else r in
  if lower_ascii r || colon && (r =? 58) then r else underscore.

(** [for strings.Contains(s, "__") { s = strings.ReplaceAll(s, "__", "_") }]: a round
    makes the text shorter. *)
Fixpoint collapse (fuel : nat) (s : bytes) : bytes :=
  match fuel with
  | O => s
  | S fuel => if Contains s [underscore; underscore]
              then collapse fuel (ReplaceAll s [underscore; underscore] [underscore]) else s
  end.
Definition collapseUnderscores (s : bytes) : bytes := collapse (length s) s.

(** What [normalizeMetricName] and [normalizeLabelKey] have in common. *)
Definition normalize (colon : bool) (fallback : bytes) (name : bytes) : bytes :=
  let n := TrimSpace name in
  if bytes_eqb n [] then fallback
  else
  let out := collapseUnderscores (map (normalize_rune colon) (runes n)) in
  let out := if forallb (Z.eqb underscore) out then fallback else out in
  match out with
  | c :: _ => if is_digit c then underscore :: out else out
  | [] => out
  end.

Definition normalizeMetricName (name : bytes) : bytes := normalize true (str "unnamed_metric") name.
Definition normalizeLabelKey (key : bytes) : bytes := normalize false (str "label") key.

Definition sanitizeLabelValue (value : bytes) : bytes :=
  let v := TrimSpace (ToValidUTF8 value [0xef; 0xbf; 0xbd]) in
  if bytes_eqb v [] then str "true" else v.

Definition labelsMapToSortedPromLabels (metricName : bytes) (labels : gmap bytes bytes) : list Label :=
  MkLabel (str "__name__") metricName ::
  map (fun k => MkLabel k (default [] (labels !! k))) (sorted_keys labels).

(** ** parser.go *)

(** The errors, by their format. *)
Inductive parse_error :=
  | ErrEmptyLine | ErrMissingColon | ErrNameEmpty | ErrNameTooLong (max : Z) | ErrExpectedValueType
  | ErrValueEmpty | ErrTypeEmpty | ErrInvalidValue (token : bytes) | ErrUnsupportedType (token : bytes)
  | ErrDuplicateRate | ErrSampleRate | ErrDuplicateTags | ErrRateUnsupported (t : MetricType)
  | ErrTagKey (piece : bytes) | ErrTagCollision (key : bytes).

(** A loop that may return an error. *)
Definition result (A : Type) : Type := parse_error + A.

(** One iteration of [parseTags]. *)
Definition add_tag (acc : result (gmap bytes bytes)) (part : bytes) : result (gmap bytes bytes) :=
  match acc with
  | inl e => inl e
  | inr tags =>
      let piece := TrimSpace part in
      if bytes_eqb piece [] then inr tags
      else
      let kv := SplitN 2 piece 58 in
      let key := normalizeLabelKey (hd [] kv) in
      if bytes_eqb key [] || bytes_eqb key (str "label") then inl (ErrTagKey piece)
      else
      let value := match kv with [_; v] => sanitizeLabelValue v | _ => str "true" end in
      match tags !! key with
      | Some _ => inl (ErrTagCollision key)
      | None => inr (<[key := value]> tags)
      end
  end.

Definition parseTags (raw : bytes) : result (gmap bytes bytes) :=
  if bytes_eqb (TrimSpace raw) [] then inr ∅ else foldl add_tag (inr ∅) (Split raw 44).

(** The loop over the sections after the type: [rate] and [tags] are there once they
    were seen. *)
Fixpoint sections (tokens : list bytes) (rate : option float64) (tags : option (gmap bytes bytes))
  : result (option float64 * option (gmap bytes bytes)) :=
  match tokens with
  | [] => inr (rate, tags)
  | raw :: tokens =>
      let token := TrimSpace raw in
      if bytes_eqb token [] then sections tokens rate tags
      else if HasPrefix token (str "@") then
        match rate with
        | Some _ => inl ErrDuplicateRate
        | None =>
            match ParseFloat (TrimPrefix token (str "@")) with
            | None => inl ErrSampleRate
            | Some sr => if IsNaN sr || IsInf sr || fle sr zero || flt one sr then inl ErrSampleRate
                         else sections tokens (Some sr) tags
            end
        end
      else if HasPrefix token (str "#") then
        match tags with
        | Some _ => inl ErrDuplicateTags
        | None => match parseTags (TrimPrefix token (str "#")) with
                  | inl e => inl e
                  | inr ts => sections tokens rate (Some ts)
                  end
        end
      else sections tokens rate tags
  end.

(** The switch on the type: the value, the member of a set, and whether a gauge
    changes relative to what it was. *)
Definition parse_value (t : MetricType) (valueToken typeToken : bytes) : result (float64 * bytes * bool) :=
  match t with
  | MetricTypeCounter | MetricTypeGauge | MetricTypeTimer | MetricTypeHistogram =>
      match ParseFloat valueToken with
      | None => inl (ErrInvalidValue valueToken)
      | Some v =>
          if IsNaN v || IsInf v then inl (ErrInvalidValue valueToken)
          else inr (v, [], bool_decide (t = MetricTypeGauge) &&
                           (HasPrefix valueToken (str "+") || HasPrefix valueToken (str "-")))
      end
  | MetricTypeSet => inr (zero, valueToken, false)
  | MetricTypeOther _ => inl (ErrUnsupportedType typeToken)
  end.

Definition parseLine (line : bytes) (now : Z) (maxMetricNameLength : Z) : result Metric :=
  let trimmed := TrimSpace line in
  if bytes_eqb trimmed [] then inl ErrEmptyLine
  else
  match SplitN 2 trimmed 58 with
  | [rawName; body] =>
      let name := TrimSpace rawName in
      if bytes_eqb name [] then inl ErrNameEmpty
      else if Z.of_nat (length name) >? maxMetricNameLength then inl (ErrNameTooLong maxMetricNameLength)
      else
      match Split body 124 with
      | rawValue :: rawType :: rest =>
          let valueToken := TrimSpace rawValue in
          let typeToken := TrimSpace rawType in
          if bytes_eqb valueToken [] then inl ErrValueEmpty
          else if bytes_eqb typeToken [] then inl ErrTypeEmpty
          else
          let t := MetricType_of typeToken in
          match parse_value t valueToken typeToken with
          | inl e => inl e
          | inr (v, member, relative) =>
              match sections rest None None with
              | inl e => inl e
              | inr (rate, tags) =>
                  let rate := default one rate in
                  if negb (feq rate one) && (bool_decide (t = MetricTypeGauge) || bool_decide (t = MetricTypeSet))
                  then inl (ErrRateUnsupported t)
                  else inr (MkMetric name t v member relative rate (default ∅ tags) (Some now))
              end
          end
      | _ => inl ErrExpectedValueType
      end
  | _ => inl ErrMissingColon
  end.

(** ** mapping.go *)

Inductive mapping_error := ErrCounterRate | ErrUnsupported (t : MetricType) | ErrInvalidSample (name : bytes).

(** [m.ReceivedAt.UnixNano() / int64(1e6)] *)
Definition unix_milli (ns : Z) : Z := Z.quot ns 1000000.

Definition buildRawSeries (m : Metric) (tags : gmap bytes bytes) : mapping_error + TimeSeries :=
  let baseName := normalizeMetricName (Name m) in
  let labels := tags ∪ {[str "is_custom" := str "true"]} in
  let finish suffix value :=
    if IsNaN value || IsInf value then inl (ErrInvalidSample (Name m))
    else inr (MkTimeSeries (labelsMapToSortedPromLabels (baseName ++ str suffix) labels)
                [MkSample value (unix_milli (default 0 (ReceivedAt m)))]) in
  match Type_ m with
  | MetricTypeCounter => if fle (SampleRate m) zero then inl ErrCounterRate
                         else finish "_counter_event"%string (fdiv (Value m) (SampleRate m))
  | MetricTypeGauge => finish "_gauge"%string (Value m)
  | MetricTypeTimer => finish "_timer_ms"%string (Value m)
  | MetricTypeHistogram => finish "_histogram_value"%string (Value m)
  | MetricTypeSet => finish "_set_event"%string one
  | MetricTypeOther _ => inl (ErrUnsupported (Type_ m))
  end.

End Statsd.
