(* ===== verification/StatsdSpec.v ===== *)
(** * DogStatsD: what normalisation and the parser promise

    The grammar of normalised names, that normalising is a projection, what holds of
    every metric the parser accepts, and that a printed line is read back. *)

From Stdlib Require Floats.SpecFloat.
From S2P Require Import Prelude GoLib GoText GoFloat GoUtf8 Statsd.

Module StatsdSpec.
Import GoText GoFloat GoUtf8 Statsd.

(** ** Underscores *)

(** One underscore for every run of them. *)
Definition put (c : Z) (s : bytes) : bytes :=
  if (c =? underscore) && match s with d :: _ => d =? underscore | [] => false end then s else c :: s.
Definition squeeze (s : bytes) : bytes := foldr put [] s.

Lemma put_twice s : put underscore (put underscore s) = put underscore s.
Proof. unfold put. rewrite Z.eqb_refl. cbn [andb]. destruct s as [|d s]; [done|]. by destruct (d =? underscore) eqn:E; rewrite ?E. Qed.

Lemma squeeze_app a b : squeeze (a ++ b) = foldr put (squeeze b) a.
Proof. unfold squeeze. apply foldr_app. Qed.

Lemma Cut_spec s sep a rest : Cut s sep = (a, rest, true) -> s = a ++ sep ++ rest.
Proof.
  unfold Cut. destruct (Index s sep) as [i|] eqn:E; [|done]. intros [= <- <-].
  revert i E. induction s as [|c s IH]; intros i; cbn [Index].
  - destruct (starts_with sep []) eqn:Hs; [|done]. intros [= <-].
    apply starts_with_true in Hs as [t Ht]. symmetry in Ht. apply app_eq_nil in Ht as [-> ->]. done.
  - destruct (starts_with sep (c :: s)) eqn:Hs.
    + intros [= <-]. apply starts_with_true in Hs as [t Ht]. rewrite Ht. cbn. by rewrite drop_app_length.
    + destruct (Index s sep) as [j|]; [|done]. intros [= <-]. cbn. f_equal. by apply IH.
Qed.

Lemma Contains_Cut s sep : Contains s sep = true -> exists a rest, Cut s sep = (a, rest, true).
Proof. unfold Contains, Cut. destruct (Index s sep); [by eauto|done]. Qed.

Abbreviation double := [underscore; underscore].

Lemma squeeze_replace fuel s : squeeze (replace_all fuel s double [underscore]) = squeeze s.
Proof.
  revert s. induction fuel as [|fuel IH]; intros s; cbn [replace_all]; [done|].
  destruct (Cut s double) as [[a rest] []] eqn:E; [|done]. apply Cut_spec in E as ->.
  rewrite !squeeze_app. f_equal. cbn [app squeeze foldr]. fold (squeeze rest).
  change (foldr put [] (replace_all fuel rest double [underscore]))
    with (squeeze (replace_all fuel rest double [underscore])).
  by rewrite IH, put_twice.
Qed.

Lemma replace_shorter fuel s :
  (length (replace_all fuel s double [underscore]) <= length s)%nat /\
  (Contains s double = true -> (0 < fuel)%nat -> (length (replace_all fuel s double [underscore]) < length s)%nat).
Proof.
  revert s. induction fuel as [|fuel IH]; intros s; cbn [replace_all]; [split; [done|lia]|].
  destruct (Cut s double) as [[a rest] []] eqn:E.
  - apply Cut_spec in E as ->. destruct (IH rest) as [Hl _]. rewrite !length_app. cbn [length]. split; intros; lia.
  - split; [done|]. intros (? & ? & Hc)%Contains_Cut. congruence.
Qed.

Lemma squeeze_id s : Contains s double = false -> squeeze s = s.
Proof.
  induction s as [|c s IH]; [done|]. unfold Contains. cbn [Index].
  destruct (starts_with double (c :: s)) eqn:Hs; [done|]. intros Hc.
  change (squeeze (c :: s)) with (put c (squeeze s)).
  rewrite IH by (unfold Contains; by destruct (Index s double)).
  unfold put. destruct s as [|d s]; [by rewrite andb_false_r|]. cbn in Hs. by destruct (c =? underscore), (d =? underscore).
Qed.

Lemma collapseUnderscores_spec s : collapseUnderscores s = squeeze s.
Proof.
  unfold collapseUnderscores. assert (length s <= length s)%nat as Hf by lia. revert Hf.
  generalize (length s) at 2 3 as fuel. intros fuel. revert s.
  induction fuel as [|fuel IH]; intros s Hf; cbn [collapse].
  - destruct s; [done|cbn in Hf; lia].
  - destruct (Contains s double) eqn:E; [|by rewrite squeeze_id].
    rewrite IH; [apply squeeze_replace|].
    destruct (replace_shorter (length s) s) as [_ Hl]. unfold ReplaceAll.
    destruct s; [done|]. specialize (Hl E ltac:(cbn; lia)). lia.
Qed.

Lemma put_idem c s : squeeze s = s -> squeeze (put c s) = put c s.
Proof.
  intros Hs. unfold put at 1 2. destruct (c =? underscore) eqn:E; cbn [andb].
  - destruct s as [|d s]; [cbn; unfold put; by rewrite andb_false_r|].
    destruct (d =? underscore) eqn:Ed; [done|].
    change (squeeze (c :: d :: s)) with (put c (squeeze (d :: s))). rewrite Hs. unfold put. by rewrite E, Ed.
  - change (squeeze (c :: s)) with (put c (squeeze s)). rewrite Hs. unfold put. by rewrite E.
Qed.

Lemma squeeze_idem s : squeeze (squeeze s) = squeeze s.
Proof. induction s as [|c s IH]; [done|]. by apply (put_idem c (squeeze s)). Qed.

Lemma squeeze_Forall (P : Z -> Prop) s : Forall P s -> Forall P (squeeze s).
Proof.
  induction 1 as [|c s Hc _ IH]; [constructor|]. change (squeeze (c :: s)) with (put c (squeeze s)).
  unfold put. case_match; [done|by constructor].
Qed.

(** ** ASCII text *)

Definition graphic (b : Z) : bool := between 33 b 126.

Lemma trim_left_none fuel ws s : (forall w, In w ws -> starts_with w s = false) -> trim_left fuel ws s = s.
Proof.
  intros Hw. destruct fuel as [|fuel]; [done|]. cbn [trim_left].
  destruct (List.find _ ws) as [w|] eqn:E; [|done].
  apply find_some in E as [Hin E]. by rewrite (Hw w Hin) in E.
Qed.

(** Nothing to trim at an end that is a graphic character. *)
Lemma trim_left_graphic fuel ws b s :
  forallb (fun w => match w with c :: _ => negb (graphic c) | [] => false end) ws = true ->
  graphic b = true -> trim_left fuel ws (b :: s) = b :: s.
Proof.
  intros Hws Hb. apply trim_left_none. intros w Hw. rewrite forallb_forall in Hws. specialize (Hws w Hw).
  destruct w as [|c w]; [done|]. cbn. destruct (Z.eqb_spec b c) as [->|]; [|done]. by rewrite Hb in Hws.
Qed.

Lemma TrimSpace_graphic s :
  (forall b, head s = Some b -> graphic b = true) -> (forall b, head (rev s) = Some b -> graphic b = true) ->
  TrimSpace s = s.
Proof.
  intros Hh Hl. unfold TrimSpace.
  assert (trim_left (length s) white_space s = s) as ->.
  { destruct s as [|b s]; [done|]. apply trim_left_graphic; [by vm_compute|by apply Hh]. }
  destruct (rev s) as [|b t] eqn:E.
  - assert (s = []) as -> by (by rewrite <-(rev_involutive s), E). done.
  - rewrite trim_left_graphic; [|by vm_compute|by apply Hl]. by rewrite <-E, rev_involutive.
Qed.

Lemma TrimSpace_all_graphic s : Forall (fun b => graphic b = true) s -> TrimSpace s = s.
Proof.
  intros Hs. apply TrimSpace_graphic; intros b Hb.
  - destruct s; [done|]. injection Hb as ->. by inversion Hs.
  - apply (Forall_rev) in Hs. destruct (rev s); [done|]. injection Hb as ->. by inversion Hs.
Qed.

Lemma runes_ascii s : Forall (fun b => 0 <= b < 128) s -> runes s = s.
Proof.
  unfold runes. induction 1 as [|b s Hb _ IH]; [done|]. cbn [length runes_from DecodeRune].
  destruct (Z.ltb_spec b 128); [|lia]. change (drop 1 (b :: s)) with s. by rewrite IH.
Qed.

(** ** Normalised names *)

(** The grammar of Prometheus for the names of labels (with [colon], of metrics), in
    lower case, without repeated underscores and with more than underscores. *)
Definition name_char (colon : bool) (c : Z) : bool := lower_ascii c || colon && (c =? 58).

Record name_ok (colon : bool) (s : bytes) : Prop := NameOk {
  no_chars : Forall (fun c => name_char colon c = true) s;
  no_start : match s with c :: _ => is_digit c = false | [] => False end;
  no_single : squeeze s = s;
  no_blank : forallb (Z.eqb underscore) s = false
}.

Lemma name_char_range colon c : name_char colon c = true -> graphic c = true /\ 0 <= c < 128.
Proof. unfold name_char, lower_ascii, graphic, between, underscore. destruct colon; lia. Qed.

Lemma normalize_rune_char colon r : name_char colon (normalize_rune colon r) = true.
Proof.
  unfold normalize_rune. cbv zeta. case_match eqn:E; [done|]. by destruct colon.
Qed.

Lemma normalize_rune_id colon c : name_char colon c = true -> normalize_rune colon c = c.
Proof.
  intros Hc. unfold normalize_rune, name_char in *. destruct (between 65 c 90) eqn:E.
  { exfalso. unfold lower_ascii, between, underscore in *. destruct colon; lia. }
  destruct (Z.eqb_spec c 0x130) as [->|]; [by destruct colon|].
  destruct (Z.eqb_spec c 0x212a) as [->|]; [by destruct colon|]. cbv zeta. by rewrite Hc.
Qed.

Lemma normalize_ok colon fallback name : name_ok colon fallback -> name_ok colon (normalize colon fallback name).
Proof.
  intros Hf. unfold normalize. cbv zeta. case_match; [done|]. rewrite collapseUnderscores_spec.
  set (out := squeeze _). assert (Forall (fun c => name_char colon c = true) out) as Ho.
  { apply squeeze_Forall, Forall_forall. intros c (r & -> & _)%list_elem_of_fmap. apply normalize_rune_char. }
  assert (squeeze out = out) as Hs by apply squeeze_idem.
  destruct (forallb (Z.eqb underscore) out) eqn:Hb.
  { destruct Hf as [Hc Hst Hsq Hbl]. destruct fallback as [|c fallback]; [done|]. by rewrite Hst. }
  clearbody out. destruct out as [|c out]; [done|]. destruct (is_digit c) eqn:Hd; [|by split].
  split; [by constructor| | |].
  - done.
  - change (squeeze (underscore :: c :: out)) with (put underscore (squeeze (c :: out))). rewrite Hs.
    unfold put. unfold is_digit, underscore in *. case_match eqn:E; [lia|done].
  - cbn [forallb]. by rewrite Z.eqb_refl.
Qed.

Lemma normalize_id colon fallback s : name_ok colon s -> normalize colon fallback s = s.
Proof.
  intros [Hc Hst Hsq Hbl]. unfold normalize. rewrite TrimSpace_all_graphic.
  2: { eapply Forall_impl; [exact Hc|]. intros c Hch. by apply (name_char_range colon). }
  destruct s as [|c s]; [done|]. unfold bytes_eqb. rewrite bool_decide_eq_false_2 by done. cbv zeta.
  rewrite runes_ascii by (eapply Forall_impl; [exact Hc|]; intros d Hd; by apply (name_char_range colon)).
  rewrite collapseUnderscores_spec.
  replace (map (normalize_rune colon) (c :: s)) with (c :: s); [by rewrite Hsq, Hbl, Hst|].
  symmetry. transitivity (map id (c :: s)); [|apply map_id]. apply map_ext_Forall.
  eapply Forall_impl; [exact Hc|]. apply normalize_rune_id.
Qed.

Lemma label_ok : name_ok false (str "label").
Proof. split; [by repeat constructor|done..]. Qed.
Lemma unnamed_ok : name_ok true (str "unnamed_metric").
Proof. split; [by repeat constructor|done..]. Qed.

Lemma normalizeLabelKey_ok key : name_ok false (normalizeLabelKey key).
Proof. apply normalize_ok, label_ok. Qed.
Lemma normalizeMetricName_ok name : name_ok true (normalizeMetricName name).
Proof. apply normalize_ok, unnamed_ok. Qed.

(** ** Values *)

Definition value_ok (v : bytes) : Prop := v <> [] /\ Forall utf8_byte v.

Lemma trim_left_suffix fuel ws s : exists a, s = a ++ trim_left fuel ws s.
Proof.
  revert s. induction fuel as [|fuel IH]; intros s; cbn [trim_left]; [by exists []|].
  destruct (List.find (fun w => starts_with w s) ws) as [w|]; [|by exists []].
  destruct (IH (drop (length w) s)) as [a Ha]. exists (take (length w) s ++ a).
  by rewrite <-app_assoc, <-Ha, take_drop.
Qed.

Lemma TrimSpace_Forall (P : Z -> Prop) s : Forall P s -> Forall P (TrimSpace s).
Proof.
  intros Hs. unfold TrimSpace.
  destruct (trim_left_suffix (length s) white_space s) as [a Ha]. rewrite Ha in Hs. apply Forall_app in Hs as [_ Hs].
  set (t := trim_left _ white_space s) in *.
  destruct (trim_left_suffix (length t) (map (@rev Z) white_space) (rev t)) as [b Hb].
  apply Forall_rev in Hs. rewrite Hb in Hs. apply Forall_app in Hs as [_ Hs]. by apply Forall_rev.
Qed.

Lemma sanitizeLabelValue_ok v : bytes_ok v -> value_ok (sanitizeLabelValue v).
Proof.
  intros Hv. unfold sanitizeLabelValue, bytes_eqb. cbv zeta. case_bool_decide as E; [by repeat constructor|].
  split; [done|]. apply TrimSpace_Forall, ToValidUTF8_bytes; [done|]. by repeat constructor.
Qed.

Lemma to_valid_ascii fuel inv s rep :
  Forall (fun b => 0 <= b < 128) s -> (length s <= fuel)%nat -> to_valid fuel inv s rep = s.
Proof.
  intros Hs. revert fuel inv. induction Hs as [|b s Hb _ IH]; intros [|fuel] inv Hf; cbn [length] in Hf; try done; [lia|].
  cbn [to_valid]. unfold invalid_at. cbn [DecodeRune]. destruct (Z.ltb_spec b 128); [|lia]. cbn [negb andb snd take app].
  change (drop 1 (b :: s)) with s. rewrite IH by lia. done.
Qed.

Lemma graphic_ascii s : Forall (fun b => graphic b = true) s -> Forall (fun b => 0 <= b < 128) s.
Proof. intros Hs. eapply Forall_impl; [exact Hs|]. unfold graphic, between. intros. cbn in *. lia. Qed.

Lemma sanitizeLabelValue_id v : Forall (fun b => graphic b = true) v -> v <> [] -> sanitizeLabelValue v = v.
Proof.
  intros Hv Hne. unfold sanitizeLabelValue, ToValidUTF8.
  rewrite to_valid_ascii by (by apply graphic_ascii || done). rewrite TrimSpace_all_graphic by done.
  unfold bytes_eqb. by rewrite bool_decide_eq_false_2.
Qed.

(** ** Accepted metrics *)

Definition is_inl {A B} (x : A + B) : bool := match x with inl _ => true | inr _ => false end.

Definition tags_ok (tags : gmap bytes bytes) : Prop :=
  map_Forall (fun k v => name_ok false k /\ value_ok v) tags.

Definition rate_ok (r : float64) : Prop := finite r = true /\ fle r zero = false /\ flt one r = false.

Record metric_ok (max : Z) (m : Metric) : Prop := MetricOk {
  mo_name : Name m <> [] /\ Z.of_nat (length (Name m)) <= max;
  mo_type : forall s, Type_ m <> MetricTypeOther s;
  mo_value : finite (Value m) = true;
  mo_rate : rate_ok (SampleRate m);
  mo_whole : Type_ m = MetricTypeGauge \/ Type_ m = MetricTypeSet -> feq (SampleRate m) one = true;
  mo_relative : Relative m = true -> Type_ m = MetricTypeGauge;
  mo_tags : tags_ok (Tags m)
}.

Lemma bytes_ok_sub s t : bytes_ok t -> (forall b, b ∈ s -> b ∈ t) -> bytes_ok s.
Proof. unfold bytes_ok. rewrite !Forall_forall. auto. Qed.

Lemma Split_Forall (P : Z -> Prop) s c : Forall P s -> Forall (Forall P) (Split s c).
Proof.
  induction 1 as [|b s Hb Hs IH]; cbn [Split]; [by repeat constructor|].
  destruct (b =? c); [by constructor|]. destruct (Split s c) as [|w ws]; [by repeat constructor|].
  inversion IH; subst. by repeat constructor.
Qed.

Lemma Cut_Forall (P : Z -> Prop) s sep a rest b : Cut s sep = (a, rest, b) -> Forall P s -> Forall P a /\ Forall P rest.
Proof.
  unfold Cut. destruct (Index s sep); intros [= <- <- <-] Hs; [by auto using Forall_take, Forall_drop|by auto].
Qed.

Lemma SplitN2_Forall (P : Z -> Prop) s c : Forall P s -> Forall (Forall P) (SplitN 2 s c).
Proof.
  intros Hs. cbn [SplitN]. destruct (Cut s [c]) as [[a rest] []] eqn:E; [|by repeat constructor].
  apply (Cut_Forall P) in E as [Ha Hr]; [|done]. by repeat constructor.
Qed.

Lemma add_tag_ok tags part tags' :
  bytes_ok part -> tags_ok tags -> add_tag (inr tags) part = inr tags' -> tags_ok tags'.
Proof.
  intros Hp Ht. cbn [add_tag]. cbv zeta. case_match; [by intros [= <-]|].
  assert (Forall bytes_ok (SplitN 2 (TrimSpace part) 58)) as Hkv by by apply SplitN2_Forall, TrimSpace_Forall.
  set (kv := SplitN 2 (TrimSpace part) 58) in *. clearbody kv.
  case_match; [done|]. destruct (tags !! _); [done|]. intros [= <-]. apply map_Forall_insert_2; [|done].
  split; [apply normalizeLabelKey_ok|]. destruct kv as [|k [|v [|]]]; try (by repeat constructor).
  apply sanitizeLabelValue_ok. apply Forall_cons in Hkv as [_ Hkv]. by apply Forall_cons in Hkv as [? _].
Qed.

Lemma parseTags_ok raw tags : bytes_ok raw -> parseTags raw = inr tags -> tags_ok tags.
Proof.
  intros Hr. unfold parseTags. case_match; [intros [= <-]; apply map_Forall_empty|].
  assert (tags_ok ∅) as H0 by apply map_Forall_empty. revert H0. generalize (∅ : gmap bytes bytes) as acc.
  pose proof (Split_Forall _ raw 44 Hr) as Hs. induction Hs as [|part parts Hp _ IH]; intros acc Ha; cbn [foldl].
  - by intros [= <-].
  - destruct (add_tag (inr acc) part) as [e|acc'] eqn:E; [|by eapply IH, add_tag_ok].
    clear. intros E. exfalso. revert e E. induction parts as [|p ps IH]; intros e; [done|]. apply IH.
Qed.

Lemma sections_ok tokens rate tags rate' tags' :
  Forall bytes_ok tokens -> (forall r, rate = Some r -> rate_ok r) -> (forall t, tags = Some t -> tags_ok t) ->
  sections tokens rate tags = inr (rate', tags') ->
  (forall r, rate' = Some r -> rate_ok r) /\ (forall t, tags' = Some t -> tags_ok t).
Proof.
  intros Htok. revert rate tags. induction Htok as [|raw tokens Hraw _ IH]; intros rate tags Hr Ht; cbn [sections].
  { by intros [= <- <-]. }
  cbv zeta. case_match; [by apply IH|]. case_match; [|case_match; [|by apply IH]].
  - destruct rate; [done|]. destruct (ParseFloat _) as [sr|]; [|done].
    case_match eqn:E; [done|]. apply IH; [|done]. intros r [= <-].
    rewrite !orb_false_iff in E. destruct E as [[[En Ei] El] Eg]. unfold rate_ok, finite. by rewrite En, Ei.
  - destruct tags; [done|]. destruct (parseTags _) as [|ts] eqn:E; [done|]. apply IH; [done|].
    intros t [= <-]. eapply parseTags_ok, E. unfold TrimPrefix. case_match; [apply Forall_drop|]; by apply TrimSpace_Forall.
Qed.

(** What the parser lets through can be aggregated and sent: the name of an accepted
    metric is there and not too long, its type is one of the five, its value is a
    finite number, its sample rate is in (0, 1] and is 1 for gauges and sets, only a
    gauge is relative, and its tags have names of the grammar of Prometheus and
    values that are not empty and hold no byte foreign to UTF-8. *)
Lemma parseLine_accepts line now max m :
  bytes_ok line -> parseLine line now max = inr m -> metric_ok max m.
Proof.
  intros Hl. unfold parseLine. cbv zeta. case_match; [done|].
  assert (Forall bytes_ok (SplitN 2 (TrimSpace line) 58)) as Hs by by apply SplitN2_Forall, TrimSpace_Forall.
  destruct (SplitN 2 (TrimSpace line) 58) as [|rawName [|body []]]; try done.
  apply Forall_cons in Hs as [_ Hs]. apply Forall_cons in Hs as [Hbody _].
  unfold bytes_eqb. case_bool_decide; [done|]. case_match eqn:Hlen; [done|].
  pose proof (Split_Forall _ body 124 Hbody) as Hparts.
  destruct (Split body 124) as [|rawValue [|rawType rest]]; try done.
  apply Forall_cons in Hparts as [_ Hparts]. apply Forall_cons in Hparts as [_ Hrest].
  case_bool_decide; [done|]. case_bool_decide; [done|].
  destruct (parse_value _ _ _) as [|[[v member] relative]] eqn:Ev; [done|].
  destruct (sections rest None None) as [|[rate tags]] eqn:Es; [done|].
  apply sections_ok in Es as [Hr Ht]; [|done..]. case_match eqn:Ew; [done|]. intros [= <-].
  assert (forall s, MetricType_of (TrimSpace rawType) <> MetricTypeOther s) as Hty.
  { intros s E. by rewrite E in Ev. }
  split; cbn [Name Type_ Value SampleRate Relative Tags].
  - split; [done|lia].
  - done.
  - unfold parse_value in Ev. unfold finite. destruct (MetricType_of _); try done;
      [..|by injection Ev as <- <- <-]; destruct (ParseFloat _) as [x|]; try done;
      destruct (IsNaN x || IsInf x) eqn:E; try done; injection Ev as <- <- <-;
      apply orb_false_iff in E as [-> ->]; done.
  - destruct rate; [by apply Hr|done].
  - intros Hgs. apply andb_false_iff in Ew as [Ew%negb_false_iff|Ew]; [done|].
    by destruct Hgs as [E|E]; rewrite E in Ew.
  - unfold parse_value in Ev. intros ->. destruct (MetricType_of _); try done; try congruence; exfalso;
      destruct (ParseFloat _) as [x|]; try done; destruct (IsNaN x || IsInf x); try done;
      injection Ev as _ _ Er; by apply andb_true_iff in Er as [Er%bool_decide_eq_true _].
  - destruct tags; [by apply Ht|apply map_Forall_empty].
Qed.

(** ** A printed line *)

Abbreviation word := (Forall (fun b => graphic b = true)).
Abbreviation free c := (Forall (fun b => b <> c)).

Lemma Split_Join l c : l <> [] -> Forall (free c) l -> Split (Join l [c]) c = l.
Proof.
  intros Hne Hl. induction Hl as [|s l Hs Hl IH]; [done|]. destruct l as [|s' l]; [by apply Split_none|].
  change (Join (s :: s' :: l) [c]) with (s ++ c :: Join (s' :: l) [c]). rewrite Split_app by done. by rewrite IH.
Qed.

Lemma SplitN2_app s c rest : free c s -> SplitN 2 (s ++ c :: rest) c = [s; rest].
Proof. intros Hs. cbn [SplitN]. by rewrite Cut_app. Qed.

(** A line as a client writes it: the sections after the type are a sample rate, tags with
    or without a value, or extensions the agent does not know. *)
Inductive section :=
| rate_section (token : bytes) (r : float64)
| tags_section (tags : list (bytes * option bytes))
| other_section (token : bytes).

Definition print_tag (kv : bytes * option bytes) : bytes :=
  kv.1 ++ match kv.2 with Some v => 58 :: v | None => [] end.

Definition print_section (s : section) : bytes :=
  match s with
  | rate_section token _ => 64 :: token
  | tags_section tags => 35 :: Join (map print_tag tags) [44]
  | other_section token => token
  end.

Definition print_line (name value type : bytes) (l : list section) : bytes :=
  name ++ 58 :: Join (value :: type :: map print_section l) [124].

(** The label a tag becomes: letters in lower case, an underscore for a run of anything
    else but digits, and one before a digit that would come first. *)
Definition label_char (c : Z) : Z :=
  if between 65 c 90 then c + 32 else if between 97 c 122 || between 48 c 57 then c else 95.
Definition label_name (key : bytes) : bytes :=
  let s := squeeze (map label_char key) in
  match s with c :: _ => if between 48 c 57 then 95 :: s else s | [] => s end.
Definition label_value (v : option bytes) : bytes :=
  match v with Some (c :: v) => c :: v | _ => str "true" end.
Definition label_of (kv : bytes * option bytes) : bytes * bytes := (label_name kv.1, label_value kv.2).

Definition rates (l : list section) : list float64 :=
  omap (fun s => match s with rate_section _ r => Some r | _ => None end) l.
Definition tag_lists (l : list section) : list (list (bytes * option bytes)) :=
  omap (fun s => match s with tags_section tags => Some tags | _ => None end) l.

Definition alphanumeric (c : Z) : Prop := between 65 c 90 || between 97 c 122 || between 48 c 57 = true.

Definition tag_ok (kv : bytes * option bytes) : Prop :=
  word kv.1 /\ free 44 kv.1 /\ free 58 kv.1 /\ free 124 kv.1 /\ Exists alphanumeric kv.1 /\
  label_name kv.1 <> str "label" /\ from_option (fun v => word v /\ free 44 v /\ free 124 v) True kv.2.

Definition section_ok (s : section) : Prop :=
  match s with
  | rate_section token r => word token /\ free 124 token /\ ParseFloat token = Some r /\ rate_ok r
  | tags_section tags => Forall tag_ok tags /\ NoDup (map label_of tags).*1
  | other_section token => word token /\ free 124 token /\ head token <> Some 64 /\ head token <> Some 35
  end.

Lemma squeeze_elem c s : c ∈ s -> c ∈ squeeze s.
Proof.
  induction s as [|d s IH]; [done|]. change (squeeze (d :: s)) with (put d (squeeze s)). unfold put.
  intros [->|Hc]%elem_of_cons.
  - destruct (d =? underscore) eqn:E; cbn [andb]; [|by left]. destruct (squeeze s) as [|e t]; [by left|].
    destruct (e =? underscore) eqn:E'; [|by left]. apply Z.eqb_eq in E, E'. subst. by left.
  - case_match; [by apply IH|]. right. by apply IH.
Qed.

Lemma normalize_rune_label c : 0 <= c < 128 -> normalize_rune false c = label_char c.
Proof.
  intros Hc. unfold normalize_rune, label_char, lower_ascii, underscore.
  destruct (between 65 c 90) eqn:E.
  - cbn [andb]. rewrite orb_false_r. unfold between in *.
    destruct (Z.leb_spec 97 (c + 32)); [|lia]. by destruct (Z.leb_spec (c + 32) 122); [|lia].
  - destruct (Z.eqb_spec c 304); [lia|]. destruct (Z.eqb_spec c 8490); [lia|]. cbn [andb]. rewrite orb_false_r.
    destruct (Z.eqb_spec c 95) as [->|]; [done|]. by rewrite orb_false_r.
Qed.

Lemma normalizeLabelKey_label key :
  word key -> Exists alphanumeric key -> normalizeLabelKey key = label_name key /\ label_name key <> [].
Proof.
  intros Hw Ha. apply Exists_exists in Ha as (c & Hc & Ha).
  assert (Forall (fun b => 0 <= b < 128) key) as Hr by by apply graphic_ascii.
  assert (map (normalize_rune false) (runes key) = map label_char key) as Hm.
  { rewrite runes_ascii by done. apply map_ext_Forall. eapply Forall_impl; [exact Hr|]. apply normalize_rune_label. }
  assert (label_char c ∈ squeeze (map label_char key)) as Hin by by apply squeeze_elem, list_elem_of_fmap_2.
  assert (forallb (Z.eqb underscore) (squeeze (map label_char key)) = false) as Hb.
  { apply not_true_iff_false. rewrite forallb_forall. intros H. apply list_elem_of_In, H in Hin.
    apply Z.eqb_eq in Hin. unfold alphanumeric, label_char, between, underscore in *. repeat case_match; lia. }
  unfold normalizeLabelKey, normalize, label_name. rewrite TrimSpace_all_graphic by done.
  unfold bytes_eqb. rewrite bool_decide_eq_false_2 by (intros ->; by apply not_elem_of_nil in Hc).
  cbv zeta. rewrite Hm, collapseUnderscores_spec, Hb.
  destruct (squeeze (map label_char key)) as [|d t]; [by apply not_elem_of_nil in Hin|].
  change (is_digit d) with (between 48 d 57). by destruct (between 48 d 57).
Qed.

Lemma print_tag_word kv :
  tag_ok kv -> word (print_tag kv) /\ free 44 (print_tag kv) /\ free 124 (print_tag kv) /\ print_tag kv <> [].
Proof.
  destruct kv as [k v]. intros (Hk & H44 & _ & H124 & Ha & _ & Hv). unfold print_tag. cbn [fst snd] in *.
  rewrite !Forall_app. assert (k <> []) by (intros ->; by apply Exists_nil in Ha).
  destruct v as [v|]; cbn [from_option] in Hv; rewrite ?Forall_cons; split_and!; try done; try apply Hv.
  all: by destruct k.
Qed.

Lemma add_tag_print tags kv :
  tag_ok kv -> tags !! (label_of kv).1 = None ->
  add_tag (inr tags) (print_tag kv) = inr (<[(label_of kv).1 := (label_of kv).2]> tags).
Proof.
  intros Hok Hn. destruct (print_tag_word kv Hok) as (Hw & _ & _ & Hne).
  destruct kv as [k v]. destruct Hok as (Hk & _ & H58 & _ & Ha & Hl & Hv). cbn [fst snd label_of] in *.
  destruct (normalizeLabelKey_label k Hk Ha) as [Hkey Hkne].
  cbn [add_tag]. rewrite TrimSpace_all_graphic by done. unfold bytes_eqb. rewrite bool_decide_eq_false_2 by done.
  cbv zeta. assert (hd [] (SplitN 2 (print_tag (k, v)) 58) = k /\
    match SplitN 2 (print_tag (k, v)) 58 with [_; v] => sanitizeLabelValue v | _ => str "true" end = label_value v)
    as [-> ->].
  { unfold print_tag. cbn [fst snd]. destruct v as [v|]; cbn [from_option] in Hv.
    - rewrite SplitN2_app by done. split; [done|]. destruct v as [|c v]; [done|]. apply sanitizeLabelValue_id; [apply Hv|done].
    - rewrite app_nil_r. cbn [SplitN]. by rewrite Cut_none. }
  rewrite Hkey, !bool_decide_eq_false_2 by done. cbn [orb]. by rewrite Hn.
Qed.

Lemma add_tags_print tags acc :
  Forall tag_ok tags -> NoDup (map label_of tags).*1 -> (forall k, k ∈ (map label_of tags).*1 -> acc !! k = None) ->
  foldl add_tag (inr acc) (map print_tag tags) = inr (list_to_map (map label_of tags) ∪ acc).
Proof.
  intros Hok. revert acc. induction Hok as [|kv tags Hkv _ IH]; intros acc Hnd Hacc.
  { cbn. by rewrite map_empty_union. }
  cbn [map foldl fmap list_fmap] in *. apply NoDup_cons in Hnd as [Hnot Hnd].
  rewrite add_tag_print; [|done|apply Hacc; by left]. rewrite IH; [|done|].
  - f_equal. destruct (label_of kv) as [k v]. cbn [list_to_map foldr uncurry fst snd] in *.
    rewrite <-insert_union_l. symmetry. apply insert_union_r.
    by apply not_elem_of_list_to_map_1.
  - intros k Hk. rewrite lookup_insert_ne by (intros E; by rewrite E in Hnot). apply Hacc. by right.
Qed.

Lemma Join_Forall (P : Z -> Prop) l c : P c -> Forall (Forall P) l -> Forall P (Join l [c]).
Proof.
  intros Hc Hl. induction Hl as [|x l Hx Hl IH]; [constructor|]. destruct l; [done|].
  cbn [Join] in *. rewrite !Forall_app, Forall_singleton. done.
Qed.

Lemma print_section_word s : section_ok s -> word (print_section s) /\ free 124 (print_section s).
Proof.
  destruct s as [token r|tags|token]; cbn [section_ok print_section]; rewrite ?Forall_cons.
  - intros (? & ? & _). done.
  - intros [Htags _]. split; (split; [done|]); apply Join_Forall; try done; apply Forall_fmap;
      (eapply Forall_impl; [exact Htags|]); intros kv Hkv; by apply print_tag_word.
  - by intros (? & ? & _).
Qed.

Lemma parseTags_print tags :
  Forall tag_ok tags -> NoDup (map label_of tags).*1 ->
  parseTags (Join (map print_tag tags) [44]) = inr (list_to_map (map label_of tags)).
Proof.
  intros Hok Hnd. pose proof (print_section_word (tags_section tags) (conj Hok Hnd)) as [Hw _].
  cbn [print_section] in Hw. apply Forall_cons in Hw as [_ Hw].
  unfold parseTags. rewrite TrimSpace_all_graphic by done. unfold bytes_eqb.
  destruct tags as [|kv tags]; [done|]. rewrite bool_decide_eq_false_2.
  - rewrite Split_Join; [|done|].
    + by rewrite add_tags_print, map_union_empty.
    + apply Forall_fmap. eapply Forall_impl; [exact Hok|]. intros kv' Hkv. by apply print_tag_word.
  - inversion Hok as [|? ? Hkv _]; subst. destruct (print_tag_word kv Hkv) as (_ & _ & _ & Hne).
    cbn [map]. destruct (print_tag kv); [done|]. by destruct (map _ tags).
Qed.

Definition labels_of (tags : list (bytes * option bytes)) : gmap bytes bytes := list_to_map (map label_of tags).

(** The loop over the sections reads the rate and the tags. *)
Lemma sections_print (l : list section) (rate : option float64) (tags : option (gmap bytes bytes)) :
  Forall section_ok l -> (length (rates l) + (if rate is Some _ then 1 else 0) <= 1)%nat ->
  (length (tag_lists l) + (if tags is Some _ then 1 else 0) <= 1)%nat ->
  sections (map print_section l) rate tags =
  inr (match rate with Some r => Some r | None => head (rates l) end,
       match tags with Some t => Some t | None => labels_of <$> head (tag_lists l) end).
Proof.
  intros Hl. revert rate tags. induction Hl as [|s l Hs _ IH]; intros rate tags Hr Ht.
  { by destruct rate, tags. }
  destruct (print_section_word s Hs) as [Hw _]. cbn [map sections]. rewrite TrimSpace_all_graphic by done.
  destruct s as [token r|ts|token]; cbn [section_ok print_section] in *.
  - destruct Hs as (_ & _ & Hp & Hfin & Hpos & Hone). unfold finite in Hfin.
    apply andb_true_iff in Hfin as [Hnan%negb_true_iff Hinf%negb_true_iff].
    change (rates (rate_section token r :: l)) with (r :: rates l) in *.
    change (tag_lists (rate_section token r :: l)) with (tag_lists l) in *. cbn [length head] in *.
    destruct rate; [lia|]. change (bytes_eqb (64 :: token) []) with false.
    change (HasPrefix (64 :: token) (str "@")) with true.
    change (TrimPrefix (64 :: token) (str "@")) with token. rewrite Hp, Hnan, Hinf, Hpos, Hone. cbn [orb].
    by rewrite IH by (cbn; lia).
  - destruct Hs as [Hok Hnd]. set (raw := Join (map print_tag ts) [44]) in *.
    change (rates (tags_section ts :: l)) with (rates l) in *.
    change (tag_lists (tags_section ts :: l)) with (ts :: tag_lists l) in *. cbn [length head] in *.
    destruct tags; [lia|]. change (bytes_eqb (35 :: raw) []) with false.
    change (HasPrefix (35 :: raw) (str "@")) with false.
    change (HasPrefix (35 :: raw) (str "#")) with true. change (TrimPrefix (35 :: raw) (str "#")) with raw.
    unfold raw. rewrite parseTags_print by done. by rewrite IH by (cbn; lia).
  - destruct Hs as (_ & _ & H64 & H35). change (rates (other_section token :: l)) with (rates l) in *.
    change (tag_lists (other_section token :: l)) with (tag_lists l) in *. rewrite IH by done.
    destruct token as [|c token]; [done|]. cbn in H64, H35.
    assert (HasPrefix (c :: token) (str "@") = false /\ HasPrefix (c :: token) (str "#") = false) as [-> ->]; [|done].
    unfold HasPrefix. cbn. rewrite !andb_true_r, !Z.eqb_neq.
    split; intros ->; done.
Qed.

(** The value of a line, by its type. *)
Lemma parse_value_printed t value type v :
  (forall s, t <> MetricTypeOther s) -> (t <> MetricTypeSet -> ParseFloat value = Some v /\ finite v = true) ->
  let is_set := bool_decide (t = MetricTypeSet) in
  parse_value t value type =
  inr (if is_set then zero else v, if is_set then value else [],
       bool_decide (t = MetricTypeGauge /\ (head value = Some 43 \/ head value = Some 45))).
Proof.
  intros Hother Hpv is_set. unfold parse_value.
  destruct (decide (t = MetricTypeSet)) as [->|Hs]; [done|].
  destruct (Hpv Hs) as [-> Hfin]. unfold finite in Hfin.
  apply andb_true_iff in Hfin as [->%negb_true_iff ->%negb_true_iff]. cbn [orb].
  destruct t as [| | | | |s]; try done; [|by destruct (Hother s)].
  unfold is_set. do 2 f_equal. rewrite bool_decide_eq_true_2 by done. cbn [andb].
  destruct value as [|c value]; [done|]. unfold HasPrefix. cbn. rewrite !andb_true_r.
  apply eq_bool_prop_intro. rewrite orb_True, !Is_true_true, !Z.eqb_eq, bool_decide_eq_true.
  split; [by intros [-> | ->]; auto|]. by intros [_ [[= ->] | [= ->]]]; auto.
Qed.

(** C38: a line of the protocol is read as it was written, for each of the five types, with the
    sections after the type in any order and none of them required: the name, the type, the
    number (for a set the member; for a gauge whether it is signed and so relative), the sample
    rate (1 if there is none), and every tag, under the label its key is normalised to (lower
    case, underscores for what is neither letter nor digit) and with its value, true if it has none;
    extensions are ignored.  The line is of graphic ASCII characters, the number and the rate are
    what strconv.ParseFloat accepts, gauges and sets have rate 1, each section occurs once at most, no two keys
    have one label, and each key has a letter or digit and is not the word label, which
    the parser refuses. *)
Theorem parseLine_printed name value t l now max v :
  word name -> free 58 name -> name <> [] -> Z.of_nat (length name) <= max ->
  word value -> free 124 value -> value <> [] ->
  (forall s, t <> MetricTypeOther s) ->
  (t <> MetricTypeSet -> ParseFloat value = Some v /\ finite v = true) ->
  Forall section_ok l -> (length (rates l) <= 1)%nat -> (length (tag_lists l) <= 1)%nat ->
  (t = MetricTypeGauge \/ t = MetricTypeSet -> feq (default one (head (rates l))) one = true) ->
  let is_set := bool_decide (t = MetricTypeSet) in
  parseLine (print_line name value (MetricType_string t) l) now max =
  inr (MkMetric name t (if is_set then zero else v) (if is_set then value else [])
         (bool_decide (t = MetricTypeGauge /\ (head value = Some 43 \/ head value = Some 45)))
         (default one (head (rates l))) (labels_of (default [] (head (tag_lists l)))) (Some now)).
Proof.
  intros Hn Hnf Hne Hmax Hv Hvf Hvne Hother Hpv Hl Hr1 Ht1 Hone is_set.
  set (type := MetricType_string t).
  assert (word type /\ free 124 type /\ type <> [] /\ MetricType_of type = t) as (Htyw & Htyf & Htyne & Hty).
  { subst type. by destruct t as [| | | | |s]; [repeat constructor..|destruct (Hother s)]. }
  assert (Forall (fun s => word s /\ free 124 s) (value :: type :: map print_section l)) as Hparts.
  { do 2 (apply Forall_cons_2; [done|]). apply Forall_fmap. eapply Forall_impl; [exact Hl|]. apply print_section_word. }
  unfold parseLine, print_line. rewrite TrimSpace_all_graphic.
  2: { rewrite Forall_app, Forall_cons. split_and!; [done..|]. apply Join_Forall; [done|].
       eapply Forall_impl; [exact Hparts|]. by intros ? []. }
  unfold bytes_eqb. rewrite bool_decide_eq_false_2 by (by destruct name). rewrite SplitN2_app by done.
  rewrite (TrimSpace_all_graphic name), bool_decide_eq_false_2 by done.
  destruct (Z.gtb_spec (Z.of_nat (length name)) max); [lia|].
  rewrite Split_Join; [|done|eapply Forall_impl; [exact Hparts|]; by intros ? []].
  rewrite (TrimSpace_all_graphic value), (TrimSpace_all_graphic type) by done.
  rewrite !bool_decide_eq_false_2 by done. cbv zeta. rewrite Hty.
  rewrite sections_print by (done || (cbn; lia)).
  rewrite (parse_value_printed t value type v) by done.
  assert (negb (feq (default one (head (rates l))) one) &&
    (bool_decide (t = MetricTypeGauge) || bool_decide (t = MetricTypeSet)) = false) as ->.
  { destruct t; rewrite ?andb_false_r; try done; by rewrite Hone by auto. }
  by destruct (head (tag_lists l)).
Qed.

Lemma parseLine_printed_witness :
  let tags := [(str "Env", Some (str "prod")); (str "k8s.io/Zone", Some (str "eu-1")); (str "canary", None)] in
  parseLine (print_line (str "latency") (str "12.5") (str "ms")
      [other_section (str "c:abc"); tags_section tags; rate_section (str "0.5") (fdiv one (of_int 2))]) 1000 255 =
  inr (MkMetric (str "latency") MetricTypeTimer (fdiv (of_int 25) (of_int 2)) [] false (fdiv one (of_int 2))
         (list_to_map [(str "env", str "prod"); (str "k8s_io_zone", str "eu-1"); (str "canary", str "true")]) (Some 1000)) /\
  parseLine (print_line (str "queue") (str "-2") (str "g") []) 1000 255 =
  inr (MkMetric (str "queue") MetricTypeGauge (of_int (-2)) [] true one ∅ (Some 1000)).
Proof.
  intros tags.
  assert (Forall tag_ok tags) as Ht.
  { unfold tags. repeat (apply Forall_cons_2; [split_and!; try (by repeat constructor); try (by apply Exists_cons_hd);
      by apply (bool_decide_eq_false _)|]). constructor. }
  set (l := [other_section (str "c:abc"); tags_section tags; rate_section (str "0.5") (fdiv one (of_int 2))]).
  assert (Forall section_ok l) as Hl.
  { apply Forall_cons_2; [by split_and!; [repeat constructor..|done|done]|].
    apply Forall_cons_2; [split; [exact Ht|]; by apply (bool_decide_eq_true_1 _); vm_compute|].
    apply Forall_singleton. by split_and!; [repeat constructor..|vm_compute|split_and!]. }
  assert (forall t, t = MetricTypeTimer \/ t = MetricTypeGauge -> forall s, t <> MetricTypeOther s) as Hother
    by by intros t [-> | ->].
  split.
  - change (str "ms") with (MetricType_string MetricTypeTimer).
    rewrite (parseLine_printed (str "latency") (str "12.5") MetricTypeTimer l 1000 255 (fdiv (of_int 25) (of_int 2)));
      [by vm_compute|by repeat constructor|by repeat constructor|done|done|by repeat constructor|by repeat constructor
      |done|by apply Hother; left|intros _; by vm_compute|exact Hl|done|done|by intros []].
  - change (str "g") with (MetricType_string MetricTypeGauge).
    rewrite (parseLine_printed (str "queue") (str "-2") MetricTypeGauge [] 1000 255 (of_int (-2)));
      [by vm_compute|by repeat constructor|by repeat constructor|done|done|by repeat constructor|by repeat constructor
      |done|by apply Hother; right|intros _; by vm_compute|constructor|cbn; lia|cbn; lia|intros _; by vm_compute].
Defined.

End StatsdSpec.
