(* ===== verification/StatsdPolicy.v ===== *)
(** * DogStatsD: limits

    dogstatsd/safeguards.go (the policy on tags and the limit on active series),
    buffer.go (the buffer of raw series) and pressure.go (sustained saturation). *)

From S2P Require Import Prelude GoLib GoText GoFloat GoUtf8 Statsd.

Module StatsdPolicy.
Import GoText GoFloat GoUtf8 Statsd.

(** ** The policy on tags *)

Definition reservedLabelKeys : list bytes :=
  [str "__name__"; str "is_custom"; str "statsd_type"; str "instance"; str "job"; str "machine_id";
   str "system_uuid"; str "tenant_id"; str "project_id"].

Record tagDropStats := MkTagDropStats {
  BlockedKeys : Z; MaxKeyLength : Z; MaxValueLength : Z; DroppedTags_ : Z
}.

Record tagPolicy := MkTagPolicy {
  blockedKeys : gset bytes; maxTagsPerMetric : Z; maxTagKeyLength : Z; maxTagValueLength : Z
}.

Definition newTagPolicy (blocklistCSV : bytes) (maxTags maxKey maxValue : Z) : tagPolicy :=
  let block (blocked : gset bytes) raw :=
    let key := normalizeLabelKey raw in
    if negb (bytes_eqb key []) && negb (bytes_eqb key (str "label")) then {[key]} ∪ blocked else blocked in
  MkTagPolicy (foldl block ∅ (Split blocklistCSV 44 ++ reservedLabelKeys)) maxTags maxKey maxValue.

(** One iteration of the loop of [Apply]. *)
Definition apply_tag (p : tagPolicy) (tags : gmap bytes bytes) (acc : gmap bytes bytes * tagDropStats)
  (rawKey : bytes) : gmap bytes bytes * tagDropStats :=
  let '(filtered, MkTagDropStats b k v m) := acc in
  let key := normalizeLabelKey rawKey in
  if decide (key ∈ blockedKeys p) then (filtered, MkTagDropStats (b + 1) k v m)
  else if Z.of_nat (length key) >? maxTagKeyLength p then (filtered, MkTagDropStats b (k + 1) v m)
  else
  let value := sanitizeLabelValue (default [] (tags !! rawKey)) in
  if Z.of_nat (length value) >? maxTagValueLength p then (filtered, MkTagDropStats b k (v + 1) m)
  else if Z.of_nat (size filtered) >=? maxTagsPerMetric p then (filtered, MkTagDropStats b k v (m + 1))
  else (<[key := value]> filtered, MkTagDropStats b k v m).

Definition Apply (p : tagPolicy) (tags : gmap bytes bytes) : gmap bytes bytes * tagDropStats :=
  foldl (apply_tag p tags) (∅, MkTagDropStats 0 0 0 0) (sorted_keys tags).

(** ** The limit on active series *)

Record seriesLimiter := MkSeriesLimiter {
  perMetricCap : Z; globalCap : Z; ttl : Z; lastPrune : option Z;
  byMetric : gmap bytes (gmap bytes Z); total : Z
}.

Definition newSeriesLimiter (perMetric global ttl : Z) : seriesLimiter :=
  MkSeriesLimiter perMetric global ttl None ∅ 0.

Definition labelValue (labels : list Label) (name : bytes) : bytes :=
  match List.find (fun l => bytes_eqb (LabelName l) name) labels with
  | Some l => LabelValue l
  | None => []
  end.

Definition seriesFingerprint (labels : list Label) : bytes :=
  concat (map (fun l => LabelName l ++ [61] ++ LabelValue l ++ [255]) labels).

(** A series last seen before [cutoff]. *)
Definition stale_series (cutoff : Z) (seen : Z) : bool := seen <? cutoff.

Definition pruneExpiredLocked (now : Z) (l : seriesLimiter) : seriesLimiter :=
  let cutoff := now - ttl l in
  let gone := msum (fun _ ms => Z.of_nat (size (filter (fun fs => stale_series cutoff fs.2) ms))) (byMetric l) in
  let kept := omap (fun ms => let ms := filter (fun fs => negb (stale_series cutoff fs.2)) ms in
                              if decide (ms = ∅) then None else Some ms) (byMetric l) in
  MkSeriesLimiter (perMetricCap l) (globalCap l) (ttl l) (Some now) kept (total l - gone).

(** [time.Minute] *)
Definition minute : Z := 60 * 1000000000.

Definition set_series (name fingerprint : bytes) (now n : Z) (l : seriesLimiter) : seriesLimiter :=
  MkSeriesLimiter (perMetricCap l) (globalCap l) (ttl l) (lastPrune l)
    (<[name := <[fingerprint := now]> (default ∅ (byMetric l !! name))]> (byMetric l)) n.

Inductive refusal := SeriesCapMetric | SeriesCapGlobal.

(** Whether the series is allowed, or why not. *)
Definition Allow (labels : list Label) (now : Z) (l : seriesLimiter) : option refusal * seriesLimiter :=
  let metricName := labelValue labels (str "__name__") in
  let metricName := if bytes_eqb metricName [] then str "unnamed_metric" else metricName in
  let fingerprint := seriesFingerprint labels in
  match default ∅ (byMetric l !! metricName) !! fingerprint with
  | Some _ => (None, set_series metricName fingerprint now (total l) l)
  | None =>
      let pruneEvery := Z.min (Z.quot (ttl l) 10) minute in
      let due := match lastPrune l with None => true | Some t => now - t >=? pruneEvery end in
      let l := if (pruneEvery <=? 0) || due || (total l >=? globalCap l) then pruneExpiredLocked now l else l in
      let metricSeries := default ∅ (byMetric l !! metricName) in
      if Z.of_nat (size metricSeries) >=? perMetricCap l then (Some SeriesCapMetric, l)
      else if total l >=? globalCap l then (Some SeriesCapGlobal, l)
      else (None, set_series metricName fingerprint now (total l + 1) l)
  end.

(** ** The buffer *)

Section buffer.
Context {A : Type}.

Record seriesBuffer := MkSeriesBuffer { bufferMax : nat; queued : list A; inflight : list A }.

Definition newSeriesBuffer (max : nat) : seriesBuffer := MkSeriesBuffer max [] [].

(** The buffer, the number dropped and the size. *)
Definition Enqueue (x : A) (b : seriesBuffer) : seriesBuffer * nat * nat :=
  if (bufferMax b <=? length (inflight b) + length (queued b))%nat then
    match queued b with
    | [] => (b, 1%nat, bufferMax b)
    | _ :: q => let q := q ++ [x] in
                (MkSeriesBuffer (bufferMax b) q (inflight b), 1%nat, (length (inflight b) + length q)%nat)
    end
  else let q := queued b ++ [x] in
       (MkSeriesBuffer (bufferMax b) q (inflight b), O, (length (inflight b) + length q)%nat).

Definition Snapshot (max : Z) (b : seriesBuffer) : seriesBuffer * list A :=
  if max <=? 0 then (b, [])
  else
  match inflight b with
  | _ :: _ => (b, inflight b)
  | [] => match queued b with
          | [] => (b, [])
          | _ :: _ => let n := Nat.min (Z.to_nat max) (length (queued b)) in
                      let i := take n (queued b) in
                      (MkSeriesBuffer (bufferMax b) (drop n (queued b)) i, i)
          end
  end.

(** [count] of a snapshot, which is not negative; what is left is returned. *)
Definition Commit (count : nat) (b : seriesBuffer) : seriesBuffer * nat :=
  let i := drop (Nat.min count (length (inflight b))) (inflight b) in
  (MkSeriesBuffer (bufferMax b) (queued b) i, (length i + length (queued b))%nat).

End buffer.
Arguments seriesBuffer : clear implicits.

(** ** Sustained saturation *)

Record pressureState := MkPressureState { threshold : float64; duration : Z; since : option Z }.

Definition newPressureState (threshold : float64) (duration : Z) : pressureState :=
  MkPressureState threshold duration None.

Definition Observe (utilization : float64) (now : Z) (p : pressureState) : bool * pressureState :=
  if flt utilization (threshold p) then (false, MkPressureState (threshold p) (duration p) None)
  else
  let since := default now (since p) in
  (now - since >=? duration p, MkPressureState (threshold p) (duration p) (Some since)).

End StatsdPolicy.
