(* ===== verification/StatsdPolicySpec.v ===== *)
(** * DogStatsD: what the limits promise

    The tags a policy keeps, the number of series the limiter tracks, the order and the
    bound of the buffer, and when saturation is reported. *)

From S2P Require Import Prelude GoLib GoText GoFloat GoUtf8 Statsd StatsdSpec StatsdPolicy.

Module StatsdPolicySpec.
Import GoText GoFloat GoUtf8 Statsd StatsdSpec StatsdPolicy.

(** ** Tags *)

Definition tag_value (tags : gmap bytes bytes) (k : bytes) : bytes := sanitizeLabelValue (default [] (tags !! k)).

(** Why a tag is not even a candidate. *)
Definition blocked (p : tagPolicy) (k : bytes) : bool := bool_decide (k ∈ blockedKeys p).
Definition long_key (p : tagPolicy) (k : bytes) : bool :=
  negb (blocked p k) && (Z.of_nat (length k) >? maxTagKeyLength p).
Definition long_value (p : tagPolicy) tags (k : bytes) : bool :=
  negb (blocked p k) && negb (long_key p k) && (Z.of_nat (length (tag_value tags k)) >? maxTagValueLength p).
Definition permitted (p : tagPolicy) tags (k : bytes) : bool :=
  negb (blocked p k) && negb (long_key p k) && negb (long_value p tags k).

(** The number of keys with a property. *)
Definition count (f : bytes -> bool) (ks : list bytes) : Z := Z.of_nat (length (List.filter f ks)).

Lemma count_cons f k ks : count f (k :: ks) = (if f k then 1 else 0) + count f ks.
Proof. unfold count. cbn [List.filter]. destruct (f k); cbn [length]; lia. Qed.

Definition pairs (tags : gmap bytes bytes) (ks : list bytes) : gmap bytes bytes :=
  list_to_map (map (fun k => (k, tag_value tags k)) ks).

Lemma pairs_keys tags ks : (map (fun k => (k, tag_value tags k)) ks).*1 = ks.
Proof. induction ks as [|k ks IH]; cbn; [done|]. by rewrite IH. Qed.

Lemma pairs_snoc tags ks k :
  k ∉ ks -> pairs tags (ks ++ [k]) = <[k := tag_value tags k]> (pairs tags ks).
Proof.
  intros Hk. unfold pairs. rewrite map_app, list_to_map_app. cbn [map list_to_map foldr uncurry].
  rewrite <-insert_union_r; [by rewrite map_union_empty|]. apply not_elem_of_list_to_map_1. by rewrite pairs_keys.
Qed.

Lemma size_pairs tags ks : NoDup ks -> size (pairs tags ks) = length ks.
Proof.
  intros Hnd. unfold pairs. rewrite <-length_map_to_list, map_to_list_to_map.
  - by rewrite length_map.
  - by rewrite pairs_keys.
Qed.

(** The loop after the keys [done], when no key changes by being normalised. *)
Definition policy_state (p : tagPolicy) (tags : gmap bytes bytes) (ks : list bytes)
  : gmap bytes bytes * tagDropStats :=
  let ok := List.filter (permitted p tags) ks in
  let n := Z.to_nat (maxTagsPerMetric p) in
  (pairs tags (take n ok),
   MkTagDropStats (count (blocked p) ks) (count (long_key p) ks) (count (long_value p tags) ks)
     (Z.of_nat (length (drop n ok)))).

Lemma count_snoc f ks k : count f (ks ++ [k]) = count f ks + (if f k then 1 else 0).
Proof. unfold count. rewrite List.filter_app, length_app. cbn [List.filter]. destruct (f k); cbn [length]; lia. Qed.

Lemma apply_tag_state p tags ks k :
  0 <= maxTagsPerMetric p -> name_ok false k -> NoDup (ks ++ [k]) ->
  apply_tag p tags (policy_state p tags ks) k = policy_state p tags (ks ++ [k]).
Proof.
  intros Hmax Hk Hnd. unfold policy_state, apply_tag. rewrite !count_snoc, !List.filter_app. cbn [List.filter].
  unfold normalizeLabelKey. rewrite normalize_id by done. fold (tag_value tags k).
  set (ok := List.filter (permitted p tags) ks). set (n := Z.to_nat (maxTagsPerMetric p)).
  assert (NoDup ok /\ k ∉ ok) as [Hno Hnk].
  { apply NoDup_app in Hnd as (Hn & Hd & _). unfold ok. split; [by apply NoDup_ListNoDup, List.NoDup_filter, NoDup_ListNoDup|].
    intros Hin. apply (Hd k); [|by left]. apply list_elem_of_In, List.filter_In in Hin as [Hin _].
    by apply list_elem_of_In. }
  assert (size (pairs tags (take n ok)) = Nat.min n (length ok)) as Hsize.
  { rewrite size_pairs by (eapply sublist_NoDup; [done|apply sublist_take]). apply length_take. }
  unfold permitted, long_value, long_key, blocked.
  case_decide as Hb; [rewrite bool_decide_eq_true_2 by done|rewrite bool_decide_eq_false_2 by done];
    cbn [negb andb]; [by rewrite app_nil_r, !Z.add_0_r|].
  destruct (Z.of_nat (length k) >? maxTagKeyLength p) eqn:Hkl; cbn [negb andb]; [by rewrite app_nil_r, !Z.add_0_r|].
  destruct (Z.of_nat (length (tag_value tags k)) >? maxTagValueLength p) eqn:Hvl; cbn [negb andb];
    [by rewrite app_nil_r, !Z.add_0_r|].
  rewrite !Z.add_0_r, Hsize. destruct (Z.geb_spec (Z.of_nat (Nat.min n (length ok))) (maxTagsPerMetric p)).
  - rewrite take_app_le, drop_app_le by lia. rewrite length_app. cbn [length]. do 2 f_equal. lia.
  - rewrite !take_ge, !drop_ge by (rewrite ?length_app; cbn [length]; lia). by rewrite pairs_snoc.
Qed.

Lemma apply_tags_state p tags done rest :
  0 <= maxTagsPerMetric p -> Forall (name_ok false) rest -> NoDup (done ++ rest) ->
  foldl (apply_tag p tags) (policy_state p tags done) rest = policy_state p tags (done ++ rest).
Proof.
  intros Hmax Hr. revert done. induction Hr as [|k rest Hk _ IH]; intros done Hnd; cbn [foldl]; [by rewrite app_nil_r|].
  assert (NoDup ((done ++ [k]) ++ rest)) as Hnd' by by rewrite <-app_assoc.
  rewrite apply_tag_state, IH, <-app_assoc; try done. by apply NoDup_app in Hnd' as (? & _).
Qed.

(** Of the tags of a parsed metric the policy keeps, in the order of their names and
    up to the limit, those that are not blocked and not too long, and counts every
    other one under the first reason that applies. *)
Lemma Apply_spec p tags :
  0 <= maxTagsPerMetric p -> tags_ok tags -> Apply p tags = policy_state p tags (sorted_keys tags).
Proof.
  intros Hmax Ht. unfold Apply. 
  assert ((∅, MkTagDropStats 0 0 0 0) = policy_state p tags []) as ->.
  { unfold policy_state. cbn [List.filter]. by rewrite take_nil, drop_nil. }
  apply (apply_tags_state p tags [] (sorted_keys tags)); [done| |apply sorted_keys_NoDup].
  apply Forall_forall. intros k [v Hv]%sorted_keys_elem. by apply Ht in Hv as [? _].
Qed.

(** The keys a policy blocks: those of the list and the reserved ones, normalised. *)
Lemma newTagPolicy_blocked csv a b c raw :
  raw ∈ Split csv 44 ++ reservedLabelKeys -> normalizeLabelKey raw <> [] -> normalizeLabelKey raw <> str "label" ->
  normalizeLabelKey raw ∈ blockedKeys (newTagPolicy csv a b c).
Proof.
  intros Hin Hne Hnl. unfold newTagPolicy. cbn [blockedKeys]. generalize (∅ : gset bytes). revert Hin.
  set (block := fun (blocked : gset bytes) raw => _).
  assert (forall l s, normalizeLabelKey raw ∈ s -> normalizeLabelKey raw ∈ foldl block s l) as Hmono.
  { induction l as [|x l IH]; intros s Hs; cbn [foldl]; [done|]. apply IH. unfold block. case_match; set_solver. }
  induction (Split csv 44 ++ reservedLabelKeys) as [|x l IH]; intros Hin s; [by apply elem_of_nil in Hin|].
  cbn [foldl]. apply elem_of_cons in Hin as [<- | Hin]; [|by apply IH]. apply Hmono. unfold block.
  unfold bytes_eqb. rewrite !bool_decide_eq_false_2 by done. cbn. set_solver.
Qed.

Lemma pairs_lookup tags ks k v : pairs tags ks !! k = Some v -> k ∈ ks /\ v = tag_value tags k.
Proof.
  intros Hk. apply elem_of_list_to_map_2, list_elem_of_fmap in Hk as (k' & [= -> ->] & Hin). done.
Qed.

(** What is kept. *)
Lemma Apply_kept p tags k v :
  0 <= maxTagsPerMetric p -> tags_ok tags -> (Apply p tags).1 !! k = Some v ->
  is_Some (tags !! k) /\ v = tag_value tags k /\ permitted p tags k = true.
Proof.
  intros Hmax Ht. rewrite Apply_spec by done. cbn [fst policy_state]. intros [Hk ->]%pairs_lookup.
  assert (k ∈ List.filter (permitted p tags) (sorted_keys tags)) as Hf.
  { apply list_elem_of_lookup in Hk as [i Hi]. apply lookup_take_Some in Hi as [Hi _]. by eapply list_elem_of_lookup_2. }
  apply list_elem_of_In, List.filter_In in Hf as [Hin Hp]. split_and!; [|done|done]. by apply sorted_keys_elem, list_elem_of_In.
Qed.

Lemma Apply_tags_ok p tags : 0 <= maxTagsPerMetric p -> tags_ok tags -> tags_ok (Apply p tags).1.
Proof.
  intros Hmax Ht k v Hk. apply Apply_kept in Hk as ([v' Hv'] & -> & _); [|done..]. destruct (Ht _ _ Hv') as [Hn Hv]. split; [done|].
  unfold tag_value. unfold bytes in *. rewrite Hv'. apply sanitizeLabelValue_ok. eapply Forall_impl; [apply Hv|]. unfold utf8_byte. cbn. lia.
Qed.

(** No reserved label gets through the policy: a tag that is kept was a tag of the
    metric, its name is neither in the list of blocked names nor one of the labels the
    agent sets itself, its name and value are not too long, and there are at most as
    many of them as allowed. *)
Theorem Apply_safe csv maxTags maxKey maxValue tags :
  0 <= maxTags -> tags_ok tags ->
  let kept := (Apply (newTagPolicy csv maxTags maxKey maxValue) tags).1 in
  Z.of_nat (size kept) <= maxTags /\
  map_Forall (fun k v => is_Some (tags !! k) /\ Z.of_nat (length k) <= maxKey /\ Z.of_nat (length v) <= maxValue /\
    forall raw, raw ∈ Split csv 44 ++ reservedLabelKeys -> normalizeLabelKey raw <> str "label" -> k <> normalizeLabelKey raw) kept.
Proof.
  intros Hmax Ht kept. set (p := newTagPolicy csv maxTags maxKey maxValue) in *. split.
  - unfold kept. rewrite Apply_spec by done. cbn [fst policy_state]. rewrite size_pairs.
    + rewrite length_take. cbn [maxTagsPerMetric p newTagPolicy]. lia.
    + eapply sublist_NoDup; [|apply sublist_take]. apply NoDup_ListNoDup, List.NoDup_filter, NoDup_ListNoDup, sorted_keys_NoDup.
  - intros k v Hk. destruct (Apply_kept p tags k v Hmax Ht Hk) as (Hs & -> & Hp). split_and!; [done| | |].
    + unfold permitted, long_key in Hp. destruct (blocked p k); [done|]. cbn [negb andb] in Hp.
      destruct (Z.gtb_spec (Z.of_nat (length k)) (maxTagKeyLength p)); [done|done].
    + unfold permitted, long_value in Hp. destruct (blocked p k); [done|]. destruct (long_key p k); [done|]. cbn [negb andb] in Hp.
      by destruct (Z.gtb_spec (Z.of_nat (length (tag_value tags k))) (maxTagValueLength p)).
    + intros raw Hraw Hl ->. destruct Hs as [v Hv]. apply Ht in Hv as [Hn _].
      assert (blocked p (normalizeLabelKey raw) = true) as Hb.
      { apply bool_decide_eq_true, newTagPolicy_blocked; [done| |done]. intros E. rewrite E in Hn. by destruct Hn. }
      unfold permitted in Hp. by rewrite Hb in Hp.
Qed.

Lemma Apply_safe_witness :
  let tags : gmap bytes bytes := {[str "secret" := str "x"; str "zone" := str "b"; str "app" := str "a"]} in
  let kept := (Apply (newTagPolicy (str "secret") 1 20 20) tags).1 in
  Z.of_nat (size kept) <= 1 /\ map_to_list kept = [(str "app", str "a")].
Proof.
  intros tags kept. split; [|vm_compute; reflexivity].
  destruct (Apply_safe (str "secret") 1 20 20 tags) as [H _]; [lia| |exact H].
  unfold tags. intros k v Hkv.
  repeat (apply lookup_insert_Some in Hkv as [[<- <-] | [_ Hkv]]; [by repeat constructor|]).
  apply lookup_singleton_Some in Hkv as [<- <-]. by repeat constructor.
Defined.

(** ** Series *)

Definition series_count (m : gmap bytes (gmap bytes Z)) : Z := msum (fun _ ms => Z.of_nat (size ms)) m.

Record limiter_ok (l : seriesLimiter) : Prop := LimiterOk {
  lo_total : total l = series_count (byMetric l);
  lo_metric : map_Forall (fun _ ms => ms <> ∅ /\ Z.of_nat (size ms) <= perMetricCap l) (byMetric l);
  lo_global : total l <= globalCap l
}.

(** When the series [fp] of the metric [name] was last seen. *)
Definition tracked (l : seriesLimiter) (name fp : bytes) : option Z := default ∅ (byMetric l !! name) !! fp.

Definition fresh_part (cutoff : Z) (ms : gmap bytes Z) : gmap bytes Z :=
  filter (fun fs => negb (stale_series cutoff fs.2)) ms.

Lemma size_split (cutoff : Z) (ms : gmap bytes Z) :
  Z.of_nat (size ms) =
  Z.of_nat (size (filter (fun fs => stale_series cutoff fs.2) ms)) + Z.of_nat (size (fresh_part cutoff ms)).
Proof.
  assert (forall m : gmap bytes Z, Z.of_nat (size m) = msum (fun _ _ => 1) m) as Hs.
  { induction m as [|k x m Hk IH] using map_ind; [done|]. rewrite map_size_insert_None, msum_insert by done. lia. }
  rewrite !Hs. apply (msum_filter (fun _ _ => 1) (fun fs => stale_series cutoff fs.2)).
Qed.

Lemma prune_count now l :
  series_count (byMetric (pruneExpiredLocked now l)) =
  series_count (byMetric l) -
  msum (fun _ ms => Z.of_nat (size (filter (fun fs => stale_series (now - ttl l) fs.2) ms))) (byMetric l).
Proof.
  unfold pruneExpiredLocked, series_count. cbn [byMetric]. fold (fresh_part (now - ttl l)).
  induction (byMetric l) as [|k ms m Hk IH] using map_ind; [by rewrite omap_empty, !msum_empty|].
  rewrite !msum_insert by done. pose proof (size_split (now - ttl l) ms) as Hsp. unfold fresh_part in *.
  rewrite omap_insert. case_decide as Hd.
  - rewrite delete_id by (by rewrite lookup_omap, Hk). rewrite Hd, map_size_empty in Hsp. lia.
  - rewrite msum_insert by (by rewrite lookup_omap, Hk). lia.
Qed.

Lemma prune_lookup now l name :
  byMetric (pruneExpiredLocked now l) !! name =
  ms ← byMetric l !! name; let ms := fresh_part (now - ttl l) ms in if decide (ms = ∅) then None else Some ms.
Proof. unfold pruneExpiredLocked. cbn [byMetric]. by rewrite lookup_omap. Qed.

Lemma prune_tracked now l name fp :
  tracked (pruneExpiredLocked now l) name fp =
  t ← tracked l name fp; if stale_series (now - ttl l) t then None else Some t.
Proof.
  unfold tracked. rewrite prune_lookup. destruct (byMetric l !! name) as [ms|]; cbn; [|by rewrite lookup_empty].
  assert (default ∅ (if decide (fresh_part (now - ttl l) ms = ∅) then None else Some (fresh_part (now - ttl l) ms))
          = fresh_part (now - ttl l) ms) as -> by (by case_decide).
  unfold fresh_part. rewrite map_lookup_filter. destruct (ms !! fp) as [t|]; cbn; [|done].
  by destruct (stale_series _ t).
Qed.

Lemma prune_ok now l : limiter_ok l -> limiter_ok (pruneExpiredLocked now l).
Proof.
  intros [Ht Hm Hg]. split.
  - rewrite prune_count. unfold pruneExpiredLocked. cbn [total]. lia.
  - intros name ms. rewrite prune_lookup. destruct (byMetric l !! name) as [ms0|] eqn:E; [|done]. cbn.
    case_decide as Hd; [done|]. intros [= <-]. split; [done|]. apply Hm in E as [_ Hs].
    pose proof (size_split (now - ttl l) ms0) as Hsp. lia.
  - unfold pruneExpiredLocked. cbn [total globalCap].
    enough (0 <= msum (fun _ ms => Z.of_nat (size (filter (fun fs => stale_series (now - ttl l) fs.2) ms))) (byMetric l)) by lia.
    apply msum_nonneg. intros. lia.
Qed.

(** A series of a metric is added, or seen again. *)
Lemma set_series_ok name fp now n l :
  limiter_ok l -> n <= globalCap l ->
  (tracked l name fp = None -> n = total l + 1 /\ Z.of_nat (size (default ∅ (byMetric l !! name))) < perMetricCap l) ->
  (tracked l name fp <> None -> n = total l) ->
  limiter_ok (set_series name fp now n l).
Proof.
  intros [Ht Hm Hg] Hn Hnew Hold. unfold tracked in *. set (ms := default ∅ (byMetric l !! name)) in *.
  assert (Z.of_nat (size (<[fp := now]> ms)) = Z.of_nat (size ms) + (n - total l) /\
          Z.of_nat (size (<[fp := now]> ms)) <= perMetricCap l) as [Hsz Hcap].
  { destruct (ms !! fp) as [t|] eqn:Efp.
    - rewrite map_size_insert_Some by done. rewrite Hold by done. split; [lia|]. subst ms.
      destruct (byMetric l !! name) as [ms|] eqn:E; [|done]. cbn. by apply Hm in E as [_ ?].
    - rewrite map_size_insert_None by done. destruct Hnew as [-> Hlt]; [done|]. lia. }
  split; cbn [total byMetric perMetricCap globalCap set_series]; fold ms; [| |done].
  - unfold series_count. destruct (byMetric l !! name) as [ms'|] eqn:E; subst ms; cbn [default] in *; unfold id in *.
    + rewrite (msum_replace _ _ name ms') by done. unfold series_count in Ht. cbv beta. lia.
    + rewrite msum_insert by done. unfold series_count in Ht. rewrite map_size_empty in Hsz. cbv beta. lia.
  - apply map_Forall_insert_2; [|done]. split; [apply insert_non_empty|done].
Qed.

Lemma set_series_tracked name fp now n l name' fp' :
  tracked (set_series name fp now n l) name' fp' =
  if decide (name' = name /\ fp' = fp) then Some now else tracked l name' fp'.
Proof.
  unfold tracked, set_series. cbn [byMetric]. destruct (decide (name' = name)) as [-> |Hn].
  - rewrite lookup_insert_eq. cbn [default]. unfold id. destruct (decide (fp' = fp)) as [-> |Hf].
    + by rewrite lookup_insert_eq, decide_True.
    + rewrite lookup_insert_ne by done. rewrite decide_False by (by intros [_ ?]). done.
  - rewrite lookup_insert_ne by done. by rewrite decide_False by (by intros [? _]).
Qed.

Definition series_name (labels : list Label) : bytes :=
  let n := labelValue labels (str "__name__") in if bytes_eqb n [] then str "unnamed_metric" else n.

(** The limiter tracks no more series than its caps allow.  A series it tracks is let
    through and seen again; a new one is let through unless its metric has reached
    its cap, or the global cap is reached by series that were all seen within the
    time to live; and no series is forgotten that was seen within it. *)
Lemma Allow_post labels now l :
  limiter_ok l ->
  let name := series_name labels in
  let fp := seriesFingerprint labels in
  let '(res, l') := Allow labels now l in
  limiter_ok l' /\
  (tracked l name fp <> None -> res = None) /\
  (res = None -> tracked l' name fp = Some now) /\
  (res = Some SeriesCapMetric -> Z.of_nat (size (default ∅ (byMetric l' !! name))) >= perMetricCap l) /\
  (res = Some SeriesCapGlobal -> total l' = globalCap l /\
     forall name' fp' t, tracked l' name' fp' = Some t -> now - ttl l <= t) /\
  (forall name' fp' t, (name', fp') <> (name, fp) -> tracked l name' fp' = Some t ->
     tracked l' name' fp' = Some t \/ t < now - ttl l).
Proof.
  intros Hok name fp. unfold Allow. fold name. fold fp. fold (tracked l name fp).
  change (if bytes_eqb (labelValue labels (str "__name__")) [] then _ else _) with name.
  change (default ∅ (byMetric l !! name) !! fp) with (tracked l name fp).
  destruct (tracked l name fp) as [t|] eqn:Et.
  { split_and!; try done.
    - apply set_series_ok; [done|apply Hok|by rewrite Et|done].
    - intros _. rewrite set_series_tracked. by rewrite decide_True.
    - intros name' fp' t' Hne Ht'. left. rewrite set_series_tracked, decide_False; [done|]. by intros [-> ->]. }
  cbv zeta. set (pruned := if _ || (total l >=? globalCap l) then _ else _).
  assert (limiter_ok pruned /\ perMetricCap pruned = perMetricCap l /\ globalCap pruned = globalCap l) as (Hp & Hc & Hg).
  { unfold pruned. case_match; [|done]. by split; [apply prune_ok|]. }
  assert (forall n f, tracked pruned n f = tracked l n f \/
    pruned = pruneExpiredLocked now l) as Hpr by (intros; unfold pruned; case_match; auto).
  assert (forall n f t, tracked l n f = Some t -> tracked pruned n f = Some t \/ t < now - ttl l) as Hkeep.
  { intros n f t Hn. destruct (Hpr n f) as [-> | ->]; [by left|]. rewrite prune_tracked, Hn. cbn.
    unfold stale_series. destruct (Z.ltb_spec t (now - ttl l)); [by right|by left]. }
  assert (tracked pruned name fp = None) as Enew.
  { destruct (Hpr name fp) as [-> | ->]; [done|]. by rewrite prune_tracked, Et. }
  rewrite Hc, Hg. destruct (Z.geb_spec (Z.of_nat (size (default ∅ (byMetric pruned !! name)))) (perMetricCap l)).
  { split_and!; try done; [lia|]. intros. by apply Hkeep. }
  destruct (Z.geb_spec (total pruned) (globalCap l)) as [Hfull|Hroom].
  { split_and!; try done; [|intros; by apply Hkeep]. intros _. destruct Hp as [_ _ Hpg]. rewrite Hg in Hpg.
    split; [lia|]. intros n f t. unfold pruned in *. destruct (_ || (total l >=? globalCap l)) eqn:Edue.
    - rewrite prune_tracked. destruct (tracked l n f) as [t0|]; cbn; [|done]. unfold stale_series.
      destruct (Z.ltb_spec t0 (now - ttl l)); intros [= <-]. lia.
    - apply orb_false_iff in Edue as [_ Edue]. lia. }
  split_and!; try done.
  - apply set_series_ok; [done|rewrite Hg; lia|intros _; rewrite Hc; lia|by rewrite Enew].
  - intros _. rewrite set_series_tracked. by rewrite decide_True.
  - intros n f t Hne Ht. rewrite set_series_tracked, decide_False; [by apply Hkeep|]. by intros [-> ->].
Qed.

(** The limiter after some calls. *)
Definition allow_all (calls : list (list Label * Z)) (l : seriesLimiter) : seriesLimiter :=
  fold_left (fun l c => (Allow c.1 c.2 l).2) calls l.

Lemma Allow_ok labels now l : limiter_ok l -> limiter_ok (Allow labels now l).2.
Proof. intros Hl. pose proof (Allow_post labels now l Hl) as H. destruct (Allow labels now l). by destruct H. Qed.

(** The limiter never tracks more series than its caps allow, in all or of one
    metric.  After any calls, a series it tracks is let through; a new one is let
    through unless its metric has reached its cap, or as many series as the global cap
    allows were all seen within the time to live. *)
Theorem limiter_run perMetric global ttl_ calls labels now :
  0 <= perMetric -> 0 <= global ->
  let l := allow_all calls (newSeriesLimiter perMetric global ttl_) in
  let '(res, l') := Allow labels now l in
  limiter_ok l /\
  (tracked l (series_name labels) (seriesFingerprint labels) <> None -> res = None) /\
  (res = None -> tracked l' (series_name labels) (seriesFingerprint labels) = Some now) /\
  (res = Some SeriesCapMetric -> perMetricCap l <= Z.of_nat (size (default ∅ (byMetric l' !! series_name labels)))) /\
  (res = Some SeriesCapGlobal -> series_count (byMetric l') = globalCap l /\
     forall name fp t, tracked l' name fp = Some t -> now - ttl l <= t).
Proof.
  intros Hp Hg l. assert (limiter_ok l) as Hl.
  { unfold l, allow_all. assert (limiter_ok (newSeriesLimiter perMetric global ttl_)) as H0.
    { split; cbn; [done|apply map_Forall_empty|done]. }
    revert H0. generalize (newSeriesLimiter perMetric global ttl_). induction calls as [|c calls IH]; intros l0 H0; cbn; [done|].
    apply IH. by apply Allow_ok. }
  pose proof (Allow_post labels now l Hl) as H. destruct (Allow labels now l) as [res l'].
  destruct H as (H1 & H2 & H3 & H4 & H5 & _). split_and!; try done; [by intros; apply Z.ge_le, H4|].
  intros Hr. destruct (H5 Hr) as [E Ht]. split; [|done]. by rewrite <-(lo_total _ H1).
Qed.

Lemma limiter_run_witness :
  let a := labelsMapToSortedPromLabels (str "m_gauge") {[str "app" := str "a"]} in
  let l := allow_all [(a, 5)] (newSeriesLimiter 1 2 100) in
  limiter_ok l /\ (Allow a 7 l).1 = None.
Proof.
  intros a l. pose proof (limiter_run 1 2 100 [(a, 5)] a 7) as H. fold l in H. cbv zeta in H. destruct (Allow a 7 l) as [res l'] eqn:E.
  destruct H as (H1 & _); [done|done|]. split; [done|]. rewrite <-E. vm_compute. reflexivity.
Defined.

(** ** Identity of series *)

(** The first [c] ends the part before it. *)
Lemma cut_inj (c : Z) (a a' r r' : bytes) : free c a -> free c a' -> a ++ c :: r = a' ++ c :: r' -> a = a' /\ r = r'.
Proof.
  intros Ha Ha' E. pose proof (SplitN2_app a c r Ha) as H1. rewrite E, (SplitN2_app a' c r' Ha') in H1.
  by injection H1 as -> ->.
Qed.

Definition label_ok (l : Label) : Prop := free 61 (LabelName l) /\ free 255 (LabelValue l).

Lemma fingerprint_inj ls ls' :
  Forall label_ok ls -> Forall label_ok ls' -> seriesFingerprint ls = seriesFingerprint ls' -> ls = ls'.
Proof.
  intros Hl. revert ls'. induction Hl as [|[n v] ls [Hn Hv] _ IH]; intros ls' Hl'.
  - destruct Hl' as [|[n v] ls' _ _]; [done|]. unfold seriesFingerprint. cbn. intros E.
    apply (f_equal length) in E. rewrite !length_app in E. cbn in E. lia.
  - destruct Hl' as [|[n' v'] ls' [Hn' Hv'] Hl'].
    + unfold seriesFingerprint. cbn. intros E. apply (f_equal length) in E. rewrite !length_app in E. cbn in E. lia.
    + unfold seriesFingerprint in *. cbn [map concat LabelName LabelValue] in *. rewrite <-!app_assoc. cbn [app].
      intros [-> E]%cut_inj; [|done..]. apply cut_inj in E as [-> E]; [|done..]. f_equal. by apply IH.
Qed.

Lemma name_ok_free colon s c : name_ok colon s -> name_char colon c = false -> free c s.
Proof. intros [Hc _ _ _] Hd. eapply Forall_impl; [exact Hc|]. intros b Hb ->. congruence. Qed.

Lemma utf8_free v : Forall utf8_byte v -> free 255 v.
Proof. intros Hv. eapply Forall_impl; [exact Hv|]. unfold utf8_byte. intros b Hb ->. lia. Qed.

Lemma prom_labels_ok name labels :
  free 255 name -> tags_ok labels -> Forall label_ok (labelsMapToSortedPromLabels name labels).
Proof.
  intros Hn Hl. constructor; [split; [by repeat constructor|done]|].
  apply Forall_fmap, Forall_forall. intros k [v Hv]%sorted_keys_elem. destruct (Hl _ _ Hv) as [Hk [_ Hu]].
  split; [by apply (name_ok_free false)|]. change (free 255 (default [] (labels !! k))). unfold bytes in *. rewrite Hv. by apply utf8_free.
Qed.

Lemma prom_labels_inj name name' labels labels' :
  labelsMapToSortedPromLabels name labels = labelsMapToSortedPromLabels name' labels' ->
  name = name' /\ labels = labels'.
Proof.
  intros [= -> E]. split; [done|].
  assert (forall m : gmap bytes bytes,
    m = list_to_map (map (fun l => (LabelName l, LabelValue l)) (map (fun k => MkLabel k (default [] (m !! k))) (sorted_keys m)))) as Hm.
  { intros m. rewrite map_map. cbn. apply map_eq. intros k.
    destruct (m !! k) as [v|] eqn:Ek; symmetry.
    - apply elem_of_list_to_map.
      + rewrite <-list_fmap_compose. cbn. rewrite list_fmap_id. apply sorted_keys_NoDup.
      + apply list_elem_of_fmap. exists k. unfold bytes in *. rewrite Ek. split; [done|]. apply sorted_keys_elem. by eexists.
    - apply not_elem_of_list_to_map. rewrite <-list_fmap_compose. cbn. rewrite list_fmap_id.
      intros [v Hv]%sorted_keys_elem. congruence. }
  rewrite (Hm labels), (Hm labels'). by rewrite E.
Qed.

(** ** The buffer *)

Section buffer_spec.
Context {A : Type}.

Inductive buffer_op := OpEnqueue (x : A) | OpSnapshot (max : Z) | OpCommit (count : nat).

(** The state of the buffer with all that was put in, all that was committed and the
    number of elements dropped. *)
Record buffer_run := BufferRun {
  br_buffer : seriesBuffer A; br_in : list A; br_out : list A; br_dropped : nat
}.

Definition buffer_step (o : buffer_op) (s : buffer_run) : buffer_run :=
  let b := br_buffer s in
  match o with
  | OpEnqueue x => let '(b', d, _) := Enqueue x b in BufferRun b' (br_in s ++ [x]) (br_out s) (br_dropped s + d)
  | OpSnapshot max => BufferRun (Snapshot max b).1 (br_in s) (br_out s) (br_dropped s)
  | OpCommit n => BufferRun (Commit n b).1 (br_in s) (br_out s ++ take n (inflight b)) (br_dropped s)
  end.

Definition pending (b : seriesBuffer A) : list A := inflight b ++ queued b.

Record buffer_ok (s : buffer_run) : Prop := BufferOk {
  bo_order : (br_out s ++ pending (br_buffer s)) `sublist_of` br_in s;
  bo_count : length (br_in s) = (length (br_out s) + length (pending (br_buffer s)) + br_dropped s)%nat;
  bo_max : (length (pending (br_buffer s)) <= bufferMax (br_buffer s))%nat
}.

Lemma buffer_step_ok o s : buffer_ok s -> buffer_ok (buffer_step o s).
Proof.
  destruct s as [[max q i] l out d]. intros [Ho Hc Hm]. unfold pending in *. cbn in *. rewrite length_app in Hc, Hm.
  destruct o as [x|n|n].
  - unfold buffer_step, Enqueue. cbn. destruct (Nat.leb_spec max (length i + length q)); [destruct q as [|y q]|]; split;
      unfold pending; cbn; rewrite ?app_nil_r, ?length_app in *; cbn in *; try lia.
    + by apply sublist_inserts_r.
    + rewrite !app_assoc. apply sublist_app; [|done]. etrans; [|exact Ho]. rewrite <-app_assoc.
      by apply sublist_app, sublist_app, sublist_cons.
    + rewrite !app_assoc. apply sublist_app; [|done]. by rewrite <-app_assoc.
  - assert (forall b', pending b' = i ++ q -> bufferMax b' = max ->
      buffer_ok (BufferRun b' l out d)) as Hsame.
    { intros b' Hp Hb. split; cbn; rewrite ?Hp, ?length_app, ?Hb; [done|lia|lia]. }
    unfold buffer_step, Snapshot. cbn. case_match; [by apply Hsame|]. destruct i; [|by apply Hsame].
    destruct q; [by apply Hsame|]. apply Hsame; [|done]. unfold pending. cbn [inflight queued app]. apply take_drop.
  - unfold buffer_step, Commit. cbn.
    assert (out ++ take n i ++ drop (n `min` length i) i = out ++ i) as Hi.
    { f_equal. destruct (Nat.min_spec n (length i)) as [[_ ->]|[? ->]]; [apply take_drop|].
      by rewrite take_ge, drop_all, app_nil_r by lia. }
    split; unfold pending; cbn; rewrite ?length_app, ?length_take, ?length_drop; [|lia|lia].
    rewrite <-!app_assoc, (app_assoc (take n i)). rewrite (app_assoc out), Hi, <-app_assoc. done.
Qed.

(** The buffer hands series on in the order they came, each at most once; it never
    holds more than its maximum, and what is neither handed on nor held was counted
    as dropped.  A snapshot stays the same until it is committed. *)
Theorem buffer_fifo max ops :
  let s := fold_left (fun s o => buffer_step o s) ops (BufferRun (newSeriesBuffer max) [] [] 0) in
  buffer_ok s /\
  (forall n n', 0 < n -> inflight (br_buffer s) <> [] -> Snapshot n (br_buffer s) = (br_buffer s, inflight (br_buffer s)) /\
     Snapshot n' (Snapshot n (br_buffer s)).1 = Snapshot n' (br_buffer s)).
Proof.
  intros s. split.
  - unfold s. assert (buffer_ok (BufferRun (newSeriesBuffer max) [] [] 0)) as H0 by (split; cbn; [done|done|lia]).
    revert H0. generalize (BufferRun (newSeriesBuffer max) [] [] 0). induction ops as [|o ops IH]; intros b Hb; [done|].
    apply IH. by apply buffer_step_ok.
  - clearbody s. intros n n' Hn Hi.
    assert (Snapshot n (br_buffer s) = (br_buffer s, inflight (br_buffer s))) as E.
    { unfold Snapshot. destruct (Z.leb_spec n 0); [lia|]. by destruct (inflight (br_buffer s)). }
    rewrite E. done.
Qed.

End buffer_spec.

(** ** Saturation *)

(** Observations: a utilisation and the time of it. *)
Definition observe_all (obs : list (float64 * Z)) (p : pressureState) : pressureState :=
  fold_left (fun p o => (Observe o.1 o.2 p).2) obs p.

Definition high (th : float64) (o : float64 * Z) : Prop := flt o.1 th = false.

(** A run of high observations up to the last one, begun at time [t]. *)
Definition high_since (th : float64) (obs : list (float64 * Z)) (t : Z) : Prop :=
  exists before u after, obs = before ++ (u, t) :: after /\ high th (u, t) /\ Forall (high th) after.

Lemma high_since_snoc th obs o t :
  high_since th (obs ++ [o]) t <-> high th o /\ (t = o.2 \/ high_since th obs t).
Proof.
  split.
  - intros (before & u & after & E & Hu & Ha). destruct after as [|o' after _] using rev_ind.
    + apply app_inj_tail in E as [_ ->]. auto.
    + rewrite app_comm_cons, app_assoc in E. apply app_inj_tail in E as [-> ->].
      apply Forall_app in Ha as [Ha Ho]. inversion Ho; subst. split; [done|]. right. by exists before, u, after.
  - intros [Ho [-> | (before & u & after & -> & Hu & Ha)]].
    + exists obs, o.1, []. by destruct o.
    + exists before, u, (after ++ [o]). rewrite <-app_assoc. split_and!; [done|done|]. apply Forall_app. auto.
Qed.

Lemma observe_all_since obs th d :
  (forall i j a b, obs !! i = Some a -> obs !! j = Some b -> (i <= j)%nat -> a.2 <= b.2) ->
  let p := observe_all obs (newPressureState th d) in
  threshold p = th /\ duration p = d /\
  match since p with
  | Some t => high_since th obs t /\ forall t', high_since th obs t' -> t <= t'
  | None => forall t, ~ high_since th obs t
  end.
Proof.
  induction obs as [|[u now] obs IH] using rev_ind; intros Hs.
  { split_and!; [done|done|]. intros t (before & ? & ? & E & _). by destruct before. }
  assert (forall t, high_since th obs t -> t <= now) as Hle.
  { intros t (before & v & after & -> & _). apply (Hs (length before) (length before + S (length after))%nat (v, t) (u, now)).
    - rewrite <-app_assoc. cbn [app]. by rewrite list_lookup_middle.
    - rewrite lookup_app_r by (rewrite length_app; cbn; lia). rewrite length_app. cbn [length].
      by rewrite Nat.sub_diag.
    - lia. }
  destruct IH as (Hth & Hd & IH).
  { intros i j a b Ha Hb. apply Hs; by apply lookup_app_l_Some. }
  unfold observe_all in *. rewrite fold_left_app. cbn [fold_left fst snd].
  set (p := fold_left _ obs _) in *. unfold Observe. rewrite Hth.
  destruct (flt u th) eqn:Eu; cbn [snd threshold duration since]; (split; [done|]; split; [done|]).
  - intros t [Hh _]%high_since_snoc. unfold high in Hh. cbn in Hh. congruence.
  - destruct (since p) as [t|]; cbn [default]; unfold id; setoid_rewrite high_since_snoc.
    + destruct IH as [H1 H2]. split; [by auto|]. intros t' [_ [-> | H3]]; [by apply Hle|by apply H2].
    + split; [by auto|]. intros t' [_ [-> | H3]]; [done|]. by apply IH in H3.
Qed.

(** Saturation is reported exactly when the utilisation has been at or above the
    threshold, without a lower observation in between, for at least the configured
    duration. *)
Theorem Observe_spec obs u now th d :
  (forall i j a b, (obs ++ [(u, now)]) !! i = Some a -> (obs ++ [(u, now)]) !! j = Some b -> (i <= j)%nat -> a.2 <= b.2) ->
  (Observe u now (observe_all obs (newPressureState th d))).1 = true <->
  exists t, high_since th (obs ++ [(u, now)]) t /\ d <= now - t.
Proof.
  intros Hs. pose proof (observe_all_since _ th d Hs) as H. unfold observe_all in *. rewrite fold_left_app in H.
  destruct (observe_all_since obs th d) as (Hth & Hd & Hp).
  { intros i j a b Ha Hb. apply Hs; by apply lookup_app_l_Some. }
  unfold observe_all in *. set (p := fold_left _ obs _) in *. cbn [fold_left fst snd] in H. unfold Observe in *.
  rewrite Hth in *. destruct (flt u th); cbn [fst snd since] in *.
  - split; [done|]. intros (t & Ht & _). exfalso. destruct H as (_ & _ & H). by eapply H.
  - rewrite Hd. destruct H as (_ & _ & H1 & H2). rewrite Z.geb_leb, Z.leb_le. split.
    + intros Hle. eauto.
    + intros (t & Ht & Hle). apply H2 in Ht. lia.
Qed.

Lemma Observe_spec_witness :
  let obs := [(of_int 1, 0); (of_int 3, 10); (of_int 2, 20)] in
  (Observe (of_int 5) 30 (observe_all obs (newPressureState (of_int 2) 20))).1 = true <->
  exists t, high_since (of_int 2) (obs ++ [(of_int 5, 30)]) t /\ 20 <= 30 - t.
Proof.
  apply Observe_spec. intros i j a b Hi Hj Hij.
  do 4 (destruct i as [|i]; [do 4 (destruct j as [|j]; [cbn in *; simplify_eq; cbn; lia|]); done|]). done.
Defined.

End StatsdPolicySpec.
