(* ===== verification/StatsdAggregator.v ===== *)
(** * DogStatsD: the aggregation window

    dogstatsd/aggregator.go: counters, gauges, timers, histograms and sets between two
    flushes, with the estimate of the memory they take. *)

From Stdlib Require Floats.SpecFloat.
From S2P Require Import Prelude GoLib GoText GoFloat GoUtf8 Statsd StatsdPolicy.

Module StatsdAggregator.
Import GoText GoFloat GoUtf8 Statsd StatsdPolicy.

(** ** Configuration *)

Definition ParseBuckets (raw : bytes) : option (list float64) :=
  foldr (fun part acc => let? value := ParseFloat (TrimSpace part) else None in
                         let? buckets := acc else None in Some (value :: buckets)) (Some []) (Split raw 44).

Record AggregationConfig := MkAggregationConfig {
  TimerBucketsMS : list float64; HistogramBuckets : list float64;
  MaxSetValuesPerSeries : Z; MaxBytes : Z; GaugeTTL : Z
}.

Fixpoint increasing (previous : float64) (buckets : list float64) : bool :=
  match buckets with
  | [] => true
  | bucket :: buckets =>
      if IsNaN bucket || IsInf bucket || fle bucket previous then false else increasing bucket buckets
  end.

(** Whether the boundaries are accepted. *)
Definition validateBuckets (buckets : list float64) : bool :=
  match buckets with [] => false | _ => increasing neg_inf buckets end.

Inductive config_error := ErrMaxSetValues | ErrMaxBytes | ErrGaugeTTL | ErrTimerBuckets | ErrHistogramBuckets.

Definition Validate (c : AggregationConfig) : option config_error :=
  if MaxSetValuesPerSeries c <=? 0 then Some ErrMaxSetValues
  else if MaxBytes c <=? 0 then Some ErrMaxBytes
  else if GaugeTTL c <=? 0 then Some ErrGaugeTTL
  else if negb (validateBuckets (TimerBucketsMS c)) then Some ErrTimerBuckets
  else if negb (validateBuckets (HistogramBuckets c)) then Some ErrHistogramBuckets
  else None.

(** ** State *)

Record aggregateState := MkAggregateState {
  stName : bytes; stType : MetricType; stLabels : gmap bytes bytes;
  stValue : float64; stCount : float64; stSum : float64; stBuckets : list float64; setValues : gset bytes
}.

Record gaugeBaseline := MkGaugeBaseline { gaugeValue : float64; lastSeen : Z; gaugeSize : Z }.

Record Aggregator := MkAggregator {
  cfg : AggregationConfig;
  series : gmap bytes aggregateState;
  reserved : list TimeSeries;
  activeBytes : Z; inflightBytes : Z;
  gauges : gmap bytes gaugeBaseline; gaugeBytes : Z;
  lastGaugePrune : option Z
}.

Definition NewAggregator (c : AggregationConfig) : config_error + Aggregator :=
  match Validate c with
  | Some e => inl e
  | None => inr (MkAggregator c ∅ [] 0 0 ∅ 0 None)
  end.

Definition set_series (s : gmap bytes aggregateState) (active : Z) (a : Aggregator) : Aggregator :=
  MkAggregator (cfg a) s (reserved a) active (inflightBytes a) (gauges a) (gaugeBytes a) (lastGaugePrune a).
Definition set_gauges (g : gmap bytes gaugeBaseline) (size : Z) (prune : option Z) (a : Aggregator) : Aggregator :=
  MkAggregator (cfg a) (series a) (reserved a) (activeBytes a) (inflightBytes a) g size prune.
Definition set_reserved (r : list TimeSeries) (size : Z) (a : Aggregator) : Aggregator :=
  MkAggregator (cfg a) (series a) r (activeBytes a) size (gauges a) (gaugeBytes a) (lastGaugePrune a).

Definition totalBytesLocked (a : Aggregator) : Z := activeBytes a + inflightBytes a + gaugeBytes a.
Definition Bytes (a : Aggregator) : Z := totalBytesLocked a.

(** ** Recording a metric *)

Definition estimateAggregateStateBytes (st : aggregateState) : Z :=
  192 + Z.of_nat (length (stName st)) + Z.of_nat (length (stBuckets st)) * 8 +
  msum (fun key value => 48 + Z.of_nat (length key) + Z.of_nat (length value)) (stLabels st).

Definition aggregationKey (name : bytes) (metricType : MetricType) (labels : gmap bytes bytes) : bytes :=
  name ++ [255] ++ MetricType_string metricType ++
  concat (map (fun key => [255] ++ key ++ [61] ++ default ([] : bytes) (labels !! key)) (sorted_keys labels)).

Definition stale_gauge (cutoff : Z) (g : gaugeBaseline) : bool := lastSeen g <? cutoff.

Definition pruneGaugesLocked (now : Z) (a : Aggregator) : Aggregator :=
  let interval := Z.min (Z.quot (GaugeTTL (cfg a)) 10) minute in
  if match lastGaugePrune a with Some t => now - t <? interval | None => false end then a
  else
  let cutoff := now - GaugeTTL (cfg a) in
  let gone := msum (fun _ g => gaugeSize g) (filter (fun kg => stale_gauge cutoff kg.2) (gauges a)) in
  set_gauges (filter (fun kg => negb (stale_gauge cutoff kg.2)) (gauges a)) (gaugeBytes a - gone) (Some now) a.

Definition sampleWeight (rate : float64) : float64 :=
  if fle rate zero || flt one rate || IsNaN rate || IsInf rate then zero else fdiv one rate.

(** [counts[i] += weight] *)
Definition add_at (i : nat) (weight : float64) (counts : list float64) : go (list float64) :=
  match counts !! i with
  | Some n => Val (<[i := fadd n weight]> counts)
  | None => Panic
  end.

(** The loop of [addBucketValue] from the bound of index [i] on. *)
Fixpoint add_bounds (i : nat) (bounds : list float64) (value weight : float64) (counts : list float64)
  : go (list float64) :=
  match bounds with
  | [] => Val counts
  | bound :: bounds =>
      let! counts := (if fle value bound then add_at i weight counts else Val counts) in
      add_bounds (S i) bounds value weight counts
  end.

Definition addBucketValue (counts bounds : list float64) (value weight : float64) : go (list float64) :=
  let! counts := add_bounds 0 bounds value weight counts in
  match counts with
  | [] => Panic
  | _ => add_at (length counts - 1) weight counts
  end.

(** The state a metric finds when its key is new in the window. *)
Definition new_state (c : AggregationConfig) (name : bytes) (t : MetricType) (labels : gmap bytes bytes)
  : aggregateState :=
  let buckets := match t with
                 | MetricTypeTimer => repeat zero (length (TimerBucketsMS c) + 1)
                 | MetricTypeHistogram => repeat zero (length (HistogramBuckets c) + 1)
                 | _ => []
                 end in
  MkAggregateState name t labels zero zero zero buckets ∅.

Inductive add_refusal := AggregationBytes | InvalidSampleRate | SetLimit | UnsupportedType.

Definition outcome : Type := go (option add_refusal * Aggregator).

Definition with_value (v : float64) (st : aggregateState) : aggregateState :=
  MkAggregateState (stName st) (stType st) (stLabels st) v (stCount st) (stSum st) (stBuckets st) (setValues st).

Definition add_counter (metric : Metric) (key : bytes) (st : aggregateState) (a : Aggregator) : outcome :=
  if fle (SampleRate metric) zero then Val (Some InvalidSampleRate, a)
  else let st := with_value (fadd (stValue st) (fdiv (Value metric) (SampleRate metric))) st in
       Val (None, set_series (<[key := st]> (series a)) (activeBytes a) a).

(** [created]: the bytes of the state if this call has put it in the window. *)
Definition add_gauge (metric : Metric) (now : Z) (key : bytes) (st : aggregateState) (created : option Z)
  (a : Aggregator) : outcome :=
  let store baseline size :=
    let v := if Relative metric then fadd (gaugeValue baseline) (Value metric) else Value metric in
    let baseline := MkGaugeBaseline v now (gaugeSize baseline) in
    let a := set_gauges (<[key := baseline]> (gauges a)) size (lastGaugePrune a) a in
    Val (None, set_series (<[key := with_value v st]> (series a)) (activeBytes a) a) in
  match gauges a !! key with
  | Some baseline => store baseline (gaugeBytes a)
  | None =>
      let size := 64 + Z.of_nat (length key) in
      if totalBytesLocked a + size >? MaxBytes (cfg a) then
        Val (Some AggregationBytes,
             match created with
             | Some stateBytes => set_series (delete key (series a)) (activeBytes a - stateBytes) a
             | None => a
             end)
      else store (MkGaugeBaseline zero 0 size) (gaugeBytes a + size)
  end.

Definition add_distribution (bounds : list float64) (metric : Metric) (key : bytes) (st : aggregateState)
  (a : Aggregator) : outcome :=
  let weight := sampleWeight (SampleRate metric) in
  if feq weight zero then Val (Some InvalidSampleRate, a)
  else
  let! buckets := addBucketValue (stBuckets st) bounds (Value metric) weight in
  let st := MkAggregateState (stName st) (stType st) (stLabels st) (stValue st) (fadd (stCount st) weight)
              (fadd (stSum st) (fmul (Value metric) weight)) buckets (setValues st) in
  Val (None, set_series (<[key := st]> (series a)) (activeBytes a) a).

Definition add_set (metric : Metric) (key : bytes) (st : aggregateState) (a : Aggregator) : outcome :=
  if decide (SetValue metric ∈ setValues st) then Val (None, a)
  else if Z.of_nat (size (setValues st)) >=? MaxSetValuesPerSeries (cfg a) then Val (Some SetLimit, a)
  else
  let valueBytes := Z.of_nat (length (SetValue metric)) + 16 in
  if totalBytesLocked a + valueBytes >? MaxBytes (cfg a) then Val (Some AggregationBytes, a)
  else
  let st := MkAggregateState (stName st) (stType st) (stLabels st) (stValue st) (stCount st) (stSum st)
              (stBuckets st) ({[SetValue metric]} ∪ setValues st) in
  Val (None, set_series (<[key := st]> (series a)) (activeBytes a + valueBytes) a).

(** The switch of [Add], on the state of the key. *)
Definition add_to (metric : Metric) (now : Z) (key : bytes) (st : aggregateState) (created : option Z)
  (a : Aggregator) : outcome :=
  match Type_ metric with
  | MetricTypeCounter => add_counter metric key st a
  | MetricTypeGauge => add_gauge metric now key st created a
  | MetricTypeTimer => add_distribution (TimerBucketsMS (cfg a)) metric key st a
  | MetricTypeHistogram => add_distribution (HistogramBuckets (cfg a)) metric key st a
  | MetricTypeSet => add_set metric key st a
  | MetricTypeOther _ => Val (Some UnsupportedType, set_series (delete key (series a)) (activeBytes a) a)
  end.

Definition metric_labels (tags : gmap bytes bytes) : gmap bytes bytes := <[str "is_custom" := str "true"]> tags.
Definition metric_key (metric : Metric) (tags : gmap bytes bytes) : bytes :=
  aggregationKey (normalizeMetricName (Name metric)) (Type_ metric) (metric_labels tags).

(** [None] is an accepted metric; [clock] is what [time.Now] returns. *)
Definition Add (clock : Z) (metric : Metric) (tags : gmap bytes bytes) (a : Aggregator) : outcome :=
  let now := default clock (ReceivedAt metric) in
  let key := metric_key metric tags in
  let a := pruneGaugesLocked now a in
  match series a !! key with
  | Some st => add_to metric now key st None a
  | None =>
      let st := new_state (cfg a) (normalizeMetricName (Name metric)) (Type_ metric) (metric_labels tags) in
      let stateBytes := estimateAggregateStateBytes st in
      if totalBytesLocked a + stateBytes >? MaxBytes (cfg a) then Val (Some AggregationBytes, a)
      else add_to metric now key st (Some stateBytes)
             (set_series (<[key := st]> (series a)) (activeBytes a + stateBytes) a)
  end.

(** ** Flushing *)

Definition aggregateSeries (name : bytes) (labels : gmap bytes bytes) (value : float64) (at_ : Z) : TimeSeries :=
  MkTimeSeries (labelsMapToSortedPromLabels name labels) [MkSample value (at_ / 1000000)].

(** The buckets of [bounds], from index [i] on. *)
Fixpoint bucket_series (baseName : bytes) (st : aggregateState) (i : nat) (bounds : list float64) (at_ : Z)
  : go (list TimeSeries) :=
  match bounds with
  | [] => Val []
  | bound :: bounds =>
      match stBuckets st !! i with
      | None => Panic
      | Some n =>
          let s := aggregateSeries (baseName ++ str "_bucket") (<[str "le" := FormatFloat bound]> (stLabels st)) n at_ in
          let! rest := bucket_series baseName st (S i) bounds at_ in Val (s :: rest)
      end
  end.

Definition distributionSeries (baseName : bytes) (st : aggregateState) (bounds : list float64) (at_ : Z)
  : go (list TimeSeries) :=
  let! result := bucket_series baseName st 0 bounds at_ in
  match last (stBuckets st) with
  | None => Panic
  | Some n =>
      Val (result ++
           [aggregateSeries (baseName ++ str "_bucket") (<[str "le" := str "+Inf"]> (stLabels st)) n at_;
            aggregateSeries (baseName ++ str "_sum") (stLabels st) (stSum st) at_;
            aggregateSeries (baseName ++ str "_count") (stLabels st) (stCount st) at_])
  end.

(** What the loop of [Snapshot] appends for one state. *)
Definition state_series (c : AggregationConfig) (st : aggregateState) (at_ : Z) : go (list TimeSeries) :=
  match stType st with
  | MetricTypeCounter => Val [aggregateSeries (stName st ++ str "_counter_count") (stLabels st) (stValue st) at_]
  | MetricTypeGauge => Val [aggregateSeries (stName st ++ str "_gauge") (stLabels st) (stValue st) at_]
  | MetricTypeTimer => distributionSeries (stName st ++ str "_timer_ms") st (TimerBucketsMS c) at_
  | MetricTypeHistogram => distributionSeries (stName st ++ str "_histogram") st (HistogramBuckets c) at_
  | MetricTypeSet => Val [aggregateSeries (stName st ++ str "_set_cardinality") (stLabels st)
                            (of_int (Z.of_nat (size (setValues st)))) at_]
  | MetricTypeOther _ => Val []
  end.

Fixpoint states_series (c : AggregationConfig) (window : gmap bytes aggregateState) (keys : list bytes) (at_ : Z)
  : go (list TimeSeries) :=
  match keys with
  | [] => Val []
  | key :: keys =>
      let! s := match window !! key with Some st => state_series c st at_ | None => Panic end in
      let! rest := states_series c window keys at_ in Val (s ++ rest)
  end.

(** The lock is released between the two halves of [Snapshot].  The first takes the
    window, unless there is one in flight: *)
Definition rotate (a : Aggregator) : Aggregator * (list TimeSeries + gmap bytes aggregateState * Z) :=
  match reserved a with
  | _ :: _ => (a, inl (reserved a))
  | [] => (set_series ∅ 0 a, inr (series a, activeBytes a))
  end.

(** the second puts it in flight: *)
Definition reserve (result : list TimeSeries) (windowBytes : Z) (a : Aggregator) : Aggregator :=
  set_reserved result windowBytes a.

Definition Snapshot (at_ : Z) (a : Aggregator) : go (Aggregator * list TimeSeries) :=
  match rotate a with
  | (a, inl result) => Val (a, result)
  | (a, inr (window, windowBytes)) =>
      let! result := states_series (cfg a) window (sorted_keys window) at_ in
      Val (reserve result windowBytes a, result)
  end.

Definition Commit (a : Aggregator) : Aggregator := set_reserved [] 0 a.

Definition Flush (at_ : Z) (a : Aggregator) : go (Aggregator * list TimeSeries) :=
  let! (a, result) := Snapshot at_ a in Val (Commit a, result).

End StatsdAggregator.
