(* ===== verification/StatsdAggregatorSpec.v ===== *)
(** * DogStatsD: what a window holds

    Keys tell series apart; the bytes accounted for are those of the states held, and
    bounded; a state is the summary of the metrics accepted under its key; a flush
    yields each series once. *)

From Stdlib Require Floats.SpecFloat.
From S2P Require Import Prelude GoLib GoText GoFloat GoUtf8 Statsd StatsdSpec StatsdPolicy StatsdPolicySpec.
From S2P Require Import StatsdAggregator.

Module StatsdAggregatorSpec.
Import GoText GoFloat GoUtf8 Statsd StatsdSpec StatsdPolicy StatsdPolicySpec StatsdAggregator.

(** ** Keys *)

Definition known (t : MetricType) : Prop := match t with MetricTypeOther _ => False | _ => True end.

Lemma type_string_inj t t' : known t -> known t' -> MetricType_string t = MetricType_string t' -> t = t'.
Proof. by destruct t, t'. Qed.

Lemma type_string_free t : known t -> free 255 (MetricType_string t).
Proof. destruct t; [by repeat constructor..|done]. Qed.

Lemma concat_rotate {A} (f : A -> bytes) (l : list A) :
  concat (map (fun x => 255 :: f x) l) ++ [255] = 255 :: concat (map (fun x => f x ++ [255]) l).
Proof. induction l as [|x l IH]; [done|]. cbn in *. by rewrite <-app_assoc, IH, <-app_assoc. Qed.

Definition label_list (labels : gmap bytes bytes) : list Label :=
  map (fun k => MkLabel k (default [] (labels !! k))) (sorted_keys labels).

Lemma label_list_ok labels : tags_ok labels -> Forall label_ok (label_list labels).
Proof.
  intros Hl. assert (Forall label_ok (labelsMapToSortedPromLabels [] labels)) as H by (apply prom_labels_ok; [constructor|done]).
  by inversion H.
Qed.

Lemma aggregationKey_parts name t labels :
  aggregationKey name t labels ++ [255] =
  name ++ 255 :: MetricType_string t ++ 255 :: seriesFingerprint (label_list labels).
Proof.
  unfold aggregationKey, seriesFingerprint, label_list. rewrite map_map, <-!app_assoc. f_equal. cbn [app]. f_equal. f_equal.
  rewrite (concat_rotate (fun key => key ++ 61 :: default ([] : bytes) (labels !! key))). f_equal. f_equal.
  apply map_ext. intros k. cbn [LabelName LabelValue]. by rewrite <-app_assoc.
Qed.

(** The key of a window entry determines the name, the type and the labels: metrics
    that differ in any of them are never merged. *)
Lemma aggregationKey_inj name name' t t' labels labels' :
  free 255 name -> free 255 name' -> known t -> known t' -> tags_ok labels -> tags_ok labels' ->
  aggregationKey name t labels = aggregationKey name' t' labels' ->
  name = name' /\ t = t' /\ labels = labels'.
Proof.
  intros Hn Hn' Ht Ht' Hl Hl' E. apply (f_equal (fun s => s ++ [255])) in E. rewrite !aggregationKey_parts in E.
  apply cut_inj in E as [-> E]; [|done..]. apply cut_inj in E as [E1 E2]; [|by apply type_string_free..].
  apply fingerprint_inj in E2; [|by apply label_list_ok..].
  split_and!; [done|by apply type_string_inj|]. apply (prom_labels_inj [] []). unfold labelsMapToSortedPromLabels. by f_equal.
Qed.

Lemma metric_name_free m : free 255 (normalizeMetricName (Name m)).
Proof. apply (name_ok_free true); [apply normalizeMetricName_ok|done]. Qed.

Lemma metric_labels_ok tags : tags_ok tags -> tags_ok (metric_labels tags).
Proof. intros Ht. apply map_Forall_insert_2; [|done]. split; by repeat constructor. Qed.

(** ** Bytes *)

Definition set_bytes (s : gset bytes) : Z := Z.of_nat (sum_list_with (fun v => length v + 16)%nat (elements s)).

Lemma set_bytes_empty : set_bytes ∅ = 0.
Proof. unfold set_bytes. by rewrite elements_empty. Qed.

Lemma set_bytes_insert v s :
  v ∉ s -> set_bytes ({[v]} ∪ s) = Z.of_nat (length v) + 16 + set_bytes s.
Proof. intros Hv. unfold set_bytes. rewrite elements_union_singleton by done. cbn. lia. Qed.

Definition state_bytes (st : aggregateState) : Z := estimateAggregateStateBytes st + set_bytes (setValues st).

Definition bounds_of (c : AggregationConfig) (t : MetricType) : option (list float64) :=
  match t with
  | MetricTypeTimer => Some (TimerBucketsMS c)
  | MetricTypeHistogram => Some (HistogramBuckets c)
  | _ => None
  end.

Record state_ok (c : AggregationConfig) (k : bytes) (st : aggregateState) : Prop := StateOk {
  so_key : k = aggregationKey (stName st) (stType st) (stLabels st);
  so_name : free 255 (stName st);
  so_type : known (stType st);
  so_labels : tags_ok (stLabels st);
  so_buckets : forall bounds, bounds_of c (stType st) = Some bounds -> length (stBuckets st) = (length bounds + 1)%nat
}.

Record agg_ok (a : Aggregator) : Prop := AggOk {
  ao_states : map_Forall (state_ok (cfg a)) (series a);
  ao_active : activeBytes a = msum (fun _ st => state_bytes st) (series a);
  ao_gauges : map_Forall (fun k g => gaugeSize g = 64 + Z.of_nat (length k)) (gauges a);
  ao_gauge_bytes : gaugeBytes a = msum (fun _ g => gaugeSize g) (gauges a)
}.

Lemma new_state_ok c m tags :
  known (Type_ m) -> tags_ok tags ->
  state_ok c (metric_key m tags) (new_state c (normalizeMetricName (Name m)) (Type_ m) (metric_labels tags)).
Proof.
  intros Ht Hl. split; cbn; [done|apply metric_name_free|done|by apply metric_labels_ok|].
  intros bounds. destruct (Type_ m); cbn; [done..| | |done|done]; intros [= <-]; by rewrite repeat_length.
Qed.

(** What pruning leaves. *)
Lemma pruneGauges_ok now a :
  agg_ok a ->
  let a' := pruneGaugesLocked now a in
  agg_ok a' /\ series a' = series a /\ activeBytes a' = activeBytes a /\ cfg a' = cfg a /\
  inflightBytes a' = inflightBytes a /\ reserved a' = reserved a /\ gaugeBytes a' <= gaugeBytes a /\
  gauges a' ⊆ gauges a.
Proof.
  intros [H1 H2 H3 H4]. unfold pruneGaugesLocked. cbv zeta. case_match; [by split_and!|].
  split_and!; cbn; try done.
  - split; cbn; try done.
    + intros k g [Hg _]%map_lookup_filter_Some. by apply H3.
    + rewrite H4, (msum_filter _ (fun kg => stale_gauge (now - GaugeTTL (cfg a)) kg.2) (gauges a)). lia.
  - assert (0 <= msum (fun _ g => gaugeSize g) (filter (fun kg => stale_gauge (now - GaugeTTL (cfg a)) kg.2) (gauges a))); [|lia].
    apply msum_nonneg. intros k g [Hg _]%map_lookup_filter_Some. apply H3 in Hg. lia.
  - apply map_filter_subseteq.
Qed.

(** ** One metric *)

Definition weight (m : Metric) : float64 := sampleWeight (SampleRate m).

(** The counts of the buckets [bounds] and of the last one, after a value. *)
Fixpoint bump (bounds : list float64) (value w : float64) (counts : list float64) : list float64 :=
  match bounds, counts with
  | b :: bounds, n :: counts => (if fle value b then fadd n w else n) :: bump bounds value w counts
  | _, _ => map (fun n => fadd n w) counts
  end.

Lemma bump_length bounds v w counts : length (bump bounds v w counts) = length counts.
Proof.
  revert counts. induction bounds as [|b bounds IH]; intros [|n counts]; cbn; try done; [by rewrite length_map|].
  f_equal. apply IH.
Qed.

Lemma add_bounds_bump bounds v w pre counts n :
  length counts = length bounds ->
  exists counts', add_bounds (length pre) bounds v w (pre ++ counts ++ [n]) = Val (pre ++ counts' ++ [n]) /\
    bump bounds v w (counts ++ [n]) = counts' ++ [fadd n w] /\ length counts' = length counts.
Proof.
  revert pre counts. induction bounds as [|b bounds IH]; intros pre [|x counts] [=]; [by exists []|].
  destruct (IH (pre ++ [if fle v b then fadd x w else x]) counts) as (counts' & E1 & E2 & E3); [done|].
  rewrite length_app, Nat.add_1_r, <-!app_assoc in E1.
  exists ((if fle v b then fadd x w else x) :: counts'). cbn [add_bounds bump app length]. rewrite E2, E3. split_and!; try done.
  destruct (fle v b); [|exact E1]. unfold add_at. cbn [app].
  rewrite list_lookup_middle by done. rewrite insert_app_r_alt, Nat.sub_diag by lia. exact E1.
Qed.

Lemma addBucketValue_bump counts bounds v w :
  length counts = (length bounds + 1)%nat -> addBucketValue counts bounds v w = Val (bump bounds v w counts).
Proof.
  intros Hl. destruct counts as [|n counts _] using rev_ind; [cbn in Hl; lia|]. rewrite length_app in Hl. cbn in Hl.
  destruct (add_bounds_bump bounds v w [] counts n) as (counts' & E1 & -> & _); [lia|]. unfold addBucketValue. cbn [app length] in E1.
  rewrite E1. assert (add_at (length (counts' ++ [n]) - 1) w (counts' ++ [n]) = Val (counts' ++ [fadd n w])) as E.
  { unfold add_at. rewrite length_app, Nat.add_sub, list_lookup_middle by done.
    by rewrite insert_app_r_alt, Nat.sub_diag. }
  rewrite E. by destruct counts'.
Qed.

(** The state of a key after an accepted metric; [v] is the new value of a gauge. *)
Definition observed (c : AggregationConfig) (v : float64) (m : Metric) (st : aggregateState) : aggregateState :=
  match Type_ m with
  | MetricTypeCounter => with_value (fadd (stValue st) (fdiv (Value m) (SampleRate m))) st
  | MetricTypeGauge => with_value v st
  | MetricTypeSet => MkAggregateState (stName st) (stType st) (stLabels st) (stValue st) (stCount st) (stSum st)
                       (stBuckets st) ({[SetValue m]} ∪ setValues st)
  | t => MkAggregateState (stName st) (stType st) (stLabels st) (stValue st) (fadd (stCount st) (weight m))
           (fadd (stSum st) (fmul (Value m) (weight m)))
           (bump (default [] (bounds_of c t)) (Value m) (weight m) (stBuckets st)) (setValues st)
  end.

Lemma observed_ok c v m k st : state_ok c k st -> stType st = Type_ m -> state_ok c k (observed c v m st).
Proof.
  intros [H1 H2 H3 H4 H5] Ht. unfold observed. destruct (Type_ m); split; cbn -[bounds_of]; try done;
    intros bounds Hb; rewrite ?bump_length; auto.
Qed.

Lemma set_series_agg_ok k st' n a :
  agg_ok a -> state_ok (cfg a) k st' ->
  n = state_bytes st' - (match series a !! k with Some st => state_bytes st | None => 0 end) ->
  agg_ok (set_series (<[k := st']> (series a)) (activeBytes a + n) a).
Proof.
  intros [H1 H2 H3 H4] Hst ->. split; cbn; try done; [by apply map_Forall_insert_2|]. rewrite H2.
  destruct (series a !! k) as [st|] eqn:E; [rewrite (msum_replace _ _ _ _ _ E)|rewrite msum_insert by done]; lia.
Qed.

Lemma state_bytes_eq st st' :
  stName st = stName st' -> stLabels st = stLabels st' -> length (stBuckets st) = length (stBuckets st') ->
  state_bytes st' - state_bytes st = set_bytes (setValues st') - set_bytes (setValues st).
Proof. intros H1 H2 H3. unfold state_bytes, estimateAggregateStateBytes. rewrite H1, H2, H3. lia. Qed.

(** What [Add] leaves alone, and the bytes it may take. *)
Record frame (a a' : Aggregator) : Prop := Frame {
  fr_cfg : cfg a' = cfg a;
  fr_reserved : reserved a' = reserved a;
  fr_inflight : inflightBytes a' = inflightBytes a;
  fr_total : totalBytesLocked a' <= Z.max (totalBytesLocked a) (MaxBytes (cfg a))
}.

(** The value and the baseline of the gauge [k] after an accepted metric. *)
Definition gauge_step (m : Metric) (v : float64) : float64 := if Relative m then fadd v (Value m) else Value m.

Definition gauge_post (m : Metric) (now : Z) (k : bytes) (a a' : Aggregator) (v : float64) : Prop :=
  match Type_ m with
  | MetricTypeGauge =>
      v = gauge_step m (default zero (gaugeValue <$> gauges a !! k)) /\
      gauges a' = <[k := MkGaugeBaseline v now (64 + Z.of_nat (length k))]> (gauges a)
  | _ => gauges a' = gauges a
  end.

(** The switch. *)
Record switch_post (m : Metric) (now : Z) (k : bytes) (st : aggregateState) (created : option Z)
  (r : option add_refusal) (a a' : Aggregator) : Prop := SwitchPost {
  sp_ok : agg_ok a';
  sp_frame : frame a a';
  sp_accepted : r = None -> exists v, series a' = <[k := observed (cfg a) v m st]> (series a) /\ gauge_post m now k a a' v;
  sp_refused : r <> None -> gauges a' = gauges a /\
    (series a' = series a \/ created <> None /\ series a' = delete k (series a) /\ totalBytesLocked a' = totalBytesLocked a - default 0 created)
}.

Lemma switch_refused m now k st created r a : agg_ok a -> r <> None -> switch_post m now k st created r a a.
Proof. intros Ha Hr. split; [done|by split; try done; lia|done|by auto]. Qed.

(** A state put in place of another takes the bytes of new members of its set. *)
Lemma observed_bytes c v m st :
  setValues (observed c v m st) = setValues st -> state_bytes (observed c v m st) = state_bytes st.
Proof.
  intros Hs. enough (state_bytes (observed c v m st) - state_bytes st = set_bytes (setValues (observed c v m st)) - set_bytes (setValues st)) as H.
  { rewrite Hs in H. lia. }
  apply state_bytes_eq; unfold observed; destruct (Type_ m); cbn; try done; by rewrite ?bump_length, ?length_map.
Qed.

Lemma switch_accepted m now k st created a v :
  agg_ok a -> series a !! k = Some st -> stType st = Type_ m ->
  Type_ m <> MetricTypeGauge -> setValues (observed (cfg a) v m st) = setValues st ->
  switch_post m now k st created None a (set_series (<[k := observed (cfg a) v m st]> (series a)) (activeBytes a) a).
Proof.
  intros Ha Hk Ht Hg Hs. split; [| |intros _|done].
  - rewrite <-(Z.add_0_r (activeBytes a)). apply set_series_agg_ok; [done| |].
    + apply observed_ok; [by apply Ha|done].
    + rewrite Hk, observed_bytes by done. lia.
  - split; try done. unfold totalBytesLocked. cbn. lia.
  - exists v. split; [done|]. unfold gauge_post. by destruct (Type_ m).
Qed.

Lemma add_counter_ok m now k st created a :
  agg_ok a -> series a !! k = Some st -> stType st = Type_ m -> Type_ m = MetricTypeCounter ->
  exists r a', add_counter m k st a = Val (r, a') /\ switch_post m now k st created r a a'.
Proof.
  intros Ha Hk Ht Hm. unfold add_counter. case_match; [eexists _, _; split; [done|by apply switch_refused]|].
  eexists _, _. split; [done|]. pose proof (switch_accepted m now k st created a zero Ha Hk Ht) as Hs.
  unfold observed in Hs. rewrite Hm in Hs. by apply Hs.
Qed.

Lemma add_distribution_ok bounds m now k st created a :
  agg_ok a -> series a !! k = Some st -> stType st = Type_ m -> bounds_of (cfg a) (Type_ m) = Some bounds ->
  exists r a', add_distribution bounds m k st a = Val (r, a') /\ switch_post m now k st created r a a'.
Proof.
  intros Ha Hk Ht Hb. unfold add_distribution. cbv zeta. case_match; [eexists _, _; split; [done|by apply switch_refused]|].
  rewrite addBucketValue_bump by (eapply (so_buckets _ _ _ (ao_states _ Ha _ _ Hk)); by rewrite Ht).
  eexists _, _. split; [done|]. pose proof (switch_accepted m now k st created a zero Ha Hk Ht) as Hs.
  unfold observed in Hs. destruct (Type_ m); cbn in Hb; try done; injection Hb as <-; by apply Hs.
Qed.

Lemma add_set_ok m now k st created a :
  agg_ok a -> series a !! k = Some st -> stType st = Type_ m -> Type_ m = MetricTypeSet ->
  exists r a', add_set m k st a = Val (r, a') /\ switch_post m now k st created r a a'.
Proof.
  intros Ha Hk Ht Hm. unfold add_set. cbv zeta. case_decide as Hin.
  - eexists _, _. split; [done|]. split; [done|by split; try done; lia| |done]. intros _. exists zero. unfold gauge_post, observed.
    rewrite Hm. split; [|done]. symmetry. apply insert_id. rewrite Hk. f_equal.
    destruct st as [n ty l v c s b sv]. cbn in *. f_equal. set_solver.
  - case_match; [eexists _, _; split; [done|by apply switch_refused]|]. rewrite Z.gtb_ltb.
    destruct (Z.ltb_spec (MaxBytes (cfg a)) (totalBytesLocked a + (Z.of_nat (length (SetValue m)) + 16)));
      [eexists _, _; split; [done|by apply switch_refused]|].
    eexists _, _. split; [done|]. split; [| |intros _|done].
    + apply set_series_agg_ok; [done| |].
      * pose proof (observed_ok (cfg a) zero m k st (ao_states _ Ha _ _ Hk) Ht) as Ho. unfold observed in Ho. by rewrite Hm in Ho.
      * rewrite Hk, state_bytes_eq by done. cbn. rewrite set_bytes_insert by done. lia.
    + split; try done. unfold totalBytesLocked in *. cbn. lia.
    + exists zero. unfold observed, gauge_post. by rewrite Hm.
Qed.

(** The gauge of a key stored. *)
Lemma set_gauges_ok k g n p a :
  agg_ok a -> gaugeSize g = 64 + Z.of_nat (length k) ->
  n = (match gauges a !! k with Some _ => 0 | None => gaugeSize g end) ->
  agg_ok (set_gauges (<[k := g]> (gauges a)) (gaugeBytes a + n) p a).
Proof.
  intros [H1 H2 H3 H4] Hg ->. split; cbn; try done; [by apply map_Forall_insert_2|]. rewrite H4.
  destruct (gauges a !! k) as [g'|] eqn:E; [|rewrite msum_insert by done; lia].
  rewrite (msum_replace _ _ _ _ _ E). apply H3 in E. cbv beta in *. by rewrite E, Hg, Z.add_0_r, Z.sub_add.
Qed.

Lemma add_gauge_ok m now k st created a :
  agg_ok a -> series a !! k = Some st -> stType st = Type_ m -> Type_ m = MetricTypeGauge ->
  (forall n, created = Some n -> n = state_bytes st) ->
  exists r a', add_gauge m now k st created a = Val (r, a') /\ switch_post m now k st created r a a'.
Proof.
  intros Ha Hk Ht Hm Hc.
  assert (forall base n, gaugeSize base = 64 + Z.of_nat (length k) ->
    n = (match gauges a !! k with Some _ => 0 | None => gaugeSize base end) ->
    gaugeValue base = default zero (gaugeValue <$> gauges a !! k) ->
    n = 0 \/ totalBytesLocked a + n <= MaxBytes (cfg a) ->
    let v := gauge_step m (gaugeValue base) in
    let a1 := set_gauges (<[k := MkGaugeBaseline v now (gaugeSize base)]> (gauges a)) (gaugeBytes a + n) (lastGaugePrune a) a in
    switch_post m now k st created None a (set_series (<[k := with_value v st]> (series a1)) (activeBytes a1) a1)) as Hstore.
  { intros base n Hs Hn Hv Hmax v a1.
    assert (agg_ok a1) as Ha1 by (apply set_gauges_ok; cbn; auto).
    assert (with_value v st = observed (cfg a1) v m st) as Eo by (unfold observed; by rewrite Hm).
    split; [| |intros _|done].
    - rewrite Eo, <-(Z.add_0_r (activeBytes a1)). apply set_series_agg_ok; [done|apply observed_ok; [by apply Ha|done]|].
      cbn [series set_gauges a1]. rewrite Hk, observed_bytes; [lia|]. by rewrite <-Eo.
    - split; try done. unfold totalBytesLocked in *. cbn. lia.
    - exists v. unfold gauge_post, observed. rewrite Hm. split_and!; [done|by unfold v; rewrite Hv|]. cbn. by rewrite Hs. }
  unfold add_gauge. cbv zeta. fold (gauge_step m). destruct (gauges a !! k) as [g|] eqn:Eg.
  - eexists _, _. split; [done|]. specialize (Hstore g 0). cbv zeta in Hstore. rewrite !Z.add_0_r in Hstore. apply Hstore; auto.
    by apply Ha in Eg.
  - cbn [gaugeValue gaugeSize]. rewrite Z.gtb_ltb.
    destruct (Z.ltb_spec (MaxBytes (cfg a)) (totalBytesLocked a + (64 + Z.of_nat (length k)))).
    + destruct created as [n|]; [|eexists _, _; split; [done|by apply switch_refused]].
      eexists _, _. split; [done|]. specialize (Hc n eq_refl) as ->.
      assert (0 <= state_bytes st) as Hpos.
      { unfold state_bytes, estimateAggregateStateBytes, set_bytes.
        assert (0 <= msum (fun key value => 48 + Z.of_nat (length key) + Z.of_nat (length value)) (stLabels st)); [|lia].
        apply msum_nonneg. intros. lia. }
      split; [| |done|].
      * destruct Ha as [H1 H2 H3 H4]. split; cbn; try done; [by apply map_Forall_delete|].
        rewrite H2, (msum_delete _ _ _ _ Hk). lia.
      * split; try done. unfold totalBytesLocked. cbn. lia.
      * intros _. split; [done|]. right. split_and!; [done|done|]. unfold totalBytesLocked. cbn. lia.
    + eexists _, _. split; [done|]. apply (Hstore (MkGaugeBaseline zero 0 (64 + Z.of_nat (length k)))); auto.
Qed.

Lemma add_to_ok m now k st created a :
  agg_ok a -> series a !! k = Some st -> stType st = Type_ m -> known (Type_ m) ->
  (forall n, created = Some n -> n = state_bytes st) ->
  exists r a', add_to m now k st created a = Val (r, a') /\ switch_post m now k st created r a a'.
Proof.
  intros Ha Hk Ht Hkn Hc. unfold add_to. destruct (Type_ m) eqn:Hm; [..|done].
  - apply add_counter_ok; by rewrite ?Hm.
  - apply add_gauge_ok; by rewrite ?Hm.
  - apply add_distribution_ok; by rewrite ?Hm.
  - apply add_distribution_ok; by rewrite ?Hm.
  - apply add_set_ok; by rewrite ?Hm.
Qed.

Definition fresh_state (c : AggregationConfig) (m : Metric) (tags : gmap bytes bytes) : aggregateState :=
  new_state c (normalizeMetricName (Name m)) (Type_ m) (metric_labels tags).

(** [Add]: the gauges are pruned first. *)
Record add_post (clock : Z) (m : Metric) (tags : gmap bytes bytes) (r : option add_refusal) (a a' : Aggregator)
  : Prop := AddPost {
  ap_ok : agg_ok a';
  ap_frame : frame a a';
  ap_accepted : r = None -> exists v,
    let st := default (fresh_state (cfg a) m tags) (series a !! metric_key m tags) in
    let now := default clock (ReceivedAt m) in
    series a' = <[metric_key m tags := observed (cfg a) v m st]> (series a) /\
    gauge_post m now (metric_key m tags) (pruneGaugesLocked now a) a' v;
  ap_refused : r <> None -> gauges a' = gauges (pruneGaugesLocked (default clock (ReceivedAt m)) a) /\
    (series a' = series a \/ series a !! metric_key m tags = None /\
       series a' = <[metric_key m tags := fresh_state (cfg a) m tags]> (series a))
}.

Lemma metric_key_type c m tags st :
  state_ok c (metric_key m tags) st -> known (Type_ m) -> tags_ok tags ->
  stName st = normalizeMetricName (Name m) /\ stType st = Type_ m /\ stLabels st = metric_labels tags.
Proof.
  intros [Hk Hn Ht Hl _] Hm Htags. symmetry in Hk. apply aggregationKey_inj in Hk; try done.
  - apply metric_name_free.
  - by apply metric_labels_ok.
Qed.

Lemma Add_ok clock m tags a :
  agg_ok a -> known (Type_ m) -> tags_ok tags ->
  exists r a', Add clock m tags a = Val (r, a') /\ add_post clock m tags r a a'.
Proof.
  intros Ha Hm Ht. unfold Add. cbv zeta.
  set (now := default clock (ReceivedAt m)). set (k := metric_key m tags).
  destruct (pruneGauges_ok now a Ha) as (Hp & Es & Eb & Ec & Ei & Er & Hg & _). set (p := pruneGaugesLocked now a) in *.
  assert (totalBytesLocked p <= totalBytesLocked a) as Htot by (unfold totalBytesLocked; lia).
  destruct (series p !! k) as [st|] eqn:Ek.
  - destruct (add_to_ok m now k st None p) as (r & a' & -> & [Hok [F1 F2 F3 F4] Hacc Href]); try done.
    { by apply (metric_key_type (cfg p) m tags); [apply Hp|..]. }
    eexists _, _. split; [done|]. rewrite Es in *. split; [done| | |].
    + split; try congruence. rewrite Ec in F4. lia.
    + intros Hr. destruct (Hacc Hr) as (v & E1 & E2). exists v. fold k. rewrite Ek. rewrite Ec in E1. done.
    + intros Hr. destruct (Href Hr) as (E1 & [E2 | (? & _)]); [|done]. auto.
  - rewrite Ec. fold (fresh_state (cfg a) m tags). set (st := fresh_state (cfg a) m tags). rewrite Z.gtb_ltb.
    destruct (Z.ltb_spec (MaxBytes (cfg a)) (totalBytesLocked p + estimateAggregateStateBytes st)).
    { eexists _, _. split; [done|]. split; [done| |done|by auto]. split; try done. lia. }
    assert (estimateAggregateStateBytes st = state_bytes st) as Eb'.
    { unfold state_bytes. change (setValues st) with (∅ : gset bytes). rewrite set_bytes_empty. lia. }
    set (p1 := set_series (<[k := st]> (series p)) (activeBytes p + estimateAggregateStateBytes st) p).
    assert (totalBytesLocked p1 = totalBytesLocked p + estimateAggregateStateBytes st) as Htot1.
    { unfold totalBytesLocked, p1. cbn [activeBytes inflightBytes gaugeBytes set_series]. lia. }
    destruct (add_to_ok m now k st (Some (estimateAggregateStateBytes st)) p1) as (r & a' & -> & [Hok [F1 F2 F3 F4] Hacc Href]); try done.
    { apply set_series_agg_ok; [done|by rewrite Ec; apply new_state_ok|]. rewrite Ek, Eb'. lia. }
    { cbn. apply lookup_insert_eq. }
    { by intros n [= <-]. }
    eexists _, _. split; [done|]. cbn [cfg series gauges reserved inflightBytes p1 set_series] in *. rewrite Es, Ec in *. split; [done| | |].
    + split; try congruence. rewrite Htot1 in F4. lia.
    + intros Hr. destruct (Hacc Hr) as (v & E1 & E2). exists v. fold k. rewrite Ek. rewrite insert_insert_eq in E1. split; [exact E1|exact E2].
    + intros Hr. destruct (Href Hr) as (E1 & E2). split; [done|]. fold k. destruct E2 as [E2 | (_ & E2 & _)]; [by right|].
      left. by rewrite E2, delete_insert_id.
Qed.

(** ** The metrics of a window *)

Definition fsum (l : list float64) : float64 := fold_left fadd l zero.

Lemma fsum_snoc {A} (f : A -> float64) l x : fsum (map f (l ++ [x])) = fadd (fsum (map f l)) (f x).
Proof. unfold fsum. by rewrite map_app, fold_left_app. Qed.

(** The state [st] as a function of the metrics [ms] accepted under its key; [base] is
    the gauge of the key before them. *)
Record summarises (c : AggregationConfig) (base : option gaugeBaseline) (ms : list Metric) (st : aggregateState)
  : Prop := Summarises {
  su_counter : stType st = MetricTypeCounter -> stValue st = fsum (map (fun m => fdiv (Value m) (SampleRate m)) ms);
  su_gauge : stType st = MetricTypeGauge -> exists init,
    (init = zero \/ gaugeValue <$> base = Some init) /\ stValue st = fold_left (fun v m => gauge_step m v) ms init;
  su_distribution : forall bounds, bounds_of c (stType st) = Some bounds ->
    stCount st = fsum (map weight ms) /\
    stSum st = fsum (map (fun m => fmul (Value m) (weight m)) ms) /\
    stBuckets st = map (fun b => fsum (map weight (List.filter (fun m => fle (Value m) b) ms))) bounds ++ [fsum (map weight ms)];
  su_set : stType st = MetricTypeSet -> setValues st = list_to_set (map SetValue ms)
}.

Lemma fresh_summary c base m tags : summarises c base [] (fresh_state c m tags).
Proof.
  split; [done|by exists zero; auto| |done]. cbn. intros bounds Hb. split_and!; [done|done|].
  trans (repeat zero (length bounds + 1)).
  - destruct (Type_ m); cbn in Hb; try done; by injection Hb as <-.
  - clear Hb. induction bounds as [|b bounds IH]; cbn in *; [done|]. by rewrite IH.
Qed.

Lemma bump_sums bounds m ms :
  bump bounds (Value m) (weight m)
    (map (fun b => fsum (map weight (List.filter (fun m => fle (Value m) b) ms))) bounds ++ [fsum (map weight ms)]) =
  map (fun b => fsum (map weight (List.filter (fun m => fle (Value m) b) (ms ++ [m])))) bounds ++
  [fsum (map weight (ms ++ [m]))].
Proof.
  induction bounds as [|b bounds IH]; cbn [map app bump]; [by rewrite fsum_snoc|].
  rewrite IH. f_equal. rewrite List.filter_app. cbn [List.filter]. destruct (fle (Value m) b).
  - by rewrite fsum_snoc.
  - by rewrite app_nil_r.
Qed.

Lemma observed_summary c base ms m v st :
  summarises c base ms st -> stType st = Type_ m ->
  (Type_ m = MetricTypeGauge -> exists init, (init = zero \/ gaugeValue <$> base = Some init) /\
     v = fold_left (fun v m => gauge_step m v) (ms ++ [m]) init) ->
  summarises c base (ms ++ [m]) (observed c v m st).
Proof.
  intros [H1 H2 H3 H4] Ht Hv. unfold observed. destruct (Type_ m) eqn:Em; split; cbn -[bounds_of]; rewrite ?Ht;
    try done; try (by intros ? [=]).
  - intros _. by rewrite H1, fsum_snoc by done.
  - intros bounds Hb. destruct (H3 bounds) as (E1 & E2 & E3); [by rewrite Ht|]. rewrite Hb, E1, E2, E3. cbn [default].
    unfold id. rewrite bump_sums, !fsum_snoc. done.
  - intros bounds Hb. destruct (H3 bounds) as (E1 & E2 & E3); [by rewrite Ht|]. rewrite Hb, E1, E2, E3. cbn [default].
    unfold id. rewrite bump_sums, !fsum_snoc. done.
  - intros _. rewrite H4, map_app by done. cbn [map]. rewrite list_to_set_app_L. cbn. set_solver.
Qed.

(** The metrics of [acc] with the key [k]. *)
Definition under (k : bytes) (acc : list (Metric * gmap bytes bytes)) : list Metric :=
  map fst (List.filter (fun mt => bytes_eqb (metric_key mt.1 mt.2) k) acc).

Lemma under_snoc k acc m tags :
  under k (acc ++ [(m, tags)]) = under k acc ++ (if decide (metric_key m tags = k) then [m] else []).
Proof.
  unfold under. rewrite List.filter_app, map_app. f_equal. cbn [List.filter fst snd]. unfold bytes_eqb.
  by destruct (decide (metric_key m tags = k)); [rewrite bool_decide_true|rewrite bool_decide_false].
Qed.

(** Metrics added one after the other: those accepted, and the aggregator. *)
Fixpoint add_all (ops : list (Z * Metric * gmap bytes bytes)) (a : Aggregator)
  : go (list (Metric * gmap bytes bytes) * Aggregator) :=
  match ops with
  | [] => Val ([], a)
  | (clock, m, tags) :: ops =>
      let! (r, a) := Add clock m tags a in
      let! (acc, a) := add_all ops a in
      Val (match r with None => (m, tags) :: acc | Some _ => acc end, a)
  end.

Definition received (op : Z * Metric * gmap bytes bytes) : Z := default op.1.1 (ReceivedAt op.1.2).

Definition op_ok (op : Z * Metric * gmap bytes bytes) : Prop := known (Type_ op.1.2) /\ tags_ok op.2.

(** After the metrics [acc], begun at [t0] with [a0]. *)
Record window_inv (t0 : Z) (a0 : Aggregator) (acc : list (Metric * gmap bytes bytes)) (a : Aggregator) : Prop := WindowInv {
  wi_ok : agg_ok a;
  wi_frame : frame a0 a;
  wi_present : forall m tags, (m, tags) ∈ acc -> is_Some (series a !! metric_key m tags);
  wi_summary : map_Forall (fun k st => summarises (cfg a0) (gauges a0 !! k) (under k acc) st) (series a);
  wi_untouched : forall k, under k acc = [] -> gauges a !! k = None \/ gauges a !! k = gauges a0 !! k;
  wi_gauge : forall k st, series a !! k = Some st -> stType st = MetricTypeGauge -> under k acc <> [] ->
    exists g, gauges a !! k = Some g /\ gaugeValue g = stValue st /\ t0 <= lastSeen g
}.

Lemma prune_keep now a k g :
  gauges a !! k = Some g -> now - GaugeTTL (cfg a) <= lastSeen g -> gauges (pruneGaugesLocked now a) !! k = Some g.
Proof.
  intros Hk Hg. unfold pruneGaugesLocked. cbv zeta. case_match; [done|]. cbn. apply map_lookup_filter_Some. split; [done|].
  cbn. unfold stale_gauge. destruct (Z.ltb_spec (lastSeen g) (now - GaugeTTL (cfg a))); [lia|done].
Qed.

Lemma frame_trans a b c : frame a b -> frame b c -> frame a c.
Proof. intros [H1 H2 H3 H4] [G1 G2 G3 G4]. rewrite H1 in G4. split; [congruence..|lia]. Qed.

(** A gauge in [a] or pruned. *)
Lemma prune_gauge now a k :
  agg_ok a -> gauges (pruneGaugesLocked now a) !! k = None \/ gauges (pruneGaugesLocked now a) !! k = gauges a !! k.
Proof.
  intros Ha. destruct (pruneGauges_ok now a Ha) as (_ & _ & _ & _ & _ & _ & _ & Hsub).
  destruct (gauges (pruneGaugesLocked now a) !! k) as [g|] eqn:E; [|by left]. right. symmetry. by eapply lookup_weaken.
Qed.

Lemma under_none (s : gmap bytes aggregateState) acc k :
  (forall m tags, (m, tags) ∈ acc -> is_Some (s !! metric_key m tags)) -> s !! k = None -> under k acc = [].
Proof.
  intros Hp Hk. unfold under. destruct (List.filter _ acc) as [|[m tags] l] eqn:E; [done|]. exfalso.
  assert (In (m, tags) (List.filter (fun mt => bytes_eqb (metric_key mt.1 mt.2) k) acc)) as Hin by (rewrite E; by left).
  apply List.filter_In in Hin as [Hin Hb]. apply list_elem_of_In in Hin. apply bool_decide_eq_true in Hb.
  apply Hp in Hin as [st Hst]. cbn in Hb. congruence.
Qed.

Lemma window_refused t0 a0 acc a clock m tags r a' :
  window_inv t0 a0 acc a -> add_post clock m tags r a a' -> r <> None ->
  default clock (ReceivedAt m) <= t0 + GaugeTTL (cfg a0) -> window_inv t0 a0 acc a'.
Proof.
  intros [Ha Hf Hp Hs Hu Hg] [Ha' Hf' _ Hr] Hne Hnow. destruct (Hr Hne) as [Eg Es]. clear Hr.
  assert (forall k st, series a !! k = Some st -> series a' !! k = Some st) as Hkeep.
  { intros k st Hk. destruct Es as [-> | [En ->]]; [done|]. rewrite lookup_insert_ne; [done|]. intros <-. congruence. }
  assert (forall k st, series a' !! k = Some st -> series a !! k = Some st \/
    series a !! k = None /\ exists m tags, st = fresh_state (cfg a0) m tags) as Hold.
  { intros k st. destruct Es as [-> | [En ->]]; [by auto|]. intros [[<- <-] | [_ Hk]]%lookup_insert_Some; [|by auto].
    right. split; [done|]. exists m, tags. by rewrite (fr_cfg _ _ Hf). }
  assert (forall k, series a !! k = None -> under k acc = []) as Hnone by (intros k; by apply under_none).
  split; [done|by eapply frame_trans| | | |].
  - intros m' tags' Hin. destruct (Hp m' tags' Hin) as [st Hst]. exists st. by apply Hkeep.
  - intros k st Hk. destruct (Hold k st Hk) as [Hk' | [Hk' (m' & tags' & ->)]]; [by apply Hs|].
    rewrite (Hnone k Hk'). apply fresh_summary.
  - intros k Hk. rewrite Eg. destruct (prune_gauge (default clock (ReceivedAt m)) a k Ha) as [-> | ->]; [by left|]. by apply Hu.
  - intros k st Hk Ht Hne'. destruct (Hold k st Hk) as [Hk' | [Hk' _]]; [|by rewrite Hnone in Hne'].
    destruct (Hg k st Hk' Ht Hne') as (g & E1 & E2 & E3). exists g. split_and!; [|done|done]. rewrite Eg.
    apply prune_keep; [done|]. rewrite (fr_cfg _ _ Hf). lia.
Qed.

Lemma window_accepted t0 a0 acc a clock m tags a' :
  window_inv t0 a0 acc a -> add_post clock m tags None a a' -> known (Type_ m) -> tags_ok tags ->
  t0 <= default clock (ReceivedAt m) <= t0 + GaugeTTL (cfg a0) -> window_inv t0 a0 (acc ++ [(m, tags)]) a'.
Proof.
  intros [Ha Hf Hp Hs Hu Hg] [Ha' Hf' Hacc _] Hm Ht Hnow. destruct (Hacc eq_refl) as (v & Es & Eg). clear Hacc.
  set (k := metric_key m tags) in *. set (now := default clock (ReceivedAt m)) in *.
  set (st := default _ _) in Es. rewrite (fr_cfg _ _ Hf) in Es.
  assert (stType st = Type_ m /\ summarises (cfg a0) (gauges a0 !! k) (under k acc) st) as [Hty Hsum].
  { unfold st. destruct (series a !! k) as [st'|] eqn:Ek; cbn [default].
    - split; [|by apply Hs]. by apply (metric_key_type (cfg a) m tags); [apply Ha|..].
    - rewrite (under_none (series a) acc k) by done. split; [done|]. rewrite (fr_cfg _ _ Hf). apply fresh_summary. }
  assert (Type_ m = MetricTypeGauge -> exists init, (init = zero \/ gaugeValue <$> gauges a0 !! k = Some init) /\
    v = fold_left (fun v m => gauge_step m v) (under k acc ++ [m]) init) as Hv.
  { intros Hg'. unfold gauge_post in Eg. rewrite Hg' in Eg. destruct Eg as [-> _]. rewrite Hg' in Hty.
    assert (under k acc = [] \/ under k acc <> []) as [Eu | Eu] by (destruct (under k acc); auto).
    - rewrite Eu. destruct (prune_gauge now a k Ha) as [-> | ->]; [exists zero; auto|].
      destruct (Hu k Eu) as [-> | ->]; [exists zero; auto|]. destruct (gauges a0 !! k) as [g|]; [|exists zero; auto].
      exists (gaugeValue g). auto.
    - destruct (series a !! k) as [st'|] eqn:Ek; [|by rewrite (under_none (series a) acc k) in Eu].
      destruct (Hg k st' Ek) as (g & E1 & E2 & E3); [done|done|].
      rewrite (prune_keep now a k g); [|done|rewrite (fr_cfg _ _ Hf); lia]. cbn.
      destruct (su_gauge _ _ _ _ Hsum Hty) as (init & Hi & Hst). exists init. split; [done|].
      rewrite fold_left_app. cbn [fold_left]. by rewrite E2, <-Hst. }
  split; [done|by eapply frame_trans| | | |].
  - intros m' tags' [Hin | Hin]%elem_of_app; rewrite Es.
    + destruct (Hp m' tags' Hin) as [st' Hst']. apply lookup_insert_is_Some'. right. by eexists.
    + apply list_elem_of_singleton in Hin as [= -> ->]. apply lookup_insert_is_Some'. by left.
  - intros k' st'. rewrite Es, under_snoc. fold k. intros [[<- <-] | [Hne Hk]]%lookup_insert_Some.
    + rewrite decide_True by done. by apply observed_summary.
    + rewrite decide_False, app_nil_r by done. by apply Hs.
  - intros k'. rewrite under_snoc. fold k. case_decide as Hk; [by intros []%app_eq_nil|]. rewrite app_nil_r. intros Hk'.
    assert (gauges a' !! k' = gauges (pruneGaugesLocked now a) !! k') as ->.
    { unfold gauge_post in Eg. destruct (Type_ m); try (by rewrite Eg). destruct Eg as [_ ->]. by rewrite lookup_insert_ne. }
    destruct (prune_gauge now a k' Ha) as [-> | ->]; [by left|]. by apply Hu.
  - intros k' st'. rewrite Es, under_snoc. fold k. intros [[<- <-] | [Hne Hk]]%lookup_insert_Some Hty' Hun.
    + assert (Type_ m = MetricTypeGauge) as Hm' by (rewrite <-Hty, <-Hty'; unfold observed; by destruct (Type_ m)).
      unfold gauge_post in Eg. rewrite Hm' in Eg. destruct Eg as [_ ->]. eexists. rewrite lookup_insert_eq. split; [done|].
      unfold observed. rewrite Hm'. cbn. split; [done|lia].
    + rewrite decide_False, app_nil_r in Hun by done. destruct (Hg k' st' Hk Hty' Hun) as (g & E1 & E2 & E3).
      exists g. split_and!; [|done|done]. assert (gauges (pruneGaugesLocked now a) !! k' = Some g) as Hpk.
      { apply prune_keep; [done|]. rewrite (fr_cfg _ _ Hf). lia. }
      unfold gauge_post in Eg. destruct (Type_ m); try (by rewrite Eg). destruct Eg as [_ ->]. by rewrite lookup_insert_ne.
Qed.

Lemma add_all_inv t0 a0 ops acc a :
  window_inv t0 a0 acc a -> Forall op_ok ops ->
  Forall (fun op => t0 <= received op <= t0 + GaugeTTL (cfg a0)) ops ->
  exists acc' a', add_all ops a = Val (acc', a') /\
    acc' `sublist_of` map (fun op => (op.1.2, op.2)) ops /\ window_inv t0 a0 (acc ++ acc') a'.
Proof.
  intros Hw Hok. revert acc a Hw. induction Hok as [|[[clock m] tags] ops [Hm Ht] _ IH]; intros acc a Hw Hnow.
  - exists [], a. rewrite app_nil_r. split_and!; [done|apply sublist_nil|done].
  - apply Forall_cons in Hnow as [Hn Hnow]. unfold received in Hn. cbn in Hm, Ht, Hn. cbn [add_all map fst snd].
    destruct (Add_ok clock m tags a (wi_ok _ _ _ _ Hw) Hm Ht) as (r & a1 & -> & Hpost). destruct r as [e|].
    + destruct (IH acc a1) as (acc' & a' & -> & Hsub & Hinv); [|done|].
      { eapply window_refused; [done|done|done|]. lia. }
      exists acc', a'. split_and!; [done|by constructor|done].
    + destruct (IH (acc ++ [(m, tags)]) a1) as (acc' & a' & -> & Hsub & Hinv); [by eapply window_accepted|done|].
      exists ((m, tags) :: acc'), a'. rewrite <-app_assoc in Hinv. split_and!; [done|by constructor|done].
Qed.

Lemma window_start t0 a : agg_ok a -> series a = ∅ -> window_inv t0 a [] a.
Proof.
  intros Ha Hs. split; [done|by split; try done; lia|by intros ? ? ?%elem_of_nil|by rewrite Hs|by auto|].
  intros k st. by rewrite Hs.
Qed.

(** ** The series of a window *)

Definition bucket_id (base : bytes) (labels : gmap bytes bytes) (value : bytes) : bytes * gmap bytes bytes :=
  (base ++ str "_bucket", <[str "le" := value]> labels).

Definition make (at_ : Z) (idv : (bytes * gmap bytes bytes) * float64) : TimeSeries :=
  aggregateSeries idv.1.1 idv.1.2 idv.2 at_.

Lemma bucket_series_spec base st pre cs tl bounds at_ :
  stBuckets st = pre ++ cs ++ tl -> length cs = length bounds ->
  bucket_series base st (length pre) bounds at_ =
  Val (zip_with (fun b n => make at_ (bucket_id base (stLabels st) (FormatFloat b), n)) bounds cs).
Proof.
  revert pre cs. induction bounds as [|b bounds IH]; intros pre [|n cs] Hb [=]; [done|]. cbn [bucket_series zip_with].
  rewrite Hb. cbn [app]. rewrite list_lookup_middle by done.
  specialize (IH (pre ++ [n]) cs). rewrite length_app, Nat.add_1_r, <-app_assoc in IH. by rewrite IH.
Qed.

(** The names, labels and values of the series of a distribution. *)
Definition distribution_ids (base : bytes) (st : aggregateState) (bounds : list float64)
  : list ((bytes * gmap bytes bytes) * float64) :=
  zip (map (fun b => bucket_id base (stLabels st) (FormatFloat b)) bounds ++
       [bucket_id base (stLabels st) (str "+Inf")]) (stBuckets st) ++
  [((base ++ str "_sum", stLabels st), stSum st); ((base ++ str "_count", stLabels st), stCount st)].

Lemma distributionSeries_spec base st bounds at_ :
  length (stBuckets st) = (length bounds + 1)%nat ->
  distributionSeries base st bounds at_ = Val (map (make at_) (distribution_ids base st bounds)).
Proof.
  intros Hl. unfold distributionSeries, distribution_ids. destruct (stBuckets st) as [|n cs _] eqn:Eb using rev_ind; [cbn in Hl; lia|].
  rewrite length_app in Hl. cbn in Hl. pose proof (bucket_series_spec base st [] cs [n] bounds at_) as H. cbn [length app] in H.
  rewrite H by (done || lia). rewrite last_snoc. f_equal. rewrite zip_with_app by (rewrite length_map; lia).
  rewrite !map_app. cbn [map zip_with]. rewrite <-app_assoc. cbn [app]. f_equal.
  assert (length cs = length bounds) as Hl' by lia. clear -Hl'. revert cs Hl'.
  induction bounds as [|b bounds IH]; intros [|x cs] [=]; cbn; [done|]. f_equal. by apply IH.
Qed.

(** The same for every type. *)
Definition state_ids (c : AggregationConfig) (st : aggregateState) : list ((bytes * gmap bytes bytes) * float64) :=
  match stType st with
  | MetricTypeCounter => [((stName st ++ str "_counter_count", stLabels st), stValue st)]
  | MetricTypeGauge => [((stName st ++ str "_gauge", stLabels st), stValue st)]
  | MetricTypeTimer => distribution_ids (stName st ++ str "_timer_ms") st (TimerBucketsMS c)
  | MetricTypeHistogram => distribution_ids (stName st ++ str "_histogram") st (HistogramBuckets c)
  | MetricTypeSet => [((stName st ++ str "_set_cardinality", stLabels st), of_int (Z.of_nat (size (setValues st))))]
  | MetricTypeOther _ => []
  end.

Lemma state_series_spec c k st at_ : state_ok c k st -> state_series c st at_ = Val (map (make at_) (state_ids c st)).
Proof.
  intros [_ _ _ _ Hb]. unfold state_series, state_ids. destruct (stType st); try done; by rewrite distributionSeries_spec by by apply Hb.
Qed.

Definition window_ids (c : AggregationConfig) (w : gmap bytes aggregateState) (keys : list bytes)
  : list ((bytes * gmap bytes bytes) * float64) :=
  concat (map (fun k => match w !! k with Some st => state_ids c st | None => [] end) keys).

Lemma states_series_spec c w keys at_ :
  map_Forall (state_ok c) w -> Forall (fun k => is_Some (w !! k)) keys ->
  states_series c w keys at_ = Val (map (make at_) (window_ids c w keys)).
Proof.
  intros Hw. induction 1 as [|k keys [st Hk] _ IH]; [done|]. cbn [states_series]. unfold window_ids. cbn [map concat].
  rewrite Hk, (state_series_spec c k) by by apply Hw. rewrite IH, map_app. done.
Qed.

Lemma sorted_keys_some {A} (w : gmap bytes A) : Forall (fun k => is_Some (w !! k)) (sorted_keys w).
Proof. apply Forall_forall. intros k Hk. by apply sorted_keys_elem. Qed.

Definition window_series (at_ : Z) (a : Aggregator) : list TimeSeries :=
  map (make at_) (window_ids (cfg a) (series a) (sorted_keys (series a))).

(** A snapshot when none is in flight, and when one is. *)
Lemma Snapshot_spec at_ a :
  agg_ok a ->
  Snapshot at_ a = Val (match reserved a with
                        | [] => (set_reserved (window_series at_ a) (activeBytes a) (set_series ∅ 0 a), window_series at_ a)
                        | l => (a, l)
                        end).
Proof.
  intros Ha. unfold Snapshot, rotate. destruct (reserved a) as [|s l] eqn:Er; [|done]. cbn [cfg set_series].
  rewrite states_series_spec; [done|apply Ha|apply sorted_keys_some].
Qed.

Lemma window_ids_elem c w keys k st x :
  k ∈ keys -> w !! k = Some st -> x ∈ state_ids c st -> x ∈ window_ids c w keys.
Proof.
  intros Hk Hst Hx. unfold window_ids. apply list_elem_of_In, in_concat. exists (state_ids c st). split; [|by apply list_elem_of_In].
  apply in_map_iff. exists k. rewrite Hst. split; [done|by apply list_elem_of_In].
Qed.

Lemma window_series_elem at_ a k st x :
  series a !! k = Some st -> x ∈ state_ids (cfg a) st -> make at_ x ∈ window_series at_ a.
Proof.
  intros Hk Hx. apply list_elem_of_fmap. exists x. split; [done|]. eapply window_ids_elem; [|done|done].
  apply sorted_keys_elem. by eexists.
Qed.

Lemma distribution_elem base st f bounds n x :
  stBuckets st = map f bounds ++ [n] ->
  (x = (bucket_id base (stLabels st) (str "+Inf"), n) \/ x = ((base ++ str "_sum", stLabels st), stSum st) \/
   x = ((base ++ str "_count", stLabels st), stCount st) \/
   exists b, b ∈ bounds /\ x = (bucket_id base (stLabels st) (FormatFloat b), f b)) ->
  x ∈ distribution_ids base st bounds.
Proof.
  intros Hb Hx. unfold distribution_ids. rewrite Hb, zip_with_app by by rewrite !length_map. rewrite !elem_of_app. cbn [zip_with].
  rewrite !elem_of_cons. destruct Hx as [-> | [-> | [-> | (b & Hin & ->)]]]; [by auto|by auto|by auto|]. left. left.
  clear Hb. induction Hin as [b|b b' bounds _ IH]; cbn; [left|by right].
Qed.

(** What a flush must contain for the metrics [ms] accepted with the key of [m] and
    [tags]. *)
Definition distribution_flushed (base : bytes) (labels : gmap bytes bytes) (bounds : list float64) (at_ : Z)
  (ms : list Metric) (result : list TimeSeries) : Prop :=
  Forall (fun b => aggregateSeries (base ++ str "_bucket") (<[str "le" := FormatFloat b]> labels)
                     (fsum (map weight (List.filter (fun m => fle (Value m) b) ms))) at_ ∈ result) bounds /\
  aggregateSeries (base ++ str "_bucket") (<[str "le" := str "+Inf"]> labels) (fsum (map weight ms)) at_ ∈ result /\
  aggregateSeries (base ++ str "_sum") labels (fsum (map (fun m => fmul (Value m) (weight m)) ms)) at_ ∈ result /\
  aggregateSeries (base ++ str "_count") labels (fsum (map weight ms)) at_ ∈ result.

Definition flushed (c : AggregationConfig) (at_ : Z) (base : option gaugeBaseline) (m : Metric) (tags : gmap bytes bytes)
  (ms : list Metric) (result : list TimeSeries) : Prop :=
  let name := normalizeMetricName (Name m) in
  let labels := metric_labels tags in
  match Type_ m with
  | MetricTypeCounter =>
      aggregateSeries (name ++ str "_counter_count") labels (fsum (map (fun m => fdiv (Value m) (SampleRate m)) ms)) at_ ∈ result
  | MetricTypeGauge => exists init, (init = zero \/ gaugeValue <$> base = Some init) /\
      aggregateSeries (name ++ str "_gauge") labels (fold_left (fun v m => gauge_step m v) ms init) at_ ∈ result
  | MetricTypeTimer => distribution_flushed (name ++ str "_timer_ms") labels (TimerBucketsMS c) at_ ms result
  | MetricTypeHistogram => distribution_flushed (name ++ str "_histogram") labels (HistogramBuckets c) at_ ms result
  | MetricTypeSet =>
      aggregateSeries (name ++ str "_set_cardinality") labels
        (of_int (Z.of_nat (size (list_to_set (map SetValue ms) : gset bytes)))) at_ ∈ result
  | MetricTypeOther _ => False
  end.

Lemma distribution_flushed_intro base st bounds at_ ms result :
  stCount st = fsum (map weight ms) -> stSum st = fsum (map (fun m => fmul (Value m) (weight m)) ms) ->
  stBuckets st = map (fun b => fsum (map weight (List.filter (fun m => fle (Value m) b) ms))) bounds ++ [fsum (map weight ms)] ->
  (forall x, x ∈ distribution_ids base st bounds -> make at_ x ∈ result) ->
  distribution_flushed base (stLabels st) bounds at_ ms result.
Proof.
  intros E1 E2 E3 Hr. pose proof (fun x => distribution_elem base st _ bounds _ x E3) as Hel. split_and!.
  - apply Forall_forall. intros b Hb. apply (Hr (bucket_id base (stLabels st) (FormatFloat b), _)). apply Hel. eauto 8.
  - apply (Hr (bucket_id base (stLabels st) (str "+Inf"), _)). apply Hel. auto.
  - rewrite <-E2. apply (Hr ((_, _), _)). apply Hel. auto.
  - rewrite <-E1. apply (Hr ((_, _), _)). apply Hel. auto.
Qed.

Lemma summary_flushed c at_ k base m tags ms st result :
  state_ok c k st -> k = metric_key m tags -> known (Type_ m) -> tags_ok tags ->
  summarises c base ms st -> (forall x, x ∈ state_ids c st -> make at_ x ∈ result) ->
  flushed c at_ base m tags ms result.
Proof.
  intros Hst -> Hm Ht [H1 H2 H3 H4] Hr. destruct (metric_key_type c m tags st Hst Hm Ht) as (En & Et & El).
  unfold flushed, state_ids in *. rewrite <-En, <-El, <-Et in *.
  destruct (stType st) eqn:Ety.
  - rewrite <-H1 by done. apply (Hr ((_, _), _)). by left.
  - destruct H2 as (init & Hi & E); [done|]. exists init. split; [done|]. rewrite <-E. apply (Hr ((_, _), _)). by left.
  - destruct (H3 _ eq_refl) as (E1 & E2 & E3). by apply distribution_flushed_intro.
  - destruct (H3 _ eq_refl) as (E1 & E2 & E3). by apply distribution_flushed_intro.
  - rewrite <-H4 by done. apply (Hr ((_, _), _)). by left.
  - done.
Qed.

(** A window is empty and nothing is in flight. *)
Definition idle (a : Aggregator) : Prop := agg_ok a /\ series a = ∅ /\ reserved a = [].

(** C23: A window does what its metrics say.  Metrics are added without a run-time panic;
    at the flush every metric that was accepted is in the series of its name, type and
    labels, whose value is the sum of the scaled counts, the gauge after all its
    updates, the numbers of values up to each bucket boundary with their sum and
    count, or the number of distinct members, of exactly the accepted metrics of that
    key.  Afterwards the window is empty again. *)
Theorem window_flushed t0 ops a0 at_ :
  idle a0 -> Forall op_ok ops -> Forall (fun op => t0 <= received op <= t0 + GaugeTTL (cfg a0)) ops ->
  exists acc a a' result,
    add_all ops a0 = Val (acc, a) /\ acc `sublist_of` map (fun op => (op.1.2, op.2)) ops /\
    Flush at_ a = Val (a', result) /\ idle a' /\
    forall m tags, (m, tags) ∈ acc ->
      flushed (cfg a0) at_ (gauges a0 !! metric_key m tags) m tags (under (metric_key m tags) acc) result.
Proof.
  intros (Ha & Hs & Hr) Hok Hnow.
  destruct (add_all_inv t0 a0 ops [] a0) as (acc & a & E & Hsub & Hinv); [by apply window_start|done|done|].
  cbn [app] in Hinv. destruct Hinv as [Hoka [F1 F2 F3 F4] Hp Hsum _ _].
  exists acc, a. unfold Flush. rewrite Snapshot_spec, F2, Hr by done.
  eexists _, _. split_and!; [done|done|done| |].
  - destruct Hoka as [H1 H2 H3 H4]. by split_and!; [split|..].
  - intros m tags Hin. destruct (Hp m tags Hin) as [st Hst]. rewrite <-F1.
    assert (op_ok (0, m, tags)) as [Hm Ht].
    { apply sublist_submseteq in Hsub. pose proof (elem_of_submseteq _ _ _ Hin Hsub) as Hel. apply list_elem_of_fmap in Hel as ([[cl m'] tags'] & [= -> ->] & Hop).
      rewrite Forall_forall in Hok. by apply Hok in Hop. }
    eapply summary_flushed; [by apply Hoka|done|done|done|rewrite F1; by apply Hsum|].
    intros x Hx. by eapply window_series_elem.
Qed.

Definition demo_config : AggregationConfig :=
  MkAggregationConfig [of_int 5; of_int 10; of_int 100] [of_int 1; of_int 1000] 2 100000 (3600 * 1000000000).

Definition new (c : AggregationConfig) : Aggregator := MkAggregator c ∅ [] 0 0 ∅ 0 None.

Lemma new_idle c : idle (new c).
Proof. split_and!; [split|done|done]; cbn; by rewrite ?msum_empty. Qed.

Definition demo_metric (t : MetricType) (name : bytes) (v : Z) (member : bytes) (at_ : Z) : Metric :=
  MkMetric name t (of_int v) member false (fdiv one (of_int 2)) ∅ (Some at_).

Definition demo_ops : list (Z * Metric * gmap bytes bytes) :=
  [(0, demo_metric MetricTypeCounter (str "hits") 3 [] 10, ∅);
   (0, demo_metric MetricTypeTimer (str "lat") 7 [] 11, {[str "env" := str "prod"]});
   (0, demo_metric MetricTypeCounter (str "hits") 4 [] 12, ∅);
   (0, demo_metric MetricTypeSet (str "users") 0 (str "u1") 13, ∅)].

Lemma window_flushed_witness :
  exists acc a a' result,
    add_all demo_ops (new demo_config) = Val (acc, a) /\ Flush 20000000 a = Val (a', result) /\ idle a' /\ length acc = 4%nat.
Proof.
  destruct (window_flushed 10 demo_ops (new demo_config) 20000000) as (acc & a & a' & result & E1 & _ & E2 & E3 & _).
  - apply new_idle.
  - assert (tags_ok ∅ /\ tags_ok {[str "env" := str "prod"]}) as [H1 H2].
    { split; [apply map_Forall_empty|]. apply map_Forall_singleton. split; by repeat constructor. }
    unfold demo_ops. repeat (apply Forall_cons; split; [by split|]). constructor.
  - repeat constructor; done.
  - exists acc, a, a', result. split; [exact E1|]. split; [exact E2|]. split; [exact E3|].
    assert (match add_all demo_ops (new demo_config) with Val (acc, _) => length acc | Panic => O end = 4%nat) as H
      by (vm_compute; reflexivity).
    rewrite E1 in H. exact H.
Defined.

End StatsdAggregatorSpec.
