(* ===== verification/StatsdFlush.v ===== *)
(** * DogStatsD: series of a flush, and memory

    A flush yields each series once, provided no metric carries a tag [le]; the bytes
    accounted for stay below the limit, and below twice the limit when metrics arrive
    while a snapshot is taken. *)

From Stdlib Require Floats.SpecFloat.
From S2P Require Import Prelude GoLib GoText GoFloat GoUtf8 Statsd StatsdSpec StatsdPolicy StatsdPolicySpec.
From S2P Require Import StatsdAggregator StatsdAggregatorSpec.

Module StatsdFlush.
Import GoText GoFloat GoUtf8 Statsd StatsdSpec StatsdPolicy StatsdPolicySpec StatsdAggregator StatsdAggregatorSpec.

(** ** Each series once *)

(** The ends of the names of the series of a type. *)
Definition suffixes : list (MetricType * bytes) :=
  [(MetricTypeCounter, str "_counter_count"); (MetricTypeGauge, str "_gauge");
   (MetricTypeTimer, str "_timer_ms_bucket"); (MetricTypeTimer, str "_timer_ms_sum"); (MetricTypeTimer, str "_timer_ms_count");
   (MetricTypeHistogram, str "_histogram_bucket"); (MetricTypeHistogram, str "_histogram_sum");
   (MetricTypeHistogram, str "_histogram_count"); (MetricTypeSet, str "_set_cardinality")].

Lemma suffix_unique (p q : MetricType * bytes) : p ∈ suffixes -> q ∈ suffixes -> HasSuffix q.2 p.2 = true -> p = q.
Proof.
  intros Hp Hq Hs.
  assert (forallb (fun p => forallb (fun q => negb (HasSuffix q.2 p.2) || bool_decide (p = q)) suffixes) suffixes = true) as Hall
    by by vm_compute.
  rewrite forallb_forall in Hall. apply list_elem_of_In in Hp, Hq. specialize (Hall p Hp).
  rewrite forallb_forall in Hall. specialize (Hall q Hq). rewrite Hs in Hall. by apply bool_decide_eq_true in Hall.
Qed.

(** A name with its end is the name of one type only. *)
Lemma suffix_inj (p q : MetricType * bytes) (n n' : bytes) : p ∈ suffixes -> q ∈ suffixes -> n ++ p.2 = n' ++ q.2 -> p = q /\ n = n'.
Proof.
  intros Hp Hq E. assert (p = q) as ->.
  { apply app_eq_inv in E as [(k & _ & E) | (k & _ & E)].
    - apply suffix_unique; [done|done|]. unfold bytes in *. rewrite E. apply HasSuffix_app.
    - symmetry. apply suffix_unique; [done|done|]. unfold bytes in *. rewrite E. apply HasSuffix_app. }
  split; [done|]. by apply app_inj_2 in E as [-> _].
Qed.

Definition no_le (labels : gmap bytes bytes) : Prop := labels !! str "le" = None.

Ltac in_suffixes := unfold suffixes; repeat (first [left | right]).

(** What identifies the series of a state. *)
Lemma state_id_parts c st x :
  x ∈ state_ids c st -> no_le (stLabels st) ->
  exists p, p ∈ suffixes /\ p.1 = stType st /\ x.1.1 = stName st ++ p.2 /\ delete (str "le") x.1.2 = stLabels st.
Proof.
  intros Hx Hl. assert (delete (str "le") (stLabels st) = stLabels st) as Hd by by apply delete_id.
  assert (forall base bounds, x ∈ distribution_ids base st bounds ->
    delete (str "le") x.1.2 = stLabels st /\ exists s, s ∈ [str "_bucket"; str "_sum"; str "_count"] /\ x.1.1 = base ++ s) as Hdist.
  { intros base bounds [Hz | Hz]%elem_of_app.
    - destruct x as [id v]. apply elem_of_zip_l in Hz. apply elem_of_app in Hz as [Hz | Hz].
      + apply list_elem_of_fmap in Hz as (b & -> & _). unfold bucket_id. cbn [fst snd]. rewrite delete_insert_eq, Hd. split; [done|]. exists (str "_bucket"). by split; [left|].
      + apply list_elem_of_singleton in Hz as ->. unfold bucket_id. cbn [fst snd]. rewrite delete_insert_eq, Hd. split; [done|]. exists (str "_bucket"). by split; [left|].
    - repeat (apply elem_of_cons in Hz as [-> | Hz]); [| |by apply elem_of_nil in Hz]; (split; [done|]);
        [exists (str "_sum")|exists (str "_count")]; (split; [|done]); [by right; left|by right; right; left]. }
  assert (forall t s base bounds, Forall (fun s' => (t, s ++ s') ∈ suffixes) [str "_bucket"; str "_sum"; str "_count"] ->
    base = stName st ++ s -> x ∈ distribution_ids base st bounds ->
    exists p, p ∈ suffixes /\ p.1 = t /\ x.1.1 = stName st ++ p.2 /\ delete (str "le") x.1.2 = stLabels st) as Hids.
  { intros t s base bounds Hs -> Hz. destruct (Hdist _ _ Hz) as (E & s' & Hs' & En). rewrite Forall_forall in Hs.
    exists (t, s ++ s'). split_and!; [by apply Hs|done| |done]. rewrite En. cbn [snd]. by rewrite app_assoc. }
  unfold state_ids in Hx. destruct (stType st); [| | | | |by apply elem_of_nil in Hx].
  - apply list_elem_of_singleton in Hx as ->. exists (MetricTypeCounter, str "_counter_count"). split; [|by split_and!]. in_suffixes.
  - apply list_elem_of_singleton in Hx as ->. exists (MetricTypeGauge, str "_gauge"). split; [|by split_and!]. in_suffixes.
  - eapply Hids; [|done|exact Hx]. repeat constructor; in_suffixes.
  - eapply Hids; [|done|exact Hx]. repeat constructor; in_suffixes.
  - apply list_elem_of_singleton in Hx as ->. exists (MetricTypeSet, str "_set_cardinality"). split; [|by split_and!]. in_suffixes.
Qed.

(** The texts of the boundaries are different, also from that of the last bucket. *)
Definition le_texts (bounds : list float64) : Prop := NoDup (map FormatFloat bounds ++ [str "+Inf"]).

Lemma bucket_id_inj base labels v v' : bucket_id base labels v = bucket_id base labels v' -> v = v'.
Proof.
  intros [= E]. apply (f_equal (fun m : gmap bytes bytes => m !! str "le")) in E. rewrite !lookup_insert_eq in E. by injection E.
Qed.

Lemma distribution_NoDup base st bounds :
  length (stBuckets st) = (length bounds + 1)%nat -> le_texts bounds -> NoDup (distribution_ids base st bounds).*1.
Proof.
  intros Hl Ht. unfold distribution_ids. rewrite fmap_app, fst_zip by (rewrite length_app, length_map; cbn; lia).
  assert (map (fun b => bucket_id base (stLabels st) (FormatFloat b)) bounds ++ [bucket_id base (stLabels st) (str "+Inf")] =
    map (bucket_id base (stLabels st)) (map FormatFloat bounds ++ [str "+Inf"])) as -> by by rewrite map_app, map_map.
  assert (forall s s', base ++ s = base ++ s' -> s = s') as Hinj by (intros s s'; apply app_inv_head).
  apply NoDup_app. split_and!.
  - apply NoDup_fmap_2_strong; [|done]. intros v v' _ _. apply bucket_id_inj.
  - intros x (v & -> & _)%list_elem_of_fmap. unfold bucket_id. cbn [fmap list_fmap fst].
    rewrite !elem_of_cons, elem_of_nil. intros [[= E%Hinj _] | [[= E%Hinj _] | []]]; by vm_compute in E.
  - cbn [fmap list_fmap fst]. apply NoDup_cons. split; [|apply NoDup_singleton]. intros [= E%Hinj]%list_elem_of_singleton. by vm_compute in E.
Qed.

Definition config_texts (c : AggregationConfig) : Prop := le_texts (TimerBucketsMS c) /\ le_texts (HistogramBuckets c).

Lemma state_ids_NoDup c k st : state_ok c k st -> config_texts c -> NoDup (state_ids c st).*1.
Proof.
  intros [_ _ _ _ Hb] [H1 H2]. unfold state_ids. destruct (stType st); [apply NoDup_singleton..| | |apply NoDup_singleton|constructor];
    (apply distribution_NoDup; [by apply Hb|done]).
Qed.

Lemma NoDup_concat_map {A B} (f : A -> list B) (l : list A) :
  NoDup l -> (forall x, x ∈ l -> NoDup (f x)) -> (forall x y b, x ∈ l -> y ∈ l -> b ∈ f x -> b ∈ f y -> x = y) ->
  NoDup (concat (map f l)).
Proof.
  induction 1 as [|x l Hx Hl IH]; intros Hn Hd; cbn; [constructor|]. apply NoDup_app. split_and!.
  - apply Hn. left.
  - intros b Hb Hc. apply list_elem_of_In, in_concat in Hc as (l' & Hl' & Hb'). apply in_map_iff in Hl' as (y & <- & Hy).
    apply list_elem_of_In in Hb', Hy. assert (x = y) as ->; [|done]. eapply Hd; [left|by right|done|done].
  - apply IH; [intros y Hy; apply Hn; by right|]. intros y z b Hy Hz. apply Hd; by right.
Qed.

Lemma window_ids_NoDup c w :
  map_Forall (state_ok c) w -> map_Forall (fun _ st => no_le (stLabels st)) w -> config_texts c ->
  NoDup (window_ids c w (sorted_keys w)).*1.
Proof.
  intros Hok Hle Hc. unfold window_ids. change (fst <$> concat ?l) with (map fst (concat l)). rewrite concat_map, map_map.
  assert (forall k b, b ∈ map fst (match w !! k with Some st => state_ids c st | None => [] end) ->
    exists st p, w !! k = Some st /\ p ∈ suffixes /\ p.1 = stType st /\ b.1 = stName st ++ p.2 /\
      delete (str "le") b.2 = stLabels st) as Hid.
  { intros k b (x & -> & Hx)%list_elem_of_fmap. destruct (w !! k) as [st|] eqn:Ek; [|by apply elem_of_nil in Hx].
    destruct (state_id_parts c st x Hx) as (p & ?); [by apply (Hle k)|]. by exists st, p. }
  apply NoDup_concat_map; [apply sorted_keys_NoDup| |].
  - intros k _. destruct (w !! k) as [st|] eqn:Ek; [|constructor]. by eapply state_ids_NoDup; [apply Hok|].
  - intros k k' b _ _ Hb Hb'. destruct (Hid k b Hb) as (st & p & Ek & Hp & Et & En & El).
    destruct (Hid k' b Hb') as (st' & p' & Ek' & Hp' & Et' & En' & El'). rewrite En in En'.
    apply suffix_inj in En' as [-> En']; [|done..]. apply Hok in Ek, Ek'. rewrite (so_key _ _ _ Ek), (so_key _ _ _ Ek').
    congruence.
Qed.

Lemma make_labels at_ l : NoDup l.*1 -> NoDup (map Labels (map (make at_) l)).
Proof.
  intros Hn. rewrite map_map.
  assert (map (fun x => Labels (make at_ x)) l = map (fun id => labelsMapToSortedPromLabels id.1 id.2) (map fst l)) as ->
    by by rewrite map_map.
  apply (NoDup_fmap_2_strong _ _); [|done]. intros [n m] [n' m'] _ _ E. by apply (prom_labels_inj n n' m m') in E as [-> ->].
Qed.

Definition window_no_le (a : Aggregator) : Prop := map_Forall (fun _ st => no_le (stLabels st)) (series a).

Lemma add_no_le clock m tags r a a' :
  add_post clock m tags r a a' -> no_le tags -> window_no_le a -> window_no_le a'.
Proof.
  intros [_ _ Hacc Href] Ht Ha.
  assert (no_le (stLabels (fresh_state (cfg a) m tags))) as Hf.
  { unfold no_le, fresh_state, metric_labels. cbn [stLabels new_state]. by rewrite lookup_insert_ne. }
  unfold window_no_le. destruct r as [e|].
  - destruct (Href ltac:(done)) as [_ [-> | [_ ->]]]; [done|]. by apply map_Forall_insert_2.
  - destruct (Hacc eq_refl) as (v & -> & _). apply map_Forall_insert_2; [|done].
    assert (forall st, no_le (stLabels st) -> no_le (stLabels (observed (cfg a) v m st))) as Ho
      by (intros st; unfold observed; by destruct (Type_ m)).
    apply Ho. destruct (series a !! metric_key m tags) as [st|] eqn:E; [by apply (Ha (metric_key m tags))|done].
Qed.

Lemma add_all_ok ops a :
  agg_ok a -> Forall op_ok ops ->
  exists acc a', add_all ops a = Val (acc, a') /\ agg_ok a' /\ frame a a' /\
    (Forall (fun op => no_le op.2) ops -> window_no_le a -> window_no_le a').
Proof.
  intros Ha Hok. revert a Ha. induction Hok as [|[[clock m] tags] ops [Hm Ht] _ IH]; intros a Ha.
  - exists [], a. split_and!; [done|done|by split; try done; lia|done].
  - cbn [add_all]. destruct (Add_ok clock m tags a Ha Hm Ht) as (r & a1 & -> & Hpost).
    destruct (IH a1) as (acc & a' & -> & Ha' & Hf & Hn); [by apply Hpost|]. eexists _, a'. split_and!; [done|done| |].
    + eapply frame_trans; [apply Hpost|done].
    + intros [Hl Hls]%Forall_cons Hw. apply Hn; [done|]. by eapply add_no_le.
Qed.

(** A flush yields no two series with the same labels, whatever the metrics were, as
    long as none of them carries a tag [le] and the texts of the bucket boundaries
    differ. *)
Theorem flush_distinct ops a0 at_ :
  idle a0 -> config_texts (cfg a0) -> Forall op_ok ops -> Forall (fun op => no_le op.2) ops ->
  exists acc a a' result, add_all ops a0 = Val (acc, a) /\ Flush at_ a = Val (a', result) /\ NoDup (map Labels result).
Proof.
  intros (Ha & Hs & Hr) Hc Hok Hle. destruct (add_all_ok ops a0 Ha Hok) as (acc & a & E & Hoka & Hf & Hn).
  exists acc, a. unfold Flush. rewrite Snapshot_spec, (fr_reserved _ _ Hf), Hr by done.
  eexists _, _. split; [done|]. split; [done|]. apply make_labels, window_ids_NoDup; [apply Hoka| |].
  - apply Hn; [done|]. unfold window_no_le. rewrite Hs. apply map_Forall_empty.
  - by rewrite (fr_cfg _ _ Hf).
Qed.

Lemma window_ops_ok : Forall op_ok demo_ops.
Proof.
  assert (tags_ok ∅ /\ tags_ok {[str "env" := str "prod"]}) as [H1 H2].
  { split; [apply map_Forall_empty|]. apply map_Forall_singleton. split; by repeat constructor. }
  unfold demo_ops. repeat (apply Forall_cons; split; [by split|]). constructor.
Qed.

Lemma flush_distinct_witness :
  exists acc a a' result, add_all demo_ops (new demo_config) = Val (acc, a) /\ Flush 0 a = Val (a', result) /\
    NoDup (map Labels result).
Proof.
  apply (flush_distinct demo_ops (new demo_config) 0).
  - apply new_idle.
  - split; apply (bool_decide_unpack _); vm_compute; reflexivity.
  - apply window_ops_ok.
  - unfold demo_ops. repeat (apply Forall_cons; split; [vm_compute; reflexivity|]). constructor.
Defined.

(** ** Memory *)

Lemma window_bytes_nonneg a : agg_ok a -> 0 <= activeBytes a.
Proof.
  intros [_ -> _ _]. apply msum_nonneg. intros k st _. unfold state_bytes, estimateAggregateStateBytes, set_bytes.
  assert (0 <= msum (fun key value => 48 + Z.of_nat (length key) + Z.of_nat (length value)) (stLabels st)); [|lia].
  apply msum_nonneg. intros. lia.
Qed.

(** The operations on an aggregator one after the other. *)
Inductive agg_op := OpAdd (clock : Z) (m : Metric) (tags : gmap bytes bytes) | OpSnapshot (at_ : Z) | OpCommit.

Definition agg_apply (o : agg_op) (a : Aggregator) : go Aggregator :=
  match o with
  | OpAdd clock m tags => let! (_, a) := Add clock m tags a in Val a
  | OpSnapshot at_ => let! (a, _) := Snapshot at_ a in Val a
  | OpCommit => Val (Commit a)
  end.

Fixpoint agg_run (ops : list agg_op) (a : Aggregator) : go Aggregator :=
  match ops with
  | [] => Val a
  | o :: ops => let! a := agg_apply o a in agg_run ops a
  end.

Definition agg_op_ok (o : agg_op) : Prop :=
  match o with OpAdd _ m tags => known (Type_ m) /\ tags_ok tags | _ => True end.

(** The bytes of a window in flight are counted as long as there is one. *)
Record bounded (a : Aggregator) : Prop := Bounded {
  bd_ok : agg_ok a;
  bd_inflight : 0 <= inflightBytes a;
  bd_total : totalBytesLocked a <= MaxBytes (cfg a);
  bd_none : reserved a = [] -> inflightBytes a = 0
}.

Lemma empty_window_ids c w :
  map_Forall (state_ok c) w -> window_ids c w (sorted_keys w) = [] -> w = ∅.
Proof.
  intros Hw E. apply map_empty. intros k. destruct (w !! k) as [st|] eqn:Ek; [|done]. exfalso.
  assert (exists x, x ∈ state_ids c st) as [x Hx].
  { destruct (Hw k st Ek) as [_ _ Ht _ _]. unfold state_ids. destruct (stType st); try done; try (eexists; by left).
    - eexists. apply elem_of_app. right. by left.
    - eexists. apply elem_of_app. right. by left. }
  assert (x ∈ window_ids c w (sorted_keys w)) as Hin.
  { eapply window_ids_elem; [|done|done]. apply sorted_keys_elem. by eexists. }
  rewrite E in Hin. by apply elem_of_nil in Hin.
Qed.

Lemma agg_apply_bounded o a :
  bounded a -> agg_op_ok o -> exists a', agg_apply o a = Val a' /\ bounded a' /\ cfg a' = cfg a.
Proof.
  intros [Ha Hi Ht Hn] Ho. destruct o as [clock m tags|at_|]; cbn [agg_apply].
  - destruct Ho as [Hm Htags]. destruct (Add_ok clock m tags a Ha Hm Htags) as (r & a' & -> & [Ha' [F1 F2 F3 F4] _ _]).
    exists a'. split_and!; [done| |done]. split; [done|lia|rewrite F1; lia|]. rewrite F2, F3. done.
  - rewrite Snapshot_spec by done. pose proof (window_bytes_nonneg a Ha). destruct (reserved a) as [|s l] eqn:Er; eexists.
    + split_and!; [done| |done]. split; cbn; [|done| |].
      * destruct Ha as [H1 H2 H3 H4]. by split.
      * unfold totalBytesLocked in *. rewrite Hn in Ht by done. cbn. lia.
      * intros E%map_eq_nil. apply empty_window_ids in E; [|apply Ha]. rewrite (ao_active _ Ha), E. apply msum_empty.
    + split_and!; [done| |done]. split; try done. by rewrite Er.
  - eexists. split_and!; [done| |done]. destruct Ha as [H1 H2 H3 H4]. split; [by split|done| |done].
    unfold totalBytesLocked in *. cbn in *. lia.
Qed.

(** Adding, snapshots and commits one after the other never panic, and the bytes
    accounted for are those of the states, gauges and the window in flight, and never
    more than the configured maximum. *)
Theorem agg_run_bounded c ops :
  0 <= MaxBytes c -> Forall agg_op_ok ops ->
  exists a, agg_run ops (new c) = Val a /\ Bytes a <= MaxBytes c /\
    Bytes a = msum (fun _ st => state_bytes st) (series a) + inflightBytes a + msum (fun k _ => 64 + Z.of_nat (length k)) (gauges a).
Proof.
  intros Hc Hok. assert (bounded (new c)) as Hb by (split; [apply new_idle|done|exact Hc|done]).
  assert (exists a, agg_run ops (new c) = Val a /\ bounded a /\ cfg a = c) as (a & E & [Ha _ Ht _] & Ec).
  { assert (cfg (new c) = c) as Ec by done. revert Hb Ec. generalize (new c).
    induction Hok as [|o ops Ho _ IH]; intros a Hb Ec; [by eauto|]. cbn [agg_run].
    destruct (agg_apply_bounded o a Hb Ho) as (a' & -> & Hb' & Ec'). apply IH; [done|congruence]. }
  exists a. split_and!; [done|by rewrite <-Ec|]. unfold Bytes, totalBytesLocked. rewrite (ao_active _ Ha), (ao_gauge_bytes _ Ha).
  f_equal. apply msum_ext. intros k g Hg. by apply (ao_gauges _ Ha) in Hg.
Qed.

Lemma agg_run_bounded_witness :
  exists a, agg_run [OpAdd 0 (demo_metric MetricTypeCounter (str "hits") 3 [] 10) ∅; OpSnapshot 5;
                     OpAdd 0 (demo_metric MetricTypeGauge (str "load") 3 [] 10) ∅; OpCommit] (new demo_config) = Val a /\
    Bytes a <= 100000.
Proof.
  destruct (agg_run_bounded demo_config
    [OpAdd 0 (demo_metric MetricTypeCounter (str "hits") 3 [] 10) ∅; OpSnapshot 5;
     OpAdd 0 (demo_metric MetricTypeGauge (str "load") 3 [] 10) ∅; OpCommit]) as (a & E & Hb & _).
  - vm_compute. discriminate.
  - assert (tags_ok ∅) as Ht by apply map_Forall_empty. repeat (apply Forall_cons; split; [by split|]). constructor.
  - exists a. split; [exact E|exact Hb].
Defined.

(** ** Metrics that arrive during a snapshot *)

(** The lock is not held while the series of a window are built. *)
Inductive flusher := Waiting | Rendering (window : gmap bytes aggregateState) (windowBytes : Z).

Inductive agg_step : Aggregator * flusher -> Aggregator * flusher -> Prop :=
  | step_add clock m tags r a a' f :
      known (Type_ m) -> tags_ok tags -> Add clock m tags a = Val (r, a') -> agg_step (a, f) (a', f)
  | step_rotate a a' w n : rotate a = (a', inr (w, n)) -> agg_step (a, Waiting) (a', Rendering w n)
  | step_reserve a w n at_ result :
      states_series (cfg a) w (sorted_keys w) at_ = Val result -> agg_step (a, Rendering w n) (reserve result n a, Waiting)
  | step_commit a : agg_step (a, Waiting) (Commit a, Waiting).

(** The estimate of the memory an aggregator holds: for each series its name, buckets,
    labels and set values; the window in flight; and 64 bytes and the key for each gauge. *)
Definition footprint (st : aggregateState) : Z :=
  192 + Z.of_nat (length (stName st)) + 8 * Z.of_nat (length (stBuckets st)) +
  msum (fun key value => 48 + Z.of_nat (length key) + Z.of_nat (length value)) (stLabels st) +
  Z.of_nat (sum_list_with (fun v => length v + 16)%nat (elements (setValues st))).
Definition footprints (w : gmap bytes aggregateState) : Z := msum (fun _ st => footprint st) w.
Definition held (a : Aggregator) : Z :=
  footprints (series a) + inflightBytes a + msum (fun key _ => 64 + Z.of_nat (length key)) (gauges a).

Lemma footprint_bytes st : footprint st = state_bytes st.
Proof. unfold footprint, state_bytes, estimateAggregateStateBytes, set_bytes. lia. Qed.

Lemma footprints_bytes w : footprints w = msum (fun _ st => state_bytes st) w.
Proof. apply msum_ext. intros k st _. apply footprint_bytes. Qed.

Lemma held_Bytes a : agg_ok a -> Bytes a = held a.
Proof.
  intros Ha. unfold Bytes, totalBytesLocked, held. rewrite footprints_bytes, (ao_active _ Ha), (ao_gauge_bytes _ Ha).
  f_equal. apply msum_ext. intros k g Hg. by apply (ao_gauges _ Ha) in Hg.
Qed.

Definition interleaved (c : AggregationConfig) (s : Aggregator * flusher) : Prop :=
  agg_ok s.1 /\ cfg s.1 = c /\ activeBytes s.1 + gaugeBytes s.1 <= MaxBytes c /\ 0 <= inflightBytes s.1 <= MaxBytes c /\
  match s.2 with
  | Waiting => True
  | Rendering w n => map_Forall (state_ok c) w /\ n <= MaxBytes c /\ 0 <= n /\ n = footprints w
  end.

Lemma gauge_bytes_nonneg a : agg_ok a -> 0 <= gaugeBytes a.
Proof. intros [_ _ H ->]. apply msum_nonneg. intros k g Hg. apply H in Hg. lia. Qed.

Lemma agg_step_interleaved c s s' : interleaved c s -> agg_step s s' -> interleaved c s'.
Proof.
  intros (Ha & Hc & Hb & Hi & Hf) Hs. destruct Hs as [clock m tags r a a' f Hm Ht E|a a' w n E|a w n at_ result E|a]; cbn [fst snd] in *.
  - destruct (Add_ok clock m tags a Ha Hm Ht) as (r' & a'' & E' & [Ha' [F1 F2 F3 F4] _ _]). rewrite E in E'. injection E' as -> ->.
    split_and!; cbn [fst snd]; [done|congruence| |lia|lia|done].
    unfold totalBytesLocked in F4. rewrite F3, Hc in F4. lia.
  - unfold rotate in E. destruct (reserved a); [|done]. injection E as <- <- <-. pose proof (gauge_bytes_nonneg a Ha).
    pose proof (window_bytes_nonneg a Ha). pose proof (ao_active _ Ha) as Hact. rewrite <-footprints_bytes in Hact.
    destruct Ha as [H1 H2 H3 H4]. subst c. split_and!; cbn; split_and?; solve [done|by split|lia].
  - destruct Ha as [H1 H2 H3 H4]. split_and!; cbn; solve [done|by split|lia].
  - destruct Ha as [H1 H2 H3 H4]. split_and!; cbn; solve [done|by split|lia].
Qed.


(** Two metrics and a limit that leaves room for one and a half. *)
Definition small_config : AggregationConfig :=
  MkAggregationConfig [of_int 5] [of_int 5] 2 400 (3600 * 1000000000).

Definition counter_metric (name : bytes) : Metric := demo_metric MetricTypeCounter name 1 [] 10.

Definition run_add (m : Metric) (a : Aggregator) : Aggregator := match Add 0 m ∅ a with Val (_, a) => a | Panic => a end.

Lemma run_add_step m a f : agg_ok a -> known (Type_ m) -> agg_step (a, f) (run_add m a, f).
Proof.
  intros Ha Hm. assert (tags_ok ∅) as Ht by apply map_Forall_empty. destruct (Add_ok 0 m ∅ a Ha Hm Ht) as (r & a' & E & _).
  unfold run_add. rewrite E. by eapply step_add.
Qed.

Lemma agg_step_ok s s' : agg_ok s.1 -> agg_step s s' -> agg_ok s'.1.
Proof.
  intros Ha. destruct 1 as [clock m tags r a a' f Hm Ht E|a a' w n E|a w n at_ result E|a]; cbn [fst] in *.
  - destruct (Add_ok clock m tags a Ha Hm Ht) as (r' & a'' & E' & Hp). rewrite E in E'. injection E' as -> ->. apply Hp.
  - unfold rotate in E. destruct (reserved a); [|done]. injection E as <- <- <-. destruct Ha as [H1 H2 H3 H4]. by split.
  - by destruct Ha as [H1 H2 H3 H4].
  - by destruct Ha as [H1 H2 H3 H4].
Qed.

(** The configured maximum can be exceeded: while the series of a window are built
    its bytes are not counted, so a metric is accepted for which there is no room once
    the window is in flight. *)
Theorem bytes_overrun :
  exists a, rtc agg_step (new small_config, Waiting) (a, Waiting) /\ MaxBytes small_config < Bytes a.
Proof.
  set (a1 := run_add (counter_metric (str "a")) (new small_config)).
  assert (agg_ok (new small_config)) as H0 by apply new_idle.
  assert (agg_step (new small_config, Waiting) (a1, Waiting)) as S1 by by apply run_add_step.
  assert (agg_ok a1) as H1 by apply (agg_step_ok (_, _) (_, _) H0 S1).
  assert (rotate a1 = ((rotate a1).1, inr (series a1, activeBytes a1))) as E by (vm_compute; reflexivity).
  assert (agg_step (a1, Waiting) ((rotate a1).1, Rendering (series a1) (activeBytes a1))) as S2 by by apply step_rotate.
  assert (agg_ok (rotate a1).1) as H2 by apply (agg_step_ok (_, _) (_, _) H1 S2).
  set (a3 := run_add (counter_metric (str "b")) (rotate a1).1).
  assert (agg_step ((rotate a1).1, Rendering (series a1) (activeBytes a1)) (a3, Rendering (series a1) (activeBytes a1))) as S3
    by by apply run_add_step.
  assert (cfg a3 = cfg a1) as E3 by (vm_compute; reflexivity).
  eexists. split.
  - eapply rtc_l; [exact S1|]. eapply rtc_l; [exact S2|]. eapply rtc_l; [exact S3|]. apply rtc_once, (step_reserve _ _ _ 0).
    rewrite E3. apply states_series_spec; [apply H1|apply sorted_keys_some].
  - vm_compute. reflexivity.
Qed.


(** ** Tags and rates that upset a flush *)

Definition flush_of (ops : list (Z * Metric * gmap bytes bytes)) : option (list TimeSeries) :=
  match add_all ops (new demo_config) with
  | Val (_, a) => match Flush 0 a with Val (_, result) => Some result | Panic => None end
  | Panic => None
  end.

(** The tag [le] is not reserved: two timers that differ only in it are flushed with
    two series of the same labels. *)
Theorem le_tag_collides :
  let timer v := demo_metric MetricTypeTimer (str "lat") v [] 10 in
  exists result, flush_of [(0, timer 3, {[str "le" := str "x"]}); (0, timer 7, ∅)] = Some result /\
    ~ NoDup (map Labels result).
Proof.
  intros timer. destruct (flush_of _) as [result|] eqn:E.
  - exists result. split; [done|]. apply (bool_decide_eq_false (NoDup (map Labels result))).
    assert (match flush_of [(0, timer 3, {[str "le" := str "x"]}); (0, timer 7, ∅)] with
            | Some r => bool_decide (NoDup (map Labels r)) | None => true end = false) as H by (vm_compute; reflexivity).
    rewrite E in H. exact H.
  - exfalso. assert (match flush_of [(0, timer 3, {[str "le" := str "x"]}); (0, timer 7, ∅)] with
                     | Some _ => true | None => false end = true) as H by (vm_compute; reflexivity).
    rewrite E in H. discriminate.
Qed.

(** A sample rate whose inverse is not a finite number is accepted, and the flush
    then contains a sample that is not a number. *)
Theorem tiny_rate_nan :
  exists m result,
    parseLine (str "t:0|ms|@1e-310") 10 255 = inr m /\ flush_of [(0, m, Tags m)] = Some result /\
    Exists (fun s => Exists (fun x => IsNaN (SampleValue x) = true) (Samples s)) result.
Proof.
  set (m := MkMetric (str "t") MetricTypeTimer zero [] false (of_decimal false 1 (-310)) ∅ (Some 10)).
  assert (forall f : Metric -> bool, f m = true ->
    match parseLine (str "t:0|ms|@1e-310") 10 255 with inr m' => f m' | inl _ => false end = true) as Hm.
  { intros f Hf. vm_compute. vm_compute in Hf. exact Hf. }
  destruct (parseLine (str "t:0|ms|@1e-310") 10 255) as [e|m'] eqn:Ep; [by specialize (Hm (fun _ => true) eq_refl)|].
  set (bad := fun r => existsb (fun s => existsb (fun x => IsNaN (SampleValue x)) (Samples s)) r : bool).
  specialize (Hm (fun m => match flush_of [(0, m, Tags m)] with Some r => bad r | None => false end)).
  assert (match flush_of [(0, m', Tags m')] with Some r => bad r | None => false end = true) as Hb
    by (apply Hm; vm_compute; reflexivity).
  exists m'. destruct (flush_of [(0, m', Tags m')]) as [r|]; [|discriminate]. exists r. split_and!; [done|done|].
  apply List.existsb_exists in Hb as (s & Hs & (x & Hx & Hn)%List.existsb_exists).
  apply Exists_exists. exists s. split; [by apply list_elem_of_In|]. apply Exists_exists. exists x. split; [by apply list_elem_of_In|done].
Qed.

End StatsdFlush.
