(* ===== verification/StatsdReceiver.v ===== *)
(** * DogStatsD: the receiver

    dogstatsd/receiver.go and the configuration of types.go: datagrams are read, checked
    and queued by one goroutine and parsed by several.  The operations are functions on
    the state of the receiver; the goroutines are the step relation at the end. *)

From Stdlib Require Floats.SpecFloat.
From S2P Require Import Prelude GoLib GoText GoFloat GoUtf8 GoNetip.
From S2P Require Import Statsd StatsdPolicy StatsdAggregator.

Module StatsdReceiver.
Import GoText GoFloat GoUtf8 GoNetip Statsd StatsdPolicy StatsdAggregator.

(** ** Configuration *)

Record Config := MkConfig {
  ListenAddr : bytes; MaxPacketBytes : Z; PacketQueueSize : Z; PacketQueueMaxBytes : Z; ParseWorkers : Z;
  BufferMaxEvents : Z; BatchMaxSeries : Z; MaxMetricNameLength : Z; MaxTagsPerMetric : Z; MaxTagKeyLength : Z;
  MaxTagValueLength : Z; ActiveSeriesPerMetricCap : Z; ActiveSeriesGlobalCap : Z; ActiveSeriesTTL : Z;
  TagKeyBlocklist : bytes; AllowedSourceCIDRs : bytes; MaxBytesPerSecond : Z; MaxEventsPerSecond : Z;
  SaturationThreshold : float64; SaturationDuration : Z; ShutdownDrainTimeout : Z
}.

Definition Config_checks (c : Config) : list (bytes * Z) :=
  [(str "max-packet-bytes", MaxPacketBytes c); (str "packet-queue-size", PacketQueueSize c);
   (str "parse-workers", ParseWorkers c); (str "buffer-max-events", BufferMaxEvents c);
   (str "batch-max-series", BatchMaxSeries c); (str "max-metric-name-length", MaxMetricNameLength c);
   (str "max-tags-per-metric", MaxTagsPerMetric c); (str "max-tag-key-length", MaxTagKeyLength c);
   (str "max-tag-value-length", MaxTagValueLength c);
   (str "active-series-per-metric-cap", ActiveSeriesPerMetricCap c);
   (str "active-series-global-cap", ActiveSeriesGlobalCap c);
   (str "max-bytes-per-second", MaxBytesPerSecond c); (str "max-events-per-second", MaxEventsPerSecond c)].

(** The setting that is refused. *)
Definition Config_Validate (c : Config) : option bytes :=
  if PacketQueueMaxBytes c <=? 0 then Some (str "packet-queue-max-bytes")
  else if bytes_eqb (ListenAddr c) [] then Some (str "listen address")
  else
  match List.find (fun check => check.2 <=? 0) (Config_checks c) with
  | Some check => Some check.1
  | None =>
      if ActiveSeriesTTL c <=? 0 then Some (str "active-series-ttl")
      else if fle (SaturationThreshold c) zero || flt one (SaturationThreshold c) then Some (str "saturation-threshold")
      else if SaturationDuration c <=? 0 then Some (str "saturation-duration")
      else if ShutdownDrainTimeout c <=? 0 then Some (str "shutdown-drain-timeout")
      else None
  end.

(** The loop of [parseAllowedSourceCIDRs]. *)
Fixpoint parse_cidrs (parts : list bytes) : option (list Prefix) :=
  match parts with
  | [] => Some []
  | part :: parts =>
      let part := TrimSpace part in
      if bytes_eqb part [] then parse_cidrs parts
      else
      let? prefix := ParsePrefix part else None in
      let? prefixes := parse_cidrs parts else None in
      Some (Masked prefix :: prefixes)
  end.

Definition parseAllowedSourceCIDRs (raw : bytes) : option (list Prefix) :=
  match parse_cidrs (Split raw 44) with
  | Some [] | None => None
  | Some prefixes => Some prefixes
  end.

Definition sourceAllowed (allowedSources : list Prefix) (source : Addr) : bool :=
  existsb (fun prefix => Contains prefix source) allowedSources.

(** ** Metrics of the receiver itself *)

Inductive drop_reason :=
  | UntrustedSource | PacketTooLarge | ByteRateLimit | QueueBytes | QueueFull | UdpReadError
  | EventRateLimit | MappingError | SeriesCap (e : refusal) | AddRefused (e : add_refusal) | BufferFull.

Inductive tag_reason := BlockedKey | KeyTooLong | ValueTooLong | TooManyTags.

Inductive counter :=
  | PacketsReceived | BytesReceived | LinesReceived | Parsed | Accepted
  | ParseErrors (reason : bytes) | Dropped (reason : drop_reason) | DroppedTags (reason : tag_reason) | ShutdownDropped.

#[global] Instance refusal_eq_dec : EqDecision refusal.
Proof. solve_decision. Defined.
#[global] Instance add_refusal_eq_dec : EqDecision add_refusal.
Proof. solve_decision. Defined.
#[global] Instance drop_reason_eq_dec : EqDecision drop_reason.
Proof. solve_decision. Defined.
#[global] Instance tag_reason_eq_dec : EqDecision tag_reason.
Proof. solve_decision. Defined.
#[global] Instance counter_eq_dec : EqDecision counter.
Proof. solve_decision. Defined.

Inductive gauge :=
  | ActiveSeries | BufferedEvents | PacketQueueBytes | AggregationBytes_ | PacketQueueUtilization
  | PacketQueueSaturated | ShutdownPendingPackets.

#[global] Instance gauge_eq_dec : EqDecision gauge.
Proof. solve_decision. Defined.

(** The value of every counter and of every gauge. *)
Record receiverMetrics := MkReceiverMetrics { counters : counter -> Z; gauge_values : gauge -> float64 }.

Definition inc (c : counter) (n : Z) (m : receiverMetrics) : receiverMetrics :=
  MkReceiverMetrics (fun c' => if decide (c = c') then counters m c' + n else counters m c') (gauge_values m).
Definition set_gauge (g : gauge) (v : float64) (m : receiverMetrics) : receiverMetrics :=
  MkReceiverMetrics (counters m) (fun g' => if decide (g = g') then v else gauge_values m g').

Definition recordTagDrops (drops : tagDropStats) (m : receiverMetrics) : receiverMetrics :=
  let add n reason m := if n >? 0 then inc (DroppedTags reason) n m else m in
  add (DroppedTags_ drops) TooManyTags
    (add (MaxValueLength drops) ValueTooLong
      (add (MaxKeyLength drops) KeyTooLong (add (BlockedKeys drops) BlockedKey m))).

Definition boolFloat (b : bool) : float64 := if b then one else zero.

(** ** The state *)

Section receiver.

(** [rate.Limiter] of golang.org/x/time: [AllowN now n] and [NewLimiter limit burst]. *)
Context {Limiter : Type} (AllowN : Z -> Z -> Limiter -> bool * Limiter) (NewLimiter : Z -> Z -> Limiter).
(** [unicode.IsPrint], which [%q] uses. *)
Context (IsPrint : Z -> bool).

Record Receiver := MkReceiver {
  rcfg : Config; metrics : receiverMetrics; policy : tagPolicy; limiter : seriesLimiter;
  buffer : seriesBuffer TimeSeries; aggregator : option Aggregator; allowedSources : list Prefix;
  byteLimiter : Limiter; eventLimiter : Limiter;
  packets : list bytes; packetBytes : Z; stopped : bool; ready : bool; queuePressure : pressureState
}.

Definition newReceiver (c : Config) (a : option Aggregator) : option Receiver :=
  match Config_Validate c, parseAllowedSourceCIDRs (AllowedSourceCIDRs c) with
  | None, Some sources =>
      Some (MkReceiver c (MkReceiverMetrics (fun _ => 0) (fun _ => zero))
              (newTagPolicy (TagKeyBlocklist c) (MaxTagsPerMetric c) (MaxTagKeyLength c) (MaxTagValueLength c))
              (newSeriesLimiter (ActiveSeriesPerMetricCap c) (ActiveSeriesGlobalCap c) (ActiveSeriesTTL c))
              (newSeriesBuffer (Z.to_nat (BufferMaxEvents c))) a sources
              (NewLimiter (MaxBytesPerSecond c) (Z.max (MaxPacketBytes c) (MaxBytesPerSecond c * 2)))
              (NewLimiter (MaxEventsPerSecond c) (MaxEventsPerSecond c * 2))
              [] 0 false false (newPressureState (SaturationThreshold c) (SaturationDuration c)))
  | _, _ => None
  end.

Definition on_metrics (f : receiverMetrics -> receiverMetrics) (r : Receiver) : Receiver :=
  MkReceiver (rcfg r) (f (metrics r)) (policy r) (limiter r) (buffer r) (aggregator r) (allowedSources r)
    (byteLimiter r) (eventLimiter r) (packets r) (packetBytes r) (stopped r) (ready r) (queuePressure r).
Definition set_limiters (bl el : Limiter) (r : Receiver) : Receiver :=
  MkReceiver (rcfg r) (metrics r) (policy r) (limiter r) (buffer r) (aggregator r) (allowedSources r)
    bl el (packets r) (packetBytes r) (stopped r) (ready r) (queuePressure r).
Definition set_store (l : seriesLimiter) (b : seriesBuffer TimeSeries) (a : option Aggregator) (r : Receiver) : Receiver :=
  MkReceiver (rcfg r) (metrics r) (policy r) l b a (allowedSources r)
    (byteLimiter r) (eventLimiter r) (packets r) (packetBytes r) (stopped r) (ready r) (queuePressure r).
Definition set_queue (q : list bytes) (n : Z) (r : Receiver) : Receiver :=
  MkReceiver (rcfg r) (metrics r) (policy r) (limiter r) (buffer r) (aggregator r) (allowedSources r)
    (byteLimiter r) (eventLimiter r) q n (stopped r) (ready r) (queuePressure r).
Definition set_flags (stop rdy : bool) (p : pressureState) (r : Receiver) : Receiver :=
  MkReceiver (rcfg r) (metrics r) (policy r) (limiter r) (buffer r) (aggregator r) (allowedSources r)
    (byteLimiter r) (eventLimiter r) (packets r) (packetBytes r) stop rdy p.

Definition observeQueuePressure (now : Z) (r : Receiver) : bool * Receiver :=
  let countUtilization := fdiv (of_int (Z.of_nat (length (packets r)))) (of_int (PacketQueueSize (rcfg r))) in
  let byteUtilization := fdiv (of_int (packetBytes r)) (of_int (PacketQueueMaxBytes (rcfg r))) in
  let utilization := if flt countUtilization byteUtilization then byteUtilization else countUtilization in
  let '(saturated, p) := Observe utilization now (queuePressure r) in
  (saturated, on_metrics (fun m => set_gauge PacketQueueSaturated (boolFloat saturated)
                                     (set_gauge PacketQueueUtilization utilization m))
                (set_flags (stopped r) (ready r) p r)).

Definition Ready (now : Z) (r : Receiver) : bool * Receiver :=
  if ready r then let '(saturated, r) := observeQueuePressure now r in (negb saturated, r) else (false, r).

(** The series handed to remote write when there is no aggregator. *)
Definition Receiver_Snapshot (maxSeries : Z) (r : Receiver) : Receiver * list TimeSeries :=
  let maxSeries := if (maxSeries <=? 0) || (maxSeries >? BatchMaxSeries (rcfg r)) then BatchMaxSeries (rcfg r) else maxSeries in
  let '(b, s) := StatsdPolicy.Snapshot maxSeries (buffer r) in (set_store (limiter r) b (aggregator r) r, s).

Definition Receiver_Commit (count : nat) (r : Receiver) : Receiver :=
  let '(b, remaining) := StatsdPolicy.Commit count (buffer r) in
  on_metrics (set_gauge BufferedEvents (of_int (Z.of_nat remaining))) (set_store (limiter r) b (aggregator r) r).

(** ** Lines *)

(** The texts of the errors. *)
Definition error_text (e : parse_error) : bytes :=
  match e with
  | ErrEmptyLine => str "empty line"
  | ErrMissingColon => str "invalid metric format: missing ':'"
  | ErrNameEmpty => str "metric name is empty"
  | ErrNameTooLong max => str "metric name exceeds " ++ FormatUint max ++ str " bytes"
  | ErrExpectedValueType => str "invalid metric format: expected value|type"
  | ErrValueEmpty => str "metric value is empty"
  | ErrTypeEmpty => str "metric type is empty"
  | ErrInvalidValue token => str "invalid numeric value " ++ Quote IsPrint token
  | ErrUnsupportedType token => str "unsupported metric type " ++ Quote IsPrint token
  | ErrDuplicateRate => str "duplicate sample-rate section"
  | ErrSampleRate => str "sample rate must be greater than 0 and no greater than 1"
  | ErrDuplicateTags => str "duplicate tag section"
  | ErrRateUnsupported t => str "sample rate is not supported for metric type " ++ Quote IsPrint (MetricType_string t)
  | ErrTagKey piece => str "invalid empty tag key in " ++ Quote IsPrint piece
  | ErrTagCollision key => str "duplicate or normalized-colliding tag key " ++ Quote IsPrint key
  end.

Definition parseErrorReason (e : parse_error) : bytes :=
  let msg := error_text e in
  if GoText.Contains msg (str "unsupported metric type") then str "unsupported_type"
  else if GoText.Contains msg (str "sample rate") then str "invalid_sample_rate"
  else if GoText.Contains msg (str "name") then str "invalid_name"
  else if GoText.Contains msg (str "value") || GoText.Contains msg (str "gauge") then str "invalid_value"
  else str "invalid_format".

(** One iteration of [processPacket]; [t] is when the event limiter is asked. *)
Definition processLine (now t : Z) (line : bytes) (r : Receiver) : go Receiver :=
  let line := TrimSpace line in
  if bytes_eqb line [] then Val r
  else
  let '(ok, el) := AllowN t 1 (eventLimiter r) in
  let r := set_limiters (byteLimiter r) el r in
  if negb ok then Val (on_metrics (inc (Dropped EventRateLimit) 1) r)
  else
  let r := on_metrics (inc LinesReceived 1) r in
  match parseLine line now (MaxMetricNameLength (rcfg r)) with
  | inl err => Val (on_metrics (inc (ParseErrors (parseErrorReason err)) 1) r)
  | inr metric =>
      let '(tags, drops) := Apply (policy r) (Tags metric) in
      let r := on_metrics (fun m => recordTagDrops drops (inc Parsed 1 m)) r in
      match buildRawSeries metric tags with
      | inl _ => Val (on_metrics (inc (Dropped MappingError) 1) r)
      | inr s =>
          let '(refused, l) := Allow (Labels s) now (limiter r) in
          let r := on_metrics (set_gauge ActiveSeries (of_int (total l))) (set_store l (buffer r) (aggregator r) r) in
          match refused with
          | Some reason => Val (on_metrics (inc (Dropped (SeriesCap reason)) 1) r)
          | None =>
              let r := on_metrics (inc Accepted 1) r in
              match aggregator r with
              | Some a =>
                  let! (refused, a) := Add now metric tags a in
                  Val (on_metrics (fun m =>
                         let m := match refused with Some reason => inc (Dropped (AddRefused reason)) 1 m | None => m end in
                         set_gauge AggregationBytes_ (of_int (Bytes a)) m)
                         (set_store (limiter r) (buffer r) (Some a) r))
              | None =>
                  let '(b, dropped, buffered) := Enqueue s (buffer r) in
                  Val (on_metrics (fun m =>
                         let m := if (0 <? dropped)%nat then inc (Dropped BufferFull) (Z.of_nat dropped) m else m in
                         set_gauge BufferedEvents (of_int (Z.of_nat buffered)) m)
                         (set_store (limiter r) b None r))
              end
          end
      end
  end.

Fixpoint process_lines (now : Z) (clock : nat -> Z) (lines : list bytes) (r : Receiver) : go Receiver :=
  match lines with
  | [] => Val r
  | line :: lines => let! r := processLine now (clock (length lines)) line r in process_lines now clock lines r
  end.

Definition processPacket (now : Z) (clock : nat -> Z) (payload : bytes) (r : Receiver) : go Receiver :=
  process_lines now clock (Split payload 10) r.

(** ** Datagrams *)

(** [readLoop] up to the copy of the payload: a datagram of [buf] from the address
    [source], or what was dropped of it. *)
Definition read_packet (t : Z) (buf source : bytes) (r : Receiver) : Receiver * option bytes :=
  let n := Z.of_nat (length buf) in
  let r := on_metrics (fun m => inc BytesReceived n (inc PacketsReceived 1 m)) r in
  let drop reason r := (on_metrics (inc (Dropped reason) 1) r, None) in
  if negb (match AddrFromSlice source with Some ip => sourceAllowed (allowedSources r) (Unmap ip) | None => false end)
  then drop UntrustedSource r
  else if n >? MaxPacketBytes (rcfg r) then drop PacketTooLarge r
  else
  let '(ok, bl) := AllowN t n (byteLimiter r) in
  let r := set_limiters bl (eventLimiter r) r in
  if negb ok then drop ByteRateLimit r else (r, Some buf).

(** The datagram given up: its bytes are taken off again. *)
Definition drop_counted (t : Z) (payload : bytes) (reason : drop_reason) (r : Receiver) : Receiver :=
  let r := set_queue (packets r) (packetBytes r - Z.of_nat (length payload)) r in
  (observeQueuePressure t (on_metrics (inc (Dropped reason) 1) r)).2.

Definition send (t : Z) (payload : bytes) (queuedBytes : Z) (r : Receiver) : Receiver :=
  let r := set_queue (packets r ++ [payload]) (packetBytes r) r in
  (observeQueuePressure t (on_metrics (set_gauge PacketQueueBytes (of_int queuedBytes)) r)).2.

(** The start of an iteration of [parseLoop]. *)
Definition uncount (t : Z) (payload : bytes) (r : Receiver) : Receiver :=
  let remaining := packetBytes r - Z.of_nat (length payload) in
  (observeQueuePressure t (on_metrics (set_gauge PacketQueueBytes (of_int remaining)) (set_queue (packets r) remaining r))).2.

(** The first call of [CloseContext]. *)
Definition close (r : Receiver) : Receiver :=
  on_metrics (set_gauge ShutdownPendingPackets (of_int (Z.of_nat (length (packets r))))) (set_flags true false (queuePressure r) r).

(** The deadline of [CloseContext], the first time. *)
Definition close_timeout (r : Receiver) : Receiver :=
  let remaining := Z.of_nat (length (packets r)) in
  if remaining >? 0 then on_metrics (inc ShutdownDropped remaining) r else r.

(** ** The goroutines *)

(** [Counted]: the bytes of a datagram were added and it is about to be queued. *)
Inductive reader := Reading | Counted (payload : bytes) (queuedBytes : Z) | Returned.
(** [Took]: out of the channel, its bytes not taken off yet. *)
Inductive worker := Ranging | Took (payload : bytes) | Parsing (now : Z) (lines : list bytes) | Exited.

Record sys := Sys { recv : Receiver; rd : reader; ws : list worker }.

Definition full (r : Receiver) : bool := PacketQueueSize (rcfg r) <=? Z.of_nat (length (packets r)).

(** What a step does to the queue; [Discarded] when the receiver stops. *)
Inductive label := Internal | Queued (payload : bytes) | Dequeued (payload : bytes) | Discarded (payload : bytes).

Inductive sys_step : label -> sys -> sys -> Prop :=
  | s_drop t buf source r r' w :
      bytes_ok buf -> read_packet t buf source r = (r', None) -> sys_step Internal (Sys r Reading w) (Sys r' Reading w)
  | s_count t buf source r r' payload w :
      bytes_ok buf -> read_packet t buf source r = (r', Some payload) ->
      let n := packetBytes r' + Z.of_nat (length payload) in
      sys_step Internal (Sys r Reading w) (Sys (set_queue (packets r') n r') (Counted payload n) w)
  | s_read_error r w :
      stopped r = false -> sys_step Internal (Sys r Reading w) (Sys (on_metrics (inc (Dropped UdpReadError) 1) r) Reading w)
  | s_over t r payload n w :
      PacketQueueMaxBytes (rcfg r) < n ->
      sys_step Internal (Sys r (Counted payload n) w) (Sys (drop_counted t payload QueueBytes r) Reading w)
  | s_send t r payload n w :
      n <= PacketQueueMaxBytes (rcfg r) -> full r = false ->
      sys_step (Queued payload) (Sys r (Counted payload n) w) (Sys (send t payload n r) Reading w)
  | s_full t r payload n w :
      n <= PacketQueueMaxBytes (rcfg r) -> full r = true -> stopped r = false ->
      sys_step Internal (Sys r (Counted payload n) w) (Sys (drop_counted t payload QueueFull r) Reading w)
  | s_stop r payload n w :
      n <= PacketQueueMaxBytes (rcfg r) -> stopped r = true ->
      sys_step (Discarded payload) (Sys r (Counted payload n) w)
        (Sys (set_queue (packets r) (packetBytes r - Z.of_nat (length payload)) r) Returned w)
  | s_return r w : stopped r = true -> sys_step Internal (Sys r Reading w) (Sys r Returned w)
  | s_take i r f w payload ps :
      w !! i = Some Ranging -> packets r = payload :: ps ->
      sys_step (Dequeued payload) (Sys r f w) (Sys (set_queue ps (packetBytes r) r) f (<[i := Took payload]> w))
  | s_uncount t now i r f w payload :
      w !! i = Some (Took payload) ->
      sys_step Internal (Sys r f w) (Sys (uncount t payload r) f (<[i := Parsing now (Split payload 10)]> w))
  | s_line t now i r r' f w line lines :
      w !! i = Some (Parsing now (line :: lines)) -> processLine now t line r = Val r' ->
      sys_step Internal (Sys r f w) (Sys r' f (<[i := Parsing now lines]> w))
  | s_next now i r f w :
      w !! i = Some (Parsing now []) -> sys_step Internal (Sys r f w) (Sys r f (<[i := Ranging]> w))
  | s_exit i r w :
      w !! i = Some Ranging -> packets r = [] -> sys_step Internal (Sys r Returned w) (Sys r Returned (<[i := Exited]> w))
  | s_timeout r f w : stopped r = true -> sys_step Internal (Sys r f w) (Sys (close_timeout r) f w)
  | s_close r f w : stopped r = false -> sys_step Internal (Sys r f w) (Sys (close r) f w).

(** [Start] *)
Definition start (r : Receiver) : sys :=
  Sys (set_flags (stopped r) true (queuePressure r) r) Reading (repeat Ranging (Z.to_nat (ParseWorkers (rcfg r)))).

End receiver.

End StatsdReceiver.
