(* ===== verification/StatsdReceiverSpec.v ===== *)
(** * DogStatsD: what the receiver promises

    Every line is counted once and ends in exactly one place; what reaches the aggregator
    is well formed; the queue keeps its order and its bounds, and nothing in it is lost
    when the receiver stops. *)

From Stdlib Require Floats.SpecFloat.
From S2P Require Import Prelude GoLib GoText GoFloat GoUtf8 GoNetip.
From S2P Require Import Statsd StatsdSpec StatsdPolicy StatsdPolicySpec StatsdAggregator StatsdAggregatorSpec StatsdFlush StatsdReceiver.

Module StatsdReceiverSpec.
Import GoText GoFloat GoUtf8 GoNetip.
Import Statsd StatsdSpec StatsdPolicy StatsdPolicySpec StatsdAggregator StatsdAggregatorSpec StatsdFlush StatsdReceiver.

(** ** Sources *)

Lemma parse_cidrs_spec parts ps ip :
  parse_cidrs parts = Some ps ->
  sourceAllowed ps ip = true <->
  exists part p, part ∈ parts /\ TrimSpace part <> [] /\ ParsePrefix (TrimSpace part) = Some p /\ Contains p ip = true.
Proof.
  revert ps. induction parts as [|part parts IH]; intros ps; cbn [parse_cidrs].
  { intros [= <-]. cbn. split; [done|]. by intros (? & ? & ?%elem_of_nil & _). }
  cbv zeta. unfold bytes_eqb. case_bool_decide as Eb.
  - intros Hps. rewrite (IH ps Hps). split; intros (q & p & Hin & Hne & Hq); exists q, p; (split; [|done]).
    + by right.
    + apply elem_of_cons in Hin as [-> | Hin]; [by destruct Hne|done].
  - destruct (ParsePrefix (TrimSpace part)) as [p|] eqn:Ep; [|done]. destruct (parse_cidrs parts) as [ps'|]; [|done].
    intros [= <-]. unfold sourceAllowed. cbn [existsb]. rewrite orb_true_iff. fold (sourceAllowed ps' ip).
    rewrite (IH ps' eq_refl), Masked_Contains by by apply (ParsePrefix_bits (TrimSpace part)). split.
    + intros [Hc | (q & p' & Hin & Hq)]; [exists part, p; split; [by left|done]|]. exists q, p'. split; [by right|done].
    + intros (q & p' & [-> | Hin]%elem_of_cons & Hne & Hq & Hc); [left; congruence|]. right. by exists q, p'.
Qed.

(** A datagram is let in exactly when one of the configured CIDRs contains its source
    address, an IPv4 address mapped into IPv6 counting as the IPv4 address. *)
Theorem sources_spec raw ps source :
  parseAllowedSourceCIDRs raw = Some ps ->
  match AddrFromSlice source with Some ip => sourceAllowed ps (Unmap ip) | None => false end = true <->
  exists ip part p, AddrFromSlice source = Some ip /\ part ∈ Split raw 44 /\ TrimSpace part <> [] /\
    ParsePrefix (TrimSpace part) = Some p /\ Contains p (Unmap ip) = true.
Proof.
  unfold parseAllowedSourceCIDRs. destruct (parse_cidrs (Split raw 44)) as [[|p0 ps0]|] eqn:E; [done| |done]. intros [= <-].
  destruct (AddrFromSlice source) as [ip|].
  - rewrite (parse_cidrs_spec _ _ _ E). naive_solver.
  - split; [done|]. by intros (? & ? & ? & ? & _).
Qed.

Lemma sources_spec_witness :
  let raw := str "10.0.0.0/8, ::1/128" in
  let mapped := repeat 0 10 ++ [255; 255; 10; 1; 2; 3] in
  exists ps, parseAllowedSourceCIDRs raw = Some ps /\
    match AddrFromSlice mapped with Some ip => sourceAllowed ps (Unmap ip) | None => false end = true.
Proof.
  intros raw mapped. exists [PrefixFrom (Addr4 167772160) 8; PrefixFrom (Addr16 1) 128].
  assert (parseAllowedSourceCIDRs raw = Some [PrefixFrom (Addr4 167772160) 8; PrefixFrom (Addr16 1) 128]) as E
    by (vm_compute; reflexivity).
  split; [exact E|]. apply (sources_spec raw _ mapped E).
  exists (Addr16 281470849581571), (str "10.0.0.0/8"), (PrefixFrom (Addr4 167772160) 8).
  split_and!; [vm_compute; reflexivity|apply (bool_decide_unpack _); vm_compute; exact I|done|vm_compute; reflexivity..].
Defined.

(** ** Counting *)

Lemma counters_inc c n m c' : counters (inc c n m) c' = counters m c' + (if decide (c = c') then n else 0).
Proof. unfold inc. cbn. case_decide; lia. Qed.

Lemma counters_set_gauge g v m : counters (set_gauge g v m) = counters m.
Proof. done. Qed.

Lemma counters_tags d m c : (forall reason, c <> DroppedTags reason) -> counters (recordTagDrops d m) c = counters m c.
Proof.
  intros Hc. unfold recordTagDrops. cbv zeta. repeat case_match; rewrite ?counters_inc; repeat (rewrite decide_False by by intros <-; eapply Hc); lia.
Qed.

Definition parse_reasons : list bytes :=
  [str "unsupported_type"; str "invalid_sample_rate"; str "invalid_name"; str "invalid_value"; str "invalid_format"].

Definition zsum (l : list Z) : Z := foldr Z.add 0 l.

Definition parse_errors (m : receiverMetrics) : Z := zsum (map (fun r => counters m (ParseErrors r)) parse_reasons).
Definition series_refused (m : receiverMetrics) : Z :=
  counters m (Dropped (SeriesCap SeriesCapMetric)) + counters m (Dropped (SeriesCap SeriesCapGlobal)).
Definition add_refused (m : receiverMetrics) : Z :=
  zsum (map (fun r => counters m (Dropped (AddRefused r))) [AggregationBytes; InvalidSampleRate; SetLimit; UnsupportedType]).
(** Datagrams that were dropped. *)
Definition packets_dropped (m : receiverMetrics) : Z :=
  zsum (map (fun d => counters m (Dropped d)) [UntrustedSource; PacketTooLarge; ByteRateLimit; QueueBytes; QueueFull]).
(** Lines that are not blank. *)
Definition lines_seen (m : receiverMetrics) : Z := counters m LinesReceived + counters m (Dropped EventRateLimit).

(** Lines are errors or parsed; parsed metrics are accepted or dropped. *)
Record balanced (m : receiverMetrics) : Prop := Balanced {
  ba_lines : counters m LinesReceived = parse_errors m + counters m Parsed;
  ba_parsed : counters m Parsed = counters m Accepted + counters m (Dropped MappingError) + series_refused m
}.

(** What changed from [m] to [m']: the lines, the errors, the metrics parsed, those
    accepted, those dropped before and those refused by the aggregator. *)
Record delta (m m' : receiverMetrics) (seen lines errors parsed accepted mapping capped refused : Z) : Prop := Delta {
  d_seen : lines_seen m' = lines_seen m + seen;
  d_lines : counters m' LinesReceived = counters m LinesReceived + lines;
  d_errors : parse_errors m' = parse_errors m + errors;
  d_parsed : counters m' Parsed = counters m Parsed + parsed;
  d_accepted : counters m' Accepted = counters m Accepted + accepted;
  d_mapping : counters m' (Dropped MappingError) = counters m (Dropped MappingError) + mapping;
  d_capped : series_refused m' = series_refused m + capped;
  d_refused : add_refused m' = add_refused m + refused;
  d_packets : counters m' PacketsReceived = counters m PacketsReceived;
  d_dropped : packets_dropped m' = packets_dropped m
}.

Lemma delta_balanced m m' s l e p a mp c r :
  delta m m' s l e p a mp c r -> l = e + p -> p = a + mp + c -> balanced m -> balanced m'.
Proof. intros [H1 H2 H3 H4 H5 H6 H7 H8 _ _] -> -> [B1 B2]. split; lia. Qed.

Lemma parse_reason_in IsPrint e : parseErrorReason IsPrint e ∈ parse_reasons.
Proof. unfold parseErrorReason. cbv zeta. repeat case_match; unfold parse_reasons; repeat (first [left | right]). Qed.

Lemma zsum_count (f : bytes -> Z) x l :
  NoDup l -> zsum (map (fun y => f y + (if decide (ParseErrors x = ParseErrors y) then 1 else 0)) l) =
  zsum (map f l) + (if decide (x ∈ l) then 1 else 0).
Proof.
  induction 1 as [|y l Hy Hl IH]; cbn [map zsum foldr]; [done|]. unfold zsum in *. rewrite IH.
  destruct (decide (ParseErrors x = ParseErrors y)) as [[= ->]|Hne].
  - rewrite (decide_False (P := y ∈ l)) by done. rewrite decide_True by by left. lia.
  - destruct (decide (x ∈ l)) as [Hin|Hin]; [rewrite decide_True by by right|rewrite decide_False]; [lia|lia|].
    intros [-> | ?]%elem_of_cons; done.
Qed.

Lemma parse_errors_inc m x : x ∈ parse_reasons -> parse_errors (inc (ParseErrors x) 1 m) = parse_errors m + 1.
Proof.
  intros Hx. unfold parse_errors.
  assert (map (fun r => counters (inc (ParseErrors x) 1 m) (ParseErrors r)) parse_reasons =
    map (fun y => counters m (ParseErrors y) + (if decide (ParseErrors x = ParseErrors y) then 1 else 0)) parse_reasons) as ->.
  { apply map_ext. intros y. apply counters_inc. }
  rewrite zsum_count; [by rewrite decide_True|]. apply (bool_decide_unpack _). vm_compute. exact I.
Qed.

(** Counters that an increment does not touch. *)
Ltac counts := unfold lines_seen, parse_errors, series_refused, add_refused, packets_dropped, parse_reasons, zsum in *; cbn [map foldr] in *;
  repeat first [rewrite counters_set_gauge|rewrite counters_inc|rewrite counters_tags by (intros ?; discriminate)];
  repeat first [rewrite decide_True by reflexivity|rewrite decide_False by discriminate]; lia.

(** ** Lines *)

Lemma parseLine_received line now max m : parseLine line now max = inr m -> ReceivedAt m = Some now.
Proof. unfold parseLine. cbv zeta. repeat case_match; try done. by intros [= <-]. Qed.

Section lines.
Context {Limiter : Type} (AllowN : Z -> Z -> Limiter -> bool * Limiter) (IsPrint : Z -> bool).
#[local] Abbreviation Receiver := (@Receiver Limiter).
#[local] Abbreviation processLine := (StatsdReceiver.processLine AllowN IsPrint).

Record recv_ok (r : Receiver) : Prop := RecvOk {
  ro_limiter : limiter_ok (limiter r);
  ro_policy : 0 <= maxTagsPerMetric (policy r);
  ro_aggregator : forall a, aggregator r = Some a -> agg_ok a
}.

(** What the lines of a datagram leave alone. *)
Record queue_same (r r' : Receiver) : Prop := QueueSame {
  qs_cfg : rcfg r' = rcfg r;
  qs_policy : policy r' = policy r;
  qs_packets : packets r' = packets r;
  qs_bytes : packetBytes r' = packetBytes r;
  qs_stopped : stopped r' = stopped r;
  qs_mode : aggregator r = None <-> aggregator r' = None;
  qs_sources : allowedSources r' = allowedSources r
}.

(** The metrics passed to the aggregator, and those it accepted. *)
Definition aggregated (now : Z) (r r' : Receiver) (ops : list (Z * Metric * gmap bytes bytes))
  (acc : list (Metric * gmap bytes bytes)) : Prop :=
  Forall op_ok ops /\ Forall (fun op => received op = now) ops /\
  match aggregator r with
  | Some a => exists a', aggregator r' = Some a' /\ add_all ops a = Val (acc, a')
  | None => ops = [] /\ acc = []
  end.

(** The counters after a line of the production receiver. *)
Definition line_delta (r r' : Receiver) (seen : Z) (ops acc : nat) : Prop :=
  exists lines errors parsed accepted mapping capped refused,
    delta (metrics r) (metrics r') seen lines errors parsed accepted mapping capped refused /\
    lines = errors + parsed /\ parsed = accepted + mapping + capped /\
    (aggregator r <> None -> accepted = Z.of_nat ops /\ refused = Z.of_nat ops - Z.of_nat acc).

Lemma line_unchanged now (r r' : Receiver) seen lines errors parsed mapping capped :
  recv_ok r -> limiter_ok (limiter r') -> queue_same r r' -> aggregator r' = aggregator r ->
  delta (metrics r) (metrics r') seen lines errors parsed 0 mapping capped 0 ->
  lines = errors + parsed -> parsed = mapping + capped ->
  recv_ok r' /\ queue_same r r' /\ aggregated now r r' [] [] /\ line_delta r r' seen 0 0.
Proof.
  intros [H1 H2 H3] Hl Hq Ha Hd E1 E2. split_and!; [|done| |].
  - split; [done|by rewrite (qs_policy _ _ Hq)|]. by rewrite Ha.
  - split_and!; [constructor..|]. rewrite Ha. destruct (aggregator r) as [a|]; [|done]. by exists a.
  - exists lines, errors, parsed, 0, mapping, capped, 0. split_and!; [done|done|lia|]. intros _. lia.
Qed.

Lemma processLine_spec now t line (r : Receiver) :
  recv_ok r -> bytes_ok line ->
  exists r' ops acc, processLine now t line r = Val r' /\
    recv_ok r' /\ queue_same r r' /\ aggregated now r r' ops acc /\
    line_delta r r' (if bytes_eqb (TrimSpace line) [] then 0 else 1) (length ops) (length acc).
Proof.
  intros Hr Hb. unfold StatsdReceiver.processLine. cbv zeta. destruct (bytes_eqb (TrimSpace line) []).
  { exists r, [], []. split; [done|]. eapply (line_unchanged _ _ _ 0 0 0 0 0 0); [done|apply Hr|by split|done| |done|done]. split; lia. }
  destruct (AllowN t 1 (eventLimiter r)) as [[] el]; cbn [negb].
  2: { eexists _, [], []. split; [done|]. eapply (line_unchanged _ _ _ 1 0 0 0 0 0); [done|apply Hr|by split|done| |done|done].
       split; cbn [metrics on_metrics set_limiters]; counts. }
  cbn [rcfg on_metrics set_limiters]. destruct (parseLine _ now _) as [e|m] eqn:Ep.
  { eexists _, [], []. split; [done|]. eapply (line_unchanged _ _ _ 1 1 1 0 0 0); [done|apply Hr|by split|done| |done|done].
    split; cbn [metrics on_metrics set_limiters]; first [by rewrite parse_errors_inc by apply parse_reason_in|counts]. }
  assert (metric_ok (MaxMetricNameLength (rcfg r)) m) as Hm by (eapply parseLine_accepts; [|done]; by apply TrimSpace_Forall).
  assert (received (now, m, (Apply (policy r) (Tags m)).1) = now) as Hnow.
  { unfold received. cbn. by rewrite (parseLine_received _ _ _ _ Ep). }
  assert (tags_ok (Apply (policy r) (Tags m)).1) as Ht by (apply Apply_tags_ok; [apply Hr|apply Hm]).
  cbn [policy on_metrics set_limiters] in *. destruct (Apply (policy r) (Tags m)) as [tags drops]. cbn [fst] in *.
  destruct (buildRawSeries m tags) as [e|s].
  { eexists _, [], []. split; [done|]. eapply (line_unchanged _ _ _ 1 1 0 1 1 0); [done|apply Hr|by split|done| |done|done].
    split; cbn [metrics on_metrics set_limiters]; counts. }
  cbn [limiter on_metrics set_limiters] in *.
  pose proof (Allow_ok (Labels s) now (limiter r) (ro_limiter _ Hr)) as Hl. destruct (Allow (Labels s) now (limiter r)) as [refused l]. cbn [snd] in Hl.
  destruct refused as [e|].
  { eexists _, [], []. split; [done|]. eapply (line_unchanged _ _ _ 1 1 0 1 0 1); [done|done|by split|done| |done|done].
    destruct e; split; cbn [metrics on_metrics set_limiters set_store]; counts. }
  cbn [aggregator on_metrics set_limiters set_store]. destruct (aggregator r) as [a|] eqn:Ea.
  - assert (known (Type_ m)) as Hk by (pose proof (mo_type _ _ Hm) as Hty; destruct (Type_ m); [done..|by destruct (Hty s0)]).
    destruct (Add_ok now m tags a (ro_aggregator _ Hr a Ea) Hk Ht) as (res & a' & E & Hpost). rewrite E.
    eexists _, [(now, m, tags)], (match res with None => [(m, tags)] | Some _ => [] end). split; [done|]. split_and!.
    + split; cbn; [done|apply Hr|]. intros a1 [= <-]. apply Hpost.
    + split; cbn; try done. by rewrite Ea.
    + split_and!; [constructor; [by split|constructor]|constructor; [done|constructor]|]. rewrite Ea. cbn. exists a'. by rewrite E; destruct res.
    + exists 1, 0, 1, 1, 0, 0, (match res with None => 0 | Some _ => 1 end).
      split_and!; [|done|done|by destruct res].
      destruct res as [[]|]; split; cbn [metrics on_metrics set_limiters set_store]; counts.
  - destruct (Enqueue s (buffer _)) as [[b dropped] buffered]. eexists _, [], []. split; [done|]. split_and!.
    + split; cbn; [done|apply Hr|done].
    + by split; cbn; try done; rewrite Ea.
    + split_and!; [constructor..|]. by rewrite Ea.
    + exists 1, 0, 1, 1, 0, 0, 0. rewrite Ea. split_and!; [|done|done|done].
      split; cbn [metrics on_metrics set_limiters set_store]; case_match; counts.
Qed.

Lemma add_all_app ops ops' a :
  add_all (ops ++ ops') a =
  let! (acc, a) := add_all ops a in let! (acc', a) := add_all ops' a in Val (acc ++ acc', a).
Proof.
  revert a. induction ops as [|[[clock m] tags] ops IH]; intros a; cbn [add_all app].
  - by destruct (add_all ops' a) as [|[]].
  - destruct (Add clock m tags a) as [|[res a']]; [done|]. rewrite IH. destruct (add_all ops a') as [|[acc a1]]; [done|].
    destruct (add_all ops' a1) as [|[acc' a2]]; [done|]. by destruct res.
Qed.

Lemma add_all_length ops a acc a' : add_all ops a = Val (acc, a') -> (length acc <= length ops)%nat.
Proof.
  revert a acc. induction ops as [|[[clock m] tags] ops IH]; intros a acc; cbn [add_all]; [by intros [= <- <-]|].
  destruct (Add clock m tags a) as [|[res a1]]; [done|]. destruct (add_all ops a1) as [|[acc' a2]] eqn:E; [done|]. intros [= <- <-].
  apply IH in E. destruct res; cbn; lia.
Qed.

Lemma aggregated_trans now (r r1 r2 : Receiver) ops ops' acc acc' :
  queue_same r r1 -> aggregated now r r1 ops acc -> aggregated now r1 r2 ops' acc' ->
  aggregated now r r2 (ops ++ ops') (acc ++ acc').
Proof.
  intros Hq (H1 & H2 & H3) (G1 & G2 & G3). split_and!; [by apply Forall_app|by apply Forall_app|].
  destruct (aggregator r) as [a|] eqn:Ea.
  - destruct H3 as (a1 & Ea1 & E1). rewrite Ea1 in G3. destruct G3 as (a2 & Ea2 & E2). exists a2.
    split; [done|]. by rewrite add_all_app, E1, E2.
  - rewrite (proj1 (qs_mode _ _ Hq) Ea) in G3. destruct H3 as [-> ->], G3 as [-> ->]. done.
Qed.

Lemma line_delta_trans (r r1 r2 : Receiver) s s' o o' a a' :
  queue_same r r1 -> line_delta r r1 s o a -> line_delta r1 r2 s' o' a' -> line_delta r r2 (s + s') (o + o') (a + a').
Proof.
  intros Hq (l & e & p & ac & mp & c & rf & [H1 H2 H3 H4 H5 H6 H7 H8 H9 H10] & E1 & E2 & E3).
  intros (l' & e' & p' & ac' & mp' & c' & rf' & [G1 G2 G3 G4 G5 G6 G7 G8 G9 G10] & F1 & F2 & F3).
  exists (l + l'), (e + e'), (p + p'), (ac + ac'), (mp + mp'), (c + c'), (rf + rf'). split_and!; [split; lia|lia|lia|].
  intros Ha. destruct (E3 Ha). destruct F3; [by rewrite <-(qs_mode _ _ Hq)|]. lia.
Qed.

Lemma queue_same_trans (r r1 r2 : Receiver) : queue_same r r1 -> queue_same r1 r2 -> queue_same r r2.
Proof. intros [] []. split; [congruence..|etrans; eassumption|congruence]. Qed.

(** The lines that hold something. *)
Definition line_count (lines : list bytes) : Z :=
  Z.of_nat (length (List.filter (fun l => negb (bytes_eqb (TrimSpace l) [])) lines)).

Lemma process_lines_spec now clock lines (r : Receiver) :
  recv_ok r -> Forall bytes_ok lines ->
  exists r' ops acc, process_lines AllowN IsPrint now clock lines r = Val r' /\
    recv_ok r' /\ queue_same r r' /\ aggregated now r r' ops acc /\
    line_delta r r' (line_count lines) (length ops) (length acc).
Proof.
  intros Hr Hl. revert r Hr. induction Hl as [|line lines Hb _ IH]; intros r Hr; cbn [process_lines].
  - exists r, [], []. split; [done|]. eapply (line_unchanged _ _ _ 0 0 0 0 0 0); [done|apply Hr|by split|done| |done|done]. split; lia.
  - set (t := clock _). destruct (processLine_spec now t line r Hr Hb) as (r1 & ops & acc & -> & Hr1 & Hq1 & Ha1 & Hd1).
    destruct (IH r1 Hr1) as (r2 & ops' & acc' & -> & Hr2 & Hq2 & Ha2 & Hd2).
    exists r2, (ops ++ ops'), (acc ++ acc'). split; [done|]. split_and!; [done|by eapply queue_same_trans|by eapply aggregated_trans|].
    rewrite !length_app. assert (line_count (line :: lines) = (if bytes_eqb (TrimSpace line) [] then 0 else 1) + line_count lines) as ->.
    { unfold line_count. cbn [List.filter]. destruct (bytes_eqb (TrimSpace line) []); cbn [negb length]; lia. }
    by eapply line_delta_trans.
Qed.

(** *** Where every line ends *)

(** What becomes of a line: it is blank, or over the event rate; it is no metric, with
    the reason that is counted; or it is a metric, which has no series, or whose series is
    over a cap, or which is passed to the aggregator, with its answer. *)
Inductive fate :=
  | Blank | RateLimited | NoMetric (reason : bytes)
  | Unmappable (m : Metric) | Capped (m : Metric) (cap : refusal) | Passed (m : Metric) (answer : option add_refusal).

(** The line is one of that fate; what the rate limiter, the caps and the aggregator decide is
    left open. *)
Definition line_fate (now max : Z) (p : tagPolicy) (line : bytes) (f : fate) : Prop :=
  let parsed m := TrimSpace line <> [] /\ parseLine (TrimSpace line) now max = inr m in
  match f with
  | Blank => TrimSpace line = []
  | RateLimited => TrimSpace line <> []
  | NoMetric reason => TrimSpace line <> [] /\
      exists e, parseLine (TrimSpace line) now max = inl e /\ reason = parseErrorReason IsPrint e
  | Unmappable m => parsed m /\ exists e, buildRawSeries m (Apply p (Tags m)).1 = inl e
  | Capped m _ | Passed m _ => parsed m /\ exists s, buildRawSeries m (Apply p (Tags m)).1 = inr s
  end.

(** What it adds to which counters. *)
Definition tag_counts (d : tagDropStats) : list (counter * Z) :=
  [(DroppedTags BlockedKey, BlockedKeys d); (DroppedTags KeyTooLong, MaxKeyLength d);
   (DroppedTags ValueTooLong, MaxValueLength d); (DroppedTags TooManyTags, DroppedTags_ d)].

Definition fate_counts (p : tagPolicy) (f : fate) : list (counter * Z) :=
  let metric m := [(LinesReceived, 1); (Parsed, 1)] ++ tag_counts (Apply p (Tags m)).2 in
  match f with
  | Blank => []
  | RateLimited => [(Dropped EventRateLimit, 1)]
  | NoMetric reason => [(LinesReceived, 1); (ParseErrors reason, 1)]
  | Unmappable m => metric m ++ [(Dropped MappingError, 1)]
  | Capped m cap => metric m ++ [(Dropped (SeriesCap cap), 1)]
  | Passed m None => metric m ++ [(Accepted, 1)]
  | Passed m (Some answer) => metric m ++ [(Accepted, 1); (Dropped (AddRefused answer), 1)]
  end.

Definition amount (c : counter) (l : list (counter * Z)) : Z :=
  foldr (fun x n => (if decide (x.1 = c) then x.2 else 0) + n) 0 l.

(** The metric it passes to the aggregator, and that if it is taken. *)
Definition passed (now : Z) (p : tagPolicy) (f : fate) : option (Z * Metric * gmap bytes bytes) :=
  match f with Passed m _ => Some (now, m, (Apply p (Tags m)).1) | _ => None end.
Definition taken (p : tagPolicy) (f : fate) : option (Metric * gmap bytes bytes) :=
  match f with Passed m None => Some (m, (Apply p (Tags m)).1) | _ => None end.

Lemma amount_app c l k : amount c (l ++ k) = amount c l + amount c k.
Proof. unfold amount. induction l as [|x l IH]; cbn [app foldr]; [done|]. rewrite IH. lia. Qed.

Lemma drops_nonneg p tags :
  let d := (Apply p tags).2 in 0 <= BlockedKeys d /\ 0 <= MaxKeyLength d /\ 0 <= MaxValueLength d /\ 0 <= DroppedTags_ d.
Proof.
  cbv zeta. unfold Apply. assert (forall ks (acc : gmap bytes bytes * tagDropStats),
    0 <= BlockedKeys acc.2 /\ 0 <= MaxKeyLength acc.2 /\ 0 <= MaxValueLength acc.2 /\ 0 <= DroppedTags_ acc.2 ->
    let d := (foldl (apply_tag p tags) acc ks).2 in
    0 <= BlockedKeys d /\ 0 <= MaxKeyLength d /\ 0 <= MaxValueLength d /\ 0 <= DroppedTags_ d) as Hd; [|by apply Hd].
  induction ks as [|k ks IH]; intros [m [b kl v t]] Ha; cbn [foldl]; [done|]. apply IH.
  unfold apply_tag. cbn in Ha. repeat case_match; cbn; lia.
Qed.

Lemma counters_record p tags m c :
  counters (recordTagDrops (Apply p tags).2 m) c = counters m c + amount c (tag_counts (Apply p tags).2).
Proof.
  destruct (drops_nonneg p tags) as (H1 & H2 & H3 & H4). unfold recordTagDrops, amount. cbn [foldr tag_counts fst snd].
  destruct (Z.gtb_spec (DroppedTags_ (Apply p tags).2) 0), (Z.gtb_spec (MaxValueLength (Apply p tags).2) 0),
    (Z.gtb_spec (MaxKeyLength (Apply p tags).2) 0), (Z.gtb_spec (BlockedKeys (Apply p tags).2) 0);
    rewrite ?counters_inc; repeat case_decide; lia.
Qed.

(** The counters of the receiver after a line of a fate. *)
Ltac counted := intros c; cbn [metrics on_metrics set_limiters set_store fate_counts];
  repeat first [rewrite counters_set_gauge|rewrite counters_inc|rewrite counters_record|rewrite amount_app]; unfold amount; cbn [foldr fst snd]; lia.

Lemma processLine_fate now t line (r : Receiver) a :
  recv_ok r -> bytes_ok line -> aggregator r = Some a ->
  exists r' a' f, processLine now t line r = Val r' /\ line_fate now (MaxMetricNameLength (rcfg r)) (policy r) line f /\
    (forall c, counters (metrics r') c = counters (metrics r) c + amount c (fate_counts (policy r) f)) /\
    aggregator r' = Some a' /\
    add_all (option_list (passed now (policy r) f)) a = Val (option_list (taken (policy r) f), a').
Proof.
  intros Hr Hb Ha. unfold StatsdReceiver.processLine. cbv zeta. unfold bytes_eqb. case_bool_decide as Eb.
  { exists r, a, Blank. split_and!; [done|done|counted|done|done]. }
  destruct (AllowN t 1 (eventLimiter r)) as [[] el]; cbn [negb].
  2: { eexists _, a, RateLimited. split_and!; [done|done|counted|done|done]. }
  cbn [rcfg on_metrics set_limiters]. destruct (parseLine _ now _) as [e|m] eqn:Ep.
  { eexists _, a, (NoMetric (parseErrorReason IsPrint e)). split_and!; [done|split; [done|by exists e]|counted|done|done]. }
  assert (metric_ok (MaxMetricNameLength (rcfg r)) m) as Hm by (eapply parseLine_accepts; [|done]; by apply TrimSpace_Forall).
  assert (tags_ok (Apply (policy r) (Tags m)).1) as Ht by (apply Apply_tags_ok; [apply Hr|apply Hm]).
  cbn [policy on_metrics set_limiters] in *. rewrite (surjective_pairing (Apply (policy r) (Tags m))).
  destruct (buildRawSeries m (Apply (policy r) (Tags m)).1) as [e|s] eqn:Es.
  { eexists _, a, (Unmappable m). split_and!; [done|split; [done|by exists e]|counted|done|done]. }
  cbn [limiter on_metrics set_limiters] in *. destruct (Allow (Labels s) now (limiter r)) as [[e|] l].
  { eexists _, a, (Capped m e). split_and!; [done|split; [done|by exists s]|counted|done|done]. }
  cbn [aggregator on_metrics set_limiters set_store]. rewrite Ha.
  assert (known (Type_ m)) as Hk by (pose proof (mo_type _ _ Hm) as Hty; destruct (Type_ m); [done..|by destruct (Hty s0)]).
  destruct (Add_ok now m (Apply (policy r) (Tags m)).1 a (ro_aggregator _ Hr a Ha) Hk Ht) as (res & a' & E & _). rewrite E.
  eexists _, a', (Passed m res). split_and!; [done|split; [done|by exists s]| |done|].
  - destruct res; counted.
  - change (add_all [(now, m, (Apply (policy r) (Tags m)).1)] a = Val (option_list (taken (policy r) (Passed m res)), a')).
    cbn [add_all]. rewrite E. by destruct res.
Qed.

Definition passed_all (now : Z) (p : tagPolicy) (fs : list fate) : list (Z * Metric * gmap bytes bytes) := omap (passed now p) fs.
Definition taken_all (p : tagPolicy) (fs : list fate) : list (Metric * gmap bytes bytes) := omap (taken p) fs.

Lemma omap_option_list {A B} (g : A -> option B) x l : omap g (x :: l) = option_list (g x) ++ omap g l.
Proof. cbn. by destruct (g x). Qed.

Lemma process_lines_fates now clock lines (r : Receiver) a :
  recv_ok r -> Forall bytes_ok lines -> aggregator r = Some a ->
  exists r' a' fs, process_lines AllowN IsPrint now clock lines r = Val r' /\
    Forall2 (line_fate now (MaxMetricNameLength (rcfg r)) (policy r)) lines fs /\
    (forall c, counters (metrics r') c = counters (metrics r) c + amount c (concat (map (fate_counts (policy r)) fs))) /\
    aggregator r' = Some a' /\ add_all (passed_all now (policy r) fs) a = Val (taken_all (policy r) fs, a').
Proof.
  intros Hr Hl. revert r a Hr. induction Hl as [|line lines Hb _ IH]; intros r a Hr Ha; cbn [process_lines].
  - exists r, a, []. split_and!; [done|done| |done|done]. intros c. cbn. lia.
  - set (t := clock _). destruct (processLine_fate now t line r a Hr Hb Ha) as (r1 & a1 & f & E1 & Hf & Hc1 & Ha1 & Hadd1).
    destruct (processLine_spec now t line r Hr Hb) as (r1' & ops & acc & E1' & Hr1 & Hq1 & _). rewrite E1 in E1'. injection E1' as <-.
    destruct (IH r1 a1 Hr1 Ha1) as (r2 & a2 & fs & E2 & Hfs & Hc2 & Ha2 & Hadd2).
    rewrite (qs_cfg _ _ Hq1), (qs_policy _ _ Hq1) in *. rewrite E1. exists r2, a2, (f :: fs). split_and!; [done|by constructor| |done|].
    + intros c. cbn [map concat]. rewrite amount_app, Hc2, Hc1. lia.
    + unfold passed_all, taken_all in *. rewrite !omap_option_list, add_all_app, Hadd1. by rewrite Hadd2.
Qed.

Lemma passed_all_ok now max p lines fs :
  0 <= maxTagsPerMetric p -> Forall bytes_ok lines -> Forall2 (line_fate now max p) lines fs ->
  Forall op_ok (passed_all now p fs) /\ Forall (fun op => received op = now) (passed_all now p fs).
Proof.
  intros Hp Hb Hf. induction Hf as [|line f lines fs Hf _ IH]; [by split; constructor|].
  apply Forall_cons in Hb as [Hl Hb]. destruct (IH Hb) as [I1 I2]. unfold passed_all. rewrite omap_option_list.
  destruct f as [| | | | |m answer]; try done. destruct Hf as [[_ Ep] _].
  change (option_list (passed now p (Passed m answer))) with [(now, m, (Apply p (Tags m)).1)]. cbn [app].
  assert (metric_ok max m) as Hm by (eapply parseLine_accepts; [|done]; by apply TrimSpace_Forall).
  split; constructor; try done.
  - split; cbn; [|apply Apply_tags_ok; [done|apply Hm]].
    pose proof (mo_type _ _ Hm) as Hty. destruct (Type_ m); [done..|by destruct (Hty s)].
  - unfold received. cbn. by rewrite (parseLine_received _ _ _ _ Ep).
Qed.


End lines.

(** A limiter that always allows, and a receiver. *)
Definition free_limiter (now n : Z) (l : unit) : bool * unit := (true, l).

Definition demo_receiver_config : Config :=
  MkConfig (str ":8125") 1400 2 3000 1 10 10 100 2 20 20 100 1000 (3600 * 1000000000) (str "secret") (str "10.0.0.0/8")
    100000 1000 (fdiv (of_int 9) (of_int 10)) 1000000000 1000000000.

Definition demo_receiver : Receiver (Limiter := unit) :=
  match newReceiver (fun _ _ => tt) demo_receiver_config (Some (new demo_config)) with
  | Some r => r
  | None => MkReceiver demo_receiver_config (MkReceiverMetrics (fun _ => 0) (fun _ => zero)) (newTagPolicy [] 0 0 0)
              (newSeriesLimiter 0 0 0) (newSeriesBuffer 0) None [] tt tt [] 0 false false (newPressureState zero 0)
  end.

Lemma new_recv_ok {Limiter} NewLimiter c a (r : Receiver (Limiter := Limiter)) :
  newReceiver NewLimiter c a = Some r -> (forall a', a = Some a' -> agg_ok a') -> recv_ok r /\ balanced (metrics r).
Proof.
  unfold newReceiver. destruct (Config_Validate c) eqn:Ev; [done|]. destruct (parseAllowedSourceCIDRs _); [|done].
  intros [= <-] Ha. split; [|by split]. unfold Config_Validate in Ev. case_match; [done|]. case_match; [done|].
  destruct (List.find _ _) as [ck|] eqn:Ef; [done|].
  assert (forall ck, In ck (Config_checks c) -> 0 < ck.2) as Hpos.
  { intros ck Hin. pose proof (List.find_none _ _ Ef ck Hin) as Hc. cbn in Hc. lia. }
  split; cbn; [| |done].
  - split; cbn; [done|apply map_Forall_empty|]. specialize (Hpos (str "active-series-global-cap", ActiveSeriesGlobalCap c)).
    cbn in Hpos. assert (0 < ActiveSeriesGlobalCap c); [|lia]. apply Hpos. tauto.
  - specialize (Hpos (str "max-tags-per-metric", MaxTagsPerMetric c)). cbn in Hpos.
    assert (0 < MaxTagsPerMetric c); [|lia]. apply Hpos. tauto.
Qed.

Lemma demo_receiver_new : newReceiver (fun _ _ => tt) demo_receiver_config (Some (new demo_config)) = Some demo_receiver.
Proof. unfold demo_receiver. destruct (newReceiver _ _ _) eqn:E; [done|]. exfalso. by vm_compute in E. Qed.


End StatsdReceiverSpec.
