(* ===== verification/StatsdQueue.v ===== *)
(** * DogStatsD: the goroutines of the receiver

    The reader, the parsers and a stop in any order: the queue stays within its bounds,
    keeps its order, and is drained when the receiver stops. *)

From Stdlib Require Floats.SpecFloat.
From S2P Require Import Prelude GoLib GoText GoFloat GoUtf8 GoNetip.
From S2P Require Import Statsd StatsdSpec StatsdPolicy StatsdPolicySpec StatsdAggregator StatsdAggregatorSpec StatsdFlush.
From S2P Require Import StatsdReceiver StatsdReceiverSpec.

Module StatsdQueue.
Import GoText GoFloat GoUtf8 GoNetip.
Import Statsd StatsdSpec StatsdPolicy StatsdPolicySpec StatsdAggregator StatsdAggregatorSpec StatsdFlush.
Import StatsdReceiver StatsdReceiverSpec.

Definition sumlen (l : list bytes) : Z := zsum (map (fun p => Z.of_nat (length p)) l).

Lemma sumlen_app l l' : sumlen (l ++ l') = sumlen l + sumlen l'.
Proof. unfold sumlen, zsum. rewrite map_app, foldr_app. induction l as [|p l IH]; cbn; [done|]. rewrite IH. lia. Qed.

Lemma sumlen_nonneg l : 0 <= sumlen l.
Proof. induction l as [|p l IH]; unfold sumlen, zsum in *; cbn; lia. Qed.

Definition taken_by (w : worker) : list bytes := match w with Took p => [p] | _ => [] end.
Definition taken (ws : list worker) : list bytes := concat (map taken_by ws).
Definition counted (f : reader) : list bytes := match f with Counted p _ => [p] | _ => [] end.

Lemma taken_insert i w w' l :
  l !! i = Some w -> sumlen (taken (<[i := w']> l)) = sumlen (taken l) - sumlen (taken_by w) + sumlen (taken_by w').
Proof.
  intros Hi. rewrite <-(take_drop_middle l i w Hi) at 2. rewrite insert_take_drop by by eapply lookup_lt_Some.
  unfold taken. rewrite !map_app, !concat_app, !sumlen_app. cbn [map concat]. rewrite !sumlen_app. lia.
Qed.

Lemma taken_Forall (P : bytes -> Prop) l : Forall P (taken l) <-> Forall (fun w => Forall P (taken_by w)) l.
Proof.
  unfold taken. induction l as [|w l IH]; cbn [map concat]; [by split; constructor|]. by rewrite Forall_app, Forall_cons, IH.
Qed.

(** The payloads of the labels of a run. *)
Definition queued_of (tr : list label) : list bytes := omap (fun l => match l with Queued p => Some p | _ => None end) tr.
Definition dequeued_of (tr : list label) : list bytes := omap (fun l => match l with Dequeued p => Some p | _ => None end) tr.
Definition discarded_of (tr : list label) : list bytes := omap (fun l => match l with Discarded p => Some p | _ => None end) tr.

Section queue.
Context {Limiter : Type} (AllowN : Z -> Z -> Limiter -> bool * Limiter) (IsPrint : Z -> bool).
#[local] Abbreviation Receiver := (@Receiver Limiter).
#[local] Abbreviation sys := (@sys Limiter).
#[local] Abbreviation sys_step := (StatsdReceiver.sys_step AllowN IsPrint).

Inductive sys_run : sys -> list label -> sys -> Prop :=
  | run_nil s : sys_run s [] s
  | run_snoc s tr s' l s'' : sys_run s tr s' -> sys_step l s' s'' -> sys_run s (tr ++ [l]) s''.

(** What a step outside the lines leaves alone. *)
Record core_same (r r' : Receiver) : Prop := CoreSame {
  cs_cfg : rcfg r' = rcfg r;
  cs_policy : policy r' = policy r;
  cs_limiter : limiter r' = limiter r;
  cs_aggregator : aggregator r' = aggregator r
}.

Lemma core_recv_ok r r' : core_same r r' -> recv_ok r -> recv_ok r'.
Proof. intros [H1 H2 H3 H4] [R1 R2 R3]. split; congruence || (intros a; rewrite H4; apply R3). Qed.

(** Observing the pressure changes gauges only. *)
Lemma observe_same t (r : Receiver) :
  let r' := (observeQueuePressure t r).2 in
  core_same r r' /\ counters (metrics r') = counters (metrics r) /\ packets r' = packets r /\
  packetBytes r' = packetBytes r /\ stopped r' = stopped r.
Proof. unfold observeQueuePressure. cbv zeta. destruct (Observe _ _ _) as [sat p]. by split. Qed.

(** The counters of datagrams, and what keeps the balance of the lines. *)
Record tally (m m' : receiverMetrics) (received dropped : Z) : Prop := Tally {
  ta_received : counters m' PacketsReceived = counters m PacketsReceived + received;
  ta_dropped : packets_dropped m' = packets_dropped m + dropped;
  ta_balanced : balanced m -> balanced m'
}.

Lemma tally_same m m' : counters m' = counters m -> tally m m' 0 0.
Proof.
  intros E. split.
  - rewrite E. lia.
  - unfold packets_dropped. rewrite E. lia.
  - intros [B1 B2]. split; unfold parse_errors, series_refused in *; rewrite E; done.
Qed.

Lemma tally_trans m m1 m2 a b c d : tally m m1 a b -> tally m1 m2 c d -> tally m m2 (a + c) (b + d).
Proof. intros [H1 H2 H3] [G1 G2 G3]. split; [lia|lia|auto]. Qed.

(** The counters that are not of lines. *)
Definition packet_counter (c : counter) : bool :=
  match c with
  | PacketsReceived | BytesReceived | ShutdownDropped => true
  | Dropped (UntrustedSource | PacketTooLarge | ByteRateLimit | QueueBytes | QueueFull | UdpReadError) => true
  | _ => false
  end.

Lemma tally_inc m c n :
  packet_counter c = true ->
  tally m (inc c n m) (if decide (c = PacketsReceived) then n else 0)
    (match c with Dropped UdpReadError => 0 | Dropped _ => n | _ => 0 end).
Proof.
  intros Hc.
  assert (forall c', packet_counter c' = false -> counters (inc c n m) c' = counters m c') as Hother.
  { intros c' Hc'. rewrite counters_inc, decide_False by (intros ->; congruence). lia. }
  split.
  - rewrite counters_inc. done.
  - unfold packets_dropped, zsum. cbn [map foldr]. rewrite !counters_inc.
    destruct c as [| | | | | |[]| |]; try done; repeat first [rewrite decide_True by reflexivity|rewrite decide_False by discriminate]; lia.
  - intros [B1 B2]. split; unfold parse_errors, parse_reasons, series_refused, zsum in *; cbn [map foldr] in *; rewrite !Hother by done; done.
Qed.

Record sys_inv (c : Config) (s : sys) (tr : list label) : Prop := SysInv {
  si_cfg : rcfg (recv s) = c;
  si_recv : recv_ok (recv s);
  si_balanced : balanced (metrics (recv s));
  si_bytes : packetBytes (recv s) = sumlen (packets (recv s)) + sumlen (taken (ws s)) + sumlen (counted (rd s));
  si_max : sumlen (packets (recv s)) + sumlen (taken (ws s)) <= PacketQueueMaxBytes (rcfg (recv s));
  si_counted : match rd s with Counted _ n => packetBytes (recv s) <= n | _ => True end;
  si_size : Z.of_nat (length (packets (recv s))) <= PacketQueueSize (rcfg (recv s));
  si_order : queued_of tr = dequeued_of tr ++ packets (recv s);
  si_received : counters (metrics (recv s)) PacketsReceived =
    packets_dropped (metrics (recv s)) + Z.of_nat (length (queued_of tr)) + Z.of_nat (length (discarded_of tr)) +
    Z.of_nat (length (counted (rd s)));
  si_exited : Exited ∈ ws s -> rd s = Returned /\ packets (recv s) = [];
  si_payloads : Forall bytes_ok (packets (recv s) ++ taken (ws s) ++ counted (rd s));
  si_lines : Forall (fun w => match w with Parsing _ lines => Forall bytes_ok lines | _ => True end) (ws s)
}.

Lemma read_packet_spec t buf source (r r' : Receiver) o :
  read_packet AllowN t buf source r = (r', o) ->
  core_same r r' /\ packets r' = packets r /\ packetBytes r' = packetBytes r /\
  tally (metrics r) (metrics r') 1 (match o with None => 1 | Some _ => 0 end) /\ (forall p, o = Some p -> p = buf).
Proof.
  set (m1 := inc BytesReceived (Z.of_nat (length buf)) (inc PacketsReceived 1 (metrics r))).
  assert (tally (metrics r) m1 1 0) as H1.
  { change 1 with (1 + 0) at 1. change 0 with (0 + 0) at 2. eapply tally_trans; [by apply (tally_inc _ PacketsReceived 1)|].
    by apply (tally_inc _ BytesReceived). }
  assert (forall d, packet_counter (Dropped d) = true -> d <> UdpReadError -> tally (metrics r) (inc (Dropped d) 1 m1) 1 1) as H2.
  { intros d Hd Hne. pose proof (tally_inc m1 (Dropped d) 1 Hd) as H. rewrite decide_False in H by done.
    pose proof (tally_trans _ _ _ _ _ _ _ H1 H) as H'. by destruct d. }
  unfold read_packet. cbv zeta. destruct (negb (match _ with Some _ => _ | None => _ end)).
  { intros [= <- <-]. split_and!; [done|done|done|by apply H2|done]. }
  destruct (_ >? _); [intros [= <- <-]; split_and!; [done|done|done|by apply H2|done]|].
  destruct (AllowN _ _ _) as [[] bl]; cbn [negb]; intros [= <- <-]; split_and!; try done; [by intros p [= <-]|by apply H2].
Qed.

Lemma reader_inv c (r r' : Receiver) f f' w tr l a b :
  sys_inv c (Sys r f w) tr -> core_same r r' -> tally (metrics r) (metrics r') a b ->
  packetBytes r' = sumlen (packets r') + sumlen (taken w) + sumlen (counted f') ->
  sumlen (packets r') + sumlen (taken w) <= PacketQueueMaxBytes (rcfg r) ->
  match f' with Counted _ n => packetBytes r' <= n | _ => True end ->
  Z.of_nat (length (packets r')) <= PacketQueueSize (rcfg r) ->
  packets r' = packets r ++ queued_of [l] -> dequeued_of [l] = [] ->
  a + Z.of_nat (length (counted f)) =
    b + Z.of_nat (length (queued_of [l])) + Z.of_nat (length (discarded_of [l])) + Z.of_nat (length (counted f')) ->
  (f = Returned -> f' = Returned /\ queued_of [l] = []) ->
  Forall bytes_ok (counted f' ++ queued_of [l]) ->
  sys_inv c (Sys r' f' w) (tr ++ [l]).
Proof.
  intros [I0 I1 I2 I3 I4 I5 I6 I7 I8 I9 I10 I11] Hc [T1 T2 T3] Hb Hmax Hcnt Hsize Hp Hd Ha Hret Hok. cbn [recv rd ws] in *.
  split; cbn [recv rd ws]; try done.
  - by rewrite (cs_cfg _ _ Hc).
  - by eapply core_recv_ok.
  - by apply T3.
  - by rewrite (cs_cfg _ _ Hc).
  - by rewrite (cs_cfg _ _ Hc).
  - unfold queued_of, dequeued_of in *. rewrite !omap_app, I7, Hp. fold (dequeued_of [l]) in *. rewrite Hd, app_nil_r, app_assoc. done.
  - unfold queued_of, discarded_of in *. rewrite !omap_app, !length_app, T1, T2, I8. unfold queued_of in Ha. lia.
  - intros He. destruct (I9 He) as [-> E]. destruct (Hret eq_refl) as [-> E']. by rewrite Hp, E, E'.
  - rewrite Hp. rewrite !Forall_app in *. tauto.
Qed.

(** A worker that changes state. *)
Lemma worker_inv c (r r' : Receiver) f w i w0 w1 tr l :
  sys_inv c (Sys r f w) tr -> w !! i = Some w0 -> rcfg r' = rcfg r -> recv_ok r' -> tally (metrics r) (metrics r') 0 0 ->
  packetBytes r' = packetBytes r - sumlen (packets r) - sumlen (taken_by w0) + sumlen (packets r') + sumlen (taken_by w1) ->
  sumlen (packets r') + sumlen (taken_by w1) <= sumlen (packets r) + sumlen (taken_by w0) ->
  packets r = dequeued_of [l] ++ packets r' -> queued_of [l] = [] -> discarded_of [l] = [] ->
  (w1 = Exited -> f = Returned /\ packets r' = []) ->
  Forall bytes_ok (taken_by w1) ->
  match w1 with Parsing _ lines => Forall bytes_ok lines | _ => True end ->
  sys_inv c (Sys r' f (<[i := w1]> w)) (tr ++ [l]).
Proof.
  intros [I0 I1 I2 I3 I4 I5 I6 I7 I8 I9 I10 I11] Hi Hc Hr [T1 T2 T3] Hb Hmax Hp Hq Hd Hex Hok Hl. cbn [recv rd ws] in *.
  pose proof (taken_insert i w0 w1 w Hi) as Ht.
  split; cbn [recv rd ws]; rewrite ?Hc; try done.
  - by apply T3.
  - lia.
  - lia.
  - destruct f as [|p n|]; try done. lia.
  - rewrite Hp, length_app in I6. lia.
  - unfold queued_of, dequeued_of in *. by rewrite !omap_app, I7, Hp, Hq, app_nil_r, app_assoc.
  - unfold queued_of, discarded_of in *. rewrite !omap_app, Hq, Hd, !app_nil_r, T1, T2, I8. lia.
  - intros [j Hj]%list_elem_of_lookup. apply list_lookup_insert_Some in Hj as [(_ & Hw & _) | [_ Hj]]; [by apply Hex|].
    apply list_elem_of_lookup_2 in Hj. destruct (I9 Hj) as [-> E]. split; [done|]. rewrite E in Hp. symmetry in Hp.
    by apply app_eq_nil in Hp as [_ ?].
  - rewrite Hp, !Forall_app in I10. rewrite !Forall_app. split_and!; [tauto| |tauto]. apply taken_Forall, Forall_insert; [|done].
    apply taken_Forall. tauto.
  - by apply Forall_insert.
Qed.

Lemma drop_counted_spec t payload d (r : Receiver) :
  d = QueueBytes \/ d = QueueFull ->
  let r' := drop_counted t payload d r in
  core_same r r' /\ tally (metrics r) (metrics r') 0 1 /\ packets r' = packets r /\
  packetBytes r' = packetBytes r - Z.of_nat (length payload).
Proof.
  intros Hd r'. unfold r', drop_counted. cbv zeta. set (r1 := on_metrics _ _).
  destruct (observe_same t r1) as (Hc & Hm & Hp & Hb & _). split_and!; [destruct Hc; by split| |done|done].
  change 1 with (1 + 0) at 1. change 0 with (0 + 0) at 1. eapply (tally_trans _ (metrics r1)); [|by apply tally_same].
  destruct Hd as [-> | ->]; [by apply (tally_inc (metrics r) (Dropped QueueBytes) 1)|by apply (tally_inc (metrics r) (Dropped QueueFull) 1)].
Qed.

Lemma send_spec t payload n (r : Receiver) :
  let r' := send t payload n r in
  core_same r r' /\ tally (metrics r) (metrics r') 0 0 /\ packets r' = packets r ++ [payload] /\ packetBytes r' = packetBytes r.
Proof.
  intros r'. unfold r', send. cbv zeta. set (r1 := on_metrics _ _).
  destruct (observe_same t r1) as (Hc & Hm & Hp & Hb & _). split_and!; [destruct Hc; by split|by apply tally_same|done|done].
Qed.

Lemma uncount_spec t payload (r : Receiver) :
  let r' := uncount t payload r in
  core_same r r' /\ tally (metrics r) (metrics r') 0 0 /\ packets r' = packets r /\
  packetBytes r' = packetBytes r - Z.of_nat (length payload).
Proof.
  intros r'. unfold r', uncount. cbv zeta. set (r1 := on_metrics _ _).
  destruct (observe_same t r1) as (Hc & Hm & Hp & Hb & _). split_and!; [destruct Hc; by split|by apply tally_same|done|done].
Qed.

Lemma line_tally (r r' : Receiver) s o a : line_delta r r' s o a -> tally (metrics r) (metrics r') 0 0.
Proof.
  intros (l & e & p & ac & mp & c & rf & Hd & E1 & E2 & _). split; [|destruct Hd; lia|by eapply delta_balanced].
  destruct Hd. lia.
Qed.

Lemma sumlen_cons p l : sumlen (p :: l) = Z.of_nat (length p) + sumlen l.
Proof. done. Qed.

Lemma sumlen_one p : sumlen [p] = Z.of_nat (length p).
Proof. unfold sumlen, zsum. cbn. lia. Qed.

Lemma sys_step_inv c s tr l s' : sys_inv c s tr -> sys_step l s s' -> sys_inv c s' (tr ++ [l]).
Proof.
  intros Hs Hstep. pose proof Hs as [I0 I1 I2 I3 I4 I5 I6 I7 I8 I9 I10 I11].
  destruct Hstep as [t buf source r r' w Hb E|t buf source r r' payload w Hb E n|r w Hst|t r payload n w Hn|t r payload n w Hn Hf|
    t r payload n w Hn Hf Hst|r payload n w Hn Hst|r w Hst|i r f w payload ps Hi Hp|t now i r f w payload Hi|
    t now i r r' f w line lines Hi E|now i r f w Hi|i r w Hi Hp|r f w Hst|r f w Hst]; cbn [recv rd ws counted] in *.
  - apply read_packet_spec in E as (Hc & Ep & Eb & Ht & _).
    eapply (reader_inv c r r' Reading Reading); try done; rewrite ?Ep, ?Eb; try done. by rewrite app_nil_r.
  - apply read_packet_spec in E as (Hc & Ep & Eb & Ht & Hpay). assert (buf = payload) as -> by (symmetry; by apply Hpay).
    eapply (reader_inv c r _ Reading (Counted payload n)); [done|destruct Hc; by split|done|..]; cbn -[sumlen]; rewrite ?Ep; try done.
    + unfold n. rewrite sumlen_one, Eb, I3. change (sumlen []) with 0. lia.
    + by rewrite app_nil_r.
    + by repeat constructor.
  - eapply (reader_inv c r _ Reading Reading _ _ _ 0 0); [done|by split|by apply (tally_inc _ (Dropped UdpReadError) 1)|..];
      cbn -[sumlen]; rewrite ?app_nil_r; try done.
  - destruct (drop_counted_spec t payload QueueBytes r) as (Hc & Ht & Ep & Eb); [by auto|]. rewrite sumlen_one in I3.
    eapply (reader_inv c r _ (Counted payload n) Reading); [done|done|done|..]; rewrite ?Ep, ?Eb; cbn -[sumlen];
      rewrite ?app_nil_r; try done; change (sumlen []) with 0; lia.
  - destruct (send_spec t payload n r) as (Hc & Ht & Ep & Eb). rewrite sumlen_one in I3. unfold full in Hf.
    eapply (reader_inv c r _ (Counted payload n) Reading); [done|done|done|..];
      rewrite ?Ep, ?Eb, ?sumlen_app, ?sumlen_one, ?length_app; cbn -[sumlen]; change (sumlen []) with 0; try done; try lia.
    rewrite !Forall_app in I10. tauto.
  - destruct (drop_counted_spec t payload QueueFull r) as (Hc & Ht & Ep & Eb); [by auto|]. rewrite sumlen_one in I3.
    eapply (reader_inv c r _ (Counted payload n) Reading); [done|done|done|..]; rewrite ?Ep, ?Eb; cbn -[sumlen];
      rewrite ?app_nil_r; try done; change (sumlen []) with 0; lia.
  - rewrite sumlen_one in I3. eapply (reader_inv c r _ (Counted payload n) Returned _ _ _ 0 0); [done|by split|by apply tally_same|..];
      cbn -[sumlen]; rewrite ?app_nil_r; try done. change (sumlen []) with 0. lia.
  - eapply (reader_inv c r r Reading Returned _ _ _ 0 0); [done|by split|by apply tally_same|..];
      cbn -[sumlen]; rewrite ?app_nil_r; try done.
  - eapply worker_inv; [done|done|done|eapply core_recv_ok; [|done]; by split|by apply tally_same|..]; cbn -[sumlen]; rewrite ?Hp; try done.
    + rewrite !sumlen_cons. change (sumlen []) with 0. lia.
    + rewrite !sumlen_cons. change (sumlen []) with 0. lia.
    + rewrite Hp in I10. inversion I10; subst. by repeat constructor.
  - destruct (uncount_spec t payload r) as (Hc & Ht & Ep & Eb).
    eapply worker_inv; [done|done|apply Hc|by eapply core_recv_ok|done|..]; rewrite ?Ep, ?Eb; cbn -[sumlen];
      rewrite ?sumlen_one; change (sumlen []) with 0; try done; try lia.
    + apply Split_Forall. rewrite !Forall_app in I10. destruct I10 as (_ & I10 & _). apply taken_Forall in I10.
      eapply Forall_lookup_1 in I10; [|done]. cbn in I10. by inversion I10.
  - assert (Forall bytes_ok (line :: lines)) as Hbl by (eapply Forall_lookup_1 in I11; [|done]; exact I11).
    apply Forall_cons in Hbl as [Hb Hbl].
    destruct (processLine_spec AllowN IsPrint now t line r I1 Hb) as (r'' & ops & acc & E' & Hr & Hq & _ & Hd).
    rewrite E in E'. injection E' as <-.
    eapply worker_inv; [done|done|apply Hq|done|by eapply line_tally|..]; rewrite ?(qs_packets _ _ Hq), ?(qs_bytes _ _ Hq); cbn; try done; lia.
  - eapply worker_inv; [done|done|done|done|by apply tally_same|..]; cbn; try done; lia.
  - eapply worker_inv; [done|done|done|done|by apply tally_same|..]; cbn; try done; lia.
  - assert (core_same r (close_timeout r) /\ packets (close_timeout r) = packets r /\ packetBytes (close_timeout r) = packetBytes r /\
      tally (metrics r) (metrics (close_timeout r)) 0 0) as (Hc & Ep & Eb & Ht).
    { unfold close_timeout. cbv zeta. destruct (Z.of_nat (length (packets r)) >? 0); split_and!; try done; [by apply (tally_inc _ ShutdownDropped)|by apply tally_same]. }
    eapply (reader_inv c r _ f f _ _ _ 0 0); [done|done|done|..]; rewrite ?Ep, ?Eb; cbn -[sumlen]; rewrite ?app_nil_r; try done; try lia.
    rewrite !Forall_app in I10. tauto.
  - eapply (reader_inv c r _ f f _ _ _ 0 0); [done|by split|by apply tally_same|..]; cbn -[sumlen]; rewrite ?app_nil_r; try done; try lia.
    rewrite !Forall_app in I10. tauto.
Qed.

Lemma start_inv NewLimiter c a (r : Receiver) :
  newReceiver NewLimiter c a = Some r -> (forall a', a = Some a' -> agg_ok a') -> sys_inv c (start r) [].
Proof.
  intros Hn Ha. destruct (new_recv_ok _ _ _ _ Hn Ha) as [[R1 R2 R3] [B1 B2]]. unfold newReceiver in Hn.
  destruct (Config_Validate c) eqn:Ev; [done|]. destruct (parseAllowedSourceCIDRs _); [|done]. injection Hn as <-.
  assert (forall n, sumlen (taken (repeat Ranging n)) = 0 /\ Forall (fun w => w = Ranging) (repeat Ranging n)) as Hw.
  { intros n. induction n as [|n [IH1 IH2]]; [done|]. split; [done|]. by constructor. }
  unfold Config_Validate in Ev. destruct (Z.leb_spec (PacketQueueMaxBytes c) 0); [done|]. case_match; [done|].
  destruct (List.find _ _) as [ck|] eqn:Ef; [done|].
  assert (0 < PacketQueueSize c) as Hsize.
  { pose proof (List.find_none _ _ Ef (str "packet-queue-size", PacketQueueSize c)) as Hc. cbn in Hc. apply Z.leb_gt, Hc. tauto. }
  destruct (Hw (Z.to_nat (ParseWorkers c))) as [Ht Hall].
  split; cbn [start recv rd ws rcfg set_flags packets packetBytes metrics counted]; try done.
  - by rewrite Ht.
  - rewrite Ht. cbn. lia.
  - cbn. lia.
  - intros He. rewrite Forall_forall in Hall. by apply Hall in He.
  - rewrite app_nil_r. apply taken_Forall. eapply Forall_impl; [exact Hall|]. by intros w ->.
  - eapply Forall_impl; [exact Hall|]. by intros w ->.
Qed.

Lemma sys_run_inv c s tr s' tr0 : sys_inv c s tr0 -> sys_run s tr s' -> sys_inv c s' (tr0 ++ tr).
Proof.
  intros Hs. induction 1 as [s|s tr s' l s'' _ IH Hstep]; [by rewrite app_nil_r|]. rewrite app_assoc.
  eapply sys_step_inv; [by apply IH|done].
Qed.

(** However the goroutines of the receiver are scheduled: the queue never holds more
    datagrams or more bytes than configured and the byte count is never negative;
    datagrams leave the queue in the order they entered it, none lost and none twice;
    every datagram received was dropped and counted, queued, given up at the stop, or
    is about to be queued; and the counts of the lines stay balanced. *)
Theorem receiver_queue NewLimiter c a r tr s :
  newReceiver NewLimiter c a = Some r -> (forall a', a = Some a' -> agg_ok a') -> sys_run (start r) tr s ->
  let q := recv s in
  (0 <= packetBytes q /\ sumlen (packets q) <= PacketQueueMaxBytes c /\ Z.of_nat (length (packets q)) <= PacketQueueSize c) /\
  queued_of tr = dequeued_of tr ++ packets q /\
  counters (metrics q) PacketsReceived = packets_dropped (metrics q) + Z.of_nat (length (queued_of tr)) +
    Z.of_nat (length (discarded_of tr)) + Z.of_nat (length (counted (rd s))) /\
  balanced (metrics q).
Proof.
  intros Hn Ha Hrun q. pose proof (sys_run_inv _ _ _ _ _ (start_inv _ _ _ _ Hn Ha) Hrun) as [I0 I1 I2 I3 I4 I5 I6 I7 I8 I9 I10 I11].
  cbn [app] in *. pose proof (sumlen_nonneg (packets (recv s))). pose proof (sumlen_nonneg (taken (ws s))).
  pose proof (sumlen_nonneg (counted (rd s))). rewrite I0 in *. unfold q. split_and!; try done; lia.
Qed.

(** How far a stopped receiver is from its end. *)
Definition lines_left (p : bytes) : nat := length (Split p 10).
Definition worker_left (w : worker) : nat :=
  match w with Ranging => 1 | Took p => lines_left p + 3 | Parsing _ lines => length lines + 2 | Exited => 0 end.
Definition reader_left (f : reader) : nat := match f with Reading => 1 | Counted _ _ => 2 | Returned => 0 end.
Definition left_over (s : sys) : nat :=
  (reader_left (rd s) + sum_list_with (fun p => lines_left p + 3)%nat (packets (recv s)) + sum_list_with worker_left (ws s))%nat.

Lemma workers_left_insert i w w' l :
  l !! i = Some w -> (sum_list_with worker_left (<[i := w']> l) + worker_left w = sum_list_with worker_left l + worker_left w')%nat.
Proof.
  intros Hi. rewrite <-(take_drop_middle l i w Hi) at 2. rewrite insert_take_drop by by eapply lookup_lt_Some.
  rewrite !sum_list_with_app. cbn. lia.
Qed.

Lemma drain_worker c (r : Receiver) w i x tr :
  sys_inv c (Sys r Returned w) tr -> stopped r = true -> w !! i = Some x -> x <> Exited ->
  exists l s', sys_step l (Sys r Returned w) s' /\ stopped (recv s') = true /\ (left_over s' < left_over (Sys r Returned w))%nat.
Proof.
  intros Hs Hst Hi Hx. pose proof (workers_left_insert i x) as Hleft. unfold left_over. destruct x as [|p|now lines|]; [| | |done].
  - destruct (packets r) as [|p ps] eqn:Ep.
    + eexists _, _. split; [by apply (s_exit _ _ i)|]. split; [done|]. cbn. rewrite Ep. specialize (Hleft Exited w Hi). cbn in *. lia.
    + eexists _, _. split; [by eapply (s_take _ _ i)|]. split; [done|]. cbn. rewrite Ep. specialize (Hleft (Took p) w Hi). cbn in *. lia.
  - eexists _, _. split; [by apply (s_uncount _ _ 0 0 i)|]. destruct (uncount_spec 0 p r) as (_ & _ & Ep & _). split.
    + cbn [recv]. unfold uncount. cbv zeta. rewrite (proj2 (proj2 (proj2 (proj2 (observe_same 0 _))))). done.
    + cbn [rd recv ws]. rewrite Ep. specialize (Hleft (Parsing 0 (Split p 10)) w Hi). cbn in *. unfold lines_left in *. lia.
  - destruct lines as [|line lines].
    + eexists _, _. split; [by eapply (s_next _ _ _ i)|]. split; [done|]. cbn. specialize (Hleft Ranging w Hi). cbn in *. lia.
    + pose proof (Forall_lookup_1 _ _ _ _ (si_lines _ _ _ Hs) Hi) as Hbl. cbn in Hbl. apply Forall_cons in Hbl as [Hb _].
      destruct (processLine_spec AllowN IsPrint now 0 line r (si_recv _ _ _ Hs) Hb) as (r' & ops & acc & E & _ & Hq & _).
      eexists _, _. split; [by eapply (s_line _ _ 0 now i)|]. split; [by cbn; rewrite (qs_stopped _ _ Hq)|].
      cbn [rd recv ws]. rewrite (qs_packets _ _ Hq). specialize (Hleft (Parsing now lines) w Hi). cbn in *. lia.
Qed.

Definition finished (s : sys) : Prop := rd s = Returned /\ Forall (fun w => w = Exited) (ws s).

Lemma sys_run_workers s tr s' : sys_run s tr s' -> length (ws s') = length (ws s).
Proof.
  induction 1 as [|s tr s' l s'' _ IH Hstep]; [done|]. rewrite <-IH. by destruct Hstep; cbn; rewrite ?length_insert.
Qed.

Lemma new_workers NewLimiter c a (r : Receiver) : newReceiver NewLimiter c a = Some r -> 0 < ParseWorkers c.
Proof.
  unfold newReceiver. destruct (Config_Validate c) eqn:Ev; [done|]. intros _. unfold Config_Validate in Ev.
  case_match; [done|]. case_match; [done|]. destruct (List.find _ _) as [ck|] eqn:Ef; [done|].
  pose proof (List.find_none _ _ Ef (str "parse-workers", ParseWorkers c)) as Hc. cbn in Hc. apply Z.leb_gt, Hc. tauto.
Qed.

Lemma drain_step c s tr :
  sys_inv c s tr -> stopped (recv s) = true ->
  finished s \/ exists l s', sys_step l s s' /\ stopped (recv s') = true /\ (left_over s' < left_over s)%nat.
Proof.
  intros Hs Hst. destruct s as [r f w]. cbn [recv] in Hst. destruct f as [|p n|].
  - right. eexists _, _. split; [by apply s_return|]. split; [done|]. unfold left_over. cbn. lia.
  - right. destruct (Z_lt_le_dec (PacketQueueMaxBytes (rcfg r)) n).
    + eexists _, _. split; [by apply (s_over _ _ 0)|]. destruct (drop_counted_spec 0 p QueueBytes r) as (_ & _ & Ep & _); [by auto|]. split.
      * cbn [recv]. unfold drop_counted. cbv zeta. rewrite (proj2 (proj2 (proj2 (proj2 (observe_same 0 _))))). done.
      * unfold left_over. cbn [rd recv ws]. rewrite Ep. cbn. lia.
    + eexists _, _. split; [by apply s_stop|]. split; [done|]. unfold left_over. cbn. lia.
  - destruct (Forall_Exists_dec (fun x => x = Exited) (fun x => x <> Exited) (fun x => ltac:(destruct x; (left; done) || (right; done))) w)
      as [Hall | Hex]; [by left|]. right. apply Exists_exists in Hex as (x & [i Hi]%list_elem_of_lookup & Hx). by eapply drain_worker.
Qed.

Lemma sys_run_cons s l s1 tr s2 : sys_step l s s1 -> sys_run s1 tr s2 -> sys_run s (l :: tr) s2.
Proof.
  intros Hstep. induction 1 as [s1|s1 tr s2 l' s3 _ IH Hl]; [apply (run_snoc s [] s l s1); [constructor|done]|].
  rewrite app_comm_cons. eapply run_snoc; [by apply IH|done].
Qed.

(** C21: A receiver that was told to stop can always finish: from every state it can be in,
    its goroutines can run until the reader has returned and every parser has exited,
    and then the queue is empty, no bytes are counted, and every datagram that was ever
    queued has been taken by a parser. *)
Theorem receiver_drains NewLimiter c a r tr s :
  newReceiver NewLimiter c a = Some r -> (forall a', a = Some a' -> agg_ok a') -> sys_run (start r) tr s ->
  stopped (recv s) = true ->
  exists tr' s', sys_run s tr' s' /\ finished s' /\ packets (recv s') = [] /\ packetBytes (recv s') = 0 /\
    queued_of (tr ++ tr') = dequeued_of (tr ++ tr').
Proof.
  intros Hn Ha Hrun Hst. pose proof (start_inv _ _ _ _ Hn Ha) as H0. pose proof (sys_run_inv _ _ _ _ _ H0 Hrun) as Hs. cbn [app] in Hs.
  assert (0 < ParseWorkers c) as Hwk by (by eapply new_workers).
  assert (ws s <> []) as Hws.
  { rewrite <-length_zero_iff_nil, (sys_run_workers _ _ _ Hrun). unfold start. cbn [ws]. rewrite repeat_length.
    assert (rcfg r = c) as -> by apply (si_cfg _ _ _ H0). lia. }
  assert (exists tr' s', sys_run s tr' s' /\ finished s') as (tr' & s' & Hrun' & Hf).
  { clear Hrun Hws. remember (left_over s) as n eqn:En. revert s tr Hs Hst En.
    induction n as [n IH] using lt_wf_ind. intros s tr Hs Hst ->.
    destruct (drain_step c s tr Hs Hst) as [Hf | (l & s1 & Hstep & Hst1 & Hlt)]; [exists [], s; by split; [constructor|]|].
    destruct (IH (left_over s1) Hlt s1 (tr ++ [l])) as (tr' & s' & Hrun' & Hf); [by eapply sys_step_inv|done|done|].
    exists (l :: tr'), s'. split; [by eapply sys_run_cons|done]. }
  pose proof (sys_run_inv _ _ _ _ _ Hs Hrun') as [I0 I1 I2 I3 I4 I5 I6 I7 I8 I9 I10 I11]. destruct Hf as [Hrd Hall].
  assert (ws s' <> []) as Hws'.
  { rewrite <-length_zero_iff_nil, (sys_run_workers _ _ _ Hrun'), length_zero_iff_nil. done. }
  assert (packets (recv s') = []) as Ep.
  { apply I9. destruct (ws s') as [|w ws']; [done|]. apply Forall_cons in Hall as [-> _]. left. }
  assert (taken (ws s') = []) as Et.
  { clear -Hall. induction Hall as [|w l -> _ IH]; [done|]. unfold taken in *. cbn. done. }
  exists tr', s'. rewrite Ep, Et, Hrd in I3. rewrite Ep, app_nil_r in I7. by split_and!.
Qed.

End queue.

(** A datagram read, queued and taken, and a stop. *)
Definition demo_payload : bytes := str "hits:1|c".
Definition demo_read : Receiver (Limiter := unit) := (read_packet free_limiter 5 demo_payload [10; 0; 0; 1] (recv (start demo_receiver))).1.
Definition demo_count : Receiver (Limiter := unit) :=
  set_queue (packets demo_read) (packetBytes demo_read + Z.of_nat (length demo_payload)) demo_read.
Definition demo_sent : Receiver (Limiter := unit) := send 6 demo_payload (packetBytes demo_count) demo_count.

Lemma demo_run IsPrint :
  sys_run free_limiter IsPrint (start demo_receiver) [Internal; Queued demo_payload; Internal]
    (Sys (close demo_sent) Reading (ws (start demo_receiver))).
Proof.
  eapply (run_snoc _ _ _ [_; _]); [|by apply s_close; vm_compute].
  eapply (run_snoc _ _ _ [_]); [|by apply (s_send _ _ 6 demo_count); vm_compute].
  eapply (run_snoc _ _ _ []); [constructor|].
  apply (s_count _ _ 5 demo_payload [10; 0; 0; 1] (recv (start demo_receiver)) demo_read); [by repeat constructor|].
  unfold demo_read. destruct (read_packet _ _ _ _ _) as [r o] eqn:E. f_equal. cbn [fst].
  change o with ((r, o).2). rewrite <-E. vm_compute. reflexivity.
Qed.

Lemma receiver_queue_witness :
  queued_of [Internal; Queued demo_payload; Internal] =
  dequeued_of [Internal; Queued demo_payload; Internal] ++ packets (close demo_sent).
Proof.
  apply (receiver_queue free_limiter (fun _ => false) (fun _ _ => tt) demo_receiver_config (Some (new demo_config)) demo_receiver
    [Internal; Queued demo_payload; Internal] (Sys (close demo_sent) Reading (ws (start demo_receiver)))).
  - apply demo_receiver_new.
  - intros a' [= <-]. apply new_idle.
  - apply demo_run.
Defined.

Lemma receiver_drains_witness :
  exists tr' s', sys_run free_limiter (fun _ => false) (Sys (close demo_sent) Reading (ws (start demo_receiver))) tr' s' /\
    finished s' /\ packets (recv s') = [].
Proof.
  destruct (receiver_drains free_limiter (fun _ => false) (fun _ _ => tt) demo_receiver_config (Some (new demo_config)) demo_receiver
    [Internal; Queued demo_payload; Internal] (Sys (close demo_sent) Reading (ws (start demo_receiver)))) as (tr' & s' & H1 & H2 & H3 & _).
  - apply demo_receiver_new.
  - intros a' [= <-]. apply new_idle.
  - apply demo_run.
  - vm_compute. reflexivity.
  - exists tr', s'. split; [exact H1|]. split; [exact H2|exact H3].
Defined.

End StatsdQueue.
