(* ===== verification/StatsdSpool.v ===== *)
(** * DogStatsD: the spool on disk

    dogstatsd/spool.go: batches of encoded payloads in a directory of their own, written
    so that a batch is there completely or not at all.  Every system call may fail, or the
    machine may crash at it; what a crash leaves behind is the relation [crash]. *)

From stdpp Require Import sorting.
From S2P Require Import Prelude GoLib GoText GoUtf8.

Module StatsdSpool.
Import GoText GoUtf8.

(** ** Files *)

(** [synced]: the data has reached the disk. *)
Record file := MkFile { data : bytes; modified : Z; synced : bool }.

(** An entry of a batch directory, and whether the entry itself has reached the disk. *)
Inductive child := CFile (f : file) | COther.

#[global] Instance file_eq_dec : EqDecision file.
Proof. solve_decision. Defined.
#[global] Instance child_eq_dec : EqDecision child.
Proof. solve_decision. Defined.

(** What is in the directory of the spool and in its directory [quarantine]. *)
Inductive node := NFile (f : file) | NDir (entries : gmap bytes (child * bool)) (modified : Z) | NOther.

(** [past]: the states since the directory was last synced, which a crash may bring back. *)
Record fs := MkFs {
  top : gmap bytes node; quarantined : gmap bytes node; past : list (gmap bytes node * gmap bytes node)
}.

(** A path below the directory of the spool, and its text there. *)
Inductive path := Top (name : bytes) | Sub (dir name : bytes).

#[global] Instance path_eq_dec : EqDecision path.
Proof. solve_decision. Defined.

Definition path_string (p : path) : bytes :=
  match p with Top name => name | Sub dir name => dir ++ [47] ++ name end.

(** ** System calls *)

(** A call that fails may have written some bytes. *)
Inductive fault := NoFault | Fails (written : nat) | Crashes.

Inductive io_error := EInvalid | EFull | EIO | ENotSpool | EEmptyBatch | EBadEntry.

Inductive result (A : Type) := Ok (a : A) | Err (e : io_error) | Crashed.
Arguments Ok {A} a.
Arguments Err {A} e.
Arguments Crashed {A}.

Record world := MkWorld { disk : fs; faults : list fault }.

Definition io (A : Type) : Type := world -> result A * world.

Definition ret {A} (a : A) : io A := fun w => (Ok a, w).
Definition raise {A} (e : io_error) : io A := fun w => (Err e, w).
Definition bind {A B} (m : io A) (k : A -> io B) : io B :=
  fun w => match m w with
           | (Ok a, w) => k a w
           | (Err e, w) => (Err e, w)
           | (Crashed, w) => (Crashed, w)
           end.
(** [h] after an error of [m], whose own error is ignored. *)
Definition on_error {A} (m : io A) (h : io unit) : io A :=
  fun w => match m w with
           | (Err e, w) => match h w with (Crashed, w) => (Crashed, w) | (_, w) => (Err e, w) end
           | x => x
           end.
(** [_ = m] *)
Definition ignore {A} (m : io A) : io unit :=
  fun w => match m w with (Crashed, w) => (Crashed, w) | (_, w) => (Ok tt, w) end.

Notation "'let*' x := m 'in' k" := (bind m (fun x => k)) (at level 10, x pattern, m at level 100, k at level 200).

(** A call: its effect when it succeeds, and what it may leave when it fails. *)
Definition call {A} (f : fs -> option (A * fs)) (partial : nat -> fs -> fs) : io A :=
  fun w => match faults w with
           | Crashes :: l => (Crashed, MkWorld (disk w) l)
           | Fails n :: l => (Err EIO, MkWorld (partial n (disk w)) l)
           | NoFault :: l => match f (disk w) with
                             | Some (a, d) => (Ok a, MkWorld d l)
                             | None => (Err EIO, MkWorld (disk w) l)
                             end
           | [] => match f (disk w) with
                   | Some (a, d) => (Ok a, MkWorld d [])
                   | None => (Err EIO, w)
                   end
           end.

Definition unchanged (n : nat) (d : fs) : fs := d.
(** A call that only reads. *)
Definition query {A} (f : fs -> option A) : io A := call (fun d => a ← f d; Some (a, d)) unchanged.
(** Changes of the directories, which a crash may undo. *)
Definition update (t q : gmap bytes node) (d : fs) : fs := MkFs t q ((top d, quarantined d) :: past d).
Definition change (f : fs -> option (gmap bytes node * gmap bytes node)) : io unit :=
  call (fun d => tq ← f d; Some (tt, update tq.1 tq.2 d)) unchanged.

Definition lookup_file (d : fs) (p : path) : option file :=
  match p with
  | Top name => match top d !! name with Some (NFile f) => Some f | _ => None end
  | Sub dir name => match top d !! dir with
                    | Some (NDir es _) => match es !! name with Some (CFile f, _) => Some f | _ => None end
                    | _ => None
                    end
  end.

(** [os.ReadDir] of the directory of the spool, of one in it, of [quarantine]: sorted by
    name. *)
Definition ReadTop : io (list (bytes * node)) :=
  query (fun d => Some (omap (fun k => (fun x => (k, x)) <$> top d !! k) (sorted_keys (top d)))).
Definition ReadSub (dir : bytes) : io (list (bytes * child)) :=
  query (fun d => match top d !! dir with
                  | Some (NDir es _) => Some (omap (fun k => (fun x => (k, x.1)) <$> es !! k) (sorted_keys es))
                  | _ => None
                  end).
Definition ReadQuarantine : io (list (bytes * node)) :=
  query (fun d => Some (omap (fun k => (fun x => (k, x)) <$> quarantined d !! k) (sorted_keys (quarantined d)))).

(** [os.Stat] of a file: its size and time. *)
Definition Stat (p : path) : io (Z * Z) :=
  query (fun d => f ← lookup_file d p; Some (Z.of_nat (length (data f)), modified f)).

Definition ReadFile (p : path) : io bytes := query (fun d => data <$> lookup_file d p).

(** [os.Remove] of a file, and of a directory that is empty. *)
Definition Remove_file (p : path) : io unit :=
  change (fun d => match p with
                   | Top name => match top d !! name with
                                 | Some (NFile _) => Some (delete name (top d), quarantined d)
                                 | _ => None
                                 end
                   | Sub dir name => match top d !! dir with
                                     | Some (NDir es m) =>
                                         match es !! name with
                                         | Some (CFile _, _) => Some (<[dir := NDir (delete name es) m]> (top d), quarantined d)
                                         | _ => None
                                         end
                                     | _ => None
                                     end
                   end).
Definition Remove_dir (dir : bytes) : io unit :=
  change (fun d => match top d !! dir with
                   | Some (NDir es _) => if decide (es = ∅) then Some (delete dir (top d), quarantined d) else None
                   | _ => None
                   end).

(** [os.RemoveAll]: no error if there is nothing. *)
Definition RemoveAll_top (name : bytes) : io unit := change (fun d => Some (delete name (top d), quarantined d)).
Definition RemoveAll_quarantine (name : bytes) : io unit := change (fun d => Some (top d, delete name (quarantined d))).

(** [os.MkdirTemp(s.dir, ".batch-*.tmp")]; it draws names until one is free, up to 10000
    times, and [rnd] is the random part of the last. *)
Definition temp_name (rnd : bytes) : bytes := str ".batch-" ++ rnd ++ str ".tmp".
Definition MkdirTemp (now : Z) (rnd : bytes) : io bytes :=
  let* _ := change (fun d => match top d !! temp_name rnd with
                             | None => Some (<[temp_name rnd := NDir ∅ now]> (top d), quarantined d)
                             | Some _ => None
                             end) in
  ret (temp_name rnd).

(** [os.OpenFile] with [O_CREATE|O_EXCL], [Write], [Sync] and [Close] of a file in a
    directory; a [Write] that fails has written some of the bytes. *)
Definition with_child (dir name : bytes) (f : option (child * bool) -> option (option (child * bool))) (d : fs)
  : option (gmap bytes node) :=
  match top d !! dir with
  | Some (NDir es m) => c ← f (es !! name); Some (<[dir := NDir (partial_alter (fun _ => c) name es) m]> (top d))
  | _ => None
  end.

Definition Create (now : Z) (dir name : bytes) : io unit :=
  change (fun d => t ← with_child dir name (fun c => match c with
                                                     | None => Some (Some (CFile (MkFile [] now false), false))
                                                     | Some _ => None
                                                     end) d; Some (t, quarantined d)).

Definition append_data (s : bytes) (c : option (child * bool)) : option (option (child * bool)) :=
  match c with
  | Some (CFile f, l) => Some (Some (CFile (MkFile (data f ++ s) (modified f) false), l))
  | _ => None
  end.
Definition Write_data (dir name : bytes) (s : bytes) : io unit :=
  call (fun d => t ← with_child dir name (append_data s) d; Some (tt, update t (quarantined d) d))
    (fun n d => match with_child dir name (append_data (take n s)) d with
                | Some t => update t (quarantined d) d
                | None => d
                end).

Definition sync_child (c : option (child * bool)) : option (option (child * bool)) :=
  match c with
  | Some (CFile f, l) => Some (Some (CFile (MkFile (data f) (modified f) true), l))
  | _ => None
  end.
Definition Sync_file (dir name : bytes) : io unit :=
  change (fun d => t ← with_child dir name sync_child d; Some (t, quarantined d)).

Definition Close : io unit := query (fun _ => Some tt).
Definition Open : io unit := query (fun _ => Some tt).

(** [Sync] of a directory: its entries reach the disk. *)
Definition Sync_dir (dir : bytes) : io unit :=
  change (fun d => match top d !! dir with
                   | Some (NDir es m) => Some (<[dir := NDir ((fun c => (c.1, true)) <$> es) m]> (top d), quarantined d)
                   | _ => None
                   end).
Definition Sync_top : io unit := call (fun d => Some (tt, MkFs (top d) (quarantined d) [])) unchanged.

(** [os.Rename] of a directory within the spool and into [quarantine]: the target must not
    be there, or be an empty directory. *)
Definition replaceable (x : option node) : bool :=
  match x with
  | None => true
  | Some (NDir es _) => bool_decide (es = ∅)
  | Some _ => false
  end.
Definition Rename_dir (from to : bytes) : io unit :=
  change (fun d => match top d !! from with
                   | Some (NDir es m) => if replaceable (top d !! to) then Some (<[to := NDir es m]> (delete from (top d)), quarantined d)
                                         else None
                   | _ => None
                   end).
Definition Rename_dir_quarantine (from to : bytes) : io unit :=
  change (fun d => match top d !! from with
                   | Some (NDir es m) => if replaceable (quarantined d !! to)
                                         then Some (delete from (top d), <[to := NDir es m]> (quarantined d)) else None
                   | _ => None
                   end).
(** [os.Rename] of a file into [quarantine]: a file that is there is replaced. *)
Definition Rename_file_quarantine (p : path) (to : bytes) : io unit :=
  change (fun d => f ← lookup_file d p;
    match quarantined d !! to with
    | Some (NDir _ _) => None
    | _ => let t := match p with
                    | Top name => delete name (top d)
                    | Sub dir name => match top d !! dir with
                                      | Some (NDir es m) => <[dir := NDir (delete name es) m]> (top d)
                                      | _ => top d
                                      end
                    end in Some (t, <[to := NFile f]> (quarantined d))
    end).

(** ** The spool *)

Record CustomSpool := MkCustomSpool { maxBytes : Z; maxAge : Z; maxQuarantineBytes : Z }.

Definition named (prefix suffix : bytes) (name : bytes) : bool := HasPrefix name prefix && HasSuffix name suffix.
Definition is_legacy : bytes -> bool := named (str "custom-") (str ".ready").
Definition is_batch : bytes -> bool := named (str "batch-") (str ".ready").
Definition is_chunk : bytes -> bool := named (str "chunk-") (str ".ready").
Definition is_temp : bytes -> bool := named (str ".batch-") (str ".tmp").

Definition regular_chunk (e : bytes * child) : bool :=
  match e.2 with CFile _ => is_chunk e.1 | COther => false end.

Fixpoint files_of (entries : list (bytes * node)) : io (list path) :=
  match entries with
  | [] => ret []
  | (name, NFile _) :: entries =>
      let* rest := files_of entries in ret (if is_legacy name then Top name :: rest else rest)
  | (name, NDir _ _) :: entries =>
      if is_batch name then
        let* chunks := ReadSub name in
        match chunks with
        | [] => raise EEmptyBatch
        | _ => if forallb regular_chunk chunks then
                 let* rest := files_of entries in ret (map (fun c => Sub name c.1) chunks ++ rest)
               else raise EBadEntry
        end
      else files_of entries
  | (name, NOther) :: entries => files_of entries
  end.

(** [sort.Strings] of the paths, which all begin with the directory of the spool. *)
Definition path_leb (p q : path) : bool := bytes_leb (path_string p) (path_string q).
Definition path_le (p q : path) : Prop := path_leb p q = true.
#[global] Instance path_le_dec : RelDecision path_le.
Proof. intros p q. unfold path_le. apply _. Defined.
Definition sort_paths (l : list path) : list path := merge_sort path_le l.

Definition filesLocked : io (list path) :=
  let* entries := ReadTop in
  let* files := files_of entries in ret (sort_paths files).

Record SpoolStats := MkSpoolStats { Files : nat; StatBytes : Z; OldestAge : Z }.

(** The sizes of the files, and the time of the oldest. *)
Fixpoint stat_files (files : list path) (total : Z) (oldest : option Z) : io (Z * option Z) :=
  match files with
  | [] => ret (total, oldest)
  | file :: files =>
      let* (size, mtime) := Stat file in
      stat_files files (total + size)
        (match oldest with None => Some mtime | Some t => if mtime <? t then Some mtime else Some t end)
  end.

Definition statsLocked (now : Z) : io SpoolStats :=
  let* files := filesLocked in
  let* (total, oldest) := stat_files files 0 None in
  ret (MkSpoolStats (length files) total (match oldest with None => 0 | Some t => Z.max 0 (now - t) end)).

Definition TrimSuffix (s suffix : bytes) : bytes :=
  if HasSuffix s suffix then take (length s - length suffix) s else s.

(** [%0nd] *)
Definition pad (n : nat) (s : bytes) : bytes := repeat 48 (n - length s) ++ s.
Definition chunk_name (i : nat) : bytes := str "chunk-" ++ pad 6 (FormatUint (Z.of_nat i)) ++ str ".ready".
Definition batch_name (batchTime : Z) (temp : bytes) : bytes :=
  str "batch-" ++ pad 20 (FormatUint batchTime) ++ str "-" ++ TrimSuffix temp (str ".tmp") ++ str ".ready".

(** One iteration of the loop of [PutBatch]; [cleanupTemp] comes before [rollback]. *)
Definition write_chunk (now : Z) (temp : bytes) (i : nat) (payload : bytes) : io unit :=
  let name := chunk_name i in
  let cleanup := let* _ := ignore Close in ignore (Remove_file (Sub temp name)) in
  let* _ := Create now temp name in
  let* _ := on_error (Write_data temp name payload) cleanup in
  let* _ := on_error (Sync_file temp name) cleanup in
  on_error Close cleanup.

Fixpoint write_chunks (now : Z) (temp : bytes) (i : nat) (payloads : list bytes) : io unit :=
  match payloads with
  | [] => ret tt
  | payload :: payloads =>
      let* _ := write_chunk now temp i payload in write_chunks now temp (S i) payloads
  end.

(** From the first chunk to the directory handle being closed. *)
Definition fill_temp (now : Z) (temp : bytes) (payloads : list bytes) : io unit :=
  let rollback := ignore (RemoveAll_top temp) in
  let* _ := on_error (write_chunks now temp 0 payloads) rollback in
  let* _ := on_error Open rollback in
  let* _ := on_error (on_error (Sync_dir temp) (ignore Close)) rollback in
  ignore Close.

Definition PutBatch (s : CustomSpool) (now : Z) (rnd : bytes) (payloads : list bytes) : io (list path) :=
  match payloads with
  | [] => raise EInvalid
  | _ =>
      if existsb (fun p => bytes_eqb p []) payloads then raise EInvalid
      else
      let* stats := statsLocked now in
      let required := foldr (fun p n => Z.of_nat (length p) + n) 0 payloads in
      if (required >? maxBytes s) || (StatBytes stats >? maxBytes s - required) then raise EFull
      else
      let* temp := MkdirTemp now rnd in
      let* _ := fill_temp now temp payloads in
      let batch := batch_name now temp in
      let* _ := on_error (Rename_dir temp batch) (ignore (RemoveAll_top temp)) in
      let* _ := ignore (let* _ := Open in let* _ := ignore Sync_top in Close) in
      ret (imap (fun i _ => Sub batch (chunk_name i)) payloads)
  end.

Definition Put (s : CustomSpool) (now : Z) (rnd : bytes) (payload : bytes) : io path :=
  let* files := PutBatch s now rnd [payload] in
  match files with
  | file :: _ => ret file
  | [] => raise EInvalid
  end.

Definition Oldest : io (option path) :=
  let* files := filesLocked in ret (hd_error files).

Definition validReadyPath (p : path) : bool :=
  match p with
  | Top base => is_legacy base
  | Sub parent base => is_batch parent && is_chunk base
  end.

(** The directory of a batch is removed with its last file. *)
Definition remove_parent (p : path) : io unit :=
  match p with
  | Top _ => ret tt
  | Sub parent _ =>
      ignore (let* entries := ReadSub parent in
              match entries with [] => ignore (Remove_dir parent) | _ => ret tt end)
  end.

Definition Remove (p : path) : io unit :=
  if negb (validReadyPath p) then raise ENotSpool
  else let* _ := Remove_file p in remove_parent p.

Definition safeReason (reason : bytes) : bytes :=
  let lower r := if between 65 r 90 then r + 32 else if r =? 0x130 then 105 else if r =? 0x212a then 107 else r in
  let keep r := between 97 r 122 || between 48 r 57 || (r =? 45) || (r =? 95) in
  match List.filter keep (map lower (runes (TrimSpace reason))) with
  | [] => str "unknown"
  | s => s
  end.

Definition base_name (p : path) : bytes := match p with Top name => name | Sub _ name => name end.

Definition Quarantine (p : path) (reason : bytes) : io bytes :=
  if negb (validReadyPath p) then raise ENotSpool
  else
  let destination := TrimSuffix (base_name p) (str ".ready") ++ str "." ++ safeReason reason ++ str ".failed" in
  let* _ := Rename_file_quarantine p destination in
  let* _ := remove_parent p in ret destination.

Definition Stats (now : Z) : io SpoolStats := statsLocked now.

(** ** Retention *)

Record MaintenanceResult := MkMaintenanceResult { ExpiredReadyFiles : nat; RemovedQuarantine : nat }.

Fixpoint expire (cutoff : Z) (files : list path) (n : nat) : io nat :=
  match files with
  | [] => ret n
  | file :: files =>
      let* (_, mtime) := Stat file in
      if mtime <? cutoff then
        let* _ := Remove_file file in
        let* _ := remove_parent file in expire cutoff files (S n)
      else expire cutoff files n
  end.

(** The bytes of the regular files of a tree. *)
Definition file_size (f : file) : Z := Z.of_nat (length (data f)).
Definition treeSize (x : node) : Z :=
  match x with
  | NFile f => file_size f
  | NDir es _ => msum (fun _ c => match c.1 with CFile f => file_size f | COther => 0 end) es
  | NOther => 0
  end.
Definition node_time (x : node) : Z := match x with NFile f => modified f | NDir _ m => m | NOther => 0 end.

(** An entry of [quarantine]: its name, size and time. *)
Definition item : Type := bytes * Z * Z.

Fixpoint measure (entries : list (bytes * node)) : io (list item) :=
  match entries with
  | [] => ret []
  | (name, _) :: entries =>
      let* size := query (fun d => treeSize <$> quarantined d !! name) in
      let* mtime := query (fun d => node_time <$> quarantined d !! name) in
      let* items := measure entries in ret ((name, size, mtime) :: items)
  end.

(** The order of [sort.Slice], which leaves open that of entries of the same time. *)
Definition older (a b : item) : Prop := a.2 <= b.2.
#[global] Instance older_dec : RelDecision older.
Proof. intros a b. unfold older. apply _. Defined.

Fixpoint trim (max : Z) (items : list item) (total : Z) (n : nat) : io nat :=
  match items with
  | [] => ret n
  | (name, size, _) :: items =>
      if total <=? max then ret n
      else let* _ := RemoveAll_quarantine name in trim max items (total - size) (S n)
  end.

Definition Maintain (s : CustomSpool) (now : Z) : io MaintenanceResult :=
  let* files := filesLocked in
  let* expired := expire (now - maxAge s) files 0 in
  let* entries := ReadQuarantine in
  let* items := measure entries in
  let total := foldr (fun (e : item) n => e.1.2 + n) 0 items in
  let* removed := trim (maxQuarantineBytes s) (merge_sort older items) total 0 in
  ret (MkMaintenanceResult expired removed).

(** ** Startup *)

Fixpoint recover (entries : list (bytes * node)) : io unit :=
  match entries with
  | [] => ret tt
  | (name, NDir _ _) :: entries =>
      if is_temp name then let* _ := RemoveAll_top name in recover entries
      else if is_batch name then
        let* valid := (fun w => match ReadSub name w with
                                | (Ok chunks, w) => (Ok (match chunks with [] => false | _ => forallb regular_chunk chunks end), w)
                                | (Err _, w) => (Ok false, w)
                                | (Crashed, w) => (Crashed, w)
                                end) in
        if valid then recover entries
        else let* _ := Rename_dir_quarantine name (name ++ str ".corrupt") in recover entries
      else recover entries
  | _ :: entries => recover entries
  end.

Definition recoverStartup : io unit := let* entries := ReadTop in recover entries.

(** [filepath] and [os.MkdirAll] of the directories apart, what opening a spool does. *)
Definition OpenCustomSpoolWithPolicy (dir : bytes) (maxBytes maxAge maxQuarantineBytes : Z) : io CustomSpool :=
  if bytes_eqb (TrimSpace dir) [] then raise EInvalid
  else if maxBytes <=? 0 then raise EInvalid
  else if (maxAge <=? 0) || (maxQuarantineBytes <=? 0) then raise EInvalid
  else
  let* _ := query (fun _ => Some tt) in
  let* _ := recoverStartup in ret (MkCustomSpool maxBytes maxAge maxQuarantineBytes).

(** 24 hours, in nanoseconds. *)
Definition OpenCustomSpool (dir : bytes) (maxBytes : Z) : io CustomSpool :=
  let quarantineLimit := Z.quot maxBytes 10 in
  let quarantineLimit := if quarantineLimit <? 1 then 1 else quarantineLimit in
  OpenCustomSpoolWithPolicy dir maxBytes (24 * 3600 * 1000000000) quarantineLimit.

(** ** Crashes *)

(** Data that was not synced may be anything. *)
Definition child_after (c c' : child) : Prop :=
  match c, c' with
  | CFile f, CFile f' => if synced f then f' = f else True
  | COther, COther => True
  | _, _ => False
  end.

(** Entries that were not synced may be gone. *)
Definition node_after (x x' : node) : Prop :=
  match x, x' with
  | NFile f, NFile f' => if synced f then f' = f else True
  | NDir es m, NDir es' m' =>
      (forall k c, es !! k = Some (c, true) -> exists c', es' !! k = Some (c', true) /\ child_after c c') /\
      (forall k c' l, es' !! k = Some (c', l) -> l = true /\ exists c b, es !! k = Some (c, b) /\ child_after c c')
  | NOther, NOther => True
  | _, _ => False
  end.

Definition nodes_after (t t' : gmap bytes node) : Prop :=
  forall k, match t !! k, t' !! k with
            | Some x, Some x' => node_after x x'
            | None, None => True
            | _, _ => False
            end.

(** After a crash: one of the states since the last sync of the directory. *)
Definition crash (d d' : fs) : Prop :=
  exists t q, (t, q) ∈ (top d, quarantined d) :: past d /\ nodes_after t (top d') /\ nodes_after q (quarantined d') /\ past d' = [].

End StatsdSpool.
