(* ===== verification/StatsdSpoolSpec.v ===== *)
(** * DogStatsD: what the spool promises

    Whatever fails and wherever the machine stops, a batch is in the spool completely or
    not at all, and what was in it before stays.  The order of replay and the capacity are
    in StatsdSpoolFifo and StatsdSpoolQueue. *)

From stdpp Require Import sorting.
From S2P Require Import Prelude GoLib GoText GoUtf8 StatsdSpool.

Module StatsdSpoolSpec.
Import GoText GoUtf8 StatsdSpool.

(** ** Computations with faults *)

Lemma call_ok {A} (f : fs -> option (A * fs)) g w a w' :
  call f g w = (Ok a, w') -> f (disk w) = Some (a, disk w').
Proof.
  unfold call. destruct w as [d [|[|n|] l]]; cbn; try done; destruct (f d) as [[a' d']|]; try done; by intros [= <- <-].
Qed.

Lemma change_ok f w u w' :
  change f w = (Ok u, w') -> exists t q, f (disk w) = Some (t, q) /\ disk w' = update t q (disk w).
Proof.
  unfold change. intros E%call_ok. destruct (f (disk w)) as [[t q]|]; cbn in E; [|done]. injection E as _ E. eauto.
Qed.

Lemma query_disk {A} (f : fs -> option A) w : disk (query f w).2 = disk w.
Proof. unfold query, call. destruct w as [d [|[|n|] l]]; cbn; try done; by destruct (f d). Qed.

Lemma query_ok {A} (f : fs -> option A) w a w' : query f w = (Ok a, w') -> f (disk w) = Some a /\ disk w' = disk w.
Proof.
  intros E. split; [|change w' with ((Ok a, w').2); rewrite <-E; apply query_disk].
  apply call_ok in E. destruct (f (disk w)); cbn in E; [|done]. by injection E as ->.
Qed.

Lemma bind_ok {A B} (m : io A) (k : A -> io B) w b w' :
  bind m k w = (Ok b, w') -> exists a w1, m w = (Ok a, w1) /\ k a w1 = (Ok b, w').
Proof. unfold bind. destruct (m w) as [[a|e|] w1]; [|done..]. eauto. Qed.

Lemma on_error_ok {A} (m : io A) h w a w' : on_error m h w = (Ok a, w') -> m w = (Ok a, w').
Proof. unfold on_error. destruct (m w) as [[b|e|] w1]; [done| |done]. by destruct (h w1) as [[]]. Qed.

Lemma ignore_ok {A} (m : io A) w w' : ignore m w = (Ok tt, w') -> exists r, m w = (r, w') /\ r <> Crashed.
Proof. unfold ignore. destruct (m w) as [[]]; [intros [= <-]; eauto..|done]. Qed.

Lemma ignore_no_error {A} (m : io A) w e w' : ignore m w <> (Err e, w').
Proof. unfold ignore. by destruct (m w) as [[]]. Qed.

Lemma on_error_fails {A} (m : io A) h w r w' :
  on_error m h w = (r, w') -> (forall a, r <> Ok a) ->
  exists r0 w0, m w = (r0, w0) /\ (forall a, r0 <> Ok a) /\ (w' = w0 \/ w' = (h w0).2).
Proof.
  unfold on_error. destruct (m w) as [[a|e|] w0].
  - intros [= <- <-] Hr. by destruct (Hr a).
  - destruct (h w0) as [r1 w1] eqn:E. intros E' Hr. exists (Err e), w0. split_and!; [done|done|]. right. rewrite E.
    by destruct r1; injection E' as <- <-.
  - intros [= <- <-] Hr. exists Crashed, w0. by auto.
Qed.

Lemma change_fails f w r w' : change f w = (r, w') -> (forall a, r <> Ok a) -> disk w' = disk w.
Proof.
  unfold change, call. destruct w as [d [|[|n|] l]]; cbn; destruct (f d) as [[t q]|]; cbn; intros [= <- <-] Hr; try done; by destruct (Hr tt).
Qed.

(** What a computation does to the disk, however it ends. *)
Definition stays {A} (R : fs -> fs -> Prop) (m : io A) : Prop := forall w, R (disk w) (disk (m w).2).

Section stays.
Context (R : fs -> fs -> Prop) (R_refl : forall d, R d d) (R_trans : forall a b c, R a b -> R b c -> R a c).

Lemma stays_ret {A} (a : A) : stays R (ret a).
Proof. intros w. apply R_refl. Qed.
Lemma stays_raise {A} e : stays R (raise (A := A) e).
Proof. intros w. apply R_refl. Qed.
Lemma stays_bind {A B} (m : io A) (k : A -> io B) : stays R m -> (forall a, stays R (k a)) -> stays R (bind m k).
Proof.
  intros Hm Hk w. specialize (Hm w). unfold bind. destruct (m w) as [[a|e|] w1]; [|done..]. eapply R_trans; [done|apply Hk].
Qed.
Lemma stays_on_error {A} (m : io A) h : stays R m -> stays R h -> stays R (on_error m h).
Proof.
  intros Hm Hh w. specialize (Hm w). unfold on_error. destruct (m w) as [[a|e|] w1]; [done| |done].
  specialize (Hh w1). destruct (h w1) as [[] w2]; by eapply R_trans.
Qed.
Lemma stays_ignore {A} (m : io A) : stays R m -> stays R (ignore m).
Proof. intros Hm w. specialize (Hm w). unfold ignore. by destruct (m w) as [[] w1]. Qed.
Lemma stays_query {A} (f : fs -> option A) : stays R (query f).
Proof. intros w. rewrite query_disk. apply R_refl. Qed.
Lemma stays_call {A} (f : fs -> option (A * fs)) g :
  (forall d a d', f d = Some (a, d') -> R d d') -> (forall n d, R d (g n d)) -> stays R (call f g).
Proof.
  intros Hf Hg w. unfold call. destruct w as [d [|[|n|] l]]; cbn; try done; destruct (f d) as [[a d']|] eqn:E; cbn; try done; by eapply Hf.
Qed.
Lemma stays_change f :
  (forall d t q, f d = Some (t, q) -> R d (update t q d)) -> stays R (change f).
Proof.
  intros Hf. apply stays_call; [|done]. intros d a d' E. destruct (f d) as [[t q]|] eqn:Ef; cbn in E; [|done].
  injection E as _ <-. by apply Hf.
Qed.
End stays.

(** ** Ready files *)

Definition ready (d : fs) (p : path) (f : file) : Prop := validReadyPath p = true /\ lookup_file d p = Some f.

(** Batches are complete and on the disk. *)
Definition node_ok (name : bytes) (x : node) : Prop :=
  match x with
  | NFile f => is_legacy name = true -> synced f = true
  | NDir es _ => is_batch name = true ->
      es <> ∅ /\ forall k c, es !! k = Some c -> is_chunk k = true /\ exists f, c = (CFile f, true) /\ synced f = true
  | NOther => True
  end.

Definition nodes_ok (t : gmap bytes node) : Prop := map_Forall node_ok t.

Definition spool_ok (d : fs) : Prop := nodes_ok (top d) /\ Forall (fun tq => nodes_ok tq.1) (past d).

(** The same but for the directory [temp]. *)
Definition except_nodes (temp : bytes) (t t' : gmap bytes node) : Prop := forall k, k <> temp -> t' !! k = t !! k.

Definition except (temp : bytes) (d d' : fs) : Prop :=
  except_nodes temp (top d) (top d') /\ quarantined d' = quarantined d /\
  exists new, past d' = new ++ past d /\ Forall (fun tq => except_nodes temp (top d) tq.1 /\ tq.2 = quarantined d) new.

Lemma except_refl temp d : except temp d d.
Proof. split_and!; [done|done|]. by exists []. Qed.

Lemma except_trans temp a b c : except temp a b -> except temp b c -> except temp a c.
Proof.
  intros (H1 & H2 & n1 & H3 & H4) (G1 & G2 & n2 & G3 & G4). split_and!.
  - intros k Hk. by rewrite G1, H1.
  - congruence.
  - exists (n2 ++ n1). rewrite G3, H3, app_assoc. split; [done|]. apply Forall_app. split; [|done].
    eapply Forall_impl; [exact G4|]. intros [t q] [E1 E2]. split; [|cbn in *; congruence]. intros k Hk. by rewrite E1, H1.
Qed.

(** A change of [temp] only. *)
Lemma except_update temp d t : except_nodes temp (top d) t -> except temp d (update t (quarantined d) d).
Proof. intros Ht. split_and!; [done|done|]. exists [(top d, quarantined d)]. split; [done|]. by repeat constructor. Qed.

Lemma with_child_except temp name f d t : with_child temp name f d = Some t -> except_nodes temp (top d) t.
Proof.
  unfold with_child. destruct (top d !! temp) as [[| |]|]; try done. destruct (f _); cbn; [|done]. intros [= <-] k Hk.
  by rewrite lookup_insert_ne.
Qed.

(** ** Writing a batch *)

Section except_temp.
Context (temp : bytes).
#[local] Abbreviation stays_except := (stays (except temp)).

Lemma stays_change_temp f :
  (forall d t q, f d = Some (t, q) -> except_nodes temp (top d) t /\ q = quarantined d) -> stays_except (change f).
Proof.
  intros Hf. apply stays_change; [apply except_refl|]. intros d t q E. destruct (Hf _ _ _ E) as [Ht ->]. by apply except_update.
Qed.

Lemma stays_RemoveAll : stays_except (RemoveAll_top temp).
Proof. apply stays_change_temp. intros d t q [= <- <-]. split; [|done]. intros k Hk. by rewrite lookup_delete_ne. Qed.

Lemma stays_Create now name : stays_except (Create now temp name).
Proof.
  apply stays_change_temp. intros d t q E. destruct (with_child _ _ _ d) eqn:Ew; cbn in E; [|done]. injection E as <- <-.
  split; [by eapply with_child_except|done].
Qed.

Lemma stays_Write name s : stays_except (Write_data temp name s).
Proof.
  apply stays_call; [apply except_refl| |].
  - intros d a d' E. destruct (with_child _ _ _ d) eqn:Ew; cbn in E; [|done]. injection E as _ <-.
    by apply except_update, (with_child_except temp name _ _ _ Ew).
  - intros n d. destruct (with_child _ _ _ d) eqn:Ew; [|apply except_refl].
    by apply except_update, (with_child_except temp name _ _ _ Ew).
Qed.

Lemma stays_Sync_file name : stays_except (Sync_file temp name).
Proof.
  apply stays_change_temp. intros d t q E. destruct (with_child _ _ _ d) eqn:Ew; cbn in E; [|done]. injection E as <- <-.
  split; [by eapply with_child_except|done].
Qed.

Lemma stays_Remove_file name : stays_except (Remove_file (Sub temp name)).
Proof.
  apply stays_change_temp. intros d t q. destruct (top d !! temp) as [[| |]|]; try done. destruct (entries !! name) as [[[|] ?]|]; try done.
  intros [= <- <-]. split; [|done]. intros k Hk. by rewrite lookup_insert_ne.
Qed.

Lemma stays_Sync_dir : stays_except (Sync_dir temp).
Proof.
  apply stays_change_temp. intros d t q. destruct (top d !! temp) as [[| |]|]; try done. intros [= <- <-]. split; [|done].
  intros k Hk. by rewrite lookup_insert_ne.
Qed.

Lemma stays_write_chunk now i payload : stays_except (write_chunk now temp i payload).
Proof.
  pose proof (except_refl temp) as Hr. pose proof (except_trans temp) as Ht.
  assert (stays_except (let* _ := ignore Close in ignore (Remove_file (Sub temp (chunk_name i))))) as Hcl.
  { apply stays_bind; [done| |intros _]; apply stays_ignore; [by apply stays_query|apply stays_Remove_file]. }
  unfold write_chunk. cbv zeta. apply stays_bind; [done|apply stays_Create|intros _].
  apply stays_bind; [done|by apply stays_on_error; [|apply stays_Write|]|intros _].
  apply stays_bind; [done|by apply stays_on_error; [|apply stays_Sync_file|]|intros _].
  apply stays_on_error; [done|by apply stays_query|done].
Qed.

Lemma stays_write_chunks now i payloads : stays_except (write_chunks now temp i payloads).
Proof.
  pose proof (except_refl temp) as Hr. pose proof (except_trans temp) as Ht.
  revert i. induction payloads as [|p payloads IH]; intros i; cbn; [by apply stays_ret|].
  apply stays_bind; [done|apply stays_write_chunk|intros _; apply IH].
Qed.

Lemma stays_fill now payloads : stays_except (fill_temp now temp payloads).
Proof.
  pose proof (except_refl temp) as Hr. pose proof (except_trans temp) as Ht.
  assert (stays_except (ignore (RemoveAll_top temp))) as Hb by apply stays_ignore, stays_RemoveAll.
  assert (stays_except (ignore Close)) as Hc by by apply stays_ignore, stays_query.
  unfold fill_temp. cbv zeta. apply stays_bind; [done|by apply stays_on_error; [|apply stays_write_chunks|]|intros _].
  apply stays_bind; [done|by apply stays_on_error; [|apply stays_query|]|intros _].
  apply stays_bind; [done|apply stays_on_error; [done|by apply stays_on_error; [|apply stays_Sync_dir|]|done]|intros _; done].
Qed.

(** The chunk [i] written, its entry not yet on the disk. *)
Definition chunk_file (now : Z) (payload : bytes) : file := MkFile payload now true.

Lemma write_chunk_ok now i payload w u w' es m :
  write_chunk now temp i payload w = (Ok u, w') -> top (disk w) !! temp = Some (NDir es m) ->
  es !! chunk_name i = None /\
  top (disk w') !! temp = Some (NDir (<[chunk_name i := (CFile (chunk_file now payload), false)]> es) m).
Proof.
  intros E Hw. unfold write_chunk in E. cbv zeta in E. revert E. generalize (chunk_name i) as name. intros name E.
  apply bind_ok in E as (u1 & w1 & E1 & E). apply bind_ok in E as (u2 & w2 & E2 & E).
  apply bind_ok in E as (u3 & w3 & E3 & E4). apply on_error_ok in E2, E3, E4.
  assert (forall c es' w w' f, with_child temp name f (disk w) = Some (top (disk w')) -> f (es' !! name) = Some (Some c) ->
    top (disk w) !! temp = Some (NDir es' m) -> top (disk w') !! temp = Some (NDir (<[name := c]> es') m)) as Hstep.
  { intros c es' x x' f Hf Hc Hx. unfold with_child in Hf. rewrite Hx, Hc in Hf. cbn [mbind option_bind] in Hf. injection Hf as <-.
    by rewrite lookup_insert_eq. }
  assert (forall f x u x', change (fun d => t ← with_child temp name f d; Some (t, quarantined d)) x = (Ok u, x') ->
    with_child temp name f (disk x) = Some (top (disk x'))) as Hchange.
  { intros f x u0 x' Hx. apply change_ok in Hx as (t & q & Hx & ->). destruct (with_child _ _ _ _); [|done]. cbn in Hx. by injection Hx as <- <-. }
  apply Hchange in E1, E3. apply call_ok in E2. apply query_ok in E4 as [_ D4]. rewrite D4.
  assert (es !! name = None) as Hn.
  { unfold with_child in E1. rewrite Hw in E1. by destruct (es !! name). }
  split; [done|].
  assert (top (disk w1) !! temp = Some (NDir (<[name := (CFile (MkFile [] now false), false)]> es) m)) as H1
    by (eapply Hstep; [exact E1|by rewrite Hn|done]).
  assert (top (disk w2) !! temp = Some (NDir (<[name := (CFile (MkFile payload now false), false)]> es) m)) as H2.
  { rewrite <-(insert_insert_eq es name _ (CFile (MkFile [] now false), false)). eapply (Hstep _ _ w1 w2 (append_data payload)); [|by rewrite lookup_insert_eq|exact H1].
    destruct (with_child temp name (append_data payload) (disk w1)); [|done]. cbn in E2. by injection E2 as _ <-. }
  rewrite <-(insert_insert_eq es name _ (CFile (MkFile payload now false), false)). eapply (Hstep _ _ w2 w3 sync_child); [exact E3|by rewrite lookup_insert_eq|exact H2].
Qed.

Definition holds (now : Z) (i : nat) (payloads : list bytes) (linked : bool) (es : gmap bytes (child * bool)) : Prop :=
  (forall j payload, payloads !! j = Some payload -> es !! chunk_name (i + j) = Some (CFile (chunk_file now payload), linked)) /\
  (forall k c, es !! k = Some c -> exists j payload, payloads !! j = Some payload /\ k = chunk_name (i + j) /\
     c = (CFile (chunk_file now payload), linked)).

Lemma write_chunks_ok now i payloads w u w' es m :
  write_chunks now temp i payloads w = (Ok u, w') -> top (disk w) !! temp = Some (NDir es m) ->
  exists es', top (disk w') !! temp = Some (NDir (es ∪ es') m) /\ es ##ₘ es' /\ holds now i payloads false es'.
Proof.
  revert i w es. induction payloads as [|p payloads IH]; intros i w es E Hw; cbn in E.
  - injection E as _ <-. exists ∅. rewrite map_union_empty. split_and!; [done|apply map_disjoint_empty_r|].
    split; [done|]. intros k c. by rewrite lookup_empty.
  - apply bind_ok in E as (u1 & w1 & E1 & E). destruct (write_chunk_ok _ _ _ _ _ _ _ _ E1 Hw) as [Hn H1].
    destruct (IH _ _ _ E H1) as (es' & H2 & Hd & [Ha Hb]). apply map_disjoint_insert_l in Hd as [Hn' Hd].
    exists (<[chunk_name i := (CFile (chunk_file now p), false)]> es'). split_and!.
    + rewrite H2. do 2 f_equal. by rewrite <-insert_union_l, insert_union_r.
    + by apply map_disjoint_insert_r.
    + split_and!.
      * intros [|j] payload Hj; cbn in Hj.
        -- injection Hj as ->. rewrite Nat.add_0_r. apply lookup_insert_eq.
        -- specialize (Ha j payload Hj). rewrite Nat.add_succ_comm in Ha. rewrite lookup_insert_ne; [done|]. intros Heq. congruence.
      * intros k c [[<- <-] | [_ Hk]]%lookup_insert_Some; [exists 0%nat, p; by rewrite Nat.add_0_r|].
        destruct (Hb k c Hk) as (j & payload & Hj & -> & ->). exists (S j), payload. by rewrite Nat.add_succ_comm.
Qed.

Lemma fill_ok now payloads w u w' m :
  fill_temp now temp payloads w = (Ok u, w') -> top (disk w) !! temp = Some (NDir ∅ m) ->
  exists es, top (disk w') !! temp = Some (NDir es m) /\ holds now 0 payloads true es.
Proof.
  intros E Hw. unfold fill_temp in E. cbv zeta in E. apply bind_ok in E as (u1 & w1 & E1 & E). apply bind_ok in E as (u2 & w2 & E2 & E).
  apply bind_ok in E as (u3 & w3 & E3 & E4). apply on_error_ok in E1, E2, E3. apply on_error_ok in E3.
  destruct (write_chunks_ok _ _ _ _ _ _ _ _ E1 Hw) as (es & H1 & _ & [Ha Hb]). rewrite map_empty_union in H1.
  apply query_ok in E2 as [_ D2]. apply change_ok in E3 as (t & q & E3 & D3). rewrite D2, H1 in E3. injection E3 as <- <-.
  destruct u. apply ignore_ok in E4 as (r & E4 & _). assert (disk w' = disk w3) as D4.
  { change w' with ((r, w').2). rewrite <-E4. apply query_disk. }
  exists ((fun c => (c.1, true)) <$> es). rewrite D4, D3. cbn. rewrite lookup_insert_eq. split; [done|]. split_and!.
  - intros j payload Hj. rewrite lookup_fmap, (Ha j payload Hj). done.
  - intros k c Hk. rewrite lookup_fmap in Hk. destruct (es !! k) as [c'|] eqn:Ek; [|done]. cbn in Hk. injection Hk as <-.
    destruct (Hb k c' Ek) as (j & payload & Hj & -> & ->). by exists j, payload.
Qed.

End except_temp.

(** ** Reading changes nothing *)

Lemma stays_files_of entries : stays eq (files_of entries).
Proof.
  induction entries as [|[name []] entries IH]; cbn [files_of]; [by apply stays_ret| | |done].
  - apply stays_bind; [congruence|done|intros]. by apply stays_ret.
  - destruct (is_batch name); [|done]. apply stays_bind; [congruence|by apply stays_query|intros chunks].
    destruct chunks; [by apply stays_raise|]. case_match; [|by apply stays_raise].
    apply stays_bind; [congruence|done|intros]. by apply stays_ret.
Qed.

Lemma stays_files : stays eq filesLocked.
Proof.
  apply stays_bind; [congruence|by apply stays_query|intros]. apply stays_bind; [congruence|apply stays_files_of|intros]. by apply stays_ret.
Qed.

Lemma stays_stats now : stays eq (statsLocked now).
Proof.
  apply stays_bind; [congruence|apply stays_files|intros files].
  assert (forall total oldest, stays eq (stat_files files total oldest)) as Hs.
  { induction files as [|f files IH]; intros total oldest; cbn; [by apply stays_ret|].
    apply stays_bind; [congruence|by apply stays_query|]. intros [size mtime]. apply IH. }
  apply stays_bind; [congruence|apply Hs|]. intros [total oldest]. by apply stays_ret.
Qed.

(** ** The outcomes of a batch *)

(** The batch was moved into place; the directory may have been synced since. *)
Definition put_done (temp batch : bytes) (now : Z) (payloads : list bytes) (d d' : fs) : Prop :=
  exists d1 es m, except temp d d1 /\ top d1 !! temp = Some (NDir es m) /\ holds now 0 payloads true es /\
    replaceable (top d1 !! batch) = true /\ top d' = <[batch := NDir es m]> (delete temp (top d1)) /\
    quarantined d' = quarantined d1 /\ (past d' = [] \/ past d' = (top d1, quarantined d1) :: past d1).

Lemma finish_spec temp batch now payloads d w r w' es m :
  except temp d (disk w) -> top (disk w) !! temp = Some (NDir es m) -> holds now 0 payloads true es ->
  (let* _ := on_error (Rename_dir temp batch) (ignore (RemoveAll_top temp)) in
   let* _ := ignore (let* _ := Open in let* _ := ignore Sync_top in Close) in
   ret (imap (fun i _ => Sub batch (chunk_name i)) payloads)) w = (r, w') ->
  (except temp d (disk w') /\ (forall files, r <> Ok files)) \/
  (put_done temp batch now payloads d (disk w') /\
   (r = Crashed \/ r = Ok (imap (fun i _ => Sub batch (chunk_name i)) payloads))).
Proof.
  intros Hex Ht Hh E. unfold bind at 1 in E.
  assert (forall r w1, on_error (Rename_dir temp batch) (ignore (RemoveAll_top temp)) w = (r, w1) -> (forall a, r <> Ok a) ->
    except temp (disk w) (disk w1)) as Hfail.
  { intros r1 w1 E1 Hr. apply on_error_fails in E1 as (r0 & w0 & E0 & Hr0 & Hw); [|done]. apply change_fails in E0; [|done].
    destruct Hw as [-> | ->]; [rewrite E0; apply except_refl|]. rewrite <-E0. apply stays_ignore, stays_RemoveAll. }
  destruct (on_error (Rename_dir temp batch) (ignore (RemoveAll_top temp)) w) as [[u|e|] w1] eqn:E1.
  - right. apply on_error_ok, change_ok in E1 as (t & q & E1 & D1). rewrite Ht in E1.
    destruct (replaceable (top (disk w) !! batch)) eqn:Er; [|done]. injection E1 as <- <-.
    assert (put_done temp batch now payloads d (disk w1)) as Hdone.
    { exists (disk w), es, m. rewrite D1. cbn [top quarantined past update]. by split_and!; [..|right]. }
    assert (forall w2, disk w2 = disk w1 \/ disk w2 = MkFs (top (disk w1)) (quarantined (disk w1)) [] ->
      put_done temp batch now payloads d (disk w2)) as Hafter.
    { intros w2 [-> | ->]; [done|]. exists (disk w), es, m. rewrite D1. cbn [top quarantined past update]. by split_and!; [..|left]. }
    assert (forall w2 r2, ignore (let* _ := Open in let* _ := ignore Sync_top in Close) w1 = (r2, w2) ->
      put_done temp batch now payloads d (disk w2)) as Htail.
    { intros w2 r2 E2. apply Hafter. set (tail := ignore _) in E2.
      assert (stays (fun a b => b = a \/ b = MkFs (top a) (quarantined a) []) tail) as Hs.
      { assert (forall a b c : fs, b = a \/ b = MkFs (top a) (quarantined a) [] -> c = b \/ c = MkFs (top b) (quarantined b) [] ->
          c = a \/ c = MkFs (top a) (quarantined a) []) as Htr by (intros a b c [-> | ->] [-> | ->]; auto).
        apply stays_ignore. apply stays_bind; [done|apply stays_query; auto|intros _]. apply stays_bind; [done| |intros _; apply stays_query; auto].
        apply stays_ignore. apply stays_call; [auto| |auto]. intros a u' b [= _ <-]. auto. }
      specialize (Hs w1). rewrite E2 in Hs. exact Hs. }
    unfold bind in E. destruct (ignore _ w1) as [[u'|e|] w2] eqn:E2.
    + injection E as <- <-. split; [by eapply Htail|by right].
    + by apply ignore_no_error in E2.
    + injection E as <- <-. split; [by eapply Htail|by left].
  - left. injection E as <- <-. split; [|done]. eapply except_trans; [done|]. by eapply Hfail.
  - left. injection E as <- <-. split; [|done]. eapply except_trans; [done|]. by eapply Hfail.
Qed.

Lemma PutBatch_cases s now rnd payloads w r w' :
  PutBatch s now rnd payloads w = (r, w') ->
  let temp := temp_name rnd in
  let batch := batch_name now temp in
  (except temp (disk w) (disk w') /\ (forall files, r <> Ok files)) \/
  (top (disk w) !! temp = None /\ put_done temp batch now payloads (disk w) (disk w') /\ payloads <> [] /\
   (r = Crashed \/ r = Ok (imap (fun i _ => Sub batch (chunk_name i)) payloads))).
Proof.
  intros E temp batch. unfold PutBatch in E.
  assert (forall e, (Err e, w) = (r, w') -> except temp (disk w) (disk w') /\ (forall files, r <> Ok files)) as Hraise.
  { intros e [= <- <-]. split; [apply except_refl|done]. }
  destruct payloads as [|p0 ps]; [left; by eapply Hraise|]. set (payloads := p0 :: ps) in *.
  destruct (existsb _ payloads); [left; by eapply Hraise|]. unfold bind at 1 in E.
  pose proof (stays_stats now w) as D1. destruct (statsLocked now w) as [[st|e|] w1]; cbn [snd] in D1.
  2,3: left; injection E as <- <-; rewrite D1; split; [apply except_refl|done].
  cbv zeta in E. destruct (_ || _); [left; injection E as <- <-; rewrite D1; split; [apply except_refl|done]|].
  rewrite D1 in *. clear D1. unfold MkdirTemp in E. fold temp in E. unfold bind at 1 2 in E.
  destruct (change _ w1) as [[u|e|] w2] eqn:E1.
  2,3: left; injection E as <- <-; apply change_fails in E1; [|done]; rewrite E1; split; [apply except_refl|done].
  apply change_ok in E1 as (t & q & E1 & D2). destruct (top (disk w1) !! temp) eqn:Et; [done|]. injection E1 as <- <-. cbn [ret] in E.
  assert (except temp (disk w1) (disk w2)) as Hex.
  { rewrite D2. apply except_update. intros k Hk. by rewrite lookup_insert_ne. }
  assert (top (disk w2) !! temp = Some (NDir ∅ now)) as Ht by (rewrite D2; cbn; apply lookup_insert_eq).
  unfold bind at 1 in E. pose proof (stays_fill temp now payloads w2) as Hfill.
  destruct (fill_temp now temp payloads w2) as [[u'|e|] w3] eqn:E2; cbn [snd] in Hfill.
  2,3: left; injection E as <- <-; split; [by eapply except_trans|done].
  destruct (fill_ok _ _ _ _ _ _ _ E2 Ht) as (es & Ht3 & Hh).
  eapply finish_spec in E as [H|[H1 H2]]; [by left| |by eapply except_trans|exact Ht3|exact Hh]. right. by split_and!.
Qed.

(** ** Names *)

Lemma temp_not_batch rnd : is_batch (temp_name rnd) = false /\ is_legacy (temp_name rnd) = false.
Proof. done. Qed.

Lemma named_app prefix s suffix : named prefix suffix (prefix ++ s ++ suffix) = true.
Proof. unfold named, HasPrefix. rewrite starts_with_app, app_assoc, HasSuffix_app. done. Qed.

Lemma batch_is_batch now temp : is_batch (batch_name now temp) = true.
Proof.
  assert (batch_name now temp = str "batch-" ++ (pad 20 (FormatUint now) ++ str "-" ++ TrimSuffix temp (str ".tmp")) ++ str ".ready") as ->
    by (unfold batch_name; by rewrite <-!app_assoc).
  apply named_app.
Qed.

Lemma batch_not_temp now temp rnd : batch_name now temp <> temp_name rnd.
Proof. done. Qed.

Lemma chunk_is_chunk i : is_chunk (chunk_name i) = true.
Proof. apply named_app. Qed.

(** A batch name is no other name. *)
Lemma batch_only name : is_batch name = true -> is_legacy name = false /\ is_temp name = false.
Proof.
  unfold is_batch, named. intros [H _]%andb_true_iff. apply starts_with_true in H as [t ->]. done.
Qed.

(** ** Ready files of related states *)

Lemma ready_ext d d' :
  (forall k, is_batch k = true \/ is_legacy k = true -> top d' !! k = top d !! k) -> forall p f, ready d' p f <-> ready d p f.
Proof.
  intros H p f. unfold ready. destruct p as [name|dir name]; cbn [validReadyPath lookup_file].
  - split; intros [Hv Hl]; (split; [done|]); rewrite H in *; auto.
  - split; intros [[Hd Hc]%andb_true_iff Hl]; (split; [by rewrite Hd, Hc|]); rewrite H in *; auto.
Qed.

Lemma except_ready rnd d d' : except_nodes (temp_name rnd) (top d) (top d') -> forall p f, ready d' p f <-> ready d p f.
Proof.
  intros H. apply ready_ext. intros k Hk. apply H. intros ->. destruct (temp_not_batch rnd). destruct Hk; congruence.
Qed.

Lemma except_nodes_ok rnd t t' : except_nodes (temp_name rnd) t t' -> nodes_ok t -> nodes_ok t'.
Proof.
  intros H Ht k x Hk. destruct (decide (k = temp_name rnd)) as [-> |Hne]; [by destruct x|]. rewrite H in Hk by done. by apply Ht.
Qed.

(** The files of a batch. *)
Definition new_file (batch : bytes) (now : Z) (payloads : list bytes) (p : path) (f : file) : Prop :=
  exists i payload, payloads !! i = Some payload /\ p = Sub batch (chunk_name i) /\ f = chunk_file now payload.

Lemma holds_ok now payloads es m batch : payloads <> [] -> holds now 0 payloads true es -> node_ok batch (NDir es m).
Proof.
  intros Hne [Ha Hb] _. split.
  - intros ->. destruct payloads as [|p ps]; [done|]. specialize (Ha 0%nat p eq_refl). by rewrite lookup_empty in Ha.
  - intros k c Hk. destruct (Hb k c Hk) as (j & payload & _ & -> & ->). split; [apply chunk_is_chunk|]. by eexists.
Qed.

Lemma put_done_ready rnd now payloads d d' :
  let temp := temp_name rnd in let batch := batch_name now temp in
  nodes_ok (top d) -> payloads <> [] -> put_done temp batch now payloads d d' ->
  nodes_ok (top d') /\ top d !! batch = None /\
  forall p f, ready d' p f <-> ready d p f \/ new_file batch now payloads p f.
Proof.
  intros temp batch Hok Hne (d1 & es & m & (Hex & _ & _) & Ht & Hh & Hr & E & _).
  assert (batch <> temp) as Hbt by (intros Heq; pose proof (batch_is_batch now temp) as Hb; fold batch in Hb; rewrite Heq in Hb; done).
  assert (top d1 !! batch = top d !! batch) as Eb by by apply Hex.
  assert (top d !! batch = None) as Hnone.
  { rewrite <-Eb. destruct (top d1 !! batch) as [[f|es' m'|]|] eqn:Ex; try done. exfalso. symmetry in Eb.
    apply Hok in Eb as Hx. destruct (Hx (batch_is_batch now temp)) as [Hes _]. by apply bool_decide_eq_true in Hr. }
  split_and!; [|done|].
  - rewrite E. apply map_Forall_insert_2; [by eapply holds_ok|]. apply map_Forall_delete. by eapply except_nodes_ok.
  - destruct Hh as [Ha Hb]. intros p f. unfold ready. split.
    + intros [Hv Hl]. destruct p as [name|dir name]; cbn [lookup_file] in Hl; rewrite E in Hl.
      * left. split; [done|]. cbn [lookup_file validReadyPath] in *. rewrite lookup_insert_ne, lookup_delete_ne in Hl.
        -- by rewrite Hex in Hl by (intros ->; done).
        -- intros <-. done.
        -- intros <-. pose proof (batch_only _ (batch_is_batch now temp)) as [Hf _]. fold batch in Hf. congruence.
      * destruct (decide (dir = batch)) as [-> |Hdb].
        -- right. rewrite lookup_insert_eq in Hl. destruct (es !! name) as [[[f'|] l]|] eqn:En; try done. injection Hl as ->.
           destruct (Hb name _ En) as (j & payload & Hj & -> & [= -> ->]). by exists j, payload.
        -- left. split; [done|]. cbn [lookup_file]. rewrite lookup_insert_ne in Hl by done.
           cbn in Hv. apply andb_true_iff in Hv as [Hv _]. assert (dir <> temp) as Hdt by (intros ->; done).
           rewrite lookup_delete_ne in Hl by done. by rewrite Hex in Hl.
    + intros [[Hv Hl] | (i & payload & Hi & -> & ->)].
      * split; [done|]. destruct p as [name|dir name]; cbn [lookup_file validReadyPath] in *; rewrite E.
        -- assert (name <> batch) by (intros ->; by rewrite Hnone in Hl). assert (name <> temp) by (intros ->; done).
           rewrite lookup_insert_ne, lookup_delete_ne, Hex; done.
        -- assert (dir <> batch) by (intros ->; by rewrite Hnone in Hl). apply andb_true_iff in Hv as [Hv _].
           assert (dir <> temp) by (intros ->; done). rewrite lookup_insert_ne, lookup_delete_ne, Hex; done.
      * split; [cbn [validReadyPath]; unfold batch; by rewrite batch_is_batch, chunk_is_chunk|]. cbn [lookup_file]. rewrite E, lookup_insert_eq.
        specialize (Ha i payload Hi). cbn [Nat.add] in Ha. by rewrite Ha.
Qed.

(** ** Crashes *)

Lemma crash_ready t t' q q' l l' :
  nodes_ok t -> nodes_after t t' ->
  nodes_ok t' /\ forall p f, ready (MkFs t' q' l') p f <-> ready (MkFs t q l) p f.
Proof.
  intros Hok Ha.
  assert (forall k x', t' !! k = Some x' -> exists x, t !! k = Some x /\ node_after x x' /\ node_ok k x) as Hback.
  { intros k x' Hk. specialize (Ha k). rewrite Hk in Ha. destruct (t !! k) as [x|] eqn:E; [|done]. exists x. auto. }
  assert (forall k x, t !! k = Some x -> exists x', t' !! k = Some x' /\ node_after x x' /\ node_ok k x) as Hforth.
  { intros k x Hk. specialize (Ha k). rewrite Hk in Ha. destruct (t' !! k) as [x'|] eqn:E; [|done]. exists x'. auto. }
  split.
  - intros k x' Hk. destruct (Hback k x' Hk) as ([f|es m|] & E & Hx & Hn); destruct x' as [f'|es' m'|]; try done; cbn in *.
    + intros Hl. rewrite (Hn Hl) in Hx. by rewrite Hx, (Hn Hl).
    + intros Hb. destruct (Hn Hb) as [Hne Hall]. destruct Hx as [H1 H2]. split.
      * intros ->. apply Hne, map_empty. intros j. destruct (es !! j) as [[c b]|] eqn:Ej; [|done]. destruct (Hall j _ Ej) as (_ & f & [= -> ->] & _).
        destruct (H1 _ _ Ej) as (c' & Hc' & _). by rewrite lookup_empty in Hc'.
      * intros j [c' l0] Hj. destruct (H2 j c' l0 Hj) as (-> & c & b & Ej & Hc). destruct (Hall j _ Ej) as (Hch & f & [= -> ->] & Hs).
        split; [done|]. destruct c' as [f'|]; [|done]. cbn in Hc. rewrite Hs in Hc. subst. by exists f.
  - intros p f. unfold ready. split; intros [Hv Hl]; (split; [done|]); destruct p as [name|dir name]; cbn [lookup_file top validReadyPath] in *.
    + destruct (t' !! name) as [x'|] eqn:E; [|done]. destruct (Hback name x' E) as ([g| |] & -> & Hx & Hn); destruct x' as [f'| |]; try done.
      injection Hl as ->. cbn in Hx, Hn. rewrite (Hn Hv) in Hx. by subst.
    + apply andb_true_iff in Hv as [Hd _]. destruct (t' !! dir) as [x'|] eqn:E; [|done].
      destruct (Hback dir x' E) as ([|es m|] & -> & Hx & Hn); destruct x' as [|es' m'|]; try done.
      destruct (es' !! name) as [[c' b]|] eqn:Ec; [|done]. destruct Hx as [_ H2]. destruct (H2 _ _ _ Ec) as (-> & c & b' & Ej & Hc).
      rewrite Ej. destruct (Hn Hd) as [_ Hall]. destruct (Hall _ _ Ej) as (_ & g & [= -> ->] & Hs). destruct c' as [f'|]; [|done].
      cbn in Hc. rewrite Hs in Hc. by subst.
    + destruct (t !! name) as [x|] eqn:E; [|done]. destruct (Hforth name x E) as ([g| |] & -> & Hx & Hn); destruct x as [f'| |]; try done.
      injection Hl as ->. cbn in Hx, Hn. rewrite (Hn Hv) in Hx. by subst.
    + apply andb_true_iff in Hv as [Hd _]. destruct (t !! dir) as [x|] eqn:E; [|done].
      destruct (Hforth dir x E) as ([|es' m'|] & -> & Hx & Hn); destruct x as [|es m|]; try done.
      destruct (es !! name) as [[c b]|] eqn:Ec; [|done]. destruct (Hn Hd) as [_ Hall]. destruct (Hall _ _ Ec) as (_ & g & [= -> ->] & Hs).
      destruct Hx as [H1 _]. destruct (H1 _ _ Ec) as (c' & -> & Hc). destruct c' as [f'|]; [|done]. cbn in Hc. rewrite Hs in Hc. by subst.
Qed.

(** ** Startup *)

Lemma query_run {A} (f : fs -> option A) d a : f d = Some a -> query f (MkWorld d []) = (Ok a, MkWorld d []).
Proof. intros E. unfold query, call. cbn. by rewrite E. Qed.

Lemma change_run f d t q : f d = Some (t, q) -> change f (MkWorld d []) = (Ok tt, MkWorld (update t q d) []).
Proof. intros E. unfold change, call. cbn. by rewrite E. Qed.

(** The entries of a batch that is in order. *)
Lemma ReadSub_ok d name es m :
  top d !! name = Some (NDir es m) ->
  ReadSub name (MkWorld d []) = (Ok (omap (fun k => (fun x => (k, x.1)) <$> es !! k) (sorted_keys es)), MkWorld d []).
Proof. intros E. apply query_run. by rewrite E. Qed.

Lemma omap_keys_elem {A B : Type} (m : gmap bytes A) (f : A -> B) k x :
  (k, x) ∈ omap (fun k => (fun y => (k, f y)) <$> m !! k) (sorted_keys m) <-> exists y, m !! k = Some y /\ x = f y.
Proof.
  rewrite list_elem_of_omap. split.
  - intros (k' & _ & E). destruct (m !! k') as [y|] eqn:Ek; cbn in E; [|done]. injection E as -> <-. eauto.
  - intros (y & E & ->). exists k. split; [apply sorted_keys_elem; by eexists|]. by rewrite E.
Qed.

Lemma omap_keys_nil {A B : Type} (m : gmap bytes A) (f : A -> B) :
  omap (fun k => (fun y => (k, f y)) <$> m !! k) (sorted_keys m) = [] -> m = ∅.
Proof.
  intros E. apply map_empty. intros k. destruct (m !! k) as [y|] eqn:Ek; [|done]. exfalso.
  assert ((k, f y) ∈ omap (fun k => (fun y => (k, f y)) <$> m !! k) (sorted_keys m)) as Hin by (apply omap_keys_elem; eauto).
  rewrite E in Hin. by apply elem_of_nil in Hin.
Qed.

Lemma batch_valid name es m :
  node_ok name (NDir es m) -> is_batch name = true ->
  let chunks := omap (fun k => (fun x => (k, x.1)) <$> es !! k) (sorted_keys es) in
  chunks <> [] /\ forallb regular_chunk chunks = true.
Proof.
  intros Hn Hb chunks. destruct (Hn Hb) as [Hne Hall]. split.
  - intros E. by apply (omap_keys_nil es fst) in E.
  - apply forallb_forall. intros [k c] Hin. apply list_elem_of_In, (omap_keys_elem es fst) in Hin as (y & Ey & ->).
    destruct (Hall k y Ey) as (Hc & f & -> & _). done.
Qed.

Lemma recover_ok entries d :
  nodes_ok (top d) ->
  (forall name es m, (name, NDir es m) ∈ entries -> is_batch name = true -> top d !! name = Some (NDir es m)) ->
  exists d', recover entries (MkWorld d []) = (Ok tt, MkWorld d' []) /\ nodes_ok (top d') /\
    (forall k, is_temp k = false -> top d' !! k = top d !! k) /\
    (forall k, top d' !! k = top d !! k \/ top d' !! k = None) /\
    (forall k es m, (k, NDir es m) ∈ entries -> is_temp k = true -> top d' !! k = None).
Proof.
  revert d. induction entries as [|[name x] entries IH]; intros d Hok Hin.
  { exists d. split_and!; try done; [by auto|]. by intros k es m ?%elem_of_nil. }
  assert (forall d1, (forall k, is_temp k = false -> top d1 !! k = top d !! k) ->
    forall name es m, (name, NDir es m) ∈ entries -> is_batch name = true -> top d1 !! name = Some (NDir es m)) as Hrest.
  { intros d1 Hd k es m Hk Hb. rewrite Hd by by apply batch_only. apply Hin; [by right|done]. }
  assert ((forall k, is_temp k = false -> top d !! k = top d !! k)) as Hid by done.
  assert (forall d', (forall k es m, (k, NDir es m) ∈ entries -> is_temp k = true -> top d' !! k = None) ->
    (forall es m, x = NDir es m -> is_temp name = true -> top d' !! name = None) ->
    forall k es m, (k, NDir es m) ∈ (name, x) :: entries -> is_temp k = true -> top d' !! k = None) as Hcons.
  { intros d' H1 H2 k es m [[= -> <-] | Hk]%elem_of_cons Ht; [by eapply H2|by eapply H1]. }
  destruct x as [f|es m|].
  - destruct (IH d Hok (Hrest d Hid)) as (d' & E & H1 & H2 & H3 & H4). exists d'. cbn [recover]. split_and!; try done. by apply Hcons.
  - cbn [recover]. destruct (is_temp name) eqn:Et.
    + set (d1 := update (delete name (top d)) (quarantined d) d).
      destruct (IH d1) as (d' & E & H1 & H2 & H3 & H4).
      { apply map_Forall_delete, Hok. }
      { apply Hrest. intros k Hk. cbn. rewrite lookup_delete_ne; [done|]. intros ->. congruence. }
      exists d'. unfold bind. unfold RemoveAll_top. rewrite (change_run _ _ (delete name (top d)) (quarantined d)) by done. split_and!; try done.
      * intros k Hk. rewrite H2 by done. cbn. rewrite lookup_delete_ne; [done|]. intros ->. congruence.
      * intros k. destruct (H3 k) as [-> | ->]; [|by auto]. cbn. destruct (decide (k = name)) as [-> |Hk].
        -- right. apply lookup_delete_eq.
        -- left. by apply lookup_delete_ne.
      * apply Hcons; [done|]. intros _ _ _ _. destruct (H3 name) as [-> | ->]; [apply lookup_delete_eq|done].
    + destruct (IH d Hok (Hrest d Hid)) as (d' & E & H1 & H2 & H3 & H4). exists d'. destruct (is_batch name) eqn:Eb.
      * assert (top d !! name = Some (NDir es m)) as Ed by (apply Hin; [left|done]).
        destruct (batch_valid name es m (Hok _ _ Ed) Eb) as [Hne Hall]. unfold bind. rewrite (ReadSub_ok d name es m Ed).
        destruct (omap _ _) as [|c cs] eqn:Ec; [done|]. rewrite Hall. split_and!; try done. apply Hcons; [done|]. intros; congruence.
      * split_and!; try done. apply Hcons; [done|]. intros; congruence.
  - destruct (IH d Hok (Hrest d Hid)) as (d' & E & H1 & H2 & H3 & H4). exists d'. cbn [recover]. split_and!; try done. by apply Hcons.
Qed.

Lemma recoverStartup_ok d :
  nodes_ok (top d) ->
  exists d', recoverStartup (MkWorld d []) = (Ok tt, MkWorld d' []) /\ nodes_ok (top d') /\
    (forall p f, ready d' p f <-> ready d p f) /\ (forall k es m, is_temp k = true -> top d' !! k <> Some (NDir es m)).
Proof.
  intros Hok. unfold recoverStartup, ReadTop, bind. erewrite query_run by done.
  destruct (recover_ok (omap (fun k => (fun x => (k, x)) <$> top d !! k) (sorted_keys (top d))) d) as (d' & E & H1 & H2 & H3 & H4); [done| |].
  { intros name es m Hin _. apply (omap_keys_elem (top d) (fun x => x)) in Hin as (y & Ey & ->). done. }
  exists d'. split_and!; try done.
  - apply ready_ext. intros k [Hk | Hk]; apply H2; [by apply batch_only|]. unfold is_legacy, named in Hk.
    apply andb_true_iff in Hk as [Hk _]. apply starts_with_true in Hk as [s ->]. done.
  - intros k es m Hk E'. destruct (H3 k) as [Ek | Ek]; [|congruence]. rewrite Ek in E'.
    rewrite (H4 k es m) in Ek; [congruence| |done]. apply (omap_keys_elem (top d) (fun x => x)). eauto.
Qed.

(** ** A batch is there completely or not at all *)

(** The states a crash may fall back to, but for [temp]. *)
Lemma except_past rnd d d' t q :
  except (temp_name rnd) d d' -> (t, q) ∈ (top d', quarantined d') :: past d' ->
  (except_nodes (temp_name rnd) (top d) t) \/ (t, q) ∈ past d.
Proof.
  intros (H1 & H2 & new & H3 & H4) [[= -> ->] | Hin]%elem_of_cons; [by left|]. rewrite H3 in Hin.
  apply elem_of_app in Hin as [Hin | Hin]; [|by right]. left. rewrite Forall_forall in H4. by apply H4 in Hin as [? _].
Qed.

Lemma except_ok rnd d d' : except (temp_name rnd) d d' -> spool_ok d -> spool_ok d'.
Proof.
  intros Hex [H1 H2]. split.
  - eapply except_nodes_ok; [apply Hex|done].
  - apply Forall_forall. intros [t q] Hin. destruct (except_past rnd d d' t q Hex) as [He | Hp]; [by right| |].
    + by eapply except_nodes_ok.
    + rewrite Forall_forall in H2. by apply H2 in Hp.
Qed.

(** The files that are ready are those of [d], of a state [d] may fall back to, or those
    of [d] and the whole batch. *)
Definition all_or_nothing (d : fs) (batch : bytes) (now : Z) (payloads : list bytes) (d' : fs) : Prop :=
  (exists t q, (t, q) ∈ (top d, quarantined d) :: past d /\ forall p f, ready d' p f <-> ready (MkFs t q []) p f) \/
  (forall p f, ready d' p f <-> ready d p f \/ new_file batch now payloads p f).

Lemma except_all_or_nothing rnd d t q batch now payloads :
  except_nodes (temp_name rnd) (top d) t \/ (t, q) ∈ past d -> all_or_nothing d batch now payloads (MkFs t q []).
Proof.
  intros [H | H]; left.
  - exists (top d), (quarantined d). split; [left|]. by apply (except_ready rnd (MkFs (top d) (quarantined d) []) (MkFs t q [])).
  - exists t, q. by split; [right|].
Qed.

Lemma all_or_nothing_ready d batch now payloads d1 d2 :
  all_or_nothing d batch now payloads d1 -> (forall p f, ready d2 p f <-> ready d1 p f) -> all_or_nothing d batch now payloads d2.
Proof.
  intros [(t & q & Hin & H) | H] E; [left; exists t, q; split; [done|]|right]; intros p f; by rewrite E, H.
Qed.

(** The states after a crash. *)
Lemma put_states rnd now payloads d d' t q :
  let temp := temp_name rnd in let batch := batch_name now temp in
  spool_ok d -> (except temp d d' \/ payloads <> [] /\ put_done temp batch now payloads d d') ->
  (t, q) ∈ (top d', quarantined d') :: past d' ->
  nodes_ok t /\ all_or_nothing d batch now payloads (MkFs t q []).
Proof.
  intros temp batch Hok Hcase Hin.
  assert (forall d1, except temp d d1 -> (t, q) ∈ (top d1, quarantined d1) :: past d1 ->
    nodes_ok t /\ all_or_nothing d batch now payloads (MkFs t q [])) as Hexc.
  { intros d1 Hex Hd1. pose proof (except_past rnd d d1 t q Hex Hd1) as Hc. split; [|by eapply except_all_or_nothing].
    destruct Hok as [H1 H2]. destruct Hc as [Hc | Hc]; [by eapply except_nodes_ok|]. rewrite Forall_forall in H2. by apply H2 in Hc. }
  destruct Hcase as [Hex | [Hne Hdone]]; [by eapply Hexc|].
  destruct (put_done_ready rnd now payloads d d' (proj1 Hok) Hne Hdone) as (Hn & _ & Hready).
  apply elem_of_cons in Hin as [[= -> ->] | Hin].
  - split; [done|]. right. intros p f. etrans; [|apply Hready]. by apply ready_ext.
  - destruct Hdone as (d1 & es & m & Hex & _ & _ & _ & _ & _ & [Hp | Hp]); rewrite Hp in Hin; [by apply elem_of_nil in Hin|].
    by eapply Hexc.
Qed.

(** C12: Writing a batch to the spool is atomic, whatever system call fails and wherever
    the machine stops.  If it returns without an error, the payloads are in the queue,
    one file each, and nothing else changed; if it returns an error the queue is what
    it was; and after a crash at any point during or after it, the next start succeeds,
    leaves no temporary directory behind, and finds the whole batch or none of it:
    the files that were there before, or those of an earlier state that had not
    reached the disk. *)
Theorem PutBatch_atomic s now rnd payloads d fl r w' :
  spool_ok d -> PutBatch s now rnd payloads (MkWorld d fl) = (r, w') ->
  let batch := batch_name now (temp_name rnd) in
  match r with
  | Ok files => files = imap (fun i _ => Sub batch (chunk_name i)) payloads /\
                forall p f, ready (disk w') p f <-> ready d p f \/ new_file batch now payloads p f
  | Err _ => forall p f, ready (disk w') p f <-> ready d p f
  | Crashed => True
  end /\
  spool_ok (disk w') /\
  (forall d1, crash (disk w') d1 ->
     exists d2, recoverStartup (MkWorld d1 []) = (Ok tt, MkWorld d2 []) /\
       (forall k es m, is_temp k = true -> top d2 !! k <> Some (NDir es m)) /\
       all_or_nothing d batch now payloads d2).
Proof.
  intros Hok E batch. apply PutBatch_cases in E. cbn [disk] in E. set (temp := temp_name rnd) in *.
  assert (except temp d (disk w') \/ payloads <> [] /\ put_done temp batch now payloads d (disk w')) as Hcase by tauto.
  split_and!.
  - destruct E as [[Hex Hr] | (_ & Hdone & Hne & Hr)].
    + destruct r as [files|e|]; [by destruct (Hr files)| |done]. by apply (except_ready rnd), Hex.
    + destruct (put_done_ready rnd now payloads d (disk w') (proj1 Hok) Hne Hdone) as (_ & _ & Hready).
      destruct Hr as [-> | ->]; done.
  - split.
    + by apply (put_states rnd now payloads d (disk w') (top (disk w')) (quarantined (disk w')) Hok Hcase); left.
    + apply Forall_forall. intros [t q] Hin. by apply (put_states rnd now payloads d (disk w') t q Hok Hcase); right.
  - intros d1 (t & q & Hin & Ht & _ & _). destruct (put_states rnd now payloads d (disk w') t q Hok Hcase Hin) as [Hnt Hall].
    destruct (crash_ready t (top d1) q (quarantined d1) [] (past d1) Hnt Ht) as [Hn1 Hr1].
    destruct (recoverStartup_ok d1 Hn1) as (d2 & E2 & _ & Hr2 & Htemp). exists d2. split_and!; [done|done|].
    eapply all_or_nothing_ready; [exact Hall|]. intros p f. rewrite Hr2. destruct d1. apply Hr1.
Qed.

Definition demo_spool : CustomSpool := MkCustomSpool 1000 (24 * 3600) 100.
Definition empty_fs : fs := MkFs ∅ ∅ [].

Lemma empty_spool_ok : spool_ok empty_fs.
Proof. split; [apply map_Forall_empty|constructor]. Qed.

Lemma PutBatch_atomic_witness :
  let put := PutBatch demo_spool 7 (str "42") [[1; 2]; [3]] (MkWorld empty_fs [NoFault; NoFault; Fails 0]) in
  spool_ok (disk put.2) /\ put.1 = Err EIO.
Proof.
  intros put. split; [|vm_compute; reflexivity].
  destruct (PutBatch_atomic demo_spool 7 (str "42") [[1; 2]; [3]] empty_fs [NoFault; NoFault; Fails 0] put.1 put.2) as (_ & H & _).
  - apply empty_spool_ok.
  - apply surjective_pairing.
  - exact H.
Defined.

End StatsdSpoolSpec.
