(* ===== verification/StatsdSpoolQueue.v ===== *)
(** * DogStatsD: the spool as a queue

    The files of a spool in the order of their names; without faults a spool that only
    [PutBatch] wrote is a bounded queue of payloads, first in, first out. *)

From stdpp Require Import sorting.
From S2P Require Import Prelude GoLib GoText GoUtf8 StatsdSpool StatsdSpoolSpec.

Module StatsdSpoolQueue.
Import GoText GoUtf8 StatsdSpool StatsdSpoolSpec.

(** ** Names in order *)

Definition bytes_lt (s t : bytes) : Prop := bytes_leb t s = false.

Lemma lt_le s t : bytes_lt s t -> bytes_le s t.
Proof. unfold bytes_lt. intros H. destruct (bytes_le_total s t) as [|H']; [done|]. unfold bytes_le in H'. congruence. Qed.

Lemma lt_prefix p s t : bytes_lt s t -> bytes_lt (p ++ s) (p ++ t).
Proof. unfold bytes_lt. intros H. induction p as [|a p IH]; [done|]. cbn. rewrite Z.ltb_irrefl, Z.eqb_refl. done. Qed.

(** Digits of the same number compare as the numbers do. *)
Lemma lt_digits s t s' t' :
  length s = length t -> forallb is_digit s = true -> forallb is_digit t = true -> digits_value s < digits_value t ->
  bytes_lt (s ++ s') (t ++ t').
Proof.
  assert (forall l n, foldl (fun n c => n * 10 + (c - 48)) n l = n * 10 ^ Z.of_nat (length l) + digits_value l) as Hf.
  { unfold digits_value. intros l. induction l as [|a l IH]; intros n; cbn [foldl length]; [cbn; lia|].
    rewrite IH, (IH (0 * 10 + _)), Nat2Z.inj_succ, Z.pow_succ_r by lia. ring. }
  assert (forall l, forallb is_digit l = true -> 0 <= digits_value l < 10 ^ Z.of_nat (length l)) as Hb.
  { intros l. induction l as [|a l IH]; [cbn; lia|]. cbn [forallb]. intros [Ha Hl]%andb_true_iff. specialize (IH Hl).
    unfold digits_value. cbn [foldl length]. rewrite Hf, Nat2Z.inj_succ, Z.pow_succ_r by lia.
    unfold is_digit in Ha. apply andb_true_iff in Ha as [?%Z.leb_le ?%Z.leb_le]. nia. }
  revert t. induction s as [|a s IH]; intros [|b t] El; [cbn; lia|done..|]. injection El as El. cbn [forallb].
  intros [Ha Hs]%andb_true_iff [Hb' Ht]%andb_true_iff. unfold digits_value. cbn [foldl]. rewrite !Hf, El. intros Hlt.
  pose proof (Hb s Hs) as B1. pose proof (Hb t Ht) as B2. rewrite El in B1.
  unfold bytes_lt. cbn [app bytes_leb]. destruct (Z.ltb_spec b a); [cbn; nia|]. destruct (Z.eqb_spec b a) as [-> |]; [|done]. cbn.
  apply IH; try done. nia.
Qed.

Lemma format_digits_length fuel n acc k :
  0 <= n < 10 ^ Z.of_nat k -> (1 <= k)%nat -> (length (format_digits fuel n acc) <= k + length acc)%nat.
Proof.
  revert n acc k. induction fuel as [|fuel IH]; intros n acc k Hn Hk; cbn [format_digits]; [lia|].
  destruct (Z.eqb_spec (n / 10) 0) as [E|E]; [cbn; lia|].
  destruct k as [|k]; [lia|]. rewrite Nat2Z.inj_succ, Z.pow_succ_r in Hn by lia.
  destruct k as [|k]; [cbn in Hn; mod_lia|].
  etransitivity; [apply (IH (n / 10) _ (S k))|cbn; lia]; [|lia]. split; [mod_lia|]. apply Z.div_lt_upper_bound; lia.
Qed.

(** The text of a number in a field of [k] digits. *)
Lemma pad_value k n :
  0 <= n < 10 ^ 20 -> forallb is_digit (pad k (FormatUint n)) = true /\ digits_value (pad k (FormatUint n)) = n.
Proof.
  intros Hn. unfold FormatUint. destruct (format_digits_spec 20 n []) as (s & E & Hs & Hv & _); [done|].
  rewrite E, app_nil_r. unfold pad. split.
  - rewrite forallb_app, Hs. generalize (k - length s)%nat. intros j. by induction j.
  - rewrite <-Hv. unfold digits_value. rewrite foldl_app. f_equal. generalize (k - length s)%nat. intros j. by induction j.
Qed.

Lemma pad_length k n : 0 <= n < 10 ^ Z.of_nat k -> (1 <= k)%nat -> length (pad k (FormatUint n)) = k.
Proof.
  intros Hn Hk. pose proof (format_digits_length 20 n [] k Hn Hk) as Hl. unfold pad, FormatUint.
  rewrite length_app, repeat_length. cbn in Hl |- *. lia.
Qed.

Lemma lt_pad k n m s t :
  (1 <= k <= 20)%nat -> 0 <= n < m -> m < 10 ^ Z.of_nat k -> bytes_lt (pad k (FormatUint n) ++ s) (pad k (FormatUint m) ++ t).
Proof.
  intros Hk Hn Hm. assert (10 ^ Z.of_nat k <= 10 ^ 20) by (apply Z.pow_le_mono_r; lia).
  destruct (pad_value k n) as [D1 V1]; [lia|]. destruct (pad_value k m) as [D2 V2]; [lia|].
  apply lt_digits; [rewrite !pad_length by lia|..]; lia || done.
Qed.

Lemma chunk_lt i j : (i < j)%nat -> Z.of_nat j < 10 ^ 6 -> bytes_lt (chunk_name i) (chunk_name j).
Proof. intros Hij Hj. apply lt_prefix, lt_pad; lia. Qed.

Lemma chunk_inj i j : Z.of_nat i < 10 ^ 20 -> Z.of_nat j < 10 ^ 20 -> chunk_name i = chunk_name j -> i = j.
Proof.
  intros Hi Hj E. unfold chunk_name in E. apply app_inv_head, app_inv_tail in E.
  destruct (pad_value 6 (Z.of_nat i)) as [_ V1]; [lia|]. destruct (pad_value 6 (Z.of_nat j)) as [_ V2]; [lia|]. rewrite E in V1. lia.
Qed.

Lemma batch_lt t1 t2 temp1 temp2 s1 s2 :
  0 <= t1 < t2 -> t2 < 10 ^ 20 -> bytes_lt (batch_name t1 temp1 ++ s1) (batch_name t2 temp2 ++ s2).
Proof. intros Ht Hm. unfold batch_name. rewrite <-!app_assoc. apply lt_prefix, lt_pad; lia. Qed.

(** ** The files *)

Lemma bind_run {A B} (m : io A) (k : A -> io B) w a w' : m w = (Ok a, w') -> bind m k w = k a w'.
Proof. unfold bind. by intros ->. Qed.

Definition root (p : path) : bytes := match p with Top name => name | Sub dir _ => dir end.

Lemma omap_keys_fst {A B : Type} (m : gmap bytes A) (f : A -> B) :
  (omap (fun k => (fun y => (k, f y)) <$> m !! k) (sorted_keys m)).*1 = sorted_keys m.
Proof.
  assert (Forall (fun k => is_Some (m !! k)) (sorted_keys m)) as H by (apply Forall_forall; intros k; apply sorted_keys_elem).
  induction H as [|k l [y Hy] H IH]; [done|]. cbn. rewrite Hy. cbn. by rewrite IH.
Qed.

(** What an entry of the directory adds. *)
Lemma files_of_cons d name x :
  nodes_ok (top d) -> top d !! name = Some x ->
  exists own, NoDup own /\ (forall p, p ∈ own <-> root p = name /\ exists f, ready d p f) /\
    forall entries l, files_of entries (MkWorld d []) = (Ok l, MkWorld d []) ->
      files_of ((name, x) :: entries) (MkWorld d []) = (Ok (own ++ l), MkWorld d []).
Proof.
  intros Hok Hx.
  assert (forall b, is_batch name = false \/ (forall es m, x <> NDir es m) -> ~ exists f, ready d (Sub name b) f) as Hsub.
  { intros b Hn (f & Hv & Hf). cbn [validReadyPath lookup_file] in *. rewrite Hx in Hf. destruct x as [|es m|]; try done.
    destruct Hn as [Hn|Hn]; [by rewrite Hn in Hv|by apply (Hn es m)]. }
  assert (is_legacy name = false \/ (forall f, x <> NFile f) -> ~ exists f, ready d (Top name) f) as Htop.
  { intros Hn (f & Hv & Hf). cbn [validReadyPath lookup_file] in *. rewrite Hx in Hf. destruct x as [f'|es m|]; try done.
    destruct Hn as [Hn|Hn]; [by rewrite Hn in Hv|by apply (Hn f')]. }
  assert ((forall p, root p = name -> ~ exists f, ready d p f) -> NoDup ([] : list path) /\
    (forall p, p ∈ [] <-> root p = name /\ exists f, ready d p f)) as Hnil.
  { intros Hn. split; [constructor|]. intros p. split; [by intros ?%elem_of_nil|]. intros [Hr Hf]. by destruct (Hn p Hr). }
  destruct x as [f|es m|]; cbn [files_of].
  - destruct (is_legacy name) eqn:Eleg.
    + exists [Top name]. split_and!; [by apply NoDup_singleton| |intros entries l E; unfold bind; by rewrite E].
      intros p. rewrite list_elem_of_singleton. split.
      * intros ->. split; [done|]. exists f. unfold ready. cbn. by rewrite Eleg, Hx.
      * intros [Hr Hf]. destruct p as [n|n b]; cbn in Hr; subst; [done|]. destruct (Hsub b); eauto.
    + exists []. destruct Hnil as [H1 H2]; [|split_and!; [done..|]; intros entries l E; unfold bind; by rewrite E].
      intros [n|n b] Hr; cbn in Hr; subst; [apply Htop|apply Hsub]; eauto.
  - destruct (is_batch name) eqn:Eb.
    + destruct (batch_valid name es m (Hok _ _ Hx) Eb) as [Hne Hall]. pose proof (ReadSub_ok d name es m Hx) as Hread.
      set (chunks := omap _ _) in *. exists (map (fun c => Sub name c.1) chunks). split_and!.
      * rewrite <-(map_map fst (Sub name)). apply NoDup_fmap_2; [by intros ?? [=]|]. unfold chunks.
        change (map fst ?l) with (l.*1). rewrite omap_keys_fst. apply sorted_keys_NoDup.
      * intros p. rewrite list_elem_of_fmap. split.
        -- intros ([k c] & -> & Hc%omap_keys_elem). destruct Hc as ([c' b] & Hk & ->). split; [done|].
           destruct (Hok _ _ Hx) as [_ Hes]; [done|]. destruct (Hes _ _ Hk) as (Hch & f & [= -> ->] & _).
           exists f. unfold ready. cbn -[is_batch is_chunk]. by rewrite Eb, Hch, Hx, Hk.
        -- intros [Er Hr]. destruct p as [n|n b]; cbn in Er; subst; [destruct Htop; eauto|].
           destruct Hr as (f & Hv & Hf). cbn [lookup_file] in Hf. rewrite Hx in Hf.
           destruct (es !! b) as [[[f'|] l']|] eqn:Hb; try done. exists (b, CFile f'). split; [done|]. apply omap_keys_elem. eauto.
      * intros entries l E. unfold bind. rewrite Hread, Hall. destruct chunks; [done|]. by rewrite E.
    + exists []. destruct Hnil as [H1 H2]; [|by split_and!]. intros [n|n b] Hr; cbn in Hr; subst; [apply Htop|apply Hsub]; eauto.
  - exists []. destruct Hnil as [H1 H2]; [|by split_and!]. intros [n|n b] Hr; cbn in Hr; subst; [apply Htop|apply Hsub]; eauto.
Qed.

Lemma files_of_ok d entries :
  nodes_ok (top d) -> (forall e, e ∈ entries -> top d !! e.1 = Some e.2) -> NoDup entries.*1 ->
  exists l, files_of entries (MkWorld d []) = (Ok l, MkWorld d []) /\ NoDup l /\
    forall p, p ∈ l <-> root p ∈ entries.*1 /\ exists f, ready d p f.
Proof.
  intros Hok. induction entries as [|[name x] entries IH]; intros He Hnd.
  { exists []. split_and!; [done|constructor|]. intros p. split; [by intros ?%elem_of_nil|]. by intros [?%elem_of_nil _]. }
  apply NoDup_cons in Hnd as [Hni Hnd]. destruct IH as (l & El & Hl & Hin); [|done|].
  { intros e Hx. apply He. by right. }
  destruct (files_of_cons d name x Hok (He (name, x) ltac:(left))) as (own & Hown & Hp & Hrun).
  exists (own ++ l). split_and!; [by apply Hrun| |].
  - apply NoDup_app. split_and!; [done| |done]. intros p [Hr _]%Hp [Hr' _]%Hin. by rewrite Hr in Hr'.
  - intros p. rewrite elem_of_app, Hp, Hin, fmap_cons, elem_of_cons. cbn. tauto.
Qed.

#[global] Instance path_le_trans : Transitive path_le.
Proof. intros p q r. apply (bytes_le_trans _ _ _). Qed.
#[global] Instance path_le_total : Total path_le.
Proof. intros p q. apply (bytes_le_total _ _). Qed.

(** The queue: the ready files, each once, in the order of their names. *)
Definition queue (d : fs) (l : list path) : Prop :=
  StronglySorted path_le l /\ NoDup l /\ forall p, p ∈ l <-> exists f, ready d p f.

Lemma filesLocked_ok d :
  nodes_ok (top d) -> exists l, filesLocked (MkWorld d []) = (Ok l, MkWorld d []) /\ queue d l.
Proof.
  intros Hok. unfold filesLocked. set (entries := omap (fun k => (fun x => (k, x)) <$> top d !! k) (sorted_keys (top d))).
  destruct (files_of_ok d entries) as (l & El & Hnd & Hin); [done| | |].
  - intros [k x] (y & Hk & ->)%(omap_keys_elem (top d) (fun x => x)). done.
  - unfold entries. rewrite (omap_keys_fst (top d) (fun x => x)). apply sorted_keys_NoDup.
  - exists (sort_paths l). split; [|split_and!].
    + unfold ReadTop. erewrite bind_run by by apply query_run. erewrite bind_run by done. done.
    + apply (StronglySorted_merge_sort path_le).
    + unfold sort_paths. by rewrite merge_sort_Permutation.
    + intros p. unfold sort_paths. rewrite merge_sort_Permutation, Hin. unfold entries.
      rewrite (omap_keys_fst (top d) (fun x => x)), sorted_keys_elem. split; [tauto|]. intros [f Hf]. split; [|eauto].
      destruct Hf as [_ Hf]. destruct p as [n|n b]; cbn in Hf |- *; by destruct (top d !! n).
Qed.

(** What was read without a fault is what is read without faults. *)
Definition honest {A} (m : io A) : Prop :=
  forall w a w', m w = (Ok a, w') -> m (MkWorld (disk w) []) = (Ok a, MkWorld (disk w) []) /\ disk w' = disk w.

Lemma honest_ret {A} (a : A) : honest (ret a).
Proof. by intros w b w' [= <- <-]. Qed.
Lemma honest_raise {A} e : honest (raise e : io A).
Proof. by intros w b w'. Qed.
Lemma honest_bind {A B} (m : io A) (k : A -> io B) : honest m -> (forall a, honest (k a)) -> honest (bind m k).
Proof.
  intros Hm Hk w b w' E. apply bind_ok in E as (a & w1 & [E1 D1]%Hm & [E2 D2]%Hk). erewrite bind_run by done. rewrite D1 in *.
  split; congruence.
Qed.
Lemma honest_query {A} (f : fs -> option A) : honest (query f).
Proof. intros w a w' [E1 E2]%query_ok. split; [by apply query_run|done]. Qed.

Lemma honest_files : honest filesLocked.
Proof.
  apply honest_bind; [apply honest_query|intros entries]. apply honest_bind; [|intros; apply honest_ret].
  induction entries as [|[name []] entries IH]; cbn [files_of]; [apply honest_ret| | |done].
  - apply honest_bind; [done|intros; apply honest_ret].
  - destruct (is_batch name); [|done]. apply honest_bind; [apply honest_query|intros [|c chunks]]; [apply honest_raise|].
    destruct (forallb _ _); [|apply honest_raise]. apply honest_bind; [done|intros; apply honest_ret].
Qed.

(** ** Capacity *)

Definition size_of (d : fs) (p : path) : Z := match lookup_file d p with Some f => file_size f | None => 0 end.
Definition queue_bytes (d : fs) (l : list path) : Z := foldr (fun p n => size_of d p + n) 0 l.
Definition payload_bytes (payloads : list bytes) : Z := foldr (fun p n => Z.of_nat (length p) + n) 0 payloads.

Lemma queue_bytes_app d l k : queue_bytes d (l ++ k) = queue_bytes d l + queue_bytes d k.
Proof. unfold queue_bytes. induction l as [|p l IH]; cbn [app foldr]; lia. Qed.

Lemma queue_bytes_nonneg d l : 0 <= queue_bytes d l.
Proof.
  unfold queue_bytes. induction l as [|p l IH]; cbn [foldr]; [done|].
  assert (0 <= size_of d p) by (unfold size_of, file_size; case_match; lia). lia.
Qed.

Lemma queue_bytes_permutation d l k : l ≡ₚ k -> queue_bytes d l = queue_bytes d k.
Proof. unfold queue_bytes. induction 1; cbn [foldr]; lia. Qed.

Lemma stat_files_ok files total oldest w r w' :
  stat_files files total oldest w = (Ok r, w') -> r.1 = total + queue_bytes (disk w) files.
Proof.
  revert total oldest w. induction files as [|p files IH]; intros total oldest w E; [injection E as <- _; cbn; lia|].
  cbn [stat_files] in E. apply bind_ok in E as ([size mtime] & w1 & [Hf D]%query_ok & E). apply IH in E. rewrite E, D.
  destruct (lookup_file (disk w) p) as [f|] eqn:Hp; cbn in Hf; [|done].
  assert (size_of (disk w) p = file_size f) as Ef by (unfold size_of; by rewrite Hp). injection Hf as <- _. unfold queue_bytes. cbn [foldr]. rewrite Ef. unfold file_size. lia.
Qed.

Lemma statsLocked_ok now w st w' :
  statsLocked now w = (Ok st, w') ->
  exists l, filesLocked (MkWorld (disk w) []) = (Ok l, MkWorld (disk w) []) /\
    Files st = length l /\ StatBytes st = queue_bytes (disk w) l.
Proof.
  intros E. apply bind_ok in E as (l & w1 & [El D1]%honest_files & E). apply bind_ok in E as ([total oldest] & w2 & E2 & E).
  injection E as <- _. exists l. apply stat_files_ok in E2. rewrite D1 in E2. done.
Qed.

Lemma PutBatch_room s now rnd payloads w files w' :
  PutBatch s now rnd payloads w = (Ok files, w') ->
  existsb (fun p => bytes_eqb p []) payloads = false /\
  exists l, filesLocked (MkWorld (disk w) []) = (Ok l, MkWorld (disk w) []) /\
    payload_bytes payloads + queue_bytes (disk w) l <= maxBytes s.
Proof.
  unfold PutBatch. destruct payloads as [|p0 ps]; [done|]. set (payloads := p0 :: ps). destruct (existsb _ payloads); [done|].
  intros E. split; [done|]. apply bind_ok in E as (st & w1 & (l & El & _ & Hb)%statsLocked_ok & E). exists l. split; [done|].
  cbv zeta in E. change (foldr _ 0 payloads) with (payload_bytes payloads) in E.
  destruct (_ || _) eqn:Er; [done|]. apply orb_false_iff in Er as [E1 E2]. lia.
Qed.

Lemma payloads_count payloads :
  existsb (fun p => bytes_eqb p []) payloads = false -> Z.of_nat (length payloads) <= payload_bytes payloads.
Proof.
  unfold payload_bytes. induction payloads as [|p payloads IH]; cbn [existsb foldr length]; [done|].
  intros [Hp Hps]%orb_false_iff. specialize (IH Hps). destruct p; [done|]. cbn [length]. lia.
Qed.

(** The files of a batch, and what they hold. *)
Definition batch_files (batch : bytes) (payloads : list bytes) : list path := imap (fun i _ => Sub batch (chunk_name i)) payloads.

Lemma batch_files_elem batch payloads p :
  p ∈ batch_files batch payloads <-> exists i payload, payloads !! i = Some payload /\ p = Sub batch (chunk_name i).
Proof.
  unfold batch_files. rewrite list_elem_of_lookup. split.
  - intros [i Hi]. rewrite list_lookup_imap in Hi. destruct (payloads !! i) as [x|] eqn:Ex; [|done]. injection Hi as <-. eauto.
  - intros (i & x & Hi & ->). exists i. by rewrite list_lookup_imap, Hi.
Qed.

Lemma batch_files_NoDup batch payloads : Z.of_nat (length payloads) < 10 ^ 20 -> NoDup (batch_files batch payloads).
Proof.
  intros Hl. apply NoDup_alt. intros i j p. unfold batch_files. rewrite !list_lookup_imap.
  destruct (payloads !! i) eqn:Ei; [|done]. destruct (payloads !! j) eqn:Ej; [|done]. intros E1 E2.
  change (Some (Sub batch (chunk_name i)) = Some p) in E1. change (Some (Sub batch (chunk_name j)) = Some p) in E2.
  assert (chunk_name i = chunk_name j) by congruence.
  apply lookup_lt_Some in Ei, Ej. apply chunk_inj; [lia|lia|done].
Qed.

Lemma batch_files_bytes d batch now payloads :
  (forall i payload, payloads !! i = Some payload -> lookup_file d (Sub batch (chunk_name i)) = Some (chunk_file now payload)) ->
  queue_bytes d (batch_files batch payloads) = payload_bytes payloads.
Proof.
  unfold batch_files, queue_bytes, payload_bytes. intros H.
  assert (forall k ps, (forall i payload, ps !! i = Some payload -> lookup_file d (Sub batch (chunk_name (k + i))) = Some (chunk_file now payload)) ->
    foldr (fun p n => size_of d p + n) 0 (imap (fun i _ => Sub batch (chunk_name (k + i))) ps)
    = foldr (fun p n => Z.of_nat (length p) + n) 0 ps) as Hk; [|by apply (Hk 0%nat)].
  clear H. intros k ps. revert k. induction ps as [|p ps IH]; intros k H; [done|]. cbn [foldr imap].
  f_equal; [unfold size_of; by rewrite (H 0%nat p eq_refl)|].
  rewrite <-(IH (S k)).
  - f_equal. apply imap_ext. intros i x _. cbn. by rewrite Nat.add_succ_r.
  - intros i payload Hi. rewrite <-(H (S i) payload Hi). by rewrite Nat.add_succ_r.
Qed.

Lemma queue_bytes_ext d d' l : (forall p, p ∈ l -> lookup_file d' p = lookup_file d p) -> queue_bytes d' l = queue_bytes d l.
Proof.
  unfold queue_bytes. intros H. induction l as [|p l IH]; [done|]. cbn [foldr]. rewrite IH by (intros; apply H; by right).
  unfold size_of. by rewrite (H p) by left.
Qed.

Lemma queue_unique d l k : queue d l -> queue d k -> l ≡ₚ k.
Proof. intros (_ & H1 & E1) (_ & H2 & E2). apply NoDup_Permutation; [done..|]. intros p. by rewrite E1, E2. Qed.

(** What a batch adds. *)
Lemma PutBatch_adds s now rnd payloads d fl files w' l :
  let batch := batch_name now (temp_name rnd) in
  nodes_ok (top d) -> Z.of_nat (length payloads) < 10 ^ 20 -> queue d l ->
  PutBatch s now rnd payloads (MkWorld d fl) = (Ok files, w') ->
  files = batch_files batch payloads /\ nodes_ok (top (disk w')) /\
  (exists l', filesLocked (MkWorld (disk w') []) = (Ok l', MkWorld (disk w') []) /\ queue (disk w') l' /\ l' ≡ₚ l ++ files) /\
  (forall p, p ∈ l -> lookup_file (disk w') p = lookup_file d p) /\
  (forall i payload, payloads !! i = Some payload -> lookup_file (disk w') (Sub batch (chunk_name i)) = Some (chunk_file now payload)).
Proof.
  intros batch Hok Hlen Hq E. apply PutBatch_cases in E as [[_ H]|(_ & Hdone & Hp & [|[= Hf]])]; [by destruct (H files)|done|].
  fold batch in Hf, Hdone. fold (batch_files batch payloads) in Hf.
  destruct (put_done_ready rnd now payloads d (disk w') Hok Hp Hdone) as (Hok' & Hnew & Hready). fold batch in Hready.
  destruct (filesLocked_ok (disk w') Hok') as (l' & El' & Hq'). split_and!; [done|done| | |].
  - exists l'. split_and!; [done|done|]. destruct Hq as (_ & Hnd & Hin), Hq' as (_ & Hnd' & Hin'). apply NoDup_Permutation; [done| |].
    + apply NoDup_app. split_and!; [done| |subst; by apply batch_files_NoDup].
      intros p [f [_ Hpf]]%Hin Hpb. rewrite Hf in Hpb. apply batch_files_elem in Hpb as (i & x & _ & ->). cbn [lookup_file] in Hpf.
      by replace (top d !! batch) with (None : option node) in Hpf by done.
    + intros p. rewrite elem_of_app, Hin, Hin', Hf, batch_files_elem. setoid_rewrite Hready. unfold new_file. split.
      * intros (f & [H|(i & x & H1 & H2 & _)]); [left|right]; eauto.
      * intros [[f H]|(i & x & H1 & H2)]; [eauto|]. exists (chunk_file now x). right. eauto.
  - intros p [f Hpf]%(proj2 (proj2 Hq)). assert (ready (disk w') p f) as [_ ->] by (apply Hready; by left). by destruct Hpf as [_ ->].
  - intros i payload Hi. apply Hready. right. by exists i, payload.
Qed.

(** A batch that was put into the spool is there beside the files that were there, which
    are as they were, and the bytes of all of them are within the limit. *)
Theorem PutBatch_bounded s now rnd payloads d fl files w' :
  nodes_ok (top d) -> maxBytes s < 2 ^ 63 -> PutBatch s now rnd payloads (MkWorld d fl) = (Ok files, w') ->
  exists l l', filesLocked (MkWorld d []) = (Ok l, MkWorld d []) /\ filesLocked (MkWorld (disk w') []) = (Ok l', MkWorld (disk w') []) /\
    l' ≡ₚ l ++ files /\ (forall p, p ∈ l -> lookup_file (disk w') p = lookup_file d p) /\
    queue_bytes (disk w') l' = queue_bytes d l + payload_bytes payloads /\ queue_bytes (disk w') l' <= maxBytes s.
Proof.
  intros Hok Hmax E. destruct (PutBatch_room _ _ _ _ _ _ _ E) as (Hne & l & El & Hroom). cbn [disk] in El, Hroom.
  pose proof (payloads_count payloads Hne) as Hcount. pose proof (queue_bytes_nonneg d l) as Hpos.
  destruct (filesLocked_ok d Hok) as (l0 & El0 & Hq). rewrite El in El0. injection El0 as <-.
  destruct (PutBatch_adds s now rnd payloads d fl files w' l) as (Hf & _ & (l' & El' & _ & Hperm) & Hsame & Hnew); [done|lia|done|done|].
  exists l, l'. assert (queue_bytes (disk w') l' = queue_bytes d l + payload_bytes payloads) as Hb; [|split_and!; try done; lia].
  rewrite (queue_bytes_permutation _ _ _ Hperm), queue_bytes_app, (queue_bytes_ext d) by done. f_equal. rewrite Hf.
  by apply (batch_files_bytes _ _ now).
Qed.

Lemma PutBatch_bounded_witness :
  let put := PutBatch demo_spool 7 (str "42") [[1; 2]; [3]] (MkWorld empty_fs []) in
  exists files l l', put.1 = Ok files /\ l' ≡ₚ l ++ files /\ queue_bytes (disk put.2) l' <= 1000.
Proof.
  intros put. destruct (put.1) as [files|e|] eqn:E; [|vm_compute in E; discriminate..].
  destruct (PutBatch_bounded demo_spool 7 (str "42") [[1; 2]; [3]] empty_fs [] files put.2) as (l & l' & _ & _ & Hp & _ & _ & Hb).
  - apply map_Forall_empty.
  - done.
  - rewrite <-E. apply surjective_pairing.
  - exists files, l, l'. split_and!; [done|exact Hp|exact Hb].
Defined.

(** ** Removing *)

Definition same_files (d d' : fs) : Prop := forall p, lookup_file d' p = lookup_file d p.
Definition without (p : path) (d d' : fs) : Prop := forall p', lookup_file d' p' = if decide (p' = p) then None else lookup_file d p'.

Lemma without_ready p d d' : without p d d' -> forall p' f, ready d' p' f <-> ready d p' f /\ p' <> p.
Proof. intros H p' f. unfold ready. rewrite H. case_decide; [|tauto]. split; by intros [? ?]. Qed.

(** What a file is removed from. *)
Definition take_out (p : path) (t : gmap bytes node) : gmap bytes node :=
  match p with
  | Top name => delete name t
  | Sub dir name => match t !! dir with Some (NDir es m) => <[dir := NDir (delete name es) m]> t | _ => t end
  end.

Lemma take_out_without p d q l f : lookup_file d p = Some f -> without p d (MkFs (take_out p (top d)) q l).
Proof.
  intros Hf p'. destruct p as [n|n b]; cbn [lookup_file take_out] in *.
  - destruct (top d !! n) as [[f'| |]|] eqn:En; try done.
    destruct p' as [n'|n' b']; cbn [lookup_file top]; destruct (decide (n' = n)) as [-> |Hn].
    + rewrite lookup_delete_eq. by case_decide.
    + rewrite lookup_delete_ne by done. case_decide; [congruence|done].
    + rewrite lookup_delete_eq, En. by case_decide.
    + rewrite lookup_delete_ne by done. case_decide; [congruence|done].
  - destruct (top d !! n) as [[|es m|]|] eqn:En; try done.
    destruct p' as [n'|n' b']; cbn [lookup_file top]; destruct (decide (n' = n)) as [-> |Hn].
    + rewrite lookup_insert_eq, En. by case_decide.
    + rewrite lookup_insert_ne by done. by case_decide.
    + rewrite lookup_insert_eq, En. destruct (decide (b' = b)) as [-> |Hb].
      * rewrite lookup_delete_eq. by case_decide.
      * rewrite lookup_delete_ne by done. case_decide; [congruence|done].
    + rewrite lookup_insert_ne by done. case_decide; [congruence|done].
Qed.

Lemma Remove_file_effect p d t q :
  match p with
  | Top name => match top d !! name with
                | Some (NFile _) => Some (delete name (top d), quarantined d)
                | _ => None
                end
  | Sub dir name => match top d !! dir with
                    | Some (NDir es m) =>
                        match es !! name with
                        | Some (CFile _, _) => Some (<[dir := NDir (delete name es) m]> (top d), quarantined d)
                        | _ => None
                        end
                    | _ => None
                    end
  end = Some (t, q) <-> (exists f, lookup_file d p = Some f) /\ t = take_out p (top d) /\ q = quarantined d.
Proof.
  destruct p as [n|n b]; cbn [lookup_file take_out].
  - destruct (top d !! n) as [[f'| |]|] eqn:En; try (split; [done|by intros ([? ?] & _)]).
    split; [intros [= <- <-]; eauto|by intros (_ & -> & ->)].
  - destruct (top d !! n) as [[|es m|]|] eqn:En; try (split; [done|by intros ([? ?] & _)]).
    destruct (es !! b) as [[[f|] l]|]; try (split; [done|by intros ([? ?] & _)]).
    split; [intros [= <- <-]; eauto|by intros (_ & -> & ->)].
Qed.

Lemma remove_parent_same p : stays (fun d d' => same_files d d' /\ quarantined d' = quarantined d) (remove_parent p).
Proof.
  set (R := fun d d' => same_files d d' /\ quarantined d' = quarantined d).
  assert (forall d, R d d) as Hr by done.
  assert (forall a b c, R a b -> R b c -> R a c) as Ht.
  { intros a b c [H1 H2] [G1 G2]. split; [|congruence]. intros p'. by rewrite G1, H1. }
  destruct p as [n|n b]; cbn [remove_parent]; [by apply stays_ret|]. apply stays_ignore, stays_bind; [done|by apply stays_query|].
  intros [|e es]; [|by apply stays_ret]. apply stays_ignore, stays_change; [done|]. intros d t q E.
  destruct (top d !! n) as [[|es m|]|] eqn:En; try done. case_decide as Hes; [|done]. injection E as <- <-. split; [|done].
  intros p'. destruct p' as [n'|n' b']; cbn [lookup_file update top]; (destruct (decide (n' = n)) as [-> |Hn];
    [rewrite lookup_delete_eq, En; by subst|by rewrite lookup_delete_ne]).
Qed.

(** Whatever fails, [Remove] touches no other file, and a file that it could not remove is
    still there. *)
Lemma Remove_cases p w r w' :
  Remove p w = (r, w') ->
  quarantined (disk w') = quarantined (disk w) /\
  (same_files (disk w) (disk w') /\ r <> Ok tt \/ (exists f, ready (disk w) p f) /\ without p (disk w) (disk w')).
Proof.
  unfold Remove. destruct (validReadyPath p) eqn:Hv; cbn [negb]; [|intros [= <- <-]; split; [done|by left]].
  intros E. unfold bind in E. destruct (Remove_file p w) as [[u|e|] w1] eqn:E1.
  2,3: apply change_fails in E1; [|done]; injection E as <- <-; rewrite E1; (split; [done|by left]).
  apply change_ok in E1 as (t & q & ([f Hf] & -> & ->)%Remove_file_effect & D1).
  pose proof (remove_parent_same p w1) as [Hs Hq]. rewrite E in Hs, Hq. cbn [snd] in Hs, Hq. rewrite D1 in *. split; [done|]. right.
  split; [by exists f|]. intros p'. by rewrite Hs, (take_out_without p _ (quarantined (disk w)) ((top (disk w), quarantined (disk w)) :: past (disk w)) f Hf).
Qed.

End StatsdSpoolQueue.
