(* ===== verification/StatsdSpoolFifo.v ===== *)
(** * DogStatsD: the spool implements a bounded queue

    Without faults, a spool that [PutBatch] filled behaves as a bounded first-in-first-out
    queue of payloads. *)

From stdpp Require Import sorting.
From S2P Require Import Prelude GoLib GoText GoUtf8 StatsdSpool StatsdSpoolSpec StatsdSpoolQueue.

Module StatsdSpoolFifo.
Import GoText GoUtf8 StatsdSpool StatsdSpoolSpec StatsdSpoolQueue.

(** ** Runs without faults *)

Lemma on_error_run {A} (m : io A) h w a w' : m w = (Ok a, w') -> on_error m h w = (Ok a, w').
Proof. unfold on_error. by intros ->. Qed.

Lemma ignore_run {A} (m : io A) w a w' : m w = (Ok a, w') -> ignore m w = (Ok tt, w').
Proof. unfold ignore. by intros ->. Qed.

Lemma with_child_run d dir name f es m c :
  top d !! dir = Some (NDir es m) -> f (es !! name) = Some c ->
  with_child dir name f d = Some (<[dir := NDir (partial_alter (fun _ => c) name es) m]> (top d)).
Proof. intros Ed Ef. unfold with_child. by rewrite Ed, Ef. Qed.

Lemma write_chunk_run now temp i payload d es m :
  top d !! temp = Some (NDir es m) -> es !! chunk_name i = None ->
  exists d', write_chunk now temp i payload (MkWorld d []) = (Ok tt, MkWorld d' []).
Proof.
  intros Ht Hn. unfold write_chunk. cbv zeta. set (name := chunk_name i) in *.
  set (es1 := partial_alter (fun _ => Some (CFile (MkFile [] now false), false)) name es).
  set (es2 := partial_alter (fun _ => Some (CFile (MkFile payload now false), false)) name es1).
  eexists. erewrite bind_run.
  2: { apply change_run. erewrite with_child_run; [|exact Ht|by rewrite Hn]. cbn. reflexivity. }
  erewrite bind_run.
  2: { apply on_error_run. unfold Write_data, call. cbn [faults disk].
       rewrite (with_child_run _ _ _ _ es1 m (Some (CFile (MkFile payload now false), false))); [reflexivity|apply lookup_insert_eq|].
       unfold es1. by rewrite lookup_partial_alter_eq. }
  erewrite bind_run.
  2: { apply on_error_run, change_run. rewrite (with_child_run _ _ _ _ es2 m (Some (CFile (MkFile payload now true), false)));
       [reflexivity|apply lookup_insert_eq|]. unfold es2. by rewrite lookup_partial_alter_eq. }
  apply on_error_run. by apply query_run.
Qed.

Lemma write_chunks_run now temp i payloads d es m :
  top d !! temp = Some (NDir es m) -> (forall j, (j < length payloads)%nat -> es !! chunk_name (i + j) = None) ->
  Z.of_nat (i + length payloads) < 10 ^ 20 ->
  exists d', write_chunks now temp i payloads (MkWorld d []) = (Ok tt, MkWorld d' []).
Proof.
  revert i d es. induction payloads as [|p payloads IH]; intros i d es Ht Hn Hb; [by eexists|]. cbn [write_chunks length] in *.
  destruct (write_chunk_run now temp i p d es m Ht) as [d1 E1].
  { rewrite <-(Hn 0%nat) by lia. by rewrite Nat.add_0_r. }
  destruct (write_chunk_ok temp now i p (MkWorld d []) tt (MkWorld d1 []) es m E1 Ht) as [_ Ht1].
  destruct (IH (S i) d1 _ Ht1) as [d2 E2]; [|lia|exists d2; by rewrite (bind_run _ _ _ _ _ E1)].
  intros j Hj. rewrite lookup_insert_ne; [rewrite <-(Hn (S j)) by lia; f_equal; f_equal; lia|].
  intros E. apply chunk_inj in E; lia.
Qed.

Lemma fill_temp_run now temp payloads d m :
  top d !! temp = Some (NDir ∅ m) -> Z.of_nat (length payloads) < 10 ^ 20 ->
  exists d', fill_temp now temp payloads (MkWorld d []) = (Ok tt, MkWorld d' []).
Proof.
  intros Ht Hb. destruct (write_chunks_run now temp 0 payloads d ∅ m Ht) as [d1 E1]; [by intros; apply lookup_empty|lia|].
  destruct (write_chunks_ok temp now 0 payloads (MkWorld d []) tt (MkWorld d1 []) ∅ m E1 Ht) as (es & Hd1 & _).
  unfold fill_temp. cbv zeta. eexists. erewrite bind_run by by apply on_error_run. erewrite bind_run by by apply on_error_run, query_run.
  erewrite bind_run.
  2: { apply on_error_run, on_error_run, change_run. cbn [disk] in Hd1. rewrite Hd1. reflexivity. }
  eapply ignore_run. by apply query_run.
Qed.

Lemma stat_files_run d files total oldest :
  (forall p, p ∈ files -> exists f, lookup_file d p = Some f) ->
  exists r, stat_files files total oldest (MkWorld d []) = (Ok r, MkWorld d []).
Proof.
  revert total oldest. induction files as [|p files IH]; intros total oldest H; [by eexists|]. cbn [stat_files].
  destruct (H p) as [f Hf]; [by left|]. edestruct IH as [r Hr]; [intros; apply H; by right|]. exists r.
  erewrite bind_run by (apply query_run; by rewrite Hf). exact Hr.
Qed.

Lemma statsLocked_run now d :
  nodes_ok (top d) -> exists st l, statsLocked now (MkWorld d []) = (Ok st, MkWorld d []) /\ queue d l /\ StatBytes st = queue_bytes d l.
Proof.
  intros Hok. destruct (filesLocked_ok d Hok) as (l & El & Hq).
  destruct (stat_files_run d l 0 None) as [[total oldest] Er].
  { intros p [f [_ Hf]]%(proj2 (proj2 Hq)). by exists f. }
  assert (statsLocked now (MkWorld d []) = (Ok (MkSpoolStats (length l) total (match oldest with None => 0 | Some t => Z.max 0 (now - t) end)), MkWorld d [])) as E.
  { unfold statsLocked. rewrite (bind_run _ _ _ _ _ El). by rewrite (bind_run _ _ _ _ _ Er). }
  eexists _, l. split; [exact E|]. split; [done|]. apply statsLocked_ok in E as (l' & El' & _ & Hb). cbn [disk] in *.
  rewrite El in El'. by injection El' as <-.
Qed.

(** A batch is stored, or refused because there is no room. *)
Lemma PutBatch_run s now rnd payloads d :
  let temp := temp_name rnd in
  let batch := batch_name now temp in
  nodes_ok (top d) -> payloads <> [] -> existsb (fun p => bytes_eqb p []) payloads = false ->
  Z.of_nat (length payloads) < 10 ^ 20 -> top d !! temp = None -> top d !! batch = None ->
  exists l, queue d l /\
    if payload_bytes payloads + queue_bytes d l <=? maxBytes s
    then exists d', PutBatch s now rnd payloads (MkWorld d []) = (Ok (batch_files batch payloads), MkWorld d' [])
    else PutBatch s now rnd payloads (MkWorld d []) = (Err EFull, MkWorld d []).
Proof.
  intros temp batch Hok Hne Hfull Hlen Ht Hb. destruct (statsLocked_run now d Hok) as (st & l & Est & Hq & Hst).
  exists l. split; [done|]. unfold PutBatch. destruct payloads as [|p0 ps]; [done|]. set (payloads := p0 :: ps) in *.
  rewrite Hfull, (bind_run _ _ _ _ _ Est). cbv zeta. change (foldr _ 0 payloads) with (payload_bytes payloads). rewrite Hst.
  assert (0 <= queue_bytes d l) as Hpos by apply queue_bytes_nonneg.
  destruct (Z.leb_spec (payload_bytes payloads + queue_bytes d l) (maxBytes s)) as [Hr|Hr].
  2: { destruct (Z.gtb_spec (payload_bytes payloads) (maxBytes s)), (Z.gtb_spec (queue_bytes d l) (maxBytes s - payload_bytes payloads)); done || lia. }
  destruct (Z.gtb_spec (payload_bytes payloads) (maxBytes s)); [lia|].
  destruct (Z.gtb_spec (queue_bytes d l) (maxBytes s - payload_bytes payloads)); [lia|]. cbn [orb].
  set (d1 := update (<[temp := NDir ∅ now]> (top d)) (quarantined d) d).
  assert (MkdirTemp now rnd (MkWorld d []) = (Ok temp, MkWorld d1 [])) as E1.
  { unfold MkdirTemp. erewrite bind_run; [done|]. apply change_run. fold temp. by rewrite Ht. }
  rewrite (bind_run _ _ _ _ _ E1). destruct (fill_temp_run now temp payloads d1 now) as [d2 E2]; [apply lookup_insert_eq|done|].
  rewrite (bind_run _ _ _ _ _ E2). fold batch.
  destruct (fill_ok temp now payloads (MkWorld d1 []) tt (MkWorld d2 []) now E2) as (es & Ht2 & _); [apply lookup_insert_eq|].
  pose proof (stays_fill temp now payloads (MkWorld d1 [])) as (Hex & _). rewrite E2 in Hex. cbn [disk snd] in *.
  assert (batch <> temp) as Hbt by apply batch_not_temp.
  eexists. erewrite bind_run.
  2: { apply on_error_run, change_run. rewrite Ht2, (Hex batch Hbt). unfold d1. cbn [top update].
       rewrite lookup_insert_ne by done. rewrite Hb. reflexivity. }
  erewrite bind_run; [done|]. eapply ignore_run. erewrite bind_run by by apply query_run. erewrite bind_run; [by apply query_run|].
  by eapply ignore_run.
Qed.

(** ** Removing *)

(** A node of the directory, or it without one of its files. *)
Definition shrunk (t : gmap bytes node) (k : bytes) (x : node) : Prop :=
  t !! k = Some x \/ exists es m b, t !! k = Some (NDir es m) /\ x = NDir (delete b es) m.

Lemma take_out_ok t n b es m :
  nodes_ok t -> t !! n = Some (NDir es m) -> is_batch n = true -> delete b es <> ∅ -> nodes_ok (<[n := NDir (delete b es) m]> t).
Proof.
  intros Hok Hn Hb Hne. apply map_Forall_insert_2; [|done]. intros _. split; [done|]. intros k c [_ Hk]%lookup_delete_Some.
  destruct (Hok _ _ Hn) as [_ H]; [done|]. by apply H.
Qed.

Lemma Remove_run d p f :
  nodes_ok (top d) -> ready d p f ->
  exists d', Remove p (MkWorld d []) = (Ok tt, MkWorld d' []) /\ nodes_ok (top d') /\ map_Forall (shrunk (top d)) (top d').
Proof.
  intros Hok [Hv Hf]. unfold Remove. rewrite Hv. cbn [negb].
  assert (Remove_file p (MkWorld d []) = (Ok tt, MkWorld (update (take_out p (top d)) (quarantined d) d) [])) as E1.
  { apply change_run, Remove_file_effect. by split; [exists f|]. }
  rewrite (bind_run _ _ _ _ _ E1). destruct p as [n|n b]; cbn [remove_parent take_out].
  - eexists. split_and!; [done|by apply map_Forall_delete|]. intros k x Hk. cbn [top update] in Hk. apply lookup_delete_Some in Hk as [_ Hk]. by left.
  - cbn [lookup_file] in Hf. destruct (top d !! n) as [[|es m|]|] eqn:En; try done.
    cbn -[is_batch is_chunk] in Hv. apply andb_true_iff in Hv as [Hb Hc].
    set (d1 := update _ _ _). assert (top d1 !! n = Some (NDir (delete b es) m)) as Hn1 by apply lookup_insert_eq.
    assert (map_Forall (shrunk (top d)) (top d1)) as Hsh.
    { apply map_Forall_insert_2; [right; eauto|]. by left. }
    destruct (decide (delete b es = ∅)) as [Hemp|Hemp].
    + exists (update (delete n (top d1)) (quarantined d1) d1). split_and!.
      * eapply ignore_run. rewrite (bind_run _ _ _ _ _ (ReadSub_ok _ _ _ _ Hn1)). rewrite Hemp. eapply ignore_run, change_run. rewrite Hn1.
        by rewrite decide_True.
      * cbn [top update d1]. rewrite delete_insert_eq. by apply map_Forall_delete.
      * by apply map_Forall_delete.
    + exists d1. split_and!; [|by apply take_out_ok|done]. eapply ignore_run. rewrite (bind_run _ _ _ _ _ (ReadSub_ok _ _ _ _ Hn1)).
      set (l := omap _ _). destruct l eqn:El; [|done]. by apply omap_keys_nil in El.
Qed.

(** ** The queue of payloads *)

Definition path_lt (p q : path) : Prop := bytes_lt (path_string p) (path_string q).

(** A batch that [PutBatch] put before [now], or what is left of it. *)
Definition written (now : Z) (name : bytes) (x : node) : Prop :=
  exists t rnd es m, name = batch_name t (temp_name rnd) /\ 0 <= t < now /\ x = NDir es m /\
    forall k c, es !! k = Some c -> exists i, k = chunk_name i /\ Z.of_nat i < 10 ^ 6.

Definition content (d : fs) (p : path) (s : bytes) : Prop := exists f, lookup_file d p = Some f /\ data f = s.

(** The payloads of a spool, the oldest first. *)
Definition payloads_of (now : Z) (d : fs) (q : list bytes) : Prop :=
  nodes_ok (top d) /\ map_Forall (written now) (top d) /\
  exists l, queue d l /\ StronglySorted path_lt l /\ Forall2 (content d) l q.

(** The files in the order of their names, none of which is the same. *)
Lemma queue_sorted d l k : queue d l -> StronglySorted path_lt k -> l ≡ₚ k -> l = k.
Proof.
  intros (Hs & _ & _) Hk Hp. assert (StronglySorted path_le k) as Hk'.
  { clear Hp. induction Hk as [|p k Hk IH Hall]; constructor; [done|]. eapply Forall_impl; [exact Hall|]. intros q. apply lt_le. }
  apply (StronglySorted_unique_strong path_le); [|done..]. intros p q Hp' Hq' H1 H2. rewrite Hp in Hp'.
  clear -Hk Hp' Hq' H1 H2. induction Hk as [|r k Hk IH Hall]; [by apply elem_of_nil in Hp'|]. rewrite Forall_forall in Hall.
  apply elem_of_cons in Hp' as [-> |Hp'], Hq' as [-> |Hq']; [done| | |by apply IH].
  - specialize (Hall _ Hq'). unfold path_lt, bytes_lt in Hall. unfold path_le, path_leb in *. congruence.
  - specialize (Hall _ Hp'). unfold path_lt, bytes_lt in Hall. unfold path_le, path_leb in *. congruence.
Qed.

Lemma payloads_bytes d l q : Forall2 (content d) l q -> queue_bytes d l = payload_bytes q.
Proof.
  unfold queue_bytes, payload_bytes. induction 1 as [|p s l q (f & Hf & <-) H IH]; [done|]. cbn [foldr]. rewrite IH. f_equal.
  unfold size_of. by rewrite Hf.
Qed.

Lemma batch_files_sorted batch payloads :
  Z.of_nat (length payloads) < 10 ^ 6 -> StronglySorted path_lt (batch_files batch payloads).
Proof.
  unfold batch_files. intros Hl.
  assert (forall k ps, Z.of_nat (k + length ps) < 10 ^ 6 -> StronglySorted path_lt (imap (fun i _ => Sub batch (chunk_name (k + i))) (ps : list bytes))) as H;
    [|by apply (H 0%nat)].
  clear Hl. intros k ps. revert k. induction ps as [|p ps IH]; intros k Hk; cbn [imap length] in *; [constructor|].
  specialize (IH (S k) ltac:(lia)). constructor.
  - erewrite imap_ext; [exact IH|]. intros i x _. cbn. by rewrite Nat.add_succ_r.
  - apply Forall_forall. intros q [i Hi]%list_elem_of_lookup. rewrite list_lookup_imap in Hi.
    destruct (ps !! i) as [x|] eqn:Ex; [|done]. apply lookup_lt_Some in Ex.
    change (Some (Sub batch (chunk_name (k + S i))) = Some q) in Hi. assert (q = Sub batch (chunk_name (k + S i))) as -> by congruence. unfold path_lt. cbn [path_string].
    apply lt_prefix, (lt_prefix [47]), chunk_lt; lia.
Qed.

Definition batch_valid_input (payloads : list bytes) : Prop :=
  payloads <> [] /\ existsb (fun p => bytes_eqb p []) payloads = false /\ Z.of_nat (length payloads) < 10 ^ 6.

(** Batches that are put later come later. *)
Lemma put_sorted now rnd d l payloads :
  map_Forall (written now) (top d) -> queue d l -> StronglySorted path_lt l -> Z.of_nat (length payloads) < 10 ^ 6 -> now < 10 ^ 20 ->
  StronglySorted path_lt (l ++ batch_files (batch_name now (temp_name rnd)) payloads).
Proof.
  intros Hw (_ & _ & Hin) Hs Hl Hn. pose proof (batch_files_sorted (batch_name now (temp_name rnd)) payloads Hl) as Hb.
  assert (forall p, p ∈ l -> forall q, q ∈ batch_files (batch_name now (temp_name rnd)) payloads -> path_lt p q) as Hlt.
  { intros p [f [Hv Hf]]%Hin q (i & x & _ & ->)%batch_files_elem.
    assert (exists x, top d !! root p = Some x /\ exists b, p = Sub (root p) b) as (x' & Hx & b & Hp).
    { destruct p as [n|n b]; cbn [lookup_file] in Hf; cbn [root]; destruct (top d !! n) as [y|] eqn:Ey; try done; [|eauto].
      destruct (Hw _ _ Ey) as (t & rnd' & es & m & _ & _ & -> & _). done. }
    destruct (Hw _ _ Hx) as (t & rnd' & es & m & Hroot & Ht & _). rewrite Hp, Hroot. unfold path_lt. cbn [path_string].
    by apply batch_lt. }
  clear Hin. induction Hs as [|p l Hs IH Hall]; [done|]. cbn [app]. constructor.
  - apply IH. intros p' Hp'. apply Hlt. by right.
  - apply Forall_app. split; [done|]. apply Forall_forall. intros q. apply Hlt. by left.
Qed.

Lemma written_later now now' k x : written now k x -> now <= now' -> written now' k x.
Proof. intros (t & rnd & es & m & Hk & Ht & H) Hn. exists t, rnd, es, m. split_and!; [done|lia|lia|apply H..]. Qed.

Lemma put_written s now rnd payloads d fl files w' :
  map_Forall (written now) (top d) -> 0 <= now -> Z.of_nat (length payloads) < 10 ^ 6 ->
  PutBatch s now rnd payloads (MkWorld d fl) = (Ok files, w') -> map_Forall (written (now + 1)) (top (disk w')).
Proof.
  intros Hw Hn Hl E. apply PutBatch_cases in E as [[_ H]|(_ & Hdone & _)]; [by destruct (H files)|].
  destruct Hdone as (d1 & es & m & (Hex & _) & _ & [_ Hes] & _ & -> & _). apply map_Forall_insert_2.
  - exists now, rnd, es, m. split_and!; [done|lia|lia|done|]. intros k c Hk. destruct (Hes k c Hk) as (j & x & Hj & -> & _).
    exists j. split; [done|]. apply lookup_lt_Some in Hj. lia.
  - intros k x [Hk Hx]%lookup_delete_Some. rewrite (Hex k) in Hx by done. apply (written_later now); [|lia]. by apply Hw.
Qed.

(** A name that only a later batch has. *)
Lemma written_fresh (now now' : Z) (temp : bytes) (t : gmap bytes node) : map_Forall (written now) t -> now <= now' -> now' < 10 ^ 20 -> t !! batch_name now' temp = None.
Proof.
  intros Hw Hn Hm. destruct (t !! _) as [x|] eqn:Ex; [|done]. destruct (Hw _ _ Ex) as (t' & rnd' & _ & _ & Heq & Ht & _).
  pose proof (batch_lt t' now' (temp_name rnd') temp [] [] ltac:(lia) Hm) as Hlt. rewrite <-Heq in Hlt.
  apply lt_le in Hlt as Hle. unfold bytes_lt in Hlt. unfold bytes_le in Hle. congruence.
Qed.

Lemma written_temp (now : Z) (rnd : bytes) (t : gmap bytes node) : map_Forall (written now) t -> t !! temp_name rnd = None.
Proof.
  intros Hw. destruct (t !! _) as [x|] eqn:Ex; [|done]. destruct (Hw _ _ Ex) as (t' & rnd' & _ & _ & Heq & _).
  by destruct (batch_not_temp t' (temp_name rnd') rnd).
Qed.

Lemma batch_files_content d batch now payloads :
  (forall i payload, payloads !! i = Some payload -> lookup_file d (Sub batch (chunk_name i)) = Some (chunk_file now payload)) ->
  Forall2 (content d) (batch_files batch payloads) payloads.
Proof.
  intros H. apply Forall2_same_length_lookup_2; [apply length_imap|]. intros i p s Hi Hs. unfold batch_files in Hi.
  rewrite list_lookup_imap, Hs in Hi. change (Some (Sub batch (chunk_name i)) = Some p) in Hi.
  assert (p = Sub batch (chunk_name i)) as -> by congruence. exists (chunk_file now s). split; [by apply H|done].
Qed.

Lemma content_same d d' l q :
  Forall2 (content d) l q -> (forall p, p ∈ l -> lookup_file d' p = lookup_file d p) -> Forall2 (content d') l q.
Proof.
  induction 1 as [|p x l q (f & Hf & Hx) H IH]; intros Hs; constructor.
  - exists f. rewrite Hs by left. done.
  - apply IH. intros p' Hp. apply Hs. by right.
Qed.

Lemma put_payloads s now0 now rnd payloads d q :
  payloads_of now0 d q -> batch_valid_input payloads -> 0 <= now0 <= now -> now < 10 ^ 20 ->
  if payload_bytes payloads + payload_bytes q <=? maxBytes s
  then exists files d', PutBatch s now rnd payloads (MkWorld d []) = (Ok files, MkWorld d' []) /\ payloads_of (now + 1) d' (q ++ payloads)
  else PutBatch s now rnd payloads (MkWorld d []) = (Err EFull, MkWorld d []).
Proof.
  intros (Hok & Hw0 & l & Hq & Hs & Hc) (Hne & Hfull & Hlen) Hn Hm.
  assert (map_Forall (written now) (top d)) as Hw by (intros k x Hk; apply (written_later now0); [by apply Hw0|lia]).
  destruct (PutBatch_run s now rnd payloads d) as (l0 & Hq0 & Hrun);
    [done|done|done|lia|by eapply written_temp|by eapply written_fresh|].
  assert (l0 = l) as ->.
  { apply (queue_sorted d); [done|done|by eapply queue_unique]. }
  rewrite (payloads_bytes _ _ _ Hc) in Hrun. destruct (_ <=? _); [|done]. destruct Hrun as [d' E]. eexists _, d'. split; [exact E|].
  destruct (PutBatch_adds s now rnd payloads d [] _ _ l Hok ltac:(lia) Hq E) as (_ & Hok' & (l' & _ & Hq' & Hp) & Hsame & Hnew).
  cbn [disk] in *. assert (l' = l ++ batch_files (batch_name now (temp_name rnd)) payloads) as ->.
  { apply (queue_sorted d'); [done| |done]. by eapply put_sorted. }
  split_and!; [done| |].
  - by apply (put_written s now rnd payloads d [] _ _ Hw ltac:(lia) Hlen E).
  - eexists. split_and!; [done|by eapply put_sorted|]. apply Forall2_app; [|by apply (batch_files_content _ _ now)].
    by eapply content_same.
Qed.

(** ** Refinement *)

(** What the pipeline does with the oldest file: it is read and, once delivered, removed. *)
Definition Pop : io (option bytes) :=
  let* p := Oldest in
  match p with
  | None => ret None
  | Some p => let* s := ReadFile p in let* _ := Remove p in ret (Some s)
  end.

(** The oldest file holds the first payload; without it the rest is left. *)
Lemma oldest_payload now d s q :
  payloads_of now d (s :: q) ->
  exists p f d', Oldest (MkWorld d []) = (Ok (Some p), MkWorld d []) /\ ready d p f /\ data f = s /\
    Remove p (MkWorld d []) = (Ok tt, MkWorld d' []) /\ payloads_of now d' q /\ without p d d'.
Proof.
  intros (Hok & Hw & l & Hq & Hs & Hc). destruct (filesLocked_ok d Hok) as (l0 & El & Hq0).
  assert (l0 = l) as -> by (apply (queue_sorted d); [done|done|by eapply queue_unique]).
  inversion Hc as [|p s' l' q' (f & Hf & Hx) Hc']; subst. destruct Hq as (Hsle & Hnd & Hin).
  assert (exists f, ready d p f) as [f' Hready] by (apply Hin; left).
  assert (f' = f) as -> by (destruct Hready as [_ H]; congruence).
  destruct (Remove_run d p f Hok Hready) as (d' & E & Hok' & Hsh). exists p, f, d'.
  destruct (Remove_cases p _ _ _ E) as [_ [[_ Hno]|[_ Hwo]]]; [done|]. cbn [disk] in Hwo.
  split_and!; [unfold Oldest; by rewrite (bind_run _ _ _ _ _ El)|done|done|done| |done].
  apply NoDup_cons in Hnd as [Hni Hnd]. apply StronglySorted_inv in Hs as [Hs _]. apply StronglySorted_inv in Hsle as [Hsle _].
  split_and!; [done| |exists l'; split_and!; [split_and!; [done|done|]|done|]].
  - intros k x Hk. destruct (Hsh k x Hk) as [H|(es & m & b & H & ->)]; [by apply Hw|].
    destruct (Hw _ _ H) as (t & rnd & es' & m' & -> & Ht & [= <- <-] & Hch). exists t, rnd, (delete b es), m. split_and!; [done|lia|lia|done|].
    intros k c [_ Hkc]%lookup_delete_Some. by eapply Hch.
  - intros p'. setoid_rewrite (without_ready p d d' Hwo). split.
    + intros Hp'. assert (p' ∈ p :: l') as [g Hg]%Hin by by right. exists g. split; [done|]. by intros ->.
    + intros (g & Hg & Hne). assert (p' ∈ p :: l') as Hp' by (apply Hin; by exists g). by apply elem_of_cons in Hp' as [|].
  - eapply content_same; [exact Hc'|]. intros p' Hp'. rewrite Hwo, decide_False; [done|]. by intros ->.
Qed.

Lemma no_payload now d : payloads_of now d [] -> Oldest (MkWorld d []) = (Ok None, MkWorld d []).
Proof.
  intros (Hok & _ & l & Hq & Hs & Hc). apply Forall2_nil_inv_r in Hc as ->. destruct (filesLocked_ok d Hok) as (l & El & Hq0).
  unfold Oldest. rewrite (bind_run _ _ _ _ _ El). pose proof (queue_unique _ _ _ Hq Hq0) as Hp. symmetry in Hp. by apply Permutation_nil_r in Hp as ->.
Qed.

Lemma pop_payloads now d q :
  payloads_of now d q ->
  match q with
  | [] => Pop (MkWorld d []) = (Ok None, MkWorld d [])
  | s :: q => exists d', Pop (MkWorld d []) = (Ok (Some s), MkWorld d' []) /\ payloads_of now d' q
  end.
Proof.
  intros Hp. unfold Pop. destruct q as [|s q]; [by rewrite (bind_run _ _ _ _ _ (no_payload now d Hp))|].
  destruct (oldest_payload now d s q Hp) as (p & f & d' & Eo & [_ Hf] & Hx & Er & Hp' & _). exists d'. split; [|done].
  rewrite (bind_run _ _ _ _ _ Eo). erewrite bind_run by (apply query_run; rewrite Hf; cbn; by rewrite Hx). by rewrite (bind_run _ _ _ _ _ Er).
Qed.

Inductive op := OPut (now : Z) (rnd : bytes) (payloads : list bytes) | OPop.
Inductive answer := Stored | Full | Popped (s : option bytes) | Failed.

Definition spool_op (s : CustomSpool) (o : op) (w : world) : answer * world :=
  match o with
  | OPut now rnd payloads => match PutBatch s now rnd payloads w with
                             | (Ok _, w) => (Stored, w)
                             | (Err EFull, w) => (Full, w)
                             | (_, w) => (Failed, w)
                             end
  | OPop => match Pop w with
            | (Ok s, w) => (Popped s, w)
            | (_, w) => (Failed, w)
            end
  end.

Fixpoint spool_run (s : CustomSpool) (ops : list op) (w : world) : list answer * world :=
  match ops with
  | [] => ([], w)
  | o :: ops => let (a, w) := spool_op s o w in let (l, w) := spool_run s ops w in (a :: l, w)
  end.

(** A queue of payloads of at most [max] bytes. *)
Definition queue_op (max : Z) (o : op) (q : list bytes) : answer * list bytes :=
  match o with
  | OPut _ _ payloads => if payload_bytes (payloads ++ q) <=? max then (Stored, q ++ payloads) else (Full, q)
  | OPop => match q with
            | [] => (Popped None, [])
            | s :: q => (Popped (Some s), q)
            end
  end.

Fixpoint queue_run (max : Z) (ops : list op) (q : list bytes) : list answer * list bytes :=
  match ops with
  | [] => ([], q)
  | o :: ops => let (a, q) := queue_op max o q in let (l, q) := queue_run max ops q in (a :: l, q)
  end.

(** Each batch at a later time than the one before. *)
Fixpoint ops_ok (now : Z) (ops : list op) : Prop :=
  match ops with
  | [] => True
  | OPut now' _ payloads :: ops => now <= now' < 10 ^ 20 /\ batch_valid_input payloads /\ ops_ok (now' + 1) ops
  | OPop :: ops => ops_ok now ops
  end.

Lemma payload_bytes_app p q : payload_bytes (p ++ q) = payload_bytes p + payload_bytes q.
Proof. unfold payload_bytes. induction p as [|x p IH]; cbn [app foldr]; lia. Qed.

(** C13: Without faults, and with a clock that moves on between the batches, the spool is a
    queue of payloads: batches are stored or refused as a queue with that limit would, and
    the payloads come out in the order in which they were put, each once, none left behind. *)
Theorem spool_fifo s ops now d q :
  payloads_of now d q -> 0 <= now -> ops_ok now ops ->
  exists now' d', spool_run s ops (MkWorld d []) = ((queue_run (maxBytes s) ops q).1, MkWorld d' []) /\
    payloads_of now' d' (queue_run (maxBytes s) ops q).2.
Proof.
  revert now d q. induction ops as [|o ops IH]; intros now d q Hrep Hn Hok; [by exists now, d|].
  cbn [spool_run queue_run]. destruct o as [now' rnd payloads|]; cbn [spool_op queue_op ops_ok] in *.
  - destruct Hok as (Ht & Hin & Hok). pose proof (put_payloads s now now' rnd payloads d q Hrep Hin ltac:(lia) ltac:(lia)) as Hput.
    rewrite payload_bytes_app. destruct (_ <=? _).
    + destruct Hput as (files & d1 & -> & Hrep1). destruct (IH _ _ _ Hrep1 ltac:(lia) Hok) as (n & d2 & E & Hr2). rewrite E.
      destruct (queue_run _ ops _). by exists n, d2.
    + rewrite Hput. assert (payloads_of (now' + 1) d q) as Hrep1.
      { destruct Hrep as (H1 & H2 & H3). split_and!; [done| |done]. intros k x Hk. apply (written_later now); [by apply H2|lia]. }
      destruct (IH _ _ _ Hrep1 ltac:(lia) Hok) as (n & d2 & E & Hr2). rewrite E. destruct (queue_run _ ops _). by exists n, d2.
  - pose proof (pop_payloads now d q Hrep) as Hpop. destruct q as [|x q].
    + rewrite Hpop. destruct (IH _ _ _ Hrep Hn Hok) as (n & d2 & E & Hr2). rewrite E. destruct (queue_run _ ops _). by exists n, d2.
    + destruct Hpop as (d1 & -> & Hrep1). destruct (IH _ _ _ Hrep1 Hn Hok) as (n & d2 & E & Hr2). rewrite E.
      destruct (queue_run _ ops _). by exists n, d2.
Qed.

Lemma empty_payloads : payloads_of 0 empty_fs [].
Proof.
  split_and!; [apply map_Forall_empty..|]. exists []. split_and!; [|constructor..]. split_and!; [constructor..|].
  intros p. split; [by intros ?%elem_of_nil|]. intros [f [_ Hf]]. destruct p; cbn in Hf; by rewrite lookup_empty in Hf.
Qed.

Definition demo_run : list op :=
  [OPut 5 (str "9") [[1; 2]; [3]]; OPut 6 (str "1") [[4]]; OPut 7 (str "2") [repeat 0 2000]; OPop; OPop; OPop; OPop].

Lemma spool_fifo_witness :
  (spool_run demo_spool demo_run (MkWorld empty_fs [])).1
  = [Stored; Stored; Full; Popped (Some [1; 2]); Popped (Some [3]); Popped (Some [4]); Popped None].
Proof.
  destruct (spool_fifo demo_spool demo_run 0 empty_fs []) as (n & d & E & _).
  - apply empty_payloads.
  - lia.
  - repeat split; done || lia.
  - rewrite E. vm_compute. reflexivity.
Defined.

End StatsdSpoolFifo.
