(* ===== verification/StatsdSpoolRetention.v ===== *)
(** * DogStatsD: retention of the spool

    [Maintain] removes the files that are too old and the oldest of what is quarantined,
    until that is within its quota; [Quarantine] takes one file out of the queue. *)

From stdpp Require Import sorting.
From S2P Require Import Prelude GoLib GoText GoUtf8 StatsdSpool StatsdSpoolSpec StatsdSpoolQueue StatsdSpoolFifo.

Module StatsdSpoolRetention.
Import GoText GoUtf8 StatsdSpool StatsdSpoolSpec StatsdSpoolQueue StatsdSpoolFifo.

(** ** Quarantine *)

Definition quarantine_name (p : path) (reason : bytes) : bytes :=
  TrimSuffix (base_name p) (str ".ready") ++ str "." ++ safeReason reason ++ str ".failed".

(** Whatever fails, [Quarantine] touches no other file of the queue, and the file is in one
    of the two places. *)
Lemma Quarantine_cases p reason w r w' :
  Quarantine p reason w = (r, w') ->
  same_files (disk w) (disk w') /\ quarantined (disk w') = quarantined (disk w) /\ (forall n, r <> Ok n) \/
  exists f, ready (disk w) p f /\ without p (disk w) (disk w') /\
    quarantined (disk w') = <[quarantine_name p reason := NFile f]> (quarantined (disk w)).
Proof.
  unfold Quarantine. destruct (validReadyPath p) eqn:Hv; cbn [negb]; [|intros [= <- <-]; by left].
  cbv zeta. fold (quarantine_name p reason). set (to := quarantine_name p reason). intros E. unfold bind at 1 in E.
  destruct (Rename_file_quarantine p to w) as [[u|e|] w1] eqn:E1.
  2,3: apply change_fails in E1; [|done]; injection E as <- <-; rewrite E1; by left.
  apply change_ok in E1 as (t & q & E1 & D1). destruct (lookup_file (disk w) p) as [f|] eqn:Hf; cbn in E1; [|done].
  assert (t = take_out p (top (disk w)) /\ q = <[to := NFile f]> (quarantined (disk w))) as [-> ->].
  { destruct (quarantined (disk w) !! to) as [[]|]; try done; by injection E1 as <- <-. }
  right. exists f. split; [done|]. pose proof (remove_parent_same p w1) as [Hs Hq]. rewrite D1 in Hs, Hq.
  assert (disk w' = disk (remove_parent p w1).2) as ->.
  { unfold bind in E. destruct (remove_parent p w1) as [[[]|e|] w2]; by injection E as <- <-. }
  split; [|done]. intros p'. rewrite Hs. by apply (take_out_without p (disk w) _ _ f).
Qed.

(** The name that a quarantined file gets does not depend on its batch: two files with the
    same number, quarantined for the same reason, leave one file, that of the second; what
    the first held is nowhere any more. *)
Theorem quarantine_overwrites b1 b2 c reason w n1 w1 n2 w2 :
  b1 <> b2 -> Quarantine (Sub b1 c) reason w = (Ok n1, w1) -> Quarantine (Sub b2 c) reason w1 = (Ok n2, w2) ->
  n2 = n1 /\ exists f2, lookup_file (disk w) (Sub b2 c) = Some f2 /\ quarantined (disk w2) = <[n1 := NFile f2]> (quarantined (disk w)) /\
    lookup_file (disk w2) (Sub b1 c) = None.
Proof.
  intros Hne E1 E2.
  assert (n1 = quarantine_name (Sub b1 c) reason /\ n2 = quarantine_name (Sub b2 c) reason) as [-> ->].
  { unfold Quarantine in E1, E2. destruct (validReadyPath (Sub b1 c)), (validReadyPath (Sub b2 c)); try done. cbn [negb] in E1, E2.
    cbv zeta in E1, E2. fold (quarantine_name (Sub b1 c) reason) in E1. fold (quarantine_name (Sub b2 c) reason) in E2.
    apply bind_ok in E1 as (? & ? & _ & E1), E2 as (? & ? & _ & E2). apply bind_ok in E1 as (? & ? & _ & E1), E2 as (? & ? & _ & E2).
    by injection E1 as <- _; injection E2 as <- _. }
  split; [done|]. apply Quarantine_cases in E1 as [(_ & _ & H)|(f1 & [_ Hf1] & Hw1 & Hq1)]; [by destruct (H (quarantine_name (Sub b1 c) reason))|].
  apply Quarantine_cases in E2 as [(_ & _ & H)|(f2 & [_ Hf2] & Hw2 & Hq2)]; [by destruct (H (quarantine_name (Sub b2 c) reason))|].
  exists f2. split_and!.
  - rewrite Hw1 in Hf2. by case_decide.
  - rewrite Hq2, Hq1. change (quarantine_name (Sub b2 c) reason) with (quarantine_name (Sub b1 c) reason). apply insert_insert_eq.
  - rewrite Hw2. case_decide as Hd; [congruence|]. rewrite Hw1. by case_decide.
Qed.

Definition two_batches : world :=
  (spool_run demo_spool [OPut 5 (str "1") [[1]]; OPut 6 (str "2") [[2]]] (MkWorld empty_fs [])).2.

Lemma quarantine_overwrites_witness :
  let q1 := Quarantine (Sub (batch_name 5 (temp_name (str "1"))) (chunk_name 0)) (str "http-400") two_batches in
  let q2 := Quarantine (Sub (batch_name 6 (temp_name (str "2"))) (chunk_name 0)) (str "http-400") q1.2 in
  q1.1 = Ok (str "chunk-000000.http-400.failed") /\ q2.1 = Ok (str "chunk-000000.http-400.failed").
Proof.
  intros q1 q2. assert (q1.1 = Ok (str "chunk-000000.http-400.failed")) as H1 by (vm_compute; reflexivity).
  destruct (q2.1) as [n2| |] eqn:H2; [|vm_compute in H2; discriminate..]. split; [done|].
  destruct (quarantine_overwrites (batch_name 5 (temp_name (str "1"))) (batch_name 6 (temp_name (str "2"))) (chunk_name 0) (str "http-400")
    two_batches (str "chunk-000000.http-400.failed") q1.2 n2 q2.2) as [-> _].
  - vm_compute. discriminate.
  - rewrite <-H1. apply surjective_pairing.
  - rewrite <-H2. apply surjective_pairing.
  - reflexivity.
Defined.

(** ** Files that are too old *)

Definition too_old (cutoff : Z) (f : file) : bool := modified f <? cutoff.

Lemma expire_run cutoff files d n :
  nodes_ok (top d) -> NoDup files -> (forall p, p ∈ files -> exists f, ready d p f) ->
  exists n' d', expire cutoff files n (MkWorld d []) = (Ok n', MkWorld d' []) /\ nodes_ok (top d') /\ quarantined d' = quarantined d /\
    forall p f, ready d' p f <-> ready d p f /\ (p ∈ files -> too_old cutoff f = false).
Proof.
  revert d n. induction files as [|p files IH]; intros d n Hok Hnd Hin.
  { exists n, d. split_and!; [done..|]. intros p f. split; [|tauto]. intros H. split; [done|]. by intros ?%elem_of_nil. }
  apply NoDup_cons in Hnd as [Hni Hnd]. destruct (Hin p) as [f Hf]; [by left|]. cbn [expire].
  assert (Stat p (MkWorld d []) = (Ok (Z.of_nat (length (data f)), modified f), MkWorld d [])) as E1.
  { apply query_run. destruct Hf as [_ Hf]. by rewrite Hf. }
  rewrite (bind_run _ _ _ _ _ E1). destruct (modified f <? cutoff) eqn:Eold.
  - destruct (Remove_run d p f Hok Hf) as (d1 & E2 & Hok1 & _). destruct (Remove_cases p _ _ _ E2) as [Hq1 [[_ Hno]|[_ Hwo]]]; [done|].
    cbn [disk] in *. pose proof (without_ready p d d1 Hwo) as Hr1. destruct (IH d1 (S n)) as (n' & d' & E3 & Hok' & Hq' & Hr'); [done|done| |].
    { intros p' Hp'. destruct (Hin p') as [g Hg]; [by right|]. exists g. apply Hr1. split; [done|]. by intros ->. }
    exists n', d'. split_and!; [|done|congruence|].
    + unfold Remove in E2. rewrite (proj1 Hf) in E2. cbn [negb] in E2. unfold bind in E2 |- *.
      destruct (Remove_file p (MkWorld d [])) as [[u|e|] w1]; [|done..]. destruct (remove_parent p w1) as [[u'|e|] w2]; [|done..].
      by injection E2 as _ ->.
    + intros p' g. rewrite Hr', Hr1, elem_of_cons. split.
      * intros [[Hg Hne] Hg']. split; [done|]. intros [|]; [done|by apply Hg'].
      * intros [Hg Hg']. split_and!; [done| |tauto]. intros ->. destruct Hf as [_ Hf], Hg as [_ Hg]. rewrite Hf in Hg. injection Hg as <-.
        specialize (Hg' (or_introl eq_refl)). unfold too_old in Hg'. congruence.
  - destruct (IH d n) as (n' & d' & E3 & Hok' & Hq' & Hr'); [done|done|intros; apply Hin; by right|]. exists n', d'. split_and!; [done..|].
    intros p' g. rewrite Hr', elem_of_cons. split; [|tauto]. intros [Hg Hg']. split; [done|]. intros [-> |]; [|by apply Hg'].
    destruct Hf as [_ Hf], Hg as [_ Hg]. rewrite Hf in Hg. by injection Hg as <-.
Qed.

(** ** The quota of the quarantine *)

Definition tree_bytes (q : gmap bytes node) : Z := msum (fun _ x => treeSize x) q.
Definition items_bytes (items : list item) : Z := foldr (fun (e : item) n => e.1.2 + n) 0 items.

Lemma treeSize_nonneg x : 0 <= treeSize x.
Proof.
  destruct x as [f|es m|]; cbn; unfold file_size; [lia| |done]. apply msum_nonneg. intros k [[f|] l] _; cbn; unfold file_size; lia.
Qed.

Definition measured (q : gmap bytes node) (e : item) : Prop :=
  exists x, q !! e.1.1 = Some x /\ e.1.2 = treeSize x /\ e.2 = node_time x.

Lemma measure_run d entries :
  (forall e, e ∈ entries -> quarantined d !! e.1 = Some e.2) ->
  exists items, measure entries (MkWorld d []) = (Ok items, MkWorld d []) /\
    items.*1.*1 = entries.*1 /\ Forall (measured (quarantined d)) items.
Proof.
  induction entries as [|[name x] entries IH]; intros He; [by exists []|].
  destruct IH as (items & E & Hn & Hm); [intros; apply He; by right|]. pose proof (He (name, x) ltac:(left)) as Hx. cbn [fst snd] in Hx.
  exists ((name, treeSize x, node_time x) :: items). split_and!.
  - cbn [measure]. erewrite bind_run by (apply query_run; rewrite Hx; reflexivity).
    erewrite bind_run by (apply query_run; rewrite Hx; reflexivity). by rewrite (bind_run _ _ _ _ _ E).
  - cbn. by rewrite Hn.
  - constructor; [by exists x|done].
Qed.

(** Entries are removed in the order in which they come, until the rest is within the quota. *)
Lemma trim_run max items d n :
  NoDup items.*1.*1 -> Forall (measured (quarantined d)) items ->
  exists d' removed rest, trim max items (tree_bytes (quarantined d)) n (MkWorld d []) = (Ok (n + length removed)%nat, MkWorld d' []) /\
    items = removed ++ rest /\ top d' = top d /\
    (forall k, quarantined d' !! k = if decide (k ∈ removed.*1.*1) then None else quarantined d !! k) /\
    (tree_bytes (quarantined d') <= max \/ rest = []) /\
    (forall init e, removed = init ++ [e] -> max < tree_bytes (quarantined d') + e.1.2).
Proof.
  revert d n. induction items as [|[[name size] time] items IH]; intros d n Hnd Hm.
  { exists d, [], []. cbn. rewrite Nat.add_0_r. split_and!; [done|done|done| |by right|by intros [|? ?] ? ?]. intros k. rewrite decide_False; [done|apply not_elem_of_nil]. }
  cbn [trim]. destruct (Z.leb_spec (tree_bytes (quarantined d)) max) as [Hle|Hgt].
  { exists d, [], ((name, size, time) :: items). cbn. rewrite Nat.add_0_r. split_and!; [done|done|done| |by left|by intros [|? ?] ? ?].
    intros k. rewrite decide_False; [done|apply not_elem_of_nil]. }
  apply NoDup_cons in Hnd as [Hni Hnd]. apply Forall_cons in Hm as [(x & Hx & Hsz & _) Hm]. cbn [fst snd] in Hx, Hsz. subst size.
  set (d1 := update (top d) (delete name (quarantined d)) d).
  assert (tree_bytes (quarantined d1) = tree_bytes (quarantined d) - treeSize x) as Ht1.
  { unfold d1, tree_bytes. cbn [quarantined update]. rewrite (msum_delete _ (quarantined d) name x) by done. lia. }
  destruct (IH d1 (S n)) as (d' & removed & rest & E & -> & Htop & Hq & Hmax & Hlast); [done| |].
  { apply Forall_forall. intros e He. destruct (proj1 (Forall_forall _ _) Hm e He) as (y & Hy & Hy'). exists y. split; [|done].
    unfold d1. cbn [quarantined update]. rewrite lookup_delete_ne; [done|]. intros ->. apply Hni.
    apply list_elem_of_fmap. exists e.1. split; [done|]. apply list_elem_of_fmap. by exists e. }
  exists d', ((name, treeSize x, time) :: removed), rest. split_and!; [|done|done| |done|].
  - rewrite (bind_run _ _ _ tt (MkWorld d1 [])) by by apply change_run. rewrite <-Ht1, E. do 2 f_equal. cbn [length]. lia.
  - intros k. rewrite Hq. cbn [fmap list_fmap fst]. unfold d1. cbn [quarantined update]. destruct (decide (k = name)) as [-> |Hk].
    + rewrite lookup_delete_eq. destruct (decide (name ∈ name :: removed.*1.*1)) as [_|[]]; [|by left]. by destruct (decide _).
    + rewrite lookup_delete_ne by done.
      destruct (decide (k ∈ removed.*1.*1)) as [H|H], (decide (k ∈ name :: removed.*1.*1)) as [H'|H']; try done; [destruct H'; by right|].
      by apply elem_of_cons in H' as [|].
  - intros [|e0 init] e He.
    + injection He as <- ->. cbn [fst snd]. assert (quarantined d' = quarantined d1) as -> by (apply map_eq; intros k; rewrite Hq, decide_False; [done|apply not_elem_of_nil]).
      lia.
    + injection He as <- He. by eapply Hlast.
Qed.

Lemma measured_bytes q items :
  NoDup items.*1.*1 -> Forall (measured q) items -> (forall k, is_Some (q !! k) <-> k ∈ items.*1.*1) -> items_bytes items = tree_bytes q.
Proof.
  unfold items_bytes, tree_bytes. revert q. induction items as [|[[name size] time] items IH]; intros q Hnd Hm Hk.
  - replace q with (∅ : gmap bytes node); [done|]. symmetry. apply map_empty. intros k. apply eq_None_not_Some. rewrite Hk. apply not_elem_of_nil.
  - apply NoDup_cons in Hnd as [Hni Hnd]. apply Forall_cons in Hm as [(x & Hx & Hsz & _) Hm]. cbn [fst snd foldr] in *. subst size.
    rewrite (msum_delete _ q name x) by done. f_equal. apply IH; [done| |].
    + apply Forall_forall. intros e He. destruct (proj1 (Forall_forall _ _) Hm e He) as (y & Hy & Hy'). exists y. split; [|done].
      rewrite lookup_delete_ne; [done|]. intros ->. apply Hni. apply list_elem_of_fmap. exists e.1. split; [done|].
      apply list_elem_of_fmap. by exists e.
    + intros k. destruct (decide (k = name)) as [-> |Hne].
      * rewrite lookup_delete_eq. split; [by intros [? ?]|done].
      * rewrite lookup_delete_ne, Hk by done. cbn [fmap list_fmap fst]. rewrite elem_of_cons. tauto.
Qed.

#[global] Instance older_total : Total older.
Proof. intros a b. unfold older. lia. Qed.
#[global] Instance older_trans : Transitive older.
Proof. intros a b c. unfold older. lia. Qed.

(** What [Maintain] measures and sorts. *)
Lemma quarantine_items d :
  exists entries items, ReadQuarantine (MkWorld d []) = (Ok entries, MkWorld d []) /\ measure entries (MkWorld d []) = (Ok items, MkWorld d []) /\
    NoDup items.*1.*1 /\ Forall (measured (quarantined d)) items /\ (forall k, is_Some (quarantined d !! k) <-> k ∈ items.*1.*1).
Proof.
  eexists. edestruct measure_run as (items & Em & Hn & Hm); [|exists items; split_and!; [by apply query_run|exact Em|..]].
  - intros [k x] (y & Hk & ->)%(omap_keys_elem (quarantined d) (fun x => x)). done.
  - rewrite Hn, (omap_keys_fst (quarantined d) (fun x => x)). apply sorted_keys_NoDup.
  - done.
  - intros k. by rewrite Hn, (omap_keys_fst (quarantined d) (fun x => x)), sorted_keys_elem.
Qed.

(** Just enough of the oldest entries are gone. *)
Definition trimmed (max : Z) (q q' : gmap bytes node) : Prop :=
  tree_bytes q' <= max /\
  (forall k x, q' !! k = Some x -> q !! k = Some x) /\
  (forall k x k' x', q' !! k = Some x -> q !! k' = Some x' -> q' !! k' = None -> node_time x' <= node_time x) /\
  (forall k x, q !! k = Some x -> q' !! k = None -> exists k0 x0, q !! k0 = Some x0 /\ q' !! k0 = None /\ max < tree_bytes q' + treeSize x0).

(** The entry of a name. *)
Lemma measured_elem q items k x : Forall (measured q) items -> q !! k = Some x -> k ∈ items.*1.*1 -> (k, treeSize x, node_time x) ∈ items.
Proof.
  intros Hm Hx Hki. apply list_elem_of_fmap in Hki as ([k0 s0] & -> & Hki). apply list_elem_of_fmap in Hki as ([[k1 s1] t1] & [= <- <-] & He).
  rewrite Forall_forall in Hm. destruct (Hm _ He) as (y & Hy & Hs & Ht). cbn in *. rewrite Hx in Hy. injection Hy as <-. by subst.
Qed.

Lemma trim_quarantine max d items :
  0 <= max -> NoDup items.*1.*1 -> Forall (measured (quarantined d)) items -> (forall k, is_Some (quarantined d !! k) <-> k ∈ items.*1.*1) ->
  exists n d', trim max (merge_sort older items) (items_bytes items) 0 (MkWorld d []) = (Ok n, MkWorld d' []) /\ top d' = top d /\
    trimmed max (quarantined d) (quarantined d').
Proof.
  intros Hmax Hnd Hm Hk. pose proof (merge_sort_Permutation older items) as Hperm. pose proof (StronglySorted_merge_sort older items) as Hsort.
  set (sorted := merge_sort older items) in *. rewrite <-Hperm in Hm, Hnd. setoid_rewrite <-Hperm in Hk.
  destruct (trim_run max sorted d 0 Hnd Hm) as (d' & removed & rest & Et & Hsplit & Htop & Hq' & Hle & Hlast).
  rewrite <-(measured_bytes (quarantined d) items) in Et by by rewrite <-Hperm || (intros; rewrite <-Hperm; apply Hk).
  eexists _, d'. split_and!; [exact Et|done|]. rewrite Hsplit in *.
  assert (forall k x, quarantined d' !! k = Some x -> quarantined d !! k = Some x /\ k ∉ removed.*1.*1) as Hin'.
  { intros k x. rewrite Hq'. by case_decide. }
  assert (forall k x, quarantined d !! k = Some x -> quarantined d' !! k = None -> k ∈ removed.*1.*1) as Hout.
  { intros k x Hx. rewrite Hq'. case_decide; [done|congruence]. }
  apply Forall_app in Hm as [Hmr Hme]. split_and!.
  - destruct Hle as [| ->]; [done|]. rewrite app_nil_r in *. replace (quarantined d') with (∅ : gmap bytes node); [done|].
    symmetry. apply map_empty. intros k. rewrite Hq'. case_decide as Hd; [done|]. apply eq_None_not_Some. by rewrite Hk.
  - intros k x Hx. by apply Hin'.
  - intros k x k' x' [Hx Hni]%Hin' Hx' Hd'. assert (k ∈ rest.*1.*1) as Hkr.
    { assert (k ∈ (removed ++ rest).*1.*1) as H by (apply Hk; by exists x). rewrite !fmap_app, elem_of_app in H. tauto. }
    apply (StronglySorted_app_1_elem_of older removed rest (k', treeSize x', node_time x') (k, treeSize x, node_time x) Hsort);
      apply (measured_elem (quarantined d)); eauto.
  - intros k x Hx Hd'. specialize (Hout k x Hx Hd'). destruct (rev removed) as [|e init] eqn:Er.
    { apply (f_equal (@rev _)) in Er. rewrite rev_involutive in Er. subst. by apply elem_of_nil in Hout. }
    assert (removed = rev init ++ [e]) as -> by (by rewrite <-(rev_involutive removed), Er).
    rewrite Forall_forall in Hmr. destruct (Hmr e) as (y & Hy & Hs & _); [apply elem_of_app; right; left|]. exists e.1.1, y. split_and!; [done| |].
    + rewrite Hq', decide_True; [done|]. rewrite !fmap_app, elem_of_app. right. left.
    + rewrite <-Hs. by eapply Hlast.
Qed.

(** Maintenance without faults: of the files of the queue exactly those go that are older
    than the age that is allowed, and of the quarantine just enough of the oldest entries that
    the rest is within its quota. *)
Theorem Maintain_spec s now d :
  nodes_ok (top d) -> 0 <= maxQuarantineBytes s ->
  exists res d', Maintain s now (MkWorld d []) = (Ok res, MkWorld d' []) /\ nodes_ok (top d') /\
    (forall p f, ready d' p f <-> ready d p f /\ now - maxAge s <= modified f) /\
    trimmed (maxQuarantineBytes s) (quarantined d) (quarantined d').
Proof.
  intros Hok Hmax. destruct (filesLocked_ok d Hok) as (l & El & Hq). destruct (Hq) as (_ & Hnd & Hin).
  destruct (expire_run (now - maxAge s) l d 0 Hok Hnd) as (n1 & d1 & E1 & Hok1 & Hq1 & Hr1); [intros p; apply Hin|].
  destruct (quarantine_items d1) as (entries & items & Er & Em & Hni & Hm & Hk).
  destruct (trim_quarantine (maxQuarantineBytes s) d1 items) as (n & d' & Et & Htop & Htrim); [done..|].
  exists (MkMaintenanceResult n1 n), d'. rewrite Hq1 in *. split_and!; [|by rewrite Htop| |done].
  - unfold Maintain. rewrite (bind_run _ _ _ _ _ El), (bind_run _ _ _ _ _ E1), (bind_run _ _ _ _ _ Er), (bind_run _ _ _ _ _ Em).
    cbv zeta. by rewrite (bind_run _ _ _ _ _ Et).
  - intros p f. assert (ready d' p f <-> ready d1 p f) as -> by (unfold ready; destruct p; cbn [lookup_file]; by rewrite Htop).
    rewrite Hr1. unfold too_old. split.
    + intros [Hf H]. split; [done|]. assert (p ∈ l) as Hp by (apply Hin; by exists f). specialize (H Hp). lia.
    + intros [Hf H]. split; [done|]. intros _. lia.
Qed.

Definition demo_disk : fs :=
  MkFs (<[batch_name 5 (temp_name (str "1")) := NDir (<[chunk_name 0 := (CFile (MkFile [1; 2] 5 true), true)]>
                                                    (<[chunk_name 1 := (CFile (MkFile [3] 50 true), true)]> ∅)) 5]> ∅)
    (<[str "a" := NFile (MkFile [1] 9 true)]> (<[str "b" := NFile (MkFile [1; 2; 3] 8 true)]> ∅)) [].

Lemma demo_disk_ok : nodes_ok (top demo_disk).
Proof.
  apply map_Forall_insert_2; [|apply map_Forall_empty]. intros _. split; [by intros ?%insert_non_empty|].
  intros k c [[<- <-]|[_ [[<- <-]|[_ H]]%lookup_insert_Some]]%lookup_insert_Some; [split; [done|by eexists]..|by rewrite lookup_empty in H].
Qed.

Lemma Maintain_spec_witness :
  exists res d', Maintain (MkCustomSpool 1000 20 2) 60 (MkWorld demo_disk []) = (Ok res, MkWorld d' []) /\
    tree_bytes (quarantined d') <= 2.
Proof.
  destruct (Maintain_spec (MkCustomSpool 1000 20 2) 60 demo_disk) as (res & d' & E & _ & _ & Ht & _).
  - apply demo_disk_ok.
  - done.
  - exists res, d'. split; [exact E|exact Ht].
Defined.

(** ** With faults *)

(** Files are as they were, but for ready files older than [cutoff], which may be gone. *)
Definition kept (cutoff : Z) (d d' : fs) : Prop :=
  forall p, lookup_file d' p = lookup_file d p \/
    lookup_file d' p = None /\ exists f, ready d p f /\ too_old cutoff f = true.

Lemma kept_refl cutoff d : kept cutoff d d.
Proof. intros p. by left. Qed.

Lemma kept_same cutoff d d' : same_files d d' -> kept cutoff d d'.
Proof. intros H p. by left. Qed.

Lemma kept_trans cutoff a b c : kept cutoff a b -> kept cutoff b c -> kept cutoff a c.
Proof.
  intros H1 H2 p. destruct (H2 p) as [E2|[E2 (f & [Hv Hf] & He)]], (H1 p) as [E1|[E1 (g & Hg & He')]].
  - left. congruence.
  - right. split; [congruence|eauto].
  - right. split; [done|]. exists f. split; [|done]. split; [done|congruence].
  - congruence.
Qed.

Lemma stays_expire cutoff files n : Forall (fun p => validReadyPath p = true) files -> stays (kept cutoff) (expire cutoff files n).
Proof.
  intros Hv. pose proof (kept_refl cutoff) as Hr. pose proof (kept_trans cutoff) as Ht. revert n.
  induction Hv as [|p files Hp Hv IH]; intros n; cbn [expire]; [by apply stays_ret|]. intros w. unfold bind at 1.
  destruct (Stat p w) as [[[size mtime]|e|] w1] eqn:E1; cbn [snd]; cycle 1.
  1,2: apply (f_equal snd) in E1; cbn in E1; rewrite <-E1; unfold Stat; rewrite query_disk; apply Hr.
  apply query_ok in E1 as [E1 D1]. destruct (lookup_file (disk w) p) as [f|] eqn:Hf; cbn in E1; [|done]. injection E1 as _ <-.
  rewrite <-D1. destruct (modified f <? cutoff) eqn:Eold; [|apply IH]. unfold bind at 1.
  destruct (Remove_file p w1) as [[u|e|] w2] eqn:E2; cbn [snd]; cycle 1.
  1,2: apply change_fails in E2; [|done]; rewrite E2; apply Hr.
  apply change_ok in E2 as (t & q & ([g Hg] & -> & ->)%Remove_file_effect & D2).
  apply (Ht _ (disk w2)).
  - intros p'. rewrite D2. unfold update. rewrite (take_out_without p _ _ _ g Hg). case_decide; [subst|by left]. right. split; [done|].
    exists f. rewrite D1. by split.
  - apply (stays_bind (kept cutoff) Ht _ (fun _ => expire cutoff files (S n))); [|intros; apply IH].
    intros w3. apply kept_same, remove_parent_same.
Qed.

Lemma files_of_valid entries w l w' : files_of entries w = (Ok l, w') -> Forall (fun p => validReadyPath p = true) l.
Proof.
  revert w l w'. induction entries as [|[name x] entries IH]; intros w l w' E; cbn [files_of] in E; [injection E as <- _; constructor|].
  destruct x as [f|es m|]; [| |by eapply IH].
  - apply bind_ok in E as (rest & w1 & E1 & E2). injection E2 as <- _. apply IH in E1. destruct (is_legacy name) eqn:El; [|done].
    by constructor.
  - destruct (is_batch name) eqn:Eb; [|by eapply IH]. apply bind_ok in E as (chunks & w1 & _ & E). destruct chunks as [|c chunks]; [done|].
    destruct (forallb regular_chunk (c :: chunks)) eqn:Ec; [|done]. apply bind_ok in E as (rest & w2 & E1 & E2). injection E2 as <- _.
    apply IH in E1. change (Sub name c.1 :: map ?f chunks ++ rest) with (map f (c :: chunks) ++ rest). apply Forall_app. split; [|done].
    apply Forall_forall. intros p ([k x] & -> & Hin)%list_elem_of_fmap. rewrite forallb_forall in Ec.
    apply list_elem_of_In in Hin. specialize (Ec _ Hin). cbn [validReadyPath fst]. rewrite Eb. unfold regular_chunk in Ec. cbn [fst snd] in Ec.
    by destruct x.
Qed.

Lemma filesLocked_valid w l w' : filesLocked w = (Ok l, w') -> Forall (fun p => validReadyPath p = true) l.
Proof.
  intros E. apply bind_ok in E as (entries & w1 & _ & E). apply bind_ok in E as (files & w2 & E1 & E). injection E as <- _.
  unfold sort_paths. rewrite merge_sort_Permutation. by eapply files_of_valid.
Qed.

(** Whatever fails, only files that are too old go. *)
Lemma stays_Maintain s now : stays (kept (now - maxAge s)) (Maintain s now).
Proof.
  set (cutoff := now - maxAge s). pose proof (kept_refl cutoff) as Hr. pose proof (kept_trans cutoff) as Ht.
  intros w. unfold Maintain. unfold bind at 1. pose proof (stays_files w) as D1.
  destruct (filesLocked w) as [[files|e|] w1] eqn:E1; cbn [snd] in D1 |- *; [|rewrite D1; apply Hr..]. rewrite D1.
  apply filesLocked_valid in E1. clear D1. revert w1. clear w.
  apply stays_bind; [done|by apply stays_expire|intros n]. apply stays_bind; [done|by apply stays_query|intros entries].
  apply stays_bind; [done| |intros items]; [|apply stays_bind; [done| |intros; by apply stays_ret]].
  - induction entries as [|[name x] entries IH]; cbn [measure]; [by apply stays_ret|].
    do 2 (apply stays_bind; [done|by apply stays_query|intros]). apply stays_bind; [done|done|intros; by apply stays_ret].
  - generalize (foldr (fun (e : item) n => e.1.2 + n) 0 items), 0%nat. generalize (merge_sort older items). intros l.
    induction l as [|[[name size] time] l IH]; intros total k; cbn [trim]; [by apply stays_ret|].
    destruct (total <=? _); [by apply stays_ret|]. apply stays_bind; [done| |intros; apply IH].
    apply stays_change; [done|]. intros d t q [= <- <-]. by apply kept_same.
Qed.

End StatsdSpoolRetention.
