(* ===== verification/StatsdPipeline.v ===== *)
(** * DogStatsD: from the windows to the collector

    dogstatsd/pipeline.go and dogstatsd/sender.go: windows of the aggregator are encoded in
    batches and put into the spool; the oldest file of the spool is sent, and removed,
    quarantined or kept by the answer. *)

From S2P Require Import Prelude GoLib GoText GoFloat GoUtf8 Statsd StatsdPolicy StatsdAggregator StatsdSpool.

Module StatsdPipeline.
Import GoText GoFloat GoUtf8 Statsd StatsdPolicy StatsdAggregator StatsdSpool.

(** ** The sender *)

Inductive SendDisposition := SendSuccess | SendRetry | SendPermanent.

#[global] Instance SendDisposition_eq_dec : EqDecision SendDisposition.
Proof. solve_decision. Defined.

Definition classifyHTTPStatus (code : Z) : SendDisposition :=
  if (200 <=? code) && (code <? 300) then SendSuccess
  else if (code =? 401) || (code =? 403) || (code =? 408) || (code =? 429) || (500 <=? code) then SendRetry
  else SendPermanent.

(** [textproto.CanonicalMIMEHeaderKey] *)
Definition token_char (c : Z) : bool :=
  is_digit c || between 65 c 90 || between 97 c 122 ||
  existsb (Z.eqb c) [33; 35; 36; 37; 38; 39; 42; 43; 45; 46; 94; 95; 96; 124; 126].
Fixpoint canonical (upper : bool) (s : bytes) : bytes :=
  match s with
  | [] => []
  | c :: s => (if upper && between 97 c 122 then c - 32
               else if negb upper && between 65 c 90 then c + 32 else c) :: canonical (c =? 45) s
  end.
Definition CanonicalHeaderKey (s : bytes) : bytes :=
  if negb (bytes_eqb s []) && forallb token_char s then canonical true s else s.

Definition header_Set (key value : bytes) (h : gmap bytes bytes) : gmap bytes bytes := <[CanonicalHeaderKey key := value]> h.

Record request := MkRequest { url : bytes; header : gmap bytes bytes; body : bytes }.

(** [headers] in the order in which the map is walked through. *)
Record CustomSender := MkCustomSender { endpoint : bytes; headers : list (bytes * bytes) }.

Definition NewCustomSender (client : bool) (endpoint : bytes) (headers : list (bytes * bytes)) : option CustomSender :=
  if negb client then None
  else if bytes_eqb endpoint [] then None
  else Some (MkCustomSender endpoint headers).

Definition request_header (s : CustomSender) : gmap bytes bytes :=
  let h := fold_left (fun h kv => header_Set kv.1 kv.2 h) (headers s) ∅ in
  let h := header_Set (str "User-Agent") (str "codexray-node-agent-dogstatsd") h in
  let h := header_Set (str "Content-Type") (str "application/x-protobuf") h in
  let h := header_Set (str "Content-Encoding") (str "snappy") h in
  header_Set (str "X-Prometheus-Remote-Write-Version") (str "0.1.0") h.

(** The network: the status of the answers to come, or [None] for a request that failed, and
    the requests that were made. *)
Record net := MkNet { replies : list (option Z); requests : list (request * option Z) }.
Definition Do (r : request) (n : net) : option Z * net :=
  match replies n with
  | [] => (None, MkNet [] (requests n ++ [(r, None)]))
  | reply :: rest => (reply, MkNet rest (requests n ++ [(r, reply)]))
  end.

(** The error of a call as a value. *)
Definition attempt {A} (m : io A) : io (io_error + A) :=
  fun w => match m w with
           | (Ok a, w) => (Ok (inr a), w)
           | (Err e, w) => (Ok (inl e), w)
           | (Crashed, w) => (Crashed, w)
           end.

Definition Open_file (p : path) : io unit := query (fun d => (fun _ => tt) <$> lookup_file d p).

Section sender.

(** Whether [http.NewRequest] can parse an endpoint. *)
Context (url_valid : bytes -> bool).

(** The disposition, the status, and whether there is an error.  The file is read while the
    request is sent: what cannot be read is a request that fails. *)
Definition SendFile (s : CustomSender) (file : path) (n : net) : io (SendDisposition * Z * bool * net) :=
  let* opened := attempt (Open_file file) in
  match opened with
  | inl _ => ret (SendRetry, 0, true, n)
  | inr _ =>
      if negb (url_valid (endpoint s)) then ret (SendPermanent, 0, true, n)
      else
      let* content := attempt (ReadFile file) in
      match content with
      | inl _ => ret (SendRetry, 0, true, n)
      | inr content =>
          let '(reply, n) := Do (MkRequest (endpoint s) (request_header s) content) n in
          match reply with
          | None => ret (SendRetry, 0, true, n)
          | Some code =>
              match classifyHTTPStatus code with
              | SendSuccess => ret (SendSuccess, code, false, n)
              | disposition => ret (disposition, code, true, n)
              end
          end
      end
  end.

End sender.

(** ** Encoding *)

Inductive flush_error := ErrMarshal | ErrCustomBatchTooLarge (size max : Z) | ErrSpool (e : io_error).

Section encode.

(** [WriteRequest.Marshal] followed by [snappy.Encode]. *)
Context (marshalCustomBatch : list TimeSeries -> option bytes).

(** The inner loop: the longest prefix found that fits, with its encoding; [None] if the
    fuel is used up. *)
Fixpoint best_prefix (fuel : nat) (series : list TimeSeries) (maxBytes : Z) (low high : nat) (best : option (nat * bytes))
  : option (flush_error + option (nat * bytes)) :=
  if (high <? low)%nat then Some (inr best)
  else match fuel with
       | O => None
       | S fuel =>
           let mid := (low + (high - low) / 2)%nat in
           match marshalCustomBatch (take mid series) with
           | None => Some (inl ErrMarshal)
           | Some payload =>
               if Z.of_nat (length payload) <=? maxBytes
               then best_prefix fuel series maxBytes (mid + 1) high (Some (mid, payload))
               else best_prefix fuel series maxBytes low (mid - 1) best
           end
       end.

(** The outer loop on what is left of the series. *)
Fixpoint encode_from (fuel : nat) (series : list TimeSeries) (maxBytes : Z) : option (flush_error + list bytes) :=
  match series with
  | [] => Some (inr [])
  | _ =>
      match fuel with
      | O => None
      | S fuel =>
          let? found := best_prefix (length series) series maxBytes 1 (length series) None else None in
          match found with
          | inl e => Some (inl e)
          | inr None =>
              match marshalCustomBatch (take 1 series) with
              | None => Some (inl ErrMarshal)
              | Some payload => Some (inl (ErrCustomBatchTooLarge (Z.of_nat (length payload)) maxBytes))
              end
          | inr (Some (best, payload)) =>
              let? rest := encode_from fuel (drop best series) maxBytes else None in
              match rest with
              | inl e => Some (inl e)
              | inr rest => Some (inr (payload :: rest))
              end
          end
      end
  end.

Definition encodeCustomBatches (series : list TimeSeries) (maxBytes : Z) : option (flush_error + list bytes) :=
  encode_from (length series) series maxBytes.

End encode.

(** The labels of the series, replaced by [external] where both have one. *)
Definition addExternalLabels (s : TimeSeries) (external : gmap bytes bytes) : TimeSeries :=
  let labels := fold_left (fun (m : gmap bytes bytes) l => <[LabelName l := LabelValue l]> m) (Labels s) ∅ in
  let labels := external ∪ labels in
  MkTimeSeries (map (fun key => MkLabel key (default [] (labels !! key))) (sorted_keys labels)) (Samples s).

(** ** The pipeline *)

Record PipelineConfig := MkPipelineConfig {
  FlushInterval : Z; MaxBatchBytes : Z; ExternalLabels : gmap bytes bytes; RetryMin : Z; RetryMax : Z;
  SaturationThreshold : float64; SaturationDuration : Z
}.

Inductive pipeline_error := ErrFlushInterval | ErrMaxBatchBytes | ErrRetryBounds | ErrSaturation.

Definition PipelineConfig_Validate (c : PipelineConfig) : option pipeline_error :=
  if FlushInterval c <=? 0 then Some ErrFlushInterval
  else if MaxBatchBytes c <=? 0 then Some ErrMaxBatchBytes
  else if (RetryMin c <=? 0) || (RetryMax c <? RetryMin c) then Some ErrRetryBounds
  else if fle (SaturationThreshold c) zero || flt one (SaturationThreshold c) || (SaturationDuration c <=? 0)
       then Some ErrSaturation
  else None.

Inductive component := Processing | Spool | DeliveryC | Authentication | Saturation.
Inductive pcounter :=
| Aggregated | Spooled | DeliveredBatches | DeliveredSamples | Retried
| Rejected (code : bytes) | FlushErrors (reason : bytes) | RetentionRemoved (reason : bytes).
Inductive pgauge :=
| SpoolFiles | SpoolBytes | SpoolOldestAge | SpoolUtilization | SpoolSaturated | PipelineHealthy | ComponentHealthy (c : component).

#[global] Instance component_eq_dec : EqDecision component.
Proof. solve_decision. Defined.
#[global] Instance pcounter_eq_dec : EqDecision pcounter.
Proof. solve_decision. Defined.
#[global] Instance pgauge_eq_dec : EqDecision pgauge.
Proof. solve_decision. Defined.

Record pipelineMetrics := MkPipelineMetrics { pcounters : pcounter -> Z; pgauges : pgauge -> float64 }.

Record Pipeline := MkPipeline {
  pcfg : PipelineConfig; pagg : Aggregator; pspool : CustomSpool; psender : CustomSender; pmetrics : pipelineMetrics;
  closed : bool; phealthy : bool; health : component -> bool; spoolPressure : pressureState; spoolBytesCurrent : Z
}.

Definition components : list component := [Processing; Spool; DeliveryC; Authentication; Saturation].

Definition NewPipeline (c : PipelineConfig) (a : Aggregator) (s : CustomSpool) (sender : CustomSender) : pipeline_error + Pipeline :=
  match PipelineConfig_Validate c with
  | Some e => inl e
  | None => inr (MkPipeline c a s sender
                   (MkPipelineMetrics (fun _ => 0) (fun g => match g with PipelineHealthy | ComponentHealthy _ => one | _ => zero end))
                   false true (fun _ => true) (newPressureState (SaturationThreshold c) (SaturationDuration c)) 0)
  end.

Definition on_pmetrics (f : pipelineMetrics -> pipelineMetrics) (p : Pipeline) : Pipeline :=
  MkPipeline (pcfg p) (pagg p) (pspool p) (psender p) (f (pmetrics p)) (closed p) (phealthy p) (health p) (spoolPressure p) (spoolBytesCurrent p).
Definition set_agg (a : Aggregator) (p : Pipeline) : Pipeline :=
  MkPipeline (pcfg p) a (pspool p) (psender p) (pmetrics p) (closed p) (phealthy p) (health p) (spoolPressure p) (spoolBytesCurrent p).
Definition set_health (h : bool) (hs : component -> bool) (p : Pipeline) : Pipeline :=
  MkPipeline (pcfg p) (pagg p) (pspool p) (psender p) (pmetrics p) (closed p) h hs (spoolPressure p) (spoolBytesCurrent p).
Definition set_pressure (s : pressureState) (n : Z) (p : Pipeline) : Pipeline :=
  MkPipeline (pcfg p) (pagg p) (pspool p) (psender p) (pmetrics p) (closed p) (phealthy p) (health p) s n.
Definition set_closed (p : Pipeline) : Pipeline :=
  MkPipeline (pcfg p) (pagg p) (pspool p) (psender p) (pmetrics p) true (phealthy p) (health p) (spoolPressure p) (spoolBytesCurrent p).

Definition pinc (c : pcounter) (n : Z) : Pipeline -> Pipeline :=
  on_pmetrics (fun m => MkPipelineMetrics (fun c' => if decide (c = c') then pcounters m c' + n else pcounters m c') (pgauges m)).
Definition pset (g : pgauge) (v : float64) : Pipeline -> Pipeline :=
  on_pmetrics (fun m => MkPipelineMetrics (pcounters m) (fun g' => if decide (g = g') then v else pgauges m g')).

Definition bool_float (b : bool) : float64 := if b then one else zero.

Definition setComponentHealthy (c : component) (healthy : bool) (p : Pipeline) : Pipeline :=
  let hs := fun c' => if decide (c = c') then healthy else health p c' in
  let overall := forallb hs components in
  pset PipelineHealthy (bool_float overall) (set_health overall hs (pset (ComponentHealthy c) (bool_float healthy) p)).

Definition updateSpoolPressure (bytes now : Z) (p : Pipeline) : Pipeline :=
  let utilization := fdiv (of_int bytes) (of_int (maxBytes (pspool p))) in
  let '(saturated, s) := Observe utilization now (spoolPressure p) in
  setComponentHealthy Saturation (negb saturated)
    (pset SpoolSaturated (bool_float saturated) (pset SpoolUtilization utilization (set_pressure s bytes p))).

Definition Healthy (now : Z) (p : Pipeline) : bool * Pipeline :=
  let p := updateSpoolPressure (spoolBytesCurrent p) now p in (phealthy p, p).

(** When the clock is read. *)
Record clock := MkClock { put_time : Z; maintain_time : Z; stats_time : Z; pressure_time : Z }.

(** [Duration.Seconds] of an age of the spool, in nanoseconds. *)
Definition Seconds (d : Z) : float64 :=
  let sec := Z.quot d 1000000000 in
  let nsec := Z.rem d 1000000000 in
  fadd (of_int sec) (fdiv (of_int nsec) (of_int 1000000000)).

Definition refreshSpoolMetrics (t : clock) (p : Pipeline) : io Pipeline :=
  let* maintenance := attempt (Maintain (pspool p) (maintain_time t)) in
  match maintenance with
  | inl _ => ret (setComponentHealthy Spool false p)
  | inr m =>
      let p := if (0 <? ExpiredReadyFiles m)%nat then pinc (RetentionRemoved (str "spool_expired")) (Z.of_nat (ExpiredReadyFiles m)) p else p in
      let p := if (0 <? RemovedQuarantine m)%nat then pinc (RetentionRemoved (str "quarantine_quota")) (Z.of_nat (RemovedQuarantine m)) p else p in
      let* stats := attempt (Stats (stats_time t)) in
      match stats with
      | inl _ => ret (setComponentHealthy Spool false p)
      | inr s =>
          ret (updateSpoolPressure (StatBytes s) (pressure_time t)
                 (pset SpoolOldestAge (Seconds (OldestAge s))
                    (pset SpoolBytes (of_int (StatBytes s)) (pset SpoolFiles (of_int (Z.of_nat (Files s))) p))))
      end
  end.

(** A run-time panic ends the process. *)
Definition lift {A} (m : go A) : io A := fun w => match m with Val a => (Ok a, w) | Panic => (Crashed, w) end.

Definition Itoa (n : Z) : bytes := if n <? 0 then str "-" ++ FormatUint (- n) else FormatUint n.

Section pipeline.

(** [WriteRequest.Marshal] and [snappy.Encode], their inverses, and [http.NewRequest]. *)
Context (marshalCustomBatch : list TimeSeries -> option bytes) (Decode : bytes -> option bytes)
  (Unmarshal : bytes -> option (list TimeSeries)) (url_valid : bytes -> bool).

Definition FlushOnce (at_ : Z) (rnd : bytes) (t : clock) (p : Pipeline) : io (option flush_error * Pipeline) :=
  let* (a, series) := lift (Snapshot at_ (pagg p)) in
  let p := set_agg a p in
  match series with
  | [] => let* p := refreshSpoolMetrics t p in ret (None, p)
  | _ =>
      let series := map (fun s => addExternalLabels s (ExternalLabels (pcfg p))) series in
      match encodeCustomBatches marshalCustomBatch series (MaxBatchBytes (pcfg p)) with
      | None => lift Panic
      | Some (inl err) =>
          ret (Some err, setComponentHealthy Processing false (pinc (FlushErrors (str "batch_too_large")) 1 p))
      | Some (inr payloads) =>
          let* put := attempt (PutBatch (pspool p) (put_time t) rnd payloads) in
          match put with
          | inl e =>
              let reason := match e with EFull => str "spool_full" | _ => str "spool_write" end in
              let* p := refreshSpoolMetrics t (setComponentHealthy Spool false (pinc (FlushErrors reason) 1 p)) in
              ret (Some (ErrSpool e), p)
          | inr _ =>
              let p := set_agg (Commit (pagg p)) p in
              let p := pinc Spooled (Z.of_nat (length series)) (pinc Aggregated (Z.of_nat (length series)) p) in
              let* p := refreshSpoolMetrics t (setComponentHealthy Spool true (setComponentHealthy Processing true p)) in
              ret (None, p)
          end
      end
  end.

Definition readCustomPayload (file : path) : io (option (list TimeSeries)) :=
  let* compressed := attempt (ReadFile file) in
  ret (match compressed with
       | inl _ => None
       | inr compressed => let? payload := Decode compressed else None in Unmarshal payload
       end).

Definition customPayloadSampleCount (file : path) : io (option nat) :=
  let* request := readCustomPayload file in
  ret (let? series := request else None in
       match sum_list_with (fun s => length (Samples s)) series with
       | O => None
       | count => Some count
       end).

Definition answer : Type := SendDisposition * Z * bool.

Definition ReplayOnce (t : clock) (p : Pipeline) (n : net) : io (answer * net * Pipeline) :=
  let unhealthy := fun p => setComponentHealthy DeliveryC false (setComponentHealthy Spool false p) in
  let* oldest := attempt Oldest in
  match oldest with
  | inl _ => ret (SendRetry, 0, true, n, setComponentHealthy Spool false p)
  | inr None => ret (SendSuccess, 0, false, n, p)
  | inr (Some file) =>
      let* count := customPayloadSampleCount file in
      match count with
      | None =>
          let* quarantine := attempt (Quarantine file (str "corrupt-payload")) in
          match quarantine with
          | inl _ => ret (SendRetry, 0, true, n, unhealthy p)
          | inr _ =>
              let p := pinc (Rejected (str "corrupt")) 1 (pinc (FlushErrors (str "spool_corrupt")) 1 p) in
              let* p := refreshSpoolMetrics t (setComponentHealthy DeliveryC false (setComponentHealthy Spool true p)) in
              ret (SendPermanent, 0, true, n, p)
          end
      | Some sampleCount =>
          let* (disposition, status, sendErr, n) := SendFile url_valid (psender p) file n in
          let finish p := let* p := refreshSpoolMetrics t p in ret (disposition, status, sendErr, n, p) in
          match disposition with
          | SendSuccess =>
              let* removed := attempt (Remove file) in
              match removed with
              | inl _ => ret (SendRetry, status, true, n, unhealthy p)
              | inr _ =>
                  let p := pinc DeliveredSamples (Z.of_nat sampleCount) (pinc DeliveredBatches 1 p) in
                  finish (setComponentHealthy Authentication true
                            (setComponentHealthy DeliveryC true (setComponentHealthy Spool true p)))
              end
          | SendPermanent =>
              let reason := if status =? 0 then str "client-error" else str "http-" ++ Itoa status in
              let* quarantine := attempt (Quarantine file reason) in
              match quarantine with
              | inl _ => ret (SendRetry, status, true, n, unhealthy p)
              | inr _ =>
                  let p := setComponentHealthy DeliveryC false (setComponentHealthy Spool true (pinc (Rejected (Itoa status)) 1 p)) in
                  finish (if (status =? 401) || (status =? 403) then setComponentHealthy Authentication false p else p)
              end
          | SendRetry =>
              let p := setComponentHealthy DeliveryC false (pinc Retried 1 p) in
              finish (if (status =? 401) || (status =? 403) then setComponentHealthy Authentication false p else p)
          end
      end
  end.

(** [rand.Float64()] is [r]. *)
Definition jitter (r : float64) (duration : Z) : Z :=
  to_int (fmul (of_int duration) (fadd (of_decimal false 8 (-1)) (fmul r (of_decimal false 4 (-1))))).

(** The delay after an attempt; [time.Duration] is a 64-bit integer. *)
Definition next_delay (c : PipelineConfig) (a : answer) (retryDelay : Z) : Z :=
  let '(disposition, _, err) := a in
  if err && bool_decide (disposition = SendRetry) then
    let retryDelay := s64 (retryDelay * 2) in
    if retryDelay >? RetryMax c then RetryMax c else retryDelay
  else RetryMin c.

(** The loop [run]: an event, with what it reads and chooses. *)
Inductive event := Stop | Tick (at_ : Z) (rnd : bytes) (t : clock) | Retry (t : clock) (r : float64).

(** The delay and when the timer fires next; [None] if the loop has returned. *)
Record loop := MkLoop { pipeline : Pipeline; network : net; retryDelay : Z; timer : Z }.

Definition start_loop (p : Pipeline) (n : net) : loop := MkLoop p n (RetryMin (pcfg p)) 0.

Definition run_step (e : event) (l : loop) : io (option loop) :=
  match e with
  | Stop => ret None
  | Tick at_ rnd t =>
      let* (_, p) := FlushOnce at_ rnd t (pipeline l) in
      ret (Some (MkLoop p (network l) (retryDelay l) (timer l)))
  | Retry t r =>
      let* (a, n, p) := ReplayOnce t (pipeline l) (network l) in
      let delay := next_delay (pcfg p) a (retryDelay l) in
      ret (Some (MkLoop p n delay (jitter r delay)))
  end.

Definition Close (at_ : Z) (rnd : bytes) (t : clock) (p : Pipeline) : io (option flush_error * Pipeline) :=
  if closed p then ret (None, p) else FlushOnce at_ rnd t (set_closed p).

End pipeline.

End StatsdPipeline.
