(* ===== verification/StatsdPipelineSpec.v ===== *)
(** * DogStatsD: encoding, health and delays of the pipeline

    Batches are a partition of the series of a window, within the limit; the pipeline is
    healthy when all its components are; the delays between attempts are bounded. *)

From S2P Require Import Prelude GoLib GoText GoFloat GoUtf8 Statsd StatsdPolicy StatsdAggregator StatsdSpool StatsdSpoolSpec StatsdPipeline.

Module StatsdPipelineSpec.
Import GoText GoFloat GoUtf8 Statsd StatsdPolicy StatsdAggregator StatsdSpool StatsdSpoolSpec StatsdPipeline.

(** ** Batches *)

Section encode_spec.
Context (marshal : list TimeSeries -> option bytes) (max : Z).

Definition fits (s : list TimeSeries) (payload : bytes) : Prop := marshal s = Some payload /\ Z.of_nat (length payload) <= max.
Definition too_large (s : list TimeSeries) : Prop := exists payload, marshal s = Some payload /\ max < Z.of_nat (length payload).

(** The state of the search: what was found is below [low], and if nothing was found, [low]
    was never raised. *)
Definition search_inv (series : list TimeSeries) (low high : nat) (best : option (nat * bytes)) : Prop :=
  (high <= length series)%nat /\
  match best with
  | Some (b, payload) => (1 <= b <= length series)%nat /\ low = S b /\ fits (take b series) payload
  | None => low = 1%nat /\ (high = O -> too_large (take 1 series))
  end.

Lemma best_prefix_spec fuel series low high best :
  search_inv series low high best -> (high + 1 - low <= fuel)%nat -> series <> [] ->
  match best_prefix marshal fuel series max low high best with
  | Some (inr (Some (b, payload))) => (1 <= b <= length series)%nat /\ fits (take b series) payload
  | Some (inr None) => too_large (take 1 series)
  | Some (inl e) => e = ErrMarshal /\ exists k, (1 <= k <= length series)%nat /\ marshal (take k series) = None
  | None => False
  end.
Proof.
  revert low high best. induction fuel as [|fuel IH]; intros low high best [Hh Hb] Hf Hne; cbn [best_prefix];
    destruct (Nat.ltb_spec high low) as [Hlt|Hge]; try lia.
  1,2: destruct best as [[b payload]|]; [by destruct Hb as (? & _ & ?)|]; destruct Hb as [-> Hb]; apply Hb; lia.
  assert (1 <= low)%nat as Hlow by (destruct best as [[b ?]|]; destruct Hb; lia).
  pose proof (Nat.Div0.div_le_upper_bound (high - low) 2 (high - low) ltac:(lia)) as Hdiv.
  set (mid := (low + (high - low) / 2)%nat). assert (low <= mid <= high)%nat as Hmid by lia.
  destruct (marshal (take mid series)) as [payload|] eqn:Em.
  - destruct (Z.leb_spec (Z.of_nat (length payload)) max) as [Hs|Hs].
    + apply IH; [|lia|done]. split; [done|]. by split; [lia|]; split; [lia|].
    + apply IH; [|lia|done]. split; [lia|]. destruct best as [[b p]|]; [done|]. destruct Hb as [-> Hb]. split; [done|].
      intros H0. assert (mid = 1%nat) as E by lia. exists payload. by rewrite <-E.
  - split; [done|]. exists mid. split; [lia|done].
Qed.

(** A partition of the series in runs that fit. *)
Inductive batches : list TimeSeries -> list bytes -> Prop :=
| batches_nil : batches [] []
| batches_cons chunk payload rest payloads :
    chunk <> [] -> fits chunk payload -> batches rest payloads -> batches (chunk ++ rest) (payload :: payloads).

Lemma encode_from_spec fuel series :
  (length series <= fuel)%nat ->
  match encode_from marshal fuel series max with
  | Some (inr payloads) => batches series payloads
  | Some (inl e) => (e = ErrMarshal /\ exists chunk, chunk <> [] /\ chunk `sublist_of` series /\ marshal chunk = None) \/
                    exists s payload, s ∈ series /\ marshal [s] = Some payload /\ max < Z.of_nat (length payload) /\
                      e = ErrCustomBatchTooLarge (Z.of_nat (length payload)) max
  | None => False
  end.
Proof.
  revert series. induction fuel as [|fuel IH]; intros series Hf.
  { destruct series; [constructor|cbn in Hf; lia]. }
  destruct series as [|s0 series0]; [constructor|]. cbn [encode_from]. set (series := s0 :: series0) in *.
  pose proof (best_prefix_spec (length series) series 1 (length series) None) as Hbest.
  destruct (best_prefix _ _ _ _ _ _ _) as [[e|[[b payload]|]]|]; cbn [default]; [| | |destruct Hbest; [|lia|done]; split; [done|]; split; [done|by cbn]].
  - destruct Hbest as (-> & k & Hk & Em); [split; [done|]; split; [done|by cbn]|lia|done|]. left. split; [done|]. exists (take k series).
    split_and!; [|apply sublist_take|done]. intros E. apply (f_equal length) in E. rewrite length_take in E. cbn [length] in *. lia.
  - destruct Hbest as [Hb Hfit]; [split; [done|]; split; [done|by cbn]|lia|done|]. specialize (IH (drop b series)).
    rewrite length_drop in IH. specialize (IH ltac:(lia)). destruct (encode_from marshal fuel (drop b series) max) as [[e|rest]|]; [| |done].
    + destruct IH as [(-> & chunk & Hne & Hsub & Hm)|(s & pl & Hs & H)]; [left|right].
      * split; [done|]. exists chunk. split_and!; [done| |done]. etransitivity; [done|apply sublist_drop].
      * exists s, pl. split; [|done]. apply list_elem_of_lookup in Hs as [i Hi]. rewrite lookup_drop in Hi.
        by eapply list_elem_of_lookup_2.
    + rewrite <-(take_drop b series). apply batches_cons; [|done|done]. intros E. apply (f_equal length) in E. rewrite length_take in E.
      cbn [length] in *. lia.
  - destruct Hbest as (payload & Em & Hl); [split; [done|]; split; [done|by cbn]|lia|done|]. cbn [take series] in Em |- *. rewrite Em. right.
    exists s0, payload. split_and!; [left|done|done|done].
Qed.

End encode_spec.

(** What the libraries promise: what was encoded can be decoded. *)
Definition codec_ok (marshal : list TimeSeries -> option bytes) (Decode : bytes -> option bytes)
  (Unmarshal : bytes -> option (list TimeSeries)) : Prop :=
  forall s b, marshal s = Some b -> exists payload, Decode b = Some payload /\ Unmarshal payload = Some s.

Definition decodes (Decode : bytes -> option bytes) (Unmarshal : bytes -> option (list TimeSeries)) (b : bytes) (s : list TimeSeries) : Prop :=
  exists payload, Decode b = Some payload /\ Unmarshal payload = Some s.

Lemma batches_decode marshal Decode Unmarshal max series payloads :
  codec_ok marshal Decode Unmarshal -> batches marshal max series payloads ->
  Forall (fun b => Z.of_nat (length b) <= max) payloads /\
  exists chunks, Forall2 (decodes Decode Unmarshal) payloads chunks /\ concat chunks = series /\ Forall (fun c => c <> []) chunks.
Proof.
  intros Hc. induction 1 as [|chunk payload rest payloads Hne [Hm Hl] H (IH1 & chunks & IH2 & IH3 & IH4)]; [by split; [|exists []]|].
  split; [by constructor|]. exists (chunk :: chunks). split_and!; [|cbn; by rewrite IH3|by constructor]. constructor; [by apply Hc|done].
Qed.

Lemma encode_spec marshal series max :
  match encodeCustomBatches marshal series max with
  | Some (inr payloads) => batches marshal max series payloads
  | Some (inl e) => (e = ErrMarshal /\ exists chunk, chunk <> [] /\ chunk `sublist_of` series /\ marshal chunk = None) \/
                    exists s payload, s ∈ series /\ marshal [s] = Some payload /\ max < Z.of_nat (length payload) /\
                      e = ErrCustomBatchTooLarge (Z.of_nat (length payload)) max
  | None => False
  end.
Proof. apply encode_from_spec. done. Qed.

(** The encoding of a window ends.  The batches are within the limit, none is empty, and
    decoded one after the other they are the series of the window, in order; it fails only if
    a series cannot be encoded or is above the limit by itself, and then says so. *)
Theorem encode_batches marshal Decode Unmarshal series max :
  codec_ok marshal Decode Unmarshal ->
  match encodeCustomBatches marshal series max with
  | Some (inr payloads) =>
      Forall (fun b => Z.of_nat (length b) <= max) payloads /\
      exists chunks, Forall2 (decodes Decode Unmarshal) payloads chunks /\ concat chunks = series /\ Forall (fun c => c <> []) chunks
  | Some (inl ErrMarshal) => exists chunk, chunk <> [] /\ chunk `sublist_of` series /\ marshal chunk = None
  | Some (inl (ErrCustomBatchTooLarge n m)) => m = max /\ max < n /\ exists s payload, s ∈ series /\ marshal [s] = Some payload /\ Z.of_nat (length payload) = n
  | _ => False
  end.
Proof.
  intros Hc. pose proof (encode_spec marshal series max) as H. destruct (encodeCustomBatches marshal series max) as [[e|payloads]|]; [| |done].
  - destruct H as [(-> & H)|(s & payload & Hs & Hm & Hl & ->)]; [done|]. split_and!; [done|done|]. by exists s, payload.
  - by apply (batches_decode marshal).
Qed.

(** A codec: the number of the series in unary, and a code for them. *)
#[global] Instance float64_countable : Countable float64.
Proof.
  apply (inj_countable'
    (fun x => match x with
              | SpecFloat.S754_zero s => inl (inl s)
              | SpecFloat.S754_infinity s => inl (inr s)
              | SpecFloat.S754_nan => inr (inl tt)
              | SpecFloat.S754_finite s m e => inr (inr (s, m, e))
              end)
    (fun y => match y with
              | inl (inl s) => SpecFloat.S754_zero s
              | inl (inr s) => SpecFloat.S754_infinity s
              | inr (inl _) => SpecFloat.S754_nan
              | inr (inr (s, m, e)) => SpecFloat.S754_finite s m e
              end)).
  by intros [].
Defined.
#[global] Instance Sample_eq_dec : EqDecision Sample.
Proof. solve_decision. Defined.
#[global] Instance TimeSeries_eq_dec : EqDecision TimeSeries.
Proof. solve_decision. Defined.
#[global] Instance Label_countable : Countable Label.
Proof. apply (inj_countable' (fun l => (LabelName l, LabelValue l)) (fun p => MkLabel p.1 p.2)). by intros []. Defined.
#[global] Instance Sample_countable : Countable Sample.
Proof. apply (inj_countable' (fun s => (SampleValue s, Timestamp s)) (fun p => MkSample p.1 p.2)). by intros []. Defined.
#[global] Instance TimeSeries_countable : Countable TimeSeries.
Proof. apply (inj_countable' (fun s => (Labels s, Samples s)) (fun p => MkTimeSeries p.1 p.2)). by intros []. Defined.

Definition demo_marshal (s : list TimeSeries) : option bytes := Some (Zpos (encode s) :: repeat 0 (length s)).
Definition demo_decode (b : bytes) : option bytes := Some b.
Definition demo_unmarshal (b : bytes) : option (list TimeSeries) := match b with Zpos p :: _ => countable.decode p | _ => None end.

Lemma demo_codec_ok : codec_ok demo_marshal demo_decode demo_unmarshal.
Proof. intros s b [= <-]. eexists. split; [done|]. apply decode_encode. Qed.

Definition demo_series (n : Z) : TimeSeries := MkTimeSeries [MkLabel (str "__name__") [n]] [MkSample (of_int n) 7].

Lemma encode_batches_witness :
  exists payloads, encodeCustomBatches demo_marshal (map demo_series [1; 2; 3; 4; 5]) 3 = Some (inr payloads) /\
    Forall (fun b => Z.of_nat (length b) <= 3) payloads /\ length payloads = 3%nat.
Proof.
  pose proof (encode_batches demo_marshal demo_decode demo_unmarshal (map demo_series [1; 2; 3; 4; 5]) 3 demo_codec_ok) as H.
  destruct (encodeCustomBatches demo_marshal (map demo_series [1; 2; 3; 4; 5]) 3) as [[e|payloads]|] eqn:E.
  - vm_compute in E. discriminate.
  - exists payloads. split_and!; [done|exact (proj1 H)|]. vm_compute in E. injection E as <-. reflexivity.
  - vm_compute in E. discriminate.
Defined.

(** ** Delays *)

Definition failed (a : StatsdPipeline.answer) : bool := let '(disposition, _, err) := a in err && bool_decide (disposition = SendRetry).

(** The attempts that failed since the last one that did not; the latest attempt comes first. *)
Fixpoint streak (answers : list StatsdPipeline.answer) : nat :=
  match answers with
  | [] => O
  | a :: answers => if failed a then S (streak answers) else O
  end.

(** The delay of the loop after these attempts. *)
Definition delay_after (c : PipelineConfig) (answers : list StatsdPipeline.answer) : Z := foldr (next_delay c) (RetryMin c) answers.

(** The delay between attempts doubles with every attempt that fails, from the least to the
    greatest that are configured, and is the least again after any other attempt; it never
    leaves these bounds, and the doubling does not overflow. *)
Theorem retry_backoff c answers :
  PipelineConfig_Validate c = None -> RetryMax c < 2 ^ 62 ->
  delay_after c answers = Z.min (RetryMin c * 2 ^ Z.of_nat (streak answers)) (RetryMax c) /\
  RetryMin c <= delay_after c answers <= RetryMax c.
Proof.
  unfold PipelineConfig_Validate. intros Hv Hmax. destruct (FlushInterval c <=? 0); [done|]. destruct (MaxBatchBytes c <=? 0); [done|].
  destruct (Z.leb_spec (RetryMin c) 0); [done|]. destruct (Z.ltb_spec (RetryMax c) (RetryMin c)); [done|]. clear Hv.
  assert (delay_after c answers = Z.min (RetryMin c * 2 ^ Z.of_nat (streak answers)) (RetryMax c)) as E.
  - induction answers as [|[[d code] err] answers IH]; [cbn; lia|]. unfold delay_after. cbn [foldr streak]. fold (delay_after c answers).
    unfold next_delay, failed. rewrite IH. destruct (err && bool_decide (d = SendRetry)); [|cbn; lia].
    rewrite Nat2Z.inj_succ, Z.pow_succ_r by lia. assert (0 < 2 ^ Z.of_nat (streak answers)) by (apply Z.pow_pos_nonneg; lia).
    set (x := RetryMin c * 2 ^ Z.of_nat (streak answers)) in *. assert (0 < x) by nia.
    assert (s64 (Z.min x (RetryMax c) * 2) = Z.min x (RetryMax c) * 2) as -> by (unfold s64; rewrite Z.mod_small; lia).
    replace (RetryMin c * (2 * 2 ^ Z.of_nat (streak answers))) with (2 * x) by (unfold x; ring).
    destruct (Z.gtb_spec (Z.min x (RetryMax c) * 2) (RetryMax c)); lia.
  - split; [done|]. rewrite E. assert (0 < 2 ^ Z.of_nat (streak answers)) by (apply Z.pow_pos_nonneg; lia). nia.
Qed.

Definition demo_retry_config : PipelineConfig :=
  MkPipelineConfig 10000000000 1048576 ∅ 1000000000 60000000000 (of_decimal false 8 (-1)) 300000000000.

Lemma retry_backoff_witness :
  delay_after demo_retry_config (repeat (SendRetry, 503, true) 3) = 8000000000 /\
  delay_after demo_retry_config (repeat (SendRetry, 503, true) 9) = 60000000000.
Proof.
  destruct (retry_backoff demo_retry_config (repeat (SendRetry, 503, true) 3)) as [E1 _]; [vm_compute; reflexivity|reflexivity|].
  destruct (retry_backoff demo_retry_config (repeat (SendRetry, 503, true) 9)) as [E2 _]; [vm_compute; reflexivity|reflexivity|].
  rewrite E1, E2. split; reflexivity.
Defined.

(** ** Health *)

(** The pipeline is healthy when all its components are, and the gauges say so. *)
Definition health_ok (p : Pipeline) : Prop :=
  phealthy p = forallb (health p) components /\ pgauges (pmetrics p) PipelineHealthy = bool_float (phealthy p) /\
  forall c, pgauges (pmetrics p) (ComponentHealthy c) = bool_float (health p c).

Lemma health_set c b p : health_ok p -> health_ok (setComponentHealthy c b p).
Proof.
  intros (_ & _ & H3). split_and!; [done|done|]. intros c'. cbn. repeat case_decide; congruence.
Qed.
Lemma health_inc c n p : health_ok p -> health_ok (pinc c n p).
Proof. done. Qed.
Lemma health_pset g v p : match g with PipelineHealthy | ComponentHealthy _ => False | _ => True end -> health_ok p -> health_ok (pset g v p).
Proof. intros Hg (H1 & H2 & H3). split_and!; [done| |intros c; cbn; rewrite <-H3]; cbn; case_decide; by subst. Qed.
Lemma health_agg a p : health_ok p -> health_ok (set_agg a p).
Proof. done. Qed.

Create HintDb health.
#[local] Hint Resolve health_set health_inc health_pset health_agg : health.

Lemma health_pressure bytes now p : health_ok p -> health_ok (updateSpoolPressure bytes now p).
Proof.
  intros H. unfold updateSpoolPressure. destruct (Observe _ _ _) as [b s]. apply health_set. do 2 (apply health_pset; [done|]). done.
Qed.
#[local] Hint Resolve health_pressure : health.

(** A computation after which [f] of its result is healthy or not as it should be. *)
Definition yields {A} (f : A -> Prop) (m : io A) : Prop := forall w a w', m w = (Ok a, w') -> f a.

Lemma yields_ret {A} (f : A -> Prop) a : f a -> yields f (ret a).
Proof. by intros Hf w b w' [= <- _]. Qed.
Lemma yields_bind {A B} (f : A -> Prop) (g : B -> Prop) (m : io A) (k : A -> io B) :
  yields f m -> (forall a, f a -> yields g (k a)) -> yields g (bind m k).
Proof. intros Hm Hk w b w' E. apply bind_ok in E as (a & w1 & E1 & E). eapply Hk; [by eapply Hm|exact E]. Qed.
Lemma yields_any {A} (m : io A) : yields (fun _ => True) m.
Proof. done. Qed.

(** After a step of which nothing matters. *)
Ltac skip x := apply (yields_bind (fun _ => True)); [apply yields_any|intros x _].

Lemma health_refresh t p : health_ok p -> yields health_ok (refreshSpoolMetrics t p).
Proof.
  intros H. unfold refreshSpoolMetrics. skip x. destruct x as [e|m]; [apply yields_ret; auto with health|]. cbv zeta. skip x.
  assert (health_ok (if (0 <? RemovedQuarantine m)%nat
    then pinc (RetentionRemoved (str "quarantine_quota")) (Z.of_nat (RemovedQuarantine m))
           (if (0 <? ExpiredReadyFiles m)%nat then pinc (RetentionRemoved (str "spool_expired")) (Z.of_nat (ExpiredReadyFiles m)) p else p)
    else if (0 <? ExpiredReadyFiles m)%nat then pinc (RetentionRemoved (str "spool_expired")) (Z.of_nat (ExpiredReadyFiles m)) p else p)) as Hp
    by by repeat case_match.
  destruct x as [e|s]; apply yields_ret; auto 10 with health.
Qed.

Lemma health_finish {A} t p (f : A -> Pipeline) g :
  (forall q, f (g q) = q) -> health_ok p -> yields (fun x => health_ok (f x)) (let* q := refreshSpoolMetrics t p in ret (g q)).
Proof. intros Hg Hp. eapply yields_bind; [by apply health_refresh|]. intros q Hq. apply yields_ret. by rewrite Hg. Qed.

Lemma health_flush marshal at_ rnd t p : health_ok p -> yields (fun x => health_ok x.2) (FlushOnce marshal at_ rnd t p).
Proof.
  intros H. unfold FlushOnce. skip x. destruct x as [a series]. cbv zeta. destruct series as [|s l]; [by apply health_finish; auto with health|].
  destruct (encodeCustomBatches _ _ _) as [[e|payloads]|]; [apply yields_ret; cbn [snd]; auto 10 with health| |by intros w x w'].
  skip x. destruct x as [e|files]; (apply health_finish; [done|auto 10 with health]).
Qed.

Lemma health_replay Decode Unmarshal url_valid t p n :
  health_ok p -> yields (fun x => health_ok x.2) (ReplayOnce Decode Unmarshal url_valid t p n).
Proof.
  intros H. unfold ReplayOnce. cbv zeta. skip x. destruct x as [e|[file|]]; [apply yields_ret; cbn [snd]; auto with health| |by apply yields_ret].
  skip x. destruct x as [count|].
  - skip x. destruct x as [[[d code] err] n']. destruct d.
    + skip x. destruct x as [e|q]; [apply yields_ret; cbn [snd]|apply health_finish; [done|]]; auto 10 with health.
    + apply health_finish; [done|]. destruct (_ || _); auto 10 with health.
    + skip x. destruct x as [e|q]; [apply yields_ret; cbn [snd]|apply health_finish; [done|destruct (_ || _)]]; auto 10 with health.
  - skip x. destruct x as [e|q]; [apply yields_ret; cbn [snd]|apply health_finish; [done|]]; auto 10 with health.
Qed.

(** Any number of events of the loop, or until it returns. *)
Fixpoint run_events marshal Decode Unmarshal url_valid (l : list event) (s : loop) : io (option loop) :=
  match l with
  | [] => ret (Some s)
  | e :: l =>
      let* s := run_step marshal Decode Unmarshal url_valid e s in
      match s with Some s => run_events marshal Decode Unmarshal url_valid l s | None => ret None end
  end.

(** Throughout the loop, whatever fails, the pipeline is healthy exactly when all its
    components are, and the gauges show the health of the pipeline and of each component. *)
Theorem health_faithful marshal Decode Unmarshal url_valid c a s sender p n events w s' w' :
  NewPipeline c a s sender = inr p ->
  run_events marshal Decode Unmarshal url_valid events (start_loop p n) w = (Ok (Some s'), w') -> health_ok (pipeline s').
Proof.
  intros Hp. assert (health_ok p) as H0.
  { unfold NewPipeline in Hp. destruct (PipelineConfig_Validate c); [done|]. by injection Hp as <-. }
  assert (forall s0, health_ok (pipeline s0) ->
    yields (fun x => match x with Some s => health_ok (pipeline s) | None => True end) (run_events marshal Decode Unmarshal url_valid events s0)) as H.
  { induction events as [|e events IH]; intros s0 Hs; cbn [run_events]; [by apply yields_ret|].
    apply (yields_bind (fun x => match x with Some s => health_ok (pipeline s) | None => True end)).
    - destruct e as [|at_ rnd t|t r]; cbn [run_step]; [by apply yields_ret| |].
      + eapply yields_bind; [by apply health_flush|]. intros [x q] Hq. by apply yields_ret.
      + eapply yields_bind; [by apply health_replay|]. intros [[x n'] q] Hq. by apply yields_ret.
    - intros [s1|] Hs1; [by apply IH|by apply yields_ret]. }
  intros E. by apply (H (start_loop p n) H0 w (Some s') w').
Qed.

Definition demo_agg : Aggregator := MkAggregator (MkAggregationConfig [] [] 1 1 1) ∅ [] 0 0 ∅ 0 None.
Definition demo_new : Pipeline :=
  MkPipeline demo_retry_config demo_agg (MkCustomSpool 100 100 100) (MkCustomSender (str "http://collector/") [])
    (MkPipelineMetrics (fun _ => 0) (fun g => match g with PipelineHealthy | ComponentHealthy _ => one | _ => zero end))
    false true (fun _ => true) (newPressureState (of_decimal false 8 (-1)) 300000000000) 0.

Lemma health_faithful_witness :
  let run := run_events demo_marshal demo_decode demo_unmarshal (fun _ => true) [Retry (MkClock 1 2 3 4) zero] (start_loop demo_new (MkNet [] []))
      (MkWorld (MkFs ∅ ∅ []) [Fails 0]) in
  exists s', run.1 = Ok (Some s') /\ health_ok (pipeline s').
Proof.
  intros run. assert (match run.1 with Ok (Some _) => true | _ => false end = true) as E by (vm_compute; reflexivity).
  destruct (run.1) as [[s'|]|e|] eqn:Er; try discriminate. exists s'. split; [reflexivity|].
  apply (health_faithful demo_marshal demo_decode demo_unmarshal (fun _ => true) demo_retry_config demo_agg (MkCustomSpool 100 100 100)
    (MkCustomSender (str "http://collector/") []) demo_new (MkNet [] []) [Retry (MkClock 1 2 3 4) zero] (MkWorld (MkFs ∅ ∅ []) [Fails 0]) s' run.2).
  - reflexivity.
  - rewrite <-Er. apply surjective_pairing.
Defined.

End StatsdPipelineSpec.
