(* ===== verification/StatsdDelivery.v ===== *)
(** * DogStatsD: what the pipeline promises

    Whatever fails: a window is given up only when it is in the spool; a file leaves the
    queue only when it was delivered, rejected or too old. *)

From stdpp Require Import sorting.
From S2P Require Import Prelude GoLib GoText GoFloat GoUtf8 Statsd StatsdSpec StatsdPolicy StatsdPolicySpec StatsdAggregator StatsdAggregatorSpec.
From S2P Require Import StatsdSpool StatsdSpoolSpec StatsdSpoolQueue StatsdSpoolFifo StatsdSpoolRetention StatsdPipeline StatsdPipelineSpec.

Module StatsdDelivery.
Import GoText GoFloat GoUtf8 Statsd StatsdSpec StatsdPolicy StatsdPolicySpec StatsdAggregator StatsdAggregatorSpec.
Import StatsdSpool StatsdSpoolSpec StatsdSpoolQueue StatsdSpoolRetention StatsdPipeline StatsdPipelineSpec.

(** ** Computations *)

Lemma bind_inv {A B} (m : io A) (k : A -> io B) w r w' :
  bind m k w = (r, w') ->
  (exists a w1, m w = (Ok a, w1) /\ k a w1 = (r, w')) \/
  (exists e, m w = (Err e, w') /\ r = Err e) \/ (m w = (Crashed, w') /\ r = Crashed).
Proof. unfold bind. destruct (m w) as [[a|e|] w1]; [eauto|intros [= <- <-]..]; eauto. Qed.

Lemma attempt_inv {A} (m : io A) w r w' :
  attempt m w = (r, w') ->
  (exists a, m w = (Ok a, w') /\ r = Ok (inr a)) \/ (exists e, m w = (Err e, w') /\ r = Ok (inl e)) \/ (m w = (Crashed, w') /\ r = Crashed).
Proof. unfold attempt. destruct (m w) as [[a|e|] w1]; intros [= <- <-]; eauto. Qed.

Lemma stays_attempt {A} R (m : io A) : stays R m -> stays R (attempt m).
Proof. intros Hm w. specialize (Hm w). unfold attempt. by destruct (m w) as [[] w1]. Qed.

(** Faults are used up one by one. *)
Definition uses {A} (m : io A) : Prop := forall w, faults (m w).2 `suffix_of` faults w.

Lemma uses_ret {A} (a : A) : uses (ret a).
Proof. by intros w. Qed.
Lemma uses_raise {A} e : uses (raise e : io A).
Proof. by intros w. Qed.
Lemma uses_bind {A B} (m : io A) (k : A -> io B) : uses m -> (forall a, uses (k a)) -> uses (bind m k).
Proof. intros Hm Hk w. specialize (Hm w). unfold bind. destruct (m w) as [[a|e|] w1]; [|done..]. etransitivity; [apply Hk|done]. Qed.
Lemma uses_call {A} (f : fs -> option (A * fs)) g : uses (call f g).
Proof.
  intros [d l]. unfold call. cbn [disk faults]. destruct l as [|x l]; [by destruct (f d) as [[a d']|]|].
  assert (l `suffix_of` x :: l) by (by exists [x]). destruct x; cbn; [|done..]. by destruct (f d) as [[a d']|].
Qed.

Lemma uses_Oldest : uses Oldest.
Proof.
  apply uses_bind; [|intros; apply uses_ret]. apply uses_bind; [apply uses_call|intros entries]. apply uses_bind; [|intros; apply uses_ret].
  induction entries as [|[name []] entries IH]; cbn [files_of]; [apply uses_ret| | |done].
  - apply uses_bind; [done|intros; apply uses_ret].
  - destruct (is_batch name); [|done]. apply uses_bind; [apply uses_call|intros [|c chunks]]; [apply uses_raise|].
    destruct (forallb _ _); [|apply uses_raise]. apply uses_bind; [done|intros; apply uses_ret].
Qed.

Lemma query_err {A} (f : fs -> option A) w e w' : query f w = (Err e, w') -> f (disk w) = None \/ exists k, Fails k ∈ faults w.
Proof.
  unfold query, call. destruct w as [d l]. cbn [disk faults]. destruct l as [|[| k |] l]; [| |right; exists k; left|done];
    destruct (f d); cbn; [done|by left|done|by left].
Qed.

(** ** The parts of the pipeline that do not change *)

Definition same_parts (p p' : Pipeline) : Prop :=
  pcfg p' = pcfg p /\ pagg p' = pagg p /\ pspool p' = pspool p /\ psender p' = psender p.

#[global] Instance same_parts_refl : Reflexive same_parts.
Proof. done. Qed.
#[global] Instance same_parts_trans : Transitive same_parts.
Proof. intros a b c (?&?&?&?) (?&?&?&?). split_and!; congruence. Qed.

Lemma pressure_same bytes now p : same_parts p (updateSpoolPressure bytes now p).
Proof. unfold updateSpoolPressure. by destruct (Observe _ _ _). Qed.

Lemma refresh_spec t p w r w' :
  refreshSpoolMetrics t p w = (r, w') ->
  kept (maintain_time t - maxAge (pspool p)) (disk w) (disk w') /\
  match r with Ok p' => same_parts p p' | Err _ => False | Crashed => True end.
Proof.
  intros E. set (cutoff := maintain_time t - maxAge (pspool p)).
  pose proof (stays_Maintain (pspool p) (maintain_time t) w) as Hk. fold cutoff in Hk. unfold refreshSpoolMetrics in E.
  apply bind_inv in E as [(m & w1 & Em & E)|[(e & Em & ->)|[Em ->]]]; apply attempt_inv in Em as [(a & Em & Er)|[(e' & Em & Er)|[Em Er]]];
    try done; rewrite Em in Hk; cbn [snd] in Hk; try injection Er as ->; [| |by split].
  - apply bind_inv in E as [(st & w2 & Es & E)|[(e & Es & ->)|[Es ->]]]; apply attempt_inv in Es as [(b & Es & Er)|[(e' & Es & Er)|[Es Er]]];
      try done; pose proof (stays_stats (stats_time t) w1) as Hs; unfold Stats in Es; rewrite Es in Hs; cbn [snd] in Hs; rewrite Hs in Hk;
      try injection Er as ->; [| |by split].
    + injection E as <- <-. split; [done|]. etransitivity; [|apply pressure_same]. by repeat case_match.
    + injection E as <- <-. split; [done|]. by repeat case_match.
  - injection E as <- <-. by split.
Qed.

(** ** Replay *)

Section replay.
Context (marshal : list TimeSeries -> option bytes) (Decode : bytes -> option bytes) (Unmarshal : bytes -> option (list TimeSeries))
  (url_valid : bytes -> bool).

(** The samples in a payload; [None] if it is corrupt or has none. *)
Definition sample_count (b : bytes) : option nat :=
  let? payload := Decode b else None in
  let? series := Unmarshal payload else None in
  match sum_list_with (fun s => length (Samples s)) series with O => None | count => Some count end.

Definition request_for (p : Pipeline) (b : bytes) : request := MkRequest (endpoint (psender p)) (request_header (psender p)) b.

(** A status of the collector that takes the payload, and one that rejects it for good. *)
Definition accepts (code : Z) : Prop := 200 <= code < 300.
Definition rejects (code : Z) : Prop := (code < 200 \/ 300 <= code < 500) /\ code ∉ [401; 403; 408; 429].

Lemma classify_accepts code : classifyHTTPStatus code = SendSuccess <-> accepts code.
Proof.
  unfold classifyHTTPStatus, accepts. destruct (Z.leb_spec 200 code), (Z.ltb_spec code 300); cbn [andb];
    first [by split; [lia|]|split; [by case_match|lia]].
Qed.

Lemma classify_rejects code : classifyHTTPStatus code = SendPermanent -> rejects code.
Proof.
  unfold classifyHTTPStatus, rejects. rewrite !not_elem_of_cons.
  destruct (Z.leb_spec 200 code), (Z.ltb_spec code 300), (Z.eqb_spec code 401), (Z.eqb_spec code 403), (Z.eqb_spec code 408),
    (Z.eqb_spec code 429), (Z.leb_spec 500 code); cbn [andb orb]; try done; intros _; split_and!; try lia; apply not_elem_of_nil.
Qed.

(** The payload [b] was sent, and the collector answered [code]. *)
Definition answered (p : Pipeline) (n n' : net) (b : bytes) (code : Z) : Prop :=
  exists rest, replies n = Some code :: rest /\ n' = MkNet rest (requests n ++ [(request_for p b, Some code)]).

Lemma ReadFile_ok file w s w' : ReadFile file w = (Ok s, w') -> exists f, lookup_file (disk w) file = Some f /\ data f = s /\ disk w' = disk w.
Proof.
  intros [E D]%query_ok. destruct (lookup_file (disk w) file) as [f|]; cbn in E; [|done]. injection E as <-. by exists f.
Qed.

Lemma stays_count file : stays eq (customPayloadSampleCount Decode Unmarshal file).
Proof.
  apply stays_bind; [congruence| |intros; by apply stays_ret]. apply stays_bind; [congruence| |intros; by apply stays_ret].
  by apply stays_attempt, stays_query.
Qed.

Lemma count_ok file w c w' :
  customPayloadSampleCount Decode Unmarshal file w = (Ok c, w') ->
  (exists f, lookup_file (disk w) file = Some f /\ c = sample_count (data f)) \/ (c = None /\ exists e w1, ReadFile file w = (Err e, w1)).
Proof.
  intros E. apply bind_ok in E as (r & w1 & E1 & E2). injection E2 as <- _. apply bind_ok in E1 as (x & w2 & E1 & E2). injection E2 as <- _.
  apply attempt_inv in E1 as [(s & E1 & [= ->])|[(e & E1 & [= ->])|[_ ?]]]; [| |done].
  - left. apply ReadFile_ok in E1 as (f & Hf & <- & _). exists f. split; [done|]. unfold sample_count. by destruct (Decode (data f)).
  - right. split; [done|]. eauto.
Qed.

Lemma stays_SendFile s file n : stays eq (SendFile url_valid s file n).
Proof.
  apply stays_bind; [congruence|by apply stays_attempt, stays_query|intros [e|[]]; [by apply stays_ret|]].
  destruct (negb _); [by apply stays_ret|]. apply stays_bind; [congruence|by apply stays_attempt, stays_query|intros [e|b]; [by apply stays_ret|]].
  destruct (Do _ n) as [[code|] n']; [|by apply stays_ret]. destruct (classifyHTTPStatus code); by apply stays_ret.
Qed.

Lemma SendFile_ok p file n w d code err n' w' :
  SendFile url_valid (psender p) file n w = (Ok (d, code, err, n'), w') -> d <> SendRetry ->
  (url_valid (endpoint (psender p)) = false /\ d = SendPermanent) \/
  exists f, lookup_file (disk w) file = Some f /\ answered p n n' (data f) code /\ classifyHTTPStatus code = d.
Proof.
  intros E Hd. apply bind_ok in E as (x & w1 & E1 & E). pose proof (stays_attempt eq _ (stays_query eq (fun _ => eq_refl) (fun d => (fun _ => tt) <$> lookup_file d file)) w) as D1.
  change (attempt (query _)) with (attempt (Open_file file)) in D1. rewrite E1 in D1. cbn [snd] in D1.
  destruct x as [e|[]]; [by injection E as <- _ _ _ _|]. destruct (url_valid _) eqn:Eu; cbn [negb] in E; [|injection E as <- _ _ _ _; by left].
  apply bind_ok in E as (y & w2 & E2 & E). apply attempt_inv in E2 as [(b & E2 & [= ->])|[(e & E2 & [= ->])|[_ ?]]]; [| |done].
  2: by injection E as <- _ _ _ _.
  apply ReadFile_ok in E2 as (f & Hf & <- & _). rewrite <-D1 in Hf. right. exists f. split; [done|]. unfold answered, request_for, Do in *.
  destruct (replies n) as [|[c|] rest]; [by injection E as <- _ _ _ _| |by injection E as <- _ _ _ _].
  assert (code = c /\ n' = MkNet rest (requests n ++ [(MkRequest (endpoint (psender p)) (request_header (psender p)) (data f), Some c)]) /\
    classifyHTTPStatus c = d) as (-> & -> & Hc) by (destruct (classifyHTTPStatus c); by injection E as <- <- _ <- _).
  split; [|done]. by exists rest.
Qed.

(** The network after an attempt that returns. *)
Definition net_after (r : result (answer * net * Pipeline)) (n' : net) : Prop :=
  match r with Ok (_, n1, _) => n1 = n' | _ => True end.

(** Why a file may leave the queue: it was sent and accepted, or sent and rejected; the
    endpoint is no address; it is corrupt or has no sample; or the first time it was read,
    after the directory, the read failed. *)
Definition may_leave (p : Pipeline) (n : net) (w : world) (r : result (answer * net * Pipeline)) (q : path) (f : file) : Prop :=
  (exists code n', answered p n n' (data f) code /\ net_after r n' /\ (accepts code \/ rejects code)) \/
  url_valid (endpoint (psender p)) = false \/ sample_count (data f) = None \/
  exists w1 e w2, Oldest w = (Ok (Some q), w1) /\ ReadFile q w1 = (Err e, w2).

Definition cutoff (t : clock) (p : Pipeline) : Z := maintain_time t - maxAge (pspool p).

Lemma stays_refresh t q : stays (kept (maintain_time t - maxAge (pspool q))) (refreshSpoolMetrics t q).
Proof. intros w. destruct (refreshSpoolMetrics t q w) as [r w'] eqn:E. by apply refresh_spec in E as [H _]. Qed.

(** Reading steps leave the disk as it is. *)
Lemma step_same {A B} (m : io A) (k : A -> io B) w r w' :
  stays eq m -> bind m k w = (r, w') -> (exists a w1, m w = (Ok a, w1) /\ disk w1 = disk w /\ k a w1 = (r, w')) \/ disk w' = disk w.
Proof.
  intros Hm E. specialize (Hm w). apply bind_inv in E as [(a & w1 & E1 & E)|[(e & E1 & _)|[E1 _]]]; rewrite E1 in Hm; cbn [snd] in Hm;
    [left; exists a, w1; by split_and!|by right..].
Qed.

(** One file is taken out, then the spool is maintained. *)
Definition left_queue (c : Z) (file : path) (d d' : fs) : Prop :=
  exists f d1, ready d file f /\ without file d d1 /\ kept c d1 d'.

Lemma leaves {A B} c file (m : io A) (k : io_error + A -> io B) w r w' :
  (forall w r w', m w = (r, w') -> same_files (disk w) (disk w') \/ exists f, ready (disk w) file f /\ without file (disk w) (disk w')) ->
  (forall x, stays (kept c) (k x)) -> bind (attempt m) k w = (r, w') ->
  kept c (disk w) (disk w') \/ left_queue c file (disk w) (disk w').
Proof.
  intros Hm Hk E. assert (exists w1 r1, m w = (r1, w1) /\ kept c (disk w1) (disk w')) as (w1 & r1 & E1 & H1).
  { unfold bind, attempt in E. destruct (m w) as [[a|e|] w1]; eexists w1, _; (split; [done|]).
    - specialize (Hk (inr a) w1). by rewrite E in Hk.
    - specialize (Hk (inl e) w1). by rewrite E in Hk.
    - injection E as _ <-. apply kept_refl. }
  destruct (Hm _ _ _ E1) as [Hs|(f & Hf & Hw)]; [left|right; by exists f, (disk w1)].
  eapply kept_trans; [by apply kept_same|done].
Qed.

Lemma Remove_leaves file w r w' :
  Remove file w = (r, w') -> same_files (disk w) (disk w') \/ exists f, ready (disk w) file f /\ without file (disk w) (disk w').
Proof. intros E. apply Remove_cases in E as [_ [[H _]|[[f Hf] H]]]; eauto. Qed.

Lemma Quarantine_leaves file reason w r w' :
  Quarantine file reason w = (r, w') -> same_files (disk w) (disk w') \/ exists f, ready (disk w) file f /\ without file (disk w) (disk w').
Proof. intros E. apply Quarantine_cases in E as [[H _]|(f & Hf & H & _)]; eauto. Qed.

Lemma stays_finish {A} t p q (f : Pipeline -> A) :
  pspool q = pspool p -> stays (kept (cutoff t p)) (let* q' := refreshSpoolMetrics t q in ret (f q')).
Proof. unfold cutoff. intros <-. apply stays_bind; [apply kept_trans|apply stays_refresh|intros; apply stays_ret, kept_refl]. Qed.

Lemma stays_Oldest : stays eq (attempt Oldest).
Proof. apply stays_attempt, stays_bind; [congruence|apply stays_files|intros; by apply stays_ret]. Qed.

Lemma kept_ready c d d' : kept c d d' -> forall q f, (ready d' q f -> ready d q f) /\ (ready d q f -> ready d' q f \/ too_old c f = true).
Proof.
  intros Hk q f. unfold ready. destruct (Hk q) as [-> |[-> (g & [Hv Hg] & He)]]; [by auto|]. split; [by intros [_ ?]|].
  intros [_ Hf]. right. congruence.
Qed.

(** What a continuation returns, it returns with the network [n]. *)
Definition with_net (n : net) (k : io (answer * net * Pipeline)) : Prop := forall w, net_after (k w).1 n.

Lemma with_net_ret n a q : with_net n (ret (a, n, q)).
Proof. by intros w. Qed.

Lemma with_net_bind {A} n (m : io A) (k : A -> io (answer * net * Pipeline)) :
  (forall a, with_net n (k a)) -> with_net n (bind m k).
Proof. intros Hk w. unfold bind. destruct (m w) as [[a|e|] w1]; [apply Hk|done..]. Qed.

(** The oldest file is the first of the queue. *)
Lemma Oldest_first w file w1 :
  Oldest w = (Ok (Some file), w1) -> nodes_ok (top (disk w)) -> forall q g, ready (disk w) q g -> path_le file q.
Proof.
  intros E Hok q g Hq. apply bind_ok in E as (l & w2 & [El _]%honest_files & E). injection E as El' _.
  destruct (filesLocked_ok _ Hok) as (l0 & El0 & Hs & _ & Hin). rewrite El in El0. injection El0 as <-.
  destruct l as [|p l]; [done|]. injection El' as ->.
  assert (q ∈ file :: l) as [->|Hl]%elem_of_cons by (apply Hin; by exists g).
  - destruct (path_le_total file file); done.
  - apply StronglySorted_inv in Hs as [_ Hs]. by eapply Forall_forall in Hs.
Qed.

(** At most one file is taken out, the oldest, for a reason, and the rest is maintained. *)
Lemma ReplayOnce_cases t p n w r w' :
  ReplayOnce Decode Unmarshal url_valid t p n w = (r, w') ->
  kept (cutoff t p) (disk w) (disk w') \/
  exists file w1, Oldest w = (Ok (Some file), w1) /\ left_queue (cutoff t p) file (disk w) (disk w') /\
    forall f, lookup_file (disk w) file = Some f -> may_leave p n w r file f.
Proof.
  intros E. unfold ReplayOnce in E. cbv zeta in E.
  assert (disk w' = disk w -> kept (cutoff t p) (disk w) (disk w')) as Hret by (intros ->; apply kept_refl).
  apply step_same in E as [(x & w1 & E1 & D1 & E)|]; [|by auto|apply stays_Oldest].
  destruct x as [e|[file|]]; [injection E as _ <-; by auto| |injection E as _ <-; by auto].
  apply attempt_inv in E1 as [(a & Eo & [= <-])|[(e & _ & [=])|[_ [=]]]].
  apply step_same in E as [(c & w2 & E2 & D2 & E)|D]; [|left; apply Hret; congruence|apply stays_count]. rewrite <-D1, <-D2 in *.
  apply count_ok in E2. rewrite <-D2 in E2. destruct c as [count|].
  - apply step_same in E as [([[[d code] err] n'] & w3 & E3 & D3 & E)|D]; [|by auto|apply stays_SendFile]. rewrite <-D3 in *.
    destruct d.
    + assert (net_after r n') as Hnet.
      { change r with (r, w').1. rewrite <-E. apply with_net_bind. intros [e|[]]; [by intros ?|apply with_net_bind; intros; apply with_net_ret]. }
      apply (leaves (cutoff t p) file) in E as [H|H]; [by auto| |apply Remove_leaves|].
      * right. exists file, w1. split_and!; [done|done|]. intros f Hf. left. apply SendFile_ok in E3 as [[_ ?]|(f' & Hf' & Ha & Hc)]; [done| |done].
        exists code, n'. rewrite <-D3 in Hf'. assert (f' = f) as -> by congruence. split_and!; [done|done|]. left. by apply classify_accepts.
      * intros [e|[]]; [apply stays_ret, kept_refl|by apply stays_finish].
    + left. apply (f_equal (fun x => disk x.2)) in E. cbn [snd] in E. rewrite <-E. apply stays_finish. by destruct (_ || _).
    + assert (net_after r n') as Hnet.
      { change r with (r, w').1. rewrite <-E. apply with_net_bind. intros [e|q0]; [by intros ?|apply with_net_bind; intros; apply with_net_ret]. }
      apply (leaves (cutoff t p) file) in E as [H|H]; [by auto| |apply Quarantine_leaves|].
      * right. exists file, w1. split_and!; [done|done|]. intros f Hf. apply SendFile_ok in E3 as [[? _]|(f' & Hf' & Ha & Hc)]; [by right; left| |done].
        left. exists code, n'. rewrite <-D3 in Hf'. assert (f' = f) as -> by congruence. split_and!; [done|done|]. right. by apply classify_rejects.
      * intros [e|q]; [apply stays_ret, kept_refl|]. apply stays_finish. by destruct (_ || _).
  - apply (leaves (cutoff t p) file) in E as [H|H]; [by auto| |apply Quarantine_leaves|].
    + right. exists file, w1. split_and!; [done|done|]. intros f Hf. do 2 right. destruct E2 as [(f' & Hf' & Hc)|(_ & e & w3 & E2)].
      * left. congruence.
      * right. by exists w1, e, w3.
    + intros [e|q]; [apply stays_ret, kept_refl|by apply stays_finish].
Qed.


(** ** Flush *)

Definition window (at_ : Z) (a : Aggregator) : list TimeSeries :=
  match reserved a with [] => window_series at_ a | l => l end.
Definition labelled (p : Pipeline) (l : list TimeSeries) : list TimeSeries :=
  map (fun s => addExternalLabels s (ExternalLabels (pcfg p))) l.

(** The series [s'] that is sent for [s]: the same samples, and the labels, sorted by name and
    each name once: the external ones and, of other names, its own (the last of a name). *)
Record sent_as (external : gmap bytes bytes) (s s' : TimeSeries) : Prop := {
  sa_samples : Samples s' = Samples s;
  sa_sorted : StronglySorted bytes_le (map LabelName (Labels s'));
  sa_unique : NoDup (map LabelName (Labels s'));
  sa_label name value : MkLabel name value ∈ Labels s' <->
    external !! name = Some value \/
    external !! name = None /\ exists pre post, Labels s = pre ++ MkLabel name value :: post /\ name ∉ map LabelName post
}.

Lemma fold_labels (ls : list Label) (m : gmap bytes bytes) (name value : bytes) :
  fold_left (fun (m : gmap bytes bytes) l => <[LabelName l := LabelValue l]> m) ls m !! name = Some value <->
  (exists pre post, ls = pre ++ MkLabel name value :: post /\ name ∉ map LabelName post) \/
  ((name ∉ map LabelName ls) /\ m !! name = Some value).
Proof.
  revert m. induction ls as [|[n v] ls IH]; intros m; cbn [fold_left map LabelName LabelValue].
  { split; [intros H; right; split; [apply not_elem_of_nil|done]|]. by intros [([|? pre] & post & E & _)|[_ ?]]. }
  rewrite IH. split.
  - intros [(pre & post & -> & Hn)|[Hn Hm]]; [left; by exists (MkLabel n v :: pre), post|].
    apply lookup_insert_Some in Hm as [[-> ->]|[Hne Hm]]; [left; by exists [], ls|].
    right. split; [|done]. by apply not_elem_of_cons.
  - intros [([|x pre] & post & E & Hn)|[[Hne Hn]%not_elem_of_cons Hm]].
    + injection E as -> -> ->. right. split; [done|]. by rewrite lookup_insert_eq.
    + injection E as _ ->. left. by exists pre, post.
    + right. split; [done|]. by rewrite lookup_insert_ne.
Qed.

Lemma addExternalLabels_sent external s : sent_as external s (addExternalLabels s external).
Proof.
  unfold addExternalLabels. cbv zeta. set (own := fold_left _ (Labels s) ∅). split; cbn [Samples Labels].
  - done.
  - rewrite map_map. cbn [LabelName]. rewrite map_id. apply SortStrings_sorted.
  - rewrite map_map. cbn [LabelName]. rewrite map_id. apply sorted_keys_NoDup.
  - intros name value. rewrite list_elem_of_fmap. trans ((external ∪ own) !! name = Some value).
    + split.
      * intros (k & [= -> ->] & [v Hv]%sorted_keys_elem). transitivity (Some v); [exact Hv|].
        f_equal. symmetry. exact (f_equal (default []) Hv).
      * intros Hv. exists name. split; [f_equal; symmetry; exact (f_equal (default []) Hv)|]. apply sorted_keys_elem. by exists value.
    + rewrite lookup_union_Some_raw. unfold own. rewrite fold_labels, lookup_empty.
      split; [by intros [?|[? [?|[_ ?]]]]; auto|]. intros [?|[? ?]]; auto.
Qed.

Lemma labelled_sent p l : Forall2 (sent_as (ExternalLabels (pcfg p))) l (labelled p l).
Proof. unfold labelled. induction l; cbn [map]; constructor; [apply addExternalLabels_sent|done]. Qed.

(** The same files, but for those last modified before [c]. *)
Definition maintained (c : Z) (P Q : path -> file -> Prop) : Prop :=
  forall q f, (Q q f -> P q f) /\ (P q f -> Q q f \/ modified f < c).

Lemma PutBatch_ready s now rnd payloads w r w' :
  nodes_ok (top (disk w)) -> PutBatch s now rnd payloads w = (r, w') ->
  match r with
  | Ok _ => forall q f, ready (disk w') q f <-> ready (disk w) q f \/ new_file (batch_name now (temp_name rnd)) now payloads q f
  | Err _ => forall q f, ready (disk w') q f <-> ready (disk w) q f
  | Crashed => True
  end.
Proof.
  intros Hok E. apply PutBatch_cases in E as [[(Hex & _) Hr]|(_ & Hd & Hne & [-> | ->])]; [|done|].
  - destruct r as [files|e|]; [by destruct (Hr files)| |done]. by apply (except_ready rnd).
  - by apply (put_done_ready rnd now payloads (disk w)).
Qed.

Lemma kept_maintained c (P : path -> file -> Prop) d d' :
  (forall q f, ready d q f <-> P q f) -> kept c d d' -> maintained c P (ready d').
Proof.
  intros H Hk q f. rewrite <-H. destruct (kept_ready _ _ _ Hk q f) as [H1 H2]. split; [done|].
  intros [|Ho]%H2; [by left|right]. unfold too_old in Ho. lia.
Qed.

(** The window that a flush takes, and what is then in flight. *)
Lemma flush_window at_ a :
  agg_ok a -> exists a1, Snapshot at_ a = Val (a1, window at_ a) /\ reserved a1 = window at_ a.
Proof.
  intros Ha. rewrite Snapshot_spec by done. unfold window. destruct (reserved a) eqn:Er; eexists; split; done.
Qed.


(** ** A window that cannot be encoded *)

Inductive act := ARecord (now : Z) (m : Metric) (tags : gmap bytes bytes) | AFlush (at_ : Z) (rnd : bytes) (t : clock).

(** The answers of the flushes. *)
Fixpoint acts_run (l : list act) (p : Pipeline) : io (list (option flush_error) * Pipeline) :=
  match l with
  | [] => ret ([], p)
  | ARecord now m tags :: l =>
      let* (_, a) := lift (Add now m tags (pagg p)) in acts_run l (set_agg a p)
  | AFlush at_ rnd t :: l =>
      let* (e, p) := FlushOnce marshal at_ rnd t p in
      let* (es, p) := acts_run l p in ret (e :: es, p)
  end.

Definition act_ok (x : act) : Prop := match x with ARecord _ m tags => known (Type_ m) /\ tags_ok tags | AFlush _ _ _ => True end.
Definition is_flush (x : act) : bool := match x with AFlush _ _ _ => true | ARecord _ _ _ => false end.

(** A window with a series that is above the limit by itself is never given up: from then on
    every flush fails in the same way, whatever is recorded in between, and nothing that is
    recorded reaches the spool. *)
Theorem oversized_window_stuck acts p w l e :
  agg_ok (pagg p) -> reserved (pagg p) = l -> l <> [] ->
  encodeCustomBatches marshal (labelled p l) (MaxBatchBytes (pcfg p)) = Some (inl e) -> Forall act_ok acts ->
  exists p', acts_run acts p w = (Ok (repeat (Some e) (length (List.filter is_flush acts)), p'), w) /\ reserved (pagg p') = l.
Proof.
  intros Ha Hl Hne He Hacts. revert p Ha Hl He. induction Hacts as [|x acts Hx Hacts IH]; intros p Ha Hl He; [by exists p|].
  destruct x as [now m tags|at_ rnd t]; cbn [acts_run].
  - destruct Hx as [Hm Ht]. destruct (Add_ok now m tags (pagg p) Ha Hm Ht) as (r & a' & E & [Ha' Hf _ _]). rewrite E.
    erewrite bind_run by done. destruct (IH (set_agg a' p)) as (p' & E' & Hp'); [done| |done|].
    + cbn [pagg set_agg]. by rewrite (fr_reserved _ _ Hf).
    + by exists p'.
  - assert (FlushOnce marshal at_ rnd t p w = (Ok (Some e, setComponentHealthy Processing false (pinc (FlushErrors (str "batch_too_large")) 1 (set_agg (pagg p) p))), w)) as E.
    { unfold FlushOnce. assert (Snapshot at_ (pagg p) = Val (pagg p, l)) as -> by (unfold Snapshot, rotate; rewrite Hl; by destruct l).
      erewrite bind_run by done. cbv zeta. cbn [pcfg set_agg]. destruct l as [|s l]; [done|]. unfold labelled in He. by rewrite He. }
    rewrite (bind_run _ _ _ _ _ E). destruct (IH (setComponentHealthy Processing false (pinc (FlushErrors (str "batch_too_large")) 1 (set_agg (pagg p) p))))
      as (p' & E' & Hp'); [done..|]. rewrite (bind_run _ _ _ _ _ E'). by exists p'.
Qed.

End replay.

(** ** Examples *)

Definition demo_sender : CustomSender := MkCustomSender (str "http://collector/") [(str "x-api-key", str "k")].

(** A pipeline with a window in flight. *)
Definition demo_pipeline (l : list TimeSeries) (max : Z) : Pipeline :=
  MkPipeline (MkPipelineConfig 10 max ∅ 1 2 one 5) (MkAggregator demo_config ∅ l 0 0 ∅ 0 None) demo_spool demo_sender
    (MkPipelineMetrics (fun _ => 0) (fun _ => zero)) false true (fun _ => true) (newPressureState one 5) 0.

Lemma demo_pipeline_ok l max : agg_ok (pagg (demo_pipeline l max)).
Proof. split; cbn; by rewrite ?msum_empty. Qed.

Definition demo_clock : clock := MkClock 100 101 102 103.


Lemma oversized_window_stuck_witness :
  let p := demo_pipeline [demo_series 1] 1 in
  let acts := [AFlush 7 (str "9") demo_clock; ARecord 8 (demo_metric MetricTypeCounter (str "hits") 3 [] 8) ∅; AFlush 9 (str "3") demo_clock] in
  exists p', acts_run demo_marshal acts p (MkWorld empty_fs []) =
    (Ok ([Some (ErrCustomBatchTooLarge 2 1); Some (ErrCustomBatchTooLarge 2 1)], p'), MkWorld empty_fs []).
Proof.
  intros p acts. destruct (oversized_window_stuck demo_marshal acts p (MkWorld empty_fs []) [demo_series 1] (ErrCustomBatchTooLarge 2 1)) as (p' & E & _).
  - apply demo_pipeline_ok.
  - reflexivity.
  - discriminate.
  - vm_compute. reflexivity.
  - repeat (apply Forall_cons; split; [done||by split; [|apply map_Forall_empty]|]). constructor.
  - exists p'. exact E.
Defined.

(** A spool with one payload, of one sample. *)
Definition one_payload : bytes := default [] (demo_marshal [demo_series 1]).
Definition one_file : path := Sub (batch_name 100 (temp_name (str "9"))) (chunk_name 0).
Definition spool_of_one : fs := disk (PutBatch demo_spool 100 (str "9") [one_payload] (MkWorld empty_fs [])).2.

(** An error while the oldest file is read is taken for a corrupt payload: after one such
    error a sound file is out of the queue, and was not sent. *)
Theorem read_error_quarantines :
  let run := ReplayOnce demo_decode demo_unmarshal (fun _ => true) demo_clock (demo_pipeline [] 100) (MkNet [Some 200] [])
               (MkWorld spool_of_one [NoFault; NoFault; Fails 0]) in
  data <$> lookup_file spool_of_one one_file = Some one_payload /\ sample_count demo_decode demo_unmarshal one_payload = Some 1%nat /\
  (match run.1 with Ok (a, n, _) => Some (a, requests n) | _ => None end) = Some ((SendPermanent, 0, true), []) /\
  lookup_file (disk run.2) one_file = None.
Proof. vm_compute. split_and!; reflexivity. Qed.

End StatsdDelivery.
