(* ===== verification/StatsdEndToEnd.v ===== *)
(** * DogStatsD: from the window to the collector

    The aggregator, the encoding, the spool and the sender together: without faults and with a
    collector that accepts, all series of a window arrive, in order, each once. *)

From stdpp Require Import sorting.
From S2P Require Import Prelude GoLib GoText GoFloat GoUtf8 Statsd StatsdSpec StatsdPolicy StatsdPolicySpec StatsdAggregator StatsdAggregatorSpec.
From S2P Require Import StatsdSpool StatsdSpoolSpec StatsdSpoolQueue StatsdSpoolFifo StatsdSpoolRetention.
From S2P Require Import StatsdPipeline StatsdPipelineSpec StatsdDelivery.

Module StatsdEndToEnd.
Import GoText GoFloat GoUtf8 Statsd StatsdSpec StatsdPolicy StatsdPolicySpec StatsdAggregator StatsdAggregatorSpec.
Import StatsdSpool StatsdSpoolSpec StatsdSpoolQueue StatsdSpoolFifo StatsdSpoolRetention.
Import StatsdPipeline StatsdPipelineSpec StatsdDelivery.

(** ** Maintenance when nothing is too old *)

Definition all_fresh (c : Z) (d : fs) : Prop := forall p f, ready d p f -> c <= modified f.

Lemma attempt_run {A} (m : io A) w a w' : m w = (Ok a, w') -> attempt m w = (Ok (inr a), w').
Proof. unfold attempt. by intros ->. Qed.

Lemma expire_none c files d n :
  (forall p, p ∈ files -> exists f, ready d p f) -> all_fresh c d -> expire c files n (MkWorld d []) = (Ok n, MkWorld d []).
Proof.
  intros Hin Hf. induction files as [|p files IH]; [done|]. cbn [expire]. destruct (Hin p) as [f Hp]; [by left|].
  assert (Stat p (MkWorld d []) = (Ok (file_size f, modified f), MkWorld d [])) as E by (apply query_run; destruct Hp as [_ Hp]; by rewrite Hp).
  rewrite (bind_run _ _ _ _ _ E). specialize (Hf p f Hp). destruct (Z.ltb_spec (modified f) c); [lia|].
  apply IH. intros p' Hp'. apply Hin. by right.
Qed.

Lemma Maintain_idle s now d :
  nodes_ok (top d) -> 0 <= maxQuarantineBytes s -> all_fresh (now - maxAge s) d ->
  exists res d', Maintain s now (MkWorld d []) = (Ok res, MkWorld d' []) /\ top d' = top d.
Proof.
  intros Hok Hmax Hf. destruct (filesLocked_ok d Hok) as (l & El & _ & _ & Hin).
  destruct (quarantine_items d) as (entries & items & Er & Em & Hni & Hm & Hk).
  destruct (trim_quarantine (maxQuarantineBytes s) d items) as (n & d' & Et & Htop & _); [done..|].
  exists (MkMaintenanceResult 0 n), d'. split; [|done]. unfold Maintain. rewrite (bind_run _ _ _ _ _ El).
  rewrite (bind_run _ _ _ _ _ (expire_none (now - maxAge s) l d 0 (fun p => proj1 (Hin p)) Hf)).
  rewrite (bind_run _ _ _ _ _ Er), (bind_run _ _ _ _ _ Em). cbv zeta. by rewrite (bind_run _ _ _ _ _ Et).
Qed.

Lemma ready_top d d' p f : top d' = top d -> ready d' p f <-> ready d p f.
Proof. intros E. unfold ready. destruct p; cbn [lookup_file]; by rewrite E. Qed.

Lemma payloads_top now d d' q : top d' = top d -> payloads_of now d q -> payloads_of now d' q.
Proof.
  intros E (H1 & H2 & l & (Hs & Hnd & Hin) & H4 & H5). split_and!; [by rewrite E|by rewrite E|]. exists l.
  split_and!; [split_and!; [done|done|]|done|].
  - intros p. rewrite Hin. by setoid_rewrite (ready_top d d' p _ E).
  - eapply content_same; [exact H5|]. intros p _. destruct p; cbn [lookup_file]; by rewrite E.
Qed.

Lemma refresh_run t p d :
  nodes_ok (top d) -> 0 <= maxQuarantineBytes (pspool p) -> all_fresh (cutoff t p) d ->
  exists p' d', refreshSpoolMetrics t p (MkWorld d []) = (Ok p', MkWorld d' []) /\ top d' = top d /\ same_parts p p'.
Proof.
  intros Hok Hmax Hf. destruct (Maintain_idle (pspool p) (maintain_time t) d Hok Hmax Hf) as (res & d' & E & Htop).
  destruct (statsLocked_run (stats_time t) d') as (st & l & Es & _); [by rewrite Htop|].
  destruct (refreshSpoolMetrics t p (MkWorld d [])) as [r w'] eqn:Er.
  pose proof (refresh_spec _ _ _ _ _ Er) as [_ Hsame]. unfold refreshSpoolMetrics in Er.
  rewrite (bind_run _ _ _ _ _ (attempt_run _ _ _ _ E)) in Er. unfold Stats in Er.
  cbv zeta in Er. rewrite (bind_run _ _ _ _ _ (attempt_run _ _ _ _ Es)) in Er. injection Er as <- <-.
  eexists _, d'. by split_and!.
Qed.

(** ** One file *)

Section end_to_end.
Context (marshal : list TimeSeries -> option bytes) (Decode : bytes -> option bytes) (Unmarshal : bytes -> option (list TimeSeries))
  (url_valid : bytes -> bool).

#[local] Abbreviation ReplayOnce := (ReplayOnce Decode Unmarshal url_valid).
#[local] Abbreviation FlushOnce := (FlushOnce marshal).

Lemma count_run d file f : lookup_file d file = Some f ->
  customPayloadSampleCount Decode Unmarshal file (MkWorld d []) = (Ok (sample_count Decode Unmarshal (data f)), MkWorld d []).
Proof.
  intros Hf. assert (ReadFile file (MkWorld d []) = (Ok (data f), MkWorld d [])) as E by (apply query_run; by rewrite Hf).
  unfold customPayloadSampleCount, readCustomPayload, sample_count. erewrite bind_run; [|rewrite (bind_run _ _ _ _ _ (attempt_run _ _ _ _ E)); reflexivity].
  unfold ret. by destruct (Decode (data f)).
Qed.

Lemma send_run p d file f n code rest :
  lookup_file d file = Some f -> url_valid (endpoint (psender p)) = true -> replies n = Some code :: rest ->
  classifyHTTPStatus code = SendSuccess ->
  SendFile url_valid (psender p) file n (MkWorld d []) =
  (Ok (SendSuccess, code, false, MkNet rest (requests n ++ [(request_for p (data f), Some code)])), MkWorld d []).
Proof.
  intros Hf Hu Hn Hc. unfold SendFile. assert (Open_file file (MkWorld d []) = (Ok tt, MkWorld d [])) as E1 by (apply query_run; by rewrite Hf).
  assert (ReadFile file (MkWorld d []) = (Ok (data f), MkWorld d [])) as E2 by (apply query_run; by rewrite Hf).
  rewrite (bind_run _ _ _ _ _ (attempt_run _ _ _ _ E1)), Hu. cbn [negb]. rewrite (bind_run _ _ _ _ _ (attempt_run _ _ _ _ E2)).
  unfold Do. rewrite Hn. cbv beta iota zeta. by rewrite Hc.
Qed.

Lemma replay_run t p n now d b q c code rest :
  payloads_of now d (b :: q) -> all_fresh (cutoff t p) d -> 0 <= maxQuarantineBytes (pspool p) ->
  sample_count Decode Unmarshal b = Some c -> url_valid (endpoint (psender p)) = true ->
  replies n = Some code :: rest -> classifyHTTPStatus code = SendSuccess ->
  exists p' d', ReplayOnce t p n (MkWorld d []) =
    (Ok (SendSuccess, code, false, MkNet rest (requests n ++ [(request_for p b, Some code)]), p'), MkWorld d' []) /\
    payloads_of now d' q /\ same_parts p p' /\ forall p f, ready d' p f -> ready d p f.
Proof.
  intros Hp Hf Hmax Hc Hu Hn Hcode. destruct (oldest_payload now d b q Hp) as (file & f & d1 & Eo & [Hv Hl] & Hb & Er & Hp1 & Hw).
  assert (forall p f, ready d1 p f -> ready d p f) as Hsub by (intros p0 f0 H; apply (without_ready file d d1 Hw) in H as [H _]; done).
  subst b. unfold StatsdPipeline.ReplayOnce. cbv zeta. rewrite (bind_run _ _ _ _ _ (attempt_run _ _ _ _ Eo)).
  rewrite (bind_run _ _ _ _ _ (count_run d file f Hl)), Hc. rewrite (bind_run _ _ _ _ _ (send_run p d file f n code rest Hl Hu Hn Hcode)).
  cbv beta iota. rewrite (bind_run _ _ _ _ _ (attempt_run _ _ _ _ Er)).
  set (p1 := setComponentHealthy Authentication true _).
  destruct (refresh_run t p1 d1) as (p' & d' & E & Htop & Hsame); [apply Hp1|done|intros p0 f0 H; by apply (Hf p0 f0), Hsub|].
  exists p', d'. split_and!; [by rewrite (bind_run _ _ _ _ _ E)|by apply (payloads_top now d1)| |].
  - etransitivity; [|exact Hsame]. done.
  - intros p0 f0 H. apply Hsub. by apply (ready_top d1 d').
Qed.

(** ** All files *)

Fixpoint replay_all (ts : list clock) (p : Pipeline) (n : net) : io (list answer * net * Pipeline) :=
  match ts with
  | [] => ret ([], n, p)
  | t :: ts =>
      let* (a, n, p) := ReplayOnce t p n in
      let* (l, n, p) := replay_all ts p n in ret (a :: l, n, p)
  end.

Lemma replay_all_run ts p n now d q codes rest :
  payloads_of now d q -> Forall (fun t => all_fresh (cutoff t p) d) ts -> 0 <= maxQuarantineBytes (pspool p) ->
  Forall (fun b => sample_count Decode Unmarshal b <> None) q -> url_valid (endpoint (psender p)) = true ->
  length ts = length q -> length codes = length q -> replies n = map Some codes ++ rest -> Forall accepts codes ->
  exists p' d', replay_all ts p n (MkWorld d []) =
    (Ok (map (fun code => (SendSuccess, code, false)) codes,
         MkNet rest (requests n ++ zip_with (fun b code => (request_for p b, Some code)) q codes), p'), MkWorld d' []) /\
    payloads_of now d' [] /\ same_parts p p'.
Proof.
  revert ts p n d codes. induction q as [|b q IH]; intros ts p n d codes Hp Hf Hmax Hc Hu Hts Hcl Hn Hcodes.
  { destruct ts, codes; try done. exists p, d. split_and!; [|done|done]. destruct n as [rs qs]. cbn in Hn |- *. by rewrite app_nil_r, Hn. }
  destruct ts as [|t ts], codes as [|code codes]; try done. apply Forall_cons in Hf as [Hf0 Hf], Hc as [Hc0 Hc], Hcodes as [Hcode Hcodes].
  destruct (sample_count Decode Unmarshal b) as [c|] eqn:Eb; [|done].
  destruct (replay_run t p n now d b q c code (map Some codes ++ rest)) as (p1 & d1 & E & Hp1 & Hsame & Hsub); [done..|by apply classify_accepts|].
  destruct (Hsame) as (E1 & E2 & E3 & E4). cbn [length] in Hts, Hcl.
  destruct (IH ts p1 (MkNet (map Some codes ++ rest) (requests n ++ [(request_for p b, Some code)])) d1 codes) as (p' & d' & E' & Hp' & Hsame').
  - done.
  - eapply Forall_impl; [exact Hf|]. intros t' Ht p0 f0 H. unfold cutoff in *. rewrite E3. by apply (Ht p0 f0), Hsub.
  - by rewrite E3.
  - done.
  - by rewrite E4.
  - lia.
  - lia.
  - done.
  - done.
  - exists p', d'. split_and!; [|done|by etransitivity]. cbn [replay_all]. rewrite (bind_run _ _ _ _ _ E), (bind_run _ _ _ _ _ E').
    unfold ret. cbn [requests map zip_with]. rewrite <-app_assoc. unfold request_for. rewrite E4. done.
Qed.

(** ** The whole *)

Lemma no_payload_ready now d : payloads_of now d [] -> forall p f, ~ ready d p f.
Proof.
  intros (_ & _ & l & (_ & _ & Hin) & _ & Hc) p f Hr. apply Forall2_nil_inv_r in Hc as ->. assert (p ∈ []) as H by (apply Hin; by exists f).
  by apply elem_of_nil in H.
Qed.

Lemma batches_count max series payloads : batches marshal max series payloads -> (length payloads <= length series)%nat.
Proof.
  induction 1 as [|chunk payload rest payloads Hne _ H IH]; [done|].
  rewrite length_app. destruct chunk; [done|]. cbn [length]. lia.
Qed.

Lemma batches_samples max series payloads :
  codec_ok marshal Decode Unmarshal -> batches marshal max series payloads -> Forall (fun s => Samples s <> []) series ->
  Forall (fun b => sample_count Decode Unmarshal b <> None) payloads.
Proof.
  intros Hc. induction 1 as [|chunk payload rest payloads Hne [Hm _] H IH]; intros Hs; constructor.
  - unfold sample_count. destruct (Hc _ _ Hm) as (b & -> & ->). apply Forall_app in Hs as [Hs _]. destruct chunk as [|s chunk]; [done|].
    apply Forall_cons in Hs as [Hs _]. cbn. by destruct (Samples s).
  - apply IH. by apply Forall_app in Hs as [_ Hs].
Qed.

(** What the flush of a window does to an empty spool. *)
Lemma flush_run at_ rnd t p now d payloads :
  agg_ok (pagg p) -> reserved (pagg p) = [] -> window_series at_ (pagg p) <> [] ->
  encodeCustomBatches marshal (labelled p (window_series at_ (pagg p))) (MaxBatchBytes (pcfg p)) = Some (inr payloads) ->
  payloads_of now d [] -> 0 <= now <= put_time t -> put_time t < 10 ^ 20 -> batch_valid_input payloads ->
  payload_bytes payloads <= maxBytes (pspool p) -> cutoff t p <= put_time t -> 0 <= maxQuarantineBytes (pspool p) ->
  exists p' d', FlushOnce at_ rnd t p (MkWorld d []) = (Ok (None, p'), MkWorld d' []) /\
    payloads_of (put_time t + 1) d' payloads /\ same_parts (set_agg (pagg p') p) p' /\ reserved (pagg p') = [] /\ series (pagg p') = ∅ /\
    forall q f, ready d' q f -> modified f = put_time t.
Proof.
  intros Ha Hr Hw He Hp Hn Ht Hv Hroom Hcut Hq.
  pose proof (put_payloads (pspool p) now (put_time t) rnd payloads d [] Hp Hv Hn Ht) as Hput.
  rewrite (proj2 (Z.leb_le _ _)) in Hput by (cbn; lia). destruct Hput as (files & d1 & E1 & Hp1). cbn [app] in Hp1.
  pose proof (PutBatch_ready _ _ _ _ _ _ _ (proj1 Hp : nodes_ok (top (disk (MkWorld d [])))) E1) as Hready. cbn [disk] in Hready.
  assert (forall q f, ready d1 q f -> modified f = put_time t) as Hmod.
  { intros q f [H|(i & x & _ & _ & ->)]%Hready; [by apply (no_payload_ready now d Hp) in H|done]. }
  unfold StatsdPipeline.FlushOnce. rewrite Snapshot_spec, Hr by done. erewrite bind_run by done. cbv zeta.
  cbn [pcfg set_agg]. unfold labelled in He. destruct (window_series at_ (pagg p)) as [|s0 l0]; [done|]. rewrite He.
  rewrite (bind_run _ _ _ _ _ (attempt_run _ _ _ _ E1)). set (p1 := setComponentHealthy Spool true _).
  destruct (refresh_run t p1 d1) as (p' & d' & E & Htop & Hsame); [apply Hp1|done|intros q f H; rewrite (Hmod q f H); done|].
  exists p', d'. rewrite (bind_run _ _ _ _ _ E). destruct (Hsame) as (S1 & S2 & S3 & S4).
  split_and!; [done|by apply (payloads_top _ d1)|by split_and!|by rewrite S2|by rewrite S2|]. intros q f H. by apply (Hmod q), (ready_top d1 d').
Qed.

(** C4: Without faults a window arrives.  If every series of it fits into a batch by itself and
    the encoded batches fit together into the spool, which is empty, the flush empties the window,
    and as many attempts as there are batches, each answered with a status from 200 to 299, send
    exactly the batches, in order, each once; what they decode to, one after the other, are
    the series of the window, each with its samples, its labels and the external labels; the
    spool is empty again.  (The codec is the inverse of the encoder and encodes every list of
    series to some bytes, the window has less than a million series, nothing gets too old
    before it is sent, and the endpoint is a URL.) *)
Theorem window_delivered at_ rnd t p now d :
  codec_ok marshal Decode Unmarshal -> (forall s b, marshal s = Some b -> b <> []) -> (forall s, marshal s <> None) ->
  agg_ok (pagg p) -> reserved (pagg p) = [] -> window_series at_ (pagg p) <> [] ->
  Z.of_nat (length (window_series at_ (pagg p))) < 10 ^ 6 ->
  (forall s s' b, s ∈ window_series at_ (pagg p) -> sent_as (ExternalLabels (pcfg p)) s s' -> marshal [s'] = Some b ->
     Z.of_nat (length b) <= MaxBatchBytes (pcfg p)) ->
  (forall sent payloads, Forall2 (sent_as (ExternalLabels (pcfg p))) (window_series at_ (pagg p)) sent ->
     encodeCustomBatches marshal sent (MaxBatchBytes (pcfg p)) = Some (inr payloads) ->
     payload_bytes payloads <= maxBytes (pspool p)) ->
  payloads_of now d [] -> 0 <= now <= put_time t -> put_time t < 10 ^ 20 -> cutoff t p <= put_time t ->
  0 <= maxQuarantineBytes (pspool p) -> url_valid (endpoint (psender p)) = true ->
  exists payloads chunks p1 d1,
    FlushOnce at_ rnd t p (MkWorld d []) = (Ok (None, p1), MkWorld d1 []) /\
    Forall2 (decodes Decode Unmarshal) payloads chunks /\
    Forall2 (sent_as (ExternalLabels (pcfg p))) (window_series at_ (pagg p)) (concat chunks) /\
    Forall (fun c => c <> []) chunks /\
    forall ts codes n rest, length ts = length payloads -> length codes = length payloads ->
      Forall (fun t' => cutoff t' p <= put_time t) ts -> Forall accepts codes -> replies n = map Some codes ++ rest ->
      exists p2 d2,
        replay_all ts p1 n (MkWorld d1 []) =
          (Ok (map (fun code => (SendSuccess, code, false)) codes,
               MkNet rest (requests n ++ zip_with (fun b code => (request_for p b, Some code)) payloads codes), p2), MkWorld d2 []) /\
        reserved (pagg p2) = [] /\ series (pagg p2) = ∅ /\ forall q f, ~ ready d2 q f.
Proof.
  intros Hc Hcne Hcsome Ha Hr Hw Hlen Hfit Hroom Hp Hn Ht Hcut Hq Hu.
  set (l := window_series at_ (pagg p)) in *. pose proof (encode_spec marshal (labelled p l) (MaxBatchBytes (pcfg p))) as Henc.
  destruct (encodeCustomBatches marshal (labelled p l) (MaxBatchBytes (pcfg p))) as [[e|payloads]|] eqn:Ee; [exfalso| |done].
  { destruct Henc as [(_ & chunk & _ & _ & Hm)|(s & b & Hs & Hm & Hl & _)]; [by apply (Hcsome chunk)|].
    apply list_elem_of_fmap in Hs as (s' & -> & Hs). specialize (Hfit s' _ b Hs (addExternalLabels_sent _ _) Hm). lia. }
  specialize (Hroom _ payloads (labelled_sent p l) Ee).
  pose proof (batches_count _ _ _ Henc) as Hcount. unfold labelled in Hcount. rewrite length_map in Hcount.
  destruct (batches_decode _ _ _ _ _ _ Hc Henc) as (_ & chunks & Hdec & Hconcat & Hnonempty).
  assert (batch_valid_input payloads) as Hv.
  { split_and!; [|clear -Henc Hcne|lia].
    - intros ->. inversion Henc as [E|]. destruct l; done.
    - induction Henc as [|chunk b rest ps Hne [Hm _] H IH]; [done|]. cbn [existsb]. rewrite IH, orb_false_r.
      unfold bytes_eqb. apply bool_decide_eq_false. by eapply Hcne. }
  destruct (flush_run at_ rnd t p now d payloads) as (p1 & d1 & E1 & Hp1 & (S1 & _ & S3 & S4) & Hr1 & Hs1 & Hmod); [done..|].
  exists payloads, chunks, p1, d1. split_and!; [done|done|rewrite Hconcat; apply labelled_sent|done|]. intros ts codes n rest Hts Hcl Hcuts Hcodes Hreplies. cbn [pspool psender set_agg] in S3, S4.
  destruct (replay_all_run ts p1 n _ d1 payloads codes rest Hp1) as (p2 & d2 & E2 & Hp2 & (_ & A2 & _)); try done.
  - eapply Forall_impl; [exact Hcuts|]. intros t' Ht' q f H. unfold cutoff in *. rewrite S3, (Hmod q f H). done.
  - by rewrite S3.
  - eapply batches_samples; [done|exact Henc|]. apply Forall_forall. intros s Hs. apply list_elem_of_fmap in Hs as (s' & -> & Hs).
    apply list_elem_of_fmap in Hs as (x & -> & _). done.
  - by rewrite S4.
  - exists p2, d2. rewrite A2. split_and!; [|done|done|by eapply no_payload_ready]. rewrite E2. unfold request_for. by rewrite S4.
Qed.

End end_to_end.

(** ** An example *)

Definition hits : Metric := demo_metric MetricTypeCounter (str "hits") 3 [] 10.
Definition hits_state : aggregateState := new_state demo_config (normalizeMetricName (Name hits)) (Type_ hits) (metric_labels ∅).
Definition hits_agg : Aggregator :=
  MkAggregator demo_config {[metric_key hits ∅ := hits_state]} [] (state_bytes hits_state) 0 ∅ 0 None.
Definition hits_pipeline : Pipeline :=
  MkPipeline (MkPipelineConfig 10 5 {[str "job" := str "agent"]} 1 2 one 5) hits_agg demo_spool demo_sender
    (MkPipelineMetrics (fun _ => 0) (fun _ => zero)) false true (fun _ => true) (newPressureState one 5) 0.

Lemma hits_agg_ok : agg_ok hits_agg.
Proof.
  split; cbn [hits_agg series cfg activeBytes gauges gaugeBytes].
  - apply map_Forall_singleton. apply new_state_ok; [done|apply map_Forall_empty].
  - unfold singletonM, map_singleton. by rewrite msum_insert, msum_empty, Z.add_0_r by apply lookup_empty.
  - apply map_Forall_empty.
  - by rewrite msum_empty.
Qed.

Lemma hits_window : exists s, window_series 20000000 (pagg hits_pipeline) = [s].
Proof.
  assert (length (window_series 20000000 (pagg hits_pipeline)) = 1%nat) as Hlen by (vm_compute; reflexivity).
  revert Hlen. generalize (window_series 20000000 (pagg hits_pipeline)). intros [|s [|s' l]] Hlen; [discriminate|by exists s|discriminate].
Qed.

Lemma window_delivered_witness :
  exists payloads p1 d1 p2 d2,
    FlushOnce demo_marshal 20000000 (str "9") demo_clock hits_pipeline (MkWorld empty_fs []) = (Ok (None, p1), MkWorld d1 []) /\
    length payloads = 1%nat /\
    replay_all demo_decode demo_unmarshal (fun _ => true) [demo_clock] p1 (MkNet [Some 204] []) (MkWorld d1 []) =
      (Ok ([(SendSuccess, 204, false)], MkNet [] (zip_with (fun b code => (request_for hits_pipeline b, Some code)) payloads [204]), p2), MkWorld d2 []).
Proof.
  destruct hits_window as [s Hs].
  destruct (window_delivered demo_marshal demo_decode demo_unmarshal (fun _ => true) 20000000 (str "9") demo_clock hits_pipeline 0 empty_fs)
    as (payloads & chunks & p1 & d1 & E & Hdec & Hconcat & Hne & H).
  - apply demo_codec_ok.
  - by intros s' b [= <-].
  - discriminate.
  - apply hits_agg_ok.
  - reflexivity.
  - rewrite Hs. discriminate.
  - rewrite Hs. reflexivity.
  - intros s1 s' b _ _ Eb. change (Some (Zpos (encode [s']) :: [0]) = Some b) in Eb.
    apply (f_equal (fun x => match x with Some b => length b | None => O end)) in Eb. cbn [length] in Eb. rewrite <-Eb. discriminate.
  - intros sent payloads Hsent He. pose proof (encode_spec demo_marshal sent (MaxBatchBytes (pcfg hits_pipeline))) as Hb.
    rewrite He in Hb. rewrite Hs in Hsent. apply Forall2_length in Hsent. pose proof (batches_count _ _ _ _ Hb) as Hc.
    rewrite <-Hsent in Hc. cbn [length] in Hc. destruct Hb as [|chunk payload rest payloads _ [_ Hl] _]; [discriminate|].
    destruct payloads; [|cbn [length] in Hc; lia]. unfold payload_bytes. cbn [foldr]. change (maxBytes (pspool hits_pipeline)) with (maxBytes demo_spool).
    change (MaxBatchBytes (pcfg hits_pipeline)) with 5 in Hl. etransitivity; [rewrite Z.add_0_r; exact Hl|discriminate].
  - apply empty_payloads.
  - split; discriminate.
  - reflexivity.
  - discriminate.
  - discriminate.
  - reflexivity.
  - assert (length payloads = 1%nat) as Hp.
    { rewrite (Forall2_length _ _ _ Hdec). rewrite Hs in Hconcat. apply Forall2_length in Hconcat. cbn [length] in Hconcat. symmetry in Hconcat.
      clear -Hconcat Hne. destruct Hne as [|c chunks Hc Hne]; [discriminate|]. destruct Hne as [|c' chunks Hc' Hne]; [reflexivity|].
      destruct c, c'; try congruence. cbn in Hconcat. rewrite length_app in Hconcat. cbn in Hconcat. lia. }
    destruct (H [demo_clock] [204] (MkNet [Some 204] []) []) as (p2 & d2 & E2 & _).
    + symmetry. exact Hp.
    + symmetry. exact Hp.
    + repeat constructor. discriminate.
    + constructor; [split; [discriminate|reflexivity]|constructor].
    + reflexivity.
    + exists payloads, p1, d1, p2, d2. split; [exact E|]. split; [exact Hp|exact E2].
Defined.

End StatsdEndToEnd.
